(* ===== verification/_CoqProject ===== *)
-Q . S2P
Prelude.v
Text.v
Scan.v
KeyValue.v
Heap.v
Hmap.v
HmapSpec.v
Containers.v
Shash.v
Unicode.v
Json.v
JsonLex.v
JsonNumber.v
JsonParse.v
JsonRead.v
JsonRoundtrip.v
JsonProps.v
Sort.v
Uuid.v
OvsdbTypes.v
OvsdbData.v
OvsdbDatum.v
OvsdbSets.v
OvsdbJson.v
OvsdbJsonThms.v
OvsdbTypeThms.v
OvsdbText.v
OvsdbTextThms.v
OvsdbTextSafe.v
OvsdbProps.v
OvsdbSchema.v
OvsdbCondition.v
OvsdbMutation.v
OvsdbArith.v
OvsdbSchemaThms.v
OvsdbMutationThms.v
OvsdbConditionThms.v
OvsdbDbProps.v
MacLearning.v
MacLearningInv.v
MacLearningOps.v
MacLearningSpec.v
MacLearningThms.v
MacLearningProps.v
Csum.v
Packets.v
BpfSnat.v
BpfSnatL4.v
Conntrack.v
ConntrackTcp.v
ConntrackTcpFlow.v
Netlink.v
Gateway.v
GatewayText.v
GatewayWire.v
Reconnect.v
Stp.v
StpInv.v
StpOps.v
StpProps.v
StpElection.v
StpReport.v
