(* ===== verification/Prelude.v ===== *)
(** * Verification of an Open vSwitch gateway

    The repository holds Open vSwitch 2.14.1 with a gateway extension (src/openvswitch-2.14.1,
    below written without that prefix), a source-NAT program for the traffic-control hook of
    Linux (src/bpf_snat.c), and installation scripts and notes. This library models the parts
    that decide something on their own -- protocol engines, state machines, parsers, codecs,
    data structures, packet rewriting -- as Rocq functions, and proves what they promise.

    ** The parts and how they interact

    - The spanning tree engine (lib/stp.c) decides which ports of a bridge forward. Its client
      calls it with received BPDUs and the passage of time.
    - The reconnect state machine (lib/reconnect.c) tells a connection when to connect, probe,
      disconnect and back off.
    - Controllers configure the gateway with the OpenFlow actions config_gw and handle_gw. Their
      text is split by the key-value parser (lib/ofp-parse.c), whose Ethernet addresses go
      through the scanner (lib/util.c); lib/ofp-actions.c encodes and decodes them;
      ofproto/ofproto-dpif-xlate.c turns them into Netlink attributes (lib/netlink.c) for the
      datapath. The command "dpctl set-gateway-params" takes another way: lib/dpctl.c parses
      its arguments, lib/dpif-netlink.c sends them, datapath/datapath.c reads them.
    - The connection tracker asks the trackers of the protocols (lib/conntrack-tcp.c,
      lib/conntrack-icmp.c, lib/conntrack-other.c) about each packet; they set expirations
      from timeout policies (lib/conntrack-tp.c).
    - Packet rewriting (lib/packets.c) keeps checksums with lib/csum.c. The program bpf_snat.c
      rewrites packets with checksum arithmetic of its own.
    - The MAC learning table (lib/mac-learning.c) keeps the port on which each address was seen,
      in a hash table (lib/hmap.c) by address, a hash table by port and a heap (lib/heap.c) of
      ports by the number of their addresses. Bundles of ports (ofproto/ofproto-dpif.c) flush
      and move its addresses; the learning switch of the test controller
      (lib/learning-switch.c) forwards by it. The heap is also the queue of the port monitor.
    - The JSON library (lib/json.c) reads and writes what the database protocols exchange. Its
      objects are tables of names (lib/shash.c) in hash tables; strings are checked and decoded
      by lib/unicode.c.
    - The values of the database are atoms, sets and maps (lib/ovsdb-data.c) of column types with
      constraints (lib/ovsdb-types.c). They are read from JSON, with an object parser
      (lib/ovsdb-parser.c) and errors as values (lib/ovsdb-error.c), and from the texts of the
      command line tools; UUIDs (lib/uuid.c) name rows, and symbols stand for UUIDs of rows to
      come. Sets and maps are kept in order by the quicksort of lib/sort.c.
    - The tables of the database server have columns of these types (ovsdb/column.c) in schemas
      (ovsdb/table.c), and rows of data (ovsdb/row.c). Clients select rows by conditions
      (ovsdb/condition.c, lib/ovsdb-condition.c) and change them by mutations
      (ovsdb/mutation.c); both are read from JSON against the schema of a table.

    ** Files

    - [Prelude]: record update, machine-width integers ([u16], [u32], [s32]), bytes in both byte
      orders, boolean comparisons, lexicographic order.
    - [Text], [Scan]: character classes, number printing and [atoi]; [ovs_scan] and its helpers.
    - [KeyValue]: [ofputil_parse_key_value], the loops over pairs, [str_to_mac].
    - [Heap]: the array with back pointers; all operations, the raw ones and the iteration
      included.
    - [Hmap], [HmapSpec]: hash tables with their buckets and links; their iterations and
      refinement of finite maps.
    - [Containers]: what hash tables and priority queues promise to their clients, as classes
      with [Hmap] and [Heap] as instances.
    - [MacLearning] to [MacLearningProps]: the MAC learning table over these classes, reserved
      addresses and the learning switch; the invariant of the table ([MacLearningInv]); single
      operations against lists of addresses ([MacLearningOps], [MacLearningSpec]); all
      operations as data and their simulation ([MacLearningThms]); the properties.
    - [Shash]: tables of names over any hash table.
    - [Unicode]: UTF-8 encoding and validation, surrogate pairs.
    - [Json]: values, lexer, parser with its stack, serializer, comparison, hash and clones.
      [JsonLex], [JsonNumber]: the text of strings, integers and numbers through the lexer.
      [JsonParse]: the invariant of the parser and input in pieces. [JsonRead],
      [JsonRoundtrip]: how printed values are read. [JsonProps]: the properties.
    - [Sort]: quicksort through callbacks, and what sorting promises as a class. [Uuid]: text,
      order and partial text of UUIDs.
    - [OvsdbTypes]: types, atoms, errors and the object parser, with the monad of fallible code
      ([outcome]: a value, an error, or a crash). [OvsdbData]: operations on data. [OvsdbJson]:
      data and types from and to JSON, the table of symbols. [OvsdbText]: the texts of data.
      [OvsdbDatum], [OvsdbSets]: order of atoms, lookup and sorting; data as sets.
      [OvsdbJsonThms], [OvsdbTypeThms]: reading JSON, in triples ([safe]) that exclude crashes.
      [OvsdbTextThms], [OvsdbTextSafe]: printed texts read back; any text is read without a
      crash. [OvsdbProps]: the properties.
    - [OvsdbSchema]: columns, sets of columns, table schemas and the fields of rows.
      [OvsdbCondition]: clauses, their order, the hash tables of equalities, matching.
      [OvsdbMutation]: 64-bit arithmetic, mutations and their execution. [OvsdbArith]: the
      arithmetic against integers without bounds. [OvsdbSchemaThms], [OvsdbMutationThms],
      [OvsdbConditionThms]: what is read is well formed; rows stay valid; clauses mean what
      their functions say and the hash tables find the same rows. [OvsdbDbProps]: the
      properties.
    - [Csum], [Packets]: checksums and their incremental updates; rewriting of IPv4 addresses,
      TOS, TTL and of TCP and UDP ports.
    - [BpfSnat], [BpfSnatL4]: bpf_snat.c, function by function; the second file is about TCP and
      UDP packets. Kernel helpers and the packet library are a record of operations, with
      their documented behaviour as the laws [helpers_ok].
    - [Conntrack], [ConntrackTcp], [ConntrackTcpFlow]: timeout policies, ICMP and other
      trackers; the TCP tracker; conversations through the TCP tracker.
    - [Netlink]: building, iterating, reading and validating attributes.
    - [Gateway], [GatewayText], [GatewayWire]: the gateway actions and parameters; their text;
      their way to the datapath and the kernel.
    - [Reconnect]: the whole state machine.
    - [Stp], [StpInv], [StpOps], [StpProps], [StpElection], [StpReport]: the engine; its
      invariant; the operations of the client as data; properties of reachable bridges;
      election and roles; timers, BPDUs and reports.

    ** How the code is represented

    A C struct is a record with the names of its fields, an enum an inductive type, a function
    a definition with the name of the function. Pointers into arrays are indices, buffers are
    lists of bytes, strings are lists of characters without the terminating null. Code that
    changes state takes the state and returns it; several results are a tuple; errors are
    [option], a sum, or the code's own numbers. Integers are [Z] with the wrap-around of their
    type written out wherever it can happen. Integers in memory follow the byte order of the
    host, which is a parameter ([endian]); theorems hold for both. Callbacks that only send are
    a list of what was sent. Locks, RCU, log messages, coverage counters and the release of
    memory are left out.

    ** What the theorems show

    - Spanning tree: the invariant of every reachable bridge, that root selection is optimal and
      better roots are adopted at once, that no port skips listening and learning, that roles
      and states agree, that hellos are complete, BPDUs read back, times stay in range, and
      changed ports are all reported.
    - Reconnect: reachable states are well formed; timeouts are exact; backoff doubles and
      saturates; the retry budget is kept; probes come on time.
    - Connection tracking: data stays within its types, states only advance, handshakes
      establish, blind packets are refused without effect, orderly closes make a connection
      reusable; policies take effect; directions are recorded exactly.
    - Checksums and rewriting: incremental updates equal recomputation and give the same bytes
      on hosts of both byte orders; header rewriting and both directions of source NAT, ICMP
      errors included, leave valid checksums and change nothing else.
    - Heap: every sequence of operations refines a priority queue given as a finite map, and
      rebuilding restores the order after raw operations.
    - Hash tables: every sequence of operations refines a finite map from nodes to hashes, and
      the iterators visit each node they should once.
    - MAC learning: the table refines a list of addresses in the order of use with fair
      eviction, ages exactly, misses no revalidation, skips only updates that change nothing,
      and makes the learning switch forward to where an address was seen. These hold for every
      choice of the hash functions.
    - JSON: printed values read back as equal values; on any input the parser gives an error or
      a value that is well formed and at most 1000 deep, however the input is cut into pieces;
      numbers of up to 19 digits are integers exactly when they denote one in range; equal
      values print in sorted order and hash alike. UTF-8 validation accepts exactly the encodings
      of sequences of scalar values. Tables of names refine finite maps. All hold for every
      choice of the hash function.
    - Database values: operations on data are those of finite sets and maps; a difference
      applied to the old data gives the new; data and types survive JSON, and data the texts of
      the tools; reading JSON, from the bytes on, never crashes and gives data that satisfy
      their type; reading texts does so under conditions on the type, and crashes without them.
      Sorting ends and sorts, as long as its random numbers vary; UUIDs have one text each.
    - Database tables: schemas read from any bytes are well formed, and rows survive JSON.
      Conditions select the rows that their clauses describe, tried in turn or through hash
      tables, if constants are not given by name and at most one is false, and go wrong
      otherwise. Mutations keep rows valid and have the effects of their operations, if they
      multiply integers by positive numbers only and do not multiply or divide real numbers;
      64-bit arithmetic is exact or an error but for products of numbers that are not positive.
    - Gateway: config_gw text reads back, handle_gw text exactly when its numbers are below ten;
      actions and parameters reach the datapath and the kernel unchanged.
    - Netlink and text: attributes round-trip, iteration over any bytes stays inside the buffer,
      policies are enforced, and the scanner and the key-value loops end on every input.

    ** Bounds and fuel

    Loops that are not structural take fuel, and it is proved to be enough: the scanner and the
    key-value loop take one more than the length of what they consume; the iteration over
    attributes takes the number of bytes, of which each round uses at least four; the option
    loop of TCP takes 64 for options of at most 40 bytes ([wscale_loop_fuel]); folding a 32-bit
    checksum takes two rounds ([csum_fold_done]); heap loops take the index, which halves on
    the way up, or the size, which the index passes by doubling on the way down; loops over a
    chain or all nodes of a hash table take its count, and those over learned addresses the
    length of their list (both follow from the refinement theorems, which fail if a loop stops
    early); draining changed ports takes 256 calls for at most 255 ports.
    The loop over JSON input takes twice its length, since each character is offered at most
    twice; unescaping and UTF-8 validation take the length of the string; scaling a number by
    powers of ten takes 20 rounds, since 64 bits hold less than 10^20.
    Quicksort takes [depth], a bound on nested calls that grows with the length and with the
    number of unlucky pivots in a row that its random numbers allow ([fair]); binary search
    takes one more than the size of the data; the loops over a text take its length; the check
    of a range against an enumeration takes the number of allowed values, since each round that
    goes on has found another one ([check_range_spec]). Data have fewer than 2^31 elements
    ([DATUM_MAX]), beyond which the midpoint of the search wraps around, and symbol tables at
    most 2^63 symbols and what an input adds.
    Checksum theorems are about data of at most 128 kB, where the 32-bit sum cannot overflow.
    Times of the reconnect machine and of the MAC learning table are integers without
    wrap-around; in the code they are 64-bit milliseconds and seconds.

    ** Not modelled

    The rest of the tree: the connection tracker core with its concurrent tables and NAT, RSTP,
    OpenFlow messages and the other actions, the classifier, datapaths, network devices,
    sockets and streams, JSON-RPC, the transactions, monitors, logs and replication of the OVSDB
    server and the replicas of its clients, the switch daemon, kernel modules, command line tools,
    Python bindings, tests, scripts. They are system calls, threads over shared memory, code
    generated at build time, or components of the size of the ones modelled here. Of modelled files, printers for operators (stp_print, netlink
    debug formats) are left out.

    Interleavings of threads are not modelled: each function is one step, so an update of the
    MAC learning table happens in one piece although the code drops the read lock before it
    takes the write lock. Flushing a bundle covers the table of its own bridge only.

    Floating-point numbers belong to the C library: in the scanner their conversion is a
    parameter; the JSON library and the database take them from the classes [Double] and
    [DoubleOrder], with what they rely on as the laws [DoubleOk]. So are the random numbers of
    the sort, the generator of UUIDs, the messages of system errors and the hash functions.
    Of JSON values the reference counts are left out, and with them sharing between a value and
    its clones; line and column counters of its parser do not wrap, and input is shorter than
    2^63 - 1 bytes ([fits]). Atoms are values, so that copying and swapping them, shared default
    values and the stack traces of internal errors are left out. Of rows only the fields are
    modelled, not the hash tables of a table, the references between rows or sets of rows. The
    order of clauses is that of the C library's qsort, a parameter that sorts when the
    comparison is a total order; the arithmetic of real numbers is the class [DoubleArith] with
    the laws [DoubleArithOk]. Of tables of names, swapping and moving, the variants
    that free the data, and random nodes are left out. *)
From stdpp Require Export base list numbers option strings.
From Stdlib Require Export ZArith Lia.

#[global] Set Default Goal Selector "!".

Declare Scope ovs_scope.
Delimit Scope ovs_scope with ovs.
#[global] Open Scope ovs_scope.
#[global] Open Scope Z_scope.

(** ** Functional record update *)

(** The eta-expansion of a record type, declared once per record; the setter of
    a field is derived from it by instance search. *)
Class RecordEta (R : Type) := record_eta : R -> R.

Class FieldSetter {R T : Type} (field : R -> T) := upd : (T -> T) -> R -> R.
Arguments upd {R T} field {_} _ _ : simpl never.

Ltac derive_field_setter R field :=
  let inst := constr:(_ : RecordEta R) in
  let body := eval hnf in inst in
  lazymatch eval pattern field in body with
  | ?abs _ =>
      let s := eval cbv beta in (fun g => abs (fun r => g (field r))) in
      exact s
  end.

#[global] Hint Extern 1 (@FieldSetter ?R _ ?field) =>
  derive_field_setter R field : typeclass_instances.

#[warnings="-postfix-notation-not-level-1"]
Notation "r <| f := v |>" := (upd f (λ _, v) r)
  (at level 12, f at next level, left associativity,
   format "r  <| f  :=  v |>") : ovs_scope.
#[warnings="-postfix-notation-not-level-1"]
Notation "r <| f ::= g |>" := (upd f g r)
  (at level 12, f at next level, left associativity,
   format "r  <| f  ::=  g |>") : ovs_scope.

(** Simplifies projections of updated records, one update at a time (so that the
    size of the terms stays linear in the number of updates). *)
Ltac is_type A := lazymatch type of A with Type => idtac | Set => idtac end.

(** A projection, applied to the parameters of its record if it has any. *)
Ltac is_field f :=
  first [ is_const f
        | lazymatch f with
          | ?c ?A ?B => is_const c; is_type A; is_type B
          | ?c ?A => is_const c; is_type A
          end ].

Ltac pose_field_of_upd f g h E :=
  is_field f;
  tryif constr_eq f g
  then assert (E : forall x, f (upd g h x) = h (f x)) by (intro; reflexivity)
  else assert (E : forall x, f (upd g h x) = f x) by (intro; reflexivity).

Ltac rsimpl_once :=
  let E := fresh in
  match goal with
  | |- context [?f (upd ?g ?h ?r)] =>
      pose_field_of_upd f g h E; rewrite (E r); clear E; cbv beta
  | H : context [?f (upd ?g ?h ?r)] |- _ =>
      pose_field_of_upd f g h E; rewrite (E r) in H; clear E; cbv beta in H
  end.

Ltac rsimpl := repeat rsimpl_once.

(** ** Machine integers *)

(** Unsigned wrap-around at a given width, and the widths of the C types. *)
Definition wrap (w x : Z) : Z := x mod 2 ^ w.
Abbreviation u8 := (wrap 8).
Abbreviation u16 := (wrap 16).
Abbreviation u32 := (wrap 32).
Abbreviation u64 := (wrap 64).

(** Two's complement conversion to a signed type of width [w]. *)
Definition swrap (w x : Z) : Z := (x + 2 ^ (w - 1)) mod 2 ^ w - 2 ^ (w - 1).
Abbreviation s32 := (swrap 32).
Abbreviation s64 := (swrap 64).

Definition INT_MAX : Z := 2 ^ 31 - 1.
Definition UINT_MAX : Z := 2 ^ 32 - 1.
Definition LLONG_MAX : Z := 2 ^ 63 - 1.
Definition LLONG_MIN : Z := - 2 ^ 63.

(** [x] is a value of the unsigned type of width [w]. *)
Definition in_u (w x : Z) : Prop := 0 <= x < 2 ^ w.

Lemma wrap_range w x : 0 <= w -> in_u w (wrap w x).
Proof. intros. apply Z.mod_pos_bound. apply Z.pow_pos_nonneg; lia. Qed.

Lemma wrap_small w x : in_u w x -> wrap w x = x.
Proof. intros. by apply Z.mod_small. Qed.

Lemma swrap_small w x : - 2 ^ (w - 1) <= x < 2 ^ (w - 1) -> 1 <= w -> swrap w x = x.
Proof.
  intros H Hw. unfold swrap. replace (2 ^ w) with (2 * 2 ^ (w - 1)).
  - rewrite Z.mod_small; lia.
  - rewrite <- Z.pow_succ_r by lia. f_equal. lia.
Qed.

Lemma wrap_swrap w x : wrap w (swrap w x) = wrap w x.
Proof.
  unfold wrap, swrap. rewrite Zminus_mod_idemp_l. f_equal. lia.
Qed.

Lemma wrap_idemp w x : wrap w (wrap w x) = wrap w x.
Proof. unfold wrap. apply Zmod_mod. Qed.

Lemma wrap_add_idemp_l w x y : wrap w (wrap w x + y) = wrap w (x + y).
Proof. unfold wrap. apply Zplus_mod_idemp_l. Qed.

Lemma wrap_add_idemp_r w x y : wrap w (x + wrap w y) = wrap w (x + y).
Proof. unfold wrap. apply Zplus_mod_idemp_r. Qed.

(** Wrapping at a positive width keeps the low bit. *)
Lemma wrap_odd w x : 0 < w -> Z.odd (wrap w x) = Z.odd x.
Proof.
  intros Hw. unfold wrap. rewrite <- !Z.bit0_odd, Z.mod_pow2_bits_low; [done | lia].
Qed.

Create HintDb ovs discriminated.
#[export] Hint Resolve wrap_range wrap_small : ovs.
#[export] Hint Rewrite wrap_idemp wrap_add_idemp_l wrap_add_idemp_r : ovs.

(** ** Tactics *)

(** Case analysis on the first integer or Boolean test that drives an [if] or a
    Boolean connective, in the goal or in a hypothesis, recording its meaning. *)
Ltac ztest b :=
  lazymatch b with
  | (?x <? ?y) => destruct (Z.ltb_spec x y)
  | (?x <=? ?y) => destruct (Z.leb_spec x y)
  | (?x >? ?y) => rewrite (Z.gtb_ltb x y) in *; destruct (Z.ltb_spec y x)
  | (?x >=? ?y) => rewrite (Z.geb_leb x y) in *; destruct (Z.leb_spec y x)
  | (?x =? ?y) => destruct (Z.eqb_spec x y)
  | bool_decide _ => case_bool_decide
  | negb ?c => ztest c
  | ?c && _ => ztest c
  | ?c || _ => ztest c
  | _ => let E := fresh "Hif" in destruct b eqn:E
  end.

Ltac zcase :=
  match goal with
  | |- context [if ?b then _ else _] => ztest b
  | H : context [if ?b then _ else _] |- _ => ztest b
  end.

Ltac zcases := repeat (zcase; cbn [negb andb orb] in *).

(** ** Big-endian byte strings *)

(** The [n] low bytes of [x], most significant first. *)
Fixpoint be_bytes (n : nat) (x : Z) : list Z :=
  match n with
  | O => []
  | S n => (x / 2 ^ (8 * Z.of_nat n)) mod 256 :: be_bytes n x
  end.

(** The number that a big-endian byte string denotes. *)
Definition be_val (l : list Z) : Z := foldl (fun acc b => acc * 256 + b) 0 l.

Lemma length_be_bytes n x : length (be_bytes n x) = n.
Proof. induction n; cbn [be_bytes length]; congruence. Qed.

Lemma be_val_app_acc l acc :
  foldl (fun acc b => acc * 256 + b) acc l = acc * 2 ^ (8 * Z.of_nat (length l)) + be_val l.
Proof.
  unfold be_val. revert acc. induction l as [| b l IH]; intros acc; cbn [foldl length].
  - rewrite Z.mul_1_r. lia.
  - rewrite IH, (IH (0 * 256 + b)).
    replace (8 * Z.of_nat (S (length l))) with (8 + 8 * Z.of_nat (length l)) by lia.
    rewrite Z.pow_add_r by lia. change (2 ^ 8) with 256. ring.
Qed.

Lemma be_val_bytes n x : be_val (be_bytes n x) = x mod 2 ^ (8 * Z.of_nat n).
Proof.
  induction n as [| n IH]; [by rewrite Z.mod_1_r |].
  cbn [be_bytes]. unfold be_val. cbn [foldl].
  rewrite be_val_app_acc, length_be_bytes, IH.
  replace (8 * Z.of_nat (S n)) with (8 * Z.of_nat n + 8) by lia.
  rewrite Z.pow_add_r by lia. change (2 ^ 8) with 256.
  rewrite Z.rem_mul_r by lia. ring.
Qed.

Lemma be_val_bytes_small n x : in_u (8 * Z.of_nat n) x -> be_val (be_bytes n x) = x.
Proof. intros. rewrite be_val_bytes. by apply Z.mod_small. Qed.

Lemma be_val_range l : Forall (in_u 8) l -> 0 <= be_val l < 2 ^ (8 * Z.of_nat (length l)).
Proof.
  induction l as [| x l IH] using rev_ind; [done |].
  rewrite Forall_app, Forall_singleton. intros [H Hx].
  specialize (IH H). unfold be_val in *. rewrite foldl_snoc, length_app. cbn [length].
  replace (8 * Z.of_nat (length l + 1)) with (8 * Z.of_nat (length l) + 8) by lia.
  rewrite Z.pow_add_r by lia. unfold in_u in Hx. change (2 ^ 8) with 256 in *. nia.
Qed.

(** The [n] bytes at offset [o] of a buffer. *)
Definition bytes_at (o n : nat) (l : list Z) : list Z := take n (drop o l).

(** ** Host byte order *)

Inductive endian := Little | Big.

(** An [n]-byte integer in the memory of a host. *)
Definition host_bytes (e : endian) (n : nat) (x : Z) : list Z :=
  match e with Little => rev (be_bytes n x) | Big => be_bytes n x end.

Definition host_val (e : endian) (l : list Z) : Z :=
  match e with Little => be_val (rev l) | Big => be_val l end.

Lemma length_host_bytes e n x : length (host_bytes e n x) = n.
Proof. destruct e; cbn [host_bytes]; by rewrite ?length_rev, length_be_bytes. Qed.

Lemma host_val_bytes e n x :
  in_u (8 * Z.of_nat n) x -> host_val e (host_bytes e n x) = x.
Proof.
  intros. destruct e; cbn [host_val host_bytes]; rewrite ?rev_involutive; by apply be_val_bytes_small.
Qed.

Lemma take_app_exact {A} n (l k : list A) : length l = n -> take n (l ++ k) = l.
Proof. intros <-. apply take_app_length. Qed.

Lemma drop_app_exact {A} n (l k : list A) : length l = n -> drop n (l ++ k) = k.
Proof. intros <-. apply drop_app_length. Qed.

(** ** Lexicographic order on integer vectors *)

Fixpoint lex_lt (a b : list Z) : bool :=
  match a, b with
  | x :: a, y :: b => if x =? y then lex_lt a b else x <? y
  | [], _ :: _ => true
  | _, [] => false
  end.

Lemma lex_lt_irrefl a : lex_lt a a = false.
Proof. induction a as [| x a IH]; cbn; [done |]. by rewrite Z.eqb_refl. Qed.

Lemma lex_lt_trans a b c : lex_lt a b = true -> lex_lt b c = true -> lex_lt a c = true.
Proof.
  revert b c. induction a as [| x a IH]; intros [| y b] [| z c]; cbn; try done.
  destruct (Z.eqb_spec x y), (Z.eqb_spec y z), (Z.eqb_spec x z); subst; try lia.
  - apply IH.
Qed.

Lemma lex_lt_total a b :
  length a = length b -> lex_lt a b = false -> lex_lt b a = false -> a = b.
Proof.
  revert b. induction a as [| x a IH]; intros [| y b]; cbn; try done.
  intros [= Hl]. destruct (Z.eqb_spec x y), (Z.eqb_spec y x); subst; try lia.
  intros. f_equal. by apply IH.
Qed.

Lemma lex_lt_asym a b : lex_lt a b = true -> lex_lt b a = false.
Proof.
  intros H. destruct (lex_lt b a) eqn:E; [| done].
  pose proof (lex_lt_trans _ _ _ H E) as C. by rewrite lex_lt_irrefl in C.
Qed.

(** "Not greater" is transitive as well. *)
Lemma lex_ge_trans a b c :
  length a = length b -> length b = length c ->
  lex_lt b a = false -> lex_lt c b = false -> lex_lt c a = false.
Proof.
  intros L1 L2 H1 H2. destruct (lex_lt c a) eqn:E; [| done].
  destruct (lex_lt a b) eqn:E1.
  - pose proof (lex_lt_trans _ _ _ E E1). congruence.
  - assert (a = b) as -> by by apply lex_lt_total. congruence.
Qed.
