(* ===== verification/Text.v ===== *)
(** Characters and numbers as the C library handles them: strings as lists of characters
    (the terminating null is the end of the list), the character classes that the sources
    test, and the integer conversions of [printf] and [atoi]. *)
From Stdlib Require Export Ascii.
From S2P Require Import Prelude.

Abbreviation chars := (list ascii).
Definition str (s : string) : chars := String.list_ascii_of_string s.
Arguments str s%_string_scope.
Infix "=c" := Ascii.eqb (at level 70, no associativity).

Definition code (c : ascii) : Z := Z.of_nat (nat_of_ascii c).

(** [*s], null at the end. *)
Definition NUL : ascii := ascii_of_nat 0.
Definition hd_char (s : chars) : ascii := match s with [] => NUL | c :: _ => c end.

(** [strchr(set, c)] as a truth value; it also finds the terminator of [set]. *)
Definition strchr (set : chars) (c : ascii) : bool := existsb (λ d, c =c d) set || (c =c NUL).

Definition isspace (c : ascii) : bool :=
  let c := code c in (c =? 32) || ((9 <=? c) && (c <=? 13)).

Definition isdigit (c : ascii) : bool :=
  let c := code c in (48 <=? c) && (c <=? 57).

Definition hexit_value (c : ascii) : Z :=
  let x := code c in
  if (x >=? 48) && (x <=? 57) then x - 48
  else if (x >=? 97) && (x <=? 102) then x - 97 + 0xa
  else if (x >=? 65) && (x <=? 70) then x - 65 + 0xa
  else -1.

(** The longest prefix of characters that satisfy [f], and the rest. *)
Fixpoint span (f : ascii -> bool) (s : chars) : chars * chars :=
  match s with
  | [] => ([], [])
  | c :: s' => if f c then let '(a, b) := span f s' in (c :: a, b) else ([], s)
  end.

Lemma span_app f a b :
  forallb f a = true -> f (hd_char b) = false \/ b = [] -> span f (a ++ b) = (a, b).
Proof.
  intros Ha Hb. induction a as [| c a IH]; cbn [app span forallb] in *.
  - destruct b as [| c b]; [done |]. cbn [span hd_char] in *. by destruct Hb as [-> | [=]].
  - apply andb_prop in Ha as [-> Ha]. by rewrite IH.
Qed.

Lemma span_split f s : (span f s).1 ++ (span f s).2 = s.
Proof.
  induction s as [| c s IH]; cbn [span]; [done |]. destruct (f c); [| done].
  destruct (span f s) as [a b]. cbn [fst snd app] in *. by rewrite IH.
Qed.

(** ** printf("%u"), printf("%x") *)

Definition digit_char (d : Z) : ascii :=
  ascii_of_nat (Z.to_nat (if d <? 10 then 48 + d else 97 + (d - 10))).

(** The digits of [x] in base [b], most significant first; [fuel] bounds their number. *)
Fixpoint digits (fuel : nat) (b x : Z) (acc : list Z) : list Z :=
  match fuel with
  | O => acc
  | S fuel =>
      let acc := x mod b :: acc in
      if x / b =? 0 then acc else digits fuel b (x / b) acc
  end.

(** 64 digits are enough for a 64-bit number in any base. *)
Definition print_uint (b x : Z) : chars := map digit_char (digits 64 b x []).

(** printf("%02x") of a byte. *)
Definition print_hex2 (x : Z) : chars := [digit_char (x / 16); digit_char (x mod 16)].

(** The number that a list of digits denotes, from [v]. *)
Definition digits_value (b : Z) (v : Z) (l : list Z) : Z := foldl (λ v d, v * b + d) v l.

(** Wrapping the start value does not change the wrapped result. *)
Lemma digits_value_wrap w b v l :
  wrap w (digits_value b (wrap w v) l) = wrap w (digits_value b v l).
Proof.
  revert v. induction l as [| d l IH]; intros v; cbn [digits_value foldl]; [apply wrap_idemp |].
  fold (digits_value b (wrap w v * b + d) l) (digits_value b (v * b + d) l).
  rewrite <- IH, <- (IH (v * b + d)). do 2 f_equal.
  rewrite <- wrap_add_idemp_l, <- (wrap_add_idemp_l w (v * b)). do 2 f_equal.
  unfold wrap. apply Zmult_mod_idemp_l.
Qed.

Lemma digits_app fuel b x acc : digits fuel b x acc = digits fuel b x [] ++ acc.
Proof.
  revert x acc. induction fuel as [| fuel IH]; intros x acc; cbn [digits]; [done |].
  destruct (_ =? 0); [done |]. rewrite IH, (IH _ [_]), <- app_assoc. done.
Qed.

Lemma digits_spec fuel b x :
  2 <= b -> 0 <= x < b ^ Z.of_nat fuel ->
  digits_value b 0 (digits fuel b x []) = x /\
  Forall (λ d, 0 <= d < b) (digits fuel b x []).
Proof.
  intros Hb. revert x. induction fuel as [| fuel IH]; intros x Hx; cbn [digits].
  - change (Z.of_nat 0) with 0 in Hx. rewrite Z.pow_0_r in Hx. split; [cbn; lia | constructor].
  - pose proof (Z.mod_pos_bound x b ltac:(lia)). pose proof (Z.div_mod x b ltac:(lia)) as Hdm.
    destruct (Z.eqb_spec (x / b) 0).
    + split; [cbn; lia | by apply Forall_singleton].
    + rewrite digits_app. rewrite Nat2Z.inj_succ, Z.pow_succ_r in Hx by lia.
      destruct (IH (x / b)) as [IH1 IH2].
      { split; [apply Z.div_pos; lia | apply Z.div_lt_upper_bound; lia]. }
      split.
      * unfold digits_value in *. rewrite foldl_app, IH1. cbn [foldl]. lia.
      * apply Forall_app. split; [done | by apply Forall_singleton].
Qed.

Lemma digits_nonempty fuel b x acc : digits (S fuel) b x acc <> [].
Proof.
  revert x acc. induction fuel as [| fuel IH]; intros x acc; cbn [digits];
    destruct (_ =? 0); try done. apply IH.
Qed.

Lemma digit_char_spec d : 0 <= d < 16 -> hexit_value (digit_char d) = d.
Proof.
  intros Hd. assert (forallb (λ d, hexit_value (digit_char d) =? d)
    (map Z.of_nat (seq 0 16)) = true) as H by by vm_compute.
  rewrite forallb_forall in H. apply Z.eqb_eq, H. apply in_map_iff.
  exists (Z.to_nat d). split; [lia | apply in_seq; lia].
Qed.

(** ** atoi *)

(** [strtol(s, NULL, 10)] for a 64-bit [long]: optional white space and sign, then decimal
    digits; out-of-range values saturate. *)
Definition strtol10 (s : chars) : Z :=
  let s := (span isspace s).2 in
  let negative := hd_char s =c "-" in
  let s := if negative || (hd_char s =c "+") then tail s else s in
  let v := digits_value 10 0 (map hexit_value (span isdigit s).1) in
  let v := if negative then - v else v in
  Z.max LLONG_MIN (Z.min v LLONG_MAX).

(** [atoi] is [(int) strtol(s, NULL, 10)]. *)
Definition atoi (s : chars) : Z := s32 (strtol10 s).

Lemma digit_char_isdigit d : 0 <= d < 10 -> isdigit (digit_char d) = true.
Proof.
  intros Hd. assert (forallb (λ d, isdigit (digit_char d)) (map Z.of_nat (seq 0 10)) = true) as H
    by by vm_compute.
  rewrite forallb_forall in H. apply H, in_map_iff.
  exists (Z.to_nat d). split; [lia | apply in_seq; lia].
Qed.

Lemma print_uint_digits b x :
  2 <= b <= 16 -> in_u 64 x ->
  exists l, print_uint b x = map digit_char l /\ l <> [] /\
    digits_value b 0 l = x /\ Forall (λ d, 0 <= d < b) l.
Proof.
  intros Hb Hx. exists (digits 64 b x []). unfold in_u in Hx.
  assert (2 ^ 64 <= b ^ Z.of_nat 64) by (apply Z.pow_le_mono_l; lia).
  destruct (digits_spec 64 b x ltac:(lia) ltac:(lia)) as [H1 H2].
  split; [done | split; [apply digits_nonempty | done]].
Qed.

Lemma map_hexit l : Forall (λ d, 0 <= d < 16) l -> map hexit_value (map digit_char l) = l.
Proof.
  induction 1 as [| d l Hd _ IH]; cbn [map]; [done |]. by rewrite digit_char_spec, IH.
Qed.

Lemma digits_isdigit l :
  Forall (λ d, 0 <= d < 10) l -> forallb isdigit (map digit_char l) = true.
Proof.
  induction 1 as [| d l Hd _ IH]; cbn [map forallb]; [done |]. by rewrite digit_char_isdigit.
Qed.

(** [atoi] reads back what [printf("%u")] prints of a 32-bit number, as an [int] of the same
    bits. *)
Lemma atoi_print x : in_u 32 x -> u32 (atoi (print_uint 10 x)) = x.
Proof.
  intros Hx. destruct (print_uint_digits 10 x) as (l & -> & Hne & Hv & Hd); [lia | |].
  { unfold in_u in *. lia. }
  unfold atoi. rewrite wrap_swrap. unfold strtol10.
  assert (hd_char (map digit_char l) <> "-"%char /\ hd_char (map digit_char l) <> "+"%char /\
    isspace (hd_char (map digit_char l)) = false) as (H1 & H2 & H3).
  { destruct l as [| d l]; [done |]. cbn [map hd_char]. apply Forall_cons in Hd as [Hd _].
    assert (forallb (λ d, negb (digit_char d =c "-") && negb (digit_char d =c "+") &&
      negb (isspace (digit_char d))) (map Z.of_nat (seq 0 10)) = true) as H by by vm_compute.
    rewrite forallb_forall in H. specialize (H d).
    destruct (andb_prop _ _ (H ltac:(apply in_map_iff; exists (Z.to_nat d); split;
      [lia | apply in_seq; lia]))) as [[H1 H2]%andb_prop H3].
    apply negb_true_iff in H1, H2, H3. by rewrite Ascii.eqb_neq in H1, H2. }
  assert (span isspace (map digit_char l) = ([], map digit_char l)) as ->.
  { apply (span_app isspace []); [done | by left]. }
  cbn [snd]. apply Ascii.eqb_neq in H1, H2. rewrite H1, H2. cbn [orb].
  rewrite <- (app_nil_r (map digit_char l)), span_app; [| by apply digits_isdigit | by right].
  cbn [fst]. rewrite map_hexit, Hv by (eapply Forall_impl; [done |]; cbn; lia).
  unfold in_u, LLONG_MIN, LLONG_MAX, wrap in *. rewrite Z.mod_small; lia.
Qed.
