(* ===== verification/Scan.v ===== *)
(** [ovs_scan], the library's [sscanf] (lib/util.c).

    The format and the input are strings; what the C code stores through its variadic
    arguments is collected, in order, in a list.  The conversion of floating-point numbers
    rests on the C library's [strtold] and is a parameter. *)
From S2P Require Import Prelude Text.

Module Scan.

(** ** Data *)

Inductive scan_type :=
  | SCAN_DISCARD | SCAN_CHAR | SCAN_SHORT | SCAN_INT | SCAN_LONG | SCAN_LLONG
  | SCAN_INTMAX_T | SCAN_PTRDIFF_T | SCAN_SIZE_T.

Record scan_spec := mk_spec { width : Z; type : scan_type }.

(** What is stored through one argument: the bits of an integer, a string, characters
    without a terminator, a position, or the bits of a floating-point number. *)
Inductive out :=
  | OInt (v : Z)
  | OString (s : chars)
  | OChars (s : chars)
  | OPos (n : Z)
  | OFloat (v : Z).

(** The width in bits of the destination of an integer conversion. *)
Definition type_bits (t : scan_type) : Z :=
  match t with
  | SCAN_DISCARD => 0
  | SCAN_CHAR => 8
  | SCAN_SHORT => 16
  | SCAN_INT => 32
  | _ => 64
  end.

Definition discarded (t : scan_type) : bool := match t with SCAN_DISCARD => true | _ => false end.

(** A conversion yields what it stores and the rest of the input; [None] is a null
    pointer. *)
Definition conversion : Type := option (list out * chars).

(** ** Conversions *)

Definition skip_spaces (s : chars) : chars := (span isspace s).2.

(** The loop over digits: the value, the number of digits, and the rest; [room] is what the
    field width leaves. *)
Fixpoint scan_digits (base room value n_digits : Z) (s : chars) : Z * Z * chars :=
  match s with
  | [] => (value, n_digits, s)
  | c :: s' =>
      if room <=? 0 then (value, n_digits, s)
      else
        let digit := hexit_value c in
        if (digit <? 0) || (digit >=? base) then (value, n_digits, s)
        else scan_digits base (room - 1) (u64 (value * base + digit)) (n_digits + 1) s'
  end.

(** The base and the number of characters of a "0x" prefix. *)
Definition scan_base (base : Z) (s : chars) : Z * nat :=
  if ((base =? 0) || (base =? 16)) && (hd_char s =c "0")
     && ((hd_char (tail s) =c "x") || (hd_char (tail s) =c "X")) then (16, 2%nat)
  else if base =? 0 then ((if hd_char s =c "0" then 8 else 10), 0%nat)
  else (base, 0%nat).

Definition scan_int (s : chars) (spec : scan_spec) (base : Z) : conversion :=
  let negative := hd_char s =c "-" in
  let sign := if negative || (hd_char s =c "+") then 1%nat else 0%nat in
  let '(base, prefix) := scan_base base (drop sign s) in
  let start := Z.of_nat sign + Z.of_nat prefix in
  if start >=? width spec then None
  else
    let '(value, n_digits, rest) :=
      scan_digits base (width spec - start) 0 0 (drop (sign + prefix) s) in
    if n_digits =? 0 then None
    else
      let value := if negative then u64 (- value) else value in
      Some (if discarded (type spec) then [] else [OInt (wrap (type_bits (type spec)) value)], rest).

Definition scan_output_string (spec : scan_spec) (s : chars) : list out :=
  if discarded (type spec) then [] else [OString s].

(** Characters up to the field width that satisfy [f]. *)
Fixpoint take_while (f : ascii -> bool) (room : Z) (s : chars) : chars * chars :=
  match s with
  | [] => ([], [])
  | c :: s' =>
      if (room >? 0) && f c then let '(a, b) := take_while f (room - 1) s' in (c :: a, b)
      else ([], s)
  end.

Definition scan_string (s : chars) (spec : scan_spec) : conversion :=
  let '(a, rest) := take_while (λ c, negb (isspace c)) (width spec) s in
  match a with
  | [] => None
  | _ => Some (scan_output_string spec a, rest)
  end.

(** The members of a scan set: the bits set so far and the rest of the format. *)
Fixpoint scanset_loop (set : Z -> bool) (p : chars) : (Z -> bool) * chars :=
  match p with
  | [] => (set, [])
  | c :: p1 =>
      if c =c "]" then (set, p)
      else
        match p1 with
        | d :: (e :: p3) =>
            if (d =c "-") && negb (e =c "]") && (code e >? code c)
            then scanset_loop (λ x, ((code c <=? x) && (x <=? code e)) || set x) p3
            else scanset_loop (λ x, (x =? code c) || set x) p1
        | _ => scanset_loop (λ x, (x =? code c) || set x) p1
        end
  end.

Definition parse_scanset (p : chars) : (Z -> bool) * bool * chars :=
  let complemented := hd_char p =c "^" in
  let p := if complemented then tail p else p in
  let '(set, p) :=
    if hd_char p =c "]" then ((λ x, x =? code "]"), tail p) else ((λ _, false), p) in
  let '(set, p) := scanset_loop set p in
  (set, complemented, if hd_char p =c "]" then tail p else p).

Definition scan_set (s : chars) (spec : scan_spec) (p : chars) : conversion * chars :=
  let '(set, complemented, p) := parse_scanset p in
  let '(a, rest) := take_while (λ c, Bool.eqb (set (code c)) (negb complemented)) (width spec) s in
  (match a with
   | [] => None
   | _ => Some (scan_output_string spec a, rest)
   end, p).

Definition scan_chars (s : chars) (spec : scan_spec) : conversion :=
  let n := if width spec =? UINT_MAX then 1 else width spec in
  if Z.of_nat (length s) <? n then None
  else Some (if discarded (type spec) then [] else [OChars (take (Z.to_nat n) s)],
             drop (Z.to_nat n) s).

(** ** The format *)

Definition scan_width (p : chars) : Z * chars :=
  let '(ds, p) := span isdigit p in
  let w := foldl (λ w c, u32 (w * 10 + (code c - 48))) 0 ds in
  (if w =? 0 then UINT_MAX else w, p).

Definition scan_modifier (p : chars) : scan_type * chars :=
  let c := hd_char p in
  if c =c "h" then
    if hd_char (tail p) =c "h" then (SCAN_CHAR, drop 2 p) else (SCAN_SHORT, tail p)
  else if c =c "j" then (SCAN_INTMAX_T, tail p)
  else if c =c "l" then
    if hd_char (tail p) =c "l" then (SCAN_LLONG, drop 2 p) else (SCAN_LONG, tail p)
  else if (c =c "L") || (c =c "q") then (SCAN_LLONG, tail p)
  else if c =c "t" then (SCAN_PTRDIFF_T, tail p)
  else if c =c "z" then (SCAN_SIZE_T, tail p)
  else (SCAN_INT, p).

(** Flags, width and modifier of a conversion after its percent sign. *)
Definition parse_spec (p : chars) : scan_spec * chars :=
  let discard := hd_char p =c "*" in
  let p := if discard then tail p else p in
  let '(w, p) := scan_width p in
  let '(t, p) := scan_modifier p in
  (mk_spec w (if discard then SCAN_DISCARD else t), p).

(** How a scan ends: [ScanOk] with the rest of the input, [ScanFail] at a mismatch (what was
    stored before it stays stored), [ScanBadFormat] when the format ends inside a conversion
    and the code reads past its end. *)
Inductive scan_result :=
  | ScanOk (outs : list out) (rest : chars)
  | ScanFail (outs : list out)
  | ScanBadFormat (outs : list out)
  | ScanOutOfFuel.

Section Scan.
Context (scan_float : chars -> scan_spec -> conversion).

(** One conversion: what it does with the input [s], and the rest of the format. *)
Definition convert (c : ascii) (spec : scan_spec) (start : nat) (s p : chars) : conversion * chars :=
  let s := if (c =c "c") || (c =c "n") || (c =c "[") then s else skip_spaces s in
  if (c =c "d") || (c =c "u") then (scan_int s spec 10, p)
  else if c =c "i" then (scan_int s spec 0, p)
  else if c =c "o" then (scan_int s spec 8, p)
  else if (c =c "x") || (c =c "X") then (scan_int s spec 16, p)
  else if (c =c "e") || (c =c "f") || (c =c "g") || (c =c "E") || (c =c "G") then
    (scan_float s spec, p)
  else if c =c "s" then (scan_string s spec, p)
  else if c =c "[" then scan_set s spec p
  else if c =c "c" then (scan_chars s spec, p)
  else if c =c "n" then
    (Some (if discarded (type spec) then []
           else [OPos (Z.of_nat start - Z.of_nat (length s))], s), p)
  else (Some ([], s), p).

(** The loop of [ovs_scan__]; [start] is the length of the whole input. *)
Fixpoint scan_loop (fuel start : nat) (p s : chars) (outs : list out) : scan_result :=
  match fuel with
  | O => ScanOutOfFuel
  | S fuel =>
      match p with
      | [] => ScanOk outs s
      | c :: p =>
          if isspace c then scan_loop fuel start p (skip_spaces s) outs
          else if negb (c =c "%") then
            if hd_char s =c c then scan_loop fuel start p (tail s) outs else ScanFail outs
          else if hd_char p =c "%" then
            if hd_char s =c "%" then scan_loop fuel start (tail p) (tail s) outs
            else ScanFail outs
          else
            let '(spec, p) := parse_spec p in
            match p with
            | [] => ScanBadFormat outs
            | c :: p =>
                match convert c spec start s p with
                | (None, _) => ScanFail outs
                | (Some (o, s), p) => scan_loop fuel start p s (outs ++ o)
                end
            end
      end
  end.

Definition ovs_scan__ (s format : chars) : scan_result :=
  scan_loop (S (length format)) (length s) format s [].

(** [ovs_scan]: what it stored, if the whole format was scanned. *)
Definition ovs_scan (s format : chars) : option (list out) :=
  match ovs_scan__ s format with
  | ScanOk outs _ => Some outs
  | _ => None
  end.

(** [ovs_scan_len]: scans from position [n] and advances it. *)
Definition ovs_scan_len (s : chars) (n : nat) (format : chars) : option (list out * nat) :=
  match ovs_scan__ (drop n s) format with
  | ScanOk outs rest => Some (outs, (n + (length (drop n s) - length rest))%nat)
  | _ => None
  end.

End Scan.

(** ** Scanning what was printed *)

(** The first character of [s] does not continue a number in base [base]. *)
Definition stops (base : Z) (s : chars) : bool :=
  let d := hexit_value (hd_char s) in (d <? 0) || (d >=? base).

Lemma scan_digits_print base l rest : 2 <= base <= 16 ->
  Forall (λ d, 0 <= d < base) l -> stops base rest = true ->
  forall room v n, in_u 64 v -> Z.of_nat (length l) <= room ->
  scan_digits base room v n (map digit_char l ++ rest) =
  (u64 (digits_value base v l), n + Z.of_nat (length l), rest).
Proof.
  intros Hb Hl Hr. induction Hl as [| d l Hd _ IH]; intros room v n Hv Hroom.
  - cbn [map app digits_value foldl length]. rewrite Z.add_0_r.
    rewrite wrap_small by done. unfold stops in Hr.
    destruct rest as [| c rest]; cbn [scan_digits hd_char] in *; [done |].
    destruct (room <=? 0); [done |]. by rewrite Hr.
  - cbn [map app scan_digits length] in *. destruct (Z.leb_spec room 0); [lia |].
    rewrite digit_char_spec by lia.
    destruct (Z.ltb_spec d 0); [lia |]. destruct (Z.geb_spec d base); [lia |]. cbn [orb].
    rewrite IH; [| by apply wrap_range | lia].
    rewrite digits_value_wrap. do 2 f_equal. lia.
Qed.

Lemma not_space d : 0 <= d < 16 -> isspace (digit_char d) = false.
Proof.
  intros Hd. assert (forallb (λ d, negb (isspace (digit_char d))) (map Z.of_nat (seq 0 16)) = true) as H
    by by vm_compute.
  rewrite forallb_forall in H. apply negb_true_iff, H, in_map_iff.
  exists (Z.to_nat d). split; [lia | apply in_seq; lia].
Qed.

Lemma not_sign d :
  0 <= d < 16 ->
  (digit_char d =c "-") = false /\ (digit_char d =c "+") = false /\
  (digit_char d =c "x") = false /\ (digit_char d =c "X") = false.
Proof.
  intros Hd. assert (forallb (λ d, negb (digit_char d =c "-") && negb (digit_char d =c "+")
    && negb (digit_char d =c "x") && negb (digit_char d =c "X")) (map Z.of_nat (seq 0 16)) = true) as H
    by by vm_compute.
  rewrite forallb_forall in H. specialize (H d).
  assert (In d (map Z.of_nat (seq 0 16))) as Hin.
  { apply in_map_iff. exists (Z.to_nat d). split; [lia | apply in_seq; lia]. }
  specialize (H Hin). by rewrite !andb_true_iff, !negb_true_iff in H; destruct H as [[[] ] ].
Qed.

(** A byte printed with "%02x" scans back with "%hhx". *)
Lemma scan_int_hex2 x rest :
  in_u 8 x -> stops 16 rest = true ->
  scan_int (skip_spaces (print_hex2 x ++ rest)) (mk_spec UINT_MAX SCAN_CHAR) 16
  = Some ([OInt x], rest).
Proof.
  intros Hx Hr. unfold in_u in Hx. change (2 ^ 8) with 256 in Hx.
  assert (0 <= x / 16 < 16 /\ 0 <= x mod 16 < 16) as [H1 H2]
    by (Z.to_euclidean_division_equations; lia).
  unfold skip_spaces. cbn [print_hex2 app span]. rewrite not_space by done. cbn [snd].
  destruct (not_sign _ H1) as (S1 & S2 & _ & _). destruct (not_sign _ H2) as (_ & _ & S3 & S4).
  assert (scan_base 16 (digit_char (x / 16) :: digit_char (x mod 16) :: rest) = (16, 0%nat)) as Hb.
  { unfold scan_base. cbn [hd_char tail]. rewrite S3, S4. by rewrite andb_false_r. }
  unfold scan_int. cbn [hd_char]. rewrite S1, S2. cbn [orb drop]. rewrite Hb.
  pose proof (scan_digits_print 16 [x / 16; x mod 16] rest ltac:(lia)
    ltac:(by repeat (apply Forall_cons; split)) Hr UINT_MAX 0 0 ltac:(done) ltac:(done)) as Hd.
  cbn [map app] in Hd.
  change (Z.of_nat 0 + Z.of_nat 0 >=? width (mk_spec UINT_MAX SCAN_CHAR)) with false.
  change (width (mk_spec UINT_MAX SCAN_CHAR) - (Z.of_nat 0 + Z.of_nat 0)) with UINT_MAX.
  cbn [Nat.add drop]. rewrite Hd. cbn [length discarded type type_bits]. change (0 + Z.of_nat 2 =? 0) with false. cbv iota.
  cbn [digits_value foldl]. do 4 f_equal.
  replace ((0 * 16 + x / 16) * 16 + x mod 16) with x by (Z.to_euclidean_division_equations; lia).
  rewrite (wrap_small 64), wrap_small; unfold in_u; lia.
Qed.

(** ** Conversions read a prefix of their input *)

Lemma span_suffix f s : (span f s).2 `suffix_of` s.
Proof. exists (span f s).1. by rewrite span_split. Qed.

Lemma tail_suffix {A} (s : list A) : tail s `suffix_of` s.
Proof. destruct s as [| c s]; [by exists [] | by exists [c]]. Qed.

Lemma suffix_length_le {A} (a b : list A) : a `suffix_of` b -> (length a <= length b)%nat.
Proof. intros [k ->]. rewrite length_app. lia. Qed.

Lemma if_suffix {A} (b : bool) (a s : list A) :
  a `suffix_of` s -> (if b then a else s) `suffix_of` s.
Proof. by destruct b. Qed.

Lemma scan_digits_suffix base s : forall room value n,
  (scan_digits base room value n s).2 `suffix_of` s.
Proof.
  induction s as [| c s IH]; intros room value n; cbn [scan_digits]; [done |].
  destruct (room <=? 0); [done |]. destruct (_ || _); [done |].
  etransitivity; [apply IH | by exists [c]].
Qed.

Lemma take_while_suffix f s : forall room, (take_while f room s).2 `suffix_of` s.
Proof.
  induction s as [| c s IH]; intros room; cbn [take_while]; [done |].
  destruct (_ && _); [| done]. specialize (IH (room - 1)).
  destruct (take_while f (room - 1) s) as [a b]. cbn [snd] in *.
  etransitivity; [exact IH | by exists [c]].
Qed.

(** A conversion that succeeds leaves a suffix of its input. *)
Definition consumes (f : chars -> scan_spec -> conversion) : Prop :=
  forall s spec o rest, f s spec = Some (o, rest) -> rest `suffix_of` s.

Lemma scan_int_consumes base : consumes (λ s spec, scan_int s spec base).
Proof.
  intros s spec o rest. unfold scan_int. cbv zeta.
  set (sign := if _ || _ then 1%nat else 0%nat).
  destruct (scan_base base (drop sign s)) as [b prefix]. destruct (_ >=? _); [done |].
  pose proof (scan_digits_suffix b (drop (sign + prefix) s)
    (width spec - (Z.of_nat sign + Z.of_nat prefix)) 0 0) as H.
  destruct (scan_digits _ _ _ _ _) as [[v n] r]. cbn [snd] in H.
  destruct (n =? 0); [done |]. intros [= _ <-]. etransitivity; [exact H | apply suffix_drop].
Qed.

Lemma scan_string_consumes : consumes scan_string.
Proof.
  intros s spec o rest. unfold scan_string.
  pose proof (take_while_suffix (λ c, negb (isspace c)) s (width spec)) as H.
  destruct (take_while _ _ s) as [[| c a] b]; [done |]. by intros [= _ <-].
Qed.

Lemma scan_chars_consumes : consumes scan_chars.
Proof.
  intros s spec o rest. unfold scan_chars. destruct (_ <? _); [done |].
  intros [= _ <-]. apply suffix_drop.
Qed.

Lemma scan_set_consumes s spec p o rest p' :
  scan_set s spec p = (Some (o, rest), p') -> rest `suffix_of` s.
Proof.
  unfold scan_set. destruct (parse_scanset p) as [[set compl] q].
  pose proof (take_while_suffix (λ c, Bool.eqb (set (code c)) (negb compl)) s (width spec)) as H.
  destruct (take_while _ _ s) as [[| c a] b]; [done |]. by intros [= _ <- _].
Qed.

Section Properties.
Context (scan_float : chars -> scan_spec -> conversion).

Lemma convert_consumes c spec start s p o rest p' :
  consumes scan_float ->
  convert scan_float c spec start s p = (Some (o, rest), p') -> rest `suffix_of` s.
Proof.
  intros Hf. unfold convert. set (s1 := if _ || _ || _ then s else skip_spaces s).
  assert (s1 `suffix_of` s) as H1.
  { subst s1. destruct (_ || _ || _); [done | apply span_suffix]. }
  clearbody s1. intros H. etransitivity; [| exact H1]. revert H.
  destruct (_ || _); [intros [= H _]; by apply scan_int_consumes in H |].
  destruct (c =c "i"); [intros [= H _]; by apply scan_int_consumes in H |].
  destruct (c =c "o"); [intros [= H _]; by apply scan_int_consumes in H |].
  destruct (_ || _); [intros [= H _]; by apply scan_int_consumes in H |].
  destruct (_ || _ || _ || _ || _); [intros [= H _]; by apply Hf in H |].
  destruct (c =c "s"); [intros [= H _]; by apply scan_string_consumes in H |].
  destruct (c =c "["); [apply scan_set_consumes |].
  destruct (c =c "c"); [intros [= H _]; by apply scan_chars_consumes in H |].
  destruct (c =c "n"); by intros [= _ <- _].
Qed.

Lemma scan_loop_consumes fuel start : forall p s outs o rest,
  consumes scan_float ->
  scan_loop scan_float fuel start p s outs = ScanOk o rest -> rest `suffix_of` s.
Proof.
  induction fuel as [| fuel IH]; intros p s outs o rest Hf; cbn [scan_loop]; [done |].
  destruct p as [| c p]; [by intros [= _ <-] |].
  destruct (isspace c).
  { intros H%IH; [| done]. etransitivity; [exact H | apply span_suffix]. }
  destruct (negb _).
  { destruct (hd_char s =c c); [| done]. intros H%IH; [| done].
    etransitivity; [exact H | apply tail_suffix]. }
  destruct (hd_char p =c "%").
  { destruct (hd_char s =c "%"); [| done]. intros H%IH; [| done].
    etransitivity; [exact H | apply tail_suffix]. }
  destruct (parse_spec p) as [spec [| d q]]; [done |].
  destruct (convert scan_float d spec start s q) as [[[o' s'] |] q'] eqn:E; [| done].
  intros H%IH; [| done]. etransitivity; [exact H |]. by apply convert_consumes in E.
Qed.

(** ** The loop terminates *)

Lemma scanset_loop_suffix n : forall p set,
  (length p <= n)%nat -> (scanset_loop set p).2 `suffix_of` p.
Proof.
  induction n as [| n IH]; intros [| c p] set Hn; cbn [scanset_loop]; try done; cbn [length] in Hn.
  - lia.
  - destruct (c =c "]"); [done |].
    assert (forall set, (scanset_loop set p).2 `suffix_of` c :: p) as H.
    { intros set'. etransitivity; [apply IH; lia | by exists [c]]. }
    destruct p as [| d [| e q]]; [apply H | apply H |].
    destruct (_ && _ && _); [| apply H].
    etransitivity; [apply IH; cbn [length] in Hn; lia |]. by exists [c; d; e].
Qed.

Lemma parse_scanset_suffix p : (parse_scanset p).2 `suffix_of` p.
Proof.
  unfold parse_scanset. set (p1 := if hd_char p =c "^" then tail p else p).
  assert (p1 `suffix_of` p) as H1 by (apply if_suffix, tail_suffix). clearbody p1.
  etransitivity; [| exact H1].
  set (x := if hd_char p1 =c "]" then _ else _).
  assert (x.2 `suffix_of` p1) as H2.
  { subst x. destruct (hd_char p1 =c "]"); [apply tail_suffix | done]. }
  destruct x as [set p2]. cbn [snd] in H2. etransitivity; [| exact H2].
  pose proof (scanset_loop_suffix (length p2) p2 set ltac:(lia)) as H3.
  destruct (scanset_loop set p2) as [set' p3]. cbn [snd] in *.
  etransitivity; [apply if_suffix, tail_suffix | exact H3].
Qed.

Lemma parse_spec_suffix p : (parse_spec p).2 `suffix_of` p.
Proof.
  unfold parse_spec. set (p1 := if hd_char p =c "*" then tail p else p).
  assert (p1 `suffix_of` p) as H1 by (apply if_suffix, tail_suffix). clearbody p1.
  etransitivity; [| exact H1]. unfold scan_width.
  pose proof (span_suffix isdigit p1) as H2. destruct (span isdigit p1) as [ds p2]. cbn [snd] in H2.
  etransitivity; [| exact H2]. unfold scan_modifier.
  repeat match goal with |- context [if ?b then _ else _] => destruct b; cbn [snd] end.
  all: first [done | apply tail_suffix | apply suffix_drop].
Qed.

Lemma convert_format c spec start s p : (convert scan_float c spec start s p).2 `suffix_of` p.
Proof.
  unfold convert. set (s1 := if _ || _ || _ then s else skip_spaces s). clearbody s1.
  repeat match goal with |- context [if ?b then _ else _] => destruct b; cbn [snd]; try done end.
  unfold scan_set. pose proof (parse_scanset_suffix p) as H.
  destruct (parse_scanset p) as [[set compl] q].
  by destruct (take_while _ _ s1).
Qed.

Lemma scan_loop_fuel fuel start : forall p s outs,
  (length p < fuel)%nat -> scan_loop scan_float fuel start p s outs <> ScanOutOfFuel.
Proof.
  induction fuel as [| fuel IH]; intros p s outs Hf; [lia |]. cbn [scan_loop].
  destruct p as [| c p]; [done |]. cbn [length] in Hf.
  destruct (isspace c); [apply IH; lia |].
  destruct (negb _); [destruct (hd_char s =c c); [apply IH; lia | done] |].
  pose proof (suffix_length_le _ _ (tail_suffix p)).
  destruct (hd_char p =c "%"); [destruct (hd_char s =c "%"); [apply IH; lia | done] |].
  pose proof (suffix_length_le _ _ (parse_spec_suffix p)) as Hp.
  destruct (parse_spec p) as [spec [| d q]]; [done |]. cbn [snd length] in Hp.
  pose proof (suffix_length_le _ _ (convert_format d spec start s q)) as Hq.
  destruct (convert scan_float d spec start s q) as [[[o' s'] |] q']; [| done].
  cbn [snd] in Hq. apply IH. lia.
Qed.

(** [ovs_scan] always terminates, whatever the format and the input: the loop over the
    format ends within one iteration per character of the format; and when it succeeds, what
    it has read is a prefix of the input, so the position it reports is within the input. *)
Theorem ovs_scan_total s format :
  consumes scan_float ->
  ovs_scan__ scan_float s format <> ScanOutOfFuel /\
  forall outs rest, ovs_scan__ scan_float s format = ScanOk outs rest ->
    exists used, s = used ++ rest.
Proof.
  intros Hf. split; [apply scan_loop_fuel; lia |].
  intros outs rest H. by apply scan_loop_consumes in H.
Qed.

End Properties.

Definition no_float (s : chars) (spec : scan_spec) : conversion := None.

Lemma ovs_scan_total_witness :
  ovs_scan__ no_float (str "dl_vlan=0x1f,rest") (str "dl_vlan=%i,") = ScanOk [OInt 31] (str "rest") /\
  exists used, str "dl_vlan=0x1f,rest" = used ++ str "rest".
Proof.
  assert (ovs_scan__ no_float (str "dl_vlan=0x1f,rest") (str "dl_vlan=%i,")
    = ScanOk [OInt 31] (str "rest")) as H by by vm_compute.
  split; [exact H |].
  exact (proj2 (ovs_scan_total no_float (str "dl_vlan=0x1f,rest") (str "dl_vlan=%i,")
    ltac:(intros ? ? ? ? [=])) _ _ H).
Defined.

End Scan.
