(* ===== verification/KeyValue.v ===== *)
(** Key-value syntax of flows and actions (lib/ofp-parse.c): [ofputil_parse_key_value] and
    the loops over the pairs of a string that its callers run, and [str_to_mac]. *)
From S2P Require Import Prelude Text Scan.

Module KeyValue.

(** ** The parser *)

Definition in_set (set : chars) (c : ascii) : bool := existsb (λ d, c =c d) set.

(** White space and the comma that separate pairs. *)
Definition seps : chars := str ", " ++ map ascii_of_nat [9; 13; 10]%nat.

(** The characters that end a key. *)
Definition key_ends : chars := str ":=(" ++ seps.

(** The length of the value at [s]: up to a delimiter outside parentheses.  [level] counts
    the parentheses that are open. *)
Fixpoint parse_value (delims : chars) (level : nat) (s : chars) : nat :=
  match s with
  | [] => 0
  | c :: s =>
      match level with
      | O =>
          if in_set delims c then 0
          else S (parse_value delims (if c =c "(" then 1 else 0) s)
      | S l =>
          S (parse_value delims
               (if c =c "(" then S level else if c =c ")" then l else level) s)
      end
  end%nat.

(** The character at position [n], null past the end. *)
Definition char_at (n : nat) (s : chars) : ascii := hd_char (drop n s).

(** The key, the value, and the rest of the string. *)
Definition ofputil_parse_key_value (s : chars) : option (chars * chars * chars) :=
  match (span (in_set seps) s).2 with
  | [] => None
  | s =>
      let '(key, s) := span (λ c, negb (in_set key_ends c)) s in
      let key_delim := hd_char s in
      let s := tail s in
      if (key_delim =c ":") || (key_delim =c "=") || (key_delim =c "(") then
        let delims := if key_delim =c "(" then str ")" else seps in
        let n := parse_value delims 0 s in
        let n :=
          if (key_delim =c "(") && (char_at n s =c ")") && (char_at (S n) s =c "-")
             && (char_at (S (S n)) s =c ">")
          then (n + parse_value seps 0 (drop n s))%nat else n in
        Some (key, take n s, drop (S n) s)
      else Some (key, [], s)
  end.

(** [while (ofputil_parse_key_value(...))] with a body that may return early with an error.
    Each pair shortens the string, so its length bounds the iterations. *)
Fixpoint for_each_pair {A E} (fuel : nat) (f : A -> chars -> chars -> A + E) (a : A) (s : chars)
  : option (A + E) :=
  match fuel with
  | O => None
  | S fuel =>
      match ofputil_parse_key_value s with
      | None => Some (inl a)
      | Some (key, value, s) =>
          match f a key value with
          | inl a => for_each_pair fuel f a s
          | inr err => Some (inr err)
          end
      end
  end.

Definition parse_pairs {A E} (f : A -> chars -> chars -> A + E) (a : A) (s : chars) : option (A + E) :=
  for_each_pair (S (length s)) f a s.

(** ** Ethernet addresses *)

Definition ETH_ADDR_SCAN_FMT : chars := str "%hhx:%hhx:%hhx:%hhx:%hhx:%hhx".

(** ETH_ADDR_FMT: "%02x" for each of the six bytes. *)
Fixpoint print_mac (m : list Z) : chars :=
  match m with
  | [] => []
  | [b] => print_hex2 b
  | b :: m => print_hex2 b ++ str ":" ++ print_mac m
  end.

Section Mac.
Context (scan_float : chars -> Scan.scan_spec -> Scan.conversion).

Definition str_to_mac (s : chars) : list Z + chars :=
  match Scan.ovs_scan scan_float s ETH_ADDR_SCAN_FMT with
  | Some outs => inl (flat_map (λ o, match o with Scan.OInt b => [b] | _ => [] end) outs)
  | None => inr (str "invalid mac address " ++ s)
  end.

End Mac.

(** ** Every pair shortens the string *)

Lemma parse_key_value_progress s k v rest :
  ofputil_parse_key_value s = Some (k, v, rest) -> (length rest < length s)%nat.
Proof.
  unfold ofputil_parse_key_value. pose proof (span_split (in_set seps) s) as Hs.
  destruct (span (in_set seps) s) as [pre s1]. cbn [fst snd] in *.
  destruct s1 as [| c s1]; [done |].
  assert (length (c :: s1) <= length s)%nat as Hlen by (rewrite <- Hs, length_app; lia). clear Hs.
  pose proof (span_split (λ c, negb (in_set key_ends c)) (c :: s1)) as Hk.
  destruct (span _ (c :: s1)) as [key s2] eqn:Esp. cbn [fst snd] in Hk.
  assert (length (tail s2) < length (c :: s1))%nat as Ht.
  { rewrite <- Hk, length_app. destruct s2 as [| d s2]; cbn [tail length]; [| lia].
    rewrite <- Hk in Hlen. destruct key; [| cbn; lia].
    by apply (f_equal length) in Hk. }
  destruct (_ || _ || _); intros [= _ _ <-]; [| lia].
  rewrite length_drop. lia.
Qed.

Lemma for_each_pair_total {A E} fuel (f : A -> chars -> chars -> A + E) : forall a s,
  (length s < fuel)%nat -> is_Some (for_each_pair fuel f a s).
Proof.
  induction fuel as [| fuel IH]; intros a s Hf; [lia |]. cbn [for_each_pair].
  destruct (ofputil_parse_key_value s) as [[[k v] rest] |] eqn:Ekv; [| done].
  apply parse_key_value_progress in Ekv. destruct (f a k v); [| done]. apply IH. lia.
Qed.

(** More fuel does not change the result. *)
Lemma for_each_pair_fuel {A E} (f : A -> chars -> chars -> A + E) n : forall m a s,
  (length s < n)%nat -> (length s < m)%nat -> for_each_pair n f a s = for_each_pair m f a s.
Proof.
  induction n as [| n IH]; intros [| m] a s Hn Hm; try lia. cbn [for_each_pair].
  destruct (ofputil_parse_key_value s) as [[[k v] rest] |] eqn:Ekv; [| done].
  apply parse_key_value_progress in Ekv. destruct (f a k v); [| done]. apply IH; lia.
Qed.

(** A loop over the key-value pairs of a string always ends, whatever the string and
    whatever is done with the pairs: each pair found takes at least one character, so the
    loop runs at most once per character. *)
Theorem key_value_loop_terminates {A E} (f : A -> chars -> chars -> A + E) a s :
  is_Some (parse_pairs f a s).
Proof. apply for_each_pair_total. lia. Qed.

(** ** Reading back "key=value" pairs *)

(** Characters that a key, and a plain value, may have. *)
Definition key_char (c : ascii) : bool := negb (in_set key_ends c).
Definition value_char (c : ascii) : bool := negb (in_set seps c) && negb (c =c "(").

Lemma parse_value_plain v rest :
  forallb value_char v = true -> rest = [] \/ in_set seps (hd_char rest) = true ->
  parse_value seps 0 (v ++ rest) = length v.
Proof.
  intros Hv Hr. induction v as [| c v IH]; cbn [app length forallb parse_value] in *.
  - destruct rest as [| c rest]; [done |]. cbn [parse_value hd_char] in *.
    by destruct Hr as [[=] | ->].
  - apply andb_prop in Hv as [Hc Hv]. unfold value_char in Hc. apply andb_prop in Hc as [H1 H2].
    apply negb_true_iff in H1, H2. rewrite H1, H2. by rewrite IH.
Qed.

(** One pair, after any separators. *)
Lemma parse_key_value_pair pre k v rest :
  forallb (in_set seps) pre = true -> k <> [] -> forallb key_char k = true ->
  forallb value_char v = true -> rest = [] \/ in_set seps (hd_char rest) = true ->
  ofputil_parse_key_value (pre ++ k ++ str "=" ++ v ++ rest) = Some (k, v, tail rest).
Proof.
  intros Hpre Hk0 Hk Hv Hr. unfold ofputil_parse_key_value.
  assert (in_set seps (hd_char k) = false) as Hk1.
  { destruct k as [| c k]; [done |]. cbn [forallb hd_char] in *. apply andb_prop in Hk as [Hc _].
    unfold key_char, key_ends, in_set in *. rewrite existsb_app in Hc.
    by apply negb_true_iff, orb_false_iff in Hc as [_ ?]. }
  rewrite span_app; [| done | left; by destruct k]. cbn [snd].
  destruct (k ++ str "=" ++ v ++ rest) as [| c0 s0] eqn:E0; [by destruct k |]. rewrite <- E0.
  rewrite span_app; [| done | by left]. cbn [str String.list_ascii_of_string app hd_char tail].
  change (("=" =c ":")%char || ("=" =c "=")%char || ("=" =c "(")%char) with true.
  change ("=" =c "(")%char with false. cbn [andb]. cbv iota.
  rewrite parse_value_plain by done.
  rewrite take_app_length. f_equal. f_equal.
  change (S (length v)) with (1 + length v)%nat. rewrite Nat.add_comm, <- drop_drop, drop_app_length.
  by destruct rest.
Qed.

(** Pairs, each after a comma. *)
Definition render (l : list (chars * chars)) : chars :=
  flat_map (λ '(k, v), str "," ++ k ++ str "=" ++ v) l.

Definition pair_ok (p : chars * chars) : bool :=
  match p.1 with [] => false | _ => true end && forallb key_char p.1 && forallb value_char p.2.

(** The body of a loop over the pairs of a rendered list. *)
Fixpoint run_pairs {A E} (f : A -> chars -> chars -> A + E) (a : A) (l : list (chars * chars)) : A + E :=
  match l with
  | [] => inl a
  | (k, v) :: l => match f a k v with inl a => run_pairs f a l | inr err => inr err end
  end.

Lemma render_hd l : render l = [] \/ in_set seps (hd_char (render l)) = true.
Proof. destruct l as [| [k v] l]; [by left | by right]. Qed.

Lemma for_each_pair_render {A E} (f : A -> chars -> chars -> A + E) l : forall fuel a s,
  forallb pair_ok l = true -> s = render l \/ s = tail (render l) -> (length (render l) < fuel)%nat ->
  for_each_pair fuel f a s = Some (run_pairs f a l).
Proof.
  induction l as [| [k v] l IH]; intros fuel a s Hok Hs Hf.
  - destruct fuel as [| fuel]; [lia |]. by destruct Hs as [-> | ->].
  - destruct fuel as [| fuel]; [lia |]. cbn [forallb] in Hok. apply andb_prop in Hok as [Hp Hl].
    unfold pair_ok in Hp. cbn [fst snd] in Hp. rewrite !andb_true_iff in Hp. destruct Hp as [[Hk0 Hk] Hv].
    assert (exists pre, forallb (in_set seps) pre = true /\
      s = pre ++ k ++ str "=" ++ v ++ render l) as (pre & Hpre & ->).
    { unfold render in Hs. cbn [flat_map] in Hs. fold (render l) in Hs. rewrite <- !app_assoc in Hs.
      destruct Hs as [-> | ->]; [by exists (str ",") | by exists []]. }
    cbn [for_each_pair run_pairs]. rewrite parse_key_value_pair;
      [| done | by destruct k | done | done | apply render_hd].
    destruct (f a k v); [| done]. apply IH; [done | by right |].
    unfold render in Hf |- *. cbn [flat_map] in Hf. rewrite !length_app in Hf.
    change (length (str ",")) with 1%nat in Hf. lia.
Qed.

(** ** Ethernet addresses read back *)

Lemma scan_loop_byte scan_float fuel start b rest p outs :
  in_u 8 b -> Scan.stops 16 rest = true ->
  Scan.scan_loop scan_float (S fuel) start (str "%hhx" ++ p) (print_hex2 b ++ rest) outs =
  Scan.scan_loop scan_float fuel start p rest (outs ++ [Scan.OInt b]).
Proof.
  intros Hb Hr. pose proof (Scan.scan_int_hex2 b rest Hb Hr) as H.
  cbn [str String.list_ascii_of_string app Scan.scan_loop].
  change (isspace "%") with false. change (negb ("%" =c "%")%char) with false. cbv iota.
  cbn [hd_char]. change ("h" =c "%")%char with false. cbv iota.
  change (Scan.parse_spec ("h" :: "h" :: "x" :: p)%char) with
    (Scan.mk_spec UINT_MAX Scan.SCAN_CHAR, ("x" :: p)%char).
  cbv iota. unfold Scan.convert.
  change (("x" =c "c")%char || ("x" =c "n")%char || ("x" =c "[")%char) with false. cbv iota.
  change (("x" =c "d")%char || ("x" =c "u")%char) with false. cbv iota.
  change ("x" =c "i")%char with false. change ("x" =c "o")%char with false.
  change (("x" =c "x")%char || ("x" =c "X")%char) with true. cbv iota.
  by rewrite H.
Qed.

Lemma scan_loop_colon scan_float fuel start rest p outs :
  Scan.scan_loop scan_float (S fuel) start (str ":" ++ p) (str ":" ++ rest) outs =
  Scan.scan_loop scan_float fuel start p rest outs.
Proof. reflexivity. Qed.

Lemma str_to_mac_print scan_float m :
  length m = 6%nat -> Forall (in_u 8) m -> str_to_mac scan_float (print_mac m) = inl m.
Proof.
  intros Hl Hm. destruct m as [| a [| b [| c [| d [| e' [| f [|]]]]]]]; try done. clear Hl.
  rewrite !Forall_cons in Hm. destruct Hm as (Ha & Hb & Hc & Hd & He & Hf & _).
  unfold str_to_mac, Scan.ovs_scan, Scan.ovs_scan__.
  set (fuel := S (length ETH_ADDR_SCAN_FMT)). change fuel with (11 + 19)%nat. clear fuel.
  generalize (length (print_mac [a; b; c; d; e'; f])). intros start.
  change ETH_ADDR_SCAN_FMT with (str "%hhx" ++ str ":" ++ str "%hhx" ++ str ":" ++ str "%hhx"
    ++ str ":" ++ str "%hhx" ++ str ":" ++ str "%hhx" ++ str ":" ++ str "%hhx" ++ []).
  change (print_mac [a; b; c; d; e'; f]) with (print_hex2 a ++ str ":" ++ print_hex2 b ++ str ":"
    ++ print_hex2 c ++ str ":" ++ print_hex2 d ++ str ":" ++ print_hex2 e' ++ str ":"
    ++ print_hex2 f ++ []).
  cbn [Nat.add].
  rewrite scan_loop_byte, scan_loop_colon, scan_loop_byte, scan_loop_colon, scan_loop_byte,
    scan_loop_colon, scan_loop_byte, scan_loop_colon, scan_loop_byte, scan_loop_colon,
    scan_loop_byte by done.
  done.
Qed.

(** A scanned address has six bytes, whatever the string. *)
Lemma scan_loop_byte_inv scan_float fuel start s p outs r rest' :
  Scan.scan_loop scan_float (S fuel) start (str "%hhx" ++ p) s outs = Scan.ScanOk r rest' ->
  exists b rest, in_u 8 b /\
    Scan.scan_loop scan_float fuel start p rest (outs ++ [Scan.OInt b]) = Scan.ScanOk r rest'.
Proof.
  change (Scan.scan_loop scan_float (S fuel) start (str "%hhx" ++ p) s outs) with
    (match Scan.scan_int (Scan.skip_spaces s) (Scan.mk_spec UINT_MAX Scan.SCAN_CHAR) 16 with
     | None => Scan.ScanFail outs
     | Some (o, s) => Scan.scan_loop scan_float fuel start p s (outs ++ o)
     end).
  unfold Scan.scan_int. destruct (Scan.scan_base _ _) as [base prefix].
  destruct (_ >=? _); [done |]. destruct (Scan.scan_digits _ _ _ _ _) as [[v n] rest].
  destruct (n =? 0); [done |]. intros H. eexists _, rest. split; [| exact H].
  by apply wrap_range.
Qed.

Lemma scan_loop_colon_inv scan_float fuel start s p outs r rest' :
  Scan.scan_loop scan_float (S fuel) start (str ":" ++ p) s outs = Scan.ScanOk r rest' ->
  exists rest, Scan.scan_loop scan_float fuel start p rest outs = Scan.ScanOk r rest'.
Proof.
  change (Scan.scan_loop scan_float (S fuel) start (str ":" ++ p) s outs) with
    (if (hd_char s =c ":")%char then Scan.scan_loop scan_float fuel start p (tail s) outs
     else Scan.ScanFail outs).
  destruct (hd_char s =c _); [by eauto | done].
Qed.

Definition is_mac (m : list Z) : bool :=
  (length m =? 6)%nat && forallb (λ b, (0 <=? b) && (b <? 256)) m.

Lemma is_mac_spec m : is_mac m = true <-> length m = 6%nat /\ Forall (in_u 8) m.
Proof.
  unfold is_mac. rewrite andb_true_iff, Nat.eqb_eq, forallb_forall, Forall_forall.
  split; intros [Hl H]; split; try done; intros x Hx; specialize (H x).
  - rewrite list_elem_of_In in Hx. specialize (H Hx). unfold in_u. change (2 ^ 8) with 256. lia.
  - rewrite <- list_elem_of_In in Hx. specialize (H Hx). unfold in_u in H.
    change (2 ^ 8) with 256 in H. lia.
Qed.

Lemma str_to_mac_wf scan_float s m : str_to_mac scan_float s = inl m -> is_mac m = true.
Proof.
  unfold str_to_mac, Scan.ovs_scan, Scan.ovs_scan__.
  change (S (length ETH_ADDR_SCAN_FMT)) with (11 + 19)%nat. generalize (length s). intros start.
  change ETH_ADDR_SCAN_FMT with (str "%hhx" ++ str ":" ++ str "%hhx" ++ str ":" ++ str "%hhx"
    ++ str ":" ++ str "%hhx" ++ str ":" ++ str "%hhx" ++ str ":" ++ str "%hhx" ++ []).
  cbn [Nat.add]. destruct (Scan.scan_loop _ _ _ _ _ _) as [r rest | | |] eqn:H0; try done.
  intros [= <-].
  apply scan_loop_byte_inv in H0 as (b1 & s1 & Hb1 & [s2 H0]%scan_loop_colon_inv).
  apply scan_loop_byte_inv in H0 as (b2 & s3 & Hb2 & [s4 H0]%scan_loop_colon_inv).
  apply scan_loop_byte_inv in H0 as (b3 & s5 & Hb3 & [s6 H0]%scan_loop_colon_inv).
  apply scan_loop_byte_inv in H0 as (b4 & s7 & Hb4 & [s8 H0]%scan_loop_colon_inv).
  apply scan_loop_byte_inv in H0 as (b5 & s9 & Hb5 & [s10 H0]%scan_loop_colon_inv).
  apply scan_loop_byte_inv in H0 as (b6 & s11 & Hb6 & H0).
  cbn in H0. injection H0 as <- _. apply is_mac_spec. split; [done |]. cbn [flat_map app]. by rewrite !Forall_cons, Forall_nil.
Qed.

End KeyValue.
