(* ===== verification/Heap.v ===== *)
(** Binary heaps (lib/heap.c, lib/heap.h): the array with its back pointers implements a
    priority queue, whose operations refine insertion, removal and change in a finite map, and
    whose maximum is the root. *)
From stdpp Require Import gmap.
From S2P Require Import Prelude.

Module Heap.
Open Scope nat_scope.

(** ** Data *)

(** [struct heap_node] *)
Record heap_node := mk_node { idx : nat; priority : Z }.

#[export] Instance heap_node_eta : RecordEta heap_node := λ r, mk_node (idx r) (priority r).
#[export] Instance heap_node_inhabited : Inhabited heap_node := populate (mk_node 0 0%Z).

(** [struct heap] and the nodes in memory; nodes are identified by numbers.  The array holds
    the nodes at 1 to [n]; cells that [xrealloc] adds hold no particular node. *)
Record heap := mk_heap {
  array : list nat;
  n : nat;
  allocated : nat;
  nodes : gmap nat heap_node;
}.

#[export] Instance heap_eta : RecordEta heap := λ r, mk_heap (array r) (n r) (allocated r) (nodes r).

Definition heap_parent__ (i : nat) : nat := i / 2.
Definition heap_left__ (i : nat) : nat := i * 2.
Definition heap_right__ (i : nat) : nat := i * 2 + 1.
Definition heap_is_leaf__ (h : heap) (i : nat) : bool := n h <? heap_left__ i.

(** [heap->array[i]->priority] *)
Definition prio (h : heap) (i : nat) : Z := priority (nodes h !!! (array h !!! i)).

(** ** Operations *)

(** An empty heap; the nodes are those of the program. *)
Definition heap_init (nodes : gmap nat heap_node) : heap := mk_heap [] 0 0 nodes.

Definition heap_swap (a b : heap) : heap * heap := (b, a).

Definition heap_clear (h : heap) : heap := h <| n := 0 |>.

Definition put_node (node i : nat) (h : heap) : heap :=
  h <| array ::= <[i := node]> |> <| nodes ::= alter (λ nd, nd <| idx := i |>) node |>.

Definition swap_nodes (i j : nat) (h : heap) : heap :=
  let old_i := array h !!! i in
  let old_j := array h !!! j in
  put_node old_i j (put_node old_j i h).

Fixpoint float_up_loop (fuel i : nat) (moved : bool) (h : heap) : bool * heap :=
  match fuel with
  | O => (moved, h)
  | S fuel =>
      if 1 <? i then
        let parent := heap_parent__ i in
        if (prio h i <=? prio h parent)%Z then (moved, h)
        else float_up_loop fuel parent true (swap_nodes parent i h)
      else (moved, h)
  end.

(** The index halves in each round. *)
Definition float_up (i : nat) (h : heap) : bool * heap := float_up_loop i i false h.

Fixpoint float_down_loop (fuel i : nat) (h : heap) : heap :=
  match fuel with
  | O => h
  | S fuel =>
      if heap_is_leaf__ h i then h
      else
        let left_ := heap_left__ i in
        let right_ := heap_right__ i in
        let max := i in
        let max := if (prio h max <? prio h left_)%Z then left_ else max in
        let max := if (right_ <=? n h) && (prio h max <? prio h right_)%Z then right_ else max in
        if max =? i then h else float_down_loop fuel max (swap_nodes max i h)
  end.

(** The index at least doubles in each round and stays within the heap. *)
Definition float_down (i : nat) (h : heap) : heap := float_down_loop (S (n h)) i h.

Definition float_up_or_down (i : nat) (h : heap) : heap :=
  let '(moved, h) := float_up i h in
  if moved then h else float_down i h.

(** Enlarges the array when it is full. *)
Definition heap_grow (h : heap) : heap :=
  if allocated h <=? n h then
    let a := if n h =? 0 then 1 else 2 * n h in
    h <| allocated := a |> <| array ::= λ l, l ++ replicate (a + 1 - length l) 0 |>
  else h.

Definition heap_raw_insert (node : nat) (prio : Z) (h : heap) : heap :=
  let h := heap_grow h in
  let h := h <| n ::= S |> in
  let h := put_node node (n h) h in
  h <| nodes ::= alter (λ nd, nd <| priority := prio |>) node |>.

Definition heap_raw_remove (node : nat) (h : heap) : heap :=
  let i := idx (nodes h !!! node) in
  let h := if i <? n h then put_node (array h !!! n h) i h else h in
  h <| n ::= pred |>.

Definition heap_raw_change (node : nat) (prio : Z) (h : heap) : heap :=
  h <| nodes ::= alter (λ nd, nd <| priority := prio |>) node |>.

Definition heap_insert (node : nat) (prio : Z) (h : heap) : heap :=
  let h := heap_raw_insert node prio h in
  (float_up (idx (nodes h !!! node)) h).2.

Definition heap_remove (node : nat) (h : heap) : heap :=
  let i := idx (nodes h !!! node) in
  let h := heap_raw_remove node h in
  if i <=? n h then float_up_or_down i h else h.

Definition heap_change (node : nat) (prio : Z) (h : heap) : heap :=
  let h := heap_raw_change node prio h in
  float_up_or_down (idx (nodes h !!! node)) h.

(** The loop of [heap_rebuild] from [i] down to 1. *)
Fixpoint rebuild_loop (i : nat) (h : heap) : heap :=
  match i with
  | O => h
  | S i' => rebuild_loop i' (float_down i h)
  end.

Definition heap_rebuild (h : heap) : heap := rebuild_loop (n h / 2) h.

Definition heap_count (h : heap) : nat := n h.
Definition heap_is_empty (h : heap) : bool := n h =? 0.
Definition heap_max (h : heap) : nat := array h !!! 1.

Definition heap_pop (h : heap) : nat * heap := (array h !!! n h, h <| n ::= pred |>).

(** [HEAP_FOR_EACH]: the nodes visited, following the back pointer of each. *)
Fixpoint for_each_loop (fuel : nat) (h : heap) (node : nat) : list nat :=
  match fuel with
  | O => []
  | S fuel =>
      node :: (if idx (nodes h !!! node) <? n h
               then for_each_loop fuel h (array h !!! S (idx (nodes h !!! node))) else [])
  end.

Definition heap_for_each (h : heap) : list nat :=
  if 0 <? n h then for_each_loop (n h) h (array h !!! 1) else [].

(** ** Well-formed heaps *)

(** Cell [i] holds node [x] with priority [p], and the node points back. *)
Definition cell (h : heap) (i x : nat) (p : Z) : Prop :=
  array h !! i = Some x /\ nodes h !! x = Some (mk_node i p).

Definition wf (h : heap) : Prop :=
  n h <= allocated h /\ (0 < allocated h -> length (array h) = allocated h + 1) /\
  (allocated h = 0 -> array h = []) /\
  forall i, 1 <= i <= n h -> exists x p, cell h i x p.

Definition child (i j : nat) : Prop := j = 2 * i \/ j = 2 * i + 1.

(** The heap invariant for parents at or after [k]. *)
Definition ord (k : nat) (h : heap) : Prop :=
  forall i j, k <= i -> 1 <= i -> child i j -> j <= n h -> (prio h j <= prio h i)%Z.

(** Node [x] is in the heap with priority [p]. *)
Definition mem (h : heap) (x : nat) (p : Z) : Prop := exists i, 1 <= i <= n h /\ cell h i x p.

Lemma cell_prio h i x p : cell h i x p -> prio h i = p.
Proof.
  intros [Ha Hn]. unfold prio. rewrite (list_lookup_total_correct _ _ _ Ha).
  by rewrite (lookup_total_correct _ _ _ Hn).
Qed.

Lemma cell_fun h i x p y q : cell h i x p -> cell h i y q -> x = y /\ p = q.
Proof. intros [H1 H2] [H3 H4]. by simplify_eq. Qed.

Lemma cell_inj h i j x p q : cell h i x p -> cell h j x q -> i = j /\ p = q.
Proof. intros [H1 H2] [H3 H4]. rewrite H2 in H4. by simplify_eq. Qed.

Lemma cell_index h i x p : cell h i x p -> array h !!! i = x /\ idx (nodes h !!! x) = i.
Proof.
  intros [Ha Hn]. split; [by apply list_lookup_total_correct |].
  by rewrite (lookup_total_correct _ _ _ Hn).
Qed.

Lemma wf_length h i : wf h -> 1 <= i <= n h -> i < length (array h).
Proof. intros (H1 & H2 & H3 & H4) Hi. rewrite H2; lia. Qed.

(** ** Moving nodes *)

Lemma put_cell h i x nd :
  i < length (array h) -> nodes h !! x = Some nd -> cell (put_node x i h) i x (priority nd).
Proof.
  intros Hi Hx. unfold put_node, cell. rsimpl. split; [by apply list_lookup_insert_eq |].
  by rewrite lookup_alter_eq, Hx.
Qed.

Lemma put_cell_ne h i x k z r :
  k <> i -> z <> x -> cell h k z r -> cell (put_node x i h) k z r.
Proof.
  intros Hk Hz [H1 H2]. unfold put_node, cell. rsimpl.
  by rewrite list_lookup_insert_ne, lookup_alter_ne by done.
Qed.

(** [h'] holds the same nodes as [h] in another order. *)
Definition rearranged (h h' : heap) : Prop :=
  wf h' /\ n h' = n h /\ dom (nodes h') = dom (nodes h) /\ forall x p, mem h' x p <-> mem h x p.

Lemma rearranged_refl h : wf h -> rearranged h h.
Proof. unfold rearranged. done. Qed.

Lemma rearranged_trans h1 h2 h3 : rearranged h1 h2 -> rearranged h2 h3 -> rearranged h1 h3.
Proof.
  intros (_ & Hn & Hd & Hm) (Hw & Hn' & Hd' & Hm'). split; [done |]. split; [by rewrite Hn' |].
  split; [by rewrite Hd' |]. intros x p. by rewrite Hm'.
Qed.

Lemma swap_spec h i j :
  wf h -> 1 <= i <= n h -> 1 <= j <= n h -> i <> j ->
  rearranged h (swap_nodes i j h) /\
  prio (swap_nodes i j h) i = prio h j /\ prio (swap_nodes i j h) j = prio h i /\
  forall k, 1 <= k <= n h -> k <> i -> k <> j -> prio (swap_nodes i j h) k = prio h k.
Proof.
  intros Hwf Hi Hj Hij. pose proof (wf_length h i Hwf Hi) as Li. pose proof (wf_length h j Hwf Hj) as Lj.
  pose proof Hwf as (W1 & W2 & W3 & W4).
  destruct (W4 i Hi) as (x & p & Ci), (W4 j Hj) as (y & q & Cj).
  assert (x <> y) as Hxy by (intros ->; by destruct (cell_inj _ _ _ _ _ _ Ci Cj)).
  set (h' := swap_nodes i j h). assert (h' = put_node x j (put_node y i h)) as E.
  { unfold h', swap_nodes. by rewrite (proj1 (cell_index _ _ _ _ Ci)), (proj1 (cell_index _ _ _ _ Cj)). }
  assert (cell h' j x p) as Cj'.
  { rewrite E. apply (put_cell _ j x (mk_node i p)).
    - unfold put_node. rsimpl. by rewrite length_insert.
    - unfold put_node. rsimpl. rewrite lookup_alter_ne by done. apply Ci. }
  assert (cell h' i y q) as Ci'.
  { rewrite E. apply put_cell_ne; [done | done |]. apply (put_cell _ i y (mk_node j q)); [done | apply Cj]. }
  assert (forall k z r, k <> i -> k <> j -> cell h k z r -> cell h' k z r) as Ck.
  { intros k z r Hki Hkj C. rewrite E.
    assert (z <> x) by (intros ->; by destruct (cell_inj _ _ _ _ _ _ C Ci)).
    assert (z <> y) by (intros ->; by destruct (cell_inj _ _ _ _ _ _ C Cj)).
    by apply put_cell_ne, put_cell_ne. }
  assert (n h' = n h /\ allocated h' = allocated h /\ length (array h') = length (array h) /\
    dom (nodes h') = dom (nodes h)) as (En & Ea & El & Ed).
  { rewrite E. unfold put_node. rsimpl. by rewrite !length_insert, !dom_alter_L. }
  assert (forall k, 1 <= k <= n h -> exists z r, cell h' k z r) as Call.
  { intros k Hk. destruct (W4 k Hk) as (z & r & C).
    destruct (decide (k = i)) as [-> |]; [by eauto |]. destruct (decide (k = j)) as [-> |]; [by eauto |].
    by eauto. }
  split; [split |].
  - unfold wf. rewrite En, Ea, El. split; [done |]. split; [done |]. split; [| done].
    intros H0. apply nil_length_inv. rewrite El, W3; done.
  - split; [done |]. split; [done |]. intros z r. unfold mem. rewrite En. split.
    + intros (k & Hk & C). destruct (decide (k = i)) as [-> |].
      { destruct (cell_fun _ _ _ _ _ _ C Ci') as [-> ->]. by exists j. }
      destruct (decide (k = j)) as [-> |].
      { destruct (cell_fun _ _ _ _ _ _ C Cj') as [-> ->]. by exists i. }
      destruct (W4 k Hk) as (z' & r' & C'). exists k. split; [done |].
      by destruct (cell_fun _ _ _ _ _ _ C (Ck k z' r' ltac:(done) ltac:(done) C')) as [-> ->].
    + intros (k & Hk & C). destruct (decide (k = i)) as [-> |].
      { destruct (cell_fun _ _ _ _ _ _ C Ci) as [-> ->]. by exists j. }
      destruct (decide (k = j)) as [-> |].
      { destruct (cell_fun _ _ _ _ _ _ C Cj) as [-> ->]. by exists i. }
      exists k. split; [done |]. by apply Ck.
  - rewrite (cell_prio _ _ _ _ Ci'), (cell_prio _ _ _ _ Cj'), (cell_prio _ _ _ _ Ci),
      (cell_prio _ _ _ _ Cj). split; [done |]. split; [done |]. intros k Hk Hki Hkj.
    destruct (W4 k Hk) as (z & r & C).
    by rewrite (cell_prio _ _ _ _ C), (cell_prio _ _ _ _ (Ck k z r Hki Hkj C)).
Qed.

(** ** Floating up *)

(** Only the edges at [i] may violate the order, and the children of [i] are in order with
    its parent. *)
Definition near (h : heap) (i : nat) : Prop :=
  (forall a b, 1 <= a -> child a b -> b <= n h -> a <> i -> b <> i -> (prio h b <= prio h a)%Z) /\
  (forall g b, 1 <= g -> child g i -> child i b -> b <= n h -> (prio h b <= prio h g)%Z).

(** The children of [i] are in order with it. *)
Definition below (h : heap) (i : nat) : Prop :=
  forall b, child i b -> b <= n h -> (prio h b <= prio h i)%Z.

(** [i] is in order with its parent. *)
Definition above (h : heap) (i : nat) : Prop :=
  forall g, 1 <= g -> child g i -> (prio h i <= prio h g)%Z.

Lemma near_ord h i : near h i -> above h i -> below h i -> ord 1 h.
Proof.
  intros [H1 _] Ha Hb a b _ Ha1 Hc Hn. destruct (decide (a = i)) as [-> |]; [by apply Hb |].
  destruct (decide (b = i)) as [-> |]; [by apply Ha | by apply H1].
Qed.

Lemma parent_child i : 1 < i -> child (heap_parent__ i) i /\ 1 <= heap_parent__ i < i.
Proof.
  intros Hi. unfold child, heap_parent__. pose proof (Nat.div_mod i 2 ltac:(lia)).
  pose proof (Nat.mod_upper_bound i 2 ltac:(lia)). lia.
Qed.

Lemma float_up_step h i :
  wf h -> 1 < i <= n h -> near h i -> (prio h (heap_parent__ i) < prio h i)%Z ->
  let g := heap_parent__ i in let h' := swap_nodes g i h in
  rearranged h h' /\ near h' g /\ below h' g.
Proof.
  intros Hwf Hi [N1 N2] Hlt. destruct (parent_child i ltac:(lia)) as [Hc Hg]. cbv zeta.
  set (g := heap_parent__ i) in *.
  destruct (swap_spec h g i Hwf ltac:(lia) ltac:(lia) ltac:(lia)) as (R & Pg & Pi & Pk).
  set (h' := swap_nodes g i h) in *. pose proof R as (_ & En & _). split; [done |].
  assert (below h' g) as Hb.
  { intros b Hcb Hbn. rewrite En in Hbn. unfold child in *. rewrite Pg.
    destruct (decide (b = i)) as [-> |]; [rewrite Pi; lia |]. rewrite Pk by lia.
    assert (prio h b <= prio h g)%Z by (apply N1; unfold child; lia). lia. }
  split; [split |done].
  - intros a b Ha Hab Hbn Hag Hbg. rewrite En in Hbn.
    destruct (decide (a = i)) as [-> |].
    { rewrite Pi. unfold child in *. rewrite Pk by lia. apply (N2 g b); unfold child; lia. }
    destruct (decide (b = i)) as [-> |]; [unfold child in *; lia |].
    unfold child in *. rewrite !Pk by lia. by apply N1.
  - intros gg b Hgg Hcg Hcb Hbn. rewrite En in Hbn.
    assert (prio h g <= prio h gg)%Z as Hgg' by (apply N1; unfold child in *; lia).
    unfold child in *. rewrite (Pk gg) by lia.
    destruct (decide (b = i)) as [-> |]; [by rewrite Pi |]. rewrite Pk by lia.
    assert (prio h b <= prio h g)%Z by (apply N1; unfold child; lia). lia.
Qed.

Lemma float_up_loop_spec fuel : forall i moved h,
  wf h -> 1 <= i <= n h -> i <= fuel -> near h i -> (moved = true -> below h i) ->
  let '(m, h') := float_up_loop fuel i moved h in
  rearranged h h' /\ (m = true -> ord 1 h') /\ (m = false -> h' = h /\ above h i).
Proof.
  induction fuel as [| fuel IH]; intros i moved h Hwf Hi Hf Hn Hb; [lia |]. cbn [float_up_loop].
  destruct (Nat.ltb_spec 1 i) as [H1 | H1].
  - destruct (parent_child i H1) as [Hc Hg].
    destruct (Z.leb_spec (prio h i) (prio h (heap_parent__ i))) as [Hle | Hlt].
    + assert (above h i) as Ha.
      { intros g Hg1 Hcg. by replace g with (heap_parent__ i) by (unfold child in *; lia). }
      split; [by apply rearranged_refl |]. split; [| done]. intros Hm. by apply (near_ord h i); auto.
    + destruct (float_up_step h i Hwf ltac:(lia) Hn Hlt) as (R & Hn' & Hb').
      pose proof R as (Hwf' & En & _).
      specialize (IH (heap_parent__ i) true (swap_nodes (heap_parent__ i) i h) Hwf'
        ltac:(lia) ltac:(lia) Hn' (λ _, Hb')).
      destruct (float_up_loop _ _ _ _) as [m h''] eqn:E. destruct IH as (R' & Ht & Hfalse).
      split; [by eapply rearranged_trans |]. split; [done |]. intros Hm. exfalso.
      clear -E Hm. subst m. revert E. generalize (heap_parent__ i), (swap_nodes (heap_parent__ i) i h).
      induction fuel as [| fuel IH]; intros i' h0; cbn [float_up_loop]; [done |].
      destruct (1 <? i'); [| done]. destruct (_ <=? _)%Z; [done |]. apply IH.
  - assert (above h i) as Ha. { intros g Hg Hc. unfold child in Hc. lia. }
    split; [by apply rearranged_refl |]. split; [| done]. intros Hm. by apply (near_ord h i); auto.
Qed.

(** ** Floating down *)

Lemma float_down_loop_spec k fuel : forall i h,
  wf h -> 1 <= i -> k <= i -> n h < fuel + i ->
  (forall a b, k <= a -> 1 <= a -> child a b -> b <= n h -> a <> i -> (prio h b <= prio h a)%Z) ->
  (forall g b, k <= g -> 1 <= g -> child g i -> child i b -> b <= n h -> (prio h b <= prio h g)%Z) ->
  let h' := float_down_loop fuel i h in rearranged h h' /\ ord k h'.
Proof.
  induction fuel as [| fuel IH]; intros i h Hwf Hi Hk Hf D1 D2; cbn [float_down_loop].
  { split; [by apply rearranged_refl |]. intros a b Hka Ha Hc Hb.
    apply D1; try done. unfold child in Hc. lia. }
  unfold heap_is_leaf__, heap_left__, heap_right__.
  destruct (Nat.ltb_spec (n h) (i * 2)) as [Hleaf | Hleaf].
  { split; [by apply rearranged_refl |]. intros a b Hka Ha Hc Hb.
    apply D1; try done. unfold child in Hc. lia. }
  set (m1 := if (prio h i <? prio h (i * 2))%Z then i * 2 else i).
  set (m := if (i * 2 + 1 <=? n h) && (prio h m1 <? prio h (i * 2 + 1))%Z then i * 2 + 1 else m1).
  assert ((m = i \/ child i m) /\ 1 <= m <= n h /\ (prio h i <= prio h m)%Z /\
    forall b, child i b -> b <= n h -> (prio h b <= prio h m)%Z) as (Hm & Hmn & Him & Hmax).
  { unfold m, m1, child.
    destruct (Z.ltb_spec (prio h i) (prio h (i * 2))), (Nat.leb_spec (i * 2 + 1) (n h)); cbn [andb];
      try match goal with |- context [(?a <? ?b)%Z] => destruct (Z.ltb_spec a b) end.
    all: repeat split; try lia.
    all: intros b [-> | ->] Hb; rewrite ?(Nat.mul_comm 2 i); lia. }
  clearbody m. clear m1. destruct (Nat.eqb_spec m i) as [-> | Hne].
  { split; [by apply rearranged_refl |]. intros a b Hka Ha Hc Hb.
    destruct (decide (a = i)) as [-> |]; [by apply Hmax | by apply D1]. }
  destruct Hm as [? | Hm]; [done |].
  destruct (swap_spec h m i Hwf Hmn ltac:(unfold child in Hm; lia) Hne) as (R & Pm & Pi & Pk).
  set (h' := swap_nodes m i h) in *. pose proof R as (Hwf' & En & _).
  destruct (IH m h') as [R' Ho]; try done; [lia | unfold child in Hm; lia | unfold child in Hm; lia | | |].
  - intros a b Hka Ha Hc Hb Ham. rewrite En in Hb. destruct (decide (a = i)) as [-> |].
    + rewrite Pi. destruct (decide (b = m)) as [-> |]; [rewrite Pm; lia |].
      rewrite Pk by (unfold child in *; lia). by apply Hmax.
    + rewrite (Pk a) by (unfold child in *; lia). destruct (decide (b = i)) as [-> |].
      * rewrite Pi. apply D2; try done. lia.
      * rewrite Pk by (unfold child in *; lia). by apply D1.
  - intros g b Hkg Hg Hcg Hcb Hb. rewrite En in Hb. assert (g = i) as -> by (unfold child in *; lia).
    rewrite Pi, Pk by (unfold child in *; lia). apply D1; unfold child in *; lia.
  - split; [by eapply rearranged_trans | done].
Qed.

Lemma float_down_spec k i h :
  wf h -> 1 <= i -> k <= i ->
  (forall a b, k <= a -> 1 <= a -> child a b -> b <= n h -> a <> i -> (prio h b <= prio h a)%Z) ->
  (forall g b, k <= g -> 1 <= g -> child g i -> child i b -> b <= n h -> (prio h b <= prio h g)%Z) ->
  rearranged h (float_down i h) /\ ord k (float_down i h).
Proof. intros. apply float_down_loop_spec; try done. lia. Qed.

Lemma float_up_or_down_spec i h :
  wf h -> 1 <= i <= n h -> near h i ->
  rearranged h (float_up_or_down i h) /\ ord 1 (float_up_or_down i h).
Proof.
  intros Hwf Hi Hn. unfold float_up_or_down, float_up.
  pose proof (float_up_loop_spec i i false h Hwf Hi ltac:(lia) Hn ltac:(done)) as H.
  destruct (float_up_loop i i false h) as [m h']. destruct H as (R & Ht & Hf). destruct m; [by auto |].
  destruct (Hf eq_refl) as [-> Ha]. destruct Hn as [N1 N2]. apply float_down_spec; try done; [lia | lia | |].
  - intros a b _ H1 Hc Hb Hai. destruct (decide (b = i)) as [-> |]; [by apply Ha | by apply N1].
  - intros g b _ Hg. by apply N2.
Qed.

(** ** Rebuilding *)

Lemma rebuild_loop_spec i : forall h,
  wf h -> n h / 2 <= i \/ ord (S i) h ->
  rearranged h (rebuild_loop i h) /\ ord 1 (rebuild_loop i h).
Proof.
  induction i as [| i IH]; intros h Hwf Hor; cbn [rebuild_loop].
  - split; [by apply rearranged_refl |]. destruct Hor as [H0 | Ho]; [| done].
    intros a b _ Ha Hc Hb. unfold child in Hc.
    assert (n h < 2) by (apply Nat.div_small_iff; lia). lia.
  - assert (ord (S (S i)) h) as Ho.
    { destruct Hor as [H0 | Ho]; [| done]. intros a b Ha _ Hc Hb. unfold child in Hc.
      pose proof (Nat.div_mod (n h) 2 ltac:(lia)). pose proof (Nat.mod_upper_bound (n h) 2 ltac:(lia)). lia. }
    destruct (float_down_spec (S i) (S i) h Hwf ltac:(lia) ltac:(lia)) as [R Ho'].
    { intros a b Ha Ha1 Hc Hb Hne. apply Ho; try done. lia. }
    { intros g b Hg _ Hc. unfold child in Hc. lia. }
    destruct (IH (float_down (S i) h)) as [R' Ho'']; [apply R | by right |].
    split; [by eapply rearranged_trans | done].
Qed.

(** ** The abstract priority queue *)

(** A queue is a finite map from nodes to priorities. *)
Definition represents (h : heap) (q : gmap nat Z) : Prop := forall x p, q !! x = Some p <-> mem h x p.

Definition refines (h : heap) (q : gmap nat Z) : Prop := wf h /\ ord 1 h /\ represents h q.

Lemma rearranged_represents h h' q : rearranged h h' -> represents h q -> represents h' q.
Proof. intros (_ & _ & _ & Hm) Hq x p. by rewrite Hm. Qed.

Lemma member_cell h q x p :
  represents h q -> q !! x = Some p ->
  1 <= idx (nodes h !!! x) <= n h /\ cell h (idx (nodes h !!! x)) x p.
Proof.
  intros Hq Hx. apply Hq in Hx as (i & Hi & C). by rewrite (proj2 (cell_index _ _ _ _ C)).
Qed.

(** Dropping the last cell keeps the rest. *)
Lemma ord_pred k h : ord k h -> ord k (h <| n ::= pred |>).
Proof.
  intros Ho a b Hk Ha Hc Hb. change (b <= pred (n h)) in Hb.
  change (prio h b <= prio h a)%Z. apply (Ho a b); try done. lia.
Qed.

Lemma raw_change_spec h q x p p' :
  wf h -> represents h q -> q !! x = Some p' ->
  let h' := heap_raw_change x p h in
  wf h' /\ n h' = n h /\ dom (nodes h') = dom (nodes h) /\ represents h' (<[x := p]> q) /\
  idx (nodes h' !!! x) = idx (nodes h !!! x) /\
  forall i, 1 <= i <= n h -> i <> idx (nodes h !!! x) -> prio h' i = prio h i.
Proof.
  intros Hwf Hq Hx. destruct (member_cell h q x p' Hq Hx) as [Hi C]. set (i := idx (nodes h !!! x)) in *.
  cbv zeta. set (h' := heap_raw_change x p h).
  assert (cell h' i x p) as C'.
  { destruct C as [Ca Cn]. unfold cell, h', heap_raw_change. rsimpl. split; [done |].
    by rewrite lookup_alter_eq, Cn. }
  assert (forall k y r, k <> i -> cell h k y r -> cell h' k y r) as Ck.
  { intros k y r Hk Cy. assert (y <> x) by (intros ->; by destruct (cell_inj _ _ _ _ _ _ C Cy)).
    destruct Cy as [Ca Cn]. unfold cell, h', heap_raw_change. rsimpl. by rewrite lookup_alter_ne. }
  pose proof Hwf as (W1 & W2 & W3 & W4).
  split; [| split; [done | split; [| split; [| split]]]].
  - split; [done |]. split; [done |]. split; [done |]. intros k Hk.
    destruct (decide (k = i)) as [-> |]; [by eauto |]. destruct (W4 k Hk) as (y & r & Cy). by eauto.
  - unfold h', heap_raw_change. rsimpl. by rewrite dom_alter_L.
  - intros y r. destruct (decide (y = x)) as [-> | Hy].
    + rewrite lookup_insert_eq. split; [intros [= <-]; by exists i |].
      intros (k & Hk & Cy). by destruct (cell_inj _ _ _ _ _ _ C' Cy) as [_ ->].
    + rewrite lookup_insert_ne, (Hq y r) by done. split; intros (k & Hk & Cy); exists k; (split; [done |]).
      * apply Ck; [| done]. intros ->. by destruct (cell_fun _ _ _ _ _ _ C Cy).
      * destruct (W4 k Hk) as (y' & r' & Cy'). destruct (decide (k = i)) as [-> |].
        { by destruct (cell_fun _ _ _ _ _ _ C' Cy). }
        by destruct (cell_fun _ _ _ _ _ _ Cy (Ck k y' r' ltac:(done) Cy')) as [-> ->].
  - by destruct (cell_index _ _ _ _ C').
  - intros k Hk Hne. destruct (W4 k Hk) as (y & r & Cy).
    by rewrite (cell_prio _ _ _ _ Cy), (cell_prio _ _ _ _ (Ck k y r Hne Cy)).
Qed.

(** An order violated only at [i] by a new priority there. *)
Lemma near_change h h' i :
  ord 1 h -> n h' <= n h -> 1 <= i <= n h' ->
  (forall k, 1 <= k <= n h' -> k <> i -> prio h' k = prio h k) -> near h' i.
Proof.
  intros Ho En Hi Hp. split.
  - intros a b Ha Hc Hb Hai Hbi. rewrite !Hp by (unfold child in Hc; lia).
    apply (Ho a b); try done. lia.
  - intros g b Hg Hcg Hcb Hb. unfold child in *. rewrite !Hp by lia.
    etrans; [apply (Ho i b); unfold child; lia | apply (Ho g i); unfold child; lia].
Qed.

Lemma heap_change_refines h q x p p' :
  refines h q -> q !! x = Some p' ->
  refines (heap_change x p h) (<[x := p]> q) /\ dom (nodes (heap_change x p h)) = dom (nodes h).
Proof.
  intros (Hwf & Ho & Hq) Hx. destruct (member_cell h q x p' Hq Hx) as [Hi _].
  destruct (raw_change_spec h q x p p' Hwf Hq Hx) as (W & En & Ed & Q & Ei & P).
  unfold heap_change. rewrite Ei.
  destruct (float_up_or_down_spec (idx (nodes h !!! x)) _ W) as [R O].
  { by rewrite En. } { apply (near_change h); rewrite ?En; done. }
  split; [| etrans; [apply R | done]]. split; [apply R |]. split; [done |].
  by eapply rearranged_represents.
Qed.

Lemma raw_insert_spec h q x p :
  wf h -> represents h q -> q !! x = None -> x ∈ dom (nodes h) ->
  let h' := heap_raw_insert x p h in
  wf h' /\ n h' = S (n h) /\ dom (nodes h') = dom (nodes h) /\ represents h' (<[x := p]> q) /\
  idx (nodes h' !!! x) = S (n h) /\ forall i, 1 <= i <= n h -> prio h' i = prio h i.
Proof.
  intros Hwf Hq Hx [nd Hnd]%elem_of_dom. pose proof Hwf as (W1 & W2 & W3 & W4). cbv zeta.
  set (h1 := heap_grow h).
  assert (S (n h) <= allocated h1 /\ length (array h1) = allocated h1 + 1 /\ n h1 = n h /\
    nodes h1 = nodes h /\ forall i, i < length (array h) -> array h1 !! i = array h !! i)
    as (A1 & A2 & A3 & A4 & A5).
  { unfold h1, heap_grow.
    destruct (Nat.leb_spec (allocated h) (n h)); [| split; [lia | split; [apply W2; lia | done]]].
    rsimpl. rewrite length_app, length_replicate. destruct (Nat.eqb_spec (n h) 0) as [E | E].
    - rewrite W3 by lia. repeat split; [lia |]. intros i Hi. cbn in Hi. lia.
    - rewrite W2 by lia. repeat split; [lia .. |]. intros i Hi. apply lookup_app_l. by rewrite W2 by lia. }
  set (h' := heap_raw_insert x p h).
  assert (h' = (put_node x (S (n h)) (h1 <| n ::= S |>)) <| nodes ::= alter (λ nd, nd <| priority := p |>) x |>)
    as E by (unfold h', heap_raw_insert; fold h1; rsimpl; by rewrite A3).
  assert (cell h' (S (n h)) x p) as C'.
  { rewrite E. unfold cell, put_node. rsimpl. split; [apply list_lookup_insert_eq; lia |].
    by rewrite !lookup_alter_eq, A4, Hnd. }
  assert (forall k y r, k <= n h -> 1 <= k -> cell h k y r -> cell h' k y r) as Ck.
  { intros k y r Hk Hk1 Cy. assert (y <> x).
    { intros ->. assert (q !! x = Some r) by (apply Hq; by exists k). congruence. }
    destruct Cy as [Ca Cn]. rewrite E. unfold cell, put_node. rsimpl.
    rewrite list_lookup_insert_ne, !lookup_alter_ne, A4, A5 by (done || lia || by apply lookup_lt_Some in Ca).
    done. }
  assert (n h' = S (n h)) as En by (rewrite E; unfold put_node; rsimpl; by rewrite A3).
  split; [| split; [done | split; [| split; [| split]]]].
  - assert (allocated h' = allocated h1 /\ length (array h') = length (array h1)) as [Ea El].
    { rewrite E. unfold put_node. rsimpl. by rewrite length_insert. }
    unfold wf. rewrite En, Ea, El. split; [done |]. split; [done |].
    split; [intros H0; rewrite H0 in A1; lia |]. intros k Hk.
    destruct (decide (k = S (n h))) as [-> |]; [by eauto |].
    destruct (W4 k ltac:(lia)) as (y & r & Cy). exists y, r. apply Ck; [lia | lia | done].
  - rewrite E. unfold put_node. rsimpl. by rewrite !dom_alter_L, A4.
  - intros y r. destruct (decide (y = x)) as [-> | Hy].
    + rewrite lookup_insert_eq. split; [intros [= <-]; exists (S (n h)); split; [lia | done] |].
      intros (k & Hk & Cy). by destruct (cell_inj _ _ _ _ _ _ C' Cy) as [_ ->].
    + rewrite lookup_insert_ne, (Hq y r) by done. split; intros (k & Hk & Cy); exists k.
      * rewrite En. split; [lia |]. apply Ck; [lia | lia | done].
      * rewrite En in Hk. destruct (decide (k = S (n h))) as [-> |].
        { by destruct (cell_fun _ _ _ _ _ _ C' Cy). }
        split; [lia |]. destruct (W4 k ltac:(lia)) as (y' & r' & Cy').
        by destruct (cell_fun _ _ _ _ _ _ Cy (Ck k y' r' ltac:(lia) ltac:(lia) Cy')) as [-> ->].
  - by destruct (cell_index _ _ _ _ C').
  - intros k Hk. destruct (W4 k Hk) as (y & r & Cy).
    by rewrite (cell_prio _ _ _ _ Cy), (cell_prio _ _ _ _ (Ck k y r ltac:(lia) ltac:(lia) Cy)).
Qed.

Lemma heap_insert_refines h q x p :
  refines h q -> q !! x = None -> x ∈ dom (nodes h) ->
  refines (heap_insert x p h) (<[x := p]> q) /\ dom (nodes (heap_insert x p h)) = dom (nodes h).
Proof.
  intros (Hwf & Ho & Hq) Hx Hd.
  destruct (raw_insert_spec h q x p Hwf Hq Hx Hd) as (W & En & Ed & Q & Ei & P).
  unfold heap_insert. rewrite Ei. set (h1 := heap_raw_insert x p h) in *. unfold float_up.
  assert (near h1 (S (n h))) as Hn.
  { split.
    - intros a b Ha Hc Hb Hai Hbi. rewrite En in Hb. rewrite !P by (unfold child in Hc; lia).
      apply (Ho a b); try done. lia.
    - intros g b Hg _ Hc Hb. unfold child in Hc. lia. }
  assert (below h1 (S (n h))) as Hb. { intros b Hc Hb. unfold child in Hc. lia. }
  pose proof (float_up_loop_spec (S (n h)) (S (n h)) false h1 W ltac:(lia) ltac:(lia) Hn ltac:(done)) as H.
  destruct (float_up_loop _ _ _ _) as [m h']. destruct H as (R & Ht & Hf). cbn [snd].
  split; [| etrans; [apply R | done]]. split; [apply R |].
  split; [| by eapply rearranged_represents]. destruct m; [by apply Ht |].
  destruct (Hf eq_refl) as [-> Ha]. by apply (near_ord h1 (S (n h))).
Qed.

Lemma raw_remove_spec h q x p :
  wf h -> represents h q -> q !! x = Some p ->
  let i := idx (nodes h !!! x) in let h' := heap_raw_remove x h in
  wf h' /\ n h' = pred (n h) /\ dom (nodes h') = dom (nodes h) /\ represents h' (delete x q) /\
  forall k, 1 <= k < n h -> k <> i -> prio h' k = prio h k.
Proof.
  intros Hwf Hq Hx. destruct (member_cell h q x p Hq Hx) as [Hi C]. cbv zeta.
  set (i := idx (nodes h !!! x)) in *. pose proof Hwf as (W1 & W2 & W3 & W4).
  destruct (W4 (n h) ltac:(lia)) as (y & r & Cn).
  set (h' := heap_raw_remove x h).
  assert (n h' = pred (n h)) as En by (unfold h', heap_raw_remove; fold i; by destruct (_ <? _)).
  assert (forall k z s, 1 <= k < n h -> k <> i -> cell h k z s -> cell h' k z s) as Ck.
  { intros k z s Hk Hne Cz. unfold h', heap_raw_remove. fold i.
    destruct (Nat.ltb_spec i (n h)); [| done]. change (cell (put_node (array h !!! n h) i h) k z s).
    apply put_cell_ne; [done | | done]. rewrite (proj1 (cell_index _ _ _ _ Cn)).
    intros ->. destruct (cell_inj _ _ _ _ _ _ Cn Cz). lia. }
  assert (i < n h -> cell h' i y r) as Ci.
  { intros Hlt. unfold h', heap_raw_remove. fold i. destruct (Nat.ltb_spec i (n h)); [| lia].
    change (cell (put_node (array h !!! n h) i h) i y r). rewrite (proj1 (cell_index _ _ _ _ Cn)).
    apply (put_cell h i y (mk_node (n h) r)); [by apply wf_length | apply Cn]. }
  split; [| split; [done | split; [| split]]].
  - assert (allocated h' = allocated h /\ length (array h') = length (array h)) as [Ea El].
    { unfold h', heap_raw_remove. fold i. destruct (_ <? _); [| done]. unfold put_node. rsimpl.
      by rewrite length_insert. }
    unfold wf. rewrite En, Ea, El. split; [lia |]. split; [done |]. split.
    { intros H0. apply nil_length_inv. by rewrite El, W3. }
    intros k Hk. destruct (decide (k = i)) as [-> |]; [exists y, r; apply Ci; lia |].
    destruct (W4 k ltac:(lia)) as (z & s & Cz). exists z, s. apply Ck; [lia | done | done].
  - unfold h', heap_raw_remove. destruct (_ <? _); [| done]. unfold put_node. rsimpl. apply dom_alter_L.
  - intros z s. unfold mem. rewrite En, lookup_delete_Some, (Hq z s). split.
    + intros [Hne (k & Hk & Cz)]. destruct (decide (k = n h)) as [-> |].
      * destruct (cell_fun _ _ _ _ _ _ Cn Cz) as [<- <-]. exists i.
        assert (i <> n h) by (intros Ein; rewrite Ein in C; by destruct (cell_fun _ _ _ _ _ _ C Cz)).
        split; [lia |]. apply Ci. lia.
      * exists k. assert (k <> i) by (intros ->; by destruct (cell_fun _ _ _ _ _ _ C Cz)).
        split; [lia |]. apply Ck; [lia | done | done].
    + intros (k & Hk & Cz). destruct (decide (k = i)) as [-> | Hki].
      * destruct (cell_fun _ _ _ _ _ _ (Ci ltac:(lia)) Cz) as [<- <-]. split.
        { intros <-. destruct (cell_inj _ _ _ _ _ _ C Cn). lia. }
        exists (n h). split; [lia | done].
      * destruct (W4 k ltac:(lia)) as (z' & s' & Cz').
        destruct (cell_fun _ _ _ _ _ _ Cz (Ck k z' s' ltac:(lia) Hki Cz')) as [-> ->]. split.
        { intros <-. by destruct (cell_inj _ _ _ _ _ _ C Cz'). }
        exists k. split; [lia | done].
  - intros k Hk Hne. destruct (W4 k ltac:(lia)) as (z & s & Cz).
    by rewrite (cell_prio _ _ _ _ Cz), (cell_prio _ _ _ _ (Ck k z s Hk Hne Cz)).
Qed.

Lemma heap_remove_refines h q x p :
  refines h q -> q !! x = Some p ->
  refines (heap_remove x h) (delete x q) /\ dom (nodes (heap_remove x h)) = dom (nodes h).
Proof.
  intros (Hwf & Ho & Hq) Hx. destruct (member_cell h q x p Hq Hx) as [Hi _].
  destruct (raw_remove_spec h q x p Hwf Hq Hx) as (W & En & Ed & Q & P). unfold heap_remove.
  set (i := idx (nodes h !!! x)) in *. set (h1 := heap_raw_remove x h) in *.
  destruct (Nat.leb_spec i (n h1)) as [Hle | Hgt].
  - destruct (float_up_or_down_spec i h1 W ltac:(lia)) as [R O].
    { apply (near_change h); [done | lia | lia |]. intros k Hk. apply P. lia. }
    split; [| etrans; [apply R | done]]. split; [apply R |]. split; [done |].
    by eapply rearranged_represents.
  - split; [| done]. split; [done |]. split; [| done]. intros a b _ Ha Hc Hb.
    rewrite !P by (unfold child in Hc; lia). apply (Ho a b); try done. lia.
Qed.

Lemma heap_pop_refines h q :
  refines h q -> 0 < n h ->
  exists p, q !! (heap_pop h).1 = Some p /\ refines (heap_pop h).2 (delete (heap_pop h).1 q).
Proof.
  intros (Hwf & Ho & Hq) Hn. pose proof Hwf as (_ & _ & _ & W4).
  destruct (W4 (n h) ltac:(lia)) as (x & p & C). destruct (cell_index _ _ _ _ C) as [Ex Ei].
  unfold heap_pop. cbn [fst snd]. rewrite Ex. exists p.
  assert (q !! x = Some p) as Hx by (apply Hq; exists (n h); split; [lia | done]). split; [done |].
  destruct (raw_remove_spec h q x p Hwf Hq Hx) as (W & _ & _ & Q & _).
  assert (heap_raw_remove x h = h <| n ::= pred |>) as E.
  { unfold heap_raw_remove. rewrite Ei. by rewrite Nat.ltb_irrefl. }
  rewrite E in W, Q. split; [done |]. split; [by apply ord_pred | done].
Qed.

(** Zeroed memory for a node. *)
Definition heap_alloc (x : nat) (h : heap) : heap := h <| nodes ::= <[x := mk_node 0 0]> |>.

Lemma heap_alloc_dom x h : x ∈ dom (nodes (heap_alloc x h)).
Proof. unfold heap_alloc. rsimpl. set_solver. Qed.

(** Writing the memory of a node outside the queue. *)
Lemma heap_alloc_refines h q x :
  refines h q -> q !! x = None ->
  refines (heap_alloc x h) q.
Proof.
  intros (Hwf & Ho & Hq) Hx. set (h' := heap_alloc x h).
  assert (forall i y p, (1 <= i <= n h)%nat -> cell h' i y p <-> cell h i y p) as Hc.
  { intros i y p Hi. unfold cell. subst h'. unfold heap_alloc. rsimpl. destruct (decide (y = x)) as [-> | Hne].
    - pose proof Hwf as (_ & _ & _ & W). destruct (W i Hi) as (w & r & C). pose proof C as [Ha _].
      rewrite Ha. split; intros [[= ->] _]; exfalso.
      all: by rewrite (proj2 (Hq x r)) in Hx by (by exists i).
    - by rewrite lookup_insert_ne. }
  assert (wf h') as W'.
  { pose proof Hwf as (W1 & W2 & W3 & W4). subst h'. split; [done |]. split; [done |]. split; [done |].
    intros i Hi. destruct (W4 i Hi) as (y & p & C). exists y, p. by apply Hc. }
  split; [done |]. split.
  - intros i j Hk Hi Hij Hj. change (n h') with (n h) in Hj. pose proof Hwf as (_ & _ & _ & W).
    assert (i <= n h)%nat by (unfold child in Hij; lia).
    destruct (W i ltac:(lia)) as (y & p & C). destruct (W j ltac:(unfold child in Hij; lia)) as (z & r & D).
    rewrite (cell_prio h' i y p), (cell_prio h' j z r);
      [| apply Hc; [unfold child in Hij; lia | done] | apply Hc; [lia | done]].
    rewrite <- (cell_prio h i y p C), <- (cell_prio h j z r D). by apply Ho.
  - intros y p. rewrite (Hq y p). split; intros (i & Hi & C); exists i; (split; [done |]); by apply (Hc i y p Hi).
Qed.

(** ** The root is a maximum *)

Lemma root_max h i : ord 1 h -> 1 <= i <= n h -> (prio h i <= prio h 1)%Z.
Proof.
  intros Ho. induction i as [i IH] using lt_wf_ind. intros Hi.
  destruct (decide (i = 1)) as [-> |]; [lia |]. destruct (parent_child i ltac:(lia)) as [Hc Hg].
  transitivity (prio h (heap_parent__ i)); [apply Ho; (done || lia) | apply IH; lia].
Qed.

Lemma heap_max_refines h q :
  refines h q -> 0 < n h ->
  exists p, q !! heap_max h = Some p /\ forall y r, q !! y = Some r -> (r <= p)%Z.
Proof.
  intros (Hwf & Ho & Hq) Hn. destruct Hwf as (_ & _ & _ & W4).
  destruct (W4 1 ltac:(lia)) as (x & p & C). destruct (cell_index _ _ _ _ C) as [Ex _].
  exists p. unfold heap_max. rewrite Ex. split; [apply Hq; exists 1; split; [lia | done] |].
  intros y r (k & Hk & Cy)%Hq. rewrite <- (cell_prio _ _ _ _ Cy), <- (cell_prio _ _ _ _ C).
  by apply root_max.
Qed.

(** ** Iteration and count *)

Definition cells (h : heap) : list nat := map (λ i, array h !!! i) (seq 1 (n h)).

Lemma for_each_loop_spec h : wf h -> forall fuel i,
  1 <= i <= n h -> fuel = n h + 1 - i ->
  for_each_loop fuel h (array h !!! i) = map (λ i, array h !!! i) (seq i fuel).
Proof.
  intros (_ & _ & _ & W4) fuel. induction fuel as [| fuel IH]; intros i Hi Hf; [lia |].
  cbn [for_each_loop seq map]. destruct (W4 i Hi) as (x & p & C).
  destruct (cell_index _ _ _ _ C) as [Ex Ei]. rewrite Ex, Ei. f_equal.
  destruct (Nat.ltb_spec i (n h)); [apply IH; lia |]. by replace fuel with 0 by lia.
Qed.

Lemma heap_for_each_cells h : wf h -> heap_for_each h = cells h.
Proof.
  intros Hwf. unfold heap_for_each, cells. destruct (Nat.ltb_spec 0 (n h)).
  - apply for_each_loop_spec; [done | lia | lia].
  - by replace (n h) with 0 by lia.
Qed.

Lemma cells_spec h q :
  wf h -> represents h q -> NoDup (cells h) /\ forall x, x ∈ cells h <-> x ∈ dom q.
Proof.
  intros (_ & _ & _ & W4) Hq. split.
  - apply NoDup_fmap_2_strong; [| apply NoDup_seq]. intros i j Hi Hj E.
    apply elem_of_seq in Hi, Hj. destruct (W4 i ltac:(lia)) as (x & p & Ci), (W4 j ltac:(lia)) as (y & r & Cj).
    rewrite (proj1 (cell_index _ _ _ _ Ci)), (proj1 (cell_index _ _ _ _ Cj)) in E. subst y.
    by destruct (cell_inj _ _ _ _ _ _ Ci Cj).
  - intros x. unfold cells. rewrite list_elem_of_fmap, elem_of_dom. split.
    + intros (i & -> & Hi%elem_of_seq). destruct (W4 i ltac:(lia)) as (x & p & Ci).
      rewrite (proj1 (cell_index _ _ _ _ Ci)). exists p. apply Hq. exists i. split; [lia | done].
    + intros [p (i & Hi & C)%Hq]. exists i. split; [| apply elem_of_seq; lia].
      by rewrite (proj1 (cell_index _ _ _ _ C)).
Qed.

Lemma count_size h q : wf h -> represents h q -> n h = size q.
Proof.
  intros Hwf Hq. destruct (cells_spec h q Hwf Hq) as [Hnd Hel].
  rewrite <- size_dom. assert (dom q = list_to_set (cells h)) as ->.
  { apply set_eq. intros x. by rewrite elem_of_list_to_set, Hel. }
  rewrite size_list_to_set by done. unfold cells. by rewrite length_map, length_seq.
Qed.

(** ** Simulation *)

Inductive op := OInsert (x : nat) (p : Z) | ORemove (x : nat) | OChange (x : nat) (p : Z) | OPop | OClear.

Definition exec (o : op) (h : heap) : option nat * heap :=
  match o with
  | OInsert x p => (None, heap_insert x p h)
  | ORemove x => (None, heap_remove x h)
  | OChange x p => (None, heap_change x p h)
  | OPop => (Some (heap_pop h).1, (heap_pop h).2)
  | OClear => (None, heap_clear h)
  end.

(** What an operation of a priority queue may return and become; removing an arbitrary
    element returns one of the queue's. *)
Inductive queue_step : op -> gmap nat Z -> option nat -> gmap nat Z -> Prop :=
  | step_insert x p q : q !! x = None -> queue_step (OInsert x p) q None (<[x := p]> q)
  | step_remove x p q : q !! x = Some p -> queue_step (ORemove x) q None (delete x q)
  | step_change x p p' q : q !! x = Some p' -> queue_step (OChange x p) q None (<[x := p]> q)
  | step_pop x p q : q !! x = Some p -> queue_step OPop q (Some x) (delete x q)
  | step_clear q : queue_step OClear q None ∅.

(** The callers' obligations. *)
Definition allowed (nodes : gset nat) (q : gmap nat Z) (o : op) : Prop :=
  match o with
  | OInsert x _ => x ∈ nodes /\ q !! x = None
  | ORemove x | OChange x _ => is_Some (q !! x)
  | OPop => q <> ∅
  | OClear => True
  end.

Lemma exec_simulates h q o :
  refines h q -> allowed (dom (nodes h)) q o ->
  exists q', queue_step o q (exec o h).1 q' /\ refines (exec o h).2 q' /\
    dom (nodes (exec o h).2) = dom (nodes h).
Proof.
  intros Hr Ha. destruct o as [x p | x | x p | |]; cbn [allowed exec fst snd] in *.
  - destruct Ha as [Hd Hx]. exists (<[x := p]> q). split; [by constructor |].
    by apply heap_insert_refines.
  - destruct Ha as [p Hx]. exists (delete x q). split; [by econstructor |].
    by eapply heap_remove_refines.
  - destruct Ha as [p' Hx]. exists (<[x := p]> q). split; [by econstructor |].
    by eapply heap_change_refines.
  - assert (0 < n h) as Hn.
    { destruct Hr as (Hwf & _ & Hq). rewrite (count_size h q Hwf Hq).
      assert (size q <> 0) by (by intros ?%map_size_empty_inv). lia. }
    destruct (heap_pop_refines h q Hr Hn) as (p & Hx & Hr').
    exists (delete (heap_pop h).1 q). split; [by econstructor | done].
  - exists ∅. split; [constructor |]. split; [| done]. destruct Hr as ((W1 & W2 & W3 & W4) & Ho & Hq).
    split; [| split].
    + unfold wf, heap_clear. rsimpl. split; [lia |]. split; [done |]. split; [done |]. lia.
    + intros a b _ Ha1 Hc Hb. change (b <= 0) in Hb. unfold child in Hc. lia.
    + intros y r. split; [done |]. intros (k & Hk & _). change (1 <= k <= 0) in Hk. lia.
Qed.

(** States reached from an empty heap by allowed operations, with the queue they stand for. *)
Inductive reachable (nodes0 : gmap nat heap_node) : heap -> gmap nat Z -> Prop :=
  | reach_init : reachable nodes0 (heap_init nodes0) ∅
  | reach_step h q o q' :
      reachable nodes0 h q -> allowed (dom nodes0) q o -> queue_step o q (exec o h).1 q' ->
      reachable nodes0 (exec o h).2 q'.

Lemma queue_step_det o q out q1 q2 : queue_step o q out q1 -> queue_step o q out q2 -> q1 = q2.
Proof. intros H1 H2. destruct H1; by inversion H2. Qed.

Lemma reachable_refines nodes0 h q :
  reachable nodes0 h q -> refines h q /\ dom (nodes h) = dom nodes0.
Proof.
  induction 1 as [| h q o q' _ [IH Ed] Ha Hs].
  - split; [| done]. split; [| split].
    + unfold wf, heap_init. cbn. split; [lia |]. split; [lia |]. split; [done |]. lia.
    + intros a b _ Ha Hc Hb. cbn in Hb. unfold child in Hc. lia.
    + intros x p. split; [done |]. intros (k & Hk & _). cbn in Hk. lia.
  - rewrite <- Ed in Ha. destruct (exec_simulates h q o IH Ha) as (q2 & Hs2 & Hr & Hd).
    by rewrite (queue_step_det _ _ _ _ _ Hs Hs2), Hd, Ed.
Qed.


(** Rebuilding restores the heap order of any heap whose nodes and back pointers are
    consistent, without losing or changing an element, so a batch of raw insertions, removals
    and changes followed by a rebuild gives the queue it should. *)
Theorem heap_rebuild_restores h q :
  wf h -> represents h q ->
  refines (heap_rebuild h) q /\
  (forall x p, q !! x = None -> x ∈ dom (nodes h) ->
    refines (heap_rebuild (heap_raw_insert x p h)) (<[x := p]> q)) /\
  (forall x p, q !! x = Some p -> refines (heap_rebuild (heap_raw_remove x h)) (delete x q)) /\
  (forall x p p', q !! x = Some p' -> refines (heap_rebuild (heap_raw_change x p h)) (<[x := p]> q)).
Proof.
  assert (forall h q, wf h -> represents h q -> refines (heap_rebuild h) q) as Hre.
  { intros h0 q0 W Q. destruct (rebuild_loop_spec (n h0 / 2) h0 W (or_introl (le_n _))) as [R O].
    split; [apply R |]. split; [done | by eapply rearranged_represents]. }
  intros Hwf Hq. split; [by apply Hre |]. split; [| split].
  - intros x p Hx Hd. destruct (raw_insert_spec h q x p Hwf Hq Hx Hd) as (W & _ & _ & Q & _). by apply Hre.
  - intros x p Hx. destruct (raw_remove_spec h q x p Hwf Hq Hx) as (W & _ & _ & Q & _). by apply Hre.
  - intros x p p' Hx. destruct (raw_change_spec h q x p p' Hwf Hq Hx) as (W & _ & _ & Q & _). by apply Hre.
Qed.

(** ** Witnesses *)

Definition sample_nodes : gmap nat heap_node :=
  <[1 := mk_node 0 0%Z]> (<[2 := mk_node 0 0%Z]> (<[3 := mk_node 0 0%Z]> ∅)).

Definition sample_heap : heap :=
  (exec (OInsert 2 7%Z) (exec (OInsert 1 5%Z) (heap_init sample_nodes)).2).2.

Definition sample_queue : gmap nat Z := <[2 := 7%Z]> (<[1 := 5%Z]> ∅).

Lemma sample_reachable : reachable sample_nodes sample_heap sample_queue.
Proof.
  apply (reach_step _ (exec (OInsert 1 5%Z) (heap_init sample_nodes)).2 (<[1 := 5%Z]> ∅) (OInsert 2 7%Z)).
  - apply (reach_step _ (heap_init sample_nodes) ∅ (OInsert 1 5%Z)); [constructor | | by constructor].
    split; [| done]. apply elem_of_dom. by eexists.
  - split; [| done]. apply elem_of_dom. by eexists.
  - by constructor.
Qed.


Lemma sample_wf : wf sample_heap /\ represents sample_heap sample_queue.
Proof. by destruct (reachable_refines _ _ _ sample_reachable) as [(? & _ & ?) _]. Qed.

Lemma heap_rebuild_restores_witness :
  refines (heap_rebuild (heap_raw_change 1 9%Z sample_heap)) (<[1 := 9%Z]> sample_queue).
Proof.
  destruct (heap_rebuild_restores sample_heap sample_queue (proj1 sample_wf) (proj2 sample_wf))
    as (_ & _ & _ & H). apply (H 1 9%Z 5%Z). reflexivity.
Defined.

End Heap.
