(* ===== verification/Hmap.v ===== *)
(** Hash tables (lib/hmap.c, include/openvswitch/hmap.h): chains of nodes linked through memory,
    their insertion, removal, rehashing and iteration, and the finite map that they refine. *)
From stdpp Require Import gmap.
From S2P Require Import Prelude.

Module Hmap.

(** ** Data *)

(** [struct hmap_node]; nodes are identified by numbers. *)
Record hmap_node := mk_node { hash : Z; next : option nat }.

#[export] Instance hmap_node_eta : RecordEta hmap_node := λ r, mk_node (hash r) (next r).
#[export] Instance hmap_node_inhabited : Inhabited hmap_node := populate (mk_node 0 None).

(** [struct hmap] and the nodes in memory.  A table whose [buckets] point to its member [one]
    has a list of one bucket. *)
Record hmap := mk_hmap {
  buckets : list (option nat);
  mask : Z;
  n : Z;
  nodes : gmap nat hmap_node;
}.

#[export] Instance hmap_eta : RecordEta hmap := λ r, mk_hmap (buckets r) (mask r) (n r) (nodes r).

(** [hash & hmap->mask] *)
Definition slot (h : hmap) (hash : Z) : nat := Z.to_nat (Z.land hash (mask h)).

Abbreviation node_hash h x := (hash (nodes h !!! x)).
Abbreviation node_next h x := (next (nodes h !!! x)).

(** ** Initialisation *)

(** The nodes are those of the program. *)
Definition hmap_init (nodes : gmap nat hmap_node) : hmap := mk_hmap [None] 0 0 nodes.

Definition hmap_clear (h : hmap) : hmap :=
  if 0 <? n h then h <| n := 0 |> <| buckets := replicate (Z.to_nat (mask h + 1)) None |> else h.

Definition hmap_count (h : hmap) : Z := n h.
Definition hmap_capacity (h : hmap) : Z := mask h * 2 + 1.
Definition hmap_is_empty (h : hmap) : bool := n h =? 0.

(** ** Insertion and resizing *)

Definition hmap_insert_fast (x : nat) (hash : Z) (h : hmap) : hmap :=
  let b := slot h hash in
  let h := h <| nodes ::= <[x := mk_node hash (buckets h !!! b)]> |> in
  h <| buckets ::= <[b := Some x]> |> <| n ::= Z.succ |>.

(** The inner loop of [resize], which moves the chain that starts at [p] to [tmp]. *)
Fixpoint rehash_chain (fuel : nat) (p : option nat) (tmp : hmap) : hmap :=
  match fuel, p with
  | S fuel, Some x =>
      let nxt := node_next tmp x in
      rehash_chain fuel nxt (hmap_insert_fast x (node_hash tmp x) tmp)
  | _, _ => tmp
  end.

(** The count of large buckets is only logged. *)
Definition resize (new_mask : Z) (h : hmap) : hmap :=
  let tmp := hmap_init (nodes h) in
  let tmp := if new_mask =? 0 then tmp
             else tmp <| buckets := replicate (Z.to_nat (new_mask + 1)) None |>
                      <| mask := new_mask |> in
  foldl (λ tmp p, rehash_chain (Z.to_nat (n h)) p tmp) tmp (buckets h).

Definition calc_mask (capacity : Z) : Z :=
  let mask := capacity / 2 in
  let mask := Z.lor mask (Z.shiftr mask 1) in
  let mask := Z.lor mask (Z.shiftr mask 2) in
  let mask := Z.lor mask (Z.shiftr mask 4) in
  let mask := Z.lor mask (Z.shiftr mask 8) in
  let mask := Z.lor mask (Z.shiftr mask 16) in
  let mask := Z.lor mask (Z.shiftr mask 32) in
  Z.lor mask (Z.shiftl (Z.land mask 1) 1).

Definition hmap_expand_at (h : hmap) : hmap :=
  let new_mask := calc_mask (n h) in
  if mask h <? new_mask then resize new_mask h else h.

Definition hmap_shrink_at (h : hmap) : hmap :=
  let new_mask := calc_mask (n h) in
  if new_mask <? mask h then resize new_mask h else h.

Definition hmap_reserve_at (capacity : Z) (h : hmap) : hmap :=
  let new_mask := calc_mask capacity in
  if mask h <? new_mask then resize new_mask h else h.

Definition hmap_insert_at (x : nat) (hash : Z) (h : hmap) : hmap :=
  let h := hmap_insert_fast x hash h in
  if mask h <? n h / 2 then hmap_expand_at h else h.

(** ** Removal and replacement *)

(** A [struct hmap_node **]: the cell of a bucket or the link of a node. *)
Inductive link := Bucket (b : nat) | Next (x : nat).

Definition deref (h : hmap) (r : link) : option nat :=
  match r with Bucket b => buckets h !!! b | Next x => node_next h x end.

Definition assign (r : link) (v : option nat) (h : hmap) : hmap :=
  match r with
  | Bucket b => h <| buckets ::= <[b := v]> |>
  | Next x => h <| nodes ::= alter (λ nd, nd <| next := v |>) x |>
  end.

(** The loop that looks for the link to node [x]: [None] is the null pointer that the program
    would dereference if [x] were not in the chain. *)
Fixpoint find_link (fuel : nat) (h : hmap) (x : nat) (r : link) : option link :=
  match fuel, deref h r with
  | S fuel, Some y => if decide (y = x) then Some r else find_link fuel h x (Next y)
  | _, _ => None
  end.

Definition link_to (x : nat) (h : hmap) : option link :=
  find_link (Z.to_nat (n h)) h x (Bucket (slot h (node_hash h x))).

Definition hmap_remove (x : nat) (h : hmap) : option hmap :=
  r ← link_to x h;
  Some (assign r (node_next h x) h <| n ::= Z.pred |>).

Definition hmap_replace (old_node new_node : nat) (h : hmap) : option hmap :=
  r ← link_to old_node h;
  let h := assign r (Some new_node) h in
  Some (h <| nodes ::= <[new_node := nodes h !!! old_node]> |>).

(** The node has already been copied to its new place. *)
Definition hmap_node_moved (old_node node : nat) (h : hmap) : option hmap :=
  r ← find_link (Z.to_nat (n h)) h old_node (Bucket (slot h (node_hash h node)));
  Some (assign r (Some node) h).

(** ** Search and iteration *)

Fixpoint hmap_next_with_hash__ (fuel : nat) (h : hmap) (p : option nat) (hash : Z) : option nat :=
  match fuel, p with
  | S fuel, Some x =>
      if node_hash h x =? hash then Some x else hmap_next_with_hash__ fuel h (node_next h x) hash
  | _, _ => None
  end.

Definition hmap_first_with_hash (h : hmap) (hash : Z) : option nat :=
  hmap_next_with_hash__ (Z.to_nat (n h)) h (buckets h !!! slot h hash) hash.

Definition hmap_next_with_hash (h : hmap) (x : nat) : option nat :=
  hmap_next_with_hash__ (Z.to_nat (n h)) h (node_next h x) (node_hash h x).

Definition hmap_first_in_bucket (h : hmap) (hash : Z) : option nat := buckets h !!! slot h hash.
Definition hmap_next_in_bucket (h : hmap) (x : nat) : option nat := node_next h x.

(** The loop over the buckets from [start] on. *)
Fixpoint first_used (bs : list (option nat)) : option nat :=
  match bs with
  | [] => None
  | Some x :: _ => Some x
  | None :: bs => first_used bs
  end.

Definition hmap_next__ (h : hmap) (start : nat) : option nat := first_used (drop start (buckets h)).
Definition hmap_first (h : hmap) : option nat := hmap_next__ h 0.

Definition hmap_next (h : hmap) (x : nat) : option nat :=
  match node_next h x with
  | Some y => Some y
  | None => hmap_next__ h (S (slot h (node_hash h x)))
  end.

(** The nodes that a loop [for (p = first; p; p = next(p))] visits. *)
Fixpoint visit (fuel : nat) (nxt : nat -> option nat) (p : option nat) : list nat :=
  match fuel, p with
  | S fuel, Some x => x :: visit fuel nxt (nxt x)
  | _, _ => []
  end.

(** [HMAP_FOR_EACH], [HMAP_FOR_EACH_WITH_HASH] and [HMAP_FOR_EACH_IN_BUCKET] *)
Definition for_each (h : hmap) : list nat := visit (Z.to_nat (n h)) (hmap_next h) (hmap_first h).

Definition for_each_with_hash (h : hmap) (hash : Z) : list nat :=
  visit (Z.to_nat (n h)) (hmap_next_with_hash h) (hmap_first_with_hash h hash).

Definition for_each_in_bucket (h : hmap) (hash : Z) : list nat :=
  visit (Z.to_nat (n h)) (hmap_next_in_bucket h) (hmap_first_in_bucket h hash).

Definition hmap_contains (h : hmap) (x : nat) : bool :=
  bool_decide (x ∈ for_each_in_bucket h (node_hash h x)).

(** The loop of [hmap_pop_helper__] over the buckets from [b] on. *)
Fixpoint pop_loop (fuel b : nat) (h : hmap) : option (nat * nat * hmap) :=
  match fuel with
  | O => None
  | S fuel =>
      match buckets h !!! b with
      | Some x => h ← hmap_remove x h; Some (x, b, h)
      | None => pop_loop fuel (S b) h
      end
  end.

(** The first node from bucket [b] on, removed, with the bucket it was in. *)
Definition hmap_pop_helper__ (b : nat) (h : hmap) : option (nat * nat * hmap) :=
  pop_loop (Z.to_nat (mask h + 1) - b) b h.

(** The nodes that [HMAP_FOR_EACH_POP] takes out, and the table it leaves. *)
Fixpoint pop_all (fuel b : nat) (h : hmap) : list nat * hmap :=
  match fuel, hmap_pop_helper__ b h with
  | S fuel, Some (x, b, h) => let '(l, h) := pop_all fuel b h in (x :: l, h)
  | _, _ => ([], h)
  end.

(** [struct hmap_position] is a pair of a bucket and an offset. *)
Fixpoint position_loop (h : hmap) (bs : list (option nat)) (offset : nat) : option nat * (nat * nat) :=
  match bs with
  | [] => (None, (0%nat, 0%nat))
  | p :: bs =>
      match visit (Z.to_nat (n h)) (hmap_next_in_bucket h) p !! offset with
      | Some x =>
          (Some x, match node_next h x with
                   | Some _ => (slot h (node_hash h x), S offset)
                   | None => (S (slot h (node_hash h x)), 0%nat)
                   end)
      | None => position_loop h bs 0
      end
  end.

Definition hmap_at_position (h : hmap) (pos : nat * nat) : option nat * (nat * nat) :=
  position_loop h (drop pos.1 (buckets h)) pos.2.

(** The random numbers drawn for the bucket, and the one for the place in its chain. *)
Fixpoint hmap_random_node (h : hmap) (draws : list Z) (i : nat) : option nat :=
  match draws with
  | [] => None
  | d :: draws =>
      match for_each_in_bucket h d with
      | [] => hmap_random_node h draws i
      | l => l !! (i mod length l)%nat
      end
  end.

(** ** Chains *)

(** The chain that starts at [p] holds the nodes of [l]. *)
Fixpoint chain (mem : gmap nat hmap_node) (p : option nat) (l : list nat) : Prop :=
  match l with
  | [] => p = None
  | x :: l => p = Some x /\ exists nd, mem !! x = Some nd /\ chain mem (next nd) l
  end.

Lemma chain_head mem p l : chain mem p l -> p = head l.
Proof. destruct l; [done | by intros [-> _]]. Qed.

Lemma chain_frame mem mem' p l :
  chain mem p l -> (forall x, x ∈ l -> mem' !! x = mem !! x) -> chain mem' p l.
Proof.
  revert p. induction l as [| x l IH]; intros p; cbn; [done |].
  intros (-> & nd & Hx & Hc) Hf. split; [done |]. exists nd.
  rewrite Hf by set_solver. split; [done |]. apply IH; [done |]. set_solver.
Qed.

Lemma chain_insert_fresh mem x nd p l : x ∉ l -> chain mem p l -> chain (<[x := nd]> mem) p l.
Proof.
  intros Hx Hc. apply (chain_frame mem); [done |]. intros y Hy. rewrite lookup_insert_ne; set_solver.
Qed.

(** The nodes of a chain have memory, and each links to the one after it. *)
Lemma chain_next mem p l1 x l2 :
  chain mem p (l1 ++ x :: l2) -> exists nd, mem !! x = Some nd /\ chain mem (next nd) l2.
Proof.
  revert p. induction l1 as [| y l1 IH]; intros p; cbn.
  - intros (_ & nd & H1 & H2). by exists nd.
  - intros (_ & nd & _ & Hc). by apply (IH (next nd)).
Qed.

(** Redirects the link after [l1 ++ [y]] to another chain. *)
Lemma chain_splice mem p l1 y l2 q l3 :
  chain mem p (l1 ++ y :: l2) -> y ∉ l1 ->
  chain (alter (λ nd, nd <| next := q |>) y mem) q l3 ->
  chain (alter (λ nd, nd <| next := q |>) y mem) p (l1 ++ y :: l3).
Proof.
  revert p. induction l1 as [| z l1 IH]; intros p; cbn.
  - intros (-> & nd & Hy & _) _ Hq. split; [done |]. exists (nd <| next := q |>).
    rewrite lookup_alter_eq, Hy. by rsimpl.
  - intros (-> & nd & Hz & Hc) Hy Hq. split; [done |]. exists nd.
    rewrite lookup_alter_ne by set_solver. split; [done |]. apply IH; [done | set_solver | done].
Qed.

(** ** What a table represents *)

(** The buckets hold the chains of [L]. *)
Record rep (h : hmap) (L : list (list nat)) : Prop := {
  rep_chains : Forall2 (chain (nodes h)) (buckets h) L;
  rep_nodup : NoDup (concat L);
  rep_slot i l x : L !! i = Some l -> x ∈ l -> slot h (node_hash h x) = i;
  rep_n : n h = Z.of_nat (length (concat L));
  rep_mask : exists k, 0 <= k /\ mask h = 2 ^ k - 1 /\ length L = Z.to_nat (2 ^ k);
}.

(** The table holds the nodes of [m], each with its hash. *)
Definition stores (h : hmap) (L : list (list nat)) (m : gmap nat Z) : Prop :=
  forall x z, m !! x = Some z <-> x ∈ concat L /\ node_hash h x = z.

Definition holds (h : hmap) (m : gmap nat Z) : Prop := exists L, rep h L /\ stores h L m.

Lemma slot_mod h k z : mask h = 2 ^ k - 1 -> 0 <= k -> slot h z = Z.to_nat (z mod 2 ^ k).
Proof.
  intros E Hk. unfold slot. rewrite E. change (2 ^ k - 1) with (Z.pred (2 ^ k)).
  by rewrite <- Z.ones_equiv, Z.land_ones.
Qed.

Lemma slot_lt h L z : rep h L -> (slot h z < length L)%nat.
Proof.
  intros []. destruct rep_mask0 as (k & Hk & E & ->). rewrite (slot_mod h k z E Hk).
  pose proof (Z.pow_pos_nonneg 2 k ltac:(lia) Hk). pose proof (Z.mod_pos_bound z (2 ^ k)). lia.
Qed.

Lemma elem_of_concat {A} (L : list (list A)) x :
  x ∈ concat L <-> exists i l, L !! i = Some l /\ x ∈ l.
Proof.
  rewrite list_elem_of_In, in_concat. setoid_rewrite <- list_elem_of_In.
  split; [intros (l & Hl & Hx) | intros (i & l & Hl & Hx)].
  - apply list_elem_of_lookup in Hl as [i Hi]. by exists i, l.
  - exists l. split; [| done]. by eapply list_elem_of_lookup_2.
Qed.

(** Changing one inner list. *)
Lemma concat_insert_split {A} (L : list (list A)) i l l' :
  L !! i = Some l -> exists A1 A2, concat L = A1 ++ l ++ A2 /\ concat (<[i := l']> L) = A1 ++ l' ++ A2.
Proof.
  intros Hi. exists (concat (take i L)), (concat (drop (S i) L)). split.
  - rewrite <- (take_drop_middle L i l Hi) at 1. by rewrite concat_app.
  - rewrite insert_take_drop by (by eapply lookup_lt_Some). by rewrite concat_app.
Qed.

Lemma rep_bucket h L z :
  rep h L -> exists l, L !! slot h z = Some l /\ chain (nodes h) (buckets h !!! slot h z) l.
Proof.
  intros R. destruct (lookup_lt_is_Some_2 L (slot h z) (slot_lt h L z R)) as [l Hl].
  exists l. split; [done |].
  destruct (Forall2_lookup_r _ _ _ _ _ (rep_chains h L R) Hl) as (p & Hp & Hc).
  by rewrite (list_lookup_total_correct _ _ _ Hp).
Qed.

(** A node of the table is in the chain of its slot. *)
Lemma rep_find h L x :
  rep h L -> x ∈ concat L ->
  exists l1 l2, L !! slot h (node_hash h x) = Some (l1 ++ x :: l2) /\
    chain (nodes h) (buckets h !!! slot h (node_hash h x)) (l1 ++ x :: l2).
Proof.
  intros R (i & l & Hl & Hx)%elem_of_concat. rewrite (rep_slot h L R i l x Hl Hx).
  destruct (list_elem_of_split l x Hx) as (l1 & l2 & ->). exists l1, l2. split; [done |].
  destruct (Forall2_lookup_r _ _ _ _ _ (rep_chains h L R) Hl) as (p & Hp & Hc).
  by rewrite (list_lookup_total_correct _ _ _ Hp).
Qed.

Lemma nodup_concat_lookup {A} (L : list (list A)) i l : NoDup (concat L) -> L !! i = Some l -> NoDup l.
Proof.
  intros Hnd Hi. destruct (concat_insert_split L i l l Hi) as (A1 & A2 & E & _).
  rewrite E in Hnd. apply NoDup_app in Hnd as (_ & _ & Hnd). by apply NoDup_app in Hnd as [? _].
Qed.

Lemma nodup_concat_disjoint {A} (L : list (list A)) i j l l' x :
  NoDup (concat L) -> L !! i = Some l -> L !! j = Some l' -> x ∈ l -> x ∈ l' -> i = j.
Proof.
  intros Hnd Hi Hj Hx Hx'. destruct (decide (i = j)) as [| Hne]; [done |]. exfalso.
  destruct (concat_insert_split L i l [] Hi) as (A1 & A2 & E & E').
  assert (x ∈ A1 ++ A2) as Hin.
  { rewrite app_nil_l in E'. rewrite <- E'. apply elem_of_concat. exists j, l'. by rewrite list_lookup_insert_ne. }
  rewrite E in Hnd. apply NoDup_app in Hnd as (_ & H1 & Hnd). apply NoDup_app in Hnd as (_ & H2 & _).
  apply elem_of_app in Hin as [Hin | Hin]; [by apply (H1 x Hin), elem_of_app; left | by apply (H2 x)].
Qed.

Lemma elem_of_concat_insert {A} (L : list (list A)) i l l' y :
  NoDup (concat L) -> L !! i = Some l ->
  y ∈ concat (<[i := l']> L) <-> y ∈ l' \/ y ∈ concat L /\ y ∉ l.
Proof.
  intros Hnd Hi. destruct (concat_insert_split L i l l' Hi) as (A1 & A2 & E & ->).
  rewrite E in *. apply NoDup_app in Hnd as (_ & H1 & Hnd). apply NoDup_app in Hnd as (_ & H2 & _).
  specialize (H1 y). specialize (H2 y). rewrite elem_of_app in H1. rewrite !elem_of_app. tauto.
Qed.

Lemma nodup_concat_insert {A} (L : list (list A)) i l l' :
  NoDup (concat L) -> L !! i = Some l -> NoDup l' ->
  (forall y, y ∈ l' -> y ∈ l \/ y ∉ concat L) -> NoDup (concat (<[i := l']> L)).
Proof.
  intros Hnd Hi Hnd' Hy. destruct (concat_insert_split L i l l' Hi) as (A1 & A2 & E & ->).
  rewrite E in *. apply NoDup_app in Hnd as (N1 & H1 & Hnd). apply NoDup_app in Hnd as (N2 & H2 & N3).
  apply NoDup_app. split; [done |]. split.
  - intros y Hy1 [Hy2 | Hy2]%elem_of_app; [| by apply (H1 y Hy1), elem_of_app; right].
    destruct (Hy y Hy2) as [H | H]; [by apply (H1 y Hy1), elem_of_app; left |].
    apply H, elem_of_app. by left.
  - apply NoDup_app. split; [done |]. split; [| done]. intros y Hy1 Hy2.
    destruct (Hy y Hy1) as [H | H]; [by apply (H2 y) |].
    apply H. rewrite !elem_of_app. by right; right.
Qed.

Lemma chains_frame mem mem' bs L :
  Forall2 (chain mem) bs L -> (forall x, x ∈ concat L -> mem' !! x = mem !! x) ->
  Forall2 (chain mem') bs L.
Proof.
  induction 1 as [| p l bs L Hc _ IH]; intros Hf; constructor.
  - apply (chain_frame mem); [done |]. intros x Hx. apply Hf. cbn. apply elem_of_app. by left.
  - apply IH. intros x Hx. apply Hf. cbn. apply elem_of_app. by right.
Qed.

(** Replaces the chain of one bucket, the others keeping theirs. *)
Lemma rep_update h h' L i p l l' :
  rep h L -> L !! i = Some l -> mask h' = mask h -> buckets h' = <[i := p]> (buckets h) ->
  chain (nodes h') p l' -> (forall y, y ∈ concat L -> y ∉ l -> nodes h' !! y = nodes h !! y) ->
  NoDup l' -> (forall y, y ∈ l' -> y ∈ l \/ y ∉ concat L) ->
  (forall y, y ∈ l' -> slot h (node_hash h' y) = i) ->
  n h' = n h - Z.of_nat (length l) + Z.of_nat (length l') -> rep h' (<[i := l']> L).
Proof.
  intros R Hi Hm Hb Hc Hf Hnd Hy Hs Hn. pose proof R as [RC RN RS Rn (k & Hk & Em & EL)].
  assert (forall z, slot h' z = slot h z) as Hslot by (intros z; unfold slot; by rewrite Hm).
  constructor.
  - rewrite Hb. rewrite <- (list_insert_insert_eq L i l' []). rewrite <- (list_insert_insert_eq _ i p None).
    apply Forall2_insert; [| done].
    apply (chains_frame (nodes h)); [by apply Forall2_insert |].
    intros y Hy'. rewrite (elem_of_concat_insert L i l) in Hy' by done. set_solver.
  - by apply (nodup_concat_insert L i l).
  - intros j l0 y Hj Hy0. rewrite Hslot. destruct (decide (i = j)) as [<- | Hne].
    + rewrite list_lookup_insert_eq in Hj by (by eapply lookup_lt_Some). simplify_eq. by apply Hs.
    + rewrite list_lookup_insert_ne in Hj by done.
      rewrite lookup_total_alt, Hf; [| by apply elem_of_concat; exists j, l0 |].
      { rewrite <- lookup_total_alt. by apply (RS j l0). }
      intros Hl. by destruct (Hne (nodup_concat_disjoint L i j l l0 y RN Hi Hj Hl Hy0)).
  - rewrite Hn, Rn. destruct (concat_insert_split L i l l' Hi) as (A1 & A2 & -> & ->).
    rewrite !length_app. lia.
  - exists k. by rewrite Hm, length_insert.
Qed.

Lemma node_hash_frame h h' y : nodes h' !! y = nodes h !! y -> node_hash h' y = node_hash h y.
Proof. intros E. by rewrite !lookup_total_alt, E. Qed.

(** Likewise for the represented map. *)
Lemma holds_update h h' (m m' : gmap nat Z) L i p l l' :
  rep h L -> stores h L m ->
  L !! i = Some l -> mask h' = mask h -> buckets h' = <[i := p]> (buckets h) ->
  chain (nodes h') p l' -> (forall y, y ∈ concat L -> y ∉ l -> nodes h' !! y = nodes h !! y) ->
  NoDup l' -> (forall y, y ∈ l' -> y ∈ l \/ y ∉ concat L) ->
  (forall y, y ∈ l' -> slot h (node_hash h' y) = i) ->
  n h' = n h - Z.of_nat (length l) + Z.of_nat (length l') ->
  (forall y z, m' !! y = Some z <-> y ∈ l' /\ node_hash h' y = z \/ m !! y = Some z /\ y ∉ l) ->
  holds h' m'.
Proof.
  intros R Hr Hi Hm Hb Hc Hf Hnd Hy Hs Hn Hm'. exists (<[i := l']> L).
  split; [by apply (rep_update h h' L i p l l') |].
  intros x z. rewrite (elem_of_concat_insert L i l) by (done || apply R). rewrite Hm', (Hr _ _).
  split.
  - intros [[H1 H2] | [[H1 H2] H3]]; [tauto |]. split; [tauto |].
    by rewrite (node_hash_frame h h') by (by apply Hf).
  - intros [[H1 | [H1 H3]] H2]; [tauto |]. right. split; [| done]. split; [done |].
    by rewrite <- (node_hash_frame h h') by (by apply Hf).
Qed.

(** ** Insertion and removal *)

Lemma insert_fast_holds h m x z :
  holds h m -> m !! x = None -> holds (hmap_insert_fast x z h) (<[x := z]> m).
Proof.
  intros (L & R & Hr) Hx. destruct (rep_bucket h L z R) as (l & Hl & Hc).
  assert (x ∉ concat L) as Hn.
  { intros Hin. by rewrite (proj2 (Hr x (node_hash h x)) (conj Hin eq_refl)) in Hx. }
  assert (x ∉ l) as Hnl by (intros H; apply Hn, elem_of_concat; by exists (slot h z), l).
  apply (holds_update h _ m _ L (slot h z) (Some x) l (x :: l)); unfold hmap_insert_fast;
    cbv zeta; rsimpl; try done.
  - cbn. split; [done |]. eexists. split; [apply lookup_insert_eq |]. by apply chain_insert_fresh.
  - intros y Hy _. rewrite lookup_insert_ne; [done |]. by intros ->.
  - constructor; [done |]. eapply nodup_concat_lookup; [apply R | done].
  - intros y [-> | Hy]%elem_of_cons; [by right | by left].
  - intros y [-> | Hy]%elem_of_cons; [by rewrite lookup_total_insert_eq |].
    rewrite lookup_total_insert_ne by (by intros ->). by apply (rep_slot h L R _ l).
  - cbn [length]. lia.
  - intros y w. destruct (decide (y = x)) as [-> | Hne].
    + rewrite lookup_insert_eq, lookup_total_insert_eq, Hx. cbn [hash]. split; [| intros [[_ ->] | [? _]]; done].
      intros [= ->]. left. split; [by apply list_elem_of_here | done].
    + rewrite lookup_insert_ne, lookup_total_insert_ne by done. rewrite elem_of_cons, (Hr _ _). split.
      * intros [Hy E]. destruct (decide (y ∈ l)); [left | right]; naive_solver.
      * intros [[[? | Hy] E] | H]; [done | | tauto]. split; [| done].
        apply elem_of_concat. by exists (slot h z), l.
Qed.

(** The link to a node, found after [length l1] steps. *)
Definition link_after (r : link) (l1 : list nat) : link :=
  match last l1 with Some y => Next y | None => r end.

Lemma find_link_spec fuel h x l1 l2 : forall r,
  chain (nodes h) (deref h r) (l1 ++ x :: l2) -> x ∉ l1 -> (length l1 < fuel)%nat ->
  find_link fuel h x r = Some (link_after r l1).
Proof.
  revert l1. induction fuel as [| fuel IH]; [lia |]. intros [| y l1] r; cbn.
  - intros (-> & _) _ _. by rewrite decide_True.
  - intros (-> & nd & Hy & Hc) Hx Hf. rewrite decide_False by set_solver.
    rewrite (IH l1); [| | set_solver | lia].
    + unfold link_after. rewrite last_cons. by destruct (last l1).
    + cbn. by rewrite (lookup_total_correct _ _ _ Hy).
Qed.

(** Redirecting the link after [l1] in the chain of a bucket. *)
Lemma assign_spec h i l1 l2 q l3 :
  chain (nodes h) (buckets h !!! i) (l1 ++ l2) -> NoDup l1 -> (i < length (buckets h))%nat ->
  chain (nodes h) q l3 -> (forall y, y ∈ l1 -> y ∉ l3) ->
  let h' := assign (link_after (Bucket i) l1) q h in
  exists p, buckets h' = <[i := p]> (buckets h) /\ chain (nodes h') p (l1 ++ l3) /\
    mask h' = mask h /\ n h' = n h /\ (forall y, y ∉ l1 -> nodes h' !! y = nodes h !! y) /\
    (forall y, node_hash h' y = node_hash h y).
Proof.
  intros Hc Hnd Hi Hq Hd. destruct l1 as [| y l1 _] using rev_ind; cbv zeta.
  - unfold link_after. cbn [last assign]. rsimpl. by exists q.
  - unfold link_after. rewrite last_snoc. cbn [assign]. rsimpl.
    apply NoDup_app in Hnd as (_ & Hnd & _).
    assert (y ∉ l1) as Hy by (intros H; apply (Hnd y H); set_solver).
    exists (buckets h !!! i). rewrite <- !app_assoc in *. cbn [app] in *.
    split; [by rewrite list_insert_id by (by apply list_lookup_lookup_total_lt) |].
    split; [| split; [done | split; [done | split]]].
    + apply (chain_splice _ _ _ _ l2); [done | done |]. apply (chain_frame (nodes h)); [done |].
      intros z Hz. rewrite lookup_alter_ne; [done |]. intros <-. apply (Hd y); set_solver.
    + intros z Hz. rewrite lookup_alter_ne; [done |]. set_solver.
    + intros z. rewrite !lookup_total_alt, lookup_alter. case_decide; [| done]. subst z.
      by destruct (nodes h !! y).
Qed.

Lemma inner_length {A} (L : list (list A)) i l : L !! i = Some l -> (length l <= length (concat L))%nat.
Proof.
  intros Hi. destruct (concat_insert_split L i l l Hi) as (A1 & A2 & -> & _). rewrite !length_app. lia.
Qed.

Lemma rep_links h L : rep h L -> length (buckets h) = length L.
Proof. intros R. by apply (Forall2_length (chain (nodes h))), R. Qed.

Lemma find_in_table h L x :
  rep h L -> x ∈ concat L ->
  exists l1 l2, L !! slot h (node_hash h x) = Some (l1 ++ x :: l2) /\ NoDup (l1 ++ x :: l2) /\
    chain (nodes h) (buckets h !!! slot h (node_hash h x)) (l1 ++ x :: l2) /\
    (slot h (node_hash h x) < length (buckets h))%nat /\
    find_link (Z.to_nat (n h)) h x (Bucket (slot h (node_hash h x)))
    = Some (link_after (Bucket (slot h (node_hash h x))) l1).
Proof.
  intros R Hx. destruct (rep_find h L x R Hx) as (l1 & l2 & Hl & Hc). exists l1, l2.
  assert (NoDup (l1 ++ x :: l2)) as Hnd by (eapply nodup_concat_lookup; [apply R | done]).
  split; [done |]. split; [done |]. split; [done |].
  split; [rewrite (rep_links h L R); by apply slot_lt |].
  apply (find_link_spec _ _ _ _ l2); [done | |].
  - apply NoDup_app in Hnd as (_ & H & _). intros Hi. apply (H x Hi). set_solver.
  - pose proof (inner_length L _ _ Hl) as Hle. rewrite length_app in Hle. cbn [length] in Hle.
    rewrite (rep_n h L R). lia.
Qed.

Lemma holds_in h m L x :
  stores h L m -> x ∈ concat L <-> is_Some (m !! x).
Proof.
  intros Hr. split.
  - intros Hx. exists (node_hash h x). by apply Hr.
  - intros [z Hz]. by apply Hr in Hz as [? _].
Qed.

Lemma remove_holds h m x :
  holds h m -> is_Some (m !! x) ->
  exists h', hmap_remove x h = Some h' /\ holds h' (delete x m) /\ mask h' = mask h.
Proof.
  intros (L & R & Hr) Hx. apply (holds_in h m L x Hr) in Hx.
  destruct (find_in_table h L x R Hx) as (l1 & l2 & Hl & Hnd & Hc & Hi & E).
  set (i := slot h (node_hash h x)) in *.
  destruct (chain_next _ _ _ _ _ Hc) as (nd & Hnx & Hc2).
  pose proof Hnd as (N1 & N2 & N3)%NoDup_app. apply NoDup_cons in N3 as [N3 N4].
  destruct (assign_spec h i l1 (x :: l2) (node_next h x) l2) as (p & Hb & Hc' & Hm & Hn & Hf & Hh);
    [done | done | done | by rewrite (lookup_total_correct _ _ _ Hnx) | set_solver |].
  unfold hmap_remove, link_to. fold i. rewrite E. cbn. eexists. split; [done |].
  split; [| by rsimpl].
  apply (holds_update h _ m _ L i p (l1 ++ x :: l2) (l1 ++ l2)); rsimpl; try done.
  - intros y _ Hy. apply Hf. set_solver.
  - apply NoDup_app. split; [done |]. split; [set_solver | done].
  - set_solver.
  - intros y Hy. rewrite Hh. apply (rep_slot h L R i _ y Hl). set_solver.
  - rewrite Hn, !length_app. cbn [length]. lia.
  - intros y z. rewrite Hh, (Hr _ _). destruct (decide (y = x)) as [-> | Hne].
    + rewrite lookup_delete_eq. set_solver.
    + rewrite lookup_delete_ne, (Hr _ _) by done. split.
      * intros [Hy Ez]. destruct (decide (y ∈ l1 ++ x :: l2)); [left | by right].
        split; [set_solver | done].
      * intros [[Hy Ez] | H]; [| tauto]. split; [| done]. apply elem_of_concat.
        exists i, (l1 ++ x :: l2). split; [done | set_solver].
Qed.

Lemma last_elem_of {A} (l : list A) y : last l = Some y -> y ∈ l.
Proof. intros (l' & ->)%last_Some. set_solver. Qed.

(** A link of [l1] and a node outside it are written independently. *)
Lemma assign_then_copy h i l1 x y nd :
  nodes h !! x = Some nd -> x ∉ l1 -> y ∉ l1 ->
  let r := link_after (Bucket i) l1 in
  assign r (Some y) h <| nodes ::= <[y := nodes (assign r (Some y) h) !!! x]> |>
  = assign r (Some y) (h <| nodes ::= <[y := nd]> |>).
Proof.
  intros Hx Hxl Hyl. unfold link_after. destruct (last l1) as [w |] eqn:E; cbn [assign].
  - apply last_elem_of in E. rsimpl. rewrite lookup_total_alt, lookup_alter_ne, Hx by set_solver.
    destruct h. unfold upd; cbn. f_equal. rewrite alter_insert_ne; [done | set_solver].
  - rsimpl. by rewrite lookup_total_alt, Hx.
Qed.

(** The table in which [y], a copy of [x], has been linked in its place. *)
Definition relinked (h : hmap) (x y : nat) (l1 : list nat) : hmap :=
  assign (link_after (Bucket (slot h (node_hash h x))) l1) (Some y)
         (h <| nodes ::= <[y := nodes h !!! x]> |>).

Lemma relinked_holds h m L x y z l1 l2 :
  rep h L -> stores h L m -> m !! x = Some z -> m !! y = None ->
  L !! slot h (node_hash h x) = Some (l1 ++ x :: l2) -> NoDup (l1 ++ x :: l2) ->
  chain (nodes h) (buckets h !!! slot h (node_hash h x)) (l1 ++ x :: l2) ->
  (slot h (node_hash h x) < length (buckets h))%nat ->
  holds (relinked h x y l1) (<[y := z]> (delete x m)) /\ mask (relinked h x y l1) = mask h.
Proof.
  intros R Hr Hx Hy. pose proof (proj1 (Hr x z) Hx) as [Hxi Ez]. unfold relinked. rewrite Ez.
  assert (y ∉ concat L) as Hyn by (rewrite (holds_in h m L y Hr), Hy; by intros []).
  set (i := slot h z). intros Hl Hnd Hc Hi. destruct (chain_next _ _ _ _ _ Hc) as (nd & Hnx & Hc2).
  pose proof Hnd as (N1 & N2 & N3)%NoDup_app. apply NoDup_cons in N3 as [N3 N4].
  assert (y ∉ l1 ++ x :: l2) as Hyl by (intros H; apply Hyn, elem_of_concat; by exists i, (l1 ++ x :: l2)).
  rewrite (lookup_total_correct _ _ _ Hnx) in *.
  destruct (assign_spec (h <| nodes ::= <[y := nd]> |>) i l1 (x :: l2) (Some y) (y :: l2))
    as (p & Hb & Hc' & Hm & Hn & Hf & Hh); rsimpl; [by apply chain_insert_fresh | done | done | | set_solver |].
  { cbn. split; [done |]. exists nd. rewrite lookup_insert_eq. split; [done |].
    apply chain_insert_fresh; [set_solver | done]. }
  split; [| done].
  assert (forall w, w <> y -> node_hash (h <| nodes ::= <[y := nd]> |>) w = node_hash h w) as Hh'.
  { intros w Hw. rsimpl. by rewrite lookup_total_insert_ne. }
  assert (node_hash (h <| nodes ::= <[y := nd]> |>) y = z) as Hhy by (rsimpl; by rewrite lookup_total_insert_eq).
  apply (holds_update h _ m _ L i p (l1 ++ x :: l2) (l1 ++ y :: l2)); rsimpl; try done.
  - intros w Hw Hwl. rewrite Hf by set_solver. rewrite lookup_insert_ne; [done |]. by intros <-.
  - apply NoDup_app. split; [done |]. split; [set_solver |]. constructor; set_solver.
  - set_solver.
  - intros w Hw. rewrite Hh. destruct (decide (w = y)) as [-> | Hwy]; [by rewrite Hhy |].
    rewrite Hh' by done. apply (rep_slot h L R i _ w Hl). set_solver.
  - rewrite Hn, !length_app. cbn [length]. lia.
  - intros w v. rewrite Hh. destruct (decide (w = y)) as [-> | Hwy].
    + rewrite lookup_insert_eq, Hhy, Hy. set_solver.
    + rewrite lookup_insert_ne, Hh' by done.
      destruct (decide (w = x)) as [-> | Hwx]; [rewrite lookup_delete_eq; set_solver |].
      rewrite lookup_delete_ne by done. split.
      * intros Hw. destruct (decide (w ∈ l1 ++ x :: l2)); [left | by right].
        apply (Hr w v) in Hw. set_solver.
      * intros [[Hw Ew] | H]; [| tauto]. apply (Hr w v). split; [| done]. apply elem_of_concat.
        exists i, (l1 ++ x :: l2). set_solver.
Qed.

(** [y] takes the place and the hash of [x]. *)
Lemma replace_holds h m x y z :
  holds h m -> m !! x = Some z -> m !! y = None ->
  exists h', hmap_replace x y h = Some h' /\ holds h' (<[y := z]> (delete x m)) /\ mask h' = mask h.
Proof.
  intros (L & R & Hr) Hx Hy. pose proof (proj1 (Hr x z) Hx) as [Hxi Ez].
  assert (y ∉ concat L) as Hyn by (rewrite (holds_in h m L y Hr), Hy; by intros []).
  destruct (find_in_table h L x R Hxi) as (l1 & l2 & Hl & Hnd & Hc & Hi & E).
  destruct (chain_next _ _ _ _ _ Hc) as (nd & Hnx & _). exists (relinked h x y l1).
  split; [| by apply (relinked_holds h m L x y z l1 l2)].
  unfold hmap_replace, link_to, relinked. rewrite E. cbn. apply NoDup_app in Hnd as (_ & N & _).
  rewrite (lookup_total_correct _ _ _ Hnx).
  rewrite (assign_then_copy h _ l1 x y nd); [done | done | |].
  - intros H. apply (N x H). set_solver.
  - intros H. apply Hyn, elem_of_concat. eexists _, (l1 ++ x :: l2). split; [done | set_solver].
Qed.

(** Likewise when the node was moved by a reallocation. *)
Lemma node_moved_holds h m x y z :
  holds h m -> m !! x = Some z -> m !! y = None ->
  exists h', hmap_node_moved x y (h <| nodes ::= <[y := nodes h !!! x]> |>) = Some h' /\
    holds h' (<[y := z]> (delete x m)) /\ mask h' = mask h.
Proof.
  intros (L & R & Hr) Hx Hy. pose proof (proj1 (Hr x z) Hx) as [Hxi Ez].
  assert (y ∉ concat L) as Hyn by (rewrite (holds_in h m L y Hr), Hy; by intros []).
  destruct (find_in_table h L x R Hxi) as (l1 & l2 & Hl & Hnd & Hc & Hi & E).
  exists (relinked h x y l1). split; [| by apply (relinked_holds h m L x y z l1 l2)].
  unfold hmap_node_moved, relinked. rsimpl. rewrite lookup_total_insert_eq.
  change (slot (h <| nodes ::= <[y:=nodes h !!! x]> |>)) with (slot h).
  pose proof Hnd as (N1 & N2 & _)%NoDup_app.
  rewrite (find_link_spec _ _ _ l1 l2); [done | | |].
  - cbn [deref]. rsimpl. apply chain_insert_fresh; [| done].
    intros H. apply Hyn, elem_of_concat. by eexists _, (l1 ++ x :: l2).
  - intros H. apply (N2 x H). set_solver.
  - pose proof (inner_length L _ _ Hl) as Hle. rewrite length_app in Hle. cbn [length] in Hle.
    rewrite (rep_n h L R). lia.
Qed.

(** ** Sizes *)

(** Smearing: after a step of [d], each bit is the union of twice as many bits of [m]. *)
Lemma smear_step m m' d :
  0 < d -> (forall i, 0 <= i -> Z.testbit m' i = true <-> exists j, 0 <= j < d /\ Z.testbit m (i + j) = true) ->
  forall i, 0 <= i ->
    Z.testbit (Z.lor m' (Z.shiftr m' d)) i = true <-> exists j, 0 <= j < 2 * d /\ Z.testbit m (i + j) = true.
Proof.
  intros Hd H i Hi. rewrite Z.lor_spec, orb_true_iff, Z.shiftr_spec by done.
  rewrite (H i), (H (i + d)) by lia. split.
  - intros [(j & Hj & E) | (j & Hj & E)]; [exists j | exists (j + d)]; (split; [lia |]); [done |].
    by replace (i + (j + d)) with (i + d + j) by lia.
  - intros (j & Hj & E). destruct (decide (j < d)); [left; exists j | right; exists (j - d)]; (split; [lia |]); [done |].
    by replace (i + d + (j - d)) with (i + j) by lia.
Qed.

Lemma testbit_log2 m i : 0 < m -> Z.testbit m i = true -> 0 <= i -> i <= Z.log2 m.
Proof.
  intros Hm Hb Hi. destruct (Z.le_gt_cases i (Z.log2 m)) as [| Hgt]; [done |].
  by rewrite Z.bits_above_log2 in Hb by lia.
Qed.

(** All bits up to the highest one. *)
Definition smear (m : Z) : Z :=
  let m := Z.lor m (Z.shiftr m 1) in
  let m := Z.lor m (Z.shiftr m 2) in
  let m := Z.lor m (Z.shiftr m 4) in
  let m := Z.lor m (Z.shiftr m 8) in
  let m := Z.lor m (Z.shiftr m 16) in
  Z.lor m (Z.shiftr m 32).

Lemma smear_spec m : 0 < m < 2 ^ 64 -> smear m = Z.ones (Z.log2 m + 1).
Proof.
  intros Hm. assert (0 <= Z.log2 m < 64) as Hlog by (split; [apply Z.log2_nonneg | apply Z.log2_lt_pow2; lia]).
  assert (forall i, 0 <= i -> Z.testbit m i = true <-> exists j, 0 <= j < 1 /\ Z.testbit m (i + j) = true) as S0.
  { intros i Hi. split; [exists 0; by rewrite Z.add_0_r |]. intros (j & Hj & E).
    by replace i with (i + j) by lia. }
  pose proof (smear_step m m 1 ltac:(lia) S0) as S1.
  pose proof (smear_step m _ 2 ltac:(lia) S1) as S2. pose proof (smear_step m _ 4 ltac:(lia) S2) as S4.
  pose proof (smear_step m _ 8 ltac:(lia) S4) as S8. pose proof (smear_step m _ 16 ltac:(lia) S8) as S16.
  pose proof (smear_step m _ 32 ltac:(lia) S16) as S32. clear S0 S1 S2 S4 S8 S16.
  apply Z.bits_inj'. intros i Hi. rewrite Z.testbit_ones_nonneg by lia.
  apply eq_bool_prop_intro. rewrite !Is_true_true. unfold smear. cbv zeta.
  rewrite S32, Z.ltb_lt by done. split.
  - intros (j & Hj & E). apply testbit_log2 in E; lia.
  - intros Hil. exists (Z.log2 m - i). split; [lia |].
    replace (i + (Z.log2 m - i)) with (Z.log2 m) by lia. apply Z.bit_log2. lia.
Qed.

(** The mask is the least of 0, 3, 7, 15, ... that is at least half the capacity. *)
Lemma calc_mask_spec c :
  in_u 64 c -> calc_mask c = (if c <? 2 then 0 else Z.ones (Z.max 2 (Z.log2 (c / 2) + 1))).
Proof.
  intros Hc. unfold in_u in Hc. change (calc_mask c) with
    (Z.lor (smear (c / 2)) (Z.shiftl (Z.land (smear (c / 2)) 1) 1)).
  destruct (Z.ltb_spec c 2) as [H2 | H2].
  { assert (c = 0 \/ c = 1) as [-> | ->] by lia; reflexivity. }
  assert (0 < c / 2 < 2 ^ 64) as Hm.
  { split; [apply Z.div_str_pos; lia |]. apply Z.div_lt_upper_bound; lia. }
  rewrite smear_spec by done. pose proof (Z.log2_nonneg (c / 2)) as Hlog.
  apply Z.bits_inj'. intros i Hi.
  rewrite Z.lor_spec, Z.shiftl_spec, Z.land_spec by lia.
  rewrite (Z.testbit_ones_nonneg _ i), (Z.testbit_ones_nonneg (Z.max _ _) i) by lia.
  destruct (decide (i = 1)) as [-> | Hne].
  - change (1 - 1) with 0. rewrite Z.ones_spec_low by lia. rewrite orb_true_r. symmetry. apply Z.ltb_lt. lia.
  - replace (Z.testbit 1 (i - 1)) with false by (symmetry; by destruct i as [| [p | p |] | p]).
    rewrite andb_false_r, orb_false_r.
    destruct (Z.ltb_spec i (Z.log2 (c / 2) + 1)), (Z.ltb_spec i (Z.max 2 (Z.log2 (c / 2) + 1))); lia || done.
Qed.

(** The assertion of [resize] holds for its callers, and the buckets are enough. *)
Lemma calc_mask_pow2 c :
  in_u 64 c -> exists k, 0 <= k /\ calc_mask c = 2 ^ k - 1 /\ c / 2 <= calc_mask c.
Proof.
  intros Hc. rewrite calc_mask_spec by done. destruct (Z.ltb_spec c 2) as [H | H].
  - exists 0. split; [done |]. split; [done |]. unfold in_u in Hc. assert (c / 2 < 1) by (apply Z.div_lt_upper_bound; lia). lia.
  - exists (Z.max 2 (Z.log2 (c / 2) + 1)). rewrite Z.ones_equiv. split; [lia |]. split; [done |].
    assert (0 < c / 2) as Hp by (apply Z.div_str_pos; lia).
    pose proof (proj2 (Z.log2_spec (c / 2) Hp)).
    assert (2 ^ Z.succ (Z.log2 (c / 2)) <= 2 ^ Z.max 2 (Z.log2 (c / 2) + 1)) by (apply Z.pow_le_mono_r; lia).
    lia.
Qed.

(** ** Resizing *)

Lemma insert_fast_mask x z h : mask (hmap_insert_fast x z h) = mask h.
Proof. unfold hmap_insert_fast. by rsimpl. Qed.

(** Moving a chain from elsewhere in memory into the table. *)
Lemma rehash_chain_spec fuel : forall p l h m,
  holds h m -> chain (nodes h) p l -> NoDup l -> (forall x, x ∈ l -> m !! x = None) ->
  (length l <= fuel)%nat ->
  exists m', holds (rehash_chain fuel p h) m' /\ mask (rehash_chain fuel p h) = mask h /\
    (forall x, x ∈ l -> m' !! x = Some (node_hash h x)) /\ (forall x, x ∉ l -> m' !! x = m !! x) /\
    (forall x, x ∉ l -> nodes (rehash_chain fuel p h) !! x = nodes h !! x).
Proof.
  induction fuel as [| fuel IH]; intros p [| x l] h m Hh Hc Hnd Hm Hf; cbn [length] in Hf; [| lia | |].
  1, 2: cbn in Hc; subst p; cbn; exists m; set_solver.
  destruct Hc as (-> & nd & Hx & Hc). apply NoDup_cons in Hnd as [Hxl Hnd].
  cbn [rehash_chain]. rewrite (lookup_total_correct _ _ _ Hx).
  assert (forall y, y <> x -> nodes (hmap_insert_fast x (hash nd) h) !! y = nodes h !! y) as Hfr.
  { intros y Hy. unfold hmap_insert_fast. cbv zeta. rsimpl. by rewrite lookup_insert_ne. }
  destruct (IH (next nd) l (hmap_insert_fast x (hash nd) h) (<[x := hash nd]> m))
    as (m' & H1 & H2 & H3 & H4 & H5).
  - apply insert_fast_holds; [done |]. apply Hm. set_solver.
  - apply (chain_frame (nodes h)); [done |]. intros y Hy. apply Hfr. by intros ->.
  - done.
  - intros y Hy. rewrite lookup_insert_ne by (by intros ->). apply Hm. set_solver.
  - lia.
  - exists m'. split; [done |]. split; [by rewrite H2, insert_fast_mask |]. split; [| split].
    + intros y [-> | Hy]%elem_of_cons.
      * rewrite H4 by done. by rewrite lookup_insert_eq, (lookup_total_correct _ _ _ Hx).
      * rewrite H3 by done. by rewrite !lookup_total_alt, Hfr by (by intros ->).
    + intros y [Hy1 Hy2]%not_elem_of_cons. rewrite H4 by done. by rewrite lookup_insert_ne.
    + intros y [Hy1 Hy2]%not_elem_of_cons. by rewrite H5, Hfr.
Qed.

Lemma rehash_all_spec fuel bs : forall Ls h m,
  holds h m -> Forall2 (chain (nodes h)) bs Ls -> NoDup (concat Ls) ->
  (forall x, x ∈ concat Ls -> m !! x = None) -> Forall (λ l, length l <= fuel)%nat Ls ->
  let h' := foldl (λ tmp p, rehash_chain fuel p tmp) h bs in
  exists m', holds h' m' /\ mask h' = mask h /\
    (forall x, x ∈ concat Ls -> m' !! x = Some (node_hash h x)) /\
    (forall x, x ∉ concat Ls -> m' !! x = m !! x).
Proof.
  induction bs as [| p bs IH]; intros Ls h m Hh Hc Hnd Hm Hf; cbv zeta.
  - apply Forall2_nil_inv_l in Hc as ->. exists m. set_solver.
  - apply Forall2_cons_inv_l in Hc as (l & Ls' & Hp & Hc & ->). cbn [concat] in *.
    apply NoDup_app in Hnd as (N1 & N2 & N3). apply Forall_cons in Hf as [Hf1 Hf2].
    destruct (rehash_chain_spec fuel p l h m) as (m1 & H1 & H2 & H3 & H4 & H5); [done | done | done | set_solver | done |].
    cbn [foldl]. destruct (IH Ls' (rehash_chain fuel p h) m1) as (m2 & G1 & G2 & G3 & G4).
    + done.
    + apply (chains_frame (nodes h)); [done |]. intros x Hx. apply H5. intros H. by apply (N2 x).
    + done.
    + intros x Hx. rewrite H4; [set_solver |]. intros H. by apply (N2 x).
    + done.
    + exists m2. split; [done |]. split; [by rewrite G2 |]. split.
      * intros x [Hx | Hx]%elem_of_app; [rewrite G4, H3; [done | done | by apply N2] |].
        rewrite G3 by done. rewrite !lookup_total_alt, H5; [done |]. intros H. by apply (N2 x).
      * intros x [Hx1 Hx2]%not_elem_of_app. by rewrite G4, H4.
Qed.

Lemma concat_replicate_nil {A} k : concat (replicate k ([] : list A)) = [].
Proof. by induction k. Qed.

Lemma empty_holds h k :
  0 <= k -> mask h = 2 ^ k - 1 -> buckets h = replicate (Z.to_nat (2 ^ k)) None -> n h = 0 -> holds h ∅.
Proof.
  intros Hk Hm Hb Hn. exists (replicate (Z.to_nat (2 ^ k)) []). split.
  - constructor; rewrite ?concat_replicate_nil; try done.
    + rewrite Hb. by apply Forall2_replicate.
    + constructor.
    + intros i l x [-> _]%lookup_replicate Hx. set_solver.
    + exists k. by rewrite length_replicate.
  - intros x z. rewrite concat_replicate_nil. set_solver.
Qed.

Lemma init_holds mem : holds (hmap_init mem) ∅.
Proof. by apply (empty_holds _ 0). Qed.

Lemma clear_holds h m : holds h m -> holds (hmap_clear h) ∅ /\ mask (hmap_clear h) = mask h.
Proof.
  intros (L & R & Hr). pose proof R as [_ _ _ Hn (k & Hk & Hm & _)]. unfold hmap_clear.
  destruct (Z.ltb_spec 0 (n h)) as [H | H]; (split; [| done]).
  - apply (empty_holds _ k); rsimpl; [done | done | | done]. by rewrite Hm, Z.sub_add.
  - exists L. split; [done |]. intros x z. destruct (concat L); [| cbn [length] in Hn; lia].
    set_solver.
Qed.

Lemma resize_holds h m k :
  holds h m -> 0 <= k -> holds (resize (2 ^ k - 1) h) m /\ mask (resize (2 ^ k - 1) h) = 2 ^ k - 1.
Proof.
  intros (L & R & Hr) Hk. unfold resize. cbv zeta.
  set (t := if 2 ^ k - 1 =? 0 then _ else _).
  assert (holds t ∅ /\ mask t = 2 ^ k - 1 /\ nodes t = nodes h) as (Ht & Hm & Hnt).
  { subst t. destruct (Z.eqb_spec (2 ^ k - 1) 0) as [E | E].
    - rewrite E. split; [apply init_holds | done].
    - rsimpl. split; [| done]. apply (empty_holds _ k); rsimpl; [done | done | | done].
      by rewrite Z.sub_add. }
  destruct (rehash_all_spec (Z.to_nat (n h)) (buckets h) L t ∅) as (m' & H1 & H2 & H3 & H4).
  - done.
  - rewrite Hnt. apply R.
  - apply R.
  - done.
  - apply Forall_lookup. intros i l Hl. rewrite (rep_n h L R), Nat2Z.id. by eapply inner_length.
  - rewrite Hnt in H3. cbv zeta in H1, H2. split; [| by rewrite H2].
    replace m with m'; [done |]. apply map_eq. intros x. destruct (decide (x ∈ concat L)) as [Hx | Hx].
    + rewrite H3 by done. symmetry. by apply Hr.
    + rewrite H4 by done. symmetry. apply eq_None_not_Some. by rewrite <- (holds_in h m L x Hr).
Qed.

Lemma node_count_size h m : holds h m -> n h = Z.of_nat (size m).
Proof.
  intros (L & R & Hr). rewrite (rep_n h L R). f_equal.
  assert (dom m = list_to_set (concat L)) as E.
  { apply set_eq. intros x. rewrite elem_of_dom, elem_of_list_to_set. by rewrite (holds_in h m L x Hr). }
  rewrite <- size_dom, E, size_list_to_set; [done | apply R].
Qed.

Lemma expand_holds h m :
  holds h m -> in_u 64 (n h) -> holds (hmap_expand_at h) m /\ n h / 2 <= mask (hmap_expand_at h).
Proof.
  intros Hh Hn. destruct (calc_mask_pow2 (n h) Hn) as (k & Hk & E & Hc). unfold hmap_expand_at. cbv zeta.
  destruct (Z.ltb_spec (mask h) (calc_mask (n h))); [| split; [done | lia]].
  rewrite E in *. destruct (resize_holds h m k Hh Hk) as [H1 ->]. done.
Qed.

Lemma reserve_holds h m c :
  holds h m -> in_u 64 c -> holds (hmap_reserve_at c h) m /\ mask h <= mask (hmap_reserve_at c h) /\
  c / 2 <= mask (hmap_reserve_at c h).
Proof.
  intros Hh Hn. destruct (calc_mask_pow2 c Hn) as (k & Hk & E & Hc). unfold hmap_reserve_at. cbv zeta.
  destruct (Z.ltb_spec (mask h) (calc_mask c)); [| split; [done | lia]].
  rewrite E in *. destruct (resize_holds h m k Hh Hk) as [H1 ->]. split; [done | lia].
Qed.

Lemma shrink_holds h m :
  holds h m -> in_u 64 (n h) -> n h / 2 <= mask h ->
  holds (hmap_shrink_at h) m /\ n h / 2 <= mask (hmap_shrink_at h).
Proof.
  intros Hh Hn Hl. destruct (calc_mask_pow2 (n h) Hn) as (k & Hk & E & Hc). unfold hmap_shrink_at. cbv zeta.
  destruct (Z.ltb_spec (calc_mask (n h)) (mask h)); [| split; [done | lia]].
  rewrite E in *. destruct (resize_holds h m k Hh Hk) as [H1 ->]. done.
Qed.

Lemma insert_holds h m x z :
  holds h m -> m !! x = None -> in_u 64 (n h + 1) ->
  holds (hmap_insert_at x z h) (<[x := z]> m) /\ n (hmap_insert_at x z h) = n h + 1 /\
  n (hmap_insert_at x z h) / 2 <= mask (hmap_insert_at x z h).
Proof.
  intros Hh Hx Hn. pose proof (insert_fast_holds h m x z Hh Hx) as Hi. unfold hmap_insert_at. cbv zeta.
  assert (n (hmap_insert_fast x z h) = n h + 1) as En by (unfold hmap_insert_fast; cbv zeta; by rsimpl).
  destruct (Z.ltb_spec (mask (hmap_insert_fast x z h)) (n (hmap_insert_fast x z h) / 2)) as [H | H];
    [| split; [done |]; by rewrite En in * ].
  rewrite <- En in Hn. destruct (expand_holds _ _ Hi Hn) as [H1 H2]. split; [done |].
  assert (n (hmap_expand_at (hmap_insert_fast x z h)) = n h + 1) as ->.
  { by rewrite (node_count_size _ _ H1), <- En, (node_count_size _ _ Hi). }
  by rewrite En in H2.
Qed.

End Hmap.
