(* ===== verification/HmapSpec.v ===== *)
(** Iteration over hash tables, and the theorem that they refine finite maps. *)
From stdpp Require Import gmap.
From S2P Require Import Prelude Hmap.

Module HmapSpec.
Import Hmap.

(** ** Iteration *)

Lemma visit_spec fuel nxt l :
  (forall a x b, l = a ++ x :: b -> nxt x = head b) -> (length l <= fuel)%nat ->
  visit fuel nxt (head l) = l.
Proof.
  intros Hn. enough (forall b a, l = a ++ b -> (length b <= fuel)%nat -> visit fuel nxt (head b) = b) as H.
  { intros Hf. by apply (H l []). }
  induction fuel as [| fuel IH]; intros [| x b] a E Hf; cbn [length] in Hf; try done; [lia |].
  cbn. f_equal. rewrite (Hn a x b E). apply (IH b (a ++ [x])); [by rewrite <- app_assoc | lia].
Qed.

Lemma nodup_split {A} (a b c d : list A) x :
  NoDup (a ++ x :: b) -> a ++ x :: b = c ++ x :: d -> a = c /\ b = d.
Proof.
  revert c. induction a as [| y a IH]; intros [| z c]; cbn.
  - by intros _ [= ->].
  - intros [H _]%NoDup_cons [= <- ->]. set_solver.
  - intros [H _]%NoDup_cons [= -> _]. set_solver.
  - intros [H Hnd]%NoDup_cons [= -> E]. destruct (IH c Hnd E) as [-> ->]. done.
Qed.

Lemma first_used_head mem bs L : Forall2 (chain mem) bs L -> first_used bs = head (concat L).
Proof.
  induction 1 as [| p l bs L Hc _ IH]; [done |]. destruct l as [| x l]; cbn in Hc.
  - by subst p.
  - by destruct Hc as [-> _].
Qed.

Lemma next_from h L i : rep h L -> hmap_next__ h i = head (concat (drop i L)).
Proof.
  intros R. unfold hmap_next__. apply (first_used_head (nodes h)).
  apply Forall2_drop, R.
Qed.

Lemma node_next_head h L x l1 l2 :
  rep h L -> L !! slot h (node_hash h x) = Some (l1 ++ x :: l2) -> node_next h x = head l2.
Proof.
  intros R Hl. destruct (Forall2_lookup_r _ _ _ _ _ (rep_chains h L R) Hl) as (p & Hp & Hc).
  destruct (chain_next _ _ _ _ _ Hc) as (nd & Hx & Hc'). rewrite (lookup_total_correct _ _ _ Hx).
  by eapply chain_head.
Qed.

Lemma for_each_concat h L : rep h L -> for_each h = concat L.
Proof.
  intros R. unfold for_each, hmap_first. rewrite (next_from h L 0 R), drop_0.
  apply visit_spec; [| rewrite (rep_n h L R); lia].
  intros a x b E. assert (x ∈ concat L) as Hx by (rewrite E; set_solver).
  destruct (rep_find h L x R Hx) as (l1 & l2 & Hl & _). set (i := slot h (node_hash h x)) in *.
  assert (concat L = (concat (take i L) ++ l1) ++ x :: (l2 ++ concat (drop (S i) L))) as E2.
  { rewrite <- (take_drop_middle L i _ Hl) at 1. rewrite concat_app. cbn. by rewrite <- !app_assoc. }
  destruct (nodup_split (concat (take i L) ++ l1) (l2 ++ concat (drop (S i) L)) a b x) as [_ <-].
  { rewrite <- E2. apply R. }
  { by rewrite <- E2. }
  unfold hmap_next. rewrite (node_next_head h L x l1 l2 R Hl). destruct l2; [| done].
  cbn. by apply next_from.
Qed.

Lemma in_bucket_list h L l z : rep h L -> L !! slot h z = Some l -> for_each_in_bucket h z = l.
Proof.
  intros R Hl. unfold for_each_in_bucket, hmap_first_in_bucket.
  destruct (rep_bucket h L z R) as (l' & Hl' & Hc). simplify_eq. rewrite (chain_head _ _ _ Hc).
  apply visit_spec; [| rewrite (rep_n h L R), Nat2Z.id; by eapply inner_length].
  intros a x b ->. unfold hmap_next_in_bucket. apply (node_next_head h L x a b R).
  rewrite (rep_slot h L R _ _ x Hl ltac:(set_solver)). done.
Qed.

Lemma next_with_hash_spec h z fuel : forall l p,
  chain (nodes h) p l -> (length l <= fuel)%nat ->
  hmap_next_with_hash__ fuel h p z = head (filter (λ x, node_hash h x = z) l).
Proof.
  induction fuel as [| fuel IH]; intros [| x l] p Hc Hf; cbn [length] in Hf; try lia.
  1, 2: cbn in Hc; by subst p.
  destruct Hc as (-> & nd & Hx & Hc). cbn [hmap_next_with_hash__].
  destruct (Z.eqb_spec (node_hash h x) z) as [E | E].
  - by rewrite filter_cons_True.
  - rewrite filter_cons_False, (lookup_total_correct _ _ _ Hx) by done. apply IH; [done | lia].
Qed.

Lemma with_hash_list h L l z :
  rep h L -> L !! slot h z = Some l ->
  for_each_with_hash h z = filter (λ x, node_hash h x = z) l.
Proof.
  intros R Hl. assert (length l <= Z.to_nat (n h))%nat as Hlen.
  { rewrite (rep_n h L R), Nat2Z.id. by eapply inner_length. }
  unfold for_each_with_hash, hmap_first_with_hash.
  destruct (rep_bucket h L z R) as (l' & Hl' & Hc). simplify_eq.
  rewrite (next_with_hash_spec h z _ l) by done.
  apply visit_spec.
  2: { pose proof (length_filter (λ x, node_hash h x = z) l). lia. }
  intros a x b E. assert (x ∈ filter (λ x, node_hash h x = z) l) as Hx by (rewrite E; set_solver).
  apply list_elem_of_filter in Hx as [Hz Hx]. destruct (list_elem_of_split l x Hx) as (l1 & l2 & ->).
  rewrite filter_app, filter_cons_True in E by done.
  destruct (nodup_split _ _ _ _ x ltac:(rewrite <- filter_cons_True with (P := λ x, node_hash h x = z), <- filter_app by done; apply NoDup_filter; eapply nodup_concat_lookup; [apply R | done]) E) as [_ <-].
  unfold hmap_next_with_hash. rewrite Hz. apply next_with_hash_spec.
  - destruct (chain_next _ _ _ _ _ Hc) as (nd & Hn & Hc'). by rewrite (lookup_total_correct _ _ _ Hn).
  - rewrite length_app in Hlen. cbn [length] in Hlen. lia.
Qed.

(** ** What the iterators visit *)

Section visits.
Context (h : hmap) (m : gmap nat Z) (Hh : holds h m).

Lemma for_each_nodes : NoDup (for_each h) /\ forall x, x ∈ for_each h <-> is_Some (m !! x).
Proof.
  destruct Hh as (L & R & Hr). rewrite (for_each_concat h L R). split; [apply R |].
  intros x. by apply (holds_in h).
Qed.

Lemma with_hash_nodes z :
  NoDup (for_each_with_hash h z) /\ forall x, x ∈ for_each_with_hash h z <-> m !! x = Some z.
Proof.
  destruct Hh as (L & R & Hr). destruct (rep_bucket h L z R) as (l & Hl & _).
  rewrite (with_hash_list h L l z R Hl). split.
  - apply NoDup_filter. eapply nodup_concat_lookup; [apply R | done].
  - intros x. rewrite list_elem_of_filter, (Hr x z). split; intros [H1 H2].
    + split; [| done]. apply elem_of_concat. by exists (slot h z), l.
    + split; [done |]. apply elem_of_concat in H1 as (i & l' & Hi & Hx). pose proof (rep_slot h L R i l' x Hi Hx) as E.
      rewrite H2 in E. subst i. by simplify_eq.
Qed.

Lemma in_bucket_nodes z :
  NoDup (for_each_in_bucket h z) /\
  forall x, x ∈ for_each_in_bucket h z <-> exists w, m !! x = Some w /\ slot h w = slot h z.
Proof.
  destruct Hh as (L & R & Hr). destruct (rep_bucket h L z R) as (l & Hl & _).
  rewrite (in_bucket_list h L l z R Hl). split.
  - eapply nodup_concat_lookup; [apply R | done].
  - intros x. split.
    + intros Hx. exists (node_hash h x). rewrite (Hr x _).
      split; [split; [apply elem_of_concat; by exists (slot h z), l | done] | by apply (rep_slot h L R _ l)].
    + intros (w & [Hx E]%(Hr x w) & Es). apply elem_of_concat in Hx as (i & l' & Hi & Hx).
      pose proof (rep_slot h L R i l' x Hi Hx) as E2. rewrite E in E2. rewrite E2 in Es. subst i. by simplify_eq.
Qed.

Lemma contains_spec x : hmap_contains h x = true <-> is_Some (m !! x).
Proof.
  unfold hmap_contains. rewrite bool_decide_eq_true. destruct (in_bucket_nodes (node_hash h x)) as [_ ->].
  split; [intros (w & Hw & _); by exists w |]. intros [w Hw]. exists w. split; [done |].
  pose proof Hh as (L & R & Hr). by destruct (proj1 (Hr x w) Hw) as [_ <-].
Qed.

(** Any node can be chosen at random, and only nodes of the table are. *)
Lemma random_node_any x :
  is_Some (m !! x) -> mask h < 2 ^ 32 -> n h <= 2 ^ 32 ->
  exists d i, in_u 32 d /\ in_u 32 (Z.of_nat i) /\ hmap_random_node h [d] i = Some x.
Proof.
  intros [z Hx] Hm Hn. pose proof Hh as (L & R & Hr). pose proof (rep_mask h L R) as (k & Hk & Em & _).
  set (d := Z.land z (mask h)).
  assert (0 <= d <= mask h) as Hd.
  { subst d. rewrite Em. change (2 ^ k - 1) with (Z.pred (2 ^ k)). rewrite <- Z.ones_equiv, Z.land_ones by done.
    pose proof (Z.mod_pos_bound z (2 ^ k) ltac:(by apply Z.pow_pos_nonneg)). rewrite Z.ones_equiv. lia. }
  assert (slot h d = slot h z) as Es.
  { unfold slot. subst d. by rewrite <- Z.land_assoc, Z.land_diag. }
  assert (x ∈ for_each_in_bucket h d) as Hin.
  { apply (proj2 (in_bucket_nodes d)). exists z. by rewrite Es. }
  apply list_elem_of_lookup in Hin as [i Hi]. pose proof (lookup_lt_Some _ _ _ Hi) as Hlt.
  exists d, i. destruct (rep_bucket h L d R) as (l & Hl & _).
  rewrite (in_bucket_list h L l d R Hl) in *. pose proof (inner_length L _ _ Hl) as Hle.
  pose proof (rep_n h L R). unfold in_u. split; [lia |]. split; [lia |].
  cbn [hmap_random_node]. rewrite (in_bucket_list h L l d R Hl). destruct l as [| y l]; [done |].
  by rewrite Nat.mod_small.
Qed.

Lemma random_node_member draws i x : hmap_random_node h draws i = Some x -> is_Some (m !! x).
Proof.
  induction draws as [| d draws IH]; [done |]. cbn [hmap_random_node].
  destruct (for_each_in_bucket h d) as [| y l] eqn:E; [done |]. intros Hx. apply list_elem_of_lookup_2 in Hx. rewrite <- E in Hx.
  apply (proj2 (in_bucket_nodes d)) in Hx as (w & Hw & _). by exists w.
Qed.
End visits.

(** ** Positions *)

(** The nodes that are left from a position on. *)
Definition remaining (L : list (list nat)) (pos : nat * nat) : list nat :=
  drop pos.2 (L !!! pos.1) ++ concat (drop (S pos.1) L).

Lemma remaining_next L b : remaining L (b, 0%nat) = concat (drop b L).
Proof.
  unfold remaining. cbn [fst snd]. rewrite drop_0. destruct (L !! b) as [l |] eqn:E.
  - rewrite (list_lookup_total_correct _ _ _ E). by rewrite (drop_S L l b E).
  - rewrite list_lookup_total_alt, E. apply lookup_ge_None in E. cbn. by rewrite !drop_ge by lia.
Qed.

Lemma remaining_past L b o : (length L <= b)%nat -> remaining L (b, o) = [].
Proof.
  intros Hb. unfold remaining. cbn [fst snd]. rewrite list_lookup_total_alt, lookup_ge_None_2, (drop_ge L) by lia.
  cbn. by rewrite drop_nil.
Qed.

Lemma position_loop_spec h L : rep h L -> forall bs b o,
  drop b (buckets h) = bs -> (b <= length L)%nat ->
  (position_loop h bs o).1 = head (remaining L (b, o)) /\
  remaining L (position_loop h bs o).2
  = (if remaining L (b, o) is [] then concat L else tail (remaining L (b, o))).
Proof.
  intros R. induction bs as [| p bs IH]; intros b o E Hb.
  - assert (length (buckets h) <= b)%nat as Hle.
    { assert (length (drop b (buckets h)) = 0)%nat as E0 by (by rewrite E). rewrite length_drop in E0. lia. }
    assert (remaining L (b, o) = []) as ->.
    { apply remaining_past. by rewrite <- (rep_links h L R). }
    split; [done |]. cbn [position_loop snd]. by rewrite remaining_next, drop_0.
  - assert (buckets h !! b = Some p) as Hp by (rewrite <- (Nat.add_0_r b), <- lookup_drop, E; done).
    assert (drop (S b) (buckets h) = bs) as E'.
    { rewrite (drop_S _ _ _ Hp) in E. by injection E. }
    destruct (Forall2_lookup_l _ _ _ _ _ (rep_chains h L R) Hp) as (l & Hl & Hc).
    pose proof (lookup_lt_Some _ _ _ Hl) as Hbl.
    assert (visit (Z.to_nat (n h)) (hmap_next_in_bucket h) p = l) as Hv.
    { rewrite (chain_head _ _ _ Hc). apply visit_spec; [| rewrite (rep_n h L R), Nat2Z.id; by eapply inner_length].
      intros a x c ->. apply (node_next_head h L x a c R).
      by rewrite (rep_slot h L R _ _ x Hl ltac:(set_solver)). }
    cbn [position_loop]. rewrite Hv. assert (remaining L (b, o) = drop o l ++ concat (drop (S b) L)) as Er.
    { unfold remaining. cbn [fst snd]. by rewrite (list_lookup_total_correct _ _ _ Hl). }
    destruct (l !! o) as [x |] eqn:Eo.
    + rewrite Er, (drop_S l x o Eo). cbn. split; [done |].
      assert (l = take o l ++ x :: drop (S o) l) as El by (by rewrite take_drop_middle).
      assert (slot h (node_hash h x) = b) as Eb by (apply (rep_slot h L R b l); [done | rewrite El; set_solver]).
      rewrite (node_next_head h L x (take o l) (drop (S o) l) R) by (by rewrite Eb, <- El).
      destruct (drop (S o) l) eqn:Ed; cbn [head]; rewrite Eb.
      * by rewrite remaining_next.
      * unfold remaining. cbn [fst snd]. by rewrite (list_lookup_total_correct _ _ _ Hl), Ed.
    + apply lookup_ge_None in Eo. rewrite Er, drop_ge by done. cbn [app].
      destruct (IH (S b) 0%nat E' ltac:(lia)) as [H1 H2]. rewrite remaining_next in H1, H2. done.
Qed.

(** The nodes visited by repeated calls of [hmap_at_position]. *)
Fixpoint visit_positions (fuel : nat) (h : hmap) (pos : nat * nat) : list nat :=
  match fuel, hmap_at_position h pos with
  | S fuel, (Some x, pos) => x :: visit_positions fuel h pos
  | _, _ => []
  end.

Lemma at_position_spec h L pos :
  rep h L -> (hmap_at_position h pos).1 = head (remaining L pos) /\
  remaining L (hmap_at_position h pos).2
  = (if remaining L pos is [] then concat L else tail (remaining L pos)).
Proof.
  intros R. destruct pos as [b o]. unfold hmap_at_position. cbn [fst snd].
  destruct (decide (b <= length L)%nat) as [Hb | Hb]; [by apply position_loop_spec |].
  rewrite drop_ge by (rewrite (rep_links h L R); lia).
  rewrite (remaining_past L b o) by lia.
  split; [done |]. cbn [position_loop snd]. by rewrite remaining_next, drop_0.
Qed.

Lemma visit_positions_spec h L fuel : rep h L -> forall pos,
  (length (remaining L pos) <= fuel)%nat -> visit_positions fuel h pos = remaining L pos.
Proof.
  intros R. induction fuel as [| fuel IH]; intros pos Hf; destruct (at_position_spec h L pos R) as [H1 H2];
    cbn [visit_positions]; destruct (hmap_at_position h pos) as [p pos']; cbn [fst snd] in H1, H2.
  - destruct (remaining L pos); [done | cbn in Hf; lia].
  - destruct (remaining L pos) as [| x l]; cbn in H1, H2; subst p; [done |].
    f_equal. rewrite IH; [done |]. rewrite H2. cbn [length] in Hf. lia.
Qed.

(** Positions enumerate the table in the order of the other iterators. *)
Lemma positions_for_each h m : holds h m -> visit_positions (S (Z.to_nat (n h))) h (0%nat, 0%nat) = for_each h.
Proof.
  intros (L & R & _). rewrite (for_each_concat h L R).
  rewrite (visit_positions_spec h L); rewrite ?remaining_next, ?drop_0; [done | done |].
  rewrite (rep_n h L R). lia.
Qed.

(** ** Popping *)

Lemma bucket_empty h m b :
  holds h m -> (b < length (buckets h))%nat ->
  buckets h !!! b = None <-> forall x z, m !! x = Some z -> slot h z <> b.
Proof.
  intros (L & R & Hr) Hb. rewrite (rep_links h L R) in Hb. destruct (lookup_lt_is_Some_2 L b Hb) as [l Hl].
  destruct (Forall2_lookup_r _ _ _ _ _ (rep_chains h L R) Hl) as (p & Hp & Hc).
  rewrite (list_lookup_total_correct _ _ _ Hp), (chain_head _ _ _ Hc). split.
  - intros El x z [Hx Ez]%(Hr x z) Es. subst z. destruct l; [| done].
    apply elem_of_concat in Hx as (i & l' & Hi & Hx). rewrite (rep_slot h L R i l' x Hi Hx) in Es.
    subst i. simplify_eq. set_solver.
  - intros H. destruct l as [| x l]; [done |].
    assert (x ∈ concat L) as Hx by (apply elem_of_concat; exists b, (x :: l); set_solver).
    destruct (H x (node_hash h x)); [by apply Hr |]. apply (rep_slot h L R b (x :: l)); [done | set_solver].
Qed.

Lemma holds_buckets h m : holds h m -> Z.of_nat (length (buckets h)) = mask h + 1.
Proof.
  intros (L & R & _). rewrite (rep_links h L R). destruct (rep_mask h L R) as (k & Hk & -> & ->).
  pose proof (Z.pow_pos_nonneg 2 k ltac:(lia) Hk). lia.
Qed.

(** All nodes are in buckets from [b] on. *)
Definition from_bucket (h : hmap) (m : gmap nat Z) (b : nat) : Prop :=
  forall x z, m !! x = Some z -> (b <= slot h z)%nat.

Lemma pop_loop_spec h m fuel : forall b,
  holds h m -> from_bucket h m b -> (length (buckets h) - b <= fuel)%nat ->
  match pop_loop fuel b h with
  | Some (x, b', h') =>
      is_Some (m !! x) /\ holds h' (delete x m) /\ from_bucket h' (delete x m) b' /\ mask h' = mask h
  | None => m = ∅
  end.
Proof.
  intros b Hh. revert b. induction fuel as [| fuel IH]; intros b Hb Hf.
  - cbn. apply map_empty. intros x. destruct (m !! x) as [z |] eqn:E; [| done].
    pose proof Hh as (L & R & _). pose proof (slot_lt h L z R). rewrite <- (rep_links h L R) in *.
    specialize (Hb x z E). lia.
  - cbn [pop_loop]. destruct (buckets h !!! b) as [x |] eqn:Eb.
    + assert (is_Some (m !! x)) as Hx.
      { pose proof Hh as (L & R & Hr). apply (holds_in h m L x Hr).
        destruct (buckets h !! b) as [p |] eqn:Ep; [| by rewrite list_lookup_total_alt, Ep in Eb].
        rewrite (list_lookup_total_correct _ _ _ Ep) in Eb. subst p.
        destruct (Forall2_lookup_l _ _ _ _ _ (rep_chains h L R) Ep) as (l & Hl & Hc).
        destruct l as [| y l]; [done |]. destruct Hc as [[= ->] _]. apply elem_of_concat. exists b, (y :: l). set_solver. }
      destruct (remove_holds h m x Hh Hx) as (h' & -> & H2 & H3). cbn. split; [done |]. split; [done |].
      split; [| done]. intros y z Hy. rewrite lookup_delete_Some in Hy. unfold slot. rewrite H3.
      by apply (Hb y), Hy.
    + apply IH; [| lia]. intros x z Hx. pose proof (Hb x z Hx). enough (slot h z <> b) by lia.
      destruct (decide (b < length (buckets h))%nat) as [Hl | Hl]; [by apply (bucket_empty h m b Hh Hl) with x |].
      pose proof Hh as (L & R & _). pose proof (slot_lt h L z R). rewrite <- (rep_links h L R) in *. lia.
Qed.

(** [HMAP_FOR_EACH_POP] takes out every node once and leaves an empty table. *)
Lemma pop_all_spec fuel : forall b h m,
  holds h m -> from_bucket h m b -> (size m <= fuel)%nat ->
  NoDup (pop_all fuel b h).1 /\ (forall x, x ∈ (pop_all fuel b h).1 <-> is_Some (m !! x)) /\
  holds (pop_all fuel b h).2 ∅.
Proof.
  induction fuel as [| fuel IH]; intros b h m Hh Hb Hf.
  - assert (m = ∅) as -> by (apply map_size_empty_inv; lia). cbn.
    split; [constructor |]. split; [| done]. intros x. rewrite lookup_empty. split; [set_solver | by intros []].
  - cbn [pop_all]. unfold hmap_pop_helper__.
    pose proof (pop_loop_spec h m (Z.to_nat (mask h + 1) - b) b Hh Hb) as HP.
    pose proof (holds_buckets h m Hh) as Hlen. specialize (HP ltac:(lia)).
    destruct (pop_loop _ b h) as [[[x b'] h'] |].
    + destruct HP as (Hx & Hh' & Hb' & _).
      destruct (IH b' h' (delete x m) Hh' Hb') as (N & E & HE).
      { rewrite map_size_delete_Some by done. lia. }
      destruct (pop_all fuel b' h') as [l h'']. cbn [fst snd] in *. split; [| split; [| done]].
      * constructor; [| done]. rewrite E, lookup_delete_eq. by intros [].
      * intros y. rewrite elem_of_cons, E. destruct (decide (y = x)) as [-> | Hne]; [tauto |].
        rewrite lookup_delete_ne by done. tauto.
    + subst m. cbn. split; [constructor |]. split; [| done].
      intros x. rewrite lookup_empty. split; [set_solver | by intros []].
Qed.

(** ** Refinement *)

Inductive op :=
  | OInsert (x : nat) (z : Z) | ORemove (x : nat) | OReplace (x y : nat) | OMoved (x y : nat)
  | OShrink | OReserve (c : Z) | OClear | OPop.

Definition exec (o : op) (h : hmap) : option (option nat * hmap) :=
  match o with
  | OInsert x z => Some (None, hmap_insert_at x z h)
  | ORemove x => h ← hmap_remove x h; Some (None, h)
  | OReplace x y => h ← hmap_replace x y h; Some (None, h)
  | OMoved x y => h ← hmap_node_moved x y (h <| nodes ::= <[y := nodes h !!! x]> |>); Some (None, h)
  | OShrink => Some (None, hmap_shrink_at h)
  | OReserve c => Some (None, hmap_reserve_at c h)
  | OClear => Some (None, hmap_clear h)
  | OPop => match hmap_pop_helper__ 0 h with Some (x, _, h) => Some (Some x, h) | None => Some (None, h) end
  end.

(** What the callers must ensure. *)
Definition allowed (m : gmap nat Z) (o : op) : Prop :=
  match o with
  | OInsert x _ => m !! x = None /\ in_u 64 (Z.of_nat (size m) + 1)
  | ORemove x => is_Some (m !! x)
  | OReplace x y | OMoved x y => is_Some (m !! x) /\ m !! y = None
  | OReserve c => in_u 64 c
  | OShrink | OClear | OPop => True
  end.

(** What each operation does to a map of nodes to their hashes, with the node it returns. *)
Inductive map_step : op -> gmap nat Z -> option nat -> gmap nat Z -> Prop :=
  | step_insert x z m : map_step (OInsert x z) m None (<[x := z]> m)
  | step_remove x m : map_step (ORemove x) m None (delete x m)
  | step_replace x y z m : m !! x = Some z -> map_step (OReplace x y) m None (<[y := z]> (delete x m))
  | step_moved x y z m : m !! x = Some z -> map_step (OMoved x y) m None (<[y := z]> (delete x m))
  | step_shrink m : map_step OShrink m None m
  | step_reserve c m : map_step (OReserve c) m None m
  | step_clear m : map_step OClear m None ∅
  | step_pop x m : is_Some (m !! x) -> map_step OPop m (Some x) (delete x m)
  | step_pop_empty : map_step OPop ∅ None ∅.

(** The table keeps at most two nodes per bucket on average. *)
Definition loaded (h : hmap) : Prop := n h / 2 <= mask h.

Lemma removed_loaded h h' m m' :
  holds h m -> holds h' m' -> (size m' <= size m)%nat -> mask h' = mask h -> loaded h -> loaded h'.
Proof.
  intros Hh Hh' Hs Hm. unfold loaded. rewrite (node_count_size h m Hh), (node_count_size h' m' Hh'), Hm.
  intros H. etransitivity; [| done]. apply Z.div_le_mono; lia.
Qed.

Lemma replaced_size (m : gmap nat Z) x y z :
  m !! x = Some z -> m !! y = None -> size (<[y := z]> (delete x m)) = size m.
Proof.
  intros Hx Hy. rewrite map_size_insert_None by (rewrite lookup_delete; by case_decide).
  rewrite map_size_delete_Some by done. destruct (decide (size m = 0%nat)) as [E | E]; [| lia].
  apply map_size_empty_inv in E. by subst m.
Qed.

(** The invariant of tables that grow only by [hmap_insert]. *)
Definition good (h : hmap) (m : gmap nat Z) : Prop := holds h m /\ loaded h /\ in_u 64 (n h).

Lemma smaller_good h h' m m' :
  good h m -> holds h' m' -> (size m' <= size m)%nat -> mask h' = mask h -> good h' m'.
Proof.
  intros (Hh & Hl & Hu) Hh' Hs Hm. split; [done |]. split; [by apply (removed_loaded h h' m m') |].
  unfold in_u in *. rewrite (node_count_size h m Hh) in Hu. rewrite (node_count_size h' m' Hh'). lia.
Qed.

Lemma size_delete_le (m : gmap nat Z) x : (size (delete x m) <= size m)%nat.
Proof. rewrite map_size_delete. destruct (m !! x); cbn; lia. Qed.

Lemma regrown_good h h' m : holds h m -> in_u 64 (n h) -> holds h' m -> n h / 2 <= mask h' -> good h' m.
Proof.
  intros Hh Hn Hh' Hl. assert (n h' = n h) as E by (by rewrite (node_count_size _ _ Hh), (node_count_size _ _ Hh')).
  split; [done |]. unfold loaded. rewrite E. done.
Qed.

Lemma hmap_exec_simulates h m o :
  good h m -> allowed m o ->
  exists out h' m', exec o h = Some (out, h') /\ map_step o m out m' /\ good h' m'.
Proof.
  intros G Ha. pose proof G as (Hh & Hl & Hu). destruct o as [x z | x | x y | x y | | c | |]; cbn in Ha |- *.
  - destruct Ha as [Hx Hn]. rewrite <- (node_count_size h m Hh) in Hn.
    destruct (insert_holds h m x z Hh Hx Hn) as (H1 & H2 & H3).
    eexists _, _, _. split; [done |]. split; [constructor |]. split; [done |]. split; [done | by rewrite H2].
  - destruct (remove_holds h m x Hh Ha) as (h' & -> & H2 & H3). eexists _, _, _. split; [done |].
    split; [constructor |]. apply (smaller_good h h' m); [done | done | apply size_delete_le | done].
  - destruct Ha as [[z Hx] Hy]. destruct (replace_holds h m x y z Hh Hx Hy) as (h' & -> & H2 & H3).
    eexists _, _, _. split; [done |]. split; [by constructor |].
    apply (smaller_good h h' m); [done | done | by rewrite replaced_size | done].
  - destruct Ha as [[z Hx] Hy]. destruct (node_moved_holds h m x y z Hh Hx Hy) as (h' & -> & H2 & H3).
    eexists _, _, _. split; [done |]. split; [by constructor |].
    apply (smaller_good h h' m); [done | done | by rewrite replaced_size | done].
  - destruct (shrink_holds h m Hh Hu Hl) as [H1 H2]. eexists _, _, _. split; [done |].
    split; [constructor |]. by apply (regrown_good h).
  - destruct (reserve_holds h m c Hh Ha) as (H1 & H2 & _). eexists _, _, _. split; [done |].
    split; [constructor |]. apply (regrown_good h); [done | done | done |]. unfold loaded in Hl. lia.
  - destruct (clear_holds h m Hh) as [H1 H2]. eexists _, _, _. split; [done |]. split; [constructor |].
    apply (smaller_good h _ m); [done | done | rewrite map_size_empty; lia | done].
  - unfold hmap_pop_helper__. pose proof (holds_buckets h m Hh) as Hlen.
    pose proof (pop_loop_spec h m (Z.to_nat (mask h + 1) - 0) 0 Hh ltac:(intros ? ? ?; lia) ltac:(lia)) as HP.
    destruct (pop_loop _ 0 h) as [[[x b'] h'] |].
    + destruct HP as (Hx & H1 & _ & H2). eexists _, _, _. split; [done |]. split; [by constructor |].
      apply (smaller_good h h' m); [done | done | apply size_delete_le | done].
    + subst m. eexists _, _, _. split; [done |]. split; [constructor | done].
Qed.

Lemma map_step_det o m out m1 m2 : map_step o m out m1 -> map_step o m out m2 -> m1 = m2.
Proof. intros H1 H2. destruct H1; inversion H2; by simplify_eq. Qed.

(** Tables that the operations produce from an empty one, with the map they stand for. *)
Inductive reachable (mem : gmap nat hmap_node) : hmap -> gmap nat Z -> Prop :=
  | reach_init : reachable mem (hmap_init mem) ∅
  | reach_step h m o out h' m' :
      reachable mem h m -> allowed m o -> exec o h = Some (out, h') -> map_step o m out m' ->
      reachable mem h' m'.

Lemma hmap_reachable_good mem h m : reachable mem h m -> good h m.
Proof.
  induction 1 as [| h m o out h' m' _ IH Ha He Hs].
  - split; [apply init_holds |]. done.
  - destruct (hmap_exec_simulates h m o IH Ha) as (out2 & h2 & m2 & He2 & Hs2 & G). rewrite He in He2. simplify_eq.
    by rewrite (map_step_det _ _ _ _ _ Hs Hs2).
Qed.


(** ** Examples *)

Definition sample_table : hmap := hmap_insert_at 2 9 (hmap_insert_at 1 5 (hmap_init ∅)).
Definition sample_map : gmap nat Z := <[2%nat := 9]> (<[1%nat := 5]> ∅).

Lemma sample_table_reachable : reachable ∅ sample_table sample_map.
Proof.
  apply (reach_step _ (hmap_insert_at 1 5 (hmap_init ∅)) (<[1%nat := 5]> ∅) (OInsert 2 9) None).
  - apply (reach_step _ (hmap_init ∅) ∅ (OInsert 1 5) None); [constructor | | done | constructor].
    split; [done |]. by vm_compute.
  - split; [done |]. by vm_compute.
  - done.
  - constructor.
Defined.


End HmapSpec.
