(* ===== verification/Containers.v ===== *)
(** Interfaces of the containers that other components use: what a hash table and a priority
    queue of nodes promise to their clients.  The nodes are embedded in the clients' records and
    have the numbers of these.  lib/hmap.c and lib/heap.c implement them. *)
From stdpp Require Import gmap.
From S2P Require Import Prelude Heap Hmap HmapSpec.

(** ** Hash tables *)

Class HashTable (T : Type) := {
  hmap_init : T;
  hmap_insert : nat -> Z -> T -> T;
  hmap_remove : nat -> T -> option T;
  hmap_shrink : T -> T;
  hmap_count : T -> Z;
  for_each : T -> list nat;
  for_each_with_hash : Z -> T -> list nat;
  for_each_in_bucket : Z -> T -> list nat;
  (** The table holds these nodes with these hashes. *)
  hmap_holds : T -> gmap nat Z -> Prop;
}.

Class HashTableOk (T : Type) `{HashTable T} : Prop := {
  hmap_init_holds : hmap_holds hmap_init ∅;
  hmap_insert_holds t m x z :
    hmap_holds t m -> m !! x = None -> in_u 64 (Z.of_nat (size m) + 1) ->
    hmap_holds (hmap_insert x z t) (<[x := z]> m);
  hmap_remove_holds t m x :
    hmap_holds t m -> is_Some (m !! x) ->
    exists t', hmap_remove x t = Some t' /\ hmap_holds t' (delete x m);
  hmap_shrink_holds t m : hmap_holds t m -> hmap_holds (hmap_shrink t) m;
  hmap_count_size t m : hmap_holds t m -> hmap_count t = Z.of_nat (size m);
  for_each_elem t m :
    hmap_holds t m -> NoDup (for_each t) /\ forall x, x ∈ for_each t <-> is_Some (m !! x);
  with_hash_elem t m z x : hmap_holds t m -> x ∈ for_each_with_hash z t <-> m !! x = Some z;
  in_bucket_elem t m z x : hmap_holds t m -> m !! x = Some z -> x ∈ for_each_in_bucket z t;
  in_bucket_member t m z x : hmap_holds t m -> x ∈ for_each_in_bucket z t -> is_Some (m !! x);
}.

(** ** Priority queues *)

Class PriorityQueue (Q : Type) := {
  heap_init : Q;
  (** Zeroed memory for the node of a new record. *)
  heap_alloc : nat -> Q -> Q;
  heap_insert : nat -> Z -> Q -> Q;
  heap_remove : nat -> Q -> Q;
  heap_change : nat -> Z -> Q -> Q;
  heap_max : Q -> nat;
  heap_is_empty : Q -> bool;
  (** The [priority] member of a node. *)
  heap_priority : nat -> Q -> Z;
  (** The queue holds these nodes with these priorities. *)
  heap_holds : Q -> gmap nat Z -> Prop;
}.

Class PriorityQueueOk (Q : Type) `{PriorityQueue Q} : Prop := {
  heap_init_holds : heap_holds heap_init ∅;
  heap_insert_holds q m x p :
    heap_holds q m -> m !! x = None -> heap_holds (heap_insert x p (heap_alloc x q)) (<[x := p]> m);
  heap_remove_holds q m x : heap_holds q m -> is_Some (m !! x) -> heap_holds (heap_remove x q) (delete x m);
  heap_change_holds q m x p :
    heap_holds q m -> is_Some (m !! x) -> heap_holds (heap_change x p q) (<[x := p]> m);
  heap_is_empty_spec q m : heap_holds q m -> heap_is_empty q = bool_decide (m = ∅);
  heap_max_spec q m :
    heap_holds q m -> m <> ∅ ->
    exists p, m !! heap_max q = Some p /\ forall y r, m !! y = Some r -> r <= p;
  heap_priority_spec q m x p : heap_holds q m -> m !! x = Some p -> heap_priority x q = p;
}.

(** ** The implementations *)

#[export] Instance hmap_table : HashTable Hmap.hmap := {
  hmap_init := Hmap.hmap_init ∅;
  hmap_insert := Hmap.hmap_insert_at;
  hmap_remove := Hmap.hmap_remove;
  hmap_shrink := Hmap.hmap_shrink_at;
  hmap_count := Hmap.hmap_count;
  for_each := Hmap.for_each;
  for_each_with_hash z h := Hmap.for_each_with_hash h z;
  for_each_in_bucket z h := Hmap.for_each_in_bucket h z;
  hmap_holds := HmapSpec.good;
}.

#[export] Instance hmap_table_ok : HashTableOk Hmap.hmap.
Proof.
  split; cbn.
  - split; [apply Hmap.init_holds | done].
  - intros h m x z (Hh & Hl & Hu) Hx Hs. rewrite <- (Hmap.node_count_size h m Hh) in Hs.
    destruct (Hmap.insert_holds h m x z Hh Hx Hs) as (H1 & H2 & H3). split; [done |]. split; [done |]. by rewrite H2.
  - intros h m x G Hx. destruct (Hmap.remove_holds h m x (proj1 G) Hx) as (h' & E & H1 & H2). exists h'.
    split; [done |]. apply (HmapSpec.smaller_good h h' m); [done | done | apply HmapSpec.size_delete_le | done].
  - intros h m (Hh & Hl & Hu). destruct (Hmap.shrink_holds h m Hh Hu Hl). by apply (HmapSpec.regrown_good h).
  - intros h m (Hh & _). by apply Hmap.node_count_size.
  - intros h m (Hh & _). by apply HmapSpec.for_each_nodes.
  - intros h m z x (Hh & _). by apply HmapSpec.with_hash_nodes.
  - intros h m z x (Hh & _) Hx. apply (HmapSpec.in_bucket_nodes h m Hh z). by exists z.
  - intros h m z x (Hh & _) Hx. apply (HmapSpec.in_bucket_nodes h m Hh z) in Hx as (w & Hw & _). by exists w.
Qed.

#[local] Existing Instance Heap.heap_node_inhabited.

#[export] Instance heap_queue : PriorityQueue Heap.heap := {
  heap_init := Heap.heap_init ∅;
  heap_alloc := Heap.heap_alloc;
  heap_insert := Heap.heap_insert;
  heap_remove := Heap.heap_remove;
  heap_change := Heap.heap_change;
  heap_max := Heap.heap_max;
  heap_is_empty := Heap.heap_is_empty;
  heap_priority x h := Heap.priority (Heap.nodes h !!! x);
  heap_holds := Heap.refines;
}.

#[export] Instance heap_queue_ok : PriorityQueueOk Heap.heap.
Proof.
  split; cbn.
  - apply (Heap.reachable_refines ∅). constructor.
  - intros h q x p Hr Hx. apply Heap.heap_insert_refines; [by apply Heap.heap_alloc_refines | done |].
    by apply Heap.heap_alloc_dom.
  - intros h q x Hr [p Hx]. by apply (Heap.heap_remove_refines h q x p).
  - intros h q x p Hr [p' Hx]. by apply (Heap.heap_change_refines h q x p p').
  - intros h q (Hw & _ & Hq). unfold Heap.heap_is_empty. rewrite (Heap.count_size h q Hw Hq).
    apply eq_bool_prop_intro. rewrite !Is_true_true, bool_decide_eq_true, Nat.eqb_eq. apply map_size_empty_iff.
  - intros h q Hr Hne. apply Heap.heap_max_refines; [done |]. destruct Hr as (Hw & _ & Hq).
    rewrite (Heap.count_size h q Hw Hq). apply Nat.neq_0_lt_0. by intros ?%map_size_empty_inv.
  - intros h q x p (_ & _ & Hq) Hx. destruct (Heap.member_cell h q x p Hq Hx) as [_ [_ C]].
    by rewrite (lookup_total_correct _ _ _ C).
Qed.
