(* ===== verification/Shash.v ===== *)
(** Hash tables from names to data (lib/shash.c), over any hash table of nodes. *)
From stdpp Require Import gmap sorting.
From S2P Require Import Prelude Text Hmap Containers.

Module Shash.

(** ** The tables *)

(** Nodes are numbered in the order of their allocation; a node that is not in [map] is free. *)
Record shash {T A : Type} := mk_shash { map : T; nodes : list (chars * A) }.
Arguments shash : clear implicits.
Arguments mk_shash {T A}.

#[export] Instance shash_eta {T A} : RecordEta (shash T A) := λ r, mk_shash (map r) (nodes r).

(** The data of all nodes, changed. *)
Definition shash_fmap {T A B} (f : A -> B) (sh : shash T A) : shash T B :=
  mk_shash (map sh) (List.map (λ kv, (kv.1, f kv.2)) (nodes sh)).

(** Strings compare by their bytes, the terminator included. *)
Fixpoint strcmp (a b : chars) : Z :=
  match a, b with
  | [], [] => 0
  | [], y :: _ => code NUL - code y
  | x :: _, [] => code x - code NUL
  | x :: a, y :: b => if (code x =? code y) && negb (x =c NUL) then strcmp a b else code x - code y
  end.

(** The order in which [shash_sort] leaves the nodes. *)
Definition by_name {A} (a b : chars * A) : Prop := strcmp a.1 b.1 <= 0.

#[export] Instance by_name_dec {A} : RelDecision (@by_name A).
Proof. intros a b. unfold by_name. apply _. Defined.

Lemma code_inj a b : code a = code b -> a = b.
Proof.
  unfold code. intros H%Nat2Z.inj. by rewrite <- (ascii_nat_embedding a), H, ascii_nat_embedding.
Qed.

Lemma code_pos c : 0 <= code c /\ (code c = 0 -> c = NUL).
Proof. split; [unfold code; lia |]. intros H. by apply code_inj. Qed.

Lemma strcmp_antisym a b : strcmp b a = - strcmp a b.
Proof.
  revert b. induction a as [| x a IH]; intros [| y b]; cbn; [done | lia | lia |].
  rewrite (Z.eqb_sym (code y)). destruct (Z.eqb_spec (code x) (code y)) as [<-%code_inj |]; cbn; [| lia].
  destruct (x =c NUL); cbn; [lia | apply IH].
Qed.

Lemma strcmp_refl a : strcmp a a = 0.
Proof. pose proof (strcmp_antisym a a). lia. Qed.

Lemma strcmp_trans a b c : strcmp a b <= 0 -> strcmp b c <= 0 -> strcmp a c <= 0.
Proof.
  revert b c. induction a as [| x a IH]; intros [| y b] [| z c]; cbn; try done.
  - pose proof (code_pos y). change (code NUL) with 0.
    destruct (Z.eqb_spec (code y) (code z)) as [<-%code_inj |]; cbn; [| lia].
    destruct (Ascii.eqb_spec y NUL) as [-> |]; cbn; [done |]. lia.
  - pose proof (code_pos x). pose proof (code_pos z). change (code NUL) with 0.
    destruct (Z.eqb_spec (code x) (code z)) as [<-%code_inj |]; cbn; [| lia].
    destruct (Ascii.eqb_spec x NUL) as [-> |]; cbn; [lia |]. intros ? _. assert (code x = 0) as ?%code_pos by lia. done.
  - pose proof (code_pos x). pose proof (code_pos y). change (code NUL) with 0.
    destruct (Z.eqb_spec (code x) (code y)) as [<-%code_inj |]; cbn; [| lia].
    destruct (Ascii.eqb_spec x NUL) as [-> |]; cbn; [done |]. intros _ ?. lia.
  - destruct (Z.eqb_spec (code x) (code y)) as [<-%code_inj | Hxy]; cbn.
    + destruct (Z.eqb_spec (code x) (code z)) as [<-%code_inj |]; cbn; [| by destruct (x =c NUL); cbn; lia].
      destruct (x =c NUL); cbn; [done | apply IH].
    + destruct (Z.eqb_spec (code y) (code z)) as [<-%code_inj |]; cbn.
      * destruct (Z.eqb_spec (code x) (code y)); [done |]. cbn. lia.
      * destruct (Z.eqb_spec (code x) (code z)); cbn; lia.
Qed.

(** A C string. *)
Definition no_nul (s : chars) : Prop := Forall (λ c, c <> NUL) s.

Lemma strcmp_eq a b : no_nul a -> no_nul b -> strcmp a b = 0 -> a = b.
Proof.
  intros Ha. revert b. induction Ha as [| x a Hx Ha IH]; intros b Hb; destruct Hb as [| y b Hy Hb]; cbn.
  - done.
  - change (code NUL) with 0. intros H. by assert (code y = 0) as ?%code_pos by lia.
  - change (code NUL) with 0. intros H. by assert (code x = 0) as ?%code_pos by lia.
  - destruct (Z.eqb_spec (code x) (code y)) as [<-%code_inj |]; cbn; [| lia].
    destruct (Ascii.eqb_spec x NUL) as [-> |]; [done |]. cbn. intros H. f_equal. by apply IH.
Qed.

#[export] Instance by_name_total {A} : Total (@by_name A).
Proof. intros a b. unfold by_name. rewrite (strcmp_antisym a.1 b.1). lia. Qed.

#[export] Instance by_name_trans {A} : Transitive (@by_name A).
Proof. intros a b c. apply strcmp_trans. Qed.

Lemma nodup_fst_inj {A B} (l : list (A * B)) a b : NoDup l.*1 -> a ∈ l -> b ∈ l -> a.1 = b.1 -> a = b.
Proof.
  intros Hd (i & Hi)%list_elem_of_lookup (j & Hj)%list_elem_of_lookup E.
  assert (i = j) as ->; [| congruence].
  apply (NoDup_lookup l.*1 i j a.1); [done | |]; rewrite list_lookup_fmap; [by rewrite Hi | by rewrite Hj, E].
Qed.

(** There is one way to sort nodes with distinct names. *)
Lemma sorted_unique {A} (l1 l2 : list (chars * A)) :
  l1 ≡ₚ l2 -> NoDup l1.*1 -> Forall no_nul l1.*1 -> StronglySorted by_name l1 -> StronglySorted by_name l2 -> l1 = l2.
Proof.
  intros Hp Hd Hn H1 H2. apply (StronglySorted_unique_strong by_name); [| done..].
  intros a b Ha Hb Hab Hba. rewrite <- Hp in Hb. unfold by_name in *. rewrite strcmp_antisym in Hba.
  rewrite Forall_fmap, Forall_forall in Hn. apply (nodup_fst_inj l1); [done.. |].
  apply strcmp_eq; [by apply Hn | by apply Hn | lia].
Qed.

Section operations.
Context {T A : Type} {HT : HashTable T}.
Context (hash_string : chars -> Z -> Z).

Implicit Types (sh : shash T A) (name : chars) (data : A) (node : nat).

Definition hash_name name : Z := hash_string name 0.

Definition shash_init : shash T A := mk_shash hmap_init [].

Definition shash_count sh : Z := hmap_count (map sh).
Definition shash_is_empty sh : bool := hmap_count (map sh) =? 0.

(** The nodes in the order of SHASH_FOR_EACH. *)
Definition shash_nodes sh : list (chars * A) := omap (λ i, nodes sh !! i) (for_each (map sh)).

Definition shash_add_nocopy__ name data (hash : Z) sh : nat * shash T A :=
  let node := length (nodes sh) in
  (node, sh <| nodes ::= λ l, l ++ [(name, data)] |> <| map ::= hmap_insert node hash |>).

Definition shash_add_nocopy name data sh : nat * shash T A :=
  shash_add_nocopy__ name data (hash_name name) sh.

Definition shash_add name data sh : nat * shash T A := shash_add_nocopy name data sh.

Definition has_name sh name node : bool :=
  match nodes sh !! node with Some (k, _) => bool_decide (k = name) | None => false end.

Definition shash_find__ sh name (hash : Z) : option nat :=
  List.find (has_name sh name) (for_each_with_hash hash (map sh)).

Definition shash_find sh name : option nat := shash_find__ sh name (hash_name name).

(** [hash_string] hashes the bytes up to the terminator. *)
Definition shash_find_len sh name (len : nat) : option nat :=
  shash_find__ sh (take len name) (hash_name (take len name)).

Definition node_data sh node : option A := snd <$> nodes sh !! node.

Definition shash_find_data sh name : option A := shash_find sh name ≫= node_data sh.

Definition shash_add_once name data sh : bool * shash T A :=
  match shash_find sh name with
  | None => (true, (shash_add name data sh).2)
  | Some _ => (false, sh)
  end.

(** [None] is a failed assertion. *)
Definition shash_add_assert name data sh : option (shash T A) :=
  let '(ok, sh) := shash_add_once name data sh in if ok then Some sh else None.

Definition set_data node data sh : shash T A :=
  sh <| nodes ::= alter (λ kv, (kv.1, data)) node |>.

Definition shash_replace name data sh : option A * shash T A :=
  let hash := hash_name name in
  match shash_find__ sh name hash with
  | None => (None, (shash_add_nocopy__ name data hash sh).2)
  | Some node => (node_data sh node, set_data node data sh)
  end.

(** The name of the node and the table without it; [None] if the node is not in the table. *)
Definition shash_steal node sh : option (chars * shash T A) :=
  '(name, _) ← nodes sh !! node;
  t ← hmap_remove node (map sh);
  Some (name, sh <| map := t |>).

Definition shash_delete node sh : option (shash T A) :=
  '(_, sh) ← shash_steal node sh; Some sh.

Definition shash_find_and_delete name sh : option (option A * shash T A) :=
  match shash_find sh name with
  | Some node => sh' ← shash_delete node sh; Some (node_data sh node, sh')
  | None => Some (None, sh)
  end.

Definition shash_find_and_delete_assert name sh : option (A * shash T A) :=
  '(data, sh) ← shash_find_and_delete name sh;
  d ← data; Some (d, sh).

(** The loop removes the nodes that it visits. *)
Definition shash_clear sh : option (shash T A) :=
  t ← foldl (λ t i, t ← t; hmap_remove i t) (Some (map sh)) (for_each (map sh));
  Some (sh <| map := t |>).

Definition shash_first sh : option nat := head (for_each (map sh)).

(** [qsort] sorts by name; names are distinct. *)
Definition shash_sort sh : list (chars * A) := merge_sort by_name (shash_nodes sh).

Definition shash_equal_keys (a b : shash T A) : bool :=
  (hmap_count (map a) =? hmap_count (map b))
  && forallb (λ kv, if shash_find b kv.1 is Some _ then true else false) (shash_nodes a).

End operations.

(** ** What a table holds *)

Section contents.
Context {T : Type} {HT : HashTable T} {HTok : HashTableOk T}.
Context (hash_string : chars -> Z -> Z).

(** [m] are the nodes in the table, with their hashes. *)
Record ok {A} (sh : shash T A) (m : gmap nat Z) : Prop := {
  s_holds : hmap_holds (map sh) m;
  s_nodes i z : m !! i = Some z -> exists kv, nodes sh !! i = Some kv /\ z = hash_name hash_string kv.1;
  s_inj i j a b :
    is_Some (m !! i) -> is_Some (m !! j) -> nodes sh !! i = Some a -> nodes sh !! j = Some b -> a.1 = b.1 -> i = j;
}.

(** The table maps names to data as [c] does. *)
Definition represents {A} (sh : shash T A) (c : gmap chars A) : Prop :=
  exists m, ok sh m /\ forall k v, c !! k = Some v <-> exists i, is_Some (m !! i) /\ nodes sh !! i = Some (k, v).

(** Whether a table is well formed depends on the names of its nodes only. *)
Lemma ok_names {A B} (sh : shash T A) (sh' : shash T B) m :
  ok sh m -> map sh' = map sh -> (forall i, fst <$> nodes sh' !! i = fst <$> nodes sh !! i) -> ok sh' m.
Proof.
  intros O Hm Hn. split.
  - rewrite Hm. apply O.
  - intros i z Hz. destruct (s_nodes _ _ O i z Hz) as (kv & E & ->). specialize (Hn i). rewrite E in Hn.
    destruct (nodes sh' !! i) as [kv' |]; [| done]. exists kv'. split; [done |]. by injection Hn as ->.
  - intros i j a b Hi Hj Ea Eb E. pose proof (Hn i) as Hni. pose proof (Hn j) as Hnj. rewrite Ea in Hni. rewrite Eb in Hnj.
    destruct (nodes sh !! i) as [a' |] eqn:Ea'; [| done]. destruct (nodes sh !! j) as [b' |] eqn:Eb'; [| done].
    injection Hni as Hni. injection Hnj as Hnj. apply (s_inj _ _ O i j a' b'); congruence.
Qed.

Context {A : Type}.
Implicit Types (sh : shash T A) (c : gmap chars A) (m : gmap nat Z).

Lemma nodes_elem sh m k v :
  ok sh m -> (k, v) ∈ shash_nodes sh <-> exists i, is_Some (m !! i) /\ nodes sh !! i = Some (k, v).
Proof.
  intros O. unfold shash_nodes. rewrite list_elem_of_omap. destruct (for_each_elem _ _ (s_holds _ _ O)) as [_ H].
  split; intros (i & H1 & H2); exists i; (split; [by apply H | done]).
Qed.

Lemma omap_nodup sh m l :
  ok sh m -> NoDup l -> (forall i, i ∈ l -> is_Some (m !! i)) -> NoDup (omap (λ i, nodes sh !! i) l).*1.
Proof.
  intros O. induction l as [| i l IH]; intros Hl Hm; cbn; [constructor |]. apply NoDup_cons in Hl as [Hi Hl].
  assert (NoDup (omap (λ i, nodes sh !! i) l).*1) as Hd by (apply IH; [done |]; intros; apply Hm; by constructor).
  destruct (nodes sh !! i) as [kv |] eqn:Ei; [| done]. cbn. constructor; [| done].
  intros (kv' & Ek & Hin)%list_elem_of_fmap. apply list_elem_of_omap in Hin as (j & Hj & Ej).
  apply Hi. rewrite (s_inj _ _ O i j kv kv'); [done | apply Hm; by constructor | apply Hm; by constructor | done..].
Qed.

Lemma nodes_perm sh c : represents sh c -> shash_nodes sh ≡ₚ map_to_list c.
Proof.
  intros (m & O & Hc). destruct (for_each_elem _ _ (s_holds _ _ O)) as [Hnd Hel].
  apply NoDup_Permutation.
  - eapply NoDup_fmap_1, (omap_nodup sh m); [done | done |]. intros i. apply Hel.
  - apply NoDup_map_to_list.
  - intros [k v]. rewrite (nodes_elem sh m), elem_of_map_to_list, Hc by done. done.
Qed.

Lemma length_omap_total {B C} (f : B -> option C) l :
  (forall x, x ∈ l -> is_Some (f x)) -> length (omap f l) = length l.
Proof.
  induction l as [| x l IH]; intros H; cbn; [done |]. destruct (H x ltac:(by constructor)) as [y ->]. cbn.
  f_equal. apply IH. intros z Hz. apply H. by constructor.
Qed.

Lemma length_for_each sh m : ok sh m -> length (for_each (map sh)) = size m.
Proof.
  intros O. destruct (for_each_elem _ _ (s_holds _ _ O)) as [Hnd Hel].
  rewrite <- (size_dom (D := gset nat)). unfold size, set_size. cbn. apply Permutation_length, NoDup_Permutation.
  - done.
  - apply NoDup_elements.
  - intros x. rewrite Hel, elem_of_elements, elem_of_dom. done.
Qed.

Lemma count_contents sh c : represents sh c -> shash_count sh = Z.of_nat (size c).
Proof.
  intros Hr. pose proof (nodes_perm sh c Hr) as Hp%Permutation_length. rewrite length_map_to_list in Hp.
  destruct Hr as (m & O & _). unfold shash_count. rewrite (hmap_count_size _ _ (s_holds _ _ O)), <- Hp.
  rewrite <- (length_for_each sh m O). unfold shash_nodes. rewrite length_omap_total; [done |].
  intros i Hi. apply (for_each_elem _ _ (s_holds _ _ O)) in Hi as [z Hz].
  destruct (s_nodes _ _ O i z Hz) as (kv & -> & _). by exists kv.
Qed.

Lemma ok_represents sh m : ok sh m -> exists c, represents sh c /\ size c = size m.
Proof.
  intros O. assert (represents sh (list_to_map (shash_nodes sh))) as Hr.
  { exists m. split; [done |]. intros k v. destruct (for_each_elem _ _ (s_holds _ _ O)) as [Hnd Hel].
    rewrite <- elem_of_list_to_map; [by apply nodes_elem |].
    apply (omap_nodup sh m); [done | done |]. intros i. apply Hel. }
  eexists. split; [done |]. apply Nat2Z.inj. rewrite <- (count_contents sh _ Hr). unfold shash_count.
  by rewrite (hmap_count_size _ _ (s_holds _ _ O)).
Qed.

Lemma represents_ok sh c : represents sh c -> exists m, ok sh m /\ size m = size c.
Proof.
  intros Hr. pose proof (count_contents sh c Hr) as Hn. destruct Hr as (m & O & _). exists m. split; [done |].
  apply Nat2Z.inj. unfold shash_count in Hn. by rewrite <- (hmap_count_size _ _ (s_holds _ _ O)).
Qed.

Lemma find_contents sh c k :
  represents sh c ->
  match c !! k with
  | Some v => exists i, shash_find hash_string sh k = Some i /\ nodes sh !! i = Some (k, v)
  | None => shash_find hash_string sh k = None
  end.
Proof.
  intros (m & O & Hc). unfold shash_find, shash_find__.
  destruct (List.find _ _) as [i |] eqn:E.
  - apply List.find_some in E as [Hi Hn]. apply list_elem_of_In, (with_hash_elem _ _ _ _ (s_holds _ _ O)) in Hi.
    destruct (s_nodes _ _ O _ _ Hi) as ([k' v] & Ei & _). unfold has_name in Hn. rewrite Ei in Hn.
    apply bool_decide_eq_true in Hn as ->. assert (c !! k = Some v) as ->; [| by exists i].
    apply Hc. exists i. split; [by eexists | done].
  - destruct (c !! k) as [v |] eqn:Ek; [| done]. exfalso. apply Hc in Ek as (i & [z Hz] & Ei).
    destruct (s_nodes _ _ O _ _ Hz) as (kv & Ei' & ->). rewrite Ei in Ei'. injection Ei' as <-.
    apply (with_hash_elem _ _ _ _ (s_holds _ _ O)), list_elem_of_In in Hz.
    pose proof (List.find_none _ _ E _ Hz) as Hn. unfold has_name in Hn. rewrite Ei in Hn. by rewrite bool_decide_eq_true_2 in Hn.
Qed.

Lemma find_data_contents sh c k : represents sh c -> shash_find_data hash_string sh k = c !! k.
Proof.
  intros Hr. pose proof (find_contents sh c k Hr) as H. unfold shash_find_data, node_data.
  destruct (c !! k); [destruct H as (i & -> & E) | rewrite H]; [| done]. cbn. by rewrite E.
Qed.

Lemma init_contents : represents (shash_init (A := A)) ∅.
Proof.
  exists ∅. split.
  - split; [apply hmap_init_holds | |]; intros i; by rewrite lookup_empty; intros; destruct_and?; try inversion 1.
  - intros k v. rewrite lookup_empty. split; [done |]. intros (i & [z Hz] & _). by rewrite lookup_empty in Hz.
Qed.

Lemma add_contents sh c k v :
  represents sh c -> c !! k = None -> in_u 64 (Z.of_nat (size c) + 1) ->
  represents (shash_add_nocopy hash_string k v sh).2 (<[k := v]> c).
Proof.
  intros Hr Hk Hs. pose proof (count_contents sh c Hr) as Hn. destruct Hr as (m & O & Hc).
  set (n := length (nodes sh)). exists (<[n := hash_name hash_string k]> m). cbn. rsimpl.
  assert (m !! n = None) as Hf.
  { destruct (m !! n) as [z |] eqn:E; [| done]. destruct (s_nodes _ _ O _ _ E) as (kv & E' & _).
    apply lookup_lt_Some in E'. unfold n in E'. lia. }
  assert (forall i kv, is_Some (m !! i) -> (nodes sh ++ [(k, v)]) !! i = Some kv <-> nodes sh !! i = Some kv) as Hold.
  { intros i kv [z Hz]. destruct (s_nodes _ _ O _ _ Hz) as (kv' & E' & _).
    by rewrite (lookup_app_l_Some _ _ _ _ E'), E'. }
  assert ((nodes sh ++ [(k, v)]) !! n = Some (k, v)) as Hnew by by apply list_lookup_middle.
  split.
  - split; cbn; rsimpl.
    + apply hmap_insert_holds; [apply O | done |]. unfold shash_count in Hn.
      by rewrite <- (hmap_count_size _ _ (s_holds _ _ O)), Hn.
    + intros i z [[<- <-] | [Hi Hz]]%lookup_insert_Some; [by exists (k, v) |].
      destruct (s_nodes _ _ O _ _ Hz) as (kv & E & ->). exists kv. split; [| done]. by apply Hold; [eexists |].
    + assert (forall i a, is_Some (m !! i) -> nodes sh !! i = Some a -> a.1 <> k) as Hne.
      { intros i [k' v'] Hi E <-. cbn in *. assert (c !! k' = Some v') by (apply Hc; by exists i). congruence. }
      intros i j a b. rewrite !lookup_insert_is_Some.
      intros [<- | [Hi Hi']] [<- | [Hj Hj']]; [done | | |]; intros Ea Eb Eab.
      * rewrite Hnew in Ea. injection Ea as <-. apply Hold in Eb; [| done]. by destruct (Hne j b Hj' Eb).
      * rewrite Hnew in Eb. injection Eb as <-. apply Hold in Ea; [| done]. by destruct (Hne i a Hi' Ea).
      * apply Hold in Ea, Eb; [| done..]. by apply (s_inj _ _ O i j a b).
  - intros k' v'. split.
    + intros [[<- <-] | [Hk' Hv]]%lookup_insert_Some; [exists n; by rewrite lookup_insert_eq; eauto |].
      apply Hc in Hv as (i & Hi & E). exists i. split; [apply lookup_insert_is_Some'; by right |]. by apply Hold.
    + intros (i & [<- | [Hi Hi']]%lookup_insert_is_Some & E); [rewrite Hnew in E; injection E as <- <-; by rewrite lookup_insert_eq |].
      apply Hold in E; [| done]. assert (c !! k' = Some v') as E' by (apply Hc; by exists i).
      rewrite lookup_insert_ne; [done |]. congruence.
Qed.

(** The place of the new node is where it is found. *)
Lemma add_find sh c k v :
  represents sh c -> c !! k = None -> in_u 64 (Z.of_nat (size c) + 1) ->
  shash_find hash_string (shash_add_nocopy hash_string k v sh).2 k = Some (shash_add_nocopy hash_string k v sh).1.
Proof.
  intros Hr Hk Hs. pose proof (find_contents _ _ k (add_contents sh c k v Hr Hk Hs)) as H. rewrite lookup_insert_eq in H.
  destruct H as (i & Hf & Ei). rewrite Hf. f_equal. cbn [fst snd shash_add_nocopy shash_add_nocopy__] in *. rsimpl. cbn in Ei.
  pose proof (count_contents sh c Hr) as Hn. destruct Hr as (m & O & Hc). set (n := length (nodes sh)) in *.
  destruct (Nat.lt_trichotomy i n) as [Hlt | [-> | Hgt]]; [| done |].
  - exfalso. apply List.find_some in Hf as [Hf _]. apply list_elem_of_In in Hf. cbn in Hf. rsimpl.
    assert (m !! n = None) as Hm.
    { destruct (m !! n) as [z |] eqn:E; [| done]. destruct (s_nodes _ _ O _ _ E) as (kv & E' & _). apply lookup_lt_Some in E'. unfold n in E'. lia. }
    apply (with_hash_elem _ (<[n := hash_name hash_string k]> m)) in Hf.
    + rewrite lookup_insert_ne in Hf by lia. destruct (s_nodes _ _ O _ _ Hf) as (kv & E & _).
      rewrite (lookup_app_l_Some _ _ _ _ E) in Ei. injection Ei as ->. assert (c !! k = Some v) by (apply Hc; exists i; eauto). congruence.
    + apply hmap_insert_holds; [apply O | done |]. unfold shash_count in Hn. by rewrite <- (hmap_count_size _ _ (s_holds _ _ O)), Hn.
  - apply lookup_lt_Some in Ei. rewrite length_app in Ei. cbn in Ei. lia.
Qed.

Lemma set_data_contents sh c k v w i :
  represents sh c -> nodes sh !! i = Some (k, w) -> shash_find hash_string sh k = Some i -> c !! k = Some w ->
  represents (set_data i v sh) (<[k := v]> c).
Proof.
  intros (m & O & Hc) Ei Hf Hk.
  assert (is_Some (m !! i)) as Hi.
  { apply List.find_some in Hf as [Hf _]. apply list_elem_of_In, (with_hash_elem _ _ _ _ (s_holds _ _ O)) in Hf. by eexists. }
  assert (forall j, nodes (set_data i v sh) !! j = if decide (j = i) then Some (k, v) else nodes sh !! j) as Hn.
  { intros j. unfold set_data. rsimpl. destruct (decide (j = i)) as [-> |].
    - by rewrite list_lookup_alter_eq, Ei.
    - by rewrite list_lookup_alter_ne. }
  assert (forall j a, nodes (set_data i v sh) !! j = Some a -> exists b, nodes sh !! j = Some b /\ a.1 = b.1) as Hn'.
  { intros j a. rewrite Hn. case_decide as E; [intros [= <-]; rewrite E; by eexists | by eexists]. }
  exists m. split.
  - split; [apply O | |].
    + intros j z Hz. rewrite Hn. case_decide as E; [| by apply O]. rewrite E in Hz. exists (k, v). split; [done |].
      destruct (s_nodes _ _ O _ _ Hz) as (kv & E' & ->). rewrite Ei in E'. by injection E' as <-.
    + intros j j' a b Hj Hj' (a' & Ea & Ha)%Hn' (b' & Eb & Hb)%Hn' E.
      apply (s_inj _ _ O j j' a' b'); congruence.
  - intros k' v'. split.
    + intros [[<- <-] | [Hk' Hv]]%lookup_insert_Some; [exists i; by rewrite Hn, decide_True |].
      apply Hc in Hv as (j & Hj & E). exists j. split; [done |]. rewrite Hn, decide_False; [done |]. congruence.
    + intros (j & Hj & E). rewrite Hn in E. case_decide as Hji; [injection E as <- <-; by rewrite lookup_insert_eq |].
      rewrite lookup_insert_ne; [apply Hc; by exists j |]. intros <-.
      apply Hji, (s_inj _ _ O j i (k, v') (k, w)); done.
Qed.

Lemma replace_contents sh c k v :
  represents sh c -> in_u 64 (Z.of_nat (size c) + 1) ->
  (shash_replace hash_string k v sh).1 = c !! k /\
  represents (shash_replace hash_string k v sh).2 (<[k := v]> c).
Proof.
  intros Hr Hs. pose proof (find_contents sh c k Hr) as Hf. unfold shash_replace.
  change (shash_find__ sh k (hash_name hash_string k)) with (shash_find hash_string sh k).
  destruct (c !! k) as [w |] eqn:Ek.
  - destruct Hf as (i & Hf & Ei). rewrite Hf. cbn. unfold node_data. rewrite Ei. split; [done |].
    by apply (set_data_contents sh c k v w i).
  - rewrite Hf. split; [done |]. by apply add_contents.
Qed.

Lemma steal_contents sh c k v i :
  represents sh c -> shash_find hash_string sh k = Some i -> nodes sh !! i = Some (k, v) ->
  exists sh', shash_steal i sh = Some (k, sh') /\ represents sh' (delete k c).
Proof.
  intros (m & O & Hc) Hf Ei.
  assert (is_Some (m !! i)) as Hi.
  { apply List.find_some in Hf as [Hf _]. apply list_elem_of_In, (with_hash_elem _ _ _ _ (s_holds _ _ O)) in Hf. by eexists. }
  destruct (hmap_remove_holds _ _ i (s_holds _ _ O) Hi) as (t & Et & Ht).
  unfold shash_steal. rewrite Ei. cbn. rewrite Et. cbn. eexists. split; [done |]. exists (delete i m). split.
  - split; rsimpl; [done | |].
    + intros j z [_ Hz]%lookup_delete_Some. by apply O.
    + intros j j' a b [_ Hj]%lookup_delete_is_Some [_ Hj']%lookup_delete_is_Some. by apply O.
  - rsimpl. intros k' v'. rewrite lookup_delete_Some, Hc. split.
    + intros (Hk & j & Hj & E). exists j. split; [| done]. apply lookup_delete_is_Some. split; [| done]. congruence.
    + intros (j & [Hj Hj']%lookup_delete_is_Some & E). split; [| by exists j]. intros <-.
      apply Hj. symmetry. by apply (s_inj _ _ O j i (k, v') (k, v)).
Qed.

Lemma find_and_delete_contents sh c k :
  represents sh c -> exists sh', shash_find_and_delete hash_string k sh = Some (c !! k, sh') /\ represents sh' (delete k c).
Proof.
  intros Hr. pose proof (find_contents sh c k Hr) as Hf. unfold shash_find_and_delete, shash_delete.
  destruct (c !! k) as [v |] eqn:Ek.
  - destruct Hf as (i & Hf & Ei). rewrite Hf. destruct (steal_contents sh c k v i Hr Hf Ei) as (sh' & -> & Hr').
    cbn. exists sh'. unfold node_data. by rewrite Ei.
  - rewrite Hf. exists sh. by rewrite delete_id.
Qed.

Lemma remove_all_holds (t : T) m l :
  hmap_holds t m -> NoDup l -> (forall i, i ∈ l -> is_Some (m !! i)) ->
  exists t', foldl (λ t i, t ← t; hmap_remove i t) (Some t) l = Some t' /\
    hmap_holds t' (filter (λ iz, iz.1 ∉ l) m).
Proof.
  revert t m. induction l as [| i l IH]; intros t m Ht Hl Hm; cbn.
  - exists t. split; [done |]. rewrite map_filter_id; [done |]. intros ? ? _. apply not_elem_of_nil.
  - apply NoDup_cons in Hl as [Hi Hl]. destruct (hmap_remove_holds t m i Ht) as (t1 & -> & Ht1).
    { apply Hm. by constructor. }
    destruct (IH t1 (delete i m) Ht1 Hl) as (t' & E & Ht').
    { intros j Hj. rewrite lookup_delete_ne; [apply Hm; by constructor |]. by intros <-. }
    exists t'. split; [done |].
    replace (filter (λ iz, iz.1 ∉ i :: l) m) with (filter (λ iz, iz.1 ∉ l) (delete i m)); [done |].
    apply map_eq. intros j. apply option_eq. intros z. rewrite !map_lookup_filter_Some, lookup_delete_Some, not_elem_of_cons. naive_solver.
Qed.

Lemma clear_contents sh c : represents sh c -> exists sh', shash_clear sh = Some sh' /\ represents sh' ∅.
Proof.
  intros (m & O & Hc). destruct (for_each_elem _ _ (s_holds _ _ O)) as [Hnd Hel].
  destruct (remove_all_holds _ m _ (s_holds _ _ O) Hnd) as (t & E & Ht); [intros i; apply Hel |].
  unfold shash_clear. rewrite E. cbn. eexists. split; [done |].
  assert (filter (λ iz, iz.1 ∉ for_each (map sh)) m = ∅) as Em.
  { apply map_empty. intros i. apply eq_None_not_Some. intros [z [Hz Hn]%map_lookup_filter_Some].
    apply Hn, Hel. by eexists. }
  rewrite Em in Ht. exists ∅. split; [split; rsimpl; [done | |] |].
  - intros i z. by rewrite lookup_empty.
  - intros i j a b [? Hi]. by rewrite lookup_empty in Hi.
  - intros k v. rewrite lookup_empty. split; [done |]. intros (i & [z Hz] & _). by rewrite lookup_empty in Hz.
Qed.

Lemma equal_keys_contents sh sh' c c' :
  represents sh c -> represents sh' c' ->
  shash_equal_keys hash_string sh sh' = true <-> dom c = dom c'.
Proof.
  intros Hr Hr'. unfold shash_equal_keys. fold (shash_count sh) (shash_count sh').
  rewrite (count_contents _ _ Hr), (count_contents _ _ Hr'), andb_true_iff, Z.eqb_eq, forallb_forall.
  assert ((forall kv, In kv (shash_nodes sh) ->
             (if shash_find hash_string sh' kv.1 is Some _ then true else false) = true) <-> dom c ⊆ dom c') as ->.
  { split.
    - intros H k [v Hv]%elem_of_dom. specialize (H (k, v)). cbn in H.
      rewrite <- list_elem_of_In, (nodes_perm _ _ Hr), elem_of_map_to_list in H. specialize (H Hv).
      pose proof (find_contents _ _ k Hr') as Hf. apply elem_of_dom. destruct (c' !! k); [done |]. by rewrite Hf in H.
    - intros H [k v]. rewrite <- list_elem_of_In, (nodes_perm _ _ Hr), elem_of_map_to_list. intros Hv. cbn.
      assert (k ∈ dom c') as [w Hw]%elem_of_dom by (apply H, elem_of_dom; by eexists).
      pose proof (find_contents _ _ k Hr') as Hf. rewrite Hw in Hf. by destruct Hf as (i & -> & _). }
  rewrite <- !(size_dom (D := gset chars)). split; [| by intros ->].
  intros [Hs Hd]. apply leibniz_equiv, (set_subseteq_size_equiv _ _ Hd). lia.
Qed.

Lemma sort_contents sh c :
  represents sh c -> shash_sort sh ≡ₚ map_to_list c /\ StronglySorted by_name (shash_sort sh).
Proof.
  intros Hr. unfold shash_sort. split; [| apply StronglySorted_merge_sort; apply _].
  by rewrite merge_sort_Permutation, nodes_perm.
Qed.

Lemma add_once_contents sh c k v :
  represents sh c -> in_u 64 (Z.of_nat (size c) + 1) ->
  (shash_add_once hash_string k v sh).1 = bool_decide (c !! k = None) /\
  represents (shash_add_once hash_string k v sh).2 (match c !! k with Some _ => c | None => <[k := v]> c end).
Proof.
  intros Hr Hs. pose proof (find_contents sh c k Hr) as Hf. unfold shash_add_once. destruct (c !! k) eqn:E.
  - by destruct Hf as (i & -> & _).
  - rewrite Hf. split; [done |]. by apply add_contents.
Qed.

(** Changing the data commutes with iterating and sorting. *)
Lemma nodes_fmap {B} (f : A -> B) sh : shash_nodes (shash_fmap f sh) = prod_map id f <$> shash_nodes sh.
Proof.
  unfold shash_nodes, shash_fmap. cbn. induction (for_each (map sh)) as [| i l IH]; cbn; [done |].
  change (List.map ?g ?l) with (g <$> l). rewrite list_lookup_fmap.
  destruct (nodes sh !! i) as [[k v] |]; cbn; [by f_equal | done].
Qed.

Lemma nodes_names sh m : ok sh m -> NoDup (shash_nodes sh).*1.
Proof.
  intros O. destruct (for_each_elem _ _ (s_holds _ _ O)) as [Hnd Hel].
  apply (omap_nodup sh m); [done | done |]. intros i. apply Hel.
Qed.

Lemma nodes_forall (P : chars * A -> Prop) sh : Forall P (nodes sh) -> Forall P (shash_nodes sh).
Proof.
  intros H. apply Forall_forall. intros kv (i & _ & E)%list_elem_of_omap. by apply (Forall_lookup_1 _ _ _ _ H E).
Qed.

Lemma sort_fmap {B} (f : A -> B) sh m :
  ok sh m -> Forall no_nul (nodes sh).*1 -> shash_sort (shash_fmap f sh) = prod_map id f <$> shash_sort sh.
Proof.
  intros O Hn. unfold shash_sort. symmetry. apply sorted_unique.
  - by rewrite !merge_sort_Permutation, nodes_fmap.
  - rewrite merge_sort_Permutation, <- list_fmap_compose. apply (nodes_names sh m O).
  - rewrite merge_sort_Permutation, <- list_fmap_compose. change (fst ∘ prod_map id f) with (λ kv : chars * A, kv.1).
    rewrite Forall_fmap in *. by apply nodes_forall.
  - pose proof (StronglySorted_merge_sort by_name (shash_nodes sh)) as H.
    induction H as [| a l _ IH Ha]; cbn; constructor; [done |]. apply Forall_fmap. eapply Forall_impl; [done |]. by intros [].
  - apply StronglySorted_merge_sort; apply _.
Qed.

(** Tables that a program can build without duplicate names. *)
Inductive reachable : shash T A -> gmap chars A -> Prop :=
  | reach_init : reachable shash_init ∅
  | reach_replace sh c k v :
      reachable sh c -> in_u 64 (Z.of_nat (size c) + 1) ->
      reachable (shash_replace hash_string k v sh).2 (<[k := v]> c)
  | reach_add_once sh c k v :
      reachable sh c -> in_u 64 (Z.of_nat (size c) + 1) ->
      reachable (shash_add_once hash_string k v sh).2 (match c !! k with Some _ => c | None => <[k := v]> c end)
  | reach_delete sh c k d sh' :
      reachable sh c -> shash_find_and_delete hash_string k sh = Some (d, sh') -> reachable sh' (delete k c)
  | reach_clear sh c sh' : reachable sh c -> shash_clear sh = Some sh' -> reachable sh' ∅.

Lemma reachable_represents sh c : reachable sh c -> represents sh c.
Proof.
  induction 1 as [| sh c k v _ IH Hs | sh c k v _ IH Hs | sh c k d sh' _ IH E | sh c sh' _ IH E].
  - apply init_contents.
  - by apply replace_contents.
  - by apply add_once_contents.
  - destruct (find_and_delete_contents sh c k IH) as (sh1 & E1 & H1). rewrite E in E1. by injection E1 as _ <-.
  - destruct (clear_contents sh c IH) as (sh1 & E1 & H1). rewrite E in E1. by injection E1 as <-.
Qed.

(** C40: tables of names refine finite maps: in every table built by adding, replacing, deleting
    and clearing, a name finds its data and nothing else, the operations return what they
    replace and remove and do not fail, the count is the number of names, iteration visits each
    name once, sorting puts them in the order of their bytes, and comparing the keys of two
    tables is exact. *)
Theorem shash_refines_map sh c :
  reachable sh c ->
  (forall k, shash_find_data hash_string sh k = c !! k) /\
  (forall k v, in_u 64 (Z.of_nat (size c) + 1) ->
     (shash_replace hash_string k v sh).1 = c !! k /\
     (shash_add_once hash_string k v sh).1 = bool_decide (c !! k = None)) /\
  (forall k, exists sh', shash_find_and_delete hash_string k sh = Some (c !! k, sh') /\ reachable sh' (delete k c)) /\
  (exists sh', shash_clear sh = Some sh' /\ reachable sh' ∅) /\
  shash_count sh = Z.of_nat (size c) /\
  shash_nodes sh ≡ₚ map_to_list c /\
  (shash_sort sh ≡ₚ map_to_list c /\ StronglySorted by_name (shash_sort sh)) /\
  (forall sh' c', reachable sh' c' -> shash_equal_keys hash_string sh sh' = true <-> dom c = dom c').
Proof.
  intros H. pose proof (reachable_represents sh c H) as Hr. repeat split.
  - intros k. by apply find_data_contents.
  - by apply replace_contents.
  - by apply add_once_contents.
  - intros k. destruct (find_and_delete_contents sh c k Hr) as (sh' & E & _). exists sh'. split; [done |].
    by apply (reach_delete sh c k (c !! k)).
  - destruct (clear_contents sh c Hr) as (sh' & E & _). exists sh'. split; [done |]. by apply (reach_clear sh c).
  - by apply count_contents.
  - by apply nodes_perm.
  - by apply sort_contents.
  - by apply (sort_contents sh c).
  - by apply equal_keys_contents; [| apply reachable_represents].
  - by apply equal_keys_contents; [| apply reachable_represents].
Qed.

End contents.

(** ** Examples *)

Definition hash_length (s : chars) (basis : Z) : Z := Z.of_nat (length s) + basis.

Definition two_names : shash Hmap.hmap Z :=
  (shash_replace hash_length (str "b") 2 (shash_replace hash_length (str "a") 1 shash_init).2).2.

Lemma shash_refines_map_witness :
  shash_find_data hash_length two_names (str "a") = Some 1 /\
  StronglySorted by_name (shash_sort two_names) /\ (shash_sort two_names).*2 = [1; 2].
Proof.
  destruct (shash_refines_map hash_length two_names (<[str "b" := 2]> (<[str "a" := 1]> ∅))) as (H1 & _ & _ & _ & _ & _ & H2 & _).
  - apply reach_replace; [apply reach_replace; [constructor |] |]; by vm_compute.
  - split; [by rewrite H1; vm_compute |]. split; [apply H2 | by vm_compute].
Defined.
End Shash.
