(* ===== verification/Unicode.v ===== *)
(** Unicode (lib/unicode.c, lib/unicode.h, and [ds_put_utf8] of lib/dynamic-string.c): code
    points, surrogate pairs, encoding in UTF-8 and validation of UTF-8 strings. *)
From S2P Require Import Prelude Text.

Module Unicode.

(** ** Code points *)

(** The character that a number is stored as. *)
Definition chr (x : Z) : ascii := ascii_of_nat (Z.to_nat (u8 x)).

Definition uc_is_code_point (c : Z) : bool := (c >=? 0) && (c <=? 0x10ffff).
Definition uc_is_leading_surrogate (c : Z) : bool := (c >=? 0xd800) && (c <=? 0xdbff).
Definition uc_is_trailing_surrogate (c : Z) : bool := (c >=? 0xdc00) && (c <=? 0xdfff).
Definition uc_is_surrogate (c : Z) : bool := (c >=? 0xd800) && (c <=? 0xdfff).

Definition utf16_decode_surrogate_pair (leading trailing : Z) : Z :=
  let w := Z.land (Z.shiftr leading 6) 0xf in
  let u := w + 1 in
  let x0 := Z.land leading 0x3f in
  let x1 := Z.land trailing 0x3ff in
  Z.lor (Z.lor (Z.shiftl u 16) (Z.shiftl x0 10)) x1.

(** What [ds_put_utf8] appends. *)
Definition utf8 (uc : Z) : chars :=
  let tail i := chr (Z.lor 0x80 (Z.land (Z.shiftr uc i) 0x3f)) in
  if uc <=? 0x7f then [chr uc]
  else if uc <=? 0x7ff then [chr (Z.lor 0xc0 (Z.shiftr uc 6)); tail 0]
  else if uc <=? 0xffff then [chr (Z.lor 0xe0 (Z.shiftr uc 12)); tail 6; tail 0]
  else if uc <=? 0x10ffff then [chr (Z.lor 0xf0 (Z.shiftr uc 18)); tail 12; tail 6; tail 0]
  else List.map chr [0xef; 0xbf; 0xbd].

(** ** Strings *)

(** The number of characters of a UTF-8 string: its bytes but the continuation bytes. *)
Definition utf8_length (s : chars) : nat :=
  length (List.filter (λ c, negb (Z.land (code c) 0xc0 =? 0x80)) s).

(** The message for the first [n] bytes of [s]. *)
Definition invalid_utf8_sequence (s : chars) (n : nat) : chars :=
  str "invalid UTF-8 sequence" ++
  concat (List.map (λ i, str " 0x" ++ print_hex2 (code (hd_char (drop i s)))) (seq 0 n)).

(** The ranges of the bytes of the sequences, the first byte first. *)
Definition seqs : list (list (Z * Z)) :=
  [ [(0x01, 0x7f)];
    [(0xc2, 0xdf); (0x80, 0xbf)];
    [(0xe0, 0xe0); (0xa0, 0xbf); (0x80, 0xbf)];
    [(0xe1, 0xec); (0x80, 0xbf); (0x80, 0xbf)];
    [(0xed, 0xed); (0x80, 0x9f); (0x80, 0xbf)];
    [(0xee, 0xef); (0x80, 0xbf); (0x80, 0xbf)];
    [(0xf0, 0xf0); (0x90, 0xbf); (0x80, 0xbf); (0x80, 0xbf)];
    [(0xf1, 0xf3); (0x80, 0xbf); (0x80, 0xbf); (0x80, 0xbf)];
    [(0xf4, 0xf4); (0x80, 0x8f); (0x80, 0xbf); (0x80, 0xbf)] ].

Definition lookup_utf8_sequence (c : Z) : option (list (Z * Z)) :=
  List.find (λ octets, match octets with (lo, hi) :: _ => (c >=? lo) && (c <=? hi) | [] => false end) seqs.

(** The loop over the bytes after the first: the length of the sequence, or the number of bytes
    up to the first that does not fit. *)
Fixpoint check_octets (octets : list (Z * Z)) (i : nat) (s : chars) : nat + nat :=
  match octets with
  | [] => inl i
  | (lo, hi) :: octets =>
      let c := code (hd_char (drop i s)) in
      if (c <? lo) || (c >? hi) then inr (S i) else check_octets octets (S i) s
  end.

(** Each round consumes a byte, so that the length of the string is enough fuel. *)
Fixpoint validate_loop (fuel : nat) (s : chars) (length : nat) : nat + chars :=
  match fuel, s with
  | S fuel, c :: s' =>
      if code c <? 0x80 then validate_loop fuel s' (S length)
      else
        match lookup_utf8_sequence (code c) with
        | None => inr (invalid_utf8_sequence s 1)
        | Some seq =>
            match check_octets (tail seq) 1 s with
            | inr n => inr (invalid_utf8_sequence s n)
            | inl n => validate_loop fuel (drop n s) (S length)
            end
        end
  | _, _ => inl length
  end.

(** The number of characters, or the message of an error. *)
Definition utf8_validate (s : chars) : nat + chars := validate_loop (length s) s 0.

(** ** Lemmas *)

(** A code point that is not a surrogate and not null. *)
Definition scalar (c : Z) : Prop := 0 < c <= 0x10ffff /\ uc_is_surrogate c = false.

Lemma scalar_range c : scalar c <-> 0 < c < 0xd800 \/ 0xdfff < c <= 0x10ffff.
Proof. unfold scalar, uc_is_surrogate. rewrite andb_false_iff, Z.geb_leb, !Z.leb_gt. lia. Qed.

Lemma code_chr x : 0 <= x < 256 -> code (chr x) = x.
Proof.
  intros Hx. unfold code, chr. rewrite wrap_small by (unfold in_u; lia).
  rewrite nat_ascii_embedding by lia. lia.
Qed.

Lemma chr_code c : chr (code c) = c.
Proof.
  unfold code, chr. pose proof (nat_ascii_bounded c). rewrite wrap_small by (unfold in_u; lia).
  by rewrite Nat2Z.id, ascii_nat_embedding.
Qed.

Lemma code_range c : 0 <= code c < 256.
Proof. unfold code. pose proof (nat_ascii_bounded c). lia. Qed.

(** Numbers without common bits. *)
Lemma lor_add m x n :
  forallb (λ x, Z.land m x =? 0) (List.map Z.of_nat (seq 0 n)) = true -> 0 <= x < Z.of_nat n -> Z.lor m x = m + x.
Proof.
  intros H Hx. rewrite <- Z.add_lor_land. rewrite forallb_forall in H. specialize (H x). rewrite Z.eqb_eq in H.
  rewrite H; [lia |]. apply in_map_iff. exists (Z.to_nat x). split; [lia | apply in_seq; lia].
Qed.

Lemma land_mod x k : 0 <= k -> Z.land x (2 ^ k - 1) = x mod 2 ^ k.
Proof. intros Hk. rewrite <- (Z.land_ones x k Hk). f_equal. rewrite Z.ones_equiv. lia. Qed.

(** The bytes of a code point, as arithmetic. *)
Definition utf8_bytes (u : Z) : list Z :=
  if u <=? 0x7f then [u]
  else if u <=? 0x7ff then [0xc0 + u / 64; 0x80 + u mod 64]
  else if u <=? 0xffff then [0xe0 + u / 4096; 0x80 + u / 64 mod 64; 0x80 + u mod 64]
  else [0xf0 + u / 262144; 0x80 + u / 4096 mod 64; 0x80 + u / 64 mod 64; 0x80 + u mod 64].

Lemma utf8_arith u : 0 <= u <= 0x10ffff -> utf8 u = List.map chr (utf8_bytes u).
Proof.
  intros Hu. assert (forall x, 0 <= x < 64 -> Z.lor 0x80 x = 0x80 + x) as Ht by (intros; by apply (lor_add _ _ 64)).
  assert (forall i, 0 <= i -> Z.lor 0x80 (Z.land (Z.shiftr u i) 0x3f) = 0x80 + u / 2 ^ i mod 64) as Htail.
  { intros i Hi. rewrite Z.shiftr_div_pow2, (land_mod _ 6) by lia. apply Ht. apply Z.mod_pos_bound. lia. }
  unfold utf8, utf8_bytes. rewrite !Htail by lia. change (2 ^ 0) with 1. change (2 ^ 6) with 64. change (2 ^ 12) with 4096.
  rewrite Z.div_1_r, !Z.shiftr_div_pow2 by lia. change (2 ^ 18) with 262144. change (2 ^ 6) with 64. change (2 ^ 12) with 4096.
  destruct (Z.leb_spec u 0x7f); [done |]. destruct (Z.leb_spec u 0x7ff).
  { rewrite (lor_add 0xc0 _ 32); [done | done |]. Z.to_euclidean_division_equations; lia. }
  destruct (Z.leb_spec u 0xffff).
  { rewrite (lor_add 0xe0 _ 16); [done | done |]. Z.to_euclidean_division_equations; lia. }
  destruct (Z.leb_spec u 0x10ffff); [| lia].
  rewrite (lor_add 0xf0 _ 8); [done | done |]. Z.to_euclidean_division_equations; lia.
Qed.

Ltac compare_all :=
  repeat match goal with
         | |- context [?a <=? ?b] => destruct (Z.leb_spec a b); try lia
         | |- context [?a >=? ?b] => destruct (Z.geb_spec a b); try lia
         | |- context [?a <? ?b] => destruct (Z.ltb_spec a b); try lia
         | |- context [?a >? ?b] => destruct (Z.gtb_spec a b); try lia
         end; cbn [andb orb negb].

(** A byte in the range of an octet. *)
Definition in_range (b : Z) (range : Z * Z) : Prop := range.1 <= b <= range.2.

(** The bytes of a multi-byte character fit a sequence of the table. *)
Lemma bytes_fit u :
  scalar u -> 0x80 <= u ->
  exists b bs octets, utf8_bytes u = b :: bs /\ 0x80 <= b < 256 /\ lookup_utf8_sequence b = Some octets /\
    Forall2 in_range bs (tail octets) /\ Forall (λ b, 0x80 <= b < 0xc0) bs.
Proof.
  intros Hs%scalar_range Hu. unfold utf8_bytes. destruct (Z.leb_spec u 0x7f); [lia |].
  assert (forall x, 0 <= x mod 64 < 64) as Hm by (intros; apply Z.mod_pos_bound; lia).
  pose proof (Hm u). pose proof (Hm (u / 64)). pose proof (Hm (u / 4096)).
  destruct (Z.leb_spec u 0x7ff); [| destruct (Z.leb_spec u 0xffff)].
  - assert (2 <= u / 64 < 32) by (Z.to_euclidean_division_equations; lia).
    eexists _, _, _. split; [done |]. split; [lia |]. split; [unfold lookup_utf8_sequence, seqs; cbn [List.find]; compare_all; done |].
    split; repeat constructor; cbn; lia.
  - assert (0 <= u / 4096 < 16) by (Z.to_euclidean_division_equations; lia).
    assert (u / 4096 = 0 -> 32 <= u / 64 mod 64) by (Z.to_euclidean_division_equations; lia).
    assert (u / 4096 = 13 -> u / 64 mod 64 < 32) by (Z.to_euclidean_division_equations; lia).
    assert (exists octets, lookup_utf8_sequence (0xe0 + u / 4096) = Some octets /\
      Forall2 in_range [0x80 + u / 64 mod 64; 0x80 + u mod 64] (tail octets)) as (octets & Ho & Hf).
    { unfold lookup_utf8_sequence, seqs. cbn [List.find]. compare_all; (eexists; split; [done |]); repeat constructor; cbn; lia. }
    eexists _, _, octets. split; [done |]. split; [lia |]. split; [done |]. split; [done |]. repeat constructor; lia.
  - assert (0 <= u / 262144 < 5) by (Z.to_euclidean_division_equations; lia).
    assert (u / 262144 = 0 -> 16 <= u / 4096 mod 64) by (Z.to_euclidean_division_equations; lia).
    assert (u / 262144 = 4 -> u / 4096 mod 64 < 16) by (Z.to_euclidean_division_equations; lia).
    assert (exists octets, lookup_utf8_sequence (0xf0 + u / 262144) = Some octets /\
      Forall2 in_range [0x80 + u / 4096 mod 64; 0x80 + u / 64 mod 64; 0x80 + u mod 64] (tail octets)) as (octets & Ho & Hf).
    { unfold lookup_utf8_sequence, seqs. cbn [List.find]. compare_all; (eexists; split; [done |]); repeat constructor; cbn; lia. }
    eexists _, _, octets. split; [done |]. split; [lia |]. split; [done |]. split; [done |]. repeat constructor; lia.
Qed.

Lemma check_octets_fit bs octets pre rest :
  Forall2 in_range bs octets -> Forall (λ b, 0x80 <= b < 0xc0) bs ->
  check_octets octets (length pre) (pre ++ List.map chr bs ++ rest) = inl (length pre + length bs)%nat.
Proof.
  intros H. revert pre. induction H as [| b [lo hi] bs octets [Hlo Hhi] _ IH]; intros pre Hb; cbn [check_octets length]; [by rewrite Nat.add_0_r |].
  apply Forall_cons in Hb as [Hb Hbs]. cbn in Hlo, Hhi.
  rewrite drop_app_length. cbn [List.map app hd_char]. rewrite code_chr by lia. compare_all.
  specialize (IH (pre ++ [chr b]) Hbs). rewrite length_app in IH. cbn [length] in IH. rewrite <- app_assoc in IH. cbn [app] in IH.
  rewrite Nat.add_1_r in IH. rewrite IH. f_equal. lia.
Qed.

(** A character is validated in one round. *)
Lemma validate_char u fuel rest n :
  scalar u -> validate_loop (S fuel) (utf8 u ++ rest) n = validate_loop fuel rest (S n).
Proof.
  intros Hs. pose proof Hs as [Hr _]. rewrite utf8_arith by lia. destruct (Z.lt_ge_cases u 0x80) as [Hu | Hu].
  - unfold utf8_bytes. destruct (Z.leb_spec u 0x7f); [| lia]. cbn [List.map app validate_loop]. rewrite code_chr by lia. by compare_all.
  - destruct (bytes_fit u Hs Hu) as (b & bs & octets & -> & Hb & Ho & Hf & Hbs). cbn [List.map app validate_loop].
    rewrite code_chr by lia. compare_all. rewrite Ho.
    pose proof (check_octets_fit bs (tail octets) [chr b] rest Hf Hbs) as Hc. cbn [app length] in Hc. rewrite Hc. cbn [Nat.add].
    f_equal. cbn [drop]. rewrite <- (length_map chr bs). apply drop_app_length.
Qed.

Lemma validate_encoded us fuel n :
  Forall scalar us -> (length us <= fuel)%nat -> validate_loop fuel (concat (List.map utf8 us)) n = inl (n + length us)%nat.
Proof.
  intros H. revert fuel n. induction H as [| u us Hu _ IH]; intros fuel n Hf; cbn [List.map concat length] in *.
  - rewrite Nat.add_0_r. by destruct fuel.
  - destruct fuel as [| fuel]; [lia |]. rewrite validate_char, IH by (first [done | lia]). f_equal. lia.
Qed.

(** *** What is accepted is an encoding *)

Lemma check_octets_inv octets i s n :
  check_octets octets i s = inl n ->
  n = (i + length octets)%nat /\ Forall2 in_range (List.map (λ k, code (hd_char (drop k s))) (seq i (length octets))) octets.
Proof.
  revert i. induction octets as [| [lo hi] octets IH]; intros i; cbn [check_octets length seq List.map].
  - intros [= <-]. split; [lia | constructor].
  - destruct (Z.ltb_spec (code (hd_char (drop i s))) lo); [done |]. destruct (Z.gtb_spec (code (hd_char (drop i s))) hi); [done |]. cbn [orb].
    intros [-> Hf]%IH. split; [lia |]. constructor; [split; cbn; lia | done].
Qed.

(** The characters from [i] on, which are in range and so not null, are in the string. *)
Lemma take_codes k s :
  Forall (λ b, 0 < b) (List.map (λ i, code (hd_char (drop i s))) (seq 0 k)) ->
  s = List.map chr (List.map (λ i, code (hd_char (drop i s))) (seq 0 k)) ++ drop k s.
Proof.
  revert s. induction k as [| k IH]; intros s; [done |]. cbn [seq List.map drop]. intros [Hh Ht]%Forall_cons.
  destruct s as [| c s]; [by vm_compute in Hh |]. cbn [hd_char drop app]. rewrite chr_code. f_equal.
  rewrite <- seq_shift, (List.map_map S) in Ht |- *. cbn [drop] in *. by apply IH.
Qed.

Lemma lookup_inv c octets :
  lookup_utf8_sequence c = Some octets -> octets ∈ seqs /\ match octets with r :: _ => in_range c r | [] => False end.
Proof.
  intros [Hin H]%List.find_some. split; [by apply list_elem_of_In |]. destruct octets as [| [lo hi] octets]; [done |].
  apply andb_true_iff in H as [H1 H2]. rewrite Z.geb_leb in H1. apply Z.leb_le in H1, H2. done.
Qed.

(** The code point of a sequence of bytes that in_range the table. *)
Lemma bytes_scalar b bs octets :
  lookup_utf8_sequence b = Some octets -> Forall2 in_range bs (tail octets) -> 0x80 <= b ->
  exists u, scalar u /\ utf8_bytes u = b :: bs.
Proof.
  intros [Hin Hb]%lookup_inv Hf Hge.
  assert (forall b0 b1, 0xc2 <= b0 <= 0xdf -> 0x80 <= b1 <= 0xbf -> exists u, scalar u /\ utf8_bytes u = [b0; b1]) as H2.
  { intros b0 b1 H0 H1. exists ((b0 - 0xc0) * 64 + (b1 - 0x80)). rewrite scalar_range. split; [lia |]. unfold utf8_bytes.
    compare_all. repeat f_equal; Z.to_euclidean_division_equations; lia. }
  assert (forall b0 b1 b2, 0xe0 <= b0 <= 0xef -> 0x80 <= b1 <= 0xbf -> 0x80 <= b2 <= 0xbf -> (b0 = 0xe0 -> 0xa0 <= b1) -> (b0 = 0xed -> b1 <= 0x9f) ->
    exists u, scalar u /\ utf8_bytes u = [b0; b1; b2]) as H3.
  { intros b0 b1 b2 H0 H1 H3 Ha Hd. exists ((b0 - 0xe0) * 4096 + (b1 - 0x80) * 64 + (b2 - 0x80)). rewrite scalar_range. split; [lia |]. unfold utf8_bytes.
    compare_all. repeat f_equal; Z.to_euclidean_division_equations; lia. }
  assert (forall b0 b1 b2 b3, 0xf0 <= b0 <= 0xf4 -> 0x80 <= b1 <= 0xbf -> 0x80 <= b2 <= 0xbf -> 0x80 <= b3 <= 0xbf -> (b0 = 0xf0 -> 0x90 <= b1) -> (b0 = 0xf4 -> b1 <= 0x8f) ->
    exists u, scalar u /\ utf8_bytes u = [b0; b1; b2; b3]) as H4.
  { intros b0 b1 b2 b3 H0 H1 H4 H5 Ha Hd. exists ((b0 - 0xf0) * 262144 + (b1 - 0x80) * 4096 + (b2 - 0x80) * 64 + (b3 - 0x80)). rewrite scalar_range. split; [lia |]. unfold utf8_bytes.
    compare_all. repeat f_equal; Z.to_euclidean_division_equations; lia. }
  unfold seqs in Hin.
  repeat (apply elem_of_cons in Hin as [-> | Hin]); [.. | by apply elem_of_nil in Hin];
    cbn [tail] in Hf; unfold in_range in Hb; cbn in Hb; [lia | ..];
    repeat match goal with
           | H : Forall2 in_range _ (_ :: _) |- _ => apply Forall2_cons_inv_r in H as (? & ? & ? & H & ->)
           | H : Forall2 in_range _ [] |- _ => apply Forall2_nil_inv_r in H as ->
           | H : in_range _ _ |- _ => unfold in_range in H; cbn in H
           end;
    first [apply H2 | apply H3 | apply H4]; lia.
Qed.

Lemma fits_positive octets bs : octets ∈ seqs -> Forall2 in_range bs (tail octets) -> Forall (λ b, 0 < b) bs.
Proof.
  intros Hin Hf. assert (Forall (λ r : Z * Z, 0 < r.1) (tail octets)) as Hp.
  { unfold seqs in Hin. by repeat (apply elem_of_cons in Hin as [-> | Hin]; [by repeat constructor |]); apply elem_of_nil in Hin. }
  induction Hf as [| b r bs rs [Hr _] _ IH]; [constructor |]. apply Forall_cons in Hp as [H1 H2]. constructor; [lia | by apply IH].
Qed.

Lemma validate_inv fuel s n m :
  (length s <= fuel)%nat -> Forall (λ c, c <> NUL) s -> validate_loop fuel s n = inl m ->
  exists us, Forall scalar us /\ s = concat (List.map utf8 us) /\ m = (n + length us)%nat.
Proof.
  revert s n. induction fuel as [| fuel IH]; intros s n Hl Hs H.
  { destruct s; [| cbn in Hl; lia]. injection H as <-. exists []. split; [constructor |]. split; [done | cbn; lia]. }
  destruct s as [| c s]; cbn [validate_loop length] in *.
  { injection H as <-. exists []. split; [constructor |]. split; [done | cbn; lia]. }
  assert (forall u rest, scalar u -> c :: s = utf8 u ++ rest -> (length rest <= fuel)%nat -> Forall (λ c, c <> NUL) rest ->
    validate_loop fuel rest (S n) = inl m ->
    exists us, Forall scalar us /\ c :: s = concat (List.map utf8 us) /\ m = (n + length us)%nat) as Hstep.
  { intros u rest Hu -> Hr Hn Hv. destruct (IH rest (S n) Hr Hn Hv) as (us & Hus & -> & ->). exists (u :: us).
    split; [by constructor |]. split; [done | cbn; lia]. }
  pose proof (code_range c) as Hc. pose proof Hs as [Hc0 Hs']%Forall_cons.
  destruct (Z.ltb_spec (code c) 0x80) as [Hlt | Hge].
  - assert (code c <> 0) as Hnz. { intros E. apply Hc0. by rewrite <- (chr_code c), E. }
    apply (Hstep (code c) s); [apply scalar_range; lia | | lia | done | done].
    rewrite utf8_arith by lia. unfold utf8_bytes. compare_all. cbn. by rewrite chr_code.
  - destruct (lookup_utf8_sequence (code c)) as [octets |] eqn:Ho; [| done].
    destruct (check_octets _ _ _) as [k |] eqn:Ek; [| done]. apply check_octets_inv in Ek as [-> Hf].
    destruct (bytes_scalar _ _ _ Ho Hf Hge) as (u & Hu & Eu).
    assert (c :: s = utf8 u ++ drop (1 + length (tail octets)) (c :: s)) as E.
    { rewrite utf8_arith, Eu by (destruct Hu; lia). apply (take_codes (1 + length (tail octets)) (c :: s)).
      cbn [Nat.add seq List.map]. constructor; [cbn [drop hd_char]; lia |]. apply (fits_positive octets); [| done].
      by apply lookup_inv in Ho as [Ho _]. }
    apply (Hstep u _ Hu E); [| | done].
    + rewrite length_drop. cbn [length]. lia.
    + by apply Forall_drop.
Qed.

(** ** Lengths and surrogate pairs *)

Lemma continuation_byte b : 0 <= b < 256 -> (Z.land b 0xc0 =? 0x80) = (0x80 <=? b) && (b <? 0xc0).
Proof.
  intros Hb. assert (forallb (λ b, Bool.eqb (Z.land b 0xc0 =? 0x80) ((0x80 <=? b) && (b <? 0xc0))) (List.map Z.of_nat (seq 0 256)) = true)
    as H by by vm_compute.
  rewrite forallb_forall in H. apply Bool.eqb_true_iff, H, in_map_iff. exists (Z.to_nat b). split; [lia | apply in_seq; lia].
Qed.

Lemma utf8_length_app a b : utf8_length (a ++ b) = (utf8_length a + utf8_length b)%nat.
Proof. unfold utf8_length. by rewrite List.filter_app, length_app. Qed.

Lemma utf8_length_tail bs : Forall (λ b, 0x80 <= b < 0xc0) bs -> utf8_length (List.map chr bs) = 0%nat.
Proof.
  unfold utf8_length. induction 1 as [| b bs Hb _ IH]; [done |]. cbn [List.map List.filter].
  rewrite code_chr, continuation_byte by lia. by compare_all.
Qed.

Lemma utf8_length_char u : scalar u -> utf8_length (utf8 u) = 1%nat.
Proof.
  intros Hs. pose proof Hs as [Hr _]. rewrite utf8_arith by lia. destruct (Z.lt_ge_cases u 0x80).
  - unfold utf8_bytes, utf8_length. destruct (Z.leb_spec u 0x7f); [| lia]. cbn [List.map List.filter].
    rewrite code_chr, continuation_byte by lia. by compare_all.
  - destruct (bytes_fit u Hs ltac:(done)) as (b & bs & octets & -> & Hb & Ho & _ & Hbs).
    change (List.map chr (b :: bs)) with ([chr b] ++ List.map chr bs). rewrite utf8_length_app, utf8_length_tail by done.
    assert (0xc0 <= b) as Hge.
    { apply lookup_inv in Ho as [Hin Hf]. unfold seqs in Hin.
      by repeat (apply elem_of_cons in Hin as [-> | Hin]; [unfold in_range in Hf; cbn in Hf; lia |]); apply elem_of_nil in Hin. }
    unfold utf8_length. cbn [List.filter]. rewrite code_chr, continuation_byte by lia. by compare_all.
Qed.

Lemma encoded_lengths us :
  Forall scalar us ->
  utf8_length (concat (List.map utf8 us)) = length us /\ (length us <= length (concat (List.map utf8 us)))%nat.
Proof.
  induction 1 as [| u us Hu _ [IH1 IH2]]; [done |]. cbn [List.map concat length].
  rewrite utf8_length_app, utf8_length_char, IH1, length_app by done. split; [done |].
  assert (utf8 u <> []); [| destruct (utf8 u); [done | cbn; lia]].
  intros E. pose proof (utf8_length_char u Hu) as H. by rewrite E in H.
Qed.

Lemma lor_shift a b k : 0 <= k -> 0 <= b < 2 ^ k -> Z.lor (Z.shiftl a k) b = a * 2 ^ k + b.
Proof.
  intros Hk Hb. rewrite <- (Z.shiftl_mul_pow2 a k Hk), <- Z.add_lor_land.
  assert (Z.land (Z.shiftl a k) b = 0) as ->; [| lia]. apply Z.bits_inj'. intros n Hn.
  rewrite Z.land_spec, Z.shiftl_spec, Z.bits_0 by done. destruct (Z.lt_ge_cases n k).
  - by rewrite (Z.testbit_neg_r a) by lia.
  - rewrite <- (Z.mod_small b (2 ^ k)), Z.mod_pow2_bits_high by lia. apply andb_false_r.
Qed.

(** The surrogates of a code point beyond 16 bits. *)
Definition leading_surrogate (c : Z) : Z := 0xd800 + (c - 0x10000) / 1024.
Definition trailing_surrogate (c : Z) : Z := 0xdc00 + (c - 0x10000) mod 1024.

Lemma decode_surrogates c :
  0x10000 <= c <= 0x10ffff ->
  uc_is_leading_surrogate (leading_surrogate c) = true /\ uc_is_trailing_surrogate (trailing_surrogate c) = true /\
  utf16_decode_surrogate_pair (leading_surrogate c) (trailing_surrogate c) = c.
Proof.
  intros Hc. unfold leading_surrogate, trailing_surrogate. set (h := (c - 0x10000) / 1024). set (t := (c - 0x10000) mod 1024).
  assert (0 <= h < 1024 /\ 0 <= t < 1024 /\ c = 0x10000 + h * 1024 + t) as (Hh & Ht & Ec)
    by (unfold h, t; Z.to_euclidean_division_equations; lia).
  clearbody h t. unfold uc_is_leading_surrogate, uc_is_trailing_surrogate. split; [compare_all; done |]. split; [compare_all; done |].
  unfold utf16_decode_surrogate_pair. rewrite Z.shiftr_div_pow2, (land_mod _ 4), (land_mod _ 6), (land_mod _ 10) by lia.
  change (2 ^ 6) with 64. change (2 ^ 4) with 16. change (2 ^ 10) with 1024.
  assert ((0xd800 + h) / 64 mod 16 = h / 64) as -> by (Z.to_euclidean_division_equations; lia).
  assert ((0xd800 + h) mod 64 = h mod 64) as -> by (Z.to_euclidean_division_equations; lia).
  assert ((0xdc00 + t) mod 1024 = t) as -> by (Z.to_euclidean_division_equations; lia).
  rewrite (Z.shiftl_mul_pow2 (h mod 64)), (lor_shift _ _ 16) by (try lia; Z.to_euclidean_division_equations; lia).
  replace ((h / 64 + 1) * 2 ^ 16 + h mod 64 * 2 ^ 10) with (Z.shiftl (64 + h) 10).
  - rewrite lor_shift by lia. lia.
  - rewrite Z.shiftl_mul_pow2 by lia. Z.to_euclidean_division_equations; lia.
Qed.

(** Validation of UTF-8 is exact: a string is accepted, as [n] characters, exactly when it is
    the encoding of [n] code points, none of them null or a surrogate; then [utf8_length] is [n]
    as well.  A pair of escaped surrogates decodes to the code point that it stands for, so that
    what the encoder writes for it is valid. *)
Theorem utf8_validate_exact s n :
  Forall (λ c, c <> NUL) s ->
  (utf8_validate s = inl n <->
   exists us, Forall scalar us /\ s = concat (List.map utf8 us) /\ n = length us /\ utf8_length s = n) /\
  (forall c, 0x10000 <= c <= 0x10ffff ->
     utf8_validate (utf8 (utf16_decode_surrogate_pair (leading_surrogate c) (trailing_surrogate c))) = inl 1%nat).
Proof.
  intros Hs. assert (forall us, Forall scalar us -> utf8_validate (concat (List.map utf8 us)) = inl (length us)) as Henc.
  { intros us Hus. unfold utf8_validate. by rewrite validate_encoded by (first [done | by apply encoded_lengths]). }
  split.
  - split.
    + intros H. destruct (validate_inv (length s) s 0 n ltac:(lia) Hs H) as (us & Hus & -> & ->). exists us.
      split; [done |]. split; [done |]. split; [done |]. by apply encoded_lengths.
    + intros (us & Hus & -> & -> & _). by apply Henc.
  - intros c Hc. destruct (decode_surrogates c Hc) as (_ & _ & ->). rewrite <- (app_nil_r (utf8 c)).
    apply (Henc [c]). apply Forall_singleton. apply scalar_range. lia.
Qed.

Lemma utf8_validate_exact_witness : utf8_validate (utf8 0x20ac ++ str "a") = inl 2%nat.
Proof.
  apply (utf8_validate_exact (utf8 0x20ac ++ str "a") 2); [by repeat constructor |].
  exists [0x20ac; 97]. split; [| done]. apply Forall_cons_2; [by vm_compute |]. by apply Forall_singleton; vm_compute.
Defined.

(** The encoder does not check for surrogates. *)
Lemma surrogate_is_invalid : utf8_validate (utf8 0xdc00) = inr (str "invalid UTF-8 sequence 0xed 0xb0").
Proof. by vm_compute. Qed.

End Unicode.
