(* ===== verification/Json.v ===== *)
(** JSON values, their parser and their serializer (lib/json.c), with the conversions of
    lib/util.c that they use.  Reference
    counts are left out: a value is a tree.  Objects are tables of names (lib/shash.c) over any
    hash table. *)
From stdpp Require Import gmap sorting.
From S2P Require Import Prelude Text Unicode Containers Shash.

(** Floating-point numbers are the C library's: conversion from and to text, comparison. *)
Variant errno := NO_ERROR | EINVAL | ERANGE.

Class Double (R : Type) := {
  (** The number, the length of the text that it was read from, and [errno]. *)
  strtod : chars -> R * nat * errno;
  double_zero : R;
  double_eqb : R -> R -> bool;
  double_of_integer : Z -> R;
  (** printf("%.*g", DBL_DIG, d) *)
  format_g : R -> chars;
}.

Module Json.
Export Unicode Shash.

(** ** Conversions *)

Definition ULLONG_MAX : Z := 2 ^ 64 - 1.
Definition INT_MIN : Z := - 2 ^ 31.

Definition isalpha (c : ascii) : bool :=
  let c := code c in ((65 <=? c) && (c <=? 90)) || ((97 <=? c) && (c <=? 122)).
Definition islower (c : ascii) : bool := let c := code c in (97 <=? c) && (c <=? 122).
Definition isprint (c : ascii) : bool := let c := code c in (32 <=? c) && (c <=? 126).

(** A buffer as a C string. *)
Definition cstr (s : chars) : chars := (span (λ c, negb (c =c NUL)) s).1.

(** printf("%lld") *)
Definition print_int (x : Z) : chars :=
  if x <? 0 then "-"%char :: print_uint 10 (- x) else print_uint 10 x.

(** printf("%04x"), printf("%04X") of 16 bits *)
Definition print_hex4 (x : Z) : chars :=
  List.map (λ i, digit_char (Z.land (Z.shiftr x i) 0xf)) [12; 8; 4; 0].
Definition toupper (c : ascii) : ascii := if islower c then chr (code c - 32) else c.

(** [None] is a failed conversion. *)
Definition str_to_double {R} {D : Double R} (s : chars) : option R :=
  let '(d, n, errno) := strtod s in
  if match errno with
     | EINVAL => true
     | ERANGE => negb (double_eqb d double_zero)
     | NO_ERROR => false
     end || (n =? 0)%nat || negb (hd_char (drop n s) =c NUL)
  then None else Some d.

Definition hexits_value (s : chars) : option Z :=
  foldl (λ value c, value ← value; let hexit := hexit_value c in
           if hexit <? 0 then None else Some (u64 (u64 (Z.shiftl value 4) + hexit))) (Some 0) s.

(** ** Values *)

Inductive json {T R : Type} :=
  | JSON_NULL
  | JSON_FALSE
  | JSON_TRUE
  | JSON_OBJECT (object : shash T json)
  | JSON_ARRAY (elems : list json)
  | JSON_INTEGER (integer : Z)
  | JSON_REAL (real : R)
  | JSON_STRING (string : chars).
Arguments json : clear implicits.

Inductive json_token {R : Type} :=
  | T_EOF
  | T_BEGIN_ARRAY | T_END_ARRAY | T_BEGIN_OBJECT | T_END_OBJECT | T_NAME_SEPARATOR | T_VALUE_SEPARATOR
  | T_FALSE | T_NULL | T_TRUE
  | T_INTEGER (integer : Z) | T_REAL (real : R) | T_STRING (string : chars).
Arguments json_token : clear implicits.

(** ** Numbers *)

Section numbers.
Context {R : Type} {D : Double R}.

(** The significand, the power of ten and whether a digit was lost, and the rest. *)
Fixpoint int_digits (significand pow10 : Z) (imprecise : bool) (cp : chars) : Z * Z * bool * chars :=
  match cp with
  | c :: cp' =>
      if isdigit c then
        if significand <=? ULLONG_MAX / 10 then
          int_digits (u64 (significand * 10 + (code c - 48))) pow10 imprecise cp'
        else int_digits significand (pow10 + 1) (imprecise || negb (c =c "0")) cp'
      else (significand, pow10, imprecise, cp)
  | [] => (significand, pow10, imprecise, cp)
  end.

Fixpoint frac_digits (significand pow10 : Z) (imprecise : bool) (cp : chars) : Z * Z * bool * chars :=
  match cp with
  | c :: cp' =>
      if isdigit c then
        if significand <=? ULLONG_MAX / 10 then
          frac_digits (u64 (significand * 10 + (code c - 48))) (pow10 - 1) imprecise cp'
        else frac_digits significand pow10 (imprecise || negb (c =c "0")) cp'
      else (significand, pow10, imprecise, cp)
  | [] => (significand, pow10, imprecise, cp)
  end.

(** [None] is [goto bad_exponent]. *)
Fixpoint exp_digits (exponent : Z) (cp : chars) : option (Z * chars) :=
  match cp with
  | c :: cp' =>
      if isdigit c then
        if exponent >=? INT_MAX / 10 then None else exp_digits (exponent * 10 + (code c - 48)) cp'
      else Some (exponent, cp)
  | [] => Some (exponent, cp)
  end.

(** A significand other than 0 passes ULLONG_MAX / 10 after 19 rounds. *)
Fixpoint scale_up (fuel : nat) (significand pow10 : Z) : Z * Z :=
  match fuel with
  | O => (significand, pow10)
  | S fuel =>
      if (pow10 >? 0) && (significand <? ULLONG_MAX / 10) then scale_up fuel (significand * 10) (pow10 - 1)
      else (significand, pow10)
  end.

Fixpoint scale_down (fuel : nat) (significand pow10 : Z) : Z * Z :=
  match fuel with
  | O => (significand, pow10)
  | S fuel =>
      if (pow10 <? 0) && (significand mod 10 =? 0) then scale_down fuel (significand / 10) (pow10 + 1)
      else (significand, pow10)
  end.

(** The integer that a decimal number denotes, if it is one and fits. *)
Definition integer_value (negative : bool) (significand pow10 : Z) (imprecise : bool) : option Z :=
  if negb imprecise then
    let '(significand, pow10) := scale_up 20 significand pow10 in
    let '(significand, pow10) := scale_down 20 significand pow10 in
    if (pow10 =? 0) && (significand <=? (if negative then LLONG_MAX + 1 else LLONG_MAX)) then
      Some (s64 (if negative then u64 (- significand) else significand))
    else None
  else None.

(** The optional fraction; [inr], here and below, is the message of an error. *)
Definition lex_fraction (significand pow10 : Z) (imprecise : bool) (cp : chars) : Z * Z * bool * chars + chars :=
  if hd_char cp =c "." then
    let cp := tail cp in
    if negb (isdigit (hd_char cp)) then inr (str "decimal point must be followed by digit")
    else inl (frac_digits significand pow10 imprecise cp)
  else inl (significand, pow10, imprecise, cp).

(** The optional exponent, added to the power of ten. *)
Definition lex_exponent (pow10 : Z) (cp : chars) : Z * chars + chars :=
  if (hd_char cp =c "e") || (hd_char cp =c "E") then
    let cp := tail cp in
    let negative_exponent := hd_char cp =c "-" in
    let cp := if (hd_char cp =c "+") || negative_exponent then tail cp else cp in
    if negb (isdigit (hd_char cp)) then inr (str "exponent must contain at least one digit")
    else
      match exp_digits 0 cp with
      | None => inr (str "exponent outside valid range")
      | Some (exponent, cp) =>
          if negative_exponent then
            if pow10 <? INT_MIN + exponent then inr (str "exponent outside valid range")
            else inl (pow10 - exponent, cp)
          else if pow10 >? INT_MAX - exponent then inr (str "exponent outside valid range")
          else inl (pow10 + exponent, cp)
      end
  else inl (pow10, cp).

(** The token of a number whose digits have been read; [cp] is what follows them. *)
Definition lex_value (buffer : chars) (negative : bool) (significand pow10 : Z) (imprecise : bool) (cp : chars)
    : json_token R + chars :=
  if negb (hd_char cp =c NUL) then inr (str "syntax error in number")
  else if significand =? 0 then inl (T_INTEGER 0)
  else
    match integer_value negative significand pow10 imprecise with
    | Some integer => inl (T_INTEGER integer)
    | None =>
        match str_to_double (cstr buffer) with
        | None => inr (str "number outside valid range")
        | Some d => inl (T_REAL (if double_eqb d double_zero then double_zero else d))
        end
    end.

(** What follows the digits before the decimal point. *)
Definition lex_rest (buffer : chars) (negative : bool) (significand pow10 : Z) (imprecise : bool) (cp : chars)
    : json_token R + chars :=
  match lex_fraction significand pow10 imprecise cp with
  | inr error => inr error
  | inl (significand, pow10, imprecise, cp) =>
      match lex_exponent pow10 cp with
      | inr error => inr error
      | inl (pow10, cp) => lex_value buffer negative significand pow10 imprecise cp
      end
  end.

Definition json_lex_number (buffer : chars) : json_token R + chars :=
  let cp := cstr buffer in
  let negative := hd_char cp =c "-" in
  let cp := if negative then tail cp else cp in
  if hd_char cp =c "0" then
    let cp := tail cp in
    if isdigit (hd_char cp) then inr (str "leading zeros not allowed")
    else lex_rest buffer negative 0 0 false cp
  else if isdigit (hd_char cp) then
    let '(significand, pow10, imprecise, cp) := int_digits 0 0 false cp in
    lex_rest buffer negative significand pow10 imprecise cp
  else inr (str "'-' must be followed by digit").

End numbers.

(** ** Strings *)

(** The value, or the message of an error. *)
Definition json_lex_4hex (cp : chars) : Z + chars :=
  if (length cp <? 4)%nat then inr (str "quoted string ends within \u escape")
  else
    match hexits_value (take 4 cp) with
    | None => inr (str "malformed \u escape")
    | Some value =>
        if value =? 0 then inr (str "null bytes not supported in quoted strings") else inl value
    end.

(** The rest of the string and the output, or the message of an error. *)
Definition json_lex_unicode (cp out : chars) : chars * chars + chars :=
  match json_lex_4hex cp with
  | inr error => inr error
  | inl c0 =>
      let cp := drop 4 cp in
      if negb (uc_is_leading_surrogate c0) then inl (cp, out ++ utf8 c0)
      else if (length cp <? 2)%nat || negb (hd_char cp =c "\") || negb (hd_char (tail cp) =c "u") then
        inr (str "malformed escaped surrogate pair")
      else
        let cp := drop 2 cp in
        match json_lex_4hex cp with
        | inr error => inr error
        | inl c1 =>
            let cp := drop 4 cp in
            if negb (uc_is_trailing_surrogate c1) then
              inr (str "second half of escaped surrogate pair is not trailing surrogate")
            else inl (cp, out ++ utf8 (utf16_decode_surrogate_pair c0 c1))
        end
  end.

(** The character of a one-letter escape. *)
Definition escape_char (c : ascii) : option ascii :=
  if (c =c chr 34) || (c =c "\") || (c =c "/") then Some c
  else if c =c "b" then Some (chr 8)
  else if c =c "f" then Some (chr 12)
  else if c =c "n" then Some (chr 10)
  else if c =c "r" then Some (chr 13)
  else if c =c "t" then Some (chr 9)
  else None.

(** Each round consumes a character, so that the length of the input is enough fuel. *)
Fixpoint unescape_loop (fuel : nat) (cin out : chars) : bool * chars :=
  match fuel, cin with
  | S fuel, c :: cin =>
      if c =c chr 34 then (false, str "quoted string may not include unescaped " ++ [chr 34])
      else if negb (c =c "\") then unescape_loop fuel cin (out ++ [c])
      else
        match cin with
        | [] => (false, str "quoted string may not end with backslash")
        | c :: cin =>
            match escape_char c with
            | Some e => unescape_loop fuel cin (out ++ [e])
            | None =>
                if c =c "u" then
                  match json_lex_unicode cin out with
                  | inl (cin, out) => unescape_loop fuel cin out
                  | inr error => (false, error)
                  end
                else (false, str "bad escape \" ++ [c])
            end
        end
  | _, _ => (true, out)
  end.

(** Whether the string was valid, and the string or the message of an error. *)
Definition json_string_unescape (cin : chars) : bool * chars := unescape_loop (length cin) cin [].

(** ** The parser *)

Inductive json_lex_state :=
  | JSON_LEX_START | JSON_LEX_NUMBER | JSON_LEX_KEYWORD | JSON_LEX_STRING | JSON_LEX_ESCAPE.

Inductive json_parse_state :=
  | JSON_PARSE_START | JSON_PARSE_END
  | JSON_PARSE_OBJECT_INIT | JSON_PARSE_OBJECT_NAME | JSON_PARSE_OBJECT_COLON
  | JSON_PARSE_OBJECT_VALUE | JSON_PARSE_OBJECT_NEXT
  | JSON_PARSE_ARRAY_INIT | JSON_PARSE_ARRAY_VALUE | JSON_PARSE_ARRAY_NEXT.

#[export] Instance json_parse_state_eq_dec : EqDecision json_parse_state.
Proof. solve_decision. Defined.

(** Pointers to values that are part of another value are paths: the values on the stack are
    parts of the one at its bottom, which is [tree]; [stack] has the paths to them, top first. *)
Record json_parser {T R : Type} := mk_parser {
  flags : Z;
  lex_state : json_lex_state;
  buffer : chars;
  line_number : Z;
  column_number : Z;
  byte_number : Z;
  parse_state : json_parse_state;
  tree : json T R;
  stack : list (list nat);
  member_name : option chars;
  done : bool;
  error : option chars;
}.
Arguments json_parser : clear implicits.

#[export] Instance json_parser_eta {T R} : RecordEta (json_parser T R) := λ r,
  mk_parser T R (flags r) (lex_state r) (buffer r) (line_number r) (column_number r) (byte_number r)
    (parse_state r) (tree r) (stack r) (member_name r) (done r) (error r).

Definition JSPF_TRAILER : Z := 1.
Definition JSON_MAX_HEIGHT : Z := 1000.

Section values.
Context {T R : Type} {HT : HashTable T}.
Context (hash_string : chars -> Z -> Z).

Implicit Types (j value : json T R).

Definition json_object_create : json T R := JSON_OBJECT shash_init.
Definition json_array_create_empty : json T R := JSON_ARRAY [].

(** The accessors assert the type of the value. *)
Definition json_string j : option chars := if j is JSON_STRING s then Some s else None.
Definition json_array j : option (list (json T R)) := if j is JSON_ARRAY l then Some l else None.
Definition json_object j : option (shash T (json T R)) := if j is JSON_OBJECT o then Some o else None.
Definition json_boolean j : option bool :=
  match j with JSON_TRUE => Some true | JSON_FALSE => Some false | _ => None end.
Definition json_integer j : option Z := if j is JSON_INTEGER x then Some x else None.
Definition json_real {D : Double R} j : option R :=
  match j with JSON_REAL d => Some d | JSON_INTEGER x => Some (double_of_integer x) | _ => None end.

Definition json_object_put (object : shash T (json T R)) (name : chars) value : shash T (json T R) :=
  (shash_replace hash_string name value object).2.

(** The place of a member in the nodes of an object, the next one for a new member. *)
Definition member_place (object : shash T (json T R)) (name : chars) : nat :=
  default (length (nodes object)) (shash_find hash_string object name).

(** ** Places in a value *)

Definition child (i : nat) j : option (json T R) :=
  match j with
  | JSON_OBJECT object => node_data object i
  | JSON_ARRAY elems => elems !! i
  | _ => None
  end.

Definition alter_child (i : nat) (f : json T R -> json T R) j : json T R :=
  match j with
  | JSON_OBJECT object => JSON_OBJECT (object <| nodes ::= alter (λ kv, (kv.1, f kv.2)) i |>)
  | JSON_ARRAY elems => JSON_ARRAY (alter f i elems)
  | _ => j
  end.

Definition get_at (path : list nat) j : option (json T R) :=
  foldl (λ oj i, j ← oj; child i j) (Some j) path.

Fixpoint alter_at (path : list nat) (f : json T R -> json T R) j : json T R :=
  match path with
  | [] => f j
  | i :: path => alter_child i (alter_at path f) j
  end.

(** ** Operations of the parser *)

Abbreviation parser := (json_parser T R).
Implicit Types (p : parser) (c : ascii) (token : json_token R).

Definition json_error p (message : chars) : parser :=
  match error p with
  | Some _ => p
  | None =>
      p <| error := Some (str "line " ++ print_int (line_number p) ++ str ", column " ++
                          print_int (column_number p) ++ str ", byte " ++ print_int (byte_number p) ++
                          str ": " ++ message) |>
        <| done := true |>
  end.

Definition height p : Z := Z.of_nat (length (stack p)).

(** The path of the value on top of the stack; [None] if there is none. *)
Definition json_parser_top p : option (list nat) := head (stack p).

Definition top_value p : option (json T R) := path ← json_parser_top p; get_at path (tree p).

(** The parser and the place of the value in the one on top of the stack.  [None], here and
    below, is a failed assertion or the use of a null pointer. *)
Definition json_parser_put_value p value : option (nat * parser) :=
  path ← json_parser_top p;
  node ← get_at path (tree p);
  match node with
  | JSON_OBJECT object =>
      name ← member_name p;
      Some (member_place object name,
            p <| tree ::= alter_at path (λ _, JSON_OBJECT (json_object_put object name value)) |>
              <| member_name := None |>)
  | JSON_ARRAY elems =>
      Some (length elems, p <| tree ::= alter_at path (λ _, JSON_ARRAY (elems ++ [value])) |>)
  | _ => None
  end.

Definition json_parser_push p (new_json : json T R) (new_state : json_parse_state) : option parser :=
  if height p <? JSON_MAX_HEIGHT then
    match stack p with
    | path :: _ =>
        '(i, p) ← json_parser_put_value p new_json;
        Some (p <| stack ::= cons (path ++ [i]) |> <| parse_state := new_state |>)
    | [] => Some (p <| tree := new_json |> <| stack := [[]] |> <| parse_state := new_state |>)
    end
  else Some (json_error p (str "input exceeds maximum nesting depth " ++ print_int JSON_MAX_HEIGHT)).

Definition json_parser_push_object p : option parser :=
  json_parser_push p json_object_create JSON_PARSE_OBJECT_INIT.

Definition json_parser_push_array p : option parser :=
  json_parser_push p json_array_create_empty JSON_PARSE_ARRAY_INIT.

Definition json_parse_value p token (next_state : json_parse_state) : option parser :=
  let scalar value :=
    '(_, p) ← json_parser_put_value p value; Some (p <| parse_state := next_state |>) in
  match token with
  | T_FALSE => scalar JSON_FALSE
  | T_NULL => scalar JSON_NULL
  | T_TRUE => scalar JSON_TRUE
  | T_BEGIN_OBJECT => json_parser_push_object p
  | T_BEGIN_ARRAY => json_parser_push_array p
  | T_INTEGER integer => scalar (JSON_INTEGER integer)
  | T_REAL real => scalar (JSON_REAL real)
  | T_STRING string => scalar (JSON_STRING string)
  | _ => Some (json_error p (str "syntax error expecting value"))
  end.

Definition json_parser_pop p : option parser :=
  _ ← top_value p;
  match stack p with
  | [_] =>
      let p := p <| parse_state := JSON_PARSE_END |> in
      Some (if Z.land (flags p) JSPF_TRAILER =? 0 then p <| done := true |> else p)
  | _ =>
      let p := p <| stack ::= tail |> in
      node ← top_value p;
      match node with
      | JSON_ARRAY _ => Some (p <| parse_state := JSON_PARSE_ARRAY_NEXT |>)
      | JSON_OBJECT _ => Some (p <| parse_state := JSON_PARSE_OBJECT_NEXT |>)
      | _ => None
      end
  end.

Definition parse_object_name p token : option parser :=
  match token with
  | T_STRING string =>
      Some (p <| member_name := Some string |> <| parse_state := JSON_PARSE_OBJECT_COLON |>)
  | _ => Some (json_error p (str "syntax error parsing object expecting string"))
  end.

Definition json_parser_input p token : option parser :=
  p ← match parse_state p with
      | JSON_PARSE_START =>
          match token with
          | T_BEGIN_OBJECT => json_parser_push_object p
          | T_BEGIN_ARRAY => json_parser_push_array p
          | _ => Some (json_error p (str "syntax error at beginning of input"))
          end
      | JSON_PARSE_END => Some (json_error p (str "trailing garbage at end of input"))
      | JSON_PARSE_OBJECT_INIT =>
          match token with T_END_OBJECT => json_parser_pop p | _ => parse_object_name p token end
      | JSON_PARSE_OBJECT_NAME => parse_object_name p token
      | JSON_PARSE_OBJECT_COLON =>
          match token with
          | T_NAME_SEPARATOR => Some (p <| parse_state := JSON_PARSE_OBJECT_VALUE |>)
          | _ => Some (json_error p (str "syntax error parsing object expecting ':'"))
          end
      | JSON_PARSE_OBJECT_VALUE => json_parse_value p token JSON_PARSE_OBJECT_NEXT
      | JSON_PARSE_OBJECT_NEXT =>
          match token with
          | T_VALUE_SEPARATOR => Some (p <| parse_state := JSON_PARSE_OBJECT_NAME |>)
          | T_END_OBJECT => json_parser_pop p
          | _ => Some (json_error p (str "syntax error expecting '}' or ','"))
          end
      | JSON_PARSE_ARRAY_INIT =>
          match token with
          | T_END_ARRAY => json_parser_pop p
          | _ => json_parse_value p token JSON_PARSE_ARRAY_NEXT
          end
      | JSON_PARSE_ARRAY_VALUE => json_parse_value p token JSON_PARSE_ARRAY_NEXT
      | JSON_PARSE_ARRAY_NEXT =>
          match token with
          | T_VALUE_SEPARATOR => Some (p <| parse_state := JSON_PARSE_ARRAY_VALUE |>)
          | T_END_ARRAY => json_parser_pop p
          | _ => Some (json_error p (str "syntax error expecting ']' or ','"))
          end
      end;
  Some (p <| lex_state := JSON_LEX_START |> <| buffer := [] |>).

(** ** The lexer *)

Context {D : Double R}.

Definition json_lex_keyword p : option parser :=
  let s := cstr (buffer p) in
  if bool_decide (s = str "false") then json_parser_input p T_FALSE
  else if bool_decide (s = str "true") then json_parser_input p T_TRUE
  else if bool_decide (s = str "null") then json_parser_input p T_NULL
  else Some (json_error p (str "invalid keyword '" ++ s ++ str "'")).

Definition lex_number p : option parser :=
  match json_lex_number (buffer p) with
  | inl token => json_parser_input p token
  | inr message => Some (json_error p message)
  end.

Definition json_parser_input_string p (s : chars) : option parser := json_parser_input p (T_STRING s).

Definition json_lex_string p : option parser :=
  let raw := cstr (buffer p) in
  if negb (existsb (λ c, c =c "\") raw) then json_parser_input_string p raw
  else
    let '(ok, cooked) := json_string_unescape raw in
    if ok then json_parser_input_string p (cstr cooked) else Some (json_error p (cstr cooked)).

(** The token of a character that is one. *)
Definition punctuation c : option (json_token R) :=
  if c =c "[" then Some T_BEGIN_ARRAY
  else if c =c "{" then Some T_BEGIN_OBJECT
  else if c =c "]" then Some T_END_ARRAY
  else if c =c "}" then Some T_END_OBJECT
  else if c =c ":" then Some T_NAME_SEPARATOR
  else if c =c "," then Some T_VALUE_SEPARATOR
  else None.

(** Whether the character was used, and the parser. *)
Definition json_lex_input p c : option (bool * parser) :=
  let put p := Some (true, p <| buffer ::= λ b, b ++ [c] |>) in
  match lex_state p with
  | JSON_LEX_START =>
      if (c =c " ") || (code c =? 9) || (code c =? 10) || (code c =? 13) then Some (true, p)
      else if islower c then put (p <| lex_state := JSON_LEX_KEYWORD |>)
      else
        match punctuation c with
        | Some token => p ← json_parser_input p token; Some (true, p)
        | None =>
            if (c =c "-") || isdigit c then put (p <| lex_state := JSON_LEX_NUMBER |>)
            else if c =c chr 34 then Some (true, p <| lex_state := JSON_LEX_STRING |>)
            else if isprint c then Some (true, json_error p (str "invalid character '" ++ [c] ++ str "'"))
            else Some (true, json_error p (str "invalid character U+" ++ print_hex4 (code c)))
        end
  | JSON_LEX_KEYWORD =>
      if negb (isalpha c) then p ← json_lex_keyword p; Some (false, p) else put p
  | JSON_LEX_NUMBER =>
      if negb (strchr (str ".0123456789eE-+") c) then p ← lex_number p; Some (false, p) else put p
  | JSON_LEX_STRING =>
      if c =c "\" then put (p <| lex_state := JSON_LEX_ESCAPE |>)
      else if c =c chr 34 then p ← json_lex_string p; Some (true, p)
      else if code c <? 0x20 then
        Some (true, json_error p (str "U+" ++ List.map toupper (print_hex4 (code c)) ++
                                  str " must be escaped in quoted string"))
      else put p
  | JSON_LEX_ESCAPE => put (p <| lex_state := JSON_LEX_STRING |>)
  end.

(** ** The interface *)

Definition json_parser_create (flags : Z) : parser :=
  mk_parser T R flags JSON_LEX_START [] 0 0 0 JSON_PARSE_START JSON_NULL [] None false None.

(** Counts a character that was used. *)
Definition advance c p : parser :=
  let p := p <| byte_number ::= Z.succ |> in
  if code c =? 10 then p <| column_number := 0 |> <| line_number ::= Z.succ |>
  else p <| column_number ::= Z.succ |>.

(** A character that is not used is seen once more, so that each takes at most two rounds. *)
Fixpoint feed_loop (fuel : nat) p (input : chars) (i : nat) : option (nat * parser) :=
  match fuel, input with
  | S fuel, c :: input' =>
      if done p then Some (i, p)
      else
        '(used, p) ← json_lex_input p c;
        if used : bool then feed_loop fuel (advance c p) input' (S i) else feed_loop fuel p input i
  | _, _ => Some (i, p)
  end.

Definition json_parser_feed p (input : chars) : option (nat * parser) := feed_loop (2 * length input) p input 0.

Definition json_parser_is_done p : bool := done p.

Definition json_parser_finish p : option (json T R) :=
  p ← match lex_state p with
      | JSON_LEX_START => Some p
      | JSON_LEX_STRING | JSON_LEX_ESCAPE => Some (json_error p (str "unexpected end of input in quoted string"))
      | JSON_LEX_NUMBER | JSON_LEX_KEYWORD => '(_, p) ← json_lex_input p " "; Some p
      end;
  let p :=
    if decide (parse_state p = JSON_PARSE_START) then json_error p (str "empty input stream")
    else if negb (bool_decide (parse_state p = JSON_PARSE_END)) then json_error p (str "unexpected end of input")
    else p in
  match error p with
  | None => if height p =? 1 then Some (tree p) else None
  | Some message => Some (JSON_STRING message)
  end.

Definition json_from_string (string : chars) : option (json T R) :=
  '(_, p) ← json_parser_feed (json_parser_create JSPF_TRAILER) (cstr string);
  json_parser_finish p.

(** Feeds what [fread] returns, until it returns nothing or the parser stops. *)
Fixpoint stream_loop p (reads : list chars) : option parser :=
  match reads with
  | [] | [] :: _ => Some p
  | read :: reads =>
      '(n, p) ← json_parser_feed p read;
      if (n =? length read)%nat then stream_loop p reads else Some p
  end.

(** [ferror] is the message for an error of the stream, if there was one. *)
Definition json_from_stream (reads : list chars) (ferror : option chars) : option (json T R) :=
  p ← stream_loop (json_parser_create JSPF_TRAILER) reads;
  json ← json_parser_finish p;
  Some match ferror with
       | Some strerror => JSON_STRING (str "error reading JSON stream: " ++ strerror)
       | None => json
       end.

(** ** Serialization *)

Context (hash_int : Z -> Z -> Z) (hash_double : R -> Z -> Z).

Definition JSSF_PRETTY : Z := 1.
Definition JSSF_SORT : Z := 2.
Definition SPACES_PER_LEVEL : Z := 2.

Definition has_flag (flags flag : Z) : bool := negb (Z.land flags flag =? 0).

(** The table [chars_escaping]. *)
Definition chars_escaping c : chars :=
  let x := code c in
  if x =? 8 then str "\b"
  else if x =? 9 then str "\t"
  else if x =? 10 then str "\n"
  else if x =? 12 then str "\f"
  else if x =? 13 then str "\r"
  else if x <? 0x20 then str "\u" ++ print_hex4 x
  else if x =? 34 then "\"%char :: [c]
  else if c =c "\" then str "\\"
  else [c].

Definition json_serialize_string (string : chars) : chars :=
  [chr 34] ++ concat (List.map chars_escaping (cstr string)) ++ [chr 34].

Definition indent_line (flags depth : Z) : chars :=
  if has_flag flags JSSF_PRETTY then chr 10 :: replicate (Z.to_nat (SPACES_PER_LEVEL * depth)) " "%char else [].

(** The text of member [i] of an object whose value has the text [text]. *)
Definition json_serialize_object_member (flags depth : Z) (i : nat) (name_text : chars * chars) : chars :=
  (if (i =? 0)%nat then [] else "," :: indent_line flags depth)%char ++
  json_serialize_string name_text.1 ++ [":"%char] ++
  (if has_flag flags JSSF_PRETTY then [" "%char] else []) ++ name_text.2.

Definition json_serialize_element (flags depth : Z) (i : nat) (text : chars) : chars :=
  (if (i =? 0)%nat then [] else "," :: indent_line flags depth)%char ++ text.

(** The text of an object, given the table of the texts of its members' values at the depth
    inside it. *)
Definition json_serialize_object (flags depth : Z) (texts : shash T chars) : chars :=
  let members := if has_flag flags JSSF_SORT then shash_sort texts else shash_nodes texts in
  str "{" ++ indent_line flags (depth + 1) ++
  concat (imap (json_serialize_object_member flags (depth + 1)) members) ++ str "}".

(** The text of an array, given the texts of its elements. *)
Definition json_serialize_array (flags depth : Z) (texts : list chars) : chars :=
  str "[" ++
  (if (0 <? length texts)%nat then
     indent_line flags (depth + 1) ++ concat (imap (json_serialize_element flags (depth + 1)) texts)
   else []) ++ str "]".

(** What [json_serialize] appends at the given depth. *)
Fixpoint json_serialize (flags depth : Z) j : chars :=
  match j with
  | JSON_NULL => str "null"
  | JSON_FALSE => str "false"
  | JSON_TRUE => str "true"
  | JSON_OBJECT object => json_serialize_object flags depth (shash_fmap (json_serialize flags (depth + 1)) object)
  | JSON_ARRAY elems => json_serialize_array flags depth (List.map (json_serialize flags (depth + 1)) elems)
  | JSON_INTEGER integer => print_int integer
  | JSON_REAL real => format_g real
  | JSON_STRING string => json_serialize_string string
  end.

Definition json_to_string j (flags : Z) : chars := json_serialize flags 0 j.

Definition json_string_escape (cin : chars) : chars := json_to_string (JSON_STRING cin) 0.

(** ** Comparison, hashing and copies *)

(** [a] holds, in place of each value, the comparison with it. *)
Definition json_equal_object (a : shash T (json T R -> bool)) (b : shash T (json T R)) : bool :=
  (shash_count a =? shash_count b)
  && forallb (λ a_node : chars * (json T R -> bool),
                match shash_find_data hash_string b a_node.1 with
                | Some b_data => a_node.2 b_data
                | None => false
                end) (shash_nodes a).

Definition json_equal_array (a : list (json T R -> bool)) (b : list (json T R)) : bool :=
  (length a =? length b)%nat && forallb (λ fb : (json T R -> bool) * json T R, fb.1 fb.2) (zip a b).

(** Two values at different addresses. *)
Fixpoint json_equal (a b : json T R) : bool :=
  match a, b with
  | JSON_OBJECT a, JSON_OBJECT b => json_equal_object (shash_fmap json_equal a) b
  | JSON_ARRAY a, JSON_ARRAY b => json_equal_array (List.map json_equal a) b
  | JSON_STRING a, JSON_STRING b => strcmp a b =? 0
  | JSON_NULL, JSON_NULL | JSON_FALSE, JSON_FALSE | JSON_TRUE, JSON_TRUE => true
  | JSON_INTEGER a, JSON_INTEGER b => a =? b
  | JSON_REAL a, JSON_REAL b => double_eqb a b
  | _, _ => false
  end.

(** The values in place of which their hash functions stand. *)
Definition json_hash_object (object : shash T (Z -> Z)) (basis : Z) : Z :=
  foldl (λ basis (node : chars * (Z -> Z)), node.2 (hash_string node.1 basis)) basis (shash_sort object).

Definition json_hash_array (elems : list (Z -> Z)) (basis : Z) : Z :=
  foldl (λ basis (hash : Z -> Z), hash basis) (hash_int (u32 (Z.of_nat (length elems))) basis) elems.

Fixpoint json_hash j (basis : Z) : Z :=
  match j with
  | JSON_OBJECT object => json_hash_object (shash_fmap json_hash object) basis
  | JSON_ARRAY elems => json_hash_array (List.map json_hash elems) basis
  | JSON_STRING string => hash_string string basis
  | JSON_NULL => hash_int (Z.shiftl 0 8) basis
  | JSON_FALSE => hash_int (Z.shiftl 1 8) basis
  | JSON_TRUE => hash_int (Z.shiftl 2 8) basis
  | JSON_INTEGER integer => hash_int (u32 integer) basis
  | JSON_REAL real => hash_double real basis
  end.

(** The values of the members are shared with the original. *)
Definition json_clone_object (object : shash T (json T R)) : json T R :=
  JSON_OBJECT (foldl (λ o node, json_object_put o node.1 node.2) shash_init (shash_nodes object)).

Definition json_deep_clone j : json T R :=
  match j with
  | JSON_OBJECT object => json_clone_object object
  | _ => j
  end.

End values.
End Json.
