(* ===== verification/JsonLex.v ===== *)
(** Tokens of JSON text: the lexer reads back the numbers and strings that the serializer
    writes. *)
From stdpp Require Import gmap.
From S2P Require Import Prelude Text Containers Shash Json.

Module JsonLex.
Import Json.

(** ** Characters *)

Definition all_chars : chars := List.map ascii_of_nat (seq 0 256).

(** What holds of each of the 256 characters holds of all. *)
Lemma all_chars_spec (f : ascii -> bool) : forallb f all_chars = true -> forall c, f c = true.
Proof.
  intros H c. rewrite forallb_forall in H. apply H. apply in_map_iff. exists (nat_of_ascii c).
  split; [apply ascii_nat_embedding |]. apply in_seq. pose proof (nat_ascii_bounded c). lia.
Qed.

Lemma cstr_id s : no_nul s -> cstr s = s.
Proof.
  unfold cstr. induction 1 as [| c s Hc _ IH]; cbn; [done |]. apply Ascii.eqb_neq in Hc. rewrite Hc. cbn.
  destruct (span _ s). cbn in *. by rewrite IH.
Qed.

Lemma no_nul_cstr s : no_nul (cstr s).
Proof.
  unfold cstr, no_nul. induction s as [| c s IH]; cbn; [constructor |].
  destruct (Ascii.eqb_spec c NUL) as [| Hc]; cbn; [constructor |].
  destruct (span _ s). cbn in *. by constructor.
Qed.

Lemma decimal_digit_char d :
  0 <= d < 10 -> digit_char d <> NUL /\ isdigit (digit_char d) = true /\ code (digit_char d) - 48 = d /\
    (d <> 0 -> digit_char d <> "0"%char) /\ digit_char d <> "-"%char.
Proof.
  intros Hd. assert (forallb (λ d, negb (digit_char d =c NUL) && isdigit (digit_char d) &&
    (code (digit_char d) - 48 =? d) && ((d =? 0) || negb (digit_char d =c "0")) && negb (digit_char d =c "-"))
    (List.map Z.of_nat (seq 0 10)) = true) as H by by vm_compute.
  rewrite forallb_forall in H. specialize (H d). rewrite !andb_true_iff, !negb_true_iff, !Ascii.eqb_neq, Z.eqb_eq in H.
  destruct H as ((((H1 & H2) & H3) & H4) & H5); [apply in_map_iff; exists (Z.to_nat d); split; [lia | apply in_seq; lia] |].
  repeat split; [done.. | |done]. intros Hne. apply orb_true_iff in H4 as [?%Z.eqb_eq | H4]; [done |].
  by apply negb_true_iff, Ascii.eqb_neq in H4.
Qed.

(** ** Numbers *)

Lemma digits_head fuel x :
  0 < x < 10 ^ Z.of_nat fuel -> exists d l, digits fuel 10 x [] = d :: l /\ d <> 0.
Proof.
  revert x. induction fuel as [| fuel IH]; intros x Hx; [cbn in Hx; lia |]. cbn [digits].
  destruct (Z.eqb_spec (x / 10) 0) as [E | E].
  - exists (x mod 10), []. split; [done |]. Z.to_euclidean_division_equations; lia.
  - rewrite digits_app. rewrite Nat2Z.inj_succ, Z.pow_succ_r in Hx by lia.
    destruct (IH (x / 10)) as (d & l & -> & Hd); [| by exists d, (l ++ [x mod 10])].
    split; [Z.to_euclidean_division_equations; lia | apply Z.div_lt_upper_bound; lia].
Qed.

(** The text of a positive 64-bit number. *)
Lemma print_pos x :
  0 < x -> in_u 64 x ->
  exists d l, print_uint 10 x = List.map digit_char (d :: l) /\ d <> 0 /\
    Forall (λ d, 0 <= d < 10) (d :: l) /\ digits_value 10 0 (d :: l) = x.
Proof.
  intros Hp Hx. unfold print_uint. assert (x < 10 ^ Z.of_nat 64) by (unfold in_u in Hx; lia).
  destruct (digits_head 64 x ltac:(lia)) as (d & l & E & Hd).
  destruct (digits_spec 64 10 x ltac:(lia) ltac:(lia)) as [H1 H2]. rewrite E in *. by exists d, l.
Qed.

Lemma digits_value_ge v l : 0 <= v -> Forall (λ d, 0 <= d < 10) l -> v <= digits_value 10 v l.
Proof.
  intros Hv Hl. revert v Hv. induction Hl as [| d l Hd _ IH]; intros v Hv; cbn; [lia |].
  etrans; [| apply IH]; lia.
Qed.

Lemma int_digits_value v l :
  0 <= v -> Forall (λ d, 0 <= d < 10) l -> digits_value 10 v l <= 2 ^ 63 ->
  int_digits v 0 false (List.map digit_char l) = (digits_value 10 v l, 0, false, []).
Proof.
  intros Hv Hl. revert v Hv. induction Hl as [| d l Hd Hl IH]; intros v Hv Hle; cbn; [done |].
  destruct (decimal_digit_char d Hd) as (_ & -> & -> & _). change (ULLONG_MAX / 10) with 1844674407370955161.
  pose proof (digits_value_ge (v * 10 + d) l ltac:(lia) Hl) as Hge. cbn in Hle. change (foldl _ _ l) with (digits_value 10 (v * 10 + d) l) in *.
  destruct (Z.leb_spec v 1844674407370955161); [| lia].
  rewrite wrap_small by (unfold in_u; lia). by rewrite IH by lia.
Qed.

Lemma no_nul_digits l : Forall (λ d, 0 <= d < 10) l -> no_nul (List.map digit_char l).
Proof. induction 1 as [| d l Hd _ IH]; cbn; constructor; [by apply decimal_digit_char | done]. Qed.

Section numbers.
Context {R : Type} {D : Double R}.

Lemma lex_fraction_none s p i cp : hd_char cp <> "."%char -> lex_fraction s p i cp = inl (s, p, i, cp).
Proof. intros H%Ascii.eqb_neq. unfold lex_fraction. by rewrite H. Qed.

Lemma lex_exponent_none p cp : hd_char cp <> "e"%char -> hd_char cp <> "E"%char -> lex_exponent p cp = inl (p, cp).
Proof. intros H1%Ascii.eqb_neq H2%Ascii.eqb_neq. unfold lex_exponent. by rewrite H1, H2. Qed.

(** Unsigned digits, after an optional sign. *)
Lemma lex_digits (negative : bool) d l :
  d <> 0 -> Forall (λ d, 0 <= d < 10) (d :: l) -> digits_value 10 0 (d :: l) <= (if negative then 2 ^ 63 else 2 ^ 63 - 1) ->
  json_lex_number (R := R) ((if negative then ["-"%char] else []) ++ List.map digit_char (d :: l))
  = inl (T_INTEGER (if negative then - digits_value 10 0 (d :: l) else digits_value 10 0 (d :: l))).
Proof.
  intros Hd Hl Hle. unfold json_lex_number. rewrite cstr_id.
  2: { apply Forall_app. split; [destruct negative; by repeat constructor | by apply no_nul_digits]. }
  assert (0 < digits_value 10 0 (d :: l)) as Hpos.
  { apply Forall_cons in Hl as [Hd' Hl]. pose proof (digits_value_ge (0 * 10 + d) l ltac:(lia) Hl).
    change (digits_value 10 0 (d :: l)) with (digits_value 10 (0 * 10 + d) l). lia. }
  pose proof Hl as Hl'. apply Forall_cons in Hl' as [Hd' _].
  destruct (decimal_digit_char d Hd') as (_ & Hdig & _ & Hz%(λ h, h Hd) & Hm).
  assert (int_digits 0 0 false (List.map digit_char (d :: l)) = (digits_value 10 0 (d :: l), 0, false, [])) as Hint.
  { apply int_digits_value; [lia | done | destruct negative; lia]. }
  set (v := digits_value 10 0 (d :: l)) in *.
  assert (integer_value negative v 0 false = Some (if negative then - v else v)) as Hval.
  { assert (v <=? (if negative then LLONG_MAX + 1 else LLONG_MAX) = true) as Hmax
      by (apply Z.leb_le; unfold LLONG_MAX; destruct negative; lia).
    unfold integer_value. cbn [negb scale_up scale_down Z.gtb Z.ltb Z.compare andb]. change (0 =? 0) with true. cbn [andb].
    rewrite Hmax. destruct negative; f_equal.
    - unfold swrap, wrap. Z.to_euclidean_division_equations; lia.
    - apply swrap_small; lia. }
  apply Ascii.eqb_neq in Hz, Hm.
  assert ((hd_char ((if negative then ["-"%char] else []) ++ List.map digit_char (d :: l)) =c "-") = negative) as ->
    by by destruct negative.
  assert ((if negative then tail ((if negative then ["-"%char] else []) ++ List.map digit_char (d :: l))
           else (if negative then ["-"%char] else []) ++ List.map digit_char (d :: l))
          = List.map digit_char (d :: l)) as -> by by destruct negative.
  cbv zeta. change (hd_char (List.map digit_char (d :: l))) with (digit_char d). rewrite Hz, Hdig, Hint.
  unfold lex_rest. rewrite lex_fraction_none, lex_exponent_none by done. unfold lex_value. change (hd_char [] =c NUL) with true.
  cbn [negb]. destruct (Z.eqb_spec v 0); [lia |]. by rewrite Hval.
Qed.

(** The lexer reads an integer back from its text. *)
Lemma lex_print_int x :
  LLONG_MIN <= x <= LLONG_MAX -> json_lex_number (R := R) (print_int x) = inl (T_INTEGER x).
Proof.
  unfold LLONG_MIN, LLONG_MAX. intros Hx. unfold print_int. destruct (Z.ltb_spec x 0) as [Hn | Hn].
  - destruct (print_pos (- x) ltac:(lia) ltac:(unfold in_u; lia)) as (d & l & -> & Hd & Hl & Hv).
    rewrite <- (Z.opp_involutive x), <- Hv. apply (lex_digits true); [done | done | lia].
  - destruct (decide (x = 0)) as [-> |]; [by vm_compute |].
    destruct (print_pos x ltac:(lia) ltac:(unfold in_u; lia)) as (d & l & -> & Hd & Hl & Hv).
    rewrite <- Hv. apply (lex_digits false); [done | done | lia].
Qed.

End numbers.
(** ** Strings *)

(** A character that a quoted string may contain as it is. *)
Definition plain (c : ascii) : Prop := c <> chr 34 /\ c <> "\"%char /\ 32 <= code c.

Definition plainb (c : ascii) : bool := negb (c =c chr 34) && negb (c =c "\") && (32 <=? code c).

Lemma plainb_spec c : plainb c = true -> plain c.
Proof.
  unfold plainb, plain. rewrite !andb_true_iff, !negb_true_iff, !Ascii.eqb_neq, Z.leb_le. tauto.
Qed.

(** The texts of a character in a quoted string. *)
Inductive escape_form (c : ascii) : chars -> Prop :=
  | esc_plain : plain c -> escape_form c [c]
  | esc_short e : escape_char e = Some c -> e <> NUL -> escape_form c ["\"%char; e]
  | esc_hex h : length h = 4%nat -> hexits_value h = Some (code c) -> 0 < code c < 0x20 ->
      Forall plain h -> escape_form c ("\" :: "u" :: h)%char.

Definition form_check (c : ascii) : bool :=
  (c =c NUL) ||
  match chars_escaping c with
  | [d] => (d =c c) && plainb c
  | [b; e] => (b =c "\") && match escape_char e with Some d => d =c c | None => false end && negb (e =c NUL)
  | b :: u :: h =>
      (b =c "\") && (u =c "u") && (length h =? 4)%nat &&
      match hexits_value h with Some x => x =? code c | None => false end &&
      (0 <? code c) && (code c <? 0x20) && forallb plainb h
  | [] => false
  end.

Lemma form_check_spec c : form_check c = true -> c <> NUL -> escape_form c (chars_escaping c).
Proof.
  unfold form_check. intros [H | H]%orb_true_iff Hc; [by apply Ascii.eqb_eq in H |].
  destruct (chars_escaping c) as [| b [| u [| h0 h]]]; [done | | |].
  - apply andb_true_iff in H as [->%Ascii.eqb_eq H]. by apply esc_plain, plainb_spec.
  - apply andb_true_iff in H as [[->%Ascii.eqb_eq H]%andb_true_iff Hn]. destruct (escape_char u) as [d |] eqn:E; [| done].
    apply Ascii.eqb_eq in H as ->. apply esc_short; [done |]. by apply negb_true_iff, Ascii.eqb_neq in Hn.
  - set (hs := h0 :: h) in *. rewrite !andb_true_iff, Nat.eqb_eq, !Z.ltb_lt, !Ascii.eqb_eq in H.
    destruct H as ((((((-> & ->) & Hl) & Hv) & Hp) & Hlt) & Hh). destruct (hexits_value hs) eqn:E; [| done].
    apply Z.eqb_eq in Hv as ->. apply esc_hex; [done | done | lia |].
    apply Forall_forall. intros x Hx. apply plainb_spec. rewrite forallb_forall in Hh. by apply Hh, list_elem_of_In.
Qed.

Lemma escape_forms c : c <> NUL -> escape_form c (chars_escaping c).
Proof. apply form_check_spec. revert c. apply all_chars_spec. by vm_compute. Qed.

Definition escaped (s : chars) : chars := concat (List.map chars_escaping s).

Lemma unescape_hex fuel h rest out c :
  length h = 4%nat -> hexits_value h = Some (code c) -> 0 < code c < 0x20 ->
  unescape_loop (S fuel) ("\" :: "u" :: h ++ rest)%char out = unescape_loop fuel rest (out ++ [c]).
Proof.
  intros Hl Hv Hc. cbn [unescape_loop]. change ("\" =c chr 34)%char with false. change ("\" =c "\")%char with true.
  change (escape_char "u") with (@None ascii). change ("u" =c "u")%char with true. cbn [negb].
  unfold json_lex_unicode, json_lex_4hex. rewrite length_app, Hl, take_app_exact, drop_app_exact, Hv by done.
  destruct (Nat.ltb_spec (4 + length rest) 4); [lia |]. destruct (Z.eqb_spec (code c) 0); [lia |].
  unfold uc_is_leading_surrogate. destruct (Z.geb_spec (code c) 0xd800); [lia |]. cbn [andb negb].
  unfold utf8. destruct (Z.leb_spec (code c) 0x7f); [| lia]. do 3 f_equal. unfold chr.
  rewrite wrap_small by (unfold in_u; lia). unfold code. by rewrite Nat2Z.id, ascii_nat_embedding.
Qed.

Lemma unescape_escaped fuel s out :
  no_nul s -> (length (escaped s) <= fuel)%nat -> unescape_loop fuel (escaped s) out = (true, out ++ s).
Proof.
  intros Hs. revert fuel out. induction Hs as [| c s Hc Hs IH]; intros fuel out Hf.
  { rewrite app_nil_r. by destruct fuel. }
  change (escaped (c :: s)) with (chars_escaping c ++ escaped s) in *. rewrite length_app in Hf.
  destruct (escape_forms c Hc) as [(Hq & Hb & _) | e He _ | h Hl Hv Hlt Hh]; (destruct fuel as [| fuel]; [cbn in Hf; lia |]).
  - cbn [app unescape_loop]. apply Ascii.eqb_neq in Hq, Hb. rewrite Hq, Hb. cbn [negb].
    rewrite IH by (cbn in Hf; lia). by rewrite <- app_assoc.
  - cbn [app unescape_loop]. change ("\" =c chr 34)%char with false. change ("\" =c "\")%char with true. cbn [negb].
    rewrite He, IH by (cbn in Hf; lia). by rewrite <- app_assoc.
  - rewrite <- !app_comm_cons, (unescape_hex _ _ _ _ c) by done. rewrite IH by (cbn in Hf; lia). by rewrite <- app_assoc.
Qed.

(** Without a backslash the text is the string itself. *)
Lemma escaped_no_backslash s :
  no_nul s -> existsb (λ c, c =c "\") (escaped s) = false -> escaped s = s.
Proof.
  induction 1 as [| c s Hc Hs IH]; [done |]. change (escaped (c :: s)) with (chars_escaping c ++ escaped s).
  rewrite existsb_app, orb_false_iff. intros [H1 H2].
  destruct (escape_forms c Hc) as [(Hq & Hb & _) | e He | h Hl Hv Hlt Hh]; [| done | done].
  cbn. f_equal. by apply IH.
Qed.

Lemma no_nul_escaped s : no_nul s -> no_nul (escaped s).
Proof.
  assert (forall c, plain c -> c <> NUL) as Hp by by intros c (_ & _ & H) ->.
  induction 1 as [| c s Hc Hs IH]; [constructor |]. change (escaped (c :: s)) with (chars_escaping c ++ escaped s).
  apply Forall_app. split; [| done].
  destruct (escape_forms c Hc) as [H | e He | h Hl Hv Hlt Hh]; repeat constructor; try done.
  eapply Forall_impl; [done | apply Hp].
Qed.

End JsonLex.
