(* ===== verification/JsonNumber.v ===== *)
(** JSON numbers: when the lexer takes a number for an integer. *)
From stdpp Require Import gmap.
From S2P Require Import Prelude Text Json JsonLex.

Module JsonNumber.
Import Json JsonLex.

(** [z] is the number with the given sign, significand and power of ten. *)
Definition denotes (negative : bool) (significand pow10 z : Z) : Prop :=
  z * 10 ^ Z.max 0 (- pow10) = (if negative then - significand else significand) * 10 ^ Z.max 0 pow10.

(** ** Scaling *)

Lemma scale_up_spec fuel s p :
  0 < s < 2 ^ 64 -> ULLONG_MAX / 10 <= s * 10 ^ Z.of_nat fuel ->
  exists k, 0 <= k <= Z.max 0 p /\ scale_up fuel s p = (s * 10 ^ k, p - k) /\
    (p - k <= 0 \/ ULLONG_MAX / 10 <= s * 10 ^ k).
Proof.
  change (ULLONG_MAX / 10) with 1844674407370955161. revert s p. induction fuel as [| fuel IH]; intros s p Hs Hf; cbn [scale_up].
  - exists 0. rewrite Z.pow_0_r, Z.mul_1_r, Z.sub_0_r. split; [lia |]. split; [done |]. right. cbn in Hf. lia.
  - change (ULLONG_MAX / 10) with 1844674407370955161.
    destruct (Z.gtb_spec p 0), (Z.ltb_spec s 1844674407370955161); cbn [andb].
    2-4: exists 0; rewrite Z.pow_0_r, Z.mul_1_r, Z.sub_0_r; (split; [lia |]); (split; [done |]); lia.
    rewrite Nat2Z.inj_succ, Z.pow_succ_r in Hf by lia.
    destruct (IH (s * 10) (p - 1)) as (k & Hk & -> & Hd); [lia | lia |]. exists (k + 1).
    rewrite Z.pow_add_r, Z.pow_1_r by lia. split; [lia |]. split; [f_equal; lia |]. destruct Hd; [left | right]; lia.
Qed.

Lemma scale_down_spec fuel s p :
  0 < s < 10 ^ Z.of_nat fuel ->
  exists k s', 0 <= k <= Z.max 0 (- p) /\ scale_down fuel s p = (s', p + k) /\ s = s' * 10 ^ k /\ 0 < s' /\
    (0 <= p + k \/ s' mod 10 <> 0).
Proof.
  revert s p. induction fuel as [| fuel IH]; intros s p Hs; [cbn in Hs; lia |]. cbn [scale_down].
  destruct (Z.ltb_spec p 0), (Z.eqb_spec (s mod 10) 0) as [Hm | Hm]; cbn [andb].
  2-4: exists 0, s; rewrite Z.pow_0_r, Z.mul_1_r, Z.add_0_r; (split; [lia |]); (split; [done |]); (split; [done |]); (split; [lia |]); lia.
  rewrite Nat2Z.inj_succ, Z.pow_succ_r in Hs by lia. pose proof (Z.div_mod s 10 ltac:(lia)) as Hd.
  destruct (IH (s / 10) (p + 1)) as (k & s' & Hk & -> & Es & Hp & He); [lia |]. exists (k + 1), s'.
  rewrite Z.pow_add_r, Z.pow_1_r by lia. split; [lia |]. split; [f_equal; lia |]. split; [lia |]. split; [done |]. lia.
Qed.

(** The integer that a number denotes, for a significand that was read without loss. *)
Lemma integer_value_exact negative s p z :
  0 < s < 2 ^ 64 ->
  integer_value negative s p false = Some z <-> denotes negative s p z /\ LLONG_MIN <= z <= LLONG_MAX.
Proof.
  intros Hs. unfold integer_value, denotes. cbn [negb].
  assert (ULLONG_MAX / 10 <= s * 10 ^ Z.of_nat 20) as Hf by (change (ULLONG_MAX / 10) with 1844674407370955161; lia).
  destruct (scale_up_spec 20 s p Hs Hf) as (k & Hk & -> & Hup). change (ULLONG_MAX / 10) with 1844674407370955161 in Hup.
  assert (forall v, 0 <= v -> v <=? (if negative then LLONG_MAX + 1 else LLONG_MAX) = true ->
    s64 (if negative then u64 (- v) else v) = if negative then - v else v) as Hval.
  { intros v Hv Hle%Z.leb_le. unfold LLONG_MAX in Hle. destruct negative; [| apply swrap_small; lia].
    unfold swrap, wrap. Z.to_euclidean_division_equations; lia. }
  unfold LLONG_MIN, LLONG_MAX in *. destruct (Z.le_gt_cases 0 p) as [Hp | Hp].
  - rewrite (Z.max_r 0 p), (Z.max_l 0 (- p)), Z.pow_0_r, Z.mul_1_r by lia. cbn [scale_down].
    destruct (Z.ltb_spec (p - k) 0); [lia |]. cbn [andb].
    destruct (Z.eqb_spec (p - k) 0) as [E | E]; cbn [andb].
    + assert (k = p) as -> by lia. destruct (Z.leb_spec (s * 10 ^ p) (if negative then 2 ^ 63 - 1 + 1 else 2 ^ 63 - 1)) as [Hle | Hgt].
      * rewrite Hval; [| | by apply Z.leb_le]; [| apply Z.mul_nonneg_nonneg; [lia | apply Z.pow_nonneg; lia]].
        split; [intros [= <-]; destruct negative; nia |]. intros [-> _]. f_equal. destruct negative; lia.
      * split; [done |]. intros [-> Hr]. exfalso. destruct negative; lia.
    + split; [done |]. intros [-> Hr]. exfalso. destruct Hup as [? | Hup]; [lia |].
      assert (s * 10 ^ p = s * 10 ^ k * 10 ^ (p - k)) as Ep by (rewrite <- Z.mul_assoc, <- Z.pow_add_r by lia; do 2 f_equal; lia).
      assert (10 <= 10 ^ (p - k)) by (change 10 with (10 ^ 1) at 1; apply Z.pow_le_mono_r; lia).
      assert (18446744073709551610 <= s * 10 ^ p) by nia. destruct negative; lia.
  - rewrite (Z.max_l 0 p), (Z.max_r 0 (- p)), Z.pow_0_r, Z.mul_1_r by lia. assert (k = 0) as -> by lia.
    rewrite Z.pow_0_r, Z.mul_1_r, Z.sub_0_r.
    destruct (scale_down_spec 20 s p ltac:(lia)) as (j & s' & Hj & -> & Es & Hs' & Hd).
    destruct (Z.eqb_spec (p + j) 0) as [E | E]; cbn [andb].
    + assert (j = - p) as -> by lia. assert (0 < 10 ^ (- p)) by (apply Z.pow_pos_nonneg; lia).
      destruct (Z.leb_spec s' (if negative then 2 ^ 63 - 1 + 1 else 2 ^ 63 - 1)) as [Hle | Hgt].
      * rewrite Hval; [| lia | by apply Z.leb_le].
        split; [intros [= <-]; destruct negative; lia |]. intros [Ez _]. f_equal. destruct negative; nia.
      * split; [done |]. intros [Ez Hr]. exfalso. assert (z = if negative then - s' else s') by (destruct negative; nia).
        destruct negative; lia.
    + split; [done |]. intros [Ez _]. exfalso. destruct Hd as [? | Hd]; [lia |]. apply Hd.
      assert (0 < 10 ^ j) by (apply Z.pow_pos_nonneg; lia).
      assert (10 ^ (- p) = 10 * 10 ^ (- p - j - 1) * 10 ^ j) as Ep.
      { change 10 with (10 ^ 1) at 2. rewrite <- !Z.pow_add_r by lia. f_equal. lia. }
      assert (s' = 10 * ((if negative then - z else z) * 10 ^ (- p - j - 1))) as ->.
      { apply (Z.mul_cancel_r _ _ (10 ^ j)); [lia |]. rewrite <- Es. destruct negative; nia. }
      rewrite Z.mul_comm. apply Z.mod_mul. lia.
Qed.

(** ** Texts of numbers *)

(** The parts of a number: sign, digits before and after the decimal point, exponent. *)
Record number := mk_number {
  negative : bool;
  whole : list Z;
  fraction : list Z;
  exponent : option (bool * list Z);
}.

Definition is_digits (l : list Z) : Prop := Forall (λ d, 0 <= d < 10) l.

(** The grammar: no superfluous leading zero, and the exponent has digits. *)
Definition well_formed (x : number) : Prop :=
  is_digits (whole x) /\ is_digits (fraction x) /\
  (whole x = [0] \/ exists d l, whole x = d :: l /\ d <> 0) /\
  match exponent x with Some (_, l) => is_digits l /\ l <> [] | None => True end.

Definition text (x : number) : chars :=
  (if negative x then ["-"%char] else []) ++ List.map digit_char (whole x) ++
  (match fraction x with [] => [] | l => "."%char :: List.map digit_char l end) ++
  match exponent x with
  | Some (neg, l) => "e"%char :: (if neg then ["-"%char] else []) ++ List.map digit_char l
  | None => []
  end.

Definition significand (x : number) : Z := digits_value 10 0 (whole x ++ fraction x).

Definition exponent_value (x : number) : Z :=
  match exponent x with
  | Some (neg, l) => let e := digits_value 10 0 l in if neg then - e else e
  | None => 0
  end.

Definition power (x : number) : Z := exponent_value x - Z.of_nat (length (fraction x)).

(** A number whose digits are all kept by the lexer. *)
Definition precise (x : number) : Prop :=
  (length (whole x) + length (fraction x) <= 19)%nat /\
  match exponent x with Some (_, l) => digits_value 10 0 l < INT_MAX / 10 | None => True end.

Lemma digits_value_app b v l l' : digits_value b v (l ++ l') = digits_value b (digits_value b v l) l'.
Proof. unfold digits_value. apply foldl_app. Qed.

Lemma digits_value_lt n v l :
  is_digits l -> 0 <= v < 10 ^ Z.of_nat n -> 0 <= digits_value 10 v l < 10 ^ Z.of_nat (n + length l).
Proof.
  intros Hl. revert n v. induction Hl as [| d l Hd _ IH]; intros n v Hv; cbn [digits_value foldl length].
  - by rewrite Nat.add_0_r.
  - replace (n + S (length l))%nat with (S n + length l)%nat by lia. apply IH.
    rewrite Nat2Z.inj_succ, Z.pow_succ_r by lia. lia.
Qed.

(** One digit more, below 19 digits. *)
Lemma digit_step n v d :
  0 <= v < 10 ^ Z.of_nat n -> 0 <= d < 10 -> (n < 19)%nat ->
  v <=? ULLONG_MAX / 10 = true /\ u64 (v * 10 + d) = v * 10 + d.
Proof.
  intros Hv Hd Hn. change (ULLONG_MAX / 10) with 1844674407370955161.
  assert (10 ^ Z.of_nat n <= 10 ^ 18) by (apply Z.pow_le_mono_r; lia). split; [apply Z.leb_le; lia |].
  apply wrap_small. unfold in_u. lia.
Qed.

Lemma int_digits_exact n v l rest :
  is_digits l -> 0 <= v < 10 ^ Z.of_nat n -> (n + length l <= 19)%nat -> isdigit (hd_char rest) = false ->
  int_digits v 0 false (List.map digit_char l ++ rest) = (digits_value 10 v l, 0, false, rest).
Proof.
  intros Hl. revert n v. induction Hl as [| d l Hd Hl IH]; intros n v Hv Hn Hr; cbn [List.map app length] in *.
  - destruct rest as [| c rest]; [done |]. cbn in *. by rewrite Hr.
  - cbn [int_digits]. destruct (decimal_digit_char d Hd) as (_ & -> & -> & _).
    destruct (digit_step n v d Hv Hd ltac:(lia)) as [-> ->]. rewrite (IH (S n)); [done | | lia | done].
    rewrite Nat2Z.inj_succ, Z.pow_succ_r by lia. lia.
Qed.

Lemma frac_digits_exact n v p l rest :
  is_digits l -> 0 <= v < 10 ^ Z.of_nat n -> (n + length l <= 19)%nat -> isdigit (hd_char rest) = false ->
  frac_digits v p false (List.map digit_char l ++ rest) = (digits_value 10 v l, p - Z.of_nat (length l), false, rest).
Proof.
  intros Hl. revert n v p. induction Hl as [| d l Hd Hl IH]; intros n v p Hv Hn Hr; cbn [List.map app length] in *.
  - rewrite Z.sub_0_r. destruct rest as [| c rest]; [done |]. cbn in *. by rewrite Hr.
  - cbn [frac_digits]. destruct (decimal_digit_char d Hd) as (_ & -> & -> & _).
    destruct (digit_step n v d Hv Hd ltac:(lia)) as [-> ->]. rewrite (IH (S n)); [| | lia | done].
    + do 3 f_equal. lia.
    + rewrite Nat2Z.inj_succ, Z.pow_succ_r by lia. lia.
Qed.

Lemma exp_digits_exact v l :
  is_digits l -> 0 <= v -> digits_value 10 v l < INT_MAX / 10 ->
  exp_digits v (List.map digit_char l) = Some (digits_value 10 v l, []).
Proof.
  intros Hl. revert v. induction Hl as [| d l Hd Hl IH]; intros v Hv Hlt; cbn [List.map]; [done |]. cbn [exp_digits].
  destruct (decimal_digit_char d Hd) as (_ & -> & -> & _). cbn [digits_value foldl] in Hlt.
  pose proof (digits_value_ge (v * 10 + d) l ltac:(lia) Hl) as Hge. unfold digits_value in Hge.
  destruct (Z.geb_spec v (INT_MAX / 10)); [lia |]. by rewrite IH by (first [done | lia]).
Qed.

Lemma no_nul_number_text x : well_formed x -> no_nul (text x).
Proof.
  intros (Hw & Hf & _ & He). unfold text.
  apply Forall_app. split; [destruct (negative x); by repeat constructor |].
  apply Forall_app. split; [by apply no_nul_digits |]. apply Forall_app. split.
  - destruct (fraction x); [constructor |]. constructor; [done | by apply no_nul_digits].
  - destruct (exponent x) as [[neg l] |]; [| constructor]. constructor; [done |].
    apply Forall_app. split; [| by apply no_nul_digits, He]. destruct neg; [by apply Forall_singleton | constructor].
Qed.

Lemma significand_range x : well_formed x -> precise x -> 0 <= significand x < 2 ^ 64.
Proof.
  intros (Hw & Hf & _) [Hlen _]. unfold significand.
  assert (is_digits (whole x ++ fraction x)) as Hd by by apply Forall_app.
  pose proof (digits_value_lt 0 0 _ Hd ltac:(done)) as H. rewrite length_app in H. cbn [Nat.add] in H.
  assert (10 ^ Z.of_nat (length (whole x) + length (fraction x)) <= 10 ^ 19) by (apply Z.pow_le_mono_r; lia). lia.
Qed.

Section lexer.
Context {R : Type} {D : Double R}.

(** What the lexer makes of a number. *)
Definition classify (x : number) : json_token R + chars :=
  if significand x =? 0 then inl (T_INTEGER 0)
  else
    match integer_value (negative x) (significand x) (power x) false with
    | Some z => inl (T_INTEGER z)
    | None =>
        match str_to_double (text x) with
        | None => inr (str "number outside valid range")
        | Some d => inl (T_REAL (if double_eqb d double_zero then double_zero else d))
        end
    end.

(** The text of the exponent. *)
Definition exponent_text (e : option (bool * list Z)) : chars :=
  match e with
  | Some (neg, l) => "e"%char :: (if neg then ["-"%char] else []) ++ List.map digit_char l
  | None => []
  end.

Lemma lex_exponent_text p e :
  match e with Some (_, l) => is_digits l /\ l <> [] /\ digits_value 10 0 l < INT_MAX / 10 | None => True end ->
  - 2 ^ 30 <= p <= 2 ^ 30 ->
  lex_exponent p (exponent_text e) =
    inl (p + match e with Some (neg, l) => let v := digits_value 10 0 l in if neg then - v else v | None => 0 end, []).
Proof.
  destruct e as [[neg l] |]; cbn [exponent_text]; [| by rewrite Z.add_0_r]. intros (Hl & Hne & Hlt) Hp.
  pose proof (exp_digits_exact 0 l Hl ltac:(lia) Hlt) as Hd. pose proof (digits_value_ge 0 l ltac:(lia) Hl) as Hge.
  change (INT_MAX / 10) with 214748364 in Hlt.
  destruct Hl as [| d l Hdig Hl]; [done |]. destruct (decimal_digit_char d Hdig) as (_ & Hisd & _ & _ & Hm).
  assert (digit_char d <> "+"%char) as Hplus by (intros E; by rewrite E in Hisd).
  apply Ascii.eqb_neq in Hm, Hplus. set (v := digits_value 10 0 (d :: l)) in *. unfold lex_exponent.
  destruct neg; cbn [app hd_char tail List.map]; change ("e" =c "e")%char with true; cbn [orb].
  - change ("-" =c "-")%char with true. change ("-" =c "+")%char with false. cbn [orb tail hd_char]. rewrite Hisd. cbn [negb].
    change (digit_char d :: List.map digit_char l) with (List.map digit_char (d :: l)). rewrite Hd.
    destruct (Z.ltb_spec p (INT_MIN + v)); [unfold INT_MIN in *; lia |]. done.
  - rewrite Hm, Hplus. cbn [orb hd_char]. rewrite Hisd. cbn [negb].
    change (digit_char d :: List.map digit_char l) with (List.map digit_char (d :: l)). rewrite Hd.
    destruct (Z.gtb_spec p (INT_MAX - v)); [unfold INT_MAX in *; lia |]. done.
Qed.

Lemma exponent_text_head e : hd_char (exponent_text e) <> "."%char /\ isdigit (hd_char (exponent_text e)) = false.
Proof. by destruct e as [[] |]. Qed.

(** The fraction and the exponent, after the digits before the point. *)
Lemma lex_rest_text x :
  well_formed x -> precise x ->
  lex_rest (text x) (negative x) (digits_value 10 0 (whole x)) 0 false
    ((match fraction x with [] => [] | l => "."%char :: List.map digit_char l end) ++ exponent_text (exponent x))
  = classify x.
Proof.
  intros Hx [Hlen Hexp]. pose proof (no_nul_number_text x Hx) as Hnn. destruct Hx as (Hw & Hf & _ & He).
  destruct (exponent_text_head (exponent x)) as [Hdot Hdig].
  assert (lex_fraction (digits_value 10 0 (whole x)) 0 false
    ((match fraction x with [] => [] | l => "."%char :: List.map digit_char l end) ++ exponent_text (exponent x))
    = inl (significand x, - Z.of_nat (length (fraction x)), false, exponent_text (exponent x))) as Hfr.
  { unfold significand. rewrite digits_value_app. destruct (fraction x) as [| d l] eqn:Ef.
    - cbn [app length]. by rewrite lex_fraction_none.
    - unfold lex_fraction. cbn [app hd_char tail List.map]. change ("." =c ".")%char with true. cbv iota.
      apply Forall_cons in Hf as [Hd Hf]. destruct (decimal_digit_char d Hd) as (_ & -> & _). cbn [negb].
      change (digit_char d :: List.map digit_char l ++ ?r) with (List.map digit_char (d :: l) ++ r).
      rewrite (frac_digits_exact (length (whole x))); [done | by constructor | | done | done].
      by apply (digits_value_lt 0). }
  unfold lex_rest. rewrite Hfr, lex_exponent_text; [| destruct (exponent x) as [[] |]; [| done]; by destruct He | lia].
  unfold lex_value, classify. change (hd_char [] =c NUL) with true. cbn [negb]. rewrite cstr_id by done.
  unfold power, exponent_value. by rewrite Z.add_comm.
Qed.

Lemma lex_number_text x : well_formed x -> precise x -> json_lex_number (text x) = classify x.
Proof.
  intros Hx Hp. pose proof (lex_rest_text x Hx Hp) as Hrest. destruct Hp as [Hlen _].
  unfold json_lex_number. rewrite cstr_id by by apply no_nul_number_text.
  set (r := (match fraction x with [] => [] | l => "."%char :: List.map digit_char l end) ++ exponent_text (exponent x)) in *.
  assert (text x = (if negative x then ["-"%char] else []) ++ List.map digit_char (whole x) ++ r) as Et by done.
  assert (isdigit (hd_char r) = false) as Hr.
  { unfold r. destruct (fraction x); [apply exponent_text_head | done]. }
  destruct Hx as (Hw & _ & Hlead & _).
  assert (exists d l, whole x = d :: l /\ 0 <= d < 10) as (d & l & Ew & Hd).
  { destruct Hw as [| d l Hd _]; [by destruct Hlead as [? | (? & ? & ? & _)] | by exists d, l]. }
  destruct (decimal_digit_char d Hd) as (_ & Hisd & _ & Hz & Hm%Ascii.eqb_neq).
  assert ((hd_char (text x) =c "-") = negative x) as ->.
  { rewrite Et, Ew. by destruct (negative x). }
  assert ((if negative x then tail (text x) else text x) = List.map digit_char (whole x) ++ r) as ->.
  { rewrite Et. by destruct (negative x). }
  cbv zeta. destruct Hlead as [E0 | (d' & l' & E' & Hne)].
  - rewrite E0 in *. change (digit_char 0) with "0"%char. cbn [List.map app hd_char tail]. change (digit_char 0 =c "0") with true.
    cbv iota. by rewrite Hr.
  - rewrite Ew in E'. injection E' as <- <-. assert (hd_char (List.map digit_char (whole x) ++ r) = digit_char d) as -> by by rewrite Ew.
    specialize (Hz Hne). apply Ascii.eqb_neq in Hz. rewrite Hz, Hisd.
    rewrite (int_digits_exact 0); [done | done | done | lia | done].
Qed.

(** ** Characters of numbers *)

(** The characters of decimal numbers. *)
Definition numeral (c : ascii) : bool := isdigit c || (c =c "+") || (c =c "-") || (c =c ".") || (c =c "e") || (c =c "E").

(** [rest] is what follows characters of numbers in [cp]. *)
Definition numerals_to (cp rest : chars) : Prop := exists s, cp = s ++ rest /\ Forall (λ c, numeral c = true) s.

Lemma numerals_refl cp : numerals_to cp cp.
Proof. by exists []. Qed.

Lemma numerals_trans a b c : numerals_to a b -> numerals_to b c -> numerals_to a c.
Proof. intros (s & -> & Hs) (t & -> & Ht). exists (s ++ t). rewrite app_assoc. split; [done | by apply Forall_app]. Qed.

Lemma numerals_cons c cp rest : numeral c = true -> numerals_to cp rest -> numerals_to (c :: cp) rest.
Proof. intros Hc (s & -> & Hs). exists (c :: s). split; [done | by constructor]. Qed.

Lemma numerals_tail cp : numeral (hd_char cp) = true -> numerals_to cp (tail cp).
Proof. destruct cp as [| c cp]; [done |]. intros H. by apply numerals_cons; [| apply numerals_refl]. Qed.

Lemma digit_numeral c : isdigit c = true -> numeral c = true.
Proof. intros H. unfold numeral. by rewrite H. Qed.

Lemma int_digits_numerals s p i cp : numerals_to cp (int_digits s p i cp).2.
Proof.
  revert s p i. induction cp as [| c cp IH]; intros s p i; cbn; [apply numerals_refl |].
  destruct (isdigit c) eqn:Ed; [| apply numerals_refl]. destruct (_ <=? _); (apply numerals_cons; [by apply digit_numeral | apply IH]).
Qed.

Lemma frac_digits_numerals s p i cp : numerals_to cp (frac_digits s p i cp).2.
Proof.
  revert s p i. induction cp as [| c cp IH]; intros s p i; cbn; [apply numerals_refl |].
  destruct (isdigit c) eqn:Ed; [| apply numerals_refl]. destruct (_ <=? _); (apply numerals_cons; [by apply digit_numeral | apply IH]).
Qed.

Lemma exp_digits_numerals e cp e' cp' : exp_digits e cp = Some (e', cp') -> numerals_to cp cp'.
Proof.
  revert e. induction cp as [| c cp IH]; intros e; cbn; [intros [= _ <-]; apply numerals_refl |].
  destruct (isdigit c) eqn:Ed; [| intros [= _ <-]; apply numerals_refl]. destruct (_ >=? _); [done |].
  intros H%IH. apply numerals_cons; [by apply digit_numeral | done].
Qed.

Lemma fraction_numerals s p i cp x : lex_fraction s p i cp = inl x -> numerals_to cp x.2.
Proof.
  unfold lex_fraction. destruct (hd_char cp =c ".") eqn:E; [| intros [= <-]; apply numerals_refl].
  destruct (negb _); [done |]. intros [= <-]. apply (numerals_trans _ (tail cp)); [| apply frac_digits_numerals].
  apply numerals_tail. unfold numeral. by rewrite E, !orb_true_r.
Qed.

Lemma exponent_numerals p cp x : lex_exponent p cp = inl x -> numerals_to cp x.2.
Proof.
  unfold lex_exponent. destruct ((hd_char cp =c "e") || _) eqn:E; [| intros [= <-]; apply numerals_refl]. cbv zeta.
  assert (numerals_to cp (tail cp)) as H1.
  { apply numerals_tail. unfold numeral. apply orb_true_iff in E as [-> | ->]; by rewrite ?orb_true_r. }
  clear E. set (cp1 := tail cp) in *. destruct (_ || _) eqn:Es.
  - assert (numerals_to cp1 (tail cp1)) as H2.
    { apply numerals_tail. unfold numeral. apply orb_true_iff in Es as [-> | ->]; by rewrite ?orb_true_r. }
    destruct (negb _); [done |]. destruct (exp_digits 0 (tail cp1)) as [[e cp2] |] eqn:Ex; [| done]. apply exp_digits_numerals in Ex.
    assert (numerals_to cp cp2) as H by (eapply numerals_trans; [exact H1 |]; by eapply numerals_trans).
    destruct (hd_char cp1 =c "-"); (case_match; [done |]); by intros [= <-].
  - destruct (negb _); [done |]. destruct (exp_digits 0 cp1) as [[e cp2] |] eqn:Ex; [| done]. apply exp_digits_numerals in Ex.
    assert (numerals_to cp cp2) as H by (by eapply numerals_trans).
    destruct (hd_char cp1 =c "-"); (case_match; [done |]); by intros [= <-].
Qed.

Lemma rest_numerals (buffer : chars) n s p i cp token :
  no_nul cp -> lex_rest (R := R) buffer n s p i cp = inl token -> Forall (λ c, numeral c = true) cp.
Proof.
  intros Hn. unfold lex_rest. destruct (lex_fraction s p i cp) as [[[[s' p'] i'] cp1] |] eqn:Ef; [| done]. apply fraction_numerals in Ef.
  destruct (lex_exponent p' cp1) as [[p2 cp2] |] eqn:Ee; [| done]. apply exponent_numerals in Ee. cbn in Ef, Ee.
  unfold lex_value. destruct (hd_char cp2 =c NUL) eqn:E0; [intros _ | done]. destruct (numerals_trans _ _ _ Ef Ee) as (t & -> & Ht).
  destruct cp2 as [| c cp2]; [by rewrite app_nil_r |]. apply Ascii.eqb_eq in E0. cbn in E0. subst c.
  apply Forall_app in Hn as [_ Hn]. by apply Forall_cons in Hn as [? _].
Qed.

(** What the lexer takes for a number consists of the characters of numbers. *)
Lemma lex_numerals buffer token : json_lex_number (R := R) buffer = inl token -> Forall (λ c, numeral c = true) (cstr buffer).
Proof.
  unfold json_lex_number. pose proof (no_nul_cstr buffer) as Hn. set (cp := cstr buffer) in *. cbv zeta. intros H.
  assert (exists cp1, numerals_to cp cp1 /\ no_nul cp1 /\ (exists n s p i, lex_rest (R := R) buffer n s p i cp1 = inl token)) as (cp1 & Hc & Hn1 & n & s & p & i & E).
  { set (cp0 := if hd_char cp =c "-" then tail cp else cp) in *.
    assert (numerals_to cp cp0) as Hc0.
    { unfold cp0. destruct (hd_char cp =c "-") eqn:E; [| apply numerals_refl]. apply numerals_tail. unfold numeral. by rewrite E, !orb_true_r. }
    assert (forall a b, numerals_to a b -> no_nul a -> no_nul b) as Hsub by (intros a b (t & -> & _) Ht; by apply Forall_app in Ht as [_ ?]).
    destruct (hd_char cp0 =c "0") eqn:E0.
    - destruct (isdigit _); [done |]. exists (tail cp0). assert (numerals_to cp (tail cp0)) as Ht.
      { eapply numerals_trans; [exact Hc0 |]. apply numerals_tail. apply Ascii.eqb_eq in E0. by rewrite E0. }
      split; [done |]. split; [by eapply Hsub | eauto 10].
    - destruct (isdigit _); [| done]. pose proof (int_digits_numerals 0 0 false cp0) as Hi.
      destruct (int_digits 0 0 false cp0) as [[[s p] i] cp1]. cbn in Hi. exists cp1. assert (numerals_to cp cp1) as Ht by (by eapply numerals_trans).
      split; [done |]. split; [by eapply Hsub | eauto 10]. }
  apply rest_numerals in E; [| done]. destruct Hc as (t & -> & Ht). by apply Forall_app.
Qed.

End lexer.
End JsonNumber.
