(* ===== verification/JsonParse.v ===== *)
(** The JSON parser on arbitrary input: it never fails an assertion, feeding it in pieces makes
    no difference, and its results are well formed. *)
From stdpp Require Import gmap.
From S2P Require Import Prelude Text Containers Shash Json JsonLex.

Module JsonParse.
Import Json JsonLex.

Lemma list_alter_twice {A} (f g : A -> A) i (l : list A) : alter f i (alter g i l) = alter (f ∘ g) i l.
Proof. revert i. induction l as [| x l IH]; intros [| i]; f_equal/=. by apply IH. Qed.

Section parse.
Context {T R : Type} {HT : HashTable T} {HTok : HashTableOk T} {D : Double R}.
Context (hash_string : chars -> Z -> Z).

Abbreviation parser := (json_parser T R).
Abbreviation json := (json T R).
Abbreviation json_lex_input := (json_lex_input hash_string).
Abbreviation json_parser_input := (json_parser_input hash_string).
Abbreviation json_parser_put_value := (json_parser_put_value hash_string).
Implicit Types (p : parser) (j x node : json) (π : list nat) (f g : json -> json).

(** ** Places *)

Lemma get_at_cons i π j : get_at (i :: π) j = child i j ≫= get_at π.
Proof.
  unfold get_at. cbn. destruct (child i j); cbn; [done |].
  induction π as [| k π IH]; [done | apply IH].
Qed.

Lemma get_at_snoc π i j : get_at (π ++ [i]) j = get_at π j ≫= child i.
Proof. unfold get_at. by rewrite foldl_app. Qed.

Lemma child_alter i f j x : child i j = Some x -> child i (alter_child i f j) = Some (f x).
Proof.
  destruct j as [| | | o | l | | |]; cbn; try done.
  - unfold node_data. rsimpl. destruct (nodes o !! i) as [[k y] |] eqn:E; [| done]. intros [= <-].
    by rewrite list_lookup_alter_eq, E.
  - intros E. by rewrite list_lookup_alter_eq, E.
Qed.

Lemma child_alter_ne i k f j : i <> k -> child k (alter_child i f j) = child k j.
Proof.
  intros Hne. destruct j as [| | | o | l | | |]; cbn; try done.
  - unfold node_data. rsimpl. by rewrite list_lookup_alter_ne.
  - by rewrite list_lookup_alter_ne.
Qed.

Lemma alter_child_compose i f g j : alter_child i f (alter_child i g j) = alter_child i (f ∘ g) j.
Proof.
  destruct j as [| | | o | l | | |]; cbn; try done; f_equal.
  - destruct o as [t ns]. unfold upd. cbn. f_equal. by rewrite list_alter_twice.
  - by rewrite list_alter_twice.
Qed.

Lemma get_alter π f j x : get_at π j = Some x -> get_at π (alter_at π f j) = Some (f x).
Proof.
  revert j. induction π as [| i π IH]; intros j; cbn [alter_at].
  - intros [= ->]. done.
  - rewrite !get_at_cons. destruct (child i j) as [y |] eqn:E; [| done]. cbn. intros H.
    rewrite (child_alter _ _ _ y E). cbn. by apply IH.
Qed.

Lemma alter_child_ext i f g j : (forall x, child i j = Some x -> f x = g x) -> alter_child i f j = alter_child i g j.
Proof.
  destruct j as [| | | o | l | | |]; cbn; intros H; try done; f_equal.
  - destruct o as [t ns]. unfold upd. cbn. f_equal. apply list_alter_ext; [| done].
    intros [k y] E. cbn. f_equal. apply H. unfold node_data. cbn. by rewrite E.
  - by apply list_alter_ext.
Qed.

Lemma alter_at_ext π f g j : (forall x, get_at π j = Some x -> f x = g x) -> alter_at π f j = alter_at π g j.
Proof.
  revert j. induction π as [| i π IH]; intros j H; cbn [alter_at]; [by apply H |].
  apply alter_child_ext. intros x E. apply IH. intros y Hy. apply H. by rewrite get_at_cons, E.
Qed.

Lemma alter_at_compose π f g j : alter_at π f (alter_at π g j) = alter_at π (f ∘ g) j.
Proof.
  revert j. induction π as [| i π IH]; intros j; cbn [alter_at]; [done |].
  rewrite alter_child_compose. apply alter_child_ext. intros x _. apply IH.
Qed.

Lemma alter_at_snoc π i f j : alter_at (π ++ [i]) f j = alter_at π (alter_child i f) j.
Proof. revert j. induction π as [| k π IH]; intros j; cbn; [done |]. apply alter_child_ext. intros. apply IH. Qed.

(** ** Putting a value *)

Definition put_in node (name : option chars) x : json :=
  match node, name with
  | JSON_OBJECT object, Some name => JSON_OBJECT (json_object_put hash_string object name x)
  | JSON_ARRAY elems, _ => JSON_ARRAY (elems ++ [x])
  | _, _ => node
  end.

Definition place_in node (name : option chars) : nat :=
  match node, name with
  | JSON_OBJECT object, Some name => member_place hash_string object name
  | JSON_ARRAY elems, _ => length elems
  | _, _ => 0%nat
  end.

(** A value can be put into this one. *)
Definition accepts node (name : option chars) : Prop :=
  match node with JSON_OBJECT _ => is_Some name | JSON_ARRAY _ => True | _ => False end.

Lemma put_at_place node name x f :
  accepts node name ->
  child (place_in node name) (put_in node name x) = Some x /\
  alter_child (place_in node name) f (put_in node name x) = put_in node name (f x).
Proof.
  destruct node as [| | | o | l | | |]; try done; cbn [accepts].
  - intros [k ->]. cbn [put_in place_in child alter_child].
    unfold json_object_put, member_place, shash_replace, node_data.
    change (shash_find__ o k (hash_name hash_string k)) with (shash_find hash_string o k).
    destruct (shash_find hash_string o k) as [i |] eqn:E; cbn; rsimpl.
    + assert (exists y, nodes o !! i = Some y) as [y Ey].
      { apply List.find_some in E as [_ E]. unfold has_name in E. destruct (nodes o !! i); [by eexists | done]. }
      unfold set_data. rsimpl. rewrite list_lookup_alter_eq, Ey. split; [done |]. destruct o as [t ns]. unfold upd. cbn.
      by rewrite list_alter_twice.
    + rewrite list_lookup_middle by done. split; [done |]. destruct o as [t ns]. unfold upd. cbn.
      by rewrite alter_app_r_alt, Nat.sub_diag by done.
  - intros _. cbn. rewrite list_lookup_middle by done. split; [done |]. by rewrite alter_app_r_alt, Nat.sub_diag by done.
Qed.

Lemma put_value_spec p π stk node value :
  stack p = π :: stk -> get_at π (tree p) = Some node -> accepts node (member_name p) ->
  json_parser_put_value p value =
    Some (place_in node (member_name p),
          p <| tree ::= alter_at π (λ _, put_in node (member_name p) value) |>
            <| member_name := if node is JSON_OBJECT _ then None else member_name p |>).
Proof.
  intros Hs Hg Ha. unfold json_parser_put_value, json_parser_top. rewrite Hs. cbn. rewrite Hg. cbn.
  destruct node as [| | | o | l | | |]; try done. cbn in Ha. destruct Ha as [k Hk]. by rewrite Hk.
Qed.

(** ** Well-formed values *)

(** Containers are nested at most [n] deep and have at most [N] members or elements; names and
    strings are C strings, integers fit into 64 bits, and reals satisfy [P]. *)
Fixpoint wf_json (P : R -> Prop) (N : Z) (n : nat) j : Prop :=
  match j with
  | JSON_OBJECT o =>
      match n with
      | O => False
      | S n => (exists m, ok hash_string o m /\ Z.of_nat (size m) <= N) /\
               Forall (λ kv, no_nul kv.1 /\ wf_json P N n kv.2) (nodes o)
      end
  | JSON_ARRAY l => match n with O => False | S n => Z.of_nat (length l) <= N /\ Forall (wf_json P N n) l end
  | JSON_INTEGER z => LLONG_MIN <= z <= LLONG_MAX
  | JSON_REAL r => P r
  | JSON_STRING s => no_nul s
  | _ => True
  end.

Lemma wf_json_mono (P P' : R -> Prop) N N' n j :
  (forall r, P r -> P' r) -> N <= N' -> wf_json P N n j -> wf_json P' N' n j.
Proof.
  intros HP HN. revert j. induction n as [| n IH]; intros j; destruct j as [| | | o | l | | |]; cbn; try done; try apply HP.
  - intros [(m & O & Hm) Hf]. split; [exists m; split; [done | lia] |].
    eapply Forall_impl; [done |]. intros [k x] [H1 H2]. split; [done | by apply IH].
  - intros [Hl Hf]. split; [lia |]. eapply Forall_impl; [done |]. intros x. apply IH.
Qed.

(** What the reals that the lexer makes satisfy. *)
Context (P : R -> Prop) (HP : forall buffer r, json_lex_number buffer = inl (T_REAL r) -> P r).

Abbreviation wf := (wf_json P).

Lemma wf_mono N N' n j : N <= N' -> wf N n j -> wf N' n j.
Proof. by apply wf_json_mono. Qed.

Lemma wf_child N n i j x : wf N n j -> child i j = Some x -> exists n', n = S n' /\ wf N n' x.
Proof.
  destruct j as [| | | o | l | | |]; try done; destruct n as [| n]; try done; cbn [wf_json child].
  - intros [_ Hf]. unfold node_data. destruct (nodes o !! i) as [[k y] |] eqn:E; [| done]. intros [= <-].
    exists n. split; [done |]. by apply (Forall_lookup_1 _ _ _ _ Hf) in E as [_ E].
  - intros [_ Hf] E. exists n. split; [done |]. by apply (Forall_lookup_1 _ _ _ _ Hf) in E.
Qed.

Lemma wf_get N n π j x : wf N n j -> get_at π j = Some x -> exists n', n = (length π + n')%nat /\ wf N n' x.
Proof.
  revert n j. induction π as [| i π IH]; intros n j Hw Hg.
  - injection Hg as ->. by exists n.
  - rewrite get_at_cons in Hg. destruct (child i j) as [y |] eqn:E; [| done]. cbn in Hg.
    destruct (wf_child N n i j y Hw E) as (n' & -> & Hy). destruct (IH n' y Hy Hg) as (n'' & -> & Hx). by exists n''.
Qed.

Lemma wf_alter_child N n i f j x :
  wf N (S n) j -> child i j = Some x -> wf N n (f x) -> wf N (S n) (alter_child i f j).
Proof.
  destruct j as [| | | o | l | | |]; try done; cbn [wf_json child alter_child].
  - intros [(m & O & Hm) Hf] E Hx. unfold node_data in E.
    destruct (nodes o !! i) as [[k y] |] eqn:Ei; [| done]. injection E as <-. split.
    + exists m. split; [| done]. apply (ok_names _ o); [done | done |]. intros j. rsimpl.
      destruct (decide (i = j)) as [<- |]; [by rewrite list_lookup_alter_eq, Ei | by rewrite list_lookup_alter_ne].
    + rsimpl. apply Forall_alter; [done |]. intros kv E [H1 _]. rewrite Ei in E. injection E as <-. done.
  - intros [Hl Hf] E Hx. rewrite length_alter. split; [done |]. apply Forall_alter; [done |]. intros y E' _. rewrite E in E'. by injection E' as <-.
Qed.

Lemma wf_alter N n π f j x :
  wf N n j -> get_at π j = Some x -> (forall n', n = (length π + n')%nat -> wf N n' x -> wf N n' (f x)) ->
  wf N n (alter_at π f j).
Proof.
  revert n j. induction π as [| i π IH]; intros n j Hw Hg Hf; cbn [alter_at].
  - injection Hg as ->. by apply Hf.
  - rewrite get_at_cons in Hg. destruct (child i j) as [y |] eqn:E; [| done]. cbn in Hg.
    destruct (wf_child N n i j y Hw E) as (n' & -> & Hy). apply (wf_alter_child N n' i _ j y); [done | done |].
    apply IH; [done | done |]. intros n'' ->. apply Hf. done.
Qed.

Lemma wf_put N n node name x :
  in_u 64 (N + 1) -> wf N (S n) node -> accepts node name -> (forall k, name = Some k -> no_nul k) ->
  wf (N + 1) n x -> wf (N + 1) (S n) (put_in node name x).
Proof.
  intros HN Hw Ha Hk Hx. destruct node as [| | | o | l | | |]; try done; cbn [wf_json put_in accepts] in *.
  - destruct Ha as [k ->]. cbn [wf_json]. specialize (Hk k eq_refl). destruct Hw as [(m & O & Hm) Hf]. split.
    + destruct (ok_represents hash_string o m O) as (c & Hr & Hc).
      destruct (replace_contents hash_string o c k x Hr) as [_ Hr']; [unfold in_u in *; lia |].
      destruct (represents_ok hash_string _ _ Hr') as (m' & O' & Hm'). exists m'. split; [done |].
      rewrite Hm'. assert (size (<[k := x]> c) <= S (size c))%nat; [| lia].
      destruct (c !! k) eqn:E; [rewrite (map_size_insert_Some k _ c) by (by eexists) | rewrite map_size_insert_None by done]; lia.
    + assert (Forall (λ kv, no_nul kv.1 /\ wf (N + 1) n kv.2) (nodes o)) as Hf'.
      { eapply Forall_impl; [done |]. intros kv [H1 H2]. split; [done |]. apply (wf_mono N); [lia | done]. }
      unfold json_object_put, shash_replace. destruct (shash_find__ _ _ _); cbn.
      * unfold set_data. rsimpl. apply Forall_alter; [done |]. intros kv _ [H1 _]. done.
      * rsimpl. apply Forall_app. split; [done |]. by apply Forall_singleton.
  - destruct Hw as [Hl Hf]. rewrite length_app. cbn [length]. split; [lia |].
    apply Forall_app. split; [| by apply Forall_singleton]. eapply Forall_impl; [done |]. intros y. apply wf_mono. lia.
Qed.

(** ** The invariant of the parser *)

Variant kind := Object | Array | Scalar.

Definition kind_of j : kind :=
  match j with JSON_OBJECT _ => Object | JSON_ARRAY _ => Array | _ => Scalar end.

(** The kind of value on top of the stack in a state inside a value. *)
Definition state_kind (st : json_parse_state) : option kind :=
  match st with
  | JSON_PARSE_START | JSON_PARSE_END => None
  | JSON_PARSE_OBJECT_INIT | JSON_PARSE_OBJECT_NAME | JSON_PARSE_OBJECT_COLON
  | JSON_PARSE_OBJECT_VALUE | JSON_PARSE_OBJECT_NEXT => Some Object
  | JSON_PARSE_ARRAY_INIT | JSON_PARSE_ARRAY_VALUE | JSON_PARSE_ARRAY_NEXT => Some Array
  end.

(** The stack holds the paths from the root to the top. *)
Inductive chain : list (list nat) -> Prop :=
  | chain_root : chain [[]]
  | chain_push π i stk : chain (π :: stk) -> chain ((π ++ [i]) :: π :: stk).

Lemma chain_inv π stk :
  chain (π :: stk) ->
  π = [] /\ stk = [] \/ exists π' i stk', π = π' ++ [i] /\ stk = π' :: stk' /\ chain (π' :: stk').
Proof.
  remember (π :: stk) as s eqn:E. destruct 1 as [| π' i stk' H]; injection E as <- <-; [by left | right].
  by exists π', i, stk'.
Qed.

Lemma chain_length π stk : chain (π :: stk) -> length stk = length π.
Proof.
  remember (π :: stk) as s eqn:E. intros H. revert π stk E.
  induction H as [| π' i stk' H IH]; intros π stk [= <- <-]; [done |]. cbn. rewrite length_app, (IH π' stk') by done.
  cbn. lia.
Qed.

Lemma chain_prefix π stk π' : chain (π :: stk) -> π' ∈ π :: stk -> exists q, π = π' ++ q.
Proof.
  remember (π :: stk) as s eqn:E. intros H. revert π stk E.
  induction H as [| π0 i stk0 H IH]; intros π stk [= <- <-] Hin.
  - apply list_elem_of_singleton in Hin as ->. by exists [].
  - apply elem_of_cons in Hin as [-> | Hin]; [exists []; by rewrite app_nil_r |].
    destruct (IH π0 stk0 eq_refl Hin) as (q & ->). exists (q ++ [i]). by rewrite app_assoc.
Qed.

Lemma get_alter_prefix π q f j x :
  get_at π j = Some x -> get_at π (alter_at (π ++ q) f j) = Some (alter_at q f x).
Proof.
  revert j. induction π as [| i π IH]; intros j; cbn [app alter_at].
  - intros [= ->]. done.
  - rewrite !get_at_cons. destruct (child i j) as [y |] eqn:E; [| done]. cbn. intros H.
    rewrite (child_alter _ _ _ y E). cbn. by apply IH.
Qed.

Lemma kind_alter q f x : (q = [] -> kind_of (f x) = kind_of x) -> kind_of (alter_at q f x) = kind_of x.
Proof. destruct q as [| i q]; intros H; [by apply H |]. by destruct x. Qed.

Record pinv (N : Z) p : Prop := {
  pi_error : is_Some (error p) -> done p = true;
  pi_stack : stack p = [] /\ parse_state p = JSON_PARSE_START \/
             chain (stack p) /\ (length (stack p) <= 1000)%nat /\ wf N 1000 (tree p) /\
             (forall π, π ∈ stack p -> exists x, get_at π (tree p) = Some x /\ kind_of x <> Scalar) /\
             (if decide (parse_state p = JSON_PARSE_END) then stack p = [[]]
              else exists π x, head (stack p) = Some π /\ get_at π (tree p) = Some x /\
                     state_kind (parse_state p) = Some (kind_of x));
  pi_name : (if decide (parse_state p ∈ [JSON_PARSE_OBJECT_COLON; JSON_PARSE_OBJECT_VALUE])
             then is_Some (member_name p) else True) /\ (forall k, member_name p = Some k -> no_nul k);
}.

(** Fields that the invariant does not depend on. *)
Lemma pinv_ext N N' p p' :
  pinv N p -> N <= N' ->
  (is_Some (error p') -> done p' = true) -> parse_state p' = parse_state p -> tree p' = tree p ->
  stack p' = stack p -> member_name p' = member_name p -> pinv N' p'.
Proof.
  intros I HN He Hs Ht Hst Hm. split; [done | |]; rewrite ?Hs, ?Ht, ?Hst, ?Hm; [| apply I].
  destruct (pi_stack _ _ I) as [H | (H1 & H2 & H3 & H4)]; [by left | right].
  split; [done |]. split; [done |]. split; [by apply (wf_mono N) | done].
Qed.

Lemma pinv_error N p message : pinv N p -> pinv N (json_error p message) /\ done (json_error p message) = true.
Proof.
  intros I. unfold json_error. destruct (error p) eqn:E.
  - split; [done |]. apply (pi_error _ _ I). by rewrite E.
  - split; [| done]. by apply (pinv_ext N N p).
Qed.

(** In a state inside a value. *)
Lemma pinv_inside N p k :
  pinv N p -> state_kind (parse_state p) = Some k ->
  exists π stk x n, stack p = π :: stk /\ chain (stack p) /\ (length (stack p) <= 1000)%nat /\
    wf N 1000 (tree p) /\ get_at π (tree p) = Some x /\ kind_of x = k /\
    (1000 = length π + S n)%nat /\ wf N (S n) x.
Proof.
  intros I Hk. destruct (pi_stack _ _ I) as [[_ H] | (H1 & H2 & H3 & H4 & H5)]; [by rewrite H in Hk |].
  destruct (decide _) as [E | _]; [by rewrite E in Hk |]. destruct H5 as (π & x & Hh & Hg & Hx).
  destruct (stack p) as [| π' stk] eqn:Es; [done |]. injection Hh as ->.
  destruct (wf_get N 1000 π (tree p) x H3 Hg) as (n & En & Hw).
  destruct (H4 π ltac:(by constructor)) as (x' & Hg' & Hk'). rewrite Hg in Hg'. injection Hg' as <-.
  exists π, stk, x. pose proof (chain_length _ _ H1) as Hl. cbn in H2. destruct n as [| n]; [lia |].
  exists n. repeat split; try done. rewrite Hk in Hx. by injection Hx as <-.
Qed.

Lemma kind_put node name x : kind_of (put_in node name x) = kind_of node.
Proof. destruct node, name; done. Qed.

(** Putting a value into the one on top of the stack. *)
Lemma put_keeps N p π stk node n value :
  pinv N p -> in_u 64 (N + 1) -> stack p = π :: stk -> chain (stack p) -> (length (stack p) <= 1000)%nat ->
  wf N 1000 (tree p) -> get_at π (tree p) = Some node -> (1000 = length π + S n)%nat -> wf (N + 1) n value ->
  accepts node (member_name p) ->
  let t := alter_at π (λ _, put_in node (member_name p) value) (tree p) in
  wf (N + 1) 1000 t /\ get_at π t = Some (put_in node (member_name p) value) /\
  (forall π', π' ∈ stack p -> exists x, get_at π' t = Some x /\ kind_of x <> Scalar).
Proof.
  intros I HN Hs Hc Hl Hw Hg En Hv Ha t. split; [| split].
  - apply (wf_alter _ _ _ _ _ node); [apply (wf_mono N); [lia | done] | done |]. intros n' En' _.
    assert (n' = S n) as -> by lia. destruct (wf_get N 1000 π _ node Hw Hg) as (n2 & En2 & Hw2).
    assert (n2 = S n) as -> by lia. apply wf_put; [done | done | done | apply I | done].
  - unfold t. by rewrite (get_alter _ _ _ node).
  - intros π' Hin. destruct (pi_stack _ _ I) as [[E _] | (_ & _ & _ & H4 & _)]; [by rewrite E in Hs |].
    destruct (H4 π' Hin) as (x & Hx & Hk). rewrite Hs in Hin, Hc. destruct (chain_prefix _ _ _ Hc Hin) as (q & ->).
    exists (alter_at q (λ _, put_in node (member_name p) value) x). split; [by apply get_alter_prefix |].
    rewrite kind_alter; [done |]. intros ->. rewrite app_nil_r, Hx in Hg. injection Hg as ->. apply kind_put.
Qed.

(** The next state is inside a value of the given kind and needs no name. *)
Definition plain_state (st : json_parse_state) (k : kind) : Prop :=
  state_kind st = Some k /\ st ∉ [JSON_PARSE_OBJECT_COLON; JSON_PARSE_OBJECT_VALUE].

Lemma plain_state_end st k : plain_state st k -> st <> JSON_PARSE_END.
Proof. by intros [H _] ->. Qed.

Lemma kind_accepts x p k :
  kind_of x = k -> k <> Scalar -> (k = Object -> is_Some (member_name p)) -> accepts x (member_name p).
Proof. intros <-. destruct x; cbn; intros H1 H2; try done. by apply H2. Qed.

Lemma scalar_keeps N p k value next :
  pinv N p -> in_u 64 (N + 1) -> state_kind (parse_state p) = Some k -> k <> Scalar ->
  (k = Object -> is_Some (member_name p)) -> (forall n, wf (N + 1) n value) -> plain_state next k ->
  exists i p', json_parser_put_value p value = Some (i, p') /\ pinv (N + 1) (p' <| parse_state := next |>).
Proof.
  intros I HN Hk Hks Hname Hv [Hn1 Hn2]. destruct (pinv_inside N p k I Hk) as (π & stk & x & n & Hs & Hc & Hl & Hw & Hg & Hx & En & Hwx).
  pose proof (kind_accepts x p k Hx Hks Hname) as Ha.
  destruct (put_keeps N p π stk x n value I HN Hs Hc Hl Hw Hg En (Hv n) Ha) as (Hw' & Hg' & Hst).
  rewrite (put_value_spec p π stk x value Hs Hg Ha). eexists _, _. split; [done |]. split; rsimpl.
  - apply I.
  - right. split; [done |]. split; [done |]. split; [done |]. split; [done |].
    rewrite decide_False by (by apply (plain_state_end _ k)). exists π. eexists. rewrite Hs. split; [done |]. split; [done |].
    by rewrite kind_put, Hx.
  - rewrite decide_False by done. split; [done |]. intros key. destruct x; solve [apply I | done].
Qed.

Lemma push_keeps N p new st k' :
  pinv N p -> in_u 64 (N + 1) -> (forall n, wf (N + 1) (S n) new) -> kind_of new = k' -> k' <> Scalar -> plain_state st k' ->
  (parse_state p = JSON_PARSE_START \/
   exists k, state_kind (parse_state p) = Some k /\ k <> Scalar /\ (k = Object -> is_Some (member_name p))) ->
  exists p', json_parser_push hash_string p new st = Some p' /\ pinv (N + 1) p'.
Proof.
  intros I HN Hnew Hkn Hks [Hst1 Hst2] Hp. unfold json_parser_push, height.
  destruct (Z.ltb_spec (Z.of_nat (length (stack p))) JSON_MAX_HEIGHT) as [Hlt | _].
  2: { eexists. split; [done |]. destruct (pinv_error N p (str "input exceeds maximum nesting depth " ++ print_int JSON_MAX_HEIGHT) I) as [I' _].
       eapply pinv_ext; [exact I' | lia | apply I' | done..]. }
  destruct Hp as [Hp | (k & Hk & Hkns & Hname)].
  - destruct (pi_stack _ _ I) as [[E _] | (H1 & _ & _ & _ & H5)].
    2: { rewrite Hp in H5. destruct H5 as (π & x & _ & _ & H). done. }
    rewrite E. eexists. split; [done |]. split; rsimpl; [apply I | right |].
    + split; [constructor |]. split; [cbn; lia |]. split; [apply (Hnew 999%nat) |]. split.
      * intros π ->%list_elem_of_singleton. exists new. split; [done |]. by rewrite Hkn.
      * rewrite decide_False by (by apply (plain_state_end _ k')). exists [], new. split; [done |]. split; [done |]. by rewrite Hkn.
    + rewrite decide_False by done. split; [done | apply I].
  - destruct (pinv_inside N p k I Hk) as (π & stk & x & n & Hs & Hc & Hl & Hw & Hg & Hx & En & Hwx).
    pose proof (kind_accepts x p k Hx Hkns Hname) as Ha. rewrite Hs. rewrite Hs in Hlt, Hc. cbn in Hlt. unfold JSON_MAX_HEIGHT in Hlt.
    pose proof (chain_length _ _ Hc) as Hlen. destruct n as [| n]; [lia |].
    destruct (put_keeps N p π stk x (S n) new I HN Hs ltac:(by rewrite Hs) Hl Hw Hg En (Hnew n) Ha) as (Hw' & Hg' & Hst).
    rewrite (put_value_spec p π stk x new Hs Hg Ha). cbn. eexists. split; [done |].
    assert (get_at (π ++ [place_in x (member_name p)])
      (alter_at π (λ _, put_in x (member_name p) new) (tree p)) = Some new) as Htop.
    { rewrite get_at_snoc, Hg'. cbn. by apply put_at_place. }
    split; rsimpl; [apply I | right |].
    + rewrite Hs. split; [by constructor |]. split; [cbn [length]; lia |]. split; [done |]. split.
      * intros π' [-> | Hin]%elem_of_cons; [| apply Hst; by rewrite Hs]. exists new. split; [done |]. by rewrite Hkn.
      * rewrite decide_False by (by apply (plain_state_end _ k')). eexists _, new. split; [done |]. split; [done |]. by rewrite Hkn.
    + rewrite decide_False by done. split; [done |]. intros key. destruct x; solve [apply I | done].
Qed.

Lemma pop_keeps N p k :
  pinv N p -> state_kind (parse_state p) = Some k -> exists p', json_parser_pop p = Some p' /\ pinv N p'.
Proof.
  intros I Hk. destruct (pinv_inside N p k I Hk) as (π & stk & x & n & Hs & Hc & Hl & Hw & Hg & Hx & _ & _).
  destruct (pi_stack _ _ I) as [[E _] | (_ & _ & _ & Hnodes & _)]; [by rewrite E in Hs |].
  unfold json_parser_pop, top_value, json_parser_top. rewrite Hs. cbn. rewrite Hg. cbn.
  rewrite Hs in Hc. destruct (chain_inv _ _ Hc) as [[-> ->] | (π' & i & stk' & -> & -> & Hc')].
  - assert (pinv N (p <| parse_state := JSON_PARSE_END |>)) as I'.
    { split; rsimpl; [apply I | right | split; [done | apply I]]. rewrite Hs. split; [constructor |].
      split; [cbn; lia |]. split; [done |]. split; [by rewrite <- Hs | done]. }
    eexists. split; [done |]. destruct (_ =? 0); [| done]. by apply (pinv_ext N N _ _ I').
  - rsimpl. rewrite Hs. cbn. destruct (Hnodes π') as (y & Hy & Hky); [rewrite Hs; by constructor; constructor |].
    rewrite Hy. cbn. assert (exists st, plain_state st (kind_of y) /\
      match y with
      | JSON_ARRAY _ => Some (p <| stack ::= tail |> <| parse_state := JSON_PARSE_ARRAY_NEXT |>)
      | JSON_OBJECT _ => Some (p <| stack ::= tail |> <| parse_state := JSON_PARSE_OBJECT_NEXT |>)
      | _ => None
      end = Some (p <| stack ::= tail |> <| parse_state := st |>)) as (st & [Hst1 Hst2] & ->).
    { destruct y; try done; eexists; (split; [| done]); (split; [done |]); by apply (bool_decide_unpack _). }
    eexists. split; [done |]. split; rsimpl; [apply I | right |].
    + rewrite Hs. cbn [tail head]. split; [done |]. split; [rewrite Hs in Hl; cbn [length] in *; lia |]. split; [done |]. split.
      * intros π2 Hin. apply Hnodes. rewrite Hs. by constructor.
      * rewrite decide_False by (by apply (plain_state_end _ (kind_of y))). by exists π', y.
    + rewrite decide_False by done. split; [done | apply I].
Qed.

(** ** Tokens *)

Definition token_ok (token : json_token R) : Prop :=
  match token with
  | T_INTEGER z => LLONG_MIN <= z <= LLONG_MAX
  | T_REAL r => P r
  | T_STRING s => no_nul s
  | _ => True
  end.

Lemma wf_empty_object N n : 0 <= N -> wf N (S n) json_object_create.
Proof.
  intros HN. cbn. split; [| constructor].
  destruct (represents_ok hash_string (shash_init (A := json)) ∅ (init_contents hash_string)) as (m & O & Hm).
  exists m. split; [done |]. rewrite Hm, map_size_empty. lia.
Qed.

Ltac plain := split; [done | by apply (bool_decide_unpack _)].

Lemma push_object_keeps N p :
  pinv N p -> in_u 64 (N + 1) ->
  (parse_state p = JSON_PARSE_START \/
   exists k, state_kind (parse_state p) = Some k /\ k <> Scalar /\ (k = Object -> is_Some (member_name p))) ->
  exists p', json_parser_push_object hash_string p = Some p' /\ pinv (N + 1) p'.
Proof.
  intros I HN Hp. apply (push_keeps N p _ _ Object); try done; [| plain].
  intros n. apply wf_empty_object. unfold in_u in HN. lia.
Qed.

Lemma push_array_keeps N p :
  pinv N p -> in_u 64 (N + 1) ->
  (parse_state p = JSON_PARSE_START \/
   exists k, state_kind (parse_state p) = Some k /\ k <> Scalar /\ (k = Object -> is_Some (member_name p))) ->
  exists p', json_parser_push_array hash_string p = Some p' /\ pinv (N + 1) p'.
Proof. intros I HN Hp. apply (push_keeps N p _ _ Array); try done; [| plain]. intros n. cbn. unfold in_u in HN. split; [lia | constructor]. Qed.

Lemma parse_value_keeps N p token k next :
  pinv N p -> in_u 64 (N + 1) -> token_ok token -> state_kind (parse_state p) = Some k -> k <> Scalar ->
  (k = Object -> is_Some (member_name p)) -> plain_state next k ->
  exists p', json_parse_value hash_string p token next = Some p' /\ pinv (N + 1) p'.
Proof.
  intros I HN Ht Hk Hks Hname Hn.
  assert (forall v, (forall n, wf (N + 1) n v) -> exists p',
    ('(_, p) ← json_parser_put_value p v; Some (p <| parse_state := next |>)) = Some p' /\ pinv (N + 1) p') as Hsc.
  { intros v Hv. destruct (scalar_keeps N p k v next I HN Hk Hks Hname Hv Hn) as (i & p' & -> & H). by eexists. }
  assert (forall message, exists p', Some (json_error p message) = Some p' /\ pinv (N + 1) p') as He.
  { intros message. eexists. split; [done |]. destruct (pinv_error N p message I) as [I' _].
    eapply pinv_ext; [exact I' | lia | apply I' | done..]. }
  assert (exists k, state_kind (parse_state p) = Some k /\ k <> Scalar /\ (k = Object -> is_Some (member_name p))) as Hin
    by by exists k.
  destruct token; cbn [json_parse_value]; try apply He; try (by apply Hsc; intros []).
  - by apply push_array_keeps; [.. | right].
  - by apply push_object_keeps; [.. | right].
Qed.

(** A change of state inside the same value. *)
Lemma move_keeps N p p' k :
  pinv N p -> state_kind (parse_state p) = Some k -> state_kind (parse_state p') = Some k ->
  error p' = error p -> done p' = done p -> tree p' = tree p -> stack p' = stack p ->
  (parse_state p' ∈ [JSON_PARSE_OBJECT_COLON; JSON_PARSE_OBJECT_VALUE] -> is_Some (member_name p')) ->
  (forall key, member_name p' = Some key -> no_nul key) -> pinv N p'.
Proof.
  intros I Hk Hk' Ee Ed Et Es Hn1 Hn2. destruct (pinv_inside N p k I Hk) as (π & stk & x & n & E & Hc & Hl & Hw & Hg & Hx & _).
  destruct (pi_stack _ _ I) as [[E' _] | (_ & _ & _ & Hnodes & _)]; [by rewrite E' in E |].
  split; rewrite ?Ee, ?Ed, ?Et, ?Es; [apply I | right | split; [by case_decide; [apply Hn1 |] | done]].
  repeat (split; [done |]). case_decide as He; [by rewrite He in Hk' |]. exists π, x. by rewrite E, Hx.
Qed.

Lemma parse_input_keeps N p token :
  pinv N p -> in_u 64 (N + 1) -> token_ok token ->
  exists p', json_parser_input p token = Some p' /\ pinv (N + 1) p' /\ lex_state p' = JSON_LEX_START.
Proof.
  intros I HN Ht.
  assert (forall q, pinv N q -> exists q', Some q = Some q' /\ pinv (N + 1) q') as Hs.
  { intros q Hq. eexists. split; [done |]. eapply pinv_ext; [exact Hq | lia | apply Hq | done..]. }
  assert (forall message, exists q', Some (json_error p message) = Some q' /\ pinv (N + 1) q') as He.
  { intros message. apply Hs. by apply pinv_error. }
  assert (forall k st, state_kind (parse_state p) = Some k -> plain_state st k -> pinv N (p <| parse_state := st |>)) as Hmove.
  { intros k st Hk [Hs1 Hs2]. apply (move_keeps N p _ k); rsimpl; [done.. | apply I]. }
  assert (state_kind (parse_state p) = Some Object -> exists q, parse_object_name p token = Some q /\ pinv (N + 1) q) as Hobj.
  { intros Hk. destruct token; try apply He. apply Hs. apply (move_keeps N p _ Object); rsimpl; try done.
    by intros key [= <-]. }
  assert (forall k, state_kind (parse_state p) = Some k -> exists q, json_parser_pop p = Some q /\ pinv (N + 1) q) as Hpop.
  { intros k Hk. destruct (pop_keeps N p k I Hk) as (q & -> & Iq). by apply Hs. }
  assert (forall k next, state_kind (parse_state p) = Some k -> k <> Scalar -> (k = Object -> is_Some (member_name p)) ->
    plain_state next k -> exists q, json_parse_value hash_string p token next = Some q /\ pinv (N + 1) q) as Hval.
  { intros k next Hk Hks Hname Hn. by apply (parse_value_keeps N p token k). }
  assert (forall o, (exists q, o = Some q /\ pinv (N + 1) q) ->
    exists p', (p ← o; Some (p <| lex_state := JSON_LEX_START |> <| buffer := [] |>)) = Some p' /\
      pinv (N + 1) p' /\ lex_state p' = JSON_LEX_START) as Hfin.
  { intros o (q & -> & Iq). eexists. split; [done |]. split; [| done]. eapply pinv_ext; [exact Iq | lia | apply Iq | done..]. }
  unfold Json.json_parser_input. apply Hfin. destruct (parse_state p) eqn:Est.
  - destruct token; try apply He; [by apply push_array_keeps; [.. | left] | by apply push_object_keeps; [.. | left]].
  - apply He.
  - destruct token; try by apply Hobj. by apply (Hpop Object).
  - by apply Hobj.
  - destruct token; try apply He. apply Hs. apply (move_keeps N p _ Object); rsimpl; try done; [by rewrite Est | | apply I].
    intros _. destruct (pi_name _ _ I) as [H _]. rewrite Est in H. exact H.
  - apply (Hval Object); [done | done | | plain]. intros _. destruct (pi_name _ _ I) as [H _]. rewrite Est in H. exact H.
  - destruct token; try apply He; [by apply (Hpop Object) |]. apply Hs, (Hmove Object); [done | plain].
  - destruct token; try (by apply (Hval Array); [done | done | done | plain]). by apply (Hpop Array).
  - apply (Hval Array); [done | done | done | plain].
  - destruct token; try apply He; [by apply (Hpop Array) |]. apply Hs, (Hmove Array); [done | plain].
Qed.

(** ** The lexer *)

Lemma swrap_range (x : Z) : LLONG_MIN <= s64 x <= LLONG_MAX.
Proof. unfold swrap, LLONG_MIN, LLONG_MAX. Z.to_euclidean_division_equations; lia. Qed.

Lemma integer_value_range negative significand pow10 imprecise z :
  integer_value negative significand pow10 imprecise = Some z -> LLONG_MIN <= z <= LLONG_MAX.
Proof.
  unfold integer_value. destruct imprecise; [done |]. cbn [negb]. destruct (scale_up _ _ _). destruct (scale_down _ _ _).
  destruct (_ && _); [| done]. intros [= <-]. apply swrap_range.
Qed.

Lemma lex_number_ok buffer token : json_lex_number (R := R) buffer = inl token -> token_ok token.
Proof.
  intros H. destruct token; try done; [| by eapply HP |].
  all: unfold json_lex_number, lex_rest, lex_value in H; cbv zeta in H.
  all: repeat (case_match; try discriminate H).
  all: injection H as H; subst; try done; try (by eapply integer_value_range).
Qed.

(** A step of the lexer succeeds; it uses the character unless the parser is done or at the
    start of a token afterwards. *)
Lemma lex_input_keeps N p (c : ascii) :
  pinv N p -> in_u 64 (N + 1) ->
  exists used p', json_lex_input p c = Some (used, p') /\ pinv (N + 1) p' /\
    (used = false -> lex_state p <> JSON_LEX_START /\ (done p' = true \/ lex_state p' = JSON_LEX_START)).
Proof.
  intros I HN.
  assert (forall q, parse_state q = parse_state p -> tree q = tree p -> stack q = stack p ->
    member_name q = member_name p -> error q = error p -> done q = done p -> pinv (N + 1) q) as Hext.
  { intros q H1 H2 H3 H4 H5 H6. apply (pinv_ext N _ p); try done; [lia |]. rewrite H5, H6. apply I. }
  assert (forall message, pinv (N + 1) (json_error p message) /\ done (json_error p message) = true) as He.
  { intros message. destruct (pinv_error N p message I) as [I' Hd]. split; [| done].
    eapply pinv_ext; [exact I' | lia | apply I' | done..]. }
  assert (forall token, token_ok token -> exists q, json_parser_input p token = Some q /\ pinv (N + 1) q /\ lex_state q = JSON_LEX_START)
    as Hin by (intros token Ht; by apply parse_input_keeps).
  assert (forall s, exists q, json_parser_input p (T_STRING (cstr s)) = Some q /\ pinv (N + 1) q /\ lex_state q = JSON_LEX_START)
    as Hstr by (intros s; apply Hin; apply no_nul_cstr).
  unfold Json.json_lex_input. destruct (lex_state p) eqn:El.
  - destruct (_ || _); [eexists true, _; split; [done |]; split; [by apply Hext | done] |].
    destruct (islower c); [eexists true, _; split; [done |]; split; [by apply Hext | done] |].
    destruct (punctuation c) as [token |] eqn:Ep.
    { assert (token_ok token) as Ht.
      { unfold punctuation in Ep. repeat (case_match; simplify_eq); done. }
      destruct (Hin token Ht) as (q & -> & Iq & _). by exists true, q. }
    destruct (_ || _); [eexists true, _; split; [done |]; split; [by apply Hext | done] |].
    destruct (c =c chr 34); [eexists true, _; split; [done |]; split; [by apply Hext | done] |].
    destruct (isprint c); eexists true, _; (split; [done |]); (split; [apply He | done]).
  - destruct (negb _); [| eexists true, _; split; [done |]; split; [by apply Hext | done]].
    unfold lex_number. destruct (json_lex_number (buffer p)) as [token | message] eqn:En.
    + destruct (Hin token (lex_number_ok _ _ En)) as (q & -> & Iq & Hq). exists false, q. split; [done |]. split; [done |]. intros _. by split; [| right].
    + exists false. eexists. split; [done |]. split; [apply He |]. intros _. split; [done |]. left. apply He.
  - destruct (negb _); [| eexists true, _; split; [done |]; split; [by apply Hext | done]].
    assert (exists q, json_lex_keyword hash_string p = Some q /\ pinv (N + 1) q /\ (done q = true \/ lex_state q = JSON_LEX_START)) as (q & -> & Iq & Hq).
    { unfold json_lex_keyword. repeat (destruct (bool_decide _); [by edestruct (Hin) as (q & -> & Iq & Hq); [| exists q; split; [done |]; split; [done | by right]] |]).
      eexists. split; [done |]. split; [apply He |]. left. apply He. }
    exists false, q. split; [done |]. split; [done |]. by intros _.
  - destruct (c =c "\"); [eexists true, _; split; [done |]; split; [by apply Hext | done] |].
    destruct (c =c chr 34).
    + unfold json_lex_string. destruct (negb _).
      * destruct (Hstr (buffer p)) as (q & Hq & Iq & _). unfold json_parser_input_string. rewrite Hq. by exists true, q.
      * destruct (json_string_unescape _) as [[] cooked].
        -- destruct (Hstr cooked) as (q & Hq & Iq & _). unfold json_parser_input_string. rewrite Hq. by exists true, q.
        -- exists true. eexists. split; [done |]. split; [apply He | done].
    + destruct (_ <? _); exists true; eexists; (split; [done |]); (split; [| done]); [apply He | by apply Hext].
  - eexists true, _. split; [done |]. split; [by apply Hext | done].
Qed.

(** ** Feeding *)

(** Feeding without fuel: a character that is not used is seen once more. *)
Fixpoint feed_all p (input : chars) : option (nat * parser) :=
  match input with
  | [] => Some (0%nat, p)
  | c :: input =>
      if done p then Some (0%nat, p)
      else
        '(used, p) ← json_lex_input p c;
        if used : bool then '(n, p) ← feed_all (advance c p) input; Some (S n, p)
        else if done p then Some (0%nat, p)
        else '(_, p) ← json_lex_input p c; '(n, p) ← feed_all (advance c p) input; Some (S n, p)
  end.

Lemma advance_keeps N p (c : ascii) : pinv N p -> pinv N (advance c p).
Proof.
  intros I. unfold advance. destruct (_ =? 10); (apply (pinv_ext N N p); [done | done | apply I | done..]).
Qed.

Lemma feed_all_keeps N p s :
  pinv N p -> in_u 64 (N + 2 * Z.of_nat (length s)) -> 0 <= N ->
  exists n p', feed_all p s = Some (n, p') /\ pinv (N + 2 * Z.of_nat (length s)) p' /\
    (n <= length s)%nat /\ (n < length s -> done p' = true)%nat.
Proof.
  revert N p. induction s as [| c s IH]; intros N p I HN H0; cbn [feed_all length] in *.
  - exists 0%nat, p. split; [done |]. split; [| lia]. eapply pinv_ext; [exact I | lia | apply I | done..].
  - destruct (done p) eqn:Ed.
    { exists 0%nat, p. split; [done |]. split; [| split; [lia | done]]. eapply pinv_ext; [exact I | lia | apply I | done..]. }
    destruct (lex_input_keeps N p c I) as (used & p1 & -> & I1 & Hu); [unfold in_u in *; lia |]. cbn [mbind option_bind].
    destruct used.
    { destruct (IH (N + 1 + 1) (advance c p1)) as (n & p' & -> & I' & Hn1 & Hn2); [| unfold in_u in *; lia | lia |].
      { apply advance_keeps. eapply pinv_ext; [exact I1 | lia | apply I1 | done..]. }
      exists (S n), p'. split; [done |]. split; [| lia || (split; [lia | intros; apply Hn2; lia])].
      eapply pinv_ext; [exact I' | lia | apply I' | done..]. }
    destruct (done p1) eqn:Ed1.
    { exists 0%nat, p1. split; [done |]. split; [| split; [lia | done]]. eapply pinv_ext; [exact I1 | lia | apply I1 | done..]. }
    destruct (lex_input_keeps (N + 1) p1 c I1) as (used & p2 & -> & I2 & _); [unfold in_u in *; lia |]. cbn [mbind option_bind].
    destruct (IH (N + 1 + 1) (advance c p2)) as (n & p' & -> & I' & Hn1 & Hn2); [by apply advance_keeps | unfold in_u in *; lia | lia |].
    exists (S n), p'. split; [done |]. split; [| split; [lia | intros; apply Hn2; lia]].
    eapply pinv_ext; [exact I' | lia | apply I' | done..].
Qed.

(** The fuel of the loop is enough. *)
Lemma feed_loop_all N p s fuel i :
  pinv N p -> in_u 64 (N + 2 * Z.of_nat (length s)) -> 0 <= N -> (2 * length s <= fuel)%nat ->
  feed_loop hash_string fuel p s i = ('(n, p') ← feed_all p s; Some ((i + n)%nat, p')).
Proof.
  revert N p fuel i. induction s as [| c s IH]; intros N p fuel i I HN H0 Hf; cbn [feed_all length] in *.
  { cbn. rewrite Nat.add_0_r. by destruct fuel. }
  destruct fuel as [| fuel]; [lia |]. cbn [feed_loop]. destruct (done p) eqn:Ed; [cbn; by rewrite Nat.add_0_r |].
  destruct (lex_input_keeps N p c I) as (used & p1 & -> & I1 & Hu); [unfold in_u in *; lia |]. cbn [mbind option_bind].
  assert (forall N' q, pinv N' q -> N' = N + 1 \/ N' = N + 1 + 1 -> forall fuel', (2 * length s <= fuel')%nat ->
    feed_loop hash_string fuel' (advance c q) s (S i)
    = ('(n, p') ← ('(n, p) ← feed_all (advance c q) s; Some (S n, p)); Some ((i + n)%nat, p'))) as Hrec.
  { intros N' q Iq HN' fuel' Hf'. rewrite (IH N') by (try apply advance_keeps; try done; unfold in_u in *; lia).
    destruct (feed_all _ _) as [[n q'] |]; cbn; [| done]. by rewrite Nat.add_succ_r. }
  destruct used; [apply (Hrec _ _ I1); [by left | lia] |]. destruct (Hu eq_refl) as [_ Hq].
  destruct fuel as [| fuel]; [lia |]. cbn [feed_loop]. destruct (done p1) eqn:Ed1; [cbn; by rewrite Nat.add_0_r |].
  destruct Hq as [? | Hq]; [congruence |].
  destruct (lex_input_keeps (N + 1) p1 c I1) as (used & p2 & -> & I2 & Hu2); [unfold in_u in *; lia |]. cbn [mbind option_bind].
  destruct used; [| by destruct (Hu2 eq_refl)]. apply (Hrec _ _ I2); [by right | lia].
Qed.

Lemma feed_spec N p s :
  pinv N p -> in_u 64 (N + 2 * Z.of_nat (length s)) -> 0 <= N -> json_parser_feed hash_string p s = feed_all p s.
Proof.
  intros I HN H0. unfold json_parser_feed. rewrite (feed_loop_all N) by done. by destruct (feed_all p s) as [[] |].
Qed.

Lemma feed_all_done p s : done p = true -> feed_all p s = Some (0%nat, p).
Proof. intros Hd. destruct s; [done |]. cbn. by rewrite Hd. Qed.

(** Input in two pieces. *)
Lemma feed_all_app p a b :
  feed_all p (a ++ b) = ('(n, p) ← feed_all p a; '(m, p) ← feed_all p b; Some ((n + m)%nat, p)).
Proof.
  revert p. induction a as [| c a IH]; intros p; cbn [app feed_all].
  - cbn. by destruct (feed_all p b) as [[] |].
  - destruct (done p) eqn:Ed; [cbn; by rewrite feed_all_done |].
    destruct (json_lex_input p c) as [[used p1] |]; [| done]. cbn [mbind option_bind].
    assert (forall q, ('(n, p) ← feed_all (advance c q) (a ++ b); Some (S n, p)) =
      ('(n, p) ← ('(n, p) ← feed_all (advance c q) a; Some (S n, p)); '(m, p) ← feed_all p b; Some ((n + m)%nat, p))) as Hrec.
    { intros q. rewrite IH. destruct (feed_all (advance c q) a) as [[n q'] |]; cbn; [| done].
      by destruct (feed_all q' b) as [[] |]. }
    destruct used; [apply Hrec |]. destruct (done p1) eqn:Ed1; [cbn; by rewrite feed_all_done |].
    destruct (json_lex_input p1 c) as [[used p2] |]; [apply Hrec | done].
Qed.

Lemma create_keeps (fl : Z) : pinv 0 (json_parser_create fl).
Proof. split; [by intros [] | by left |]. split; [done |]. by intros k. Qed.

Definition feed_pieces (fl : Z) (pieces : list chars) : option parser :=
  foldl (λ op piece, p ← op; '(_, p) ← json_parser_feed hash_string p piece; Some p)
    (Some (json_parser_create fl)) pieces.

(** The parser after the pieces is the one after all of them at once. *)
Lemma feed_pieces_all fl pieces :
  in_u 64 (2 * Z.of_nat (length (concat pieces))) ->
  exists n p, feed_all (json_parser_create fl) (concat pieces) = Some (n, p) /\ feed_pieces fl pieces = Some p /\
    pinv (2 * Z.of_nat (length (concat pieces))) p.
Proof.
  induction pieces as [| piece pieces IH] using rev_ind; intros HN.
  - exists 0%nat, (json_parser_create fl). split; [done |]. split; [done |]. apply create_keeps.
  - rewrite concat_app, length_app in *. cbn [concat] in *. rewrite app_nil_r in *. unfold feed_pieces in *. rewrite foldl_app.
    destruct IH as (n & p & E & -> & Ip); [unfold in_u in *; lia |]. cbn [foldl mbind option_bind].
    rewrite (feed_spec _ _ _ Ip) by (unfold in_u in *; lia).
    destruct (feed_all_keeps _ p piece Ip) as (m & p' & Ep & Ip' & _); [unfold in_u in *; lia | lia |].
    rewrite Ep. cbn [mbind option_bind]. exists (n + m)%nat, p'. rewrite feed_all_app, E. cbn [mbind option_bind]. rewrite Ep.
    split; [done |]. split; [done |]. eapply pinv_ext; [exact Ip' | lia | apply Ip' | done..].
Qed.

(** What the parser returns. *)
Definition result_ok (N : Z) j : Prop :=
  match j with JSON_STRING _ => True | JSON_OBJECT _ | JSON_ARRAY _ => wf N 1000 j | _ => False end.

Lemma finish_keeps N p :
  pinv N p -> in_u 64 (N + 1) -> exists j, json_parser_finish hash_string p = Some j /\ result_ok (N + 1) j.
Proof.
  intros I HN. unfold json_parser_finish.
  assert (exists q, match lex_state p with
    | JSON_LEX_START => Some p
    | JSON_LEX_STRING | JSON_LEX_ESCAPE => Some (json_error p (str "unexpected end of input in quoted string"))
    | JSON_LEX_NUMBER | JSON_LEX_KEYWORD => '(_, p) ← json_lex_input p " "; Some p
    end = Some q /\ pinv (N + 1) q) as (q & -> & Iq).
  { assert (forall q, pinv N q -> exists q', Some q = Some q' /\ pinv (N + 1) q') as Hs.
    { intros q Hq. eexists. split; [done |]. eapply pinv_ext; [exact Hq | lia | apply Hq | done..]. }
    destruct (lex_input_keeps N p " "%char I HN) as (used & p' & E & I' & _).
    destruct (lex_state p); rewrite ?E; try (by apply Hs); try (by exists p'); by apply Hs, pinv_error. }
  cbn [mbind option_bind].
  assert (forall message, exists j, (match error (json_error q message) with
    | None => if height (json_error q message) =? 1 then Some (tree (json_error q message)) else None
    | Some message => Some (JSON_STRING message) end) = Some j /\ result_ok (N + 1) j) as He.
  { intros message. unfold json_error. destruct (error q) eqn:E; rewrite ?E; by eexists. }
  destruct (decide _) as [| Hns]; [apply He |]. destruct (bool_decide_reflect (parse_state q = JSON_PARSE_END)) as [Hend |]; [| apply He].
  cbn [negb]. destruct (error q); [by eexists |].
  destruct (pi_stack _ _ Iq) as [[_ ?] | (_ & _ & Hw & Hnodes & Hs)]; [done |]. rewrite decide_True in Hs by done.
  unfold height. rewrite Hs. eexists. split; [done |]. destruct (Hnodes []) as (x & Hx & Hk); [rewrite Hs; by constructor |].
  injection Hx as <-. by destruct (tree q).
Qed.

End parse.
End JsonParse.
