(* ===== verification/JsonRead.v ===== *)
(** Reading back what the serializer of JSON writes: how pieces of text move the parser from
    one configuration to another. *)
From stdpp Require Import gmap.
From S2P Require Import Prelude Text Containers Shash Json JsonLex JsonParse.

Module JsonRead.
Import Json JsonLex JsonParse.

(** The characters that end a number or a keyword in the output of the serializer. *)
Definition delimiter (c : ascii) : Prop := c = ","%char \/ c = "]"%char \/ c = "}"%char.

(** Numbers are made of these characters. *)
Definition number_char (c : ascii) : Prop := c <> NUL /\ strchr (str ".0123456789eE-+") c = true.

Lemma delimiter_spec c :
  delimiter c -> isalpha c = false /\ strchr (str ".0123456789eE-+") c = false.
Proof. by intros [-> | [-> | ->]]. Qed.

Section read.
Context {T R : Type} {HT : HashTable T} {HTok : HashTableOk T} {D : Double R}.
Context (hash_string : chars -> Z -> Z).

Abbreviation parser := (json_parser T R).
Abbreviation json := (json T R).
Abbreviation json_lex_input := (json_lex_input hash_string).
Abbreviation json_parser_input := (json_parser_input hash_string).
Abbreviation feed_all := (feed_all hash_string).
Abbreviation put_in := (put_in hash_string).
Implicit Types (p : parser) (j x node : json) (π : list nat).

(** ** Configurations *)

(** What the parser has built and what it expects. *)
Record config := mk_config {
  c_tree : json;
  c_stack : list (list nat);
  c_state : json_parse_state;
  c_name : option chars;
}.
Implicit Types C : config.

Record holds p C : Prop := {
  h_flags : flags p = JSPF_TRAILER;
  h_tree : tree p = c_tree C;
  h_stack : stack p = c_stack C;
  h_state : parse_state p = c_state C;
  h_name : member_name p = c_name C;
  h_done : done p = false;
  h_error : error p = None;
}.

Definition ready p C : Prop := holds p C /\ lex_state p = JSON_LEX_START /\ buffer p = [].

(** The parser takes a token from one configuration to another. *)
Definition inputs token C C' : Prop :=
  forall p, holds p C -> exists p', json_parser_input p token = Some p' /\ ready p' C'.

(** After [n] characters. *)
Definition shift (n : nat) (o : option (nat * parser)) : option (nat * parser) :=
  '(m, p) ← o; Some ((n + m)%nat, p).

(** The text takes the parser from one configuration to another, whatever follows. *)
Definition moves (s : chars) C C' : Prop :=
  forall p, ready p C -> exists p', ready p' C' /\
    forall rest, feed_all p (s ++ rest) = shift (length s) (feed_all p' rest).

(** The same if a delimiter follows. *)
Definition reads (s : chars) C C' : Prop :=
  forall p, ready p C -> exists p', ready p' C' /\
    forall c rest, delimiter c -> feed_all p (s ++ c :: rest) = shift (length s) (feed_all p' (c :: rest)).

Lemma shift_shift n m o : shift n (shift m o) = shift (n + m) o.
Proof. destruct o as [[k p] |]; cbn; [| done]. by rewrite Nat.add_assoc. Qed.

Lemma shift_0 o : shift 0 o = o.
Proof. by destruct o as [[] |]. Qed.

Lemma moves_nil C : moves [] C C.
Proof. intros p Hp. exists p. split; [done |]. intros rest. by rewrite shift_0. Qed.

Lemma moves_app a b C C1 C2 : moves a C C1 -> moves b C1 C2 -> moves (a ++ b) C C2.
Proof.
  intros Ha Hb p Hp. destruct (Ha p Hp) as (p1 & H1 & E1). destruct (Hb p1 H1) as (p2 & H2 & E2).
  exists p2. split; [done |]. intros rest. by rewrite <- app_assoc, E1, E2, shift_shift, length_app.
Qed.

Lemma moves_reads s C C' : moves s C C' -> reads s C C'.
Proof. intros H p Hp. destruct (H p Hp) as (p' & H' & E). exists p'. split; [done |]. intros c rest _. apply E. Qed.

Lemma moves_reads_app a b C C1 C2 : moves a C C1 -> reads b C1 C2 -> reads (a ++ b) C C2.
Proof.
  intros Ha Hb p Hp. destruct (Ha p Hp) as (p1 & H1 & E1). destruct (Hb p1 H1) as (p2 & H2 & E2).
  exists p2. split; [done |]. intros c rest Hc. by rewrite <- app_assoc, E1, E2, shift_shift, length_app.
Qed.

(** The second text starts with a delimiter or is empty. *)
Definition delimited (s : chars) : Prop := match s with [] => True | c :: _ => delimiter c end.

Lemma reads_app a b C C1 C2 : reads a C C1 -> reads b C1 C2 -> delimited b -> reads (a ++ b) C C2.
Proof.
  intros Ha Hb Hd p Hp. destruct (Ha p Hp) as (p1 & H1 & E1). destruct (Hb p1 H1) as (p2 & H2 & E2).
  exists p2. split; [done |]. intros c rest Hc. rewrite <- app_assoc, length_app, <- shift_shift, <- (E2 c rest Hc).
  destruct b as [| d b]; [by apply E1 | by apply (E1 d)].
Qed.

Lemma reads_moves a b C C1 C2 : reads a C C1 -> moves b C1 C2 -> delimited b -> b <> [] -> moves (a ++ b) C C2.
Proof.
  intros Ha Hb Hd Hne p Hp. destruct (Ha p Hp) as (p1 & H1 & E1). destruct (Hb p1 H1) as (p2 & H2 & E2).
  exists p2. split; [done |]. intros rest. rewrite <- app_assoc, length_app, <- shift_shift, <- (E2 rest).
  destruct b as [| d b]; [done | by apply (E1 d)].
Qed.

(** ** Single characters *)

Lemma ready_advance p (c : ascii) C : ready p C -> ready (advance c p) C.
Proof.
  intros ([] & Hl & Hb). unfold advance. destruct (_ =? 10); (split; [split |]; rsimpl; done).
Qed.

Lemma holds_advance p (c : ascii) C : holds p C -> holds (advance c p) C.
Proof. intros []. unfold advance. destruct (_ =? 10); split; rsimpl; done. Qed.

(** A character that is used at once. *)
Lemma char_moves (c : ascii) C C' :
  (forall p, ready p C -> exists p', json_lex_input p c = Some (true, p') /\ ready p' C') -> moves [c] C C'.
Proof.
  intros H p Hp. destruct (H p Hp) as (p' & E & Hp'). exists (advance c p'). split; [by apply ready_advance |].
  intros rest. cbn [app JsonParse.feed_all length]. rewrite (h_done _ _ (proj1 Hp)), E. cbn [mbind option_bind].
  by destruct (feed_all (advance c p') rest) as [[] |].
Qed.

Lemma punctuation_char (c : ascii) token :
  punctuation (R := R) c = Some token -> c ∈ ["["; "{"; "]"; "}"; ":"; ","]%char.
Proof.
  unfold punctuation. intros H.
  repeat match type of H with
         | context [c =c ?d] => destruct (Ascii.eqb_spec c d) as [-> | _]; [by repeat constructor |]
         end. done.
Qed.

Lemma punctuation_moves (c : ascii) token C C' : punctuation c = Some token -> inputs token C C' -> moves [c] C C'.
Proof.
  intros Ht Hin. apply char_moves. intros p (Hp & Hl & _). destruct (Hin p Hp) as (p' & E & Hp'). exists p'.
  split; [| done]. unfold Json.json_lex_input. rewrite Hl, Ht, E.
  assert (((c =c " ") || (code c =? 9) || (code c =? 10) || (code c =? 13) || islower c) = false) as Hw.
  { apply punctuation_char in Ht. by repeat (apply elem_of_cons in Ht as [-> | Ht]; [done |]); apply elem_of_nil in Ht. }
  apply orb_false_iff in Hw as [-> ->]. done.
Qed.

Lemma space_moves (c : ascii) C : c = " "%char \/ c = chr 10 -> moves [c] C C.
Proof.
  intros Hc. apply char_moves. intros p Hp. exists p. split; [| done]. destruct Hp as (_ & Hl & _).
  unfold Json.json_lex_input. rewrite Hl. by destruct Hc as [-> | ->].
Qed.

Lemma spaces_moves n C : moves (replicate n " "%char) C C.
Proof.
  induction n as [| n IH]; [apply moves_nil |]. apply (moves_app [" "%char] _ C C); [| done]. apply space_moves. by left.
Qed.

Lemma indent_moves fl depth C : moves (indent_line fl depth) C C.
Proof.
  unfold indent_line. destruct (has_flag _ _); [| apply moves_nil].
  apply (moves_app [chr 10] _ C C); [apply space_moves; by right | apply spaces_moves].
Qed.

(** ** Tokens of several characters *)

(** The parser inside a token of the given text. *)
Definition inside p C (st : json_lex_state) (text : chars) : Prop :=
  holds p C /\ lex_state p = st /\ buffer p = text.

Lemma inside_put p C st text (c : ascii) :
  inside p C st text -> inside (advance c (p <| buffer ::= λ b, b ++ [c] |>)) C st (text ++ [c]).
Proof.
  intros ([] & Hl & Hb). unfold advance.
  destruct (_ =? 10); (split; [split; rsimpl; done |]); rsimpl; by rewrite Hb.
Qed.

(** Characters that only go to the buffer. *)
Lemma collects p C st text s :
  (forall c p text, c ∈ s -> inside p C st text -> json_lex_input p c = Some (true, p <| buffer ::= λ b, b ++ [c] |>)) ->
  inside p C st text ->
  exists p', inside p' C st (text ++ s) /\ forall rest, feed_all p (s ++ rest) = shift (length s) (feed_all p' rest).
Proof.
  revert p text. induction s as [| c s IH]; intros p text Hc Hp.
  - exists p. rewrite app_nil_r. split; [done |]. intros rest. by rewrite shift_0.
  - pose proof (inside_put _ _ _ _ c Hp) as Hp1. destruct (IH _ _ ltac:(intros; apply (Hc c0 p0 text0); [by constructor | done]) Hp1) as (p' & Hp' & E').
    exists p'. rewrite <- app_assoc in Hp'. split; [done |]. intros rest. cbn [app JsonParse.feed_all length].
    rewrite (h_done _ _ (proj1 Hp)), (Hc c p text) by (first [done | by constructor]). cbn [mbind option_bind]. rewrite E'.
    by destruct (feed_all p' rest) as [[] |].
Qed.

(** A token that a delimiter ends: the delimiter is seen again afterwards. *)
Lemma word_reads s st token C C' :
  inputs token C C' ->
  (forall p, ready p C -> exists p', inside p' C st s /\
     forall rest, feed_all p (s ++ rest) = shift (length s) (feed_all p' rest)) ->
  (forall p c, inside p C st s -> delimiter c ->
     json_lex_input p c = (p ← json_parser_input p token; Some (false, p))) ->
  reads s C C'.
Proof.
  intros Hin Hs Hd p Hp. destruct (Hs p Hp) as (p1 & H1 & E1). destruct (Hin p1 (proj1 H1)) as (p2 & E2 & H2).
  exists p2. split; [done |]. intros c rest Hc. rewrite E1. f_equal. cbn [JsonParse.feed_all].
  rewrite (h_done _ _ (proj1 H1)), (Hd p1 c H1 Hc), E2, (h_done _ _ (proj1 H2)). cbn [mbind option_bind].
  rewrite (h_done _ _ (proj1 H2)).
  destruct (json_lex_input p2 c) as [[[] p3] |] eqn:E3; [done | | done]. exfalso. destruct H2 as (_ & Hl & _).
  unfold Json.json_lex_input in E3. rewrite Hl in E3.
  destruct Hc as [-> | [-> | ->]]; cbn in E3; destruct (json_parser_input p2 _); done.
Qed.

Lemma feed_char p C (c : ascii) p1 rest :
  holds p C -> json_lex_input p c = Some (true, p1) ->
  feed_all p (c :: rest) = shift 1 (feed_all (advance c p1) rest).
Proof.
  intros Hp E. cbn [JsonParse.feed_all]. rewrite (h_done _ _ Hp), E. cbn [mbind option_bind].
  by destruct (feed_all (advance c p1) rest) as [[] |].
Qed.

(** The first character of a token starts to fill the buffer. *)
Lemma starts p C st (c : ascii) :
  ready p C -> json_lex_input p c = Some (true, p <| lex_state := st |> <| buffer ::= λ b, b ++ [c] |>) ->
  exists p', inside p' C st [c] /\ forall rest, feed_all p (c :: rest) = shift 1 (feed_all p' rest).
Proof.
  intros (Hp & Hl & Hb) E. eexists. split; [| intros rest; by apply (feed_char p C)].
  change [c] with ([] ++ [c]). apply inside_put. split; [| by split; rsimpl]. destruct Hp. split; rsimpl; done.
Qed.

Lemma word_collects p C st (c : ascii) s :
  ready p C -> json_lex_input p c = Some (true, p <| lex_state := st |> <| buffer ::= λ b, b ++ [c] |>) ->
  (forall d q text, d ∈ s -> inside q C st text -> json_lex_input q d = Some (true, q <| buffer ::= λ b, b ++ [d] |>)) ->
  exists p', inside p' C st (c :: s) /\ forall rest, feed_all p ((c :: s) ++ rest) = shift (length (c :: s)) (feed_all p' rest).
Proof.
  intros Hp E Hs. destruct (starts p C st c Hp E) as (p1 & H1 & E1). destruct (collects p1 C st [c] s Hs H1) as (p2 & H2 & E2).
  exists p2. split; [done |]. intros rest. cbn [app length]. by rewrite E1, E2, shift_shift.
Qed.

Definition number_start (c : ascii) : bool := (c =c "-") || isdigit c.

Lemma number_start_spec p C (c : ascii) :
  ready p C -> number_start c = true ->
  json_lex_input p c = Some (true, p <| lex_state := JSON_LEX_NUMBER |> <| buffer ::= λ b, b ++ [c] |>).
Proof.
  intros (_ & Hl & _) Hc. unfold Json.json_lex_input. rewrite Hl.
  assert (forall c, implb (number_start c) (negb ((c =c " ") || (code c =? 9) || (code c =? 10) || (code c =? 13) || islower c) &&
    match punctuation (R := R) c with Some _ => false | None => true end) = true) as H.
  { clear. apply all_chars_spec. by vm_compute. }
  specialize (H c). rewrite Hc in H. apply andb_true_iff in H as [[H1 H2]%negb_true_iff%orb_false_iff H3].
  rewrite H1, H2. destruct (punctuation c); [done |]. unfold number_start in Hc. by rewrite Hc.
Qed.

(** A text that the lexer takes for a number. *)
Definition number_text (s : chars) : Prop :=
  match s with [] => False | c :: _ => number_start c = true end /\ Forall number_char s.

Lemma number_reads s token C C' :
  number_text s -> json_lex_number s = inl token -> inputs token C C' -> reads s C C'.
Proof.
  intros [Hs Hf] Hlex Hin. apply (word_reads s JSON_LEX_NUMBER token); [done | |].
  - intros p Hp. destruct s as [| c s]; [done |]. apply Forall_cons in Hf as [_ Hf].
    apply word_collects; [done | by apply (number_start_spec p C) |]. intros d q text Hd (_ & Hl & _).
    rewrite Forall_forall in Hf. destruct (Hf d Hd) as [_ Hd']. unfold Json.json_lex_input. by rewrite Hl, Hd'.
  - intros p c (_ & Hl & Hb) [_ Hc]%delimiter_spec. unfold Json.json_lex_input. rewrite Hl, Hc. cbn [negb].
    unfold lex_number. by rewrite Hb, Hlex.
Qed.

Lemma keyword_reads s token C C' :
  (s = str "null" /\ token = T_NULL \/ s = str "true" /\ token = T_TRUE \/ s = str "false" /\ token = T_FALSE) ->
  inputs token C C' -> reads s C C'.
Proof.
  intros Hs Hin. apply (word_reads s JSON_LEX_KEYWORD token); [done | |].
  - intros p Hp. assert (exists c s', s = c :: s' /\ islower c = true /\ Forall (λ d, isalpha d = true) s' /\
      ((c =c " ") || (code c =? 9) || (code c =? 10) || (code c =? 13)) = false) as (c & s' & -> & Hc & Hs' & Hw).
    { destruct Hs as [[-> _] | [[-> _] | [-> _]]]; (eexists _, _; split; [done |]; split; [done |]; split; [by repeat constructor | done]). }
    apply word_collects; [done | |].
    + destruct Hp as (_ & Hl & _). unfold Json.json_lex_input. by rewrite Hl, Hw, Hc.
    + intros d q text Hd (_ & Hl & _). rewrite Forall_forall in Hs'. unfold Json.json_lex_input. by rewrite Hl, (Hs' d Hd).
  - intros p c (_ & Hl & Hb) [Hc _]%delimiter_spec. unfold Json.json_lex_input. rewrite Hl, Hc. cbn [negb].
    unfold json_lex_keyword. rewrite Hb. by destruct Hs as [[-> ->] | [[-> ->] | [-> ->]]].
Qed.

(** ** Strings *)

Lemma plain_put p C text (c : ascii) :
  inside p C JSON_LEX_STRING text -> plain c -> json_lex_input p c = Some (true, p <| buffer ::= λ b, b ++ [c] |>).
Proof.
  intros (_ & Hl & _) (H1 & H2 & H3). unfold Json.json_lex_input. apply Ascii.eqb_neq in H1, H2. rewrite Hl, H1, H2.
  by destruct (Z.ltb_spec (code c) 0x20); [lia |].
Qed.

(** A character after a backslash. *)
Lemma escape_collects p C text (e : ascii) :
  inside p C JSON_LEX_STRING text ->
  exists p', inside p' C JSON_LEX_STRING (text ++ ["\"%char; e]) /\
    forall rest, feed_all p ("\"%char :: e :: rest) = shift 2 (feed_all p' rest).
Proof.
  intros (Hp & Hl & Hb).
  set (p1 := advance "\"%char (p <| lex_state := JSON_LEX_ESCAPE |> <| buffer ::= λ b, b ++ ["\"%char] |>)).
  assert (inside p1 C JSON_LEX_ESCAPE (text ++ ["\"%char])) as H1.
  { apply inside_put. split; [destruct Hp; split; rsimpl; done | by split; rsimpl]. }
  set (p2 := advance e (p1 <| lex_state := JSON_LEX_STRING |> <| buffer ::= λ b, b ++ [e] |>)).
  assert (inside p2 C JSON_LEX_STRING ((text ++ ["\"%char]) ++ [e])) as H2.
  { apply inside_put. destruct H1 as ([] & _ & Hb1). split; [split; rsimpl; done | by split; rsimpl]. }
  exists p2. rewrite <- app_assoc in H2. split; [done |]. intros rest.
  rewrite (feed_char p C _ (p <| lex_state := JSON_LEX_ESCAPE |> <| buffer ::= λ b, b ++ ["\"%char] |>)); [| done |].
  2: { unfold Json.json_lex_input. by rewrite Hl. }
  fold p1. rewrite (feed_char p1 C _ (p1 <| lex_state := JSON_LEX_STRING |> <| buffer ::= λ b, b ++ [e] |>));
    [| apply H1 |].
  2: { unfold Json.json_lex_input. by rewrite (proj1 (proj2 H1)). }
  fold p2. by rewrite shift_shift.
Qed.

Lemma form_collects p C text (c : ascii) s :
  inside p C JSON_LEX_STRING text -> escape_form c s ->
  exists p', inside p' C JSON_LEX_STRING (text ++ s) /\
    forall rest, feed_all p (s ++ rest) = shift (length s) (feed_all p' rest).
Proof.
  intros Hp [Hc | e _ _ | h Hl _ _ Hh].
  - apply collects; [| done]. intros d q t ->%list_elem_of_singleton Hq. by apply (plain_put q C t).
  - by apply escape_collects.
  - destruct (escape_collects p C text "u"%char Hp) as (p1 & H1 & E1).
    destruct (collects p1 C JSON_LEX_STRING _ h ltac:(intros d q t Hd Hq; rewrite Forall_forall in Hh; apply (plain_put q C t); [done | by apply Hh]) H1)
      as (p2 & H2 & E2).
    exists p2. rewrite <- app_assoc in H2. split; [done |]. intros rest. cbn [app length]. by rewrite E1, E2, shift_shift.
Qed.

Lemma escaped_collects p C text s :
  inside p C JSON_LEX_STRING text -> no_nul s ->
  exists p', inside p' C JSON_LEX_STRING (text ++ escaped s) /\
    forall rest, feed_all p (escaped s ++ rest) = shift (length (escaped s)) (feed_all p' rest).
Proof.
  intros Hp Hs. revert p text Hp. induction Hs as [| c s Hc Hs IH]; intros p text Hp.
  - exists p. change (escaped []) with (@nil ascii). rewrite app_nil_r. split; [done |]. intros rest. by rewrite shift_0.
  - destruct (form_collects p C text c _ Hp (escape_forms c Hc)) as (p1 & H1 & E1).
    destruct (IH p1 _ H1) as (p2 & H2 & E2). change (escaped (c :: s)) with (chars_escaping c ++ escaped s).
    exists p2. rewrite app_assoc. split; [done |]. intros rest. by rewrite <- app_assoc, E1, E2, shift_shift, length_app.
Qed.

Lemma string_moves s C C' : no_nul s -> inputs (T_STRING s) C C' -> moves (json_serialize_string s) C C'.
Proof.
  intros Hs Hin p Hp. unfold json_serialize_string. rewrite cstr_id by done. fold (escaped s).
  set (p1 := advance (chr 34) (p <| lex_state := JSON_LEX_STRING |>)).
  assert (inside p1 C JSON_LEX_STRING []) as H1.
  { destruct Hp as ([] & _ & Hb). unfold p1, advance. cbn [Z.eqb]. split; [split; rsimpl; done | by split; rsimpl]. }
  destruct (escaped_collects p1 C [] s H1 Hs) as (p2 & (H2 & Hl2 & Hb2) & E2).
  destruct (Hin p2 H2) as (p3 & E3 & H3). exists (advance (chr 34) p3). split; [by apply ready_advance |]. intros rest.
  rewrite <- !app_assoc. cbn [app]. rewrite (feed_char p C _ (p <| lex_state := JSON_LEX_STRING |>)); [| apply Hp |].
  2: { destruct Hp as (_ & Hl & _). unfold Json.json_lex_input. by rewrite Hl. }
  fold p1. rewrite E2, (feed_char p2 C _ p3), !shift_shift; [| done |].
  - f_equal. cbn [length]. rewrite length_app. cbn. lia.
  - unfold Json.json_lex_input. rewrite Hl2. change (chr 34 =c "\") with false. change (chr 34 =c chr 34) with true. cbv iota.
    unfold json_lex_string, json_parser_input_string. rewrite Hb2. cbn [app]. rewrite cstr_id by by apply no_nul_escaped.
    destruct (existsb _ _) eqn:Eb; cbn [negb].
    + unfold json_string_unescape. rewrite unescape_escaped by done. cbn [app]. by rewrite cstr_id, E3 by done.
    + by rewrite escaped_no_backslash, E3 by done.
Qed.

End read.
End JsonRead.
