(* ===== verification/JsonRoundtrip.v ===== *)
(** The round trip of JSON values through their text. *)
From stdpp Require Import gmap sorting.
From S2P Require Import Prelude Text Hmap Containers Shash Json JsonLex JsonParse JsonRead.

Module JsonRoundtrip.
Import Json JsonLex JsonParse JsonRead.

Section roundtrip.
Context {T R : Type} {HT : HashTable T} {HTok : HashTableOk T} {D : Double R}.
Context (hash_string : chars -> Z -> Z).

Abbreviation parser := (json_parser T R).
Abbreviation json := (json T R).
Abbreviation put_in := (put_in hash_string).
Abbreviation place_in := (place_in hash_string).
Abbreviation inputs := (inputs hash_string).
Abbreviation moves := (moves hash_string).
Abbreviation reads := (reads hash_string).
Abbreviation json_equal := (json_equal hash_string).
Implicit Types (p : parser) (j v x node : json) (π : list nat) (C : @config T R).

(** ** Tokens and configurations *)

(** The parser expects a value to put into [node]. *)
Definition expects (st : json_parse_state) node (name : option chars) : Prop :=
  match node with
  | JSON_OBJECT _ => st = JSON_PARSE_OBJECT_VALUE /\ is_Some name
  | JSON_ARRAY _ => (st = JSON_PARSE_ARRAY_INIT \/ st = JSON_PARSE_ARRAY_VALUE) /\ name = None
  | _ => False
  end.

Definition next_of node : json_parse_state :=
  if node is JSON_OBJECT _ then JSON_PARSE_OBJECT_NEXT else JSON_PARSE_ARRAY_NEXT.

Lemma expects_accepts st node name : expects st node name -> accepts node name.
Proof. destruct node; cbn; try done. by intros [_ H]. Qed.

(** The tree with a value put into the one at [π]. *)
Definition put_at π node (name : option chars) v (t : json) : json := alter_at π (λ _, put_in node name v) t.

(** Input in the middle of a value, up to the reset of the lexer. *)
Lemma inputs_intro token C C' :
  (forall p, holds p C ->
     exists p', Json.json_parser_input hash_string p token
       = Some (p' <| lex_state := JSON_LEX_START |> <| buffer := [] |>) /\ holds p' C') ->
  inputs token C C'.
Proof.
  intros H p Hp. destruct (H p Hp) as (p' & E & Hp'). eexists. split; [exact E |]. destruct Hp'.
  split; [split; rsimpl; done | by split; rsimpl].
Qed.

(** A token for a value that is not a container. *)
Definition scalar_token (token : json_token R) : option json :=
  match token with
  | T_FALSE => Some JSON_FALSE
  | T_NULL => Some JSON_NULL
  | T_TRUE => Some JSON_TRUE
  | T_INTEGER z => Some (JSON_INTEGER z)
  | T_REAL r => Some (JSON_REAL r)
  | T_STRING s => Some (JSON_STRING s)
  | _ => None
  end.

Lemma scalar_inputs token v t π stk st name node :
  scalar_token token = Some v -> get_at π t = Some node -> expects st node name ->
  inputs token (mk_config t (π :: stk) st name) (mk_config (put_at π node name v t) (π :: stk) (next_of node) None).
Proof.
  intros Ht Hg Hx. apply inputs_intro. intros p Hp.
  assert (json_parser_put_value hash_string p v =
    Some (place_in node name, p <| tree ::= alter_at π (λ _, put_in node name v) |> <| member_name := None |>)) as Hput.
  { destruct Hp as [Hf Htr Hs Hst Hn _ _]. cbn in *. rewrite (put_value_spec hash_string p π stk node v); rewrite ?Hn; [| done | by rewrite Htr | by apply (expects_accepts st)].
    do 3 f_equal. destruct node; try done. by destruct Hx as [_ ->]. }
  assert (Json.json_parse_value hash_string p token (next_of node) =
    Some (p <| tree ::= alter_at π (λ _, put_in node name v) |> <| member_name := None |> <| parse_state := next_of node |>)) as Hv.
  { destruct token; cbn in Ht; simplify_eq; cbn [json_parse_value]; by rewrite Hput. }
  exists (p <| tree ::= alter_at π (λ _, put_in node name v) |> <| member_name := None |> <| parse_state := next_of node |>). split.
  - unfold Json.json_parser_input. rewrite (h_state _ _ Hp). cbn [c_state].
    destruct node; try done; cbn [expects next_of] in *.
    + destruct Hx as [-> _]. by rewrite Hv.
    + destruct Hx as [[-> | ->] _]; [| by rewrite Hv]. destruct token; try done; by rewrite Hv.
  - destruct Hp as [Hf Htr Hs Hst Hn Hd He]. split; rsimpl; try done. cbn. by rewrite Htr.
Qed.

(** An opening bracket in the middle of a value. *)
Definition opening (token : json_token R) : option (json * json_parse_state) :=
  match token with
  | T_BEGIN_OBJECT => Some (json_object_create, JSON_PARSE_OBJECT_INIT)
  | T_BEGIN_ARRAY => Some (json_array_create_empty, JSON_PARSE_ARRAY_INIT)
  | _ => None
  end.

Lemma open_inputs token new st' t π stk st name node :
  opening token = Some (new, st') -> get_at π t = Some node -> expects st node name -> (length (π :: stk) < 1000)%nat ->
  inputs token (mk_config t (π :: stk) st name)
    (mk_config (put_at π node name new t) ((π ++ [place_in node name]) :: π :: stk) st' None).
Proof.
  intros Ht Hg Hx Hl. apply inputs_intro. intros p Hp.
  assert (json_parser_push hash_string p new st' =
    Some (p <| tree ::= alter_at π (λ _, put_in node name new) |> <| member_name := None |>
            <| stack ::= cons (π ++ [place_in node name]) |> <| parse_state := st' |>)) as Hpush.
  { destruct Hp as [Hf Htr Hs Hst Hn _ _]. cbn in *. unfold json_parser_push, height, JSON_MAX_HEIGHT. rewrite Hs.
    destruct (Z.ltb_spec (Z.of_nat (length (π :: stk))) 1000); [| cbn in *; lia].
    rewrite (put_value_spec hash_string p π stk node new); rewrite ?Hn; [| done | by rewrite Htr | by apply (expects_accepts st)].
    cbn. do 3 f_equal. destruct node; try done. by destruct Hx as [_ ->]. }
  assert (forall next, Json.json_parse_value hash_string p token next = json_parser_push hash_string p new st') as Hv.
  { intros next. destruct token; cbn in Ht; simplify_eq; done. }
  exists (p <| tree ::= alter_at π (λ _, put_in node name new) |> <| member_name := None |>
            <| stack ::= cons (π ++ [place_in node name]) |> <| parse_state := st' |>). split.
  - unfold Json.json_parser_input. rewrite (h_state _ _ Hp). cbn [c_state].
    destruct node; try done; cbn [expects] in *.
    + destruct Hx as [-> _]. by rewrite Hv, Hpush.
    + destruct Hx as [[-> | ->] _]; [| by rewrite Hv, Hpush]. destruct token; try done; by rewrite Hv, Hpush.
  - destruct Hp as [Hf Htr Hs Hst Hn Hd He]. split; rsimpl; try done; cbn; [by rewrite Htr | by rewrite Hs].
Qed.

Lemma root_inputs token new st' t :
  opening token = Some (new, st') ->
  inputs token (mk_config t [] JSON_PARSE_START None) (mk_config new [[]] st' None).
Proof.
  intros Ht. apply inputs_intro. intros p Hp. destruct Hp as [Hf Htr Hs Hst Hn Hd He]. cbn in *.
  exists (p <| tree := new |> <| stack := [[]] |> <| parse_state := st' |>). split.
  - unfold Json.json_parser_input. rewrite Hst. destruct token; cbn in Ht; simplify_eq;
      unfold json_parser_push_object, json_parser_push_array, json_parser_push, height; by rewrite Hs.
  - split; rsimpl; done.
Qed.

(** A closing bracket. *)
Definition closes (token : json_token R) (st : json_parse_state) : Prop :=
  token = T_END_OBJECT /\ (st = JSON_PARSE_OBJECT_INIT \/ st = JSON_PARSE_OBJECT_NEXT) \/
  token = T_END_ARRAY /\ (st = JSON_PARSE_ARRAY_INIT \/ st = JSON_PARSE_ARRAY_NEXT).

Lemma close_inputs token t π π' stk st node x :
  closes token st -> get_at π t = Some x -> get_at π' t = Some node -> kind_of node <> Scalar ->
  inputs token (mk_config t (π :: π' :: stk) st None) (mk_config t (π' :: stk) (next_of node) None).
Proof.
  intros Hc Hx Hg Hk. apply inputs_intro. intros p Hp. destruct Hp as [Hf Htr Hs Hst Hn Hd He]. cbn in *.
  assert (json_parser_pop p = Some (p <| stack ::= tail |> <| parse_state := next_of node |>)) as Hpop.
  { unfold json_parser_pop, top_value, json_parser_top. rsimpl. rewrite Hs. cbn. rewrite Htr, Hx. cbn. rewrite Hg. cbn.
    by destruct node. }
  eexists. split.
  - unfold Json.json_parser_input. rewrite Hst.
    destruct Hc as [[-> [-> | ->]] | [-> [-> | ->]]]; by rewrite Hpop.
  - split; rsimpl; try done. by rewrite Hs.
Qed.

Lemma close_root_inputs token t st x :
  closes token st -> get_at [] t = Some x ->
  inputs token (mk_config t [[]] st None) (mk_config t [[]] JSON_PARSE_END None).
Proof.
  intros Hc Hx. apply inputs_intro. intros p Hp. destruct Hp as [Hf Htr Hs Hst Hn Hd He]. cbn in *.
  assert (json_parser_pop p = Some (p <| parse_state := JSON_PARSE_END |>)) as Hpop.
  { unfold json_parser_pop, top_value, json_parser_top. rsimpl. rewrite Hs. cbn. by rewrite Hf. }
  eexists. split.
  - unfold Json.json_parser_input. rewrite Hst.
    destruct Hc as [[-> [-> | ->]] | [-> [-> | ->]]]; by rewrite Hpop.
  - split; rsimpl; done.
Qed.

(** A change of state only. *)
Lemma state_inputs token (t : json) stk st st' :
  (token, st, st') ∈ [(T_VALUE_SEPARATOR, JSON_PARSE_OBJECT_NEXT, JSON_PARSE_OBJECT_NAME);
                      (T_VALUE_SEPARATOR, JSON_PARSE_ARRAY_NEXT, JSON_PARSE_ARRAY_VALUE)] ->
  inputs token (mk_config t stk st None) (mk_config t stk st' None).
Proof.
  intros H. apply inputs_intro. intros p Hp. destruct Hp as [Hf Htr Hs Hst Hn Hd He]. cbn in *.
  exists (p <| parse_state := st' |>). split; [| by split; rsimpl].
  unfold Json.json_parser_input. rewrite Hst.
  by repeat (apply elem_of_cons in H as [[= -> -> ->] | H]; [done |]); apply elem_of_nil in H.
Qed.

Lemma colon_inputs (t : json) stk name :
  inputs T_NAME_SEPARATOR (mk_config t stk JSON_PARSE_OBJECT_COLON name) (mk_config t stk JSON_PARSE_OBJECT_VALUE name).
Proof.
  apply inputs_intro. intros p Hp. destruct Hp as [Hf Htr Hs Hst Hn Hd He]. cbn in *.
  exists (p <| parse_state := JSON_PARSE_OBJECT_VALUE |>). split; [| by split; rsimpl].
  unfold Json.json_parser_input. by rewrite Hst.
Qed.

Lemma name_inputs (t : json) stk st name :
  st = JSON_PARSE_OBJECT_INIT \/ st = JSON_PARSE_OBJECT_NAME ->
  inputs (T_STRING name) (mk_config t stk st None) (mk_config t stk JSON_PARSE_OBJECT_COLON (Some name)).
Proof.
  intros H. apply inputs_intro. intros p Hp. destruct Hp as [Hf Htr Hs Hst Hn Hd He]. cbn in *.
  exists (p <| member_name := Some name |> <| parse_state := JSON_PARSE_OBJECT_COLON |>). split; [| by split; rsimpl].
  unfold Json.json_parser_input. rewrite Hst. by destruct H as [-> | ->].
Qed.

(** ** Changes of the tree *)

Lemma alter_same π (t : json) x : get_at π t = Some x -> alter_at π (λ _, x) t = t.
Proof.
  revert t. induction π as [| i π IH]; intros t; cbn [alter_at]; [by intros [= ->] |].
  rewrite get_at_cons. destruct (child i t) as [y |] eqn:E; [| done]. cbn. intros H.
  rewrite (alter_child_ext i _ (λ y, y)) by (intros z Hz; rewrite E in Hz; injection Hz as <-; by apply IH).
  destruct t as [| | | o | l | | |]; try done; cbn in *; f_equal.
  - destruct o as [m ns]. unfold upd. cbn. f_equal. apply list_alter_id. by intros [].
  - by apply list_alter_id.
Qed.

Lemma alter_again π (t : json) x y : alter_at π (λ _, x) (alter_at π (λ _, y) t) = alter_at π (λ _, x) t.
Proof. rewrite alter_at_compose. done. Qed.

(** The container that was put into [node], completed. *)
Lemma put_completed π node name (t : json) x v :
  accepts node name -> get_at π t = Some node ->
  alter_at (π ++ [place_in node name]) (λ _, v) (put_at π node name x t) = put_at π node name v t /\
  get_at (π ++ [place_in node name]) (put_at π node name x t) = Some x /\
  get_at π (put_at π node name x t) = Some (put_in node name x).
Proof.
  intros Ha Hg. unfold put_at. split; [| split].
  - rewrite alter_at_snoc, alter_at_compose. apply alter_at_ext. intros y _. cbn. by apply put_at_place.
  - rewrite get_at_snoc, (get_alter _ _ _ node) by done. cbn. by apply put_at_place.
  - by rewrite (get_alter _ _ _ node).
Qed.

(** ** Values *)

(** The text of a real number is read back as the same number. *)
Definition real_ok (r : R) : Prop :=
  number_text (format_g r) /\ json_lex_number (format_g r) = inl (T_REAL r) /\ double_eqb r r = true.

Definition MEMBERS_MAX : Z := 2 ^ 64 - 2.

Abbreviation printable := (wf_json hash_string real_ok MEMBERS_MAX).

Context (fl : Z).

(** The text of a value is read as an equal value. *)
Definition readable (n : nat) v : Prop :=
  forall depth t π stk st name node,
    get_at π t = Some node -> expects st node name -> (length (π :: stk) + n <= 1000)%nat ->
    exists v', json_equal v v' = true /\
      reads (json_serialize fl depth v) (mk_config t (π :: stk) st name)
        (mk_config (put_at π node name v' t) (π :: stk) (next_of node) None).

Lemma imap_later {A B} (f : nat -> A -> B) (g : A -> B) l :
  (forall i (x : A), f (S i) x = g x) -> imap (f ∘ S) l = List.map g l.
Proof.
  intros H. assert (forall k, imap (λ i, f (S (k + i))) l = List.map g l) as Hk.
  { induction l as [| x l IH]; intros k; [done |]. rewrite imap_cons. cbn. f_equal; [apply H |].
    rewrite <- (IH (S k)). apply imap_ext. intros i y _. cbn. do 2 f_equal. lia. }
  apply (Hk 0%nat).
Qed.

(** *** Arrays *)

Definition later_element depth v : chars := ("," :: indent_line fl depth)%char ++ json_serialize fl depth v.

Lemma elements_tail n depth l :
  Forall (readable n) l -> forall t π stk acc,
  get_at π t = Some (JSON_ARRAY acc) -> (length (π :: stk) + n <= 1000)%nat ->
  exists l', Forall2 (λ a b, json_equal a b = true) l l' /\
    reads (concat (List.map (later_element depth) l)) (mk_config t (π :: stk) JSON_PARSE_ARRAY_NEXT None)
      (mk_config (alter_at π (λ _, JSON_ARRAY (acc ++ l')) t) (π :: stk) JSON_PARSE_ARRAY_NEXT None).
Proof.
  induction 1 as [| v l Hv Hl IH]; intros t π stk acc Hg Hn.
  - exists []. split; [constructor |]. rewrite app_nil_r, alter_same by done. apply moves_reads, moves_nil.
  - destruct (Hv depth t π stk JSON_PARSE_ARRAY_VALUE None _ Hg) as (v' & E & Hr); [by split; [right |] | done |].
    cbn [next_of] in Hr. set (t1 := put_at π (JSON_ARRAY acc) None v' t) in *.
    assert (get_at π t1 = Some (JSON_ARRAY (acc ++ [v']))) as Hg1 by by apply put_completed.
    destruct (IH t1 π stk (acc ++ [v']) Hg1 Hn) as (l' & Hl' & Hr').
    exists (v' :: l'). split; [by constructor |].
    assert (alter_at π (λ _, JSON_ARRAY ((acc ++ [v']) ++ l')) t1 = alter_at π (λ _, JSON_ARRAY (acc ++ v' :: l')) t) as Et.
    { unfold t1, put_at. by rewrite alter_again, <- app_assoc. }
    rewrite Et in Hr'. cbn [List.map concat]. apply (reads_app _ _ _ _ (mk_config t1 (π :: stk) JSON_PARSE_ARRAY_NEXT None)).
    + unfold later_element. cbn [app].
      apply (moves_reads_app _ ([","%char] ++ indent_line fl depth) _ _ (mk_config t (π :: stk) JSON_PARSE_ARRAY_VALUE None)); [| done].
      apply (moves_app _ _ _ _ (mk_config t (π :: stk) JSON_PARSE_ARRAY_VALUE None)); [| apply indent_moves].
      apply (punctuation_moves _ _ T_VALUE_SEPARATOR); [done |]. apply state_inputs. by repeat constructor.
    + done.
    + destruct l; [done |]. cbn. by left.
Qed.

Lemma equal_array (l l' : list json) :
  Forall2 (λ a b, json_equal a b = true) l l' -> json_equal (JSON_ARRAY l) (JSON_ARRAY l') = true.
Proof.
  intros H. cbn. unfold json_equal_array. rewrite length_map, (Forall2_length _ _ _ H), Nat.eqb_refl. cbn.
  induction H as [| a b l l' Hab _ IH]; cbn; [done |]. by rewrite Hab.
Qed.

Lemma array_body n depth l :
  Forall (readable n) l -> forall t π stk,
  get_at π t = Some (JSON_ARRAY []) -> (length (π :: stk) + n <= 1000)%nat ->
  exists body v' st', json_serialize fl depth (JSON_ARRAY l) = ["["%char] ++ body ++ ["]"%char] /\
    json_equal (JSON_ARRAY l) v' = true /\ kind_of v' = Array /\ closes T_END_ARRAY st' /\
    reads body (mk_config t (π :: stk) JSON_PARSE_ARRAY_INIT None) (mk_config (alter_at π (λ _, v') t) (π :: stk) st' None).
Proof.
  intros Hl t π stk Hg Hn. destruct Hl as [| v l Hv Hl].
  - exists [], (JSON_ARRAY []), JSON_PARSE_ARRAY_INIT. split; [done |]. split; [done |]. split; [done |]. split; [right; by eauto |].
    rewrite alter_same by done. apply moves_reads, moves_nil.
  - destruct (Hv (depth + 1) t π stk JSON_PARSE_ARRAY_INIT None _ Hg) as (v' & E & Hr); [by split; [left |] | done |].
    cbn [next_of] in Hr. set (t1 := put_at π (JSON_ARRAY []) None v' t) in *.
    assert (get_at π t1 = Some (JSON_ARRAY [v'])) as Hg1 by by apply put_completed.
    destruct (elements_tail n (depth + 1) l Hl t1 π stk [v'] Hg1 Hn) as (l' & Hl' & Hr').
    exists (indent_line fl (depth + 1) ++ json_serialize fl (depth + 1) v ++ concat (List.map (later_element (depth + 1)) l)),
      (JSON_ARRAY (v' :: l')), JSON_PARSE_ARRAY_NEXT.
    split; [| split; [apply equal_array; by constructor | split; [done | split; [right; by eauto |]]]].
    + cbn [json_serialize]. unfold json_serialize_array. cbn [length List.map Nat.ltb Nat.leb]. rewrite imap_cons. cbn [concat]. unfold json_serialize_element at 1. cbn [Nat.eqb app].
      rewrite (imap_later _ (λ text, ("," :: indent_line fl (depth + 1))%char ++ text)) by done.
      rewrite List.map_map. unfold later_element. change (str "[") with ["["%char]; change (str "]") with ["]"%char]; cbn [app]. by rewrite <- !app_assoc.
    + unfold t1, put_at in Hr'. rewrite alter_again in Hr'.
      apply (moves_reads_app _ _ _ _ (mk_config t (π :: stk) JSON_PARSE_ARRAY_INIT None)); [apply indent_moves |].
      apply (reads_app _ _ _ _ (mk_config t1 (π :: stk) JSON_PARSE_ARRAY_NEXT None)); [done | done |].
      destruct l; [done |]. cbn. by left.
Qed.

(** *** Objects *)

Abbreviation put := (λ o (kv : chars * json), json_object_put hash_string o kv.1 kv.2).

(** Two members with the same name and equal values. *)
Definition member_equal (a b : chars * json) : Prop := a.1 = b.1 /\ json_equal a.2 b.2 = true.

Definition member_text depth (kv : chars * json) : chars :=
  json_serialize_string kv.1 ++ [":"%char] ++ (if has_flag fl JSSF_PRETTY then [" "%char] else []) ++ json_serialize fl depth kv.2.

Lemma member_reads n depth kv t π stk st o :
  no_nul kv.1 -> readable n kv.2 -> get_at π t = Some (JSON_OBJECT o) -> (length (π :: stk) + n <= 1000)%nat ->
  st = JSON_PARSE_OBJECT_INIT \/ st = JSON_PARSE_OBJECT_NAME ->
  exists kv', member_equal kv kv' /\
    reads (member_text depth kv) (mk_config t (π :: stk) st None)
      (mk_config (alter_at π (λ _, JSON_OBJECT (put o kv')) t) (π :: stk) JSON_PARSE_OBJECT_NEXT None).
Proof.
  intros Hk Hv Hg Hn Hst. destruct (Hv depth t π stk JSON_PARSE_OBJECT_VALUE (Some kv.1) _ Hg) as (v' & E & Hr); [done | done |].
  exists (kv.1, v'). split; [done |]. unfold member_text.
  apply (moves_reads_app _ _ _ _ (mk_config t (π :: stk) JSON_PARSE_OBJECT_COLON (Some kv.1))).
  { by apply string_moves, name_inputs. }
  apply (moves_reads_app _ _ _ _ (mk_config t (π :: stk) JSON_PARSE_OBJECT_VALUE (Some kv.1))).
  { apply (punctuation_moves _ _ T_NAME_SEPARATOR); [done | apply colon_inputs]. }
  apply (moves_reads_app _ _ _ _ (mk_config t (π :: stk) JSON_PARSE_OBJECT_VALUE (Some kv.1))); [| done].
  destruct (has_flag _ _); [apply space_moves; by left | apply moves_nil].
Qed.

Definition later_member depth (kv : chars * json) : chars := ("," :: indent_line fl depth)%char ++ member_text depth kv.

Lemma members_tail n depth L :
  Forall (λ kv, no_nul kv.1 /\ readable n kv.2) L -> forall t π stk o,
  get_at π t = Some (JSON_OBJECT o) -> (length (π :: stk) + n <= 1000)%nat ->
  exists L', Forall2 member_equal L L' /\
    reads (concat (List.map (later_member depth) L)) (mk_config t (π :: stk) JSON_PARSE_OBJECT_NEXT None)
      (mk_config (alter_at π (λ _, JSON_OBJECT (foldl put o L')) t) (π :: stk) JSON_PARSE_OBJECT_NEXT None).
Proof.
  induction 1 as [| kv L [Hk Hv] HL IH]; intros t π stk o Hg Hn.
  - exists []. split; [constructor |]. cbn [foldl]. rewrite alter_same by done. apply moves_reads, moves_nil.
  - destruct (member_reads n depth kv t π stk JSON_PARSE_OBJECT_NAME o Hk Hv Hg Hn) as (kv' & E & Hr); [by right |].
    set (t1 := alter_at π (λ _, JSON_OBJECT (put o kv')) t) in *.
    assert (get_at π t1 = Some (JSON_OBJECT (put o kv'))) as Hg1 by (unfold t1; by rewrite (get_alter _ _ _ _ Hg)).
    destruct (IH t1 π stk _ Hg1 Hn) as (L' & HL' & Hr'). unfold t1 in Hr'. rewrite alter_again in Hr'.
    exists (kv' :: L'). split; [by constructor |]. cbn [List.map concat].
    apply (reads_app _ _ _ _ (mk_config t1 (π :: stk) JSON_PARSE_OBJECT_NEXT None)).
    + unfold later_member. cbn [app].
      apply (moves_reads_app _ ([","%char] ++ indent_line fl depth) _ _ (mk_config t (π :: stk) JSON_PARSE_OBJECT_NAME None)); [| done].
      apply (moves_app _ _ _ _ (mk_config t (π :: stk) JSON_PARSE_OBJECT_NAME None)); [| apply indent_moves].
      apply (punctuation_moves _ _ T_VALUE_SEPARATOR); [done |]. apply state_inputs. by repeat constructor.
    + done.
    + destruct L; [done |]. cbn. by left.
Qed.

Lemma foldl_insert {A} (L : list (chars * A)) (c : gmap chars A) :
  NoDup L.*1 -> foldl (λ c kv, <[kv.1 := kv.2]> c) c L = list_to_map L ∪ c.
Proof.
  revert c. induction L as [| [k v] L IH]; intros c Hd; cbn in *; [by rewrite (left_id_L ∅ (∪)) |].
  apply NoDup_cons in Hd as [Hk Hd]. rewrite IH by done.
  rewrite <- insert_union_r by (by apply not_elem_of_list_to_map). by rewrite insert_union_l.
Qed.

Lemma puts_contents (L : list (chars * json)) o c :
  represents hash_string o c -> Z.of_nat (size c + length L) <= MEMBERS_MAX + 1 ->
  represents hash_string (foldl put o L) (foldl (λ c kv, <[kv.1 := kv.2]> c) c L).
Proof.
  unfold MEMBERS_MAX. revert o c. induction L as [| [k v] L IH]; intros o c Hr Hs; cbn [foldl fst snd length] in *; [done |].
  apply IH.
  - apply replace_contents; [done |]. unfold in_u. lia.
  - assert (size (<[k := v]> c) <= S (size c))%nat; [| lia].
    destruct (c !! k) eqn:E; [rewrite (map_size_insert_Some k _ c) by (by eexists) | rewrite map_size_insert_None by done]; lia.
Qed.

Lemma member_names L L' : Forall2 member_equal L L' -> L.*1 = L'.*1.
Proof. induction 1 as [| ? ? ? ? [H _] _ IH]; cbn; [done | by f_equal]. Qed.

(** An object read back from its members in any order. *)
Lemma equal_object o m L L' :
  ok hash_string o m -> Z.of_nat (size m) <= MEMBERS_MAX -> L ≡ₚ shash_nodes o -> Forall2 member_equal L L' ->
  json_equal (JSON_OBJECT o) (JSON_OBJECT (foldl put shash_init L')) = true.
Proof.
  intros O Hm HL HLL'. destruct (ok_represents hash_string o m O) as (c & Hr & Hc).
  pose proof (member_names L L' HLL') as Hn.
  assert (NoDup L'.*1) as Hd by (rewrite <- Hn, HL; by apply (nodes_names hash_string o m)).
  assert (length L' = size m) as Hlen.
  { rewrite <- (Forall2_length _ _ _ HLL'), HL, (nodes_perm hash_string o c Hr), length_map_to_list. done. }
  pose proof (puts_contents L' shash_init ∅ (init_contents hash_string)) as Hr'. rewrite map_size_empty, foldl_insert, (right_id_L ∅ (∪)) in Hr' by done.
  specialize (Hr' ltac:(lia)). cbn [Json.json_equal]. unfold json_equal_object. change (shash_count (shash_fmap _ o)) with (shash_count o). apply andb_true_iff. split.
  - rewrite (count_contents hash_string _ _ Hr), (count_contents hash_string _ _ Hr'), Z.eqb_eq, Hc, <- Hlen. f_equal.
    rewrite <- length_map_to_list. by rewrite map_to_list_to_map.
  - rewrite nodes_fmap, forallb_forall. intros kf (kv & <- & Hkv)%in_map_iff. cbn.
    apply list_elem_of_In in Hkv. rewrite <- HL in Hkv. apply list_elem_of_lookup in Hkv as (i & Hi).
    destruct (Forall2_lookup_l _ _ _ _ _ HLL' Hi) as (kv' & Hi' & Hk & He).
    destruct kv as [k v], kv' as [k' v']. cbn in Hk, He |- *. subst k'.
    rewrite (find_data_contents hash_string _ _ _ Hr').
    rewrite (proj1 (elem_of_list_to_map L' k v' Hd)); [done |]. apply list_elem_of_lookup. by exists i.
Qed.

(** The members in the order of the output. *)
Definition member_order (o : shash T json) : list (chars * json) :=
  if has_flag fl JSSF_SORT then shash_sort o else shash_nodes o.

Lemma object_text depth o m :
  ok hash_string o m -> Forall no_nul (nodes o).*1 ->
  json_serialize fl depth (JSON_OBJECT o) =
    ["{"%char] ++ (indent_line fl (depth + 1) ++
    match member_order o with
    | [] => []
    | kv :: L => member_text (depth + 1) kv ++ concat (List.map (later_member (depth + 1)) L)
    end) ++ ["}"%char].
Proof.
  intros O Hn. cbn [json_serialize]. unfold json_serialize_object. change (str "{") with ["{"%char]. change (str "}") with ["}"%char].
  rewrite <- !app_assoc. do 2 f_equal. f_equal.
  assert ((if has_flag fl JSSF_SORT then shash_sort (shash_fmap (json_serialize fl (depth + 1)) o)
           else shash_nodes (shash_fmap (json_serialize fl (depth + 1)) o))
          = prod_map id (json_serialize fl (depth + 1)) <$> member_order o) as ->.
  { unfold member_order. destruct (has_flag _ _); [by apply (sort_fmap hash_string _ o m) | apply nodes_fmap]. }
  destruct (member_order o) as [| [k v] L]; [done |]. cbn [fmap list_fmap]. rewrite imap_cons. cbn [concat].
  f_equal. rewrite (imap_later _ (λ kt, ("," :: indent_line fl (depth + 1))%char ++
    json_serialize_string kt.1 ++ [":"%char] ++ (if has_flag fl JSSF_PRETTY then [" "%char] else []) ++ kt.2)) by done.
  change (list_fmap _ _ ?g ?l) with (List.map g l). by rewrite List.map_map.
Qed.

Lemma order_perm o : member_order o ≡ₚ shash_nodes o.
Proof. unfold member_order. destruct (has_flag _ _); [apply merge_sort_Permutation | done]. Qed.

Lemma object_body n depth o m :
  ok hash_string o m -> Z.of_nat (size m) <= MEMBERS_MAX ->
  Forall (λ kv, no_nul kv.1 /\ readable n kv.2) (nodes o) -> forall t π stk,
  get_at π t = Some (JSON_OBJECT shash_init) -> (length (π :: stk) + n <= 1000)%nat ->
  exists body v' st', json_serialize fl depth (JSON_OBJECT o) = ["{"%char] ++ body ++ ["}"%char] /\
    json_equal (JSON_OBJECT o) v' = true /\ kind_of v' = Object /\ closes T_END_OBJECT st' /\
    reads body (mk_config t (π :: stk) JSON_PARSE_OBJECT_INIT None) (mk_config (alter_at π (λ _, v') t) (π :: stk) st' None).
Proof.
  intros O Hm Hf t π stk Hg Hn.
  assert (Forall no_nul (nodes o).*1) as Hnames.
  { apply Forall_fmap. eapply Forall_impl; [done |]. by intros kv [H _]. }
  pose proof (object_text depth o m O Hnames) as Htext. pose proof (order_perm o) as Hp.
  assert (Forall (λ kv, no_nul kv.1 /\ readable n kv.2) (member_order o)) as Hf'.
  { rewrite Hp. by apply nodes_forall. }
  pose proof (equal_object o m (member_order o)) as Heq.
  destruct Hf' as [| kv L [Hk Hv] HL].
  - exists (indent_line fl (depth + 1) ++ []), (JSON_OBJECT shash_init), JSON_PARSE_OBJECT_INIT.
    split; [done |]. split; [by apply (Heq []) |]. split; [done |]. split; [left; by eauto |].
    rewrite alter_same, app_nil_r by done. apply moves_reads, indent_moves.
  - destruct (member_reads n (depth + 1) kv t π stk JSON_PARSE_OBJECT_INIT _ Hk Hv Hg Hn) as (kv' & E & Hr); [by left |].
    set (t1 := alter_at π (λ _, JSON_OBJECT (put shash_init kv')) t) in *.
    assert (get_at π t1 = Some (JSON_OBJECT (put shash_init kv'))) as Hg1 by (unfold t1; by rewrite (get_alter _ _ _ _ Hg)).
    destruct (members_tail n (depth + 1) L HL t1 π stk _ Hg1 Hn) as (L' & HL' & Hr'). unfold t1 in Hr'. rewrite alter_again in Hr'.
    eexists _, (JSON_OBJECT (foldl put shash_init (kv' :: L'))), JSON_PARSE_OBJECT_NEXT.
    split; [exact Htext |]. split; [apply (Heq (kv' :: L')); [done | done | done | by constructor] |]. split; [done |]. split; [left; by eauto |].
    apply (moves_reads_app _ _ _ _ (mk_config t (π :: stk) JSON_PARSE_OBJECT_INIT None)); [apply indent_moves |].
    apply (reads_app _ _ _ _ (mk_config t1 (π :: stk) JSON_PARSE_OBJECT_NEXT None)); [done | done |].
    destruct L; [done |]. cbn. by left.
Qed.

(** *** All values *)

(** A value whose body between brackets is read back, in the middle of another. *)
Lemma nested_reads v token_open token_close (c_open c_close : ascii) new st0 n depth t π stk st name node :
  get_at π t = Some node -> expects st node name -> (length (π :: stk) + S n <= 1000)%nat ->
  punctuation c_open = Some token_open -> punctuation c_close = Some token_close -> delimiter c_close ->
  opening token_open = Some (new, st0) ->
  (forall t π stk, get_at π t = Some new -> (length (π :: stk) + n <= 1000)%nat ->
     exists body v' st', json_serialize fl depth v = [c_open] ++ body ++ [c_close] /\
       json_equal v v' = true /\ kind_of v' <> Scalar /\ closes token_close st' /\
       reads body (mk_config t (π :: stk) st0 None) (mk_config (alter_at π (λ _, v') t) (π :: stk) st' None)) ->
  exists v', json_equal v v' = true /\
    reads (json_serialize fl depth v) (mk_config t (π :: stk) st name)
      (mk_config (put_at π node name v' t) (π :: stk) (next_of node) None).
Proof.
  intros Hg Hx Hn Ho Hc Hdel Hop Hbody. pose proof (expects_accepts _ _ _ Hx) as Ha.
  destruct (put_completed π node name t new new Ha Hg) as (_ & Hg1 & _).
  set (t1 := put_at π node name new t) in *. set (π1 := π ++ [place_in node name]) in *.
  destruct (Hbody t1 π1 (π :: stk) Hg1) as (body & v' & st' & -> & He & Hk & Hcl & Hr); [cbn [length] in *; lia |].
  destruct (put_completed π node name t new v' Ha Hg) as (Et & _ & _). destruct (put_completed π node name t v' v' Ha Hg) as (_ & Hg2 & Hg3).
  change (alter_at π1 (λ _, v') t1 = put_at π node name v' t) in Et. rewrite Et in Hr.
  exists v'. split; [done |]. apply moves_reads. apply (moves_app _ _ _ _ (mk_config t1 (π1 :: π :: stk) st0 None)).
  { apply (punctuation_moves _ _ token_open); [done |]. apply open_inputs; [done | done | done | cbn [length] in *; lia]. }
  apply (reads_moves _ _ _ _ (mk_config (put_at π node name v' t) (π1 :: π :: stk) st' None)); [done | | done | done].
  apply (punctuation_moves _ _ token_close); [done |].
  replace (next_of node) with (next_of (put_in node name v')) by by destruct node, name.
  apply (close_inputs _ _ _ _ _ _ _ v'); [done | done | done |]. rewrite kind_put. destruct node; try done.
Qed.

Lemma print_int_text z : LLONG_MIN <= z <= LLONG_MAX -> number_text (print_int z).
Proof.
  assert (forall d, 0 <= d < 10 -> number_start (digit_char d) = true /\ number_char (digit_char d)) as Hd.
  { intros d Hd. assert (forallb (λ d, number_start (digit_char d) && negb (digit_char d =c NUL) &&
      strchr (str ".0123456789eE-+") (digit_char d)) (List.map Z.of_nat (seq 0 10)) = true) as H by by vm_compute.
    rewrite forallb_forall in H. specialize (H d). rewrite !andb_true_iff, negb_true_iff, Ascii.eqb_neq in H.
    destruct H as [[H1 H2] H3]; [| done]. apply in_map_iff. exists (Z.to_nat d). split; [lia | apply in_seq; lia]. }
  assert (forall x : Z, in_u 64 x -> number_text (print_uint 10 x)) as Hu.
  { intros x Hx. destruct (print_uint_digits 10 x ltac:(lia) Hx) as (l & -> & Hne & _ & Hl). split.
    - destruct Hl as [| d l H _]; [done |]. by apply Hd.
    - clear Hne. induction Hl as [| d l H _ IH]; cbn; constructor; [by apply Hd | done]. }
  unfold LLONG_MIN, LLONG_MAX. intros Hz. unfold print_int. destruct (Z.ltb_spec z 0).
  - destruct (Hu (- z) ltac:(unfold in_u; lia)) as [_ Hf]. split; [done | by constructor].
  - apply Hu. unfold in_u. lia.
Qed.

Lemma scalar_readable n v : printable n v -> kind_of v = Scalar -> readable n v.
Proof.
  intros Hv Hk depth t π stk st name node Hg Hx _.
  assert (forall token w, scalar_token token = Some w -> json_equal v w = true ->
    (inputs token (mk_config t (π :: stk) st name) (mk_config (put_at π node name w t) (π :: stk) (next_of node) None) ->
     reads (json_serialize fl depth v) (mk_config t (π :: stk) st name) (mk_config (put_at π node name w t) (π :: stk) (next_of node) None)) ->
    exists v', json_equal v v' = true /\ reads (json_serialize fl depth v) (mk_config t (π :: stk) st name)
      (mk_config (put_at π node name v' t) (π :: stk) (next_of node) None)) as Hscalar
    by (intros token w Ht He Hs; exists w; split; [done |]; apply Hs; by apply scalar_inputs).
  destruct v as [| | | o | l | z | r | s]; try done; cbn [json_serialize] in *.
  - apply (Hscalar T_NULL JSON_NULL); [done | done |]. apply keyword_reads. by left.
  - apply (Hscalar T_FALSE JSON_FALSE); [done | done |]. apply keyword_reads. right. by right.
  - apply (Hscalar T_TRUE JSON_TRUE); [done | done |]. apply keyword_reads. right. by left.
  - assert (LLONG_MIN <= z <= LLONG_MAX) as Hz by by destruct n.
    apply (Hscalar (T_INTEGER z) (JSON_INTEGER z)); [done | apply Z.eqb_refl |].
    apply number_reads; [by apply print_int_text | by apply lex_print_int].
  - assert (real_ok r) as (H1 & H2 & H3) by by destruct n.
    apply (Hscalar (T_REAL r) (JSON_REAL r)); [done | done |]. by apply number_reads.
  - assert (no_nul s) as Hs by by destruct n.
    apply (Hscalar (T_STRING s) (JSON_STRING s)); [done | |].
    + cbn. apply Z.eqb_eq. pose proof (strcmp_antisym s s). lia.
    + intros Hin. apply moves_reads. by apply string_moves.
Qed.

Lemma printable_readable n v : printable n v -> readable n v.
Proof.
  revert v. induction n as [| n IH]; intros v Hv.
  { destruct v; try done; by apply scalar_readable. }
  destruct v as [| | | o | l | z | r | s]; try by apply scalar_readable.
  - destruct Hv as [(m & O & Hm) Hf]. intros depth t π stk st name node Hg Hx Hn.
    apply (nested_reads (JSON_OBJECT o) T_BEGIN_OBJECT T_END_OBJECT "{" "}" json_object_create JSON_PARSE_OBJECT_INIT n); try done; [by right; right |].
    intros t' π' stk' Hg' Hn'. destruct (object_body n depth o m O Hm) with (t := t') (π := π') (stk := stk') as (body & v' & st' & H1 & H2 & H3 & H4 & H5); try done.
    { eapply Forall_impl; [done |]. intros kv [H1 H2]. split; [done | by apply IH]. }
    exists body, v', st'. by rewrite H3.
  - intros depth t π stk st name node Hg Hx Hn.
    apply (nested_reads (JSON_ARRAY l) T_BEGIN_ARRAY T_END_ARRAY "[" "]" json_array_create_empty JSON_PARSE_ARRAY_INIT n); try done; [by right; left |].
    intros t' π' stk' Hg' Hn'. destruct (array_body n depth l) with (t := t') (π := π') (stk := stk') as (body & v' & st' & H1 & H2 & H3 & H4 & H5); try done.
    { eapply Forall_impl; [apply Hv |]. intros w Hw. by apply IH. }
    exists body, v', st'. by rewrite H3.
Qed.

(** An object or array as the whole input. *)
Lemma root_reads n v :
  printable (S n) v -> (S n <= 1000)%nat -> kind_of v <> Scalar ->
  exists v', json_equal v v' = true /\ kind_of v' <> Scalar /\
    moves (json_to_string v fl) (mk_config JSON_NULL [] JSON_PARSE_START None) (mk_config v' [[]] JSON_PARSE_END None).
Proof.
  intros Hv Hn Hk. unfold json_to_string.
  assert (forall token_open token_close (c_open c_close : ascii) new st0,
    punctuation c_open = Some token_open -> punctuation c_close = Some token_close -> delimiter c_close ->
    opening token_open = Some (new, st0) ->
    (exists body v' st', json_serialize fl 0 v = [c_open] ++ body ++ [c_close] /\
       json_equal v v' = true /\ kind_of v' <> Scalar /\ closes token_close st' /\
       reads body (mk_config new [[]] st0 None) (mk_config (alter_at [] (λ _, v') new) [[]] st' None)) ->
    exists v', json_equal v v' = true /\ kind_of v' <> Scalar /\
      moves (json_serialize fl 0 v) (mk_config JSON_NULL [] JSON_PARSE_START None) (mk_config v' [[]] JSON_PARSE_END None)) as Hroot.
  { intros token_open token_close c_open c_close new st0 Ho Hc Hdel Hop (body & v' & st' & -> & He & Hk' & Hcl & Hr).
    exists v'. split; [done |]. split; [done |]. apply (moves_app _ _ _ _ (mk_config new [[]] st0 None)).
    { apply (punctuation_moves _ _ token_open); [done |]. by apply root_inputs. }
    apply (reads_moves _ _ _ _ (mk_config v' [[]] st' None)); [done | | done | done].
    apply (punctuation_moves _ _ token_close); [done |]. by apply (close_root_inputs _ _ _ v'). }
  destruct v as [| | | o | l | z | r | s]; try done.
  - destruct Hv as [(m & O & Hm) Hf].
    apply (Hroot T_BEGIN_OBJECT T_END_OBJECT "{"%char "}"%char json_object_create JSON_PARSE_OBJECT_INIT); try done; [by right; right |].
    destruct (object_body n 0 o m O Hm) with (t := json_object_create : json) (π := @nil nat) (stk := @nil (list nat)) as (body & v' & st' & H1 & H2 & H3 & H4 & H5); try done.
    { eapply Forall_impl; [exact Hf |]. intros kv [H1 H2]. split; [done | by apply printable_readable]. }
    exists body, v', st'. by rewrite H3.
  - cbn [wf_json] in Hv. apply (Hroot T_BEGIN_ARRAY T_END_ARRAY "["%char "]"%char json_array_create_empty JSON_PARSE_ARRAY_INIT); try done; [by right; left |].
    destruct (array_body n 0 l) with (t := json_array_create_empty : json) (π := @nil nat) (stk := @nil (list nat)) as (body & v' & st' & H1 & H2 & H3 & H4 & H5); try done.
    { apply (Forall_impl _ _ _ (proj2 Hv)). intros w. apply printable_readable. }
    exists body, v', st'. by rewrite H3.
Qed.

End roundtrip.
End JsonRoundtrip.
