(* ===== verification/JsonProps.v ===== *)
(** Properties of JSON values, their parser and their serializer. *)
From stdpp Require Import gmap sorting.
From S2P Require Import Prelude Text Hmap Containers Shash Json JsonLex JsonNumber JsonParse JsonRead JsonRoundtrip.

Module JsonProps.
Import Json JsonLex JsonNumber JsonParse JsonRead JsonRoundtrip.

Section properties.
Context {T R : Type} {HT : HashTable T} {HTok : HashTableOk T} {D : Double R}.
Context (hash_string : chars -> Z -> Z).

Abbreviation parser := (json_parser T R).
Abbreviation json := (json T R).
Abbreviation json_equal := (json_equal hash_string).
Abbreviation wf_json := (wf_json hash_string).
Implicit Types (p : parser) (j v : json) (fl z : Z).

(** No matter which reals the lexer makes. *)
Abbreviation any := (λ _ : R, True).
Abbreviation any_real := (λ _ _ _, I).

(** ** The text of a value is a C string *)

Lemma no_nul_indent fl depth : no_nul (indent_line fl depth).
Proof.
  unfold indent_line. destruct (has_flag _ _); [| constructor]. constructor; [done |].
  apply Forall_forall. by intros c [-> _]%elem_of_replicate.
Qed.

Lemma no_nul_string s : no_nul s -> no_nul (json_serialize_string s).
Proof.
  intros Hs. unfold json_serialize_string. rewrite cstr_id by done. fold (escaped s).
  apply Forall_app. split; [by repeat constructor |]. apply Forall_app. split; [by apply no_nul_escaped | by repeat constructor].
Qed.

Lemma no_nul_number s : number_text s -> no_nul s.
Proof. intros [_ H]. eapply Forall_impl; [done |]. by intros c [Hc _]. Qed.

Lemma no_nul_concat (l : list chars) : Forall no_nul l -> no_nul (concat l).
Proof. induction 1 as [| s l Hs _ IH]; [constructor |]. by apply Forall_app. Qed.

Lemma no_nul_imap {A} (f : nat -> A -> chars) (l : list A) :
  (forall i x, x ∈ l -> no_nul (f i x)) -> no_nul (concat (imap f l)).
Proof.
  intros H. apply no_nul_concat, Forall_lookup_2. intros i s Hs. rewrite list_lookup_imap in Hs.
  destruct (l !! i) as [x |] eqn:E; [| done]. injection Hs as <-. apply H. by apply list_elem_of_lookup_2 in E.
Qed.

Lemma no_nul_text fl n v depth :
  wf_json real_ok MEMBERS_MAX n v -> no_nul (json_serialize fl depth v).
Proof.
  revert v depth. induction n as [| n IH]; intros v depth Hv;
    (destruct v as [| | | o | l | z | r | s]; try done; try (by repeat constructor);
     try (by apply no_nul_number, print_int_text); try (by apply no_nul_number, Hv); try (by apply no_nul_string)).
  - destruct Hv as [_ Hf]. cbn [json_serialize]. unfold json_serialize_object.
    assert (forall kt, kt ∈ (if has_flag fl JSSF_SORT then shash_sort (shash_fmap (json_serialize fl (depth + 1)) o)
      else shash_nodes (shash_fmap (json_serialize fl (depth + 1)) o)) -> no_nul kt.1 /\ no_nul kt.2) as Hm.
    { intros kt Hkt. assert (kt ∈ shash_nodes (shash_fmap (json_serialize fl (depth + 1)) o)) as Hin.
      { destruct (has_flag _ _); [| done]. unfold shash_sort in Hkt. by rewrite merge_sort_Permutation in Hkt. }
      rewrite nodes_fmap in Hin. apply list_elem_of_fmap in Hin as ([k v] & -> & Hkv).
      apply (nodes_forall (λ kv, no_nul kv.1 /\ wf_json real_ok MEMBERS_MAX n kv.2)) in Hf.
      rewrite Forall_forall in Hf. destruct (Hf _ Hkv) as [H1 H2]. cbn. split; [done | by apply IH]. }
    apply Forall_app. split; [by repeat constructor |]. apply Forall_app. split; [apply no_nul_indent |].
    apply Forall_app. split; [| by repeat constructor]. apply no_nul_imap. intros i kt [H1 H2]%Hm.
    unfold json_serialize_object_member. apply Forall_app. split.
    { destruct (_ =? _)%nat; [constructor |]. constructor; [done | apply no_nul_indent]. }
    apply Forall_app. split; [by apply no_nul_string |]. apply Forall_app. split; [by repeat constructor |].
    apply Forall_app. split; [| done]. destruct (has_flag fl JSSF_PRETTY); by repeat constructor.
  - cbn [json_serialize]. unfold json_serialize_array. apply Forall_app. split; [by repeat constructor |].
    apply Forall_app. split; [| by repeat constructor].
    destruct (_ <? _)%nat; [| constructor]. apply Forall_app. split; [apply no_nul_indent |]. apply no_nul_imap.
    intros i s (v & <- & Hv')%list_elem_of_In%in_map_iff. unfold json_serialize_element. apply Forall_app. split.
    { destruct (_ =? _)%nat; [constructor |]. constructor; [done | apply no_nul_indent]. }
    apply IH. destruct Hv as [_ Hv]. rewrite Forall_forall in Hv. by apply Hv, list_elem_of_In.
Qed.

(** ** Round trip *)

(** The length of a string fits into memory. *)
Definition fits (s : chars) : Prop := Z.of_nat (length s) < 2 ^ 63 - 1.

(** C4: JSON values survive serialization: the text of an object or array that is nested at most
    1000 deep and whose real numbers are printed exactly, in any of the four formats, is parsed
    as an equal value. *)
Theorem json_roundtrip fl v :
  wf_json real_ok MEMBERS_MAX 1000 v -> kind_of v <> Scalar -> fits (json_to_string v fl) ->
  exists v', json_from_string hash_string (json_to_string v fl) = Some v' /\ json_equal v v' = true.
Proof.
  intros Hv Hk Hf. destruct (root_reads hash_string fl 999 v Hv ltac:(lia) Hk) as (v' & He & _ & Hm).
  exists v'. split; [| done]. unfold json_from_string. rewrite cstr_id by (by apply (no_nul_text fl 1000)).
  unfold fits in Hf. rewrite (feed_spec hash_string any any_real 0 (json_parser_create JSPF_TRAILER)) by (first [apply create_keeps | unfold in_u; lia]).
  destruct (Hm (json_parser_create JSPF_TRAILER)) as (p' & (Hp' & Hl & _) & E); [done |].
  rewrite <- (app_nil_r (json_to_string v fl)), E. cbn [feed_all shift mbind option_bind].
  unfold json_parser_finish. destruct Hp' as [_ Ht Hs Hst _ _ Her]. cbn in Ht, Hs, Hst. rewrite Hl. cbn [mbind option_bind]. rewrite Hst.
  rewrite decide_False, bool_decide_true by done. cbn [negb]. unfold height. by rewrite Her, Hs, Ht.
Qed.

(** ** Arbitrary input *)

(** C13: the parser is safe: whatever bytes it is fed, in whatever pieces, no assertion fails and
    no null pointer is used, and it returns either an error message or an object or array that
    is nested at most 1000 deep, has distinct member names in each object, and only C strings
    and 64-bit integers. *)
Theorem json_parse_safe fl pieces :
  fits (concat pieces) ->
  exists p j, feed_pieces hash_string fl pieces = Some p /\ json_parser_finish hash_string p = Some j /\
    result_ok hash_string any (2 * Z.of_nat (length (concat pieces)) + 1) j.
Proof.
  unfold fits. intros Hf.
  destruct (feed_pieces_all hash_string any any_real fl pieces) as (n & p & _ & E & I); [unfold in_u; lia |].
  destruct (finish_keeps hash_string any any_real _ p I) as (j & Ej & Hj); [unfold in_u; lia |]. by exists p, j.
Qed.

Lemma stream_pieces_all pieces fed :
  Forall (λ piece, piece <> []) pieces -> fits (concat (fed ++ pieces)) -> forall p,
  feed_pieces hash_string JSPF_TRAILER fed = Some p ->
  stream_loop hash_string p pieces = feed_pieces hash_string JSPF_TRAILER (fed ++ pieces).
Proof.
  intros Hne. revert fed. induction Hne as [| piece pieces Hp Hne IH]; intros fed Hf p E; [by rewrite app_nil_r |].
  assert (fed ++ piece :: pieces = (fed ++ [piece]) ++ pieces) as Eapp by by rewrite <- app_assoc.
  rewrite Eapp in Hf |- *. destruct (feed_pieces_all hash_string any any_real JSPF_TRAILER (fed ++ [piece])) as (n' & p' & _ & E' & I').
  { unfold fits, in_u in *. rewrite concat_app, length_app in Hf. lia. }
  destruct (feed_pieces_all hash_string any any_real JSPF_TRAILER fed) as (n & p0 & _ & E0 & I).
  { unfold fits, in_u in *. rewrite !concat_app, !length_app in Hf. lia. }
  rewrite E in E0. injection E0 as <-.
  assert (json_parser_feed hash_string p piece = feed_all hash_string p piece) as Efeed.
  { apply (feed_spec _ _ any_real _ _ _ I); [| lia]. unfold fits, in_u in *. rewrite !concat_app, !length_app in Hf. cbn in Hf.
    rewrite app_nil_r in Hf. lia. }
  assert (exists m, feed_all hash_string p piece = Some (m, p') /\ (m = length piece \/ done p' = true)) as (m & Em & Hm).
  { pose proof E' as E2. unfold feed_pieces in E2. rewrite foldl_app in E2. change (foldl _ _ fed) with (feed_pieces hash_string JSPF_TRAILER fed) in E2.
    rewrite E in E2. cbn [foldl mbind option_bind] in E2. rewrite Efeed in E2.
    destruct (feed_all_keeps hash_string any any_real _ p piece I) as (m & p2 & Em & _ & Hm1 & Hm2); [| lia |].
    { unfold fits, in_u in *. rewrite !concat_app, !length_app in Hf. cbn in Hf. rewrite app_nil_r in Hf. lia. }
    rewrite Em in E2 |- *. injection E2 as ->. exists m. split; [done |]. destruct (decide (m = length piece)); [by left |]. right. apply Hm2. lia. }
  destruct piece as [| c piece]; [done |]. cbn [stream_loop]. rewrite Efeed, Em. cbn [mbind option_bind].
  destruct (Nat.eqb_spec m (length (c :: piece))) as [| Hne']; [by apply IH |]. destruct Hm as [? | Hd]; [done |].
  unfold feed_pieces. rewrite foldl_app. change (foldl _ _ (fed ++ [c :: piece])) with (feed_pieces hash_string JSPF_TRAILER (fed ++ [c :: piece])).
  rewrite E'. clear -Hd. induction pieces as [| q pieces IH]; [done |]. cbn [foldl]. cbn [mbind option_bind].
  unfold json_parser_feed at 2. assert (feed_loop hash_string (2 * length q) p' q 0 = Some (0%nat, p')) as ->.
  { destruct q as [| c q]; [done |]. cbn [length Nat.mul Nat.add feed_loop]. by rewrite Hd. }
  apply IH.
Qed.

(** It does not matter in which pieces input arrives: the parser after the pieces is the
    parser after all of the input at once, and reading a stream gives the same result as parsing
    the string of its contents. *)
Theorem json_pieces_equiv fl pieces :
  fits (concat pieces) ->
  feed_pieces hash_string fl pieces = feed_pieces hash_string fl [concat pieces] /\
  (Forall (λ piece, piece <> []) pieces -> no_nul (concat pieces) ->
   json_from_stream hash_string pieces None = json_from_string hash_string (concat pieces)).
Proof.
  intros Hf. assert (forall fl, feed_pieces hash_string fl pieces = feed_pieces hash_string fl [concat pieces]) as Heq.
  { intros fl'. unfold fits in Hf.
    destruct (feed_pieces_all hash_string any any_real fl' pieces) as (n & p & E & -> & _); [unfold in_u; lia |].
    assert (concat [concat pieces] = concat pieces) as Ec by apply app_nil_r.
    destruct (feed_pieces_all hash_string any any_real fl' [concat pieces]) as (n' & p' & E' & -> & _); rewrite Ec in *; [unfold in_u; lia |].
    rewrite E in E'. by injection E' as _ <-. }
  split; [apply Heq |]. intros Hne Hn. unfold json_from_stream, json_from_string. rewrite cstr_id by done.
  rewrite (stream_pieces_all pieces [] Hne Hf (json_parser_create JSPF_TRAILER) eq_refl). cbn [app]. rewrite Heq.
  unfold feed_pieces. cbn [foldl mbind option_bind]. destruct (json_parser_feed _ _ _) as [[n p] |]; [| done]. cbn [mbind option_bind].
  by destruct (json_parser_finish hash_string p).
Qed.

(** ** Numbers *)

(** Numbers are read exactly: of a number in JSON syntax with at most 19 digits before the
    exponent and an exponent below a tenth of the range, the lexer makes an integer token when
    the number is an integer of 64 bits, whatever its notation, and the integer is the number;
    otherwise it makes a real token from [strtod]'s result, or reports the range. *)
Theorem json_number_exact x :
  well_formed x -> precise x ->
  (forall z, denotes (negative x) (significand x) (power x) z -> LLONG_MIN <= z <= LLONG_MAX ->
     json_lex_number (R := R) (text x) = inl (T_INTEGER z)) /\
  ((forall z, denotes (negative x) (significand x) (power x) z -> ~ LLONG_MIN <= z <= LLONG_MAX) ->
     json_lex_number (R := R) (text x) =
       match str_to_double (text x) with
       | None => inr (str "number outside valid range")
       | Some d => inl (T_REAL (if double_eqb d double_zero then double_zero else d))
       end).
Proof.
  intros Hx Hp. rewrite (lex_number_text x Hx Hp). pose proof (significand_range x Hx Hp) as Hs. unfold classify.
  destruct (Z.eqb_spec (significand x) 0) as [E | E].
  - rewrite E. unfold denotes. split.
    + intros z Hz _. assert (z = 0) as ->; [| done]. assert (0 < 10 ^ Z.max 0 (- power x)) by (apply Z.pow_pos_nonneg; lia).
      destruct (negative x); nia.
    + intros H. exfalso. apply (H 0); [by destruct (negative x) | done].
  - pose proof (integer_value_exact (negative x) (significand x) (power x)) as Hi. split.
    + intros z Hz Hr. by rewrite (proj2 (Hi z ltac:(lia)) (conj Hz Hr)).
    + intros H. destruct (integer_value _ _ _ _) as [z |]; [| done]. destruct (proj1 (Hi z ltac:(lia)) eq_refl) as [Hz Hr]. by destruct (H z).
Qed.

(** ** Equality *)

Context (hash_int : Z -> Z -> Z) (hash_double : R -> Z -> Z).
Abbreviation json_hash := (json_hash hash_string hash_int hash_double).

Context (P : R -> Prop).
Context (P_equal : forall d e, P d -> P e -> double_eqb d e = true -> hash_double d = hash_double e /\ format_g d = format_g e).
Context (P_refl : forall d, P d -> double_eqb d d = true).

(** The members of equal objects, in the order of their names, agree. *)
Lemma equal_members a b ma mb :
  ok hash_string a ma -> ok hash_string b mb -> Forall no_nul (nodes a).*1 -> Forall no_nul (nodes b).*1 ->
  json_equal (JSON_OBJECT a) (JSON_OBJECT b) = true -> Forall2 (member_equal hash_string) (shash_sort a) (shash_sort b).
Proof.
  intros Oa Ob Hna Hnb He. cbn [Json.json_equal] in He. unfold json_equal_object in He.
  change (shash_count (shash_fmap _ a)) with (shash_count a) in He. apply andb_true_iff in He as [Hc Hf].
  destruct (ok_represents hash_string a ma Oa) as (ca & Hra & _). destruct (ok_represents hash_string b mb Ob) as (cb & Hrb & _).
  rewrite (count_contents hash_string _ _ Hra), (count_contents hash_string _ _ Hrb), Z.eqb_eq in Hc.
  destruct (sort_contents hash_string a ca Hra) as [Hpa Hsa]. destruct (sort_contents hash_string b cb Hrb) as [Hpb Hsb].
  assert (forall kv, kv ∈ shash_sort a -> exists w, cb !! kv.1 = Some w /\ json_equal kv.2 w = true) as Hin.
  { intros [k v] Hkv. rewrite Hpa, <- (nodes_perm hash_string a ca Hra) in Hkv. rewrite nodes_fmap, forallb_forall in Hf.
    assert (In (k, json_equal v) (prod_map id json_equal <$> shash_nodes a)) as Hk.
    { apply in_map_iff. exists (k, v). split; [done | by apply list_elem_of_In]. }
    specialize (Hf _ Hk). cbn in Hf. rewrite (find_data_contents hash_string _ _ _ Hrb) in Hf.
    cbn. destruct (cb !! k) as [w |]; [by exists w | done]. }
  set (L := (λ kv : chars * json, (kv.1, default kv.2 (cb !! kv.1))) <$> shash_sort a).
  assert (NoDup (shash_sort a).*1) as Hda.
  { unfold shash_sort. rewrite merge_sort_Permutation. by apply (nodes_names hash_string a ma). }
  assert (L.*1 = (shash_sort a).*1) as HL1 by by (unfold L; rewrite <- list_fmap_compose).
  assert (L ≡ₚ map_to_list cb) as HLp.
  { apply submseteq_length_Permutation.
    2: { rewrite length_map_to_list. unfold L. rewrite length_fmap, Hpa, length_map_to_list. lia. }
    - apply NoDup_submseteq; [apply (NoDup_fmap_1 fst); by rewrite HL1 |].
      intros [k w] (kv & [= -> ->] & Hkv)%list_elem_of_fmap. destruct (Hin kv Hkv) as (w & Hw & _). rewrite Hw. cbn.
      by apply elem_of_map_to_list. }
  assert (L = shash_sort b) as <-.
  { apply sorted_unique; [by rewrite HLp, Hpb | by rewrite HL1 | | | done].
    - rewrite HL1. unfold shash_sort. rewrite merge_sort_Permutation. rewrite Forall_fmap in *. by apply nodes_forall.
    - unfold L. clear -Hsa. induction Hsa as [| kv l _ IH Hkv]; cbn; constructor; [done |].
      apply Forall_fmap. eapply Forall_impl; [done |]. done. }
  unfold L. apply Forall2_fmap_r, Forall_Forall2_diag, Forall_forall. intros kv Hkv.
  destruct (Hin kv Hkv) as (w & Hw & Hq). split; [done |]. cbn. by rewrite Hw.
Qed.

(** Equal values have the same hash and the same sorted text. *)
Definition agree (a b : json) : Prop :=
  (forall basis, json_hash a basis = json_hash b basis) /\
  (forall fl depth, has_flag fl JSSF_SORT = true -> json_serialize fl depth a = json_serialize fl depth b).

Lemma wf_names N n (o : shash T json) : Forall (λ kv : chars * json, no_nul kv.1 /\ wf_json P N n kv.2) (nodes o) -> Forall no_nul (nodes o).*1.
Proof. intros H. apply Forall_fmap. eapply Forall_impl; [done |]. by intros kv [Hk _]. Qed.

Lemma wf_sorted N n (o : shash T json) :
  Forall (λ kv : chars * json, no_nul kv.1 /\ wf_json P N n kv.2) (nodes o) -> Forall (λ kv, wf_json P N n kv.2) (shash_sort o).
Proof.
  intros H. unfold shash_sort. rewrite merge_sort_Permutation. apply nodes_forall. eapply Forall_impl; [done |]. by intros kv [_ Hk].
Qed.

Lemma agree_array (l l' : list json) : Forall2 agree l l' -> agree (JSON_ARRAY l) (JSON_ARRAY l').
Proof.
  intros H. split.
  - intros basis. cbn. unfold json_hash_array. rewrite !length_map, (Forall2_length _ _ _ H). generalize (hash_int (u32 (Z.of_nat (length l'))) basis).
    induction H as [| a b l l' [Hab _] _ IH]; intros z; cbn; [done |]. by rewrite Hab.
  - intros fl depth Hfl. cbn [json_serialize]. unfold json_serialize_array.
    assert (List.map (json_serialize fl (depth + 1)) l = List.map (json_serialize fl (depth + 1)) l') as ->; [| done].
    induction H as [| a b l l' [_ Hab] _ IH]; cbn; [done |]. by rewrite Hab, IH.
Qed.

Lemma agree_object (a b : shash T json) ma mb :
  ok hash_string a ma -> ok hash_string b mb -> Forall no_nul (nodes a).*1 -> Forall no_nul (nodes b).*1 ->
  Forall2 (λ x y : chars * json, x.1 = y.1 /\ agree x.2 y.2) (shash_sort a) (shash_sort b) ->
  agree (JSON_OBJECT a) (JSON_OBJECT b).
Proof.
  intros Oa Ob Hna Hnb H. split.
  - intros basis. cbn [Json.json_hash]. unfold json_hash_object. rewrite (sort_fmap hash_string _ a ma), (sort_fmap hash_string _ b mb) by done.
    revert basis. induction H as [| [k x] [k' y] l l' [Hk [Hv _]] _ IH]; intros z; [done |]. cbn in Hk, Hv |- *.
    rewrite Hk, Hv. apply IH.
  - intros fl depth Hfl. cbn [json_serialize]. unfold json_serialize_object. rewrite Hfl, (sort_fmap hash_string _ a ma), (sort_fmap hash_string _ b mb) by done.
    assert (prod_map id (json_serialize fl (depth + 1)) <$> shash_sort a
            = prod_map id (json_serialize fl (depth + 1)) <$> shash_sort b) as ->; [| done].
    induction H as [| [k x] [k' y] l l' [Hk [_ Hv]] _ IH]; [done |]. cbn in Hk, Hv |- *. by rewrite Hk, Hv, IH.
Qed.

Lemma equal_agrees N n (a b : json) : wf_json P N n a -> wf_json P N n b -> json_equal a b = true -> agree a b.
Proof.
  revert a b. induction n as [| n IH]; intros a b Ha Hb He;
    (destruct a as [| | | oa | la | za | ra | sa], b as [| | | ob | lb | zb | rb | sb]; try done;
     try (apply Z.eqb_eq in He as ->; done);
     try (apply Z.eqb_eq, strcmp_eq in He as ->; done);
     try (destruct (P_equal ra rb Ha Hb He) as [Hh Hf]; split; [intros basis; cbn; by rewrite Hh | by intros; cbn])).
  - destruct Ha as [(ma & Oa & _) Ha], Hb as [(mb & Ob & _) Hb].
    pose proof (wf_names N n oa Ha) as Hna. pose proof (wf_names N n ob Hb) as Hnb.
    apply (agree_object oa ob ma mb); try done. pose proof (equal_members oa ob ma mb Oa Ob Hna Hnb He) as Hm.
    pose proof (wf_sorted N n oa Ha) as Hsa. pose proof (wf_sorted N n ob Hb) as Hsb.
    clear Ha Hb. induction Hm as [| x y l l' [Hk Hv] _ IHm]; [constructor |].
    apply Forall_cons in Hsa as [Hx Hsa], Hsb as [Hy Hsb]. constructor; [split; [done | by apply IH] | by apply IHm].
  - apply agree_array. destruct Ha as [_ Ha], Hb as [_ Hb]. cbn in He. apply andb_true_iff in He as [Hl He]. apply Nat.eqb_eq in Hl.
    revert lb Hb Hl He. induction Ha as [| x la Hx Ha IHa]; intros [| y lb] Hb Hl He; try done.
    apply Forall_cons in Hb as [Hy Hb]. cbn in He. apply andb_true_iff in He as [He1 He2].
    constructor; [by apply IH | by apply IHa; [| injection Hl |]].
Qed.

Lemma json_equal_refl N n v : wf_json P N n v -> json_equal v v = true.
Proof.
  revert v. induction n as [| n IH]; intros v Hv;
    (destruct v as [| | | o | l | z | r | s]; try done; try (by apply Z.eqb_eq); try (by apply P_refl);
     try (apply Z.eqb_eq; pose proof (strcmp_antisym s s); lia)).
  - destruct Hv as [(m & O & Hm) Hf]. destruct (ok_represents hash_string o m O) as (c & Hr & _). cbn [Json.json_equal].
    unfold json_equal_object. change (shash_count (shash_fmap _ o)) with (shash_count o). rewrite Z.eqb_refl, nodes_fmap. apply forallb_forall. intros kf (kv & <- & Hkv)%in_map_iff. apply list_elem_of_In in Hkv.
    pose proof Hkv as Hc. rewrite (nodes_perm hash_string o c Hr) in Hc. destruct kv as [k v]. apply elem_of_map_to_list in Hc.
    cbn. rewrite (find_data_contents hash_string o c k Hr), Hc. apply IH. apply nodes_forall in Hf. rewrite Forall_forall in Hf.
    by destruct (Hf _ Hkv).
  - destruct Hv as [_ Hv]. cbn. unfold json_equal_array. rewrite length_map, Nat.eqb_refl. cbn. induction Hv as [| x l Hx Hv IHl]; cbn; [done |]. by rewrite IH, IHl.
Qed.

Lemma clone_equal n v : wf_json P MEMBERS_MAX n v -> json_equal v (json_deep_clone hash_string v) = true.
Proof.
  intros Hv. destruct v as [| | | o | l | z | r | s]; try (by apply (json_equal_refl MEMBERS_MAX n)).
  destruct n as [| n]; [done |]. destruct Hv as [(m & O & Hm) Hf].
  apply (equal_object hash_string o m (shash_nodes o) (shash_nodes o)); [done | done | done |].
  apply nodes_forall in Hf. apply Forall_Forall2_diag. eapply Forall_impl; [done |]. intros kv [_ Hw].
  split; [done | by apply (json_equal_refl MEMBERS_MAX n)].
Qed.

(** Equality of values is sound: it is reflexive, a copy equals its original, and equal values
    have the same hash and the same sorted text, whatever the order in which their members were
    added.  Of floating-point numbers it is assumed that the ones in the values equal themselves
    and that equal ones hash and print the same, which excludes not-a-number and negative zero. *)
Theorem json_equal_sound n a b :
  wf_json P MEMBERS_MAX n a -> wf_json P MEMBERS_MAX n b ->
  json_equal a a = true /\ json_equal a (json_deep_clone hash_string a) = true /\
  (json_equal a b = true ->
     (forall basis, json_hash a basis = json_hash b basis) /\
     (forall fl, has_flag fl JSSF_SORT = true -> json_to_string a fl = json_to_string b fl)).
Proof.
  intros Ha Hb. split; [by apply (json_equal_refl MEMBERS_MAX n) |]. split; [by apply (clone_equal n) |].
  intros He. destruct (equal_agrees MEMBERS_MAX n a b Ha Hb He) as [Hh Ht]. split; [done |]. intros fl. apply Ht.
Qed.

End properties.

(** ** Examples *)

(** Non-negative numbers with one decimal, counted in tenths, in place of doubles. *)
Definition read_tenths (s : chars) : Z :=
  let '(a, b) := span isdigit s in
  digits_value 10 0 (List.map hexit_value a) * 10 + digits_value 10 0 (List.map hexit_value (take 1 (tail b))).

#[local] Instance tenths : Double Z := {
  strtod s := (read_tenths s, length s, NO_ERROR);
  double_zero := 0;
  double_eqb := Z.eqb;
  double_of_integer z := 10 * z;
  format_g d := print_uint 10 (d / 10) ++ (if d mod 10 =? 0 then [] else "."%char :: print_uint 10 (d mod 10));
}.

Abbreviation value := (json Hmap.hmap Z).

(** The object with the member "k" and the value [1, -20, "a\n", 1.5]. *)
Definition sample_elems : value :=
  JSON_ARRAY [JSON_INTEGER 1; JSON_INTEGER (-20); JSON_STRING ["a"%char; chr 10]; JSON_REAL 15].
Definition sample_object : shash Hmap.hmap value := (shash_replace hash_length (str "k") sample_elems shash_init).2.

Lemma sample_object_wf (P : Z -> Prop) n : P 15 -> wf_json hash_length P MEMBERS_MAX (S (S n)) (JSON_OBJECT sample_object).
Proof.
  intros HP. split.
  - destruct (replace_contents hash_length shash_init ∅ (str "k") sample_elems) as [_ Hr]; [apply init_contents | done |].
    destruct (represents_ok hash_length _ _ Hr) as (m & O & Hm). exists m. split; [exact O |].
    rewrite Hm, map_size_insert_None, map_size_empty by apply lookup_empty. unfold MEMBERS_MAX. lia.
  - apply Forall_singleton. split; [by repeat constructor |]. cbn. repeat apply Forall_cons_2; try (by destruct n).
    destruct n; by repeat constructor.
Defined.

Lemma json_roundtrip_witness :
  exists v', json_from_string hash_length (json_to_string (JSON_OBJECT sample_object) 3) = Some v' /\
    json_equal hash_length (JSON_OBJECT sample_object) v' = true.
Proof.
  apply (json_roundtrip hash_length 3 (JSON_OBJECT sample_object)).
  - apply (sample_object_wf real_ok 998). split; [| split; by vm_compute]. split; [by vm_compute |].
    by repeat constructor.
  - done.
  - by vm_compute.
Defined.

Lemma json_parse_safe_witness :
  exists p j, feed_pieces (T := Hmap.hmap) (R := Z) hash_length 0 [str "[1"; str ",,"] = Some p /\
    json_parser_finish hash_length p = Some j.
Proof.
  destruct (json_parse_safe (T := Hmap.hmap) (R := Z) hash_length 0 [str "[1"; str ",,"]) as (p & j & H1 & H2 & _);
    [by vm_compute | by exists p, j].
Defined.

Lemma json_pieces_equiv_witness :
  json_from_stream (T := Hmap.hmap) (R := Z) hash_length [str "[12"; str "3]"] None
  = json_from_string hash_length (str "[123]").
Proof.
  apply (json_pieces_equiv hash_length 0 [str "[12"; str "3]"]); [by vm_compute | |]; by repeat constructor.
Defined.

(** 12.50e1 *)
Definition sample_number : number := mk_number false [1; 2] [5; 0] (Some (false, [1])).

Lemma json_number_exact_witness : json_lex_number (R := Z) (str "12.50e1") = inl (T_INTEGER 125).
Proof.
  destruct (json_number_exact (R := Z) sample_number) as [H _].
  - split; [by repeat constructor |]. split; [by repeat constructor |]. split; [right; by exists 1, [2] |].
    split; [by repeat constructor | done].
  - by split; [cbn; lia |].
  - apply (H 125); [by vm_compute | done].
Defined.

Lemma json_equal_sound_witness :
  json_equal hash_length (JSON_OBJECT sample_object) (JSON_OBJECT sample_object) = true /\
  json_equal hash_length (JSON_OBJECT sample_object) (json_deep_clone hash_length (JSON_OBJECT sample_object)) = true.
Proof.
  destruct (json_equal_sound hash_length Z.add Z.add (λ _, True)) with
    (n := 2%nat) (a := JSON_OBJECT sample_object) (b := JSON_OBJECT sample_object) as (H1 & H2 & _).
  - intros d e _ _ H%Z.eqb_eq. by subst.
  - intros d _. apply Z.eqb_refl.
  - by apply (sample_object_wf _ 0).
  - by apply (sample_object_wf _ 0).
  - done.
Defined.

(** An integer just above 64 bits loses its high bits: the check before the last digit lets it
    overflow. *)
Lemma json_big_integer_wraps :
  json_lex_number (R := Z) (str "18446744073709551617") = inl (T_INTEGER 1).
Proof. by vm_compute. Qed.

(** A name that occurs twice in an object is accepted; the last value counts. *)
Definition twice (x y : string) : chars :=
  let member v := [chr 34; "k"%char; chr 34; ":"%char] ++ str v in str "{" ++ member x ++ str "," ++ member y ++ str "}".

Lemma json_duplicate_names :
  exists v : value, json_from_string hash_length (twice "1" "2") = Some v /\
    json_to_string v 0 = [chr 123; chr 34; "k"%char; chr 34; ":"%char; "2"%char; chr 125].
Proof. eexists. split; [by vm_compute | by vm_compute]. Qed.

End JsonProps.
