(* ===== verification/Sort.v ===== *)
(** Sorting of arrays behind callbacks (lib/sort.c): a quicksort whose pivots are random.  What
    sorting promises to its clients is the class [Sorting]; the quicksort is an instance. *)
From stdpp Require Import sorting.
From S2P Require Import Prelude.

Module Sort.

Section quicksort.
(** The array, its callbacks, and the numbers that random_uint32() returns. *)
Context {S : Type} (compare : nat -> nat -> S -> Z) (swap : nat -> nat -> S -> S).
Context (random : nat -> Z).

Implicit Types (p r i j k n : nat) (s : S).

(** [n] is the number of the rounds left, those with [j] below [x]. *)
Fixpoint partition_loop n i j (x : nat) s : nat * S :=
  match n with
  | O => (i, s)
  | Datatypes.S n =>
      if compare j x s <=? 0 then partition_loop n (i + 1) (j + 1) x (swap i j s)
      else partition_loop n i (j + 1) x s
  end.

Definition partition p r s : nat * S :=
  let x := (r - 1)%nat in
  let '(i, s) := partition_loop (x - p) p p x s in
  (i, swap i x s).

(** [k] counts the random numbers used. *)
Definition random_range k (max : nat) : nat := Z.to_nat (random k mod u32 (Z.of_nat max)).

(** [fuel] bounds the depth of the recursion; [None] means that it is used up. *)
Fixpoint quicksort (fuel : nat) p r k s : option (nat * S) :=
  match fuel with
  | O => None
  | Datatypes.S fuel =>
      if (r - p <? 2)%nat then Some (k, s)
      else
        let i := (random_range k (r - p) + p)%nat in
        let s := if (r - 1 =? i)%nat then s else swap (r - 1) i s in
        let '(q, s) := partition p r s in
        '(k, s) ← quicksort fuel p q (k + 1) s;
        quicksort fuel q r k s
  end.

Definition sort (fuel count k : nat) s : option (nat * S) := quicksort fuel 0 count k s.
End quicksort.

(** ** Arrays as lists *)

Section lists.
Context {X : Type} (cmp : X -> X -> Z) (random : nat -> Z).
Implicit Types (l m a b lo hi rest : list X) (x y v : X).

Definition swap_at (i j : nat) l : list X :=
  match l !! i, l !! j with
  | Some x, Some y => <[i := y]> (<[j := x]> l)
  | _, _ => l
  end.

Definition compare_at (i j : nat) l : Z :=
  match l !! i, l !! j with
  | Some x, Some y => cmp x y
  | _, _ => 0
  end.

Lemma insert_middle a x y b i : i = length a -> <[i := y]> (a ++ x :: b) = a ++ y :: b.
Proof. intros ->. rewrite <- (Nat.add_0_r (length a)). by rewrite insert_app_r. Qed.

Lemma swap_at_same i l : swap_at i i l = l.
Proof.
  unfold swap_at. destruct (l !! i) as [x |] eqn:E; [| done].
  by rewrite list_insert_insert_eq, list_insert_id.
Qed.

Lemma swap_at_app a x m y b i j :
  i = length a -> j = (length a + S (length m))%nat ->
  swap_at i j (a ++ x :: m ++ y :: b) = a ++ y :: m ++ x :: b.
Proof.
  intros Hi Hj. unfold swap_at. rewrite list_lookup_middle by done.
  change (x :: m ++ y :: b) with ((x :: m) ++ y :: b). rewrite (app_assoc a (x :: m)).
  rewrite list_lookup_middle by (rewrite length_app; cbn; lia).
  rewrite insert_middle by (rewrite length_app; cbn; lia).
  rewrite <- (app_assoc a (x :: m)). cbn [app]. by rewrite insert_middle.
Qed.

Lemma compare_at_app a x m y b i j :
  i = length a -> j = (length a + S (length m))%nat -> compare_at i j (a ++ x :: m ++ y :: b) = cmp x y.
Proof.
  intros Hi Hj. unfold compare_at. rewrite list_lookup_middle by done.
  change (x :: m ++ y :: b) with ((x :: m) ++ y :: b). rewrite (app_assoc a (x :: m)).
  by rewrite list_lookup_middle by (rewrite length_app; cbn; lia).
Qed.

(** The loop keeps smaller elements in front of larger ones. *)
Lemma partition_loop_spec a lo hi rest v b (n i j e : nat) :
  n = length rest -> i = (length a + length lo)%nat -> j = (i + length hi)%nat -> e = (j + length rest)%nat ->
  Forall (λ y, cmp y v <= 0) lo -> Forall (λ y, 0 < cmp y v) hi ->
  exists lo' hi',
    partition_loop compare_at swap_at n i j e (a ++ lo ++ hi ++ rest ++ v :: b) =
      ((length a + length lo')%nat, a ++ lo' ++ hi' ++ v :: b) /\
    lo' ++ hi' ≡ₚ lo ++ hi ++ rest /\ Forall (λ y, cmp y v <= 0) lo' /\ Forall (λ y, 0 < cmp y v) hi'.
Proof.
  revert lo hi n i j e. induction rest as [| c rest IH]; intros lo hi n i j e -> Hi Hj Hx Hlo Hhi; cbn [length partition_loop app].
  { exists lo, hi. rewrite app_nil_r. by subst. }
  rewrite !(app_assoc a lo), (app_assoc (a ++ lo) hi).
  rewrite compare_at_app by (rewrite ?length_app; cbn in *; lia).
  destruct (Z.leb_spec (cmp c v) 0) as [Hc | Hc].
  - rewrite <- (app_assoc (a ++ lo) hi).
    destruct (IH (lo ++ [c]) (match hi with [] => [] | h :: hi => hi ++ [h] end) (length rest) (i + 1)%nat (j + 1)%nat e)
      as (lo' & hi' & E & HP & HF).
    + done.
    + rewrite length_app. cbn. lia.
    + destruct hi; rewrite ?length_app; cbn in *; lia.
    + cbn in Hx. lia.
    + apply Forall_app. split; [done | by constructor].
    + destruct hi as [| h hi]; [done |]. inversion_clear Hhi. apply Forall_app. split; [done | by constructor].
    + exists lo', hi'. split; [| split; [| done]].
      * rewrite <- E. f_equal. destruct hi as [| h hi]; cbn [app].
        { cbn in Hj. replace j with i by lia. rewrite swap_at_same. by rewrite <- !app_assoc. }
        { rewrite (swap_at_app (a ++ lo) h hi c) by (rewrite ?length_app; cbn in *; lia). by rewrite <- !app_assoc. }
      * rewrite HP. destruct hi as [| h hi]; cbn [app]; solve_Permutation.
  - destruct (IH lo (hi ++ [c]) (length rest) i (j + 1)%nat e) as (lo' & hi' & E & HP & HF); try done.
    + rewrite length_app. cbn. lia.
    + cbn in Hx. lia.
    + apply Forall_app. split; [done | by constructor].
    + exists lo', hi'. split; [| split; [| done]]; [rewrite <- E; f_equal; by rewrite <- !app_assoc |].
      rewrite HP. by rewrite <- app_assoc.
Qed.

Lemma partition_spec a m v b p r :
  p = length a -> r = (p + S (length m))%nat ->
  exists lo hi, partition compare_at swap_at p r (a ++ m ++ v :: b) = ((p + length lo)%nat, a ++ lo ++ v :: hi ++ b) /\
    lo ++ hi ≡ₚ m /\ Forall (λ y, cmp y v <= 0) lo /\ Forall (λ y, 0 < cmp y v) hi.
Proof.
  intros Hp Hr. unfold partition.
  destruct (partition_loop_spec a [] [] m v b (r - 1 - p) p p (r - 1)) as (lo & hi & E & HP & Hlo & Hhi); try done; cbn; try lia.
  cbn [app] in E. rewrite E. clear E.
  destruct hi as [| h hi].
  - exists lo, []. replace (r - 1)%nat with (length a + length lo)%nat by (apply Permutation_length in HP; rewrite app_nil_r in HP; cbn in HP; lia).
    rewrite swap_at_same. subst. done.
  - exists lo, (hi ++ [h]). split; [| split; [| split; [done |]]].
    + f_equal; [lia |]. rewrite (app_assoc a lo). cbn [app].
      assert (length (lo ++ h :: hi) = length m) as Hl by (by rewrite HP).
      rewrite length_app in Hl. cbn in Hl.
      rewrite swap_at_app by (rewrite length_app; lia). by rewrite <- !app_assoc.
    + rewrite <- HP. cbn. solve_Permutation.
    + inversion_clear Hhi. apply Forall_app. split; [done | by constructor].
Qed.

(** ** The quicksort *)

(** Elements that [cmp] orders totally. *)
Context (P : X -> Prop).

Record total_on : Prop := {
  cmp_total x y : P x -> P y -> 0 < cmp x y -> cmp y x <= 0;
  cmp_trans x y z : P x -> P y -> P z -> cmp x y <= 0 -> cmp y z <= 0 -> cmp x z <= 0;
}.

Abbreviation below := (λ x y, cmp x y <= 0).

Context (Ho : total_on).

Lemma cmp_refl x : P x -> cmp x x <= 0.
Proof. intros Hx. destruct (Z.leb_spec (cmp x x) 0); [done |]. by apply (cmp_total Ho). Qed.

Lemma sorted_app l m :
  StronglySorted below l -> StronglySorted below m -> Forall (λ x, Forall (below x) m) l ->
  StronglySorted below (l ++ m).
Proof.
  intros Hl Hm H. induction Hl as [| x l Hl IH Hx]; cbn [app]; [done |].
  inversion_clear H. constructor; [by apply IH | by apply Forall_app].
Qed.

(** The array between [a] and [b] is sorted at [fuel], from random number [k] on. *)
Definition sorts (fuel k : nat) a m b : Prop :=
  exists k' m', quicksort compare_at swap_at random fuel (length a) (length a + length m) k (a ++ m ++ b) = Some (k', a ++ m' ++ b)
    /\ m' ≡ₚ m /\ StronglySorted below m'.

Lemma quicksort_short fuel p r k l :
  (r - p < 2)%nat -> quicksort compare_at swap_at random (S fuel) p r k l = Some (k, l).
Proof. intros H. cbn [quicksort]. by destruct (Nat.ltb_spec (r - p) 2); [| lia]. Qed.

Lemma sorts_short fuel k a m b : (length m < 2)%nat -> sorts (S fuel) k a m b.
Proof.
  intros Hm. exists k, m. rewrite quicksort_short by lia. split; [done | split; [done |]].
  destruct m as [| x [| y m]]; cbn in Hm; [constructor | repeat constructor | lia].
Qed.

(** One call chooses a pivot and sorts around it. *)
Lemma quicksort_step fuel k a m b w :
  (2 <= length m)%nat -> m !! random_range random k (length m) = Some w ->
  exists lo hi, lo ++ w :: hi ≡ₚ m /\ Forall (λ y, cmp y w <= 0) lo /\ Forall (λ y, 0 < cmp y w) hi /\
    quicksort compare_at swap_at random (S fuel) (length a) (length a + length m) k (a ++ m ++ b) =
      '(k, s) ← quicksort compare_at swap_at random fuel (length a) (length a + length lo) (k + 1) (a ++ lo ++ w :: hi ++ b);
      quicksort compare_at swap_at random fuel (length a + length lo) (length a + length m) k s.
Proof.
  intros Hm Hw. set (p := length a). set (i := random_range random k (length m)) in *.
  assert (exists m', (if (p + length m - 1 =? i + p)%nat then a ++ m ++ b else swap_at (p + length m - 1) (i + p) (a ++ m ++ b))
            = a ++ m' ++ w :: b /\ m' ++ [w] ≡ₚ m) as (m' & Hsw & Hperm).
  { apply list_elem_of_split_length in Hw as (m1 & m2 & -> & Hi).
    destruct m2 as [| z m2 _] using rev_ind.
    - exists m1. rewrite length_app. cbn [length]. subst p i. rewrite Hi.
      replace (length a + (length m1 + 1) - 1 =? length m1 + length a)%nat with true by (symmetry; apply Nat.eqb_eq; lia).
      split; [by rewrite <- app_assoc | done].
    - exists (m1 ++ z :: m2). rewrite !length_app. cbn [length]. rewrite length_app. cbn [length]. subst p. rewrite Hi.
      replace (length a + (length m1 + S (length m2 + 1)) - 1 =? length m1 + length a)%nat with false
        by (symmetry; apply Nat.eqb_neq; lia).
      split; [| rewrite <- app_assoc; cbn [app]; solve_Permutation].
      assert (forall i j l, swap_at i j l = swap_at j i l) as Hcomm.
      { intros i1 i2 l. unfold swap_at. destruct (l !! i1) eqn:E1, (l !! i2) eqn:E2; try done.
        destruct (decide (i1 = i2)) as [-> | Hne]; [congruence |]. by rewrite list_insert_insert_ne. }
      rewrite Hcomm. rewrite <- !app_assoc. cbn [app]. rewrite <- !app_assoc. cbn [app].
      rewrite (app_assoc a m1). rewrite swap_at_app by (rewrite length_app; lia). by rewrite <- app_assoc. }
  destruct (partition_spec a m' w b p (p + length m)) as (lo & hi & E & HP & Hlo & Hhi).
  { done. }
  { apply Permutation_length in Hperm. rewrite length_app in Hperm. cbn in Hperm. lia. }
  exists lo, hi. split; [| split; [done | split; [done |]]].
  - rewrite <- Hperm, <- HP. solve_Permutation.
  - cbn [quicksort]. replace (p + length m - p)%nat with (length m) by lia. fold i.
    replace (length m <? 2)%nat with false by (symmetry; apply Nat.ltb_ge; lia). rewrite Hsw, E. done.
Qed.

Lemma sorts_around fuel k a m b w lo hi :
  Forall P m -> lo ++ w :: hi ≡ₚ m -> Forall (λ y, cmp y w <= 0) lo -> Forall (λ y, 0 < cmp y w) hi ->
  (forall k, sorts fuel k a lo (w :: hi ++ b)) ->
  (forall k lo', length lo' = length lo -> sorts fuel k (a ++ lo') (w :: hi) b) ->
  exists k' m',
    ('(k, s) ← quicksort compare_at swap_at random fuel (length a) (length a + length lo) k (a ++ lo ++ w :: hi ++ b);
     quicksort compare_at swap_at random fuel (length a + length lo) (length a + length m) k s) = Some (k', a ++ m' ++ b)
    /\ m' ≡ₚ m /\ StronglySorted below m'.
Proof.
  intros HPm Hperm Hlo Hhi IH1 IH2.
  destruct (IH1 k) as (k1 & lo' & -> & Hp1 & Hs1). cbn [mbind option_bind].
  destruct (IH2 k1 lo' (Permutation_length Hp1)) as (k2 & hi' & E & Hp2 & Hs2).
  rewrite length_app, (Permutation_length Hp1), <- !app_assoc in E. cbn [app] in E.
  replace (length a + length lo + length (w :: hi))%nat with (length a + length m)%nat in E
    by (rewrite <- Hperm, length_app; cbn; lia).
  rewrite E. exists k2, (lo' ++ hi'). rewrite <- !app_assoc. split; [done |].
  split; [by rewrite Hp1, Hp2 |]. rewrite <- Hperm in HPm. apply Forall_app in HPm as [HPlo HPhi].
  apply Forall_cons in HPhi as [HPw HPhi]. apply sorted_app; [done | done |].
  rewrite Hp1. apply Forall_forall. intros x Hx. rewrite Hp2.
  rewrite Forall_forall in HPlo, HPhi, Hlo, Hhi. constructor; [by apply Hlo |].
  apply Forall_forall. intros y Hy. apply (cmp_trans Ho x w y); auto.
  apply (cmp_total Ho); auto.
Qed.

(** Of any [B] random numbers in a row, one is not a multiple of a given number. *)
Definition fair (B : nat) : Prop :=
  (forall k, 0 <= random k) /\
  forall k (n : nat), (2 <= n)%nat -> Z.of_nat n < 2 ^ 32 ->
  exists t, (k <= t < k + B)%nat /\ random_range random t n <> 0%nat.

Context (B : nat) (Hfair : fair B).

(** The depth of the recursion that is enough for [n] elements. *)
Definition depth (n : nat) : nat := (n * (B + 1) + 1)%nat.

Lemma random_range_lt k n : (2 <= n)%nat -> Z.of_nat n < 2 ^ 32 -> (random_range random k n < n)%nat.
Proof.
  intros Hn Hm. unfold random_range. rewrite wrap_small by (unfold in_u; lia).
  pose proof (Z.mod_pos_bound (random k) (Z.of_nat n)). lia.
Qed.

Definition sorts_all (n : nat) : Prop :=
  forall fuel k a m b, length m = n -> Z.of_nat n < 2 ^ 32 -> Forall P m -> (depth n <= fuel)%nat -> sorts fuel k a m b.

(** With a pivot that is not below all others, both parts are shorter. *)
Lemma sorts_progress fuel k a m b w :
  Forall P m -> Z.of_nat (length m) < 2 ^ 32 -> (forall n, (n < length m)%nat -> sorts_all n) ->
  (2 <= length m)%nat -> m !! random_range random k (length m) = Some w ->
  (depth (length m - 1) <= fuel)%nat ->
  sorts (S fuel) k a m b \/
  exists hi, w :: hi ≡ₚ m /\ Forall (λ y, 0 < cmp y w) hi /\
    quicksort compare_at swap_at random (S fuel) (length a) (length a + length m) k (a ++ m ++ b) =
      quicksort compare_at swap_at random fuel (length a) (length a + length m) (k + 1) (a ++ (w :: hi) ++ b).
Proof.
  intros HP Hmax IH Hm Hw Hf. destruct (quicksort_step fuel k a m b w Hm Hw) as (lo & hi & Hperm & Hlo & Hhi & E).
  assert (length lo + S (length hi) = length m)%nat as Hlen by (rewrite <- Hperm, length_app; done).
  assert (Forall P lo /\ Forall P (w :: hi)) as [HPlo HPhi] by (rewrite <- Forall_app, Hperm; done).
  assert (forall n, (n < length m)%nat -> (depth n <= fuel)%nat) as Hd by (unfold depth in *; intros; nia).
  destruct lo as [| x lo]; [right | left].
  - exists hi. split; [done | split; [done |]]. rewrite E. cbn [app length].
    destruct fuel as [| fuel]; [unfold depth in Hf; lia |]. rewrite quicksort_short by lia.
    cbn [mbind option_bind]. by rewrite Nat.add_0_r.
  - unfold sorts. rewrite E. apply sorts_around; try done.
    + intros k'. apply (IH (length (x :: lo))); try done; [cbn in *; lia | cbn in *; lia | apply Hd; cbn in *; lia].
    + intros k' lo' _. apply (IH (length (w :: hi))); try done; [cbn in *; lia | cbn in *; lia | apply Hd; cbn in *; lia].
Qed.

(** Once the smallest element is in front, any number but multiples of the length makes progress. *)
Lemma sorts_front d fuel k a v hi b :
  let m := v :: hi in
  Forall P m -> Z.of_nat (length m) < 2 ^ 32 -> (forall n, (n < length m)%nat -> sorts_all n) ->
  (2 <= length m)%nat -> Forall (λ y, 0 < cmp y v) hi ->
  random_range random (k + d) (length m) <> 0%nat ->
  (depth (length m - 1) + d <= fuel)%nat -> sorts (S fuel) k a m b.
Proof.
  cbv zeta. revert fuel k v hi. induction d as [| d IHd]; intros fuel k v hi HP Hmax IH Hm Hhi Hr Hf.
  all: destruct (lookup_lt_is_Some_2 (v :: hi) (random_range random k (length (v :: hi)))) as [w Hw]; [by apply random_range_lt |].
  all: destruct (sorts_progress fuel k a (v :: hi) b w) as [? | (hi' & Hperm & Hhi' & E)]; try done; [unfold depth in *; lia |].
  - rewrite Nat.add_0_r in Hr. exfalso. destruct (random_range random k (length (v :: hi))) as [| i]; [done |].
    cbn in Hw. apply list_elem_of_lookup_2 in Hw. rewrite Forall_forall in Hhi. specialize (Hhi w Hw).
    assert (v ∈ w :: hi') as Hv by (rewrite Hperm; left). rewrite Forall_cons in HP. destruct HP as [HPv HP].
    rewrite Forall_forall in HP. specialize (HP w Hw).
    apply elem_of_cons in Hv as [-> | Hv].
    + pose proof (cmp_total Ho w w HP HP Hhi). lia.
    + rewrite Forall_forall in Hhi'. specialize (Hhi' v Hv). pose proof (cmp_total Ho w v HP HPv Hhi). lia.
  - assert (length hi' = length hi) as Hl by (apply Permutation_length in Hperm; cbn in Hperm; lia).
    destruct fuel as [| fuel]; [lia |].
    destruct (IHd fuel (k + 1)%nat w hi') as (k' & m' & E' & Hp' & Hs'); cbn [length] in *; rewrite ?Hl in *; try done.
    + by rewrite Hperm.
    + by replace (k + 1 + d)%nat with (k + S d)%nat by lia.
    + lia.
    + exists k', m'. cbn [length]. split; [by rewrite E | split; [by rewrite Hp' | done]].
Qed.

Lemma sorts_enough n : sorts_all n.
Proof.
  induction (lt_wf n) as [n _ IH]. intros fuel k a m b <- Hmax HP Hf.
  destruct fuel as [| fuel]; [unfold depth in Hf; lia |].
  destruct (Nat.ltb_spec (length m) 2) as [Hm | Hm]; [by apply sorts_short |].
  destruct (lookup_lt_is_Some_2 m (random_range random k (length m))) as [w Hw]; [by apply random_range_lt |].
  assert (depth (length m - 1) + B <= fuel)%nat as Hd by (unfold depth in *; nia).
  destruct (sorts_progress fuel k a m b w) as [? | (hi & Hperm & Hhi & E)]; try done; [lia |].
  destruct Hfair as [_ Hfair']. destruct (Hfair' (k + 1)%nat (length m)) as (t & Ht & Hr); [done | done |].
  destruct fuel as [| fuel]; [lia |]. pose proof (Permutation_length Hperm) as Hl.
  destruct (sorts_front (t - (k + 1)) fuel (k + 1) a w hi b) as (k' & m' & E' & Hp' & Hs').
  1,5: by rewrite ?Hperm. all: rewrite ?Hl; try done.
  - by replace (k + 1 + (t - (k + 1)))%nat with t by lia.
  - lia.
  - exists k', m'. split; [by rewrite <- E', E, Hl | split; [by rewrite Hp' | done]].
Qed.

End lists.

(** ** Callbacks *)

Section callbacks.
Context {S X : Type} (compare : nat -> nat -> S -> Z) (swap : nat -> nat -> S -> S).
Context (cmp : X -> X -> Z) (view : S -> list X) (random : nat -> Z).

(** The callbacks act on an array whose elements [view] lists. *)
Record callbacks_ok : Prop := {
  compare_view i j s :
    (i < length (view s))%nat -> (j < length (view s))%nat -> compare i j s = compare_at cmp i j (view s);
  swap_view i j s :
    (i < length (view s))%nat -> (j < length (view s))%nat -> view (swap i j s) = swap_at i j (view s);
}.

Context (Hok : callbacks_ok).

Lemma length_swap_at i j (l : list X) : length (swap_at i j l) = length l.
Proof. unfold swap_at. destruct (l !! i), (l !! j); by rewrite ?length_insert. Qed.

Lemma partition_loop_view n i j x s i' s' :
  (i <= j)%nat -> (j + n <= x)%nat -> (x < length (view s))%nat -> partition_loop compare swap n i j x s = (i', s') ->
  partition_loop (compare_at cmp) swap_at n i j x (view s) = (i', view s') /\
  (i <= i' <= i + n)%nat /\ length (view s') = length (view s).
Proof.
  revert i j s. induction n as [| n IH]; intros i j s Hi Hj Hx E; cbn [partition_loop] in *.
  { injection E as <- <-. split; [done | split; [lia | done]]. }
  rewrite (compare_view Hok) in E by lia. destruct (Z.leb _ 0).
  - assert (view (swap i j s) = swap_at i j (view s)) as Hv by (apply (swap_view Hok); lia).
    assert (length (view (swap i j s)) = length (view s)) as Hl by (by rewrite Hv, length_swap_at).
    rewrite <- Hv. apply IH in E as (E & Hb & Hl'); try lia. split; [done | split; [lia | congruence]].
  - apply IH in E as (E & Hb & Hl'); try lia. split; [done | split; [lia | done]].
Qed.

Lemma partition_view p r s i s' :
  (p < r)%nat -> (r <= length (view s))%nat -> partition compare swap p r s = (i, s') ->
  partition (compare_at cmp) swap_at p r (view s) = (i, view s') /\
  (p <= i < r)%nat /\ length (view s') = length (view s).
Proof.
  intros Hp Hr E. unfold partition in *. destruct (partition_loop compare swap _ _ _ _ s) as [i1 s1] eqn:E1.
  injection E as <- <-. apply partition_loop_view in E1 as (-> & Hb & Hl); try lia.
  rewrite (swap_view Hok) by lia. rewrite length_swap_at. split; [done | split; [lia | done]].
Qed.

Lemma quicksort_view fuel p r k s :
  (p <= r <= length (view s))%nat -> Z.of_nat (length (view s)) < 2 ^ 32 ->
  match quicksort compare swap random fuel p r k s with
  | Some (k', s') =>
      quicksort (compare_at cmp) swap_at random fuel p r k (view s) = Some (k', view s') /\ length (view s') = length (view s)
  | None => quicksort (compare_at cmp) swap_at random fuel p r k (view s) = None
  end.
Proof.
  revert p r k s. induction fuel as [| fuel IH]; intros p r k s Hpr Hmax; cbn [quicksort]; [done |].
  destruct (Nat.ltb_spec (r - p) 2) as [Hn | Hn]; [done |].
  set (i := (random_range random k (r - p) + p)%nat).
  assert (p <= i < r)%nat as Hi.
  { subst i. unfold random_range. rewrite wrap_small by (unfold in_u; lia). 
    pose proof (Z.mod_pos_bound (random k) (Z.of_nat (r - p))). lia. }
  set (s1 := if (r - 1 =? i)%nat then s else swap (r - 1) i s).
  assert (view s1 = if (r - 1 =? i)%nat then view s else swap_at (r - 1) i (view s)) as Hv
    by (subst s1; destruct (_ =? _)%nat; [done | apply (swap_view Hok); lia]).
  assert (length (view s1) = length (view s)) as Hl by (rewrite Hv; destruct (_ =? _)%nat; by rewrite ?length_swap_at).
  rewrite <- Hv. destruct (partition compare swap p r s1) as [q s2] eqn:E.
  apply partition_view in E as (-> & Hq & Hl2); try lia.
  specialize (IH p q (k + 1)%nat s2 ltac:(lia) ltac:(lia)) as IH1.
  destruct (quicksort compare swap random fuel p q _ _) as [[k3 s3] |]; [| by rewrite IH1].
  destruct IH1 as [-> Hl3]. cbn [mbind option_bind].
  specialize (IH q r k3 s3 ltac:(lia) ltac:(lia)). destruct (quicksort compare swap random fuel q r k3 s3) as [[k4 s4] |]; [| done].
  destruct IH as [-> Hl4]. split; [done | congruence].
Qed.

End callbacks.


(** ** The interface *)

Class Sorting := sorted_by : forall {X : Type}, (X -> X -> Z) -> list X -> list X.

Class SortingOk (So : Sorting) : Prop := {
  sorted_by_spec {X} (cmp : X -> X -> Z) (P : X -> Prop) l :
    total_on cmp P -> Forall P l -> Z.of_nat (length l) < 2 ^ 32 ->
    sorted_by cmp l ≡ₚ l /\ StronglySorted (λ x y, cmp x y <= 0) (sorted_by cmp l);
}.

(** The quicksort with enough fuel. *)
Definition quicksort_sorting (random : nat -> Z) (B : nat) : Sorting := λ X cmp l,
  from_option snd l (sort (compare_at cmp) swap_at random (depth B (length l)) (length l) 0 l).

#[export] Instance quicksort_sorting_ok random B (Hfair : fair random B) : SortingOk (quicksort_sorting random B).
Proof.
  constructor. intros X cmp P l Ho HP Hmax. unfold sorted_by, quicksort_sorting.
  destruct (sorts_enough cmp random P Ho B Hfair _ (depth B (length l)) 0%nat [] l [] eq_refl Hmax HP (le_n _)) as (k' & m & E & Hperm & Hs).
  cbn [app length] in E. rewrite !app_nil_r in E. cbn [Nat.add] in E. unfold sort. by rewrite E.
Qed.

(** ** Witnesses *)

Lemma fair_one : fair (λ _, 1) 1.
Proof.
  split; [done |]. intros k n Hn Hm. exists k. split; [lia |].
  unfold random_range. rewrite wrap_small by (unfold in_u; lia). rewrite Z.mod_small by lia. done.
Qed.


(** The second recursive call includes the pivot, so that a generator which keeps choosing the
    smallest element keeps the sort from returning. *)
Lemma sort_unlucky fuel k : sort (compare_at Z.sub) swap_at (λ _, 0) fuel 2 k [1; 2] = None.
Proof.
  unfold sort. revert k. induction fuel as [| fuel IH]; intros k; [done |]. cbn [quicksort Nat.sub Nat.ltb Nat.leb].
  change (random_range _ _ _) with 0%nat. cbn. destruct fuel; [done |]. cbn [quicksort]. cbn. apply IH.
Qed.
End Sort.
