(* ===== verification/Uuid.v ===== *)
(** Universally unique identifiers (lib/uuid.c, lib/uuid.h): their text, their order, and the
    bits that mark them as random. *)
From stdpp Require Import gmap.
From S2P Require Import Prelude Text Containers Shash Json JsonLex.

Module Uuid.
Import Json JsonLex.

Record uuid := mk_uuid { parts0 : Z; parts1 : Z; parts2 : Z; parts3 : Z }.

#[export] Instance uuid_eta : RecordEta uuid := λ r, mk_uuid (parts0 r) (parts1 r) (parts2 r) (parts3 r).

#[export] Instance uuid_eq_dec : EqDecision uuid.
Proof. solve_decision. Defined.

Implicit Types (u : uuid) (s : chars).

Definition UUID_LEN : nat := 36.

Definition uuid_zero : uuid := mk_uuid 0 0 0 0.
Definition uuid_is_zero u : bool := (parts0 u =? 0) && (parts1 u =? 0) && (parts2 u =? 0) && (parts3 u =? 0).
Definition uuid_hash u : Z := parts0 u.
Definition uuid_equals (a b : uuid) : bool :=
  (parts0 a =? parts0 b) && (parts1 a =? parts1 b) && (parts2 a =? parts2 b) && (parts3 a =? parts3 b).
Definition uuid_prefix u (digits : Z) : Z := Z.shiftr (parts0 u) (32 - 4 * digits).

Definition uuid_set_bits_v4 u : uuid :=
  let u := u <| parts2 ::= λ x, Z.land x (Z.lxor 0xffffffff 0xc0000000) |> in
  let u := u <| parts2 ::= λ x, Z.lor x 0x80000000 |> in
  let u := u <| parts1 ::= λ x, Z.land x (Z.lxor 0xffffffff 0x0000f000) |> in
  u <| parts1 ::= λ x, Z.lor x 0x00004000 |>.

Definition uuid_compare_3way (a b : uuid) : Z :=
  if negb (parts0 a =? parts0 b) then if parts0 a >? parts0 b then 1 else -1
  else if negb (parts1 a =? parts1 b) then if parts1 a >? parts1 b then 1 else -1
  else if negb (parts2 a =? parts2 b) then if parts2 a >? parts2 b then 1 else -1
  else if negb (parts3 a =? parts3 b) then if parts3 a >? parts3 b then 1 else -1
  else 0.

(** printf("%0*x", n, x) of a number with at most [n] hexadecimal digits. *)
Fixpoint print_hex (n : nat) (x : Z) : chars :=
  match n with
  | O => []
  | S n => digit_char ((x / 16 ^ Z.of_nat n) mod 16) :: print_hex n x
  end.

(** printf(UUID_FMT, UUID_ARGS(u)) *)
Definition uuid_to_string u : chars :=
  print_hex 8 (parts0 u) ++ ["-"%char] ++
  print_hex 4 (Z.shiftr (parts1 u) 16) ++ ["-"%char] ++ print_hex 4 (Z.land (parts1 u) 0xffff) ++ ["-"%char] ++
  print_hex 4 (Z.shiftr (parts2 u) 16) ++ ["-"%char] ++ print_hex 4 (Z.land (parts2 u) 0xffff) ++
  print_hex 8 (parts3 u).

(** [s[i]], null at the end of the string. *)
Definition char_at s (i : nat) : ascii := nth i s NUL.

(** [hexits_value(s + o, n, &ok)] *)
Definition hexits_at s (o n : nat) : option Z := hexits_value (List.map (char_at s) (seq o n)).

Definition uuid_from_string_prefix s : option uuid :=
  p0 ← hexits_at s 0 8;
  if negb (char_at s 8 =c "-") then None else
  p1 ← hexits_at s 9 4;
  if negb (char_at s 13 =c "-") then None else
  q1 ← hexits_at s 14 4;
  if negb (char_at s 18 =c "-") then None else
  p2 ← hexits_at s 19 4;
  if negb (char_at s 23 =c "-") then None else
  q2 ← hexits_at s 24 4;
  p3 ← hexits_at s 28 8;
  Some (mk_uuid (u32 p0) (u32 (u32 (Z.shiftl p1 16) + q1)) (u32 (u32 (Z.shiftl p2 16) + q2)) (u32 p3)).

Definition uuid_from_string s : option uuid :=
  u ← uuid_from_string_prefix s;
  if negb (char_at s UUID_LEN =c NUL) then None else Some u.

Definition tmpl : chars := str "xxxxxxxx-xxxx-xxxx-xxxx-xxxxxxxxxxxx".

(** From position [i] on. *)
Fixpoint partial_loop (tmpl s : chars) (i : nat) : nat :=
  match tmpl with
  | [] => if hd_char s =c NUL then i else 0%nat
  | t :: tmpl =>
      if hd_char s =c NUL then i
      else if (if t =c "x" then hexit_value (hd_char s) <? 0 else negb (hd_char s =c "-")) then 0%nat
      else partial_loop tmpl (tail s) (S i)
  end.

Definition uuid_is_partial_string s : nat := partial_loop tmpl s 0.

Definition uuid_is_partial_match u (match_ : chars) : nat :=
  if bool_decide (take (length match_) (uuid_to_string u) = match_) then length match_ else 0%nat.

(** ** Hexadecimal numbers *)

Definition uuid_ok u : Prop :=
  in_u 32 (parts0 u) /\ in_u 32 (parts1 u) /\ in_u 32 (parts2 u) /\ in_u 32 (parts3 u).

Definition tolower (c : ascii) : ascii := let x := code c in if (65 <=? x) && (x <=? 90) then chr (x + 32) else c.

Lemma hexit_tolower c : 0 <= hexit_value c -> 0 <= hexit_value c < 16 /\ digit_char (hexit_value c) = tolower c.
Proof.
  intros H. pose proof (all_chars_spec (λ c, (hexit_value c <? 0) || ((hexit_value c <? 16) && (digit_char (hexit_value c) =c tolower c)))
    ltac:(by vm_compute) c) as Hc. apply orb_true_iff in Hc as [Hc | Hc]; [lia |].
  apply andb_true_iff in Hc as [Hc ?%Ascii.eqb_eq]. split; [lia | done].
Qed.

Lemma length_print_hex n x : length (print_hex n x) = n.
Proof. induction n; cbn; congruence. Qed.

Lemma pow16_pos n : 0 < 16 ^ Z.of_nat n.
Proof. apply Z.pow_pos_nonneg; lia. Qed.

Lemma print_hex_ext n x y : x mod 16 ^ Z.of_nat n = y mod 16 ^ Z.of_nat n -> print_hex n x = print_hex n y.
Proof.
  induction n as [| n IH]; intros H; [done |]. cbn [print_hex].
  pose proof (pow16_pos n). rewrite Nat2Z.inj_succ, Z.pow_succ_r, (Z.mul_comm 16) in H by lia.
  rewrite !(Z.rem_mul_r _ (16 ^ Z.of_nat n) 16), !(Z.add_comm (_ mod _)) in H by lia.
  assert (forall x, 0 <= x mod 16 ^ Z.of_nat n < 16 ^ Z.of_nat n) as Hb by (intros; apply Z.mod_pos_bound; lia).
  apply Z.div_mod_unique in H as [H1 H2]; [by rewrite H1, IH | by left..].
Qed.

Lemma print_hex_inj n x y : 0 <= x < 16 ^ Z.of_nat n -> 0 <= y < 16 ^ Z.of_nat n -> print_hex n x = print_hex n y -> x = y.
Proof.
  revert x y. induction n as [| n IH]; intros x y Hx Hy H; [cbn in *; lia |]. cbn [print_hex] in H. injection H as Hd H.
  rewrite Nat2Z.inj_succ, Z.pow_succ_r in Hx, Hy by lia. pose proof (pow16_pos n).
  assert (forall z, 0 <= z < 16 * 16 ^ Z.of_nat n -> (z / 16 ^ Z.of_nat n) mod 16 = z / 16 ^ Z.of_nat n) as Hm.
  { intros z Hz. apply Z.mod_small. split; [apply Z.div_pos; lia | apply Z.div_lt_upper_bound; lia]. }
  apply (f_equal hexit_value) in Hd. rewrite !digit_char_spec in Hd by (apply Z.mod_pos_bound; lia). rewrite !Hm in Hd by done.
  rewrite (Z.div_mod x (16 ^ Z.of_nat n)), (Z.div_mod y (16 ^ Z.of_nat n)), Hd by lia. f_equal.
  apply IH; [apply Z.mod_pos_bound; lia.. |].
  rewrite (print_hex_ext n (x mod _) x), (print_hex_ext n (y mod _) y) by (apply Z.mod_mod; lia). done.
Qed.

Lemma hexits_fold l acc v :
  0 <= acc -> (acc + 1) * 16 ^ Z.of_nat (length l) <= 2 ^ 64 ->
  foldl (λ value c, value ← value; let hexit := hexit_value c in
           if hexit <? 0 then None else Some (u64 (u64 (Z.shiftl value 4) + hexit))) (Some acc) l = Some v ->
  acc * 16 ^ Z.of_nat (length l) <= v < (acc + 1) * 16 ^ Z.of_nat (length l) /\ print_hex (length l) v = List.map tolower l.
Proof.
  revert acc. induction l as [| c l IH]; intros acc Ha Hm; cbn [foldl length print_hex List.map]; [intros [= ->]; split; [cbn; lia | done] |].
  cbn [mbind option_bind]. cbn [length] in Hm. rewrite Nat2Z.inj_succ, Z.pow_succ_r in * by lia.
  set (w := 16 ^ Z.of_nat (length l)) in *. assert (0 < w) by apply pow16_pos.
  destruct (Z.ltb_spec (hexit_value c) 0) as [Hc | Hc].
  { clear. cbn. intros H. exfalso. induction l as [| d l IH]; cbn in H; [done | by apply IH]. }
  apply hexit_tolower in Hc as [Hh Hl]. rewrite Z.shiftl_mul_pow2 by lia. change (2 ^ 4) with 16.
  assert ((acc + 1) * 16 <= 2 ^ 64) by nia. rewrite (wrap_small 64 (acc * 16)), wrap_small by (unfold in_u; lia).
  intros E. apply IH in E as [Hb E]; [| lia | fold w; nia]. fold w in Hb. split; [nia |]. rewrite E. f_equal.
  replace (v / w) with (acc * 16 + hexit_value c) by (apply (Z.div_unique _ _ _ (v - w * (acc * 16 + hexit_value c))); lia).
  rewrite Z.add_comm, Z_mod_plus_full, Z.mod_small by lia. done.
Qed.

Lemma hexits_value_inv l v :
  (length l <= 8)%nat -> hexits_value l = Some v -> 0 <= v < 16 ^ Z.of_nat (length l) /\ print_hex (length l) v = List.map tolower l.
Proof.
  intros Hl E. apply hexits_fold in E as [Hb E]; [| done |]; [split; [lia | done] |].
  rewrite Z.mul_1_l. transitivity (16 ^ 8); [apply Z.pow_le_mono_r; lia | done].
Qed.

Lemma tolower_hexit c d : 0 <= d < 16 -> tolower c = digit_char d -> hexit_value c = d.
Proof.
  intros Hd H. pose proof (all_chars_spec (λ c, (hexit_value c =? hexit_value (tolower c)))
    ltac:(by vm_compute) c) as Hc. apply Z.eqb_eq in Hc. by rewrite Hc, H, digit_char_spec.
Qed.

Lemma hexits_value_print l n x :
  (n <= 8)%nat -> 0 <= x < 16 ^ Z.of_nat n -> List.map tolower l = print_hex n x -> hexits_value l = Some x.
Proof.
  intros Hn Hx H. assert (length l = n) as Hl by (rewrite <- (length_map tolower l), H; apply length_print_hex).
  assert (Forall (λ c, 0 <= hexit_value c) l) as Hf.
  { clear Hn Hx Hl. revert n H. induction l as [| c l IH]; intros [| n] [=]; constructor; [| by apply (IH n)].
    pose proof (Z.mod_pos_bound (x / 16 ^ Z.of_nat n) 16). erewrite tolower_hexit; [| | done]; lia. }
  assert (exists v, hexits_value l = Some v) as [v Hv].
  { unfold hexits_value. assert (exists a : Z, Some 0 = Some a) as Ha by eauto. revert Ha. generalize (Some 0) as o. clear -Hf. induction Hf as [| c l Hc _ IH]; intros o [a ->]; cbn; [eauto |].
    destruct (Z.ltb_spec (hexit_value c) 0); [lia |]. apply IH. eauto. }
  destruct (hexits_value_inv l v) as [Hb E]; [lia | done |]. rewrite Hv. f_equal. subst n. rewrite <- E in H.
  by apply print_hex_inj in H.
Qed.

(** ** Text *)

Lemma tolower_dash c : tolower c = "-"%char <-> c = "-"%char.
Proof.
  split; [| by intros ->]. intros H.
  pose proof (all_chars_spec (λ c, negb (tolower c =c "-") || (c =c "-")) ltac:(by vm_compute) c) as Hc.
  cbv beta in Hc. rewrite H in Hc. by apply Ascii.eqb_eq in Hc.
Qed.

Lemma halves x : in_u 32 x -> 0 <= Z.shiftr x 16 < 16 ^ 4 /\ 0 <= Z.land x 0xffff < 16 ^ 4 /\
  u32 (u32 (Z.shiftl (Z.shiftr x 16) 16) + Z.land x 0xffff) = x.
Proof.
  unfold in_u. intros H. change 0xffff with (2 ^ 16 - 1). rewrite land_mod by lia.
  rewrite Z.shiftr_div_pow2, Z.shiftl_mul_pow2 by lia. change (2 ^ 16) with 65536. change (2 ^ 32) with 4294967296 in H.
  change (16 ^ 4) with 65536. split; [Z.to_euclidean_division_equations; lia |].
  split; [Z.to_euclidean_division_equations; lia |].
  unfold wrap. change (2 ^ 32) with 4294967296. Z.to_euclidean_division_equations. lia.
Qed.

Lemma join p q : 0 <= p < 16 ^ 4 -> 0 <= q < 16 ^ 4 ->
  let x := u32 (u32 (Z.shiftl p 16) + q) in in_u 32 x /\ Z.shiftr x 16 = p /\ Z.land x 0xffff = q.
Proof.
  intros Hp Hq x. split; [by apply wrap_range |]. subst x. change 0xffff with (2 ^ 16 - 1). rewrite land_mod by lia.
  rewrite Z.shiftr_div_pow2, Z.shiftl_mul_pow2 by lia. change (2 ^ 16) with 65536. change (16 ^ 4) with 65536 in *.
  unfold wrap. change (2 ^ 32) with 4294967296. split; Z.to_euclidean_division_equations; lia.
Qed.

Lemma hexits_at_length s o n v : hexits_at s o (S n) = Some v -> (o + n < length s)%nat.
Proof.
  unfold hexits_at. intros H. destruct (Nat.ltb_spec (o + n) (length s)) as [| Hl]; [done |].
  exfalso. rewrite seq_S, map_app in H. unfold hexits_value in H. rewrite foldl_app in H.
  cbn [List.map foldl] in H. replace (char_at s (o + n)) with NUL in H by (unfold char_at; by rewrite nth_overflow).
  apply bind_Some in H as (v' & _ & H). done.
Qed.

Lemma length_uuid_to_string u : length (uuid_to_string u) = UUID_LEN.
Proof. unfold uuid_to_string. rewrite !length_app, !length_print_hex. done. Qed.

Lemma uuid_prefix_inv s u :
  uuid_from_string_prefix s = Some u <->
  exists p0 p1 q1 p2 q2 p3,
    (hexits_at s 0 8 = Some p0 /\ hexits_at s 9 4 = Some p1 /\ hexits_at s 14 4 = Some q1 /\
     hexits_at s 19 4 = Some p2 /\ hexits_at s 24 4 = Some q2 /\ hexits_at s 28 8 = Some p3) /\
    (char_at s 8 = "-" /\ char_at s 13 = "-" /\ char_at s 18 = "-" /\ char_at s 23 = "-")%char /\
    u = mk_uuid (u32 p0) (u32 (u32 (Z.shiftl p1 16) + q1)) (u32 (u32 (Z.shiftl p2 16) + q2)) (u32 p3).
Proof.
  unfold uuid_from_string_prefix. split.
  - intros H.
    repeat lazymatch type of H with
           | (if negb (?a =c ?b) then _ else _) = _ => destruct (Ascii.eqb_spec a b); cbn [negb] in H; [| done]
           | mbind _ _ = _ => apply bind_Some in H as (? & ? & H)
           end.
    injection H as <-. do 6 eexists. split; [done |]. done.
  - intros (p0 & p1 & q1 & p2 & q2 & p3 & (-> & -> & -> & -> & -> & ->) & (-> & -> & -> & ->) & ->). done.
Qed.

Lemma hexits_iff n l x :
  length l = n -> (n <= 8)%nat -> hexits_value l = Some x <-> 0 <= x < 16 ^ Z.of_nat n /\ List.map tolower l = print_hex n x.
Proof.
  intros <- Hl. split.
  - intros H. apply hexits_value_inv in H as [? ?]; done.
  - intros [? ?]. by apply (hexits_value_print l (length l)).
Qed.

(** Splits off the equation of the first [n] characters of [H], or of the first one. *)
Ltac split_piece H n :=
  let E := fresh "E" in
  pose proof (f_equal (take n) H) as E; rewrite take_app_exact in E by apply length_print_hex;
  apply (f_equal (drop n)) in H; rewrite drop_app_exact in H by apply length_print_hex;
  cbn [take drop app] in E, H.

Ltac split_dash H :=
  let E := fresh "E" in
  pose proof (f_equal hd_char H) as E; apply (f_equal tail) in H; cbn [hd_char tail] in E, H; apply (proj1 (tolower_dash _)) in E.

(** The parser reads exactly the strings that differ from the text of a UUID in the case of letters. *)
Lemma uuid_from_string_exact s u :
  no_nul s -> uuid_from_string s = Some u <-> uuid_ok u /\ List.map tolower s = uuid_to_string u.
Proof.
  intros Hs. assert (uuid_from_string s = Some u -> length s = 36%nat) as Hlen.
  { unfold uuid_from_string. intros (u' & Hp & H)%bind_Some.
    apply uuid_prefix_inv in Hp as (p0 & p1 & q1 & p2 & q2 & p3 & (_ & _ & _ & _ & _ & E) & _).
    apply hexits_at_length in E.
    destruct (Ascii.eqb_spec (char_at s UUID_LEN) NUL) as [En |]; [| done]. cbn in E.
    destruct (Nat.ltb_spec UUID_LEN (length s)) as [Hl |]; [| unfold UUID_LEN in *; lia].
    destruct (lookup_lt_is_Some_2 s UUID_LEN Hl) as [c Hc]. unfold char_at in En. erewrite nth_lookup_Some in En by done.
    apply list_elem_of_lookup_2 in Hc. unfold no_nul in Hs. rewrite Forall_forall in Hs. by apply Hs in Hc. }
  assert (uuid_ok u /\ List.map tolower s = uuid_to_string u -> length s = 36%nat) as Hlen'.
  { intros [_ H]. by rewrite <- (length_map tolower s), H, length_uuid_to_string. }
  assert (length s = 36%nat -> uuid_from_string s = Some u <-> uuid_ok u /\ List.map tolower s = uuid_to_string u) as H;
    [| split; intros; apply H; auto].
  clear Hlen Hlen' Hs. intros Hl. do 36 (destruct s as [| ? s]; [discriminate Hl |]). destruct s; [| discriminate Hl]. clear Hl.
  unfold uuid_from_string. change (char_at _ UUID_LEN =c NUL) with true. cbn [negb].
  rewrite bind_Some. setoid_rewrite uuid_prefix_inv. unfold hexits_at. cbn [seq List.map].
  repeat match goal with |- context [char_at ?s ?i] => let c := eval cbn in (nth i s NUL) in change (char_at s i) with c end.
  split.
  - intros (u' & (p0 & p1 & q1 & p2 & q2 & p3 & (E0 & E1 & E2 & E3 & E4 & E5) & (-> & -> & -> & ->) & ->) & [= <-]).
    apply (hexits_iff 8) in E0 as [B0 E0], E5 as [B5 E5]; [| (done || lia)..].
    apply (hexits_iff 4) in E1 as [B1 E1], E2 as [B2 E2], E3 as [B3 E3], E4 as [B4 E4]; [| (done || lia)..].
    destruct (join p1 q1 B1 B2) as (O1 & H1 & H1'), (join p2 q2 B3 B4) as (O2 & H2 & H2').
    change (16 ^ Z.of_nat 8) with (2 ^ 32) in *. rewrite !(wrap_small 32 p0), !(wrap_small 32 p3) by done.
    split; [done |]. unfold uuid_to_string. cbn [parts0 parts1 parts2 parts3]. rewrite H1, H1', H2, H2', <- E0, <- E1, <- E2, <- E3, <- E4, <- E5.
    done.
  - intros [(O0 & O1 & O2 & O3) H]. unfold uuid_to_string in H. cbn [List.map] in H.
    destruct (halves _ O1) as (B1 & B1' & J1), (halves _ O2) as (B2 & B2' & J2).
    split_piece H 8%nat. split_dash H. split_piece H 4%nat. split_dash H. split_piece H 4%nat. split_dash H.
    split_piece H 4%nat. split_dash H. split_piece H 4%nat.
    exists u. split; [| done].
    exists (parts0 u), (Z.shiftr (parts1 u) 16), (Z.land (parts1 u) 0xffff), (Z.shiftr (parts2 u) 16), (Z.land (parts2 u) 0xffff), (parts3 u).
    split; [rewrite (hexits_iff 8), !(hexits_iff 4), (hexits_iff 8) by (done || lia) |].
    { unfold in_u in *. change (16 ^ Z.of_nat 8) with (2 ^ 32). change (16 ^ Z.of_nat 4) with (16 ^ 4). cbn [List.map]. tauto. }
    split; [done |]. rewrite J1, J2, !wrap_small by done. by destruct u.
Qed.

(** ** Order *)

Lemma digit_char_order d e : 0 <= d < 16 -> 0 <= e < 16 ->
  Z.sgn (code (digit_char d) - code (digit_char e)) = Z.sgn (d - e) /\ digit_char d <> NUL.
Proof.
  intros Hd He. assert (forallb (λ p, (Z.sgn (code (digit_char p.1) - code (digit_char p.2)) =? Z.sgn (p.1 - p.2)) && negb (digit_char p.1 =c NUL))
    (list_prod (List.map Z.of_nat (seq 0 16)) (List.map Z.of_nat (seq 0 16))) = true) as H by by vm_compute.
  rewrite forallb_forall in H. specialize (H (d, e)). cbn [fst snd] in H.
  rewrite andb_true_iff, negb_true_iff, Ascii.eqb_neq, Z.eqb_eq in H. apply H.
  apply in_prod; apply in_map_iff; [exists (Z.to_nat d) | exists (Z.to_nat e)]; (split; [lia | apply in_seq; lia]).
Qed.

Lemma strcmp_hex n x y a b :
  0 <= x < 16 ^ Z.of_nat n -> 0 <= y < 16 ^ Z.of_nat n ->
  Z.sgn (strcmp (print_hex n x ++ a) (print_hex n y ++ b)) = if x =? y then Z.sgn (strcmp a b) else Z.sgn (x - y).
Proof.
  revert x y. induction n as [| n IH]; intros x y Hx Hy.
  { cbn in Hx, Hy. by replace y with x by lia; rewrite Z.eqb_refl. }
  pose proof (pow16_pos n) as Hw. cbn [print_hex app strcmp].
  rewrite Nat2Z.inj_succ, Z.pow_succ_r in Hx, Hy by lia. set (w := 16 ^ Z.of_nat n) in *.
  assert (forall z, 0 <= z < 16 * w -> 0 <= z / w < 16 /\ (z / w) mod 16 = z / w) as Hd.
  { intros z Hz. assert (0 <= z / w < 16) by (split; [apply Z.div_pos; lia | apply Z.div_lt_upper_bound; lia]).
    split; [done | by apply Z.mod_small]. }
  destruct (Hd x Hx) as [Bx ->], (Hd y Hy) as [By ->].
  destruct (digit_char_order (x / w) (y / w) Bx By) as [Ho Hn].
  assert (forall z, z = w * (z / w) + z mod w /\ 0 <= z mod w < w) as Hm
    by (intros z; split; [apply Z.div_mod; lia | apply Z.mod_pos_bound; lia]).
  destruct (Hm x) as [Ex Rx], (Hm y) as [Ey Ry].
  destruct (Z.eqb_spec (code (digit_char (x / w))) (code (digit_char (y / w)))) as [E | E].
  - apply Ascii.eqb_neq in Hn. rewrite Hn. cbn [andb negb].
    assert (x / w = y / w) as Eq by (rewrite E, Z.sub_diag in Ho; cbn in Ho; lia).
    rewrite (print_hex_ext n x (x mod w)), (print_hex_ext n y (y mod w)) by (symmetry; apply Z.mod_mod; lia).
    rewrite IH by done. destruct (Z.eqb_spec (x mod w) (y mod w)), (Z.eqb_spec x y); nia || (f_equal; nia).
  - cbn [andb]. rewrite Ho. destruct (Z.eqb_spec x y) as [-> |]; [done |].
    assert (x / w <> y / w) by congruence. destruct (Z.lt_ge_cases (x / w) (y / w)).
    + rewrite !Z.sgn_neg by nia. done.
    + rewrite !Z.sgn_pos by nia. done.
Qed.

Lemma strcmp_cons c a b : c <> NUL -> strcmp (c :: a) (c :: b) = strcmp a b.
Proof. intros H. cbn. apply Ascii.eqb_neq in H. by rewrite Z.eqb_refl, H. Qed.

Lemma sgn_sub x y : x <> y -> Z.sgn (x - y) = if x >? y then 1 else -1.
Proof. intros H. destruct (Z.gtb_spec x y); [apply Z.sgn_pos | apply Z.sgn_neg]; lia. Qed.

(** Two halves compare as the whole. *)
Lemma halves_order x y r :
  in_u 32 x -> in_u 32 y ->
  (if Z.shiftr x 16 =? Z.shiftr y 16 then if Z.land x 0xffff =? Z.land y 0xffff then r else Z.sgn (Z.land x 0xffff - Z.land y 0xffff)
   else Z.sgn (Z.shiftr x 16 - Z.shiftr y 16)) =
  if x =? y then r else Z.sgn (x - y).
Proof.
  unfold in_u. intros Hx Hy. change 0xffff with (2 ^ 16 - 1). rewrite !land_mod, !Z.shiftr_div_pow2 by lia.
  change (2 ^ 16) with 65536.
  pose proof (Z.div_mod x 65536 ltac:(lia)). pose proof (Z.div_mod y 65536 ltac:(lia)).
  pose proof (Z.mod_pos_bound x 65536 ltac:(lia)). pose proof (Z.mod_pos_bound y 65536 ltac:(lia)).
  destruct (Z.eqb_spec (x / 65536) (y / 65536)), (Z.eqb_spec (x mod 65536) (y mod 65536)), (Z.eqb_spec x y);
    try lia; (f_equal; lia) || (rewrite !sgn_sub by lia; destruct (Z.gtb_spec (x / 65536) (y / 65536)), (Z.gtb_spec x y); lia).
Qed.

(** The order of the numbers is that of the texts. *)
Lemma uuid_order a b :
  uuid_ok a -> uuid_ok b -> Z.sgn (strcmp (uuid_to_string a) (uuid_to_string b)) = uuid_compare_3way a b.
Proof.
  intros (A0 & A1 & A2 & A3) (B0 & B1 & B2 & B3). unfold uuid_to_string.
  destruct (halves _ A1) as (? & ? & _), (halves _ A2) as (? & ? & _), (halves _ B1) as (? & ? & _), (halves _ B2) as (? & ? & _).
  rewrite <- (app_nil_r (print_hex 8 (parts3 a))), <- (app_nil_r (print_hex 8 (parts3 b))). cbn [app].
  repeat first [rewrite strcmp_hex by done | rewrite strcmp_cons by done].
  rewrite !halves_order by done. unfold uuid_compare_3way. cbn [strcmp]. change (Z.sgn 0) with 0.
  repeat match goal with |- context [?x =? ?y] => destruct (Z.eqb_spec x y); cbn [negb]; [| by rewrite sgn_sub] end. done.
Qed.

Lemma uuid_compare_eq a b : uuid_compare_3way a b = 0 <-> a = b.
Proof.
  unfold uuid_compare_3way. split; [| intros ->; by rewrite !Z.eqb_refl].
  destruct a as [a0 a1 a2 a3], b as [b0 b1 b2 b3]. cbn [parts0 parts1 parts2 parts3]. zcases; intros; try lia. by subst.
Qed.

Lemma uuid_compare_antisym a b : uuid_compare_3way b a = - uuid_compare_3way a b.
Proof. unfold uuid_compare_3way. zcases; lia. Qed.

Lemma uuid_compare_trans a b c : uuid_compare_3way a b <= 0 -> uuid_compare_3way b c <= 0 -> uuid_compare_3way a c <= 0.
Proof. unfold uuid_compare_3way. zcases; lia. Qed.

Lemma tolower_text u : List.map tolower (uuid_to_string u) = uuid_to_string u.
Proof.
  assert (forall n x, List.map tolower (print_hex n x) = print_hex n x) as H.
  { intros n x. induction n as [| n IH]; cbn [print_hex List.map]; [done |]. rewrite IH. f_equal.
    set (d := (x / 16 ^ Z.of_nat n) mod 16). assert (0 <= d < 16) as Hd by (apply Z.mod_pos_bound; lia).
    pose proof (hexit_tolower (digit_char d)) as Hh.
    rewrite digit_char_spec in Hh by done. symmetry. apply Hh. lia. }
  unfold uuid_to_string. by rewrite !map_app, !H.
Qed.

Lemma uuid_text_no_nul u : no_nul (uuid_to_string u).
Proof.
  assert (forall n x, no_nul (print_hex n x)) as H.
  { intros n x. induction n as [| n IH]; cbn [print_hex]; [constructor |]. constructor; [| done].
    pose proof (Z.mod_pos_bound (x / 16 ^ Z.of_nat n) 16 ltac:(lia)) as Hd. apply (digit_char_order _ _ Hd Hd). }
  unfold uuid_to_string, no_nul in *. rewrite !Forall_app, !Forall_singleton. by repeat split.
Qed.

Lemma uuid_roundtrip u : uuid_ok u -> uuid_from_string (uuid_to_string u) = Some u.
Proof. intros H. apply uuid_from_string_exact; [apply uuid_text_no_nul |]. split; [done | apply tolower_text]. Qed.

(** The texts that a UUID starts with match it, and are partial UUIDs. *)
Lemma partial_match_spec u m : uuid_is_partial_match u m = length m /\ m `prefix_of` uuid_to_string u \/ uuid_is_partial_match u m = 0%nat /\ ~ m `prefix_of` uuid_to_string u.
Proof.
  unfold uuid_is_partial_match. case_bool_decide as E; [left | right]; (split; [done |]).
  - rewrite <- E. apply prefix_take.
  - intros [t Et]. apply E. by rewrite Et, take_app_length.
Qed.

Lemma partial_prefix t s n i :
  Forall2 (λ t c, c <> NUL /\ if t =c "x" then 0 <= hexit_value c else c = "-"%char) t s ->
  partial_loop t (take n s) i = (i + length (take n s))%nat.
Proof.
  intros H. revert n i. induction H as [| t c tl sl [Hc Ht] _ IH]; intros n i; [rewrite take_nil; cbn [length]; by rewrite Nat.add_0_r |].
  destruct n as [| n]; [cbn [take length]; by rewrite Nat.add_0_r |]. cbn [take partial_loop hd_char tail length]. apply Ascii.eqb_neq in Hc. rewrite Hc.
  assert ((if t =c "x" then hexit_value c <? 0 else negb (c =c "-")) = false) as ->.
  { destruct (t =c "x"); [by apply Z.ltb_ge | subst c; done]. }
  rewrite IH. lia.
Qed.

Lemma partial_string_text u n : uuid_is_partial_string (take n (uuid_to_string u)) = length (take n (uuid_to_string u)).
Proof.
  apply (partial_prefix _ _ n 0). unfold uuid_to_string, tmpl.
  assert (forall n x, Forall2 (λ t c, c <> NUL /\ if t =c "x" then 0 <= hexit_value c else c = "-"%char) (replicate n "x"%char) (print_hex n x)) as H.
  { intros k x. induction k as [| k IH]; cbn; constructor; [| done].
    pose proof (Z.mod_pos_bound (x / 16 ^ Z.of_nat k) 16 ltac:(lia)) as Hd. split; [apply (digit_char_order _ _ Hd Hd) |].
    change ("x" =c "x")%char with true. cbv iota. rewrite digit_char_spec by done. lia. }
  change (str "xxxxxxxx-xxxx-xxxx-xxxx-xxxxxxxxxxxx") with
    (replicate 8 "x" ++ ["-"] ++ replicate 4 "x" ++ ["-"] ++ replicate 4 "x" ++ ["-"] ++ replicate 4 "x" ++ ["-"] ++ replicate 4 "x" ++ replicate 8 "x")%char.
  repeat (apply Forall2_app; [first [apply H | by repeat constructor] |]). apply H.
Qed.

(** The text of UUIDs: it reads back; a string is accepted exactly when it is the text of the
    result up to the case of letters; and UUIDs compare as their texts do. *)
Theorem uuid_text_exact u v s :
  uuid_ok u -> uuid_ok v -> no_nul s ->
  uuid_from_string (uuid_to_string u) = Some u /\
  (uuid_from_string s = Some u <-> List.map tolower s = uuid_to_string u) /\
  uuid_compare_3way u v = Z.sgn (strcmp (uuid_to_string u) (uuid_to_string v)) /\
  (uuid_compare_3way u v = 0 <-> u = v).
Proof.
  intros Hu Hv Hs. split; [by apply uuid_roundtrip |]. split; [rewrite uuid_from_string_exact by done; tauto |].
  split; [symmetry; by apply uuid_order | apply uuid_compare_eq].
Qed.

Definition sample_uuid : uuid := mk_uuid 0xe66250bb 0x9531491b 0xb9c35385 0xcabb0080.

Lemma uuid_text_exact_witness :
  uuid_from_string (str "E66250BB-9531-491b-b9c3-5385cabb0080") = Some sample_uuid.
Proof.
  destruct (uuid_text_exact sample_uuid uuid_zero (str "E66250BB-9531-491b-b9c3-5385cabb0080")) as (_ & H & _).
  1,2: by vm_compute. { by repeat constructor. } by apply H.
Defined.
End Uuid.
