(* ===== verification/OvsdbTypes.v ===== *)
(** Values of the OVSDB protocol and their types (lib/ovsdb-types.c, lib/ovsdb-data.h), errors
    (lib/ovsdb-error.c) and the parser of JSON objects by members (lib/ovsdb-parser.c). *)
From stdpp Require Import gmap sorting.
From S2P Require Import Prelude Text Unicode Containers Shash Json JsonLex Sort Uuid.

(** The order of floating-point numbers, and the largest finite ones. *)
Class DoubleOrder (R : Type) := {
  double_ltb : R -> R -> bool;
  double_leb : R -> R -> bool;
  DBL_MAX : R;
  minus_DBL_MAX : R;
}.

Module Ovsdb.
Export Json Uuid Sort.

(** ** Outcomes *)

(** [Crash] is a failed assertion, OVS_NOT_REACHED(), the use of a null pointer or an arithmetic
    overflow. *)
Inductive outcome {E A : Type} :=
  | Value (a : A)
  | Error (e : E)
  | Crash.
Arguments outcome : clear implicits.

(** Computations that can fail and that change a state of type [S]. *)
Definition M (S E A : Type) : Type := S -> outcome E A * S.

Section monad.
Context {S E : Type}.

Definition ret {A} (a : A) : M S E A := λ s, (Value a, s).
Definition fail {A} (e : E) : M S E A := λ s, (Error e, s).
Definition crash {A} : M S E A := λ s, (Crash, s).
Definition bind {A B} (m : M S E A) (f : A -> M S E B) : M S E B := λ s,
  match m s with
  | (Value a, s) => f a s
  | (Error e, s) => (Error e, s)
  | (Crash, s) => (Crash, s)
  end.
Definition guard_error (e : option E) : M S E unit := match e with Some e => fail e | None => ret tt end.
Definition of_option {A} (a : option A) : M S E A := match a with Some a => ret a | None => crash end.
Definition of_outcome {A} (o : outcome E A) : M S E A := λ s, (o, s).
End monad.

Notation "x ←! m ; k" := (bind m (λ x, k)) (at level 100, m at next level, right associativity) : ovs_scope.
Notation "' x ←! m ; k" := (bind m (λ x, k)) (at level 100, x strict pattern, m at next level, right associativity) : ovs_scope.

(** ** Text *)

Definition quoted (s : chars) : chars := [chr 34] ++ s ++ [chr 34].

Definition print_nat (n : nat) : chars := print_uint 10 (Z.of_nat n).

(** ** Types *)

Inductive ovsdb_atomic_type :=
  | OVSDB_TYPE_VOID | OVSDB_TYPE_INTEGER | OVSDB_TYPE_REAL | OVSDB_TYPE_BOOLEAN | OVSDB_TYPE_STRING | OVSDB_TYPE_UUID.

#[export] Instance ovsdb_atomic_type_eq_dec : EqDecision ovsdb_atomic_type.
Proof. solve_decision. Defined.

(** The numbers of the enum. *)
Definition type_number (type : ovsdb_atomic_type) : Z :=
  match type with
  | OVSDB_TYPE_VOID => 0 | OVSDB_TYPE_INTEGER => 1 | OVSDB_TYPE_REAL => 2
  | OVSDB_TYPE_BOOLEAN => 3 | OVSDB_TYPE_STRING => 4 | OVSDB_TYPE_UUID => 5
  end.

Inductive ovsdb_ref_type := OVSDB_REF_STRONG | OVSDB_REF_WEAK.

#[export] Instance ovsdb_ref_type_eq_dec : EqDecision ovsdb_ref_type.
Proof. solve_decision. Defined.

(** The union with the type that says which member it has. *)
Inductive ovsdb_atom {R : Type} :=
  | ATOM_INTEGER (integer : Z)
  | ATOM_REAL (real : R)
  | ATOM_BOOLEAN (boolean : bool)
  | ATOM_STRING (string : chars)
  | ATOM_UUID (uuid : uuid).
Arguments ovsdb_atom : clear implicits.

Definition atom_type {R} (a : ovsdb_atom R) : ovsdb_atomic_type :=
  match a with
  | ATOM_INTEGER _ => OVSDB_TYPE_INTEGER
  | ATOM_REAL _ => OVSDB_TYPE_REAL
  | ATOM_BOOLEAN _ => OVSDB_TYPE_BOOLEAN
  | ATOM_STRING _ => OVSDB_TYPE_STRING
  | ATOM_UUID _ => OVSDB_TYPE_UUID
  end.

(** The arrays [keys] and [values] side by side, [n] entries long; an entry whose value is [None]
    is one that the array [values] does not have. *)
Abbreviation ovsdb_datum R := (list (ovsdb_atom R * option (ovsdb_atom R))).

(** The members of the union, by the type; [refType] is set when [refTableName] is. *)
Inductive base_constraints {R : Type} :=
  | NO_CONSTRAINTS
  | INTEGER_CONSTRAINTS (min max : Z)
  | REAL_CONSTRAINTS (min max : R)
  | STRING_CONSTRAINTS (minLen maxLen : Z)
  | UUID_CONSTRAINTS (ref : option (chars * ovsdb_ref_type)).
Arguments base_constraints : clear implicits.

Record ovsdb_base_type {R : Type} := mk_base {
  type : ovsdb_atomic_type;
  enum_ : option (ovsdb_datum R);
  constraints : base_constraints R;
}.
Arguments ovsdb_base_type : clear implicits.
Arguments mk_base {R}.

#[export] Instance ovsdb_base_type_eta {R} : RecordEta (ovsdb_base_type R) := λ r, mk_base (type r) (enum_ r) (constraints r).

Record ovsdb_type {R : Type} := mk_type {
  key : ovsdb_base_type R;
  value : ovsdb_base_type R;
  n_min : Z;
  n_max : Z;
}.
Arguments ovsdb_type : clear implicits.
Arguments mk_type {R}.

#[export] Instance ovsdb_type_eta {R} : RecordEta (ovsdb_type R) := λ r, mk_type (key r) (value r) (n_min r) (n_max r).

Definition ovsdb_atomic_type_to_string (type : ovsdb_atomic_type) : chars :=
  match type with
  | OVSDB_TYPE_VOID => str "void"
  | OVSDB_TYPE_INTEGER => str "integer"
  | OVSDB_TYPE_REAL => str "real"
  | OVSDB_TYPE_BOOLEAN => str "boolean"
  | OVSDB_TYPE_STRING => str "string"
  | OVSDB_TYPE_UUID => str "uuid"
  end.

Definition ovsdb_atomic_type_from_string (string : chars) : option ovsdb_atomic_type :=
  if strcmp string (str "integer") =? 0 then Some OVSDB_TYPE_INTEGER
  else if strcmp string (str "real") =? 0 then Some OVSDB_TYPE_REAL
  else if strcmp string (str "boolean") =? 0 then Some OVSDB_TYPE_BOOLEAN
  else if strcmp string (str "string") =? 0 then Some OVSDB_TYPE_STRING
  else if strcmp string (str "uuid") =? 0 then Some OVSDB_TYPE_UUID
  else None.

Section types.
Context {R : Type} {D : Double R} {DO : DoubleOrder R}.
Implicit Types (base : ovsdb_base_type R) (ty : ovsdb_type R).

Definition default_constraints (type : ovsdb_atomic_type) : base_constraints R :=
  match type with
  | OVSDB_TYPE_VOID | OVSDB_TYPE_BOOLEAN => NO_CONSTRAINTS
  | OVSDB_TYPE_INTEGER => INTEGER_CONSTRAINTS LLONG_MIN LLONG_MAX
  | OVSDB_TYPE_REAL => REAL_CONSTRAINTS minus_DBL_MAX DBL_MAX
  | OVSDB_TYPE_STRING => STRING_CONSTRAINTS 0 UINT_MAX
  | OVSDB_TYPE_UUID => UUID_CONSTRAINTS None
  end.

Definition ovsdb_base_type_init (type : ovsdb_atomic_type) : ovsdb_base_type R := mk_base type None (default_constraints type).

Definition ovsdb_base_type_get_enum_type (type : ovsdb_atomic_type) : ovsdb_type R :=
  mk_type (ovsdb_base_type_init type) (ovsdb_base_type_init OVSDB_TYPE_VOID) 1 UINT_MAX.

Definition ovsdb_base_type_is_valid base : bool :=
  match constraints base with
  | INTEGER_CONSTRAINTS min max => min <=? max
  | REAL_CONSTRAINTS min max => double_leb min max
  | STRING_CONSTRAINTS minLen maxLen => minLen <=? maxLen
  | NO_CONSTRAINTS | UUID_CONSTRAINTS _ => true
  end.

(** Not called for the void type. *)
Definition ovsdb_base_type_has_constraints base : bool :=
  match enum_ base with
  | Some _ => true
  | None =>
      match constraints base with
      | INTEGER_CONSTRAINTS min max => negb (min =? LLONG_MIN) || negb (max =? LLONG_MAX)
      | REAL_CONSTRAINTS min max => negb (double_eqb min minus_DBL_MAX) || negb (double_eqb max DBL_MAX)
      | NO_CONSTRAINTS => false
      | STRING_CONSTRAINTS minLen maxLen => negb (minLen =? 0) || negb (maxLen =? UINT_MAX)
      | UUID_CONSTRAINTS ref => bool_decide (is_Some ref)
      end
  end.

Definition ovsdb_base_type_clear_constraints base : ovsdb_base_type R := ovsdb_base_type_init (type base).

Definition ref_table base : option (chars * ovsdb_ref_type) := if constraints base is UUID_CONSTRAINTS ref then ref else None.

Definition is_void base : bool := bool_decide (type base = OVSDB_TYPE_VOID).

Definition ovsdb_base_type_is_ref base : bool := bool_decide (type base = OVSDB_TYPE_UUID) && bool_decide (is_Some (ref_table base)).
Definition ovsdb_base_type_is_strong_ref base : bool :=
  ovsdb_base_type_is_ref base && bool_decide (snd <$> ref_table base = Some OVSDB_REF_STRONG).
Definition ovsdb_base_type_is_weak_ref base : bool :=
  ovsdb_base_type_is_ref base && bool_decide (snd <$> ref_table base = Some OVSDB_REF_WEAK).

Definition ovsdb_type_is_scalar ty : bool := is_void (value ty) && (n_min ty =? 1) && (n_max ty =? 1).
Definition ovsdb_type_is_optional ty : bool := n_min ty =? 0.
Definition ovsdb_type_is_optional_scalar ty : bool := is_void (value ty) && (n_min ty =? 0) && (n_max ty =? 1).
Definition ovsdb_type_is_composite ty : bool := n_max ty >? 1.
Definition ovsdb_type_is_set ty : bool := is_void (value ty) && (negb (n_min ty =? 1) || negb (n_max ty =? 1)).
Definition ovsdb_type_is_map ty : bool := negb (is_void (value ty)).

Definition ovsdb_type_is_valid ty : bool :=
  negb (is_void (key ty)) && ovsdb_base_type_is_valid (key ty) && ovsdb_base_type_is_valid (value ty)
  && (n_min ty <=? 1) && (n_max ty >=? 1).

Definition ovsdb_type_to_english ty : chars :=
  let key := ovsdb_atomic_type_to_string (type (key ty)) in
  let value := ovsdb_atomic_type_to_string (type (value ty)) in
  if ovsdb_type_is_scalar ty then key
  else
    (if ovsdb_type_is_set ty then str "set" else str "map") ++
    (if n_max ty =? UINT_MAX then
       if negb (n_min ty =? 0) then str " of " ++ print_uint 10 (n_min ty) ++ str " or more" else str " of"
     else if negb (n_min ty =? 0) then str " of " ++ print_uint 10 (n_min ty) ++ str " to " ++ print_uint 10 (n_max ty)
     else str " of up to " ++ print_uint 10 (n_max ty)) ++
    (if ovsdb_type_is_set ty then str " " ++ key ++ str "s"
     else str " (" ++ key ++ str ", " ++ value ++ str ") pairs").
End types.

(** ** Errors *)

Record ovsdb_error := mk_error {
  tag : chars;
  details : option chars;
  syntax : option chars;
  errno_ : Z;
}.

#[export] Instance ovsdb_error_eta : RecordEta ovsdb_error := λ r, mk_error (tag r) (details r) (syntax r) (errno_ r).

(** The text of a Unix error number is the C library's. *)
Section errors.
Context {T R : Type} {HT : HashTable T} {D : Double R}.
Context (hash_string : chars -> Z -> Z) (ovs_retval_to_string : Z -> chars).
Implicit Types (json : json T R) (error : ovsdb_error).

Definition ovsdb_error_valist (tag : option chars) (details : option chars) : ovsdb_error :=
  mk_error (default (str "ovsdb error") tag) details None 0.

Definition ovsdb_io_error (errno : Z) (details : chars) : ovsdb_error :=
  ovsdb_error_valist (Some (str "I/O error")) (Some details) <| errno_ := errno |>.

Definition ovsdb_syntax_error (json : option (Json.json T R)) (tag : option chars) (details : chars) : ovsdb_error :=
  ovsdb_error_valist (Some (default (str "syntax error") tag)) (Some details)
    <| syntax := (λ json, json_to_string json JSSF_SORT) <$> json |>.

Definition ovsdb_wrap_error error (msg : chars) : ovsdb_error :=
  error <| details ::= λ d, Some match d with Some details => msg ++ str ": " ++ details | None => msg end |>.

Definition ovsdb_error_to_string error : chars :=
  (if syntax error is Some syntax then str "syntax " ++ quoted syntax ++ str ": " else []) ++
  tag error ++
  (if details error is Some details then str ": " ++ details else []) ++
  (if negb (errno_ error =? 0) then str " (" ++ ovs_retval_to_string (errno_ error) ++ str ")" else []).

Definition json_object_put_string (object : shash T (Json.json T R)) (name string : chars) : shash T (Json.json T R) :=
  json_object_put hash_string object name (JSON_STRING string).

Definition ovsdb_error_to_json error : Json.json T R :=
  let object := json_object_put_string shash_init (str "error") (tag error) in
  let object := if details error is Some details then json_object_put_string object (str "details") details else object in
  let object := if syntax error is Some syntax then json_object_put_string object (str "syntax") syntax else object in
  JSON_OBJECT (if negb (errno_ error =? 0) then json_object_put_string object (str "io-error") (ovs_retval_to_string (errno_ error))
               else object).
End errors.

(** ovsdb_error() *)
Definition db_error (tag : chars) (message : chars) : ovsdb_error := ovsdb_error_valist (Some tag) (Some message).
Definition plain_error (message : chars) : ovsdb_error := ovsdb_error_valist None (Some message).

(** ** Parsing objects *)

Inductive json_type := NULL_TYPE | FALSE_TYPE | TRUE_TYPE | OBJECT_TYPE | ARRAY_TYPE | INTEGER_TYPE | REAL_TYPE | STRING_TYPE.

#[export] Instance json_type_eq_dec : EqDecision json_type.
Proof. solve_decision. Defined.

Definition json_type_number (type : json_type) : Z :=
  match type with
  | NULL_TYPE => 0 | FALSE_TYPE => 1 | TRUE_TYPE => 2 | OBJECT_TYPE => 3
  | ARRAY_TYPE => 4 | INTEGER_TYPE => 5 | REAL_TYPE => 6 | STRING_TYPE => 7
  end.

Definition json_type_to_string (type : json_type) : chars :=
  match type with
  | NULL_TYPE => str "null"
  | FALSE_TYPE => str "false"
  | TRUE_TYPE => str "true"
  | OBJECT_TYPE => str "object"
  | ARRAY_TYPE => str "array"
  | INTEGER_TYPE | REAL_TYPE => str "number"
  | STRING_TYPE => str "string"
  end.

Definition type_of_json {T R} (j : json T R) : json_type :=
  match j with
  | JSON_NULL => NULL_TYPE | JSON_FALSE => FALSE_TYPE | JSON_TRUE => TRUE_TYPE | JSON_OBJECT _ => OBJECT_TYPE
  | JSON_ARRAY _ => ARRAY_TYPE | JSON_INTEGER _ => INTEGER_TYPE | JSON_REAL _ => REAL_TYPE | JSON_STRING _ => STRING_TYPE
  end.

Definition OP (type : json_type) : Z := Z.shiftl 1 (json_type_number type).
Definition OP_ANY : Z := 0xff.
Definition OP_NUMBER : Z := Z.lor (OP INTEGER_TYPE) (OP REAL_TYPE).
Definition OP_ID : Z := Z.shiftl 1 8.
Definition OP_OPTIONAL : Z := Z.shiftl 1 9.

(** The names used are a set of strings (lib/sset.c), a list without duplicates. *)
Record ovsdb_parser {T R : Type} := mk_ovsdb_parser {
  name : chars;
  used : list chars;
  json_of : option (shash T (json T R));
  parse_error : option ovsdb_error;
}.
Arguments ovsdb_parser : clear implicits.
Arguments mk_ovsdb_parser {T R}.

#[export] Instance ovsdb_parser_eta {T R} : RecordEta (ovsdb_parser T R) := λ r,
  mk_ovsdb_parser (name r) (used r) (json_of r) (parse_error r).

Definition ovsdb_parser_is_id (string : chars) : bool :=
  let c := hd_char string in
  (isalpha c || (c =c "_")) && forallb (λ c, isalpha c || isdigit c || (c =c "_")) (tail string).

Section parser.
Context {T R : Type} {HT : HashTable T} {D : Double R}.
Context (hash_string : chars -> Z -> Z).
Implicit Types (json : json T R) (parser : ovsdb_parser T R).

Definition ovsdb_parser_raise_error parser (message : chars) : ovsdb_parser T R :=
  match parse_error parser with
  | Some _ => parser
  | None => parser <| parse_error :=
      Some (ovsdb_syntax_error (JSON_OBJECT <$> json_of parser) None (str "Parsing " ++ name parser ++ str " failed: " ++ message)) |>
  end.

Definition ovsdb_parser_init (json : option (Json.json T R)) (name : chars) : ovsdb_parser T R :=
  match json with
  | Some (JSON_OBJECT object) => mk_ovsdb_parser name [] (Some object) None
  | _ => ovsdb_parser_raise_error (mk_ovsdb_parser name [] None None) (str "Object expected.")
  end.

Definition has_type (types : Z) json : bool :=
  negb (Z.land types (OP (type_of_json json)) =? 0)
  || (negb (Z.land types OP_ID =? 0) && if json is JSON_STRING string then ovsdb_parser_is_id string else false).

Definition sset_add (set : list chars) (name : chars) : list chars := if decide (name ∈ set) then set else name :: set.

Definition ovsdb_parser_member parser (name : chars) (types : Z) : option (Json.json T R) * ovsdb_parser T R :=
  match json_of parser with
  | None => (None, parser)
  | Some object =>
      match shash_find_data hash_string object name with
      | None =>
          (None, if Z.land types OP_OPTIONAL =? 0
                 then ovsdb_parser_raise_error parser (str "Required '" ++ name ++ str "' member is missing.") else parser)
      | Some value =>
          if has_type types value then (Some value, parser <| used ::= λ set, sset_add set name |>)
          else (None, ovsdb_parser_raise_error parser (str "Type mismatch for member '" ++ name ++ str "'."))
      end
  end.

Definition ovsdb_parser_put_error parser (error : ovsdb_error) : ovsdb_parser T R :=
  if parse_error parser is Some _ then parser else parser <| parse_error := Some error |>.

(** The members that are not used; [node] is the first of them. *)
Definition ovsdb_parser_finish parser : option ovsdb_error :=
  match parse_error parser, json_of parser with
  | None, Some object =>
      let n_unused := u64 (shash_count object - Z.of_nat (length (used parser))) in
      if negb (n_unused =? 0) then
        match List.find (λ node : chars * Json.json T R, negb (bool_decide (node.1 ∈ used parser))) (shash_nodes object) with
        | None => None
        | Some node =>
            parse_error (ovsdb_parser_raise_error parser
              (if n_unused >? 1 then
                 str "Member '" ++ node.1 ++ str "' and " ++ print_uint 10 (n_unused - 1) ++ str " other member" ++
                 (if n_unused >? 2 then str "s" else []) ++ str " are present but not allowed here."
               else str "Member '" ++ node.1 ++ str "' is present but not allowed here."))
        end
      else None
  | error, _ => error
  end.
End parser.
End Ovsdb.
