(* ===== verification/OvsdbData.v ===== *)
(** Atoms and data (lib/ovsdb-data.c): comparison, constraints, sorting, the operations on sets
    and maps, and differences.  A datum is a set or a map whose keys are in order. *)
From stdpp Require Import gmap sorting.
From S2P Require Import Prelude Text Unicode Containers Shash Json JsonLex Sort Uuid OvsdbTypes.

Module OvsdbData.
Export Ovsdb.

Section data.
Context {R : Type} {D : Double R} {DO : DoubleOrder R} {So : Sorting}.

Abbreviation atom := (ovsdb_atom R).
Abbreviation datum := (ovsdb_datum R).
Abbreviation row := (atom * option atom)%type.
Implicit Types (a b : atom) (d : datum) (base : ovsdb_base_type R) (ty : ovsdb_type R).

(** ** Atoms *)

(** [None] is OVS_NOT_REACHED(). *)
Definition ovsdb_atom_init_default (type : ovsdb_atomic_type) : option atom :=
  match type with
  | OVSDB_TYPE_VOID => None
  | OVSDB_TYPE_INTEGER => Some (ATOM_INTEGER 0)
  | OVSDB_TYPE_REAL => Some (ATOM_REAL double_zero)
  | OVSDB_TYPE_BOOLEAN => Some (ATOM_BOOLEAN false)
  | OVSDB_TYPE_STRING => Some (ATOM_STRING [])
  | OVSDB_TYPE_UUID => Some (ATOM_UUID uuid_zero)
  end.

Definition ovsdb_atom_is_default a : bool :=
  match a with
  | ATOM_INTEGER integer => integer =? 0
  | ATOM_REAL real => double_eqb real double_zero
  | ATOM_BOOLEAN boolean => negb boolean
  | ATOM_STRING string => hd_char string =c NUL
  | ATOM_UUID uuid => uuid_is_zero uuid
  end.

(** Atoms of the same type; the comparison of others is not defined. *)
Definition ovsdb_atom_compare_3way a b : Z :=
  match a, b with
  | ATOM_INTEGER a, ATOM_INTEGER b => if a <? b then -1 else if a >? b then 1 else 0
  | ATOM_REAL a, ATOM_REAL b => if double_ltb a b then -1 else if double_ltb b a then 1 else 0
  | ATOM_BOOLEAN a, ATOM_BOOLEAN b => Z.b2z a - Z.b2z b
  | ATOM_STRING a, ATOM_STRING b => strcmp a b
  | ATOM_UUID a, ATOM_UUID b => uuid_compare_3way a b
  | _, _ => 0
  end.

Definition ovsdb_atom_equals a b : bool := ovsdb_atom_compare_3way a b =? 0.

(** The string is one that starts with a letter and has no delimiter, and is nothing else. *)
Definition string_needs_quotes (s : chars) : bool :=
  (negb (isalpha (hd_char s)) && negb (hd_char s =c "_"))
  || existsb (λ c, negb (isalpha c) && negb (isdigit c) && negb (c =c "_") && negb (c =c "-") && negb (c =c ".")) (tail s)
  || (strcmp s (str "true") =? 0) || (strcmp s (str "false") =? 0)
  || bool_decide (is_Some (uuid_from_string s)).

Definition ovsdb_atom_to_string a : chars :=
  match a with
  | ATOM_INTEGER integer => print_int integer
  | ATOM_REAL real => format_g real
  | ATOM_BOOLEAN boolean => if boolean then str "true" else str "false"
  | ATOM_STRING string => if string_needs_quotes string then json_serialize_string string else string
  | ATOM_UUID uuid => uuid_to_string uuid
  end.

Definition ovsdb_atom_to_bare a : chars := if a is ATOM_STRING string then string else ovsdb_atom_to_string a.

(** ** Printing data *)

Definition row_to_string (is_map : bool) (i : nat) (r : row) : chars :=
  (if (0 <? i)%nat then str ", " else []) ++ ovsdb_atom_to_string r.1 ++
  (if is_map then str "=" ++ from_option ovsdb_atom_to_string [] r.2 else []).

Definition ovsdb_datum_to_string d ty : chars :=
  let is_map := ovsdb_type_is_map ty in
  let brackets := (n_max ty >? 1) || (length d =? 0)%nat in
  (if brackets then if is_map then str "{" else str "[" else []) ++
  concat (imap (row_to_string is_map) d) ++
  (if brackets then if is_map then str "}" else str "]" else []).

Definition row_to_bare (is_map : bool) (i : nat) (r : row) : chars :=
  (if (0 <? i)%nat then str " " else []) ++ ovsdb_atom_to_bare r.1 ++
  (if is_map then str "=" ++ from_option ovsdb_atom_to_bare [] r.2 else []).

Definition ovsdb_datum_to_bare d ty : chars := concat (imap (row_to_bare (ovsdb_type_is_map ty)) d).

(** ** Searching *)

(** The key at an index inside the array. *)
Definition key_at d (i : nat) : atom := match d !! i with Some r => r.1 | None => ATOM_INTEGER 0 end.

(** The sum is an unsigned int. *)
Definition midpoint (low high : nat) : nat := Z.to_nat (u32 (Z.of_nat (low + high)) / 2).

(** Data with fewer entries than this have no midpoint whose sum wraps around, and their indexes
    fit in the int of [ovsdb_datum_find]. *)
Definition DATUM_MAX : Z := 2 ^ 31.

(** [None] stands for UINT_MAX.  In data with fewer than [DATUM_MAX] entries each round at least
    halves the range. *)
Fixpoint find_key_loop (fuel : nat) d (key : atom) (low high : nat) : option nat :=
  match fuel with
  | O => None
  | S fuel =>
      if (low <? high)%nat then
        let idx := midpoint low high in
        let cmp := ovsdb_atom_compare_3way key (key_at d idx) in
        if cmp <? 0 then find_key_loop fuel d key low idx
        else if cmp >? 0 then find_key_loop fuel d key (idx + 1) high
        else Some idx
      else None
  end.

Definition ovsdb_datum_find_key d (key : atom) : option nat := find_key_loop (S (length d)) d key 0 (length d).

(** Whether two values are equal, where values are compared. *)
Definition values_equal (a b : option atom) : bool :=
  match a, b with Some a, Some b => ovsdb_atom_equals a b | _, _ => bool_decide (is_Some a <-> is_Some b) end.

Definition value_at d (i : nat) : option atom := r ← d !! i; r.2.

(** [value_type] is void when only keys are compared. *)
Definition ovsdb_datum_find_key_value d (key : atom) (value : option atom) (value_type : ovsdb_atomic_type) : option nat :=
  idx ← ovsdb_datum_find_key d key;
  if negb (bool_decide (value_type = OVSDB_TYPE_VOID)) && negb (values_equal (value_at d idx) value) then None
  else Some idx.

Definition ovsdb_datum_find (r : row) d ty : option nat := ovsdb_datum_find_key_value d r.1 r.2 (type (value ty)).

Definition ovsdb_datum_includes_all (a b : datum) ty : bool :=
  negb (length b <? length a)%nat && forallb (λ r, bool_decide (is_Some (ovsdb_datum_find r b ty))) a.

Definition ovsdb_datum_excludes_all (a b : datum) ty : bool :=
  forallb (λ r, negb (bool_decide (is_Some (ovsdb_datum_find r b ty)))) a.

(** ** Constraints *)

Definition check_string_constraints (s : chars) (minLen maxLen : Z) : option ovsdb_error :=
  match utf8_validate s with
  | inr msg => Some (db_error (str "constraint violation") (str "not a valid UTF-8 string: " ++ msg))
  | inl n_chars =>
      let message what len := quoted s ++ str " length " ++ print_nat n_chars ++ what ++ print_uint 10 len in
      if Z.of_nat n_chars <? minLen then
        Some (db_error (str "constraint violation") (message (str " is less than minimum allowed length ") minLen))
      else if Z.of_nat n_chars >? maxLen then
        Some (db_error (str "constraint violation") (message (str " is greater than maximum allowed length ") maxLen))
      else None
  end.

Definition range_error {X} (print : X -> chars) (no_min no_max : bool) (x min max : X) : ovsdb_error :=
  db_error (str "constraint violation")
    (print x ++
     (if negb no_min then
        if negb no_max then str " is not in the valid range " ++ print min ++ str " to " ++ print max ++ str " (inclusive)"
        else str " is less than minimum allowed value " ++ print min
      else str " is greater than maximum allowed value " ++ print max)).

(** An atom of the type of [base]. *)
Definition ovsdb_atom_check_constraints a base : option ovsdb_error :=
  if match enum_ base with Some enum => negb (bool_decide (is_Some (ovsdb_datum_find_key enum a))) | None => false end then
    Some (db_error (str "constraint violation")
            (ovsdb_atom_to_string a ++ str " is not one of the allowed values (" ++
             ovsdb_datum_to_string (default [] (enum_ base)) (ovsdb_base_type_get_enum_type (type base)) ++ str ")"))
  else
    match a, constraints base with
    | ATOM_INTEGER x, INTEGER_CONSTRAINTS min max =>
        if (x >=? min) && (x <=? max) then None
        else Some (range_error print_int (min =? LLONG_MIN) (max =? LLONG_MAX) x min max)
    | ATOM_REAL x, REAL_CONSTRAINTS min max =>
        if double_leb min x && double_leb x max then None
        else Some (range_error format_g (double_eqb min minus_DBL_MAX) (double_eqb max DBL_MAX) x min max)
    | ATOM_STRING s, STRING_CONSTRAINTS minLen maxLen => check_string_constraints s minLen maxLen
    | _, _ => None
    end.

(** The first error of a list. *)
Definition first_error {A} (f : A -> option ovsdb_error) (l : list A) : option ovsdb_error := head (omap f l).

Definition ovsdb_datum_check_constraints d ty : option ovsdb_error :=
  match first_error (λ r : row, ovsdb_atom_check_constraints r.1 (key ty)) d with
  | Some error => Some error
  | None =>
      if negb (is_void (value ty)) then
        first_error (λ r : row, v ← r.2; ovsdb_atom_check_constraints v (value ty)) d
      else None
  end.

(** ** Whole data *)

Definition ovsdb_datum_init_empty : datum := [].

(** [n_min] is 0 or 1 in a valid type. *)
Definition ovsdb_datum_init_default ty : datum :=
  match ovsdb_atom_init_default (type (key ty)) with
  | Some k => replicate (Z.to_nat (n_min ty)) (k, ovsdb_atom_init_default (type (value ty)))
  | None => []
  end.

Definition ovsdb_datum_is_default d ty : bool :=
  (Z.of_nat (length d) =? n_min ty)
  && forallb (λ r : row, ovsdb_atom_is_default r.1 && (is_void (value ty) || from_option ovsdb_atom_is_default true r.2)) d.

(** *** Sorting *)

(** [value_type] is void when only keys are compared. *)
Definition ovsdb_datum_sort_compare_cb (value_type : ovsdb_atomic_type) (a b : row) : Z :=
  let retval := ovsdb_atom_compare_3way a.1 b.1 in
  if negb (retval =? 0) || bool_decide (value_type = OVSDB_TYPE_VOID) then retval
  else match a.2, b.2 with Some a, Some b => ovsdb_atom_compare_3way a b | _, _ => 0 end.

Definition ovsdb_datum_sort__ d (value_type : ovsdb_atomic_type) : datum := sorted_by (ovsdb_datum_sort_compare_cb value_type) d.

(** Whether two neighbours have the same key. *)
Fixpoint has_duplicate d : bool :=
  match d with
  | r :: ((s :: _) as d') => ovsdb_atom_equals r.1 s.1 || has_duplicate d'
  | _ => false
  end.

(** The sorted datum, and the error for duplicates. *)
Definition ovsdb_datum_sort d : datum * option ovsdb_error :=
  if (length d <? 2)%nat then (d, None)
  else
    let d := ovsdb_datum_sort__ d OVSDB_TYPE_VOID in
    (d, if has_duplicate d then
          Some (plain_error (if existsb (λ r : row, bool_decide (is_Some r.2)) d then str "map contains duplicate key"
                             else str "set contains duplicate"))
        else None).

(** [None] is a failed assertion. *)
Definition ovsdb_datum_sort_assert d : option datum :=
  let '(d, error) := ovsdb_datum_sort d in if error is Some _ then None else Some d.

(** Drops the entries whose key is that of the last one kept, [last]. *)
Fixpoint unique_loop (last : row) d : datum :=
  match d with
  | [] => []
  | r :: d => if ovsdb_atom_equals r.1 last.1 then unique_loop last d else r :: unique_loop r d
  end.

(** The datum and the result, a size_t. *)
Definition ovsdb_datum_sort_unique d (value_type : ovsdb_atomic_type) : datum * Z :=
  if (length d <? 2)%nat then (d, 0)
  else
    match ovsdb_datum_sort__ d value_type with
    | [] => ([], 0)
    | r :: rest =>
        let unique := r :: unique_loop r rest in
        let src := length d in
        (unique, u64 (Z.of_nat (length unique) - Z.of_nat src))
    end.

(** *** Raw operations *)

(** The last entry takes the place of the removed one. *)
Definition ovsdb_datum_remove_unsafe d (idx : nat) : datum :=
  match last d with
  | Some r => take (length d - 1) (<[idx := r]> d)
  | None => d
  end.

Definition a_integer a : Z := if a is ATOM_INTEGER z then z else 0.

(** Entries of a range have no values.  [None] is a counter that overflows, at the end of the
    largest range, a length that does, or an entry that is put past the end of the array, for an empty one. *)
Definition ovsdb_datum_add_unsafe d (key : atom) (value : option atom) ty (range_end_atom : option atom) : option datum :=
  match range_end_atom with
  | Some range_end =>
      if (a_integer key <=? a_integer range_end) && (a_integer range_end <? LLONG_MAX) && (a_integer range_end - a_integer key <? LLONG_MAX) then
        Some (d ++ List.map (λ i, (ATOM_INTEGER (a_integer key + Z.of_nat i), None)) (seq 0 (Z.to_nat (a_integer range_end - a_integer key + 1))))
      else None
  | None => Some (d ++ [(key, if is_void (OvsdbTypes.Ovsdb.value ty) then None else value)])
  end.

(** *** Sets and maps *)

(** [new] holds what is put after the [n] entries of [a]. *)
Definition union_step ty (replace : bool) (a_new : datum * datum) (r : row) : datum * datum :=
  let '(a, new) := a_new in
  match ovsdb_datum_find_key a r.1 with
  | None => (a, new ++ [(r.1, if is_void (value ty) then None else r.2)])
  | Some ai =>
      if replace && negb (is_void (value ty)) then (alter (λ s : row, (s.1, r.2)) ai a, new)
      else (a, new)
  end.

(** [None] is a failed assertion. *)
Definition ovsdb_datum_union (a b : datum) ty (replace : bool) : option datum :=
  let '(a, new) := foldl (union_step ty replace) (a, []) b in
  match new with
  | [] => Some a
  | _ =>
      let '(a, error) := ovsdb_datum_sort (a ++ new) in
      if error is Some _ then None else Some a
  end.

(** Each round advances [i] or shortens [a]. *)
Fixpoint subtract_loop (fuel : nat) (a b : datum) (b_type : ovsdb_type R) (i : nat) (changed : bool) : datum * bool :=
  match fuel, a !! i with
  | S fuel, Some r =>
      if ovsdb_datum_find r b b_type is Some _ then subtract_loop fuel (ovsdb_datum_remove_unsafe a i) b b_type i true
      else subtract_loop fuel a b b_type (S i) changed
  | _, _ => (a, changed)
  end.

Definition ovsdb_datum_subtract (a : datum) (a_type : ovsdb_type R) (b : datum) (b_type : ovsdb_type R) : option datum :=
  if negb (bool_decide (type (key a_type) = type (key b_type))) then None
  else if negb (bool_decide (type (value a_type) = type (value b_type)) || is_void (value b_type)) then None
  else
    let '(a, changed) := subtract_loop (length a) a b b_type 0 false in
    if changed then ovsdb_datum_sort_assert a else Some a.

(** *** Differences *)

Definition drop_value ty (r : row) : row := (r.1, if is_void (value ty) then None else r.2).

(** The merge of two lists in order. *)
Fixpoint diff_loop ty (old : datum) : datum -> datum :=
  fix inner (new : datum) : datum :=
    match old, new with
    | [], _ => List.map (drop_value ty) new
    | _, [] => List.map (drop_value ty) old
    | o :: old', n :: new' =>
        let c := ovsdb_atom_compare_3way o.1 n.1 in
        if c <? 0 then drop_value ty o :: diff_loop ty old' new
        else if c >? 0 then drop_value ty n :: inner new'
        else
          (if negb (is_void (value ty)) && negb (values_equal o.2 n.2) then [drop_value ty n] else []) ++ diff_loop ty old' new'
    end.

Definition ovsdb_datum_diff (old new : datum) ty : datum :=
  if negb (ovsdb_type_is_composite ty) then new else diff_loop ty old new.

Definition ovsdb_datum_apply_diff (old diff : datum) ty : datum + ovsdb_error :=
  let new := ovsdb_datum_diff old diff ty in
  if (Z.of_nat (length new) <? n_min ty) || (Z.of_nat (length new) >? n_max ty) then
    inr (plain_error (str "Datum crated by diff has size error"))
  else inl new.

(** *** Comparison *)

Fixpoint atom_arrays_compare_3way (a b : list atom) : Z :=
  match a, b with
  | x :: a, y :: b =>
      let cmp := ovsdb_atom_compare_3way x y in
      if negb (cmp =? 0) then cmp else atom_arrays_compare_3way a b
  | _, _ => 0
  end.

Definition values_of d : list atom := omap snd d.

Definition ovsdb_datum_compare_3way (a b : datum) ty : Z :=
  if negb (length a =? length b)%nat then if (length a <? length b)%nat then -1 else 1
  else
    let cmp := atom_arrays_compare_3way a.*1 b.*1 in
    if negb (cmp =? 0) then cmp
    else if is_void (value ty) then 0
    else atom_arrays_compare_3way (values_of a) (values_of b).

Definition ovsdb_datum_equals (a b : datum) ty : bool := ovsdb_datum_compare_3way a b ty =? 0.

(** *** Hashing *)

Context (hash_string : chars -> Z -> Z) (hash_int : Z -> Z -> Z) (hash_double : R -> Z -> Z) (hash_boolean : bool -> Z -> Z).

Definition ovsdb_atom_hash a (basis : Z) : Z :=
  match a with
  | ATOM_INTEGER integer => hash_int (u32 integer) basis
  | ATOM_REAL real => hash_double real basis
  | ATOM_BOOLEAN boolean => hash_boolean boolean basis
  | ATOM_STRING string => hash_string string basis
  | ATOM_UUID uuid => hash_int (uuid_hash uuid) basis
  end.

Definition hash_atoms (atoms : list atom) (basis : Z) : Z := foldl (λ basis a, ovsdb_atom_hash a basis) basis atoms.

Definition ovsdb_datum_hash d ty (basis : Z) : Z :=
  let basis := hash_atoms d.*1 basis in
  let basis := Z.lxor basis (Z.lor (Z.lor (Z.shiftl (type_number (type (key ty))) 24) (Z.shiftl (type_number (type (value ty))) 16))
                               (Z.of_nat (length d))) in
  if is_void (value ty) then basis else hash_atoms (values_of d) basis.
End data.
End OvsdbData.
