(* ===== verification/OvsdbDatum.v ===== *)
(** Data as finite sets and maps: what the operations of [OvsdbData] do to well-formed data,
    whose keys are distinct and in order. *)
From stdpp Require Import gmap sorting.
From S2P Require Import Prelude Text Unicode Containers Shash Json JsonLex JsonNumber Sort Uuid OvsdbTypes OvsdbData.

(** The finite numbers, without the negative zero, are ordered as the reals are.  Every number
    between the largest ones is finite, and decimal numbers are read as such. *)
Class DoubleOk (R : Type) {D : Double R} {DO : DoubleOrder R} := {
  canonical : R -> Prop;
  double_lt_irrefl x : canonical x -> double_ltb x x = false;
  double_lt_trans x y z : canonical x -> canonical y -> canonical z ->
    double_ltb x y = true -> double_ltb y z = true -> double_ltb x z = true;
  double_lt_total x y : canonical x -> canonical y -> double_ltb x y = false -> double_ltb y x = false -> x = y;
  double_le_spec x y : canonical x -> canonical y -> double_leb x y = negb (double_ltb y x);
  double_le_trans x y z : double_leb x y = true -> double_leb y z = true -> double_leb x z = true;
  double_eq_spec x y : canonical x -> canonical y -> double_eqb x y = true <-> x = y;
  double_range x : canonical x -> double_leb minus_DBL_MAX x = true /\ double_leb x DBL_MAX = true;
  double_finite x : double_leb minus_DBL_MAX x = true -> double_leb x DBL_MAX = true ->
    canonical (if double_eqb x double_zero then double_zero else x);
  strtod_range s x : Forall (λ c, JsonNumber.numeral c = true) s -> Json.str_to_double s = Some x ->
    double_leb minus_DBL_MAX x = true /\ double_leb x DBL_MAX = true;
  double_integer x : LLONG_MIN <= x <= LLONG_MAX -> canonical (double_of_integer x);
  double_zero_ok : canonical double_zero;
  double_max_ok : canonical DBL_MAX;
  double_min_ok : canonical minus_DBL_MAX;
}.

Module OvsdbDatum.
Export OvsdbData.

Section datum.
Context {R : Type} {D : Double R} {DO : DoubleOrder R} {Dok : DoubleOk R} {So : Sorting} {Sok : SortingOk So}.

Abbreviation atom := (ovsdb_atom R).
Abbreviation datum := (ovsdb_datum R).
Abbreviation row := (atom * option atom)%type.
Implicit Types (a b c : atom) (d e : datum) (r s : row) (kt vt : ovsdb_atomic_type).

(** ** Atoms *)

(** Atoms of a type, as the code makes them. *)
Definition atom_ok kt a : Prop :=
  atom_type a = kt /\
  match a with
  | ATOM_INTEGER z => LLONG_MIN <= z <= LLONG_MAX
  | ATOM_REAL x => canonical x
  | ATOM_BOOLEAN _ => True
  | ATOM_STRING s => no_nul s
  | ATOM_UUID u => uuid_ok u
  end.

Abbreviation cmp := ovsdb_atom_compare_3way.

Lemma real_cases (x y : R) : canonical x -> canonical y ->
  double_ltb x y = true /\ double_ltb y x = false \/ x = y /\ double_ltb x x = false \/ double_ltb y x = true /\ double_ltb x y = false.
Proof.
  intros Hx Hy. destruct (double_ltb x y) eqn:E1, (double_ltb y x) eqn:E2; [| by left | by right; right |].
  - pose proof (double_lt_trans x y x Hx Hy Hx E1 E2) as H. by rewrite double_lt_irrefl in H.
  - right; left. split; [by apply double_lt_total | by apply double_lt_irrefl].
Qed.

Lemma cmp_eq kt a b : atom_ok kt a -> atom_ok kt b -> cmp a b = 0 <-> a = b.
Proof.
  intros [<- Ha] [Ht Hb]. destruct a as [x | x | x | x | x], b as [y | y | y | y | y]; try done; cbn in *.
  - split; [| intros [= ->]; by rewrite Z.ltb_irrefl, Z.gtb_ltb, Z.ltb_irrefl]. zcases; intros; try lia. f_equal. lia.
  - destruct (real_cases x y Ha Hb) as [[E E'] | [[-> ->] | [E E']]]; rewrite ?E, ?E'; [| done |].
    all: split; [done | intros [= ->]; by rewrite double_lt_irrefl in E].
  - destruct x, y; done.
  - split; [| intros [= ->]]; [| pose proof (strcmp_antisym y y); lia]. intros H. f_equal. by apply strcmp_eq.
  - rewrite uuid_compare_eq. split; congruence.
Qed.

Lemma cmp_antisym kt a b : atom_ok kt a -> atom_ok kt b -> Z.sgn (cmp b a) = - Z.sgn (cmp a b).
Proof.
  intros [<- Ha] [Ht Hb]. destruct a as [x | x | x | x | x], b as [y | y | y | y | y]; try done; cbn in *.
  - zcases; lia.
  - by destruct (real_cases x y Ha Hb) as [[E E'] | [[-> E] | [E E']]]; rewrite ?E, ?E'.
  - by destruct x, y.
  - by rewrite strcmp_antisym, Z.sgn_opp.
  - by rewrite uuid_compare_antisym, Z.sgn_opp.
Qed.

Lemma cmp_le_trans kt a b c : atom_ok kt a -> atom_ok kt b -> atom_ok kt c -> cmp a b <= 0 -> cmp b c <= 0 -> cmp a c <= 0.
Proof.
  intros [<- Ha] [Htb Hb] [Htc Hc]. destruct a as [x | x | x | x | x], b as [y | y | y | y | y], c as [z | z | z | z | z]; try done; cbn in *.
  - zcases; lia.
  - destruct (real_cases x y Ha Hb) as [[E1 E1'] | [[-> E1] | [E1 E1']]]; rewrite ?E1, ?E1'; try done.
    destruct (real_cases y z Hb Hc) as [[E2 E2'] | [[-> E2] | [E2 E2']]]; rewrite ?E2, ?E2', ?E1, ?E1'; try done.
    by rewrite (double_lt_trans x y z).
  - by destruct x, y, z.
  - apply strcmp_trans.
  - apply uuid_compare_trans.
Qed.

Lemma cmp_lt_trans kt a b c : atom_ok kt a -> atom_ok kt b -> atom_ok kt c -> cmp a b < 0 -> cmp b c <= 0 -> cmp a c < 0.
Proof.
  intros Ha Hb Hc H1 H2. assert (cmp a c <= 0) by (apply (cmp_le_trans kt a b c); auto; lia).
  destruct (Z.eq_dec (cmp a c) 0) as [E | E]; [| lia]. apply (cmp_eq kt) in E as <-; [| done..].
  pose proof (cmp_antisym kt a b Ha Hb). rewrite (Z.sgn_neg (cmp a b)) in * by done. lia.
Qed.

Lemma cmp_opp kt a b : atom_ok kt a -> atom_ok kt b -> (cmp a b < 0 <-> 0 < cmp b a).
Proof. intros Ha Hb. pose proof (cmp_antisym kt a b Ha Hb). lia. Qed.

Lemma atom_equals_spec kt a b : atom_ok kt a -> atom_ok kt b -> ovsdb_atom_equals a b = true <-> a = b.
Proof. intros Ha Hb. unfold ovsdb_atom_equals. by rewrite Z.eqb_eq, (cmp_eq kt). Qed.

(** ** Well-formed data *)

(** A key and, in a map, a value. *)
Definition row_ok kt vt r : Prop :=
  atom_ok kt r.1 /\ match r.2 with None => vt = OVSDB_TYPE_VOID | Some v => atom_ok vt v end.

Definition by_key r s : Prop := cmp r.1 s.1 < 0.

Record datum_ok kt vt d : Prop := {
  rows_ok : Forall (row_ok kt vt) d;
  keys_sorted : StronglySorted by_key d;
  length_ok : Z.of_nat (length d) < DATUM_MAX;
}.

Lemma row_ok_fst kt vt d r : Forall (row_ok kt vt) d -> r ∈ d -> atom_ok kt r.1.
Proof. rewrite Forall_forall. intros H Hr. by apply H. Qed.

Lemma sorted_lookup (l : datum) i j r s :
  StronglySorted by_key l -> l !! i = Some r -> l !! j = Some s -> (i < j)%nat -> by_key r s.
Proof.
  intros Hs. revert i j. induction Hs as [| x l Hs IH Hx]; intros i j Hi Hj Hij; [done |].
  destruct j as [| j]; [lia |]. cbn in Hj. destruct i as [| i]; cbn in Hi.
  - injection Hi as <-. rewrite Forall_forall in Hx. apply Hx. by eapply list_elem_of_lookup_2.
  - apply (IH i j); [done | done | lia].
Qed.

Lemma sorted_keys_inj kt vt d r s : Forall (row_ok kt vt) d -> StronglySorted by_key d -> r ∈ d -> s ∈ d -> r.1 = s.1 -> r = s.
Proof.
  intros Hr Hs [i Hi]%list_elem_of_lookup [j Hj]%list_elem_of_lookup E.
  destruct (Nat.lt_trichotomy i j) as [Hij | [-> | Hij]]; [| congruence |].
  all: exfalso; pose proof (row_ok_fst kt vt d s Hr ltac:(by eapply list_elem_of_lookup_2)) as Hok.
  1: pose proof (sorted_lookup d i j r s Hs Hi Hj Hij) as H.
  2: pose proof (sorted_lookup d j i s r Hs Hj Hi Hij) as H.
  all: unfold by_key in H; rewrite E in H; rewrite (proj2 (cmp_eq kt s.1 s.1 Hok Hok) eq_refl) in H; lia.
Qed.

(** A datum is determined by its elements. *)
Lemma datum_ext kt vt d e :
  Forall (row_ok kt vt) d -> StronglySorted by_key d -> Forall (row_ok kt vt) e -> StronglySorted by_key e ->
  (forall r, r ∈ d <-> r ∈ e) -> d = e.
Proof.
  intros Hd Sd. revert e. induction Sd as [| r d Sd IH Hr]; intros e He Se H.
  { destruct e as [| s e]; [done |]. exfalso. apply (not_elem_of_nil s), H. left. }
  destruct Se as [| s e Se Hs]; [exfalso; apply (not_elem_of_nil r), H; left |].
  apply Forall_cons in Hd as [Or Od], He as [Os Oe]. rewrite Forall_forall in Hr, Hs.
  assert (forall t u (l : datum), t ∈ u :: l -> t = u \/ t ∈ l) as Hcons by (intros; by apply elem_of_cons).
  assert (r = s) as ->.
  { destruct (Hcons r s e) as [| H1]; [apply H; left | done |]. destruct (Hcons s r d) as [| H2]; [apply H; left | done |].
    apply Hs in H1. apply Hr in H2. unfold by_key in *. apply (cmp_opp kt) in H1; [lia | apply Os | apply Or]. }
  f_equal. apply IH; [done | done | done |]. intros t. split; intros Ht.
  - destruct (Hcons t s e) as [-> |]; [apply H; by right | | done]. apply Hr in Ht. unfold by_key in Ht.
    apply (cmp_opp kt) in Ht as Ht'; [lia | apply Os | apply Os].
  - destruct (Hcons t s d) as [-> |]; [apply H; by right | | done]. apply Hs in Ht. unfold by_key in Ht.
    apply (cmp_opp kt) in Ht as Ht'; [lia | apply Os | apply Os].
Qed.

(** ** Searching *)

Lemma midpoint_between (low high : nat) : (low < high)%nat -> Z.of_nat high < DATUM_MAX -> (low <= midpoint low high < high)%nat.
Proof.
  unfold midpoint, DATUM_MAX, u32, wrap. intros Hl Hh. rewrite Z.mod_small by lia.
  pose proof (Z.div_lt_upper_bound (Z.of_nat (low + high)) 2 (Z.of_nat high) ltac:(lia) ltac:(lia)).
  pose proof (Z.div_le_lower_bound (Z.of_nat (low + high)) 2 (Z.of_nat low) ltac:(lia) ltac:(lia)). lia.
Qed.

(** In larger data the sum of the bounds wraps around, and the midpoint is outside of them. *)
Lemma midpoint_wraps : midpoint (Z.to_nat DATUM_MAX) (Z.to_nat (DATUM_MAX + 1)) = 0%nat.
Proof. unfold midpoint, DATUM_MAX. rewrite Nat2Z.inj_add, !Z2Nat.id by lia. done. Qed.

Lemma find_key_loop_spec kt vt d k fuel low high :
  Forall (row_ok kt vt) d -> StronglySorted by_key d -> atom_ok kt k ->
  (high - low < fuel)%nat -> (high <= length d)%nat -> Z.of_nat (length d) < DATUM_MAX ->
  (forall i r, d !! i = Some r -> (i < low)%nat -> cmp r.1 k < 0) ->
  (forall i r, d !! i = Some r -> (high <= i)%nat -> cmp k r.1 < 0) ->
  match find_key_loop fuel d k low high with
  | Some i => exists v, d !! i = Some (k, v)
  | None => forall r, r ∈ d -> r.1 <> k
  end.
Proof.
  intros Hr Hs Hk. revert low high. induction fuel as [| fuel IH]; intros low high Hf Hh Hd Hlow Hhigh; [lia |].
  assert (cmp k k = 0) as Hkk by (by apply (cmp_eq kt)).
  cbn [find_key_loop]. destruct (Nat.ltb_spec low high) as [Hl | Hl].
  2: { intros r [i Hi]%list_elem_of_lookup <-. destruct (Nat.lt_ge_cases i low) as [H | H].
       - apply (Hlow i r Hi) in H. lia.
       - specialize (Hhigh i r Hi ltac:(lia)). lia. }
  cbv zeta. pose proof (midpoint_between low high Hl ltac:(lia)) as Hidx. set (idx := midpoint low high) in *.
  destruct (lookup_lt_is_Some_2 d idx ltac:(lia)) as [r Hi]. unfold key_at. rewrite Hi.
  assert (atom_ok kt r.1) as Hr1 by (eapply row_ok_fst; [done | by eapply list_elem_of_lookup_2]).
  assert (forall i s, d !! i = Some s -> atom_ok kt s.1) as Hall by (intros; eapply row_ok_fst; [done | by eapply list_elem_of_lookup_2]).
  destruct (Z.ltb_spec (cmp k r.1) 0) as [Hc | Hc].
  { apply IH; [lia | lia | done | done |]. intros i s Hsi Hge. destruct (decide (i = idx)) as [-> | Hne]; [congruence |].
    apply (cmp_lt_trans kt k r.1 s.1); eauto. pose proof (sorted_lookup d idx i r s Hs Hi Hsi ltac:(lia)) as H. unfold by_key in H. lia. }
  rewrite Z.gtb_ltb. destruct (Z.ltb_spec 0 (cmp k r.1)) as [Hc' | Hc'].
  - apply IH; [lia | lia | done | | done]. intros i s Hsi Hlt.
    assert (cmp r.1 k < 0) by (by apply (cmp_opp kt)). destruct (decide (i = idx)) as [-> | Hne]; [congruence |].
    apply (cmp_lt_trans kt s.1 r.1 k); eauto; [| lia]. apply (sorted_lookup d i idx s r Hs Hsi Hi). lia.
  - assert (k = r.1) as -> by (apply (cmp_eq kt); [done | done | lia]). exists r.2. by destruct r.
Qed.

Lemma find_key_spec kt vt d k :
  datum_ok kt vt d -> atom_ok kt k ->
  match ovsdb_datum_find_key d k with
  | Some i => exists v, d !! i = Some (k, v)
  | None => forall r, r ∈ d -> r.1 <> k
  end.
Proof.
  intros [Hr Hs Hl] Hk. apply (find_key_loop_spec kt vt); [done | done | done | lia | lia | done | intros; lia |].
  intros i r Hi Hge. apply lookup_lt_Some in Hi. lia.
Qed.

(** ** Sorting *)

Abbreviation cb := ovsdb_datum_sort_compare_cb.

Lemma cb_void r s : cb OVSDB_TYPE_VOID r s = cmp r.1 s.1.
Proof. unfold cb. by rewrite bool_decide_true, orb_true_r. Qed.

(** By keys, then by values. *)
Lemma cb_cases kt vt r s :
  row_ok kt vt r -> row_ok kt vt s ->
  cb vt r s <= 0 <-> cmp r.1 s.1 < 0 \/ r.1 = s.1 /\
    match r.2, s.2 with Some v, Some w => cmp v w <= 0 | _, _ => True end.
Proof.
  intros [Hr Hr2] [Hs Hs2]. unfold cb. destruct (Z.eqb_spec (cmp r.1 s.1) 0) as [E | E]; cbn [negb orb].
  - assert (r.1 = s.1) as Ek by (by apply (cmp_eq kt)). destruct r.2 as [v |], s.2 as [w |].
    2: destruct Hr2 as [H _]; rewrite Hs2 in H; by destruct v.
    2: destruct Hs2 as [H _]; rewrite Hr2 in H; by destruct w.
    2: subst vt; rewrite bool_decide_true by done; split; [by right | lia].
    rewrite bool_decide_false by (destruct Hr2 as [<- _]; by destruct v). split; [by right | intros [| []]; [lia | done]].
  - assert (r.1 <> s.1) by (intros H; by apply E, (cmp_eq kt)). split; [left; lia | intros [| []]; [lia | done]].
Qed.

Lemma cb_total kt vt wt : wt = OVSDB_TYPE_VOID \/ wt = vt -> total_on (cb wt) (row_ok kt vt).
Proof.
  intros [-> | ->].
  - split; intros *; rewrite !cb_void.
    + intros [Hr _] [Hs _] H. apply (cmp_opp kt) in H; [lia | done..].
    + intros [Hr _] [Hs _] [Ht _]. by apply (cmp_le_trans kt).
  - split.
    + intros r s Hr Hs H. apply (cb_cases kt); [done | done |].
      assert (~ cb vt r s <= 0) as Hn by lia. rewrite (cb_cases kt) in Hn by done. destruct Hr as [Hr Hr2], Hs as [Hs Hs2].
      destruct (Z.lt_trichotomy (cmp s.1 r.1) 0) as [| [E | Hgt]]; [by left | right |].
      * apply (cmp_eq kt) in E; [| done..]. split; [done |]. destruct r.2 as [v |], s.2 as [w |]; try done.
        destruct (Z.le_gt_cases (cmp v w) 0) as [Hle | Hgt]; [exfalso; apply Hn; by right |].
        apply (cmp_opp vt) in Hgt; [lia | done..].
      * exfalso. apply Hn. left. by apply (cmp_opp kt).
    + intros r s t Hr Hs Ht. rewrite !(cb_cases kt vt) by done. destruct Hr as [Hr Hr2], Hs as [Hs Hs2], Ht as [Ht Ht2].
      intros [H1 | [E1 H1]] [H2 | [E2 H2]]; [left | left | left | right].
      * apply (cmp_lt_trans kt r.1 s.1 t.1); auto; lia.
      * by rewrite <- E2.
      * by rewrite E1.
      * split; [congruence |]. destruct r.2 as [v |], s.2 as [w |], t.2 as [x |]; try done; [by apply (cmp_le_trans vt v w x) |].
        destruct Hr2 as [Hv _]. rewrite Hs2 in Hv. by destruct v.
Qed.

Lemma sort_rows kt vt wt d :
  wt = OVSDB_TYPE_VOID \/ wt = vt -> Forall (row_ok kt vt) d -> Z.of_nat (length d) < DATUM_MAX ->
  let d' := ovsdb_datum_sort__ d wt in
  d' ≡ₚ d /\ StronglySorted (λ r s, cb wt r s <= 0) d' /\ Forall (row_ok kt vt) d'.
Proof.
  intros Hw Hr Hl. unfold ovsdb_datum_sort__. unfold DATUM_MAX in Hl.
  destruct (sorted_by_spec (cb wt) (row_ok kt vt) d) as [Hp Hs]; [by apply cb_total | done | lia |].
  split; [done |]. split; [done |]. by rewrite Hp.
Qed.

Lemma sorted_nodup kt vt d : Forall (row_ok kt vt) d -> StronglySorted by_key d -> NoDup d.*1.
Proof.
  intros Hr Hs. induction Hs as [| r d Hs IH Hb]; cbn; [constructor |]. apply Forall_cons in Hr as [Or Hr]. constructor; [| by apply IH].
  intros (s & E & Hin)%list_elem_of_fmap. rewrite Forall_forall in Hb. apply Hb in Hin. unfold by_key in Hin. rewrite <- E in Hin.
  destruct Or as [Or _]. rewrite (proj2 (cmp_eq kt r.1 r.1 Or Or) eq_refl) in Hin. lia.
Qed.

Lemma has_duplicate_spec kt vt d :
  Forall (row_ok kt vt) d -> StronglySorted (λ r s, cmp r.1 s.1 <= 0) d ->
  if has_duplicate d then ~ NoDup d.*1 else StronglySorted by_key d.
Proof.
  intros Hr Hs. induction Hs as [| r d Hs IH Hb]; cbn [has_duplicate]; [constructor |]. apply Forall_cons in Hr as [Or Hr].
  destruct d as [| s d]; [repeat constructor |]. specialize (IH Hr). apply Forall_cons in Hr as [Os Hr].
  destruct (ovsdb_atom_equals r.1 s.1) eqn:E; cbn [orb].
  - apply (atom_equals_spec kt) in E; [| apply Or | apply Os]. cbn. rewrite E. intros H. inversion H as [| ? ? Hn]. apply Hn. left.
  - destruct (has_duplicate (s :: d)); [intros H; apply IH; by inversion H |].
    apply Forall_cons in Hb as [Hrs Hb]. assert (by_key r s) as Hlt.
    { unfold by_key. destruct (Z.eq_dec (cmp r.1 s.1) 0) as [Ez | Ez]; [| lia].
      unfold ovsdb_atom_equals in E. by rewrite Ez in E. }
    constructor; [done |]. constructor; [done |]. inversion_clear IH as [| ? ? _ Hsd]. rewrite Forall_forall in Hsd, Hr |- *.
    intros t Ht. apply (cmp_lt_trans kt r.1 s.1 t.1); [apply Or | apply Os | by apply Hr | done |].
    specialize (Hsd t Ht). unfold by_key in Hsd. lia.
Qed.

(** Sorting restores the order, and fails exactly if two keys are the same. *)
Lemma datum_sort_spec kt vt d d' error :
  Forall (row_ok kt vt) d -> Z.of_nat (length d) < DATUM_MAX -> ovsdb_datum_sort d = (d', error) ->
  d' ≡ₚ d /\ (error = None /\ NoDup d.*1 /\ StronglySorted by_key d' \/ is_Some error /\ ~ NoDup d.*1).
Proof.
  intros Hr Hl. unfold ovsdb_datum_sort. destruct (Nat.ltb_spec (length d) 2) as [Hlt | Hge].
  - intros [= <- <-]. split; [done |]. left. split; [done |].
    destruct d as [| r [| s d]]; cbn in *; [| | lia]; split; repeat constructor. apply not_elem_of_nil.
  - destruct (sort_rows kt vt OVSDB_TYPE_VOID d (or_introl eq_refl) Hr Hl) as (Hp & Hs & Hr').
    intros [= <- <-]. split; [done |]. set (d' := ovsdb_datum_sort__ d OVSDB_TYPE_VOID) in *.
    assert (StronglySorted (λ r s, cmp r.1 s.1 <= 0) d') as Hs'.
    { clear -Hs. induction Hs as [| r l _ IH Hf]; constructor; [done |]. eapply Forall_impl; [exact Hf |].
      intros s. cbv beta. by rewrite cb_void. }
    pose proof (has_duplicate_spec kt vt d' Hr' Hs') as Hd. assert (d'.*1 ≡ₚ d.*1) as Hp1 by (by rewrite Hp).
    destruct (has_duplicate d'); [right | left].
    + split; [done |]. by rewrite <- Hp1.
    + split; [done |]. split; [| done]. rewrite <- Hp1. by apply (sorted_nodup kt vt).
Qed.

Lemma sort_distinct kt vt d :
  Forall (row_ok kt vt) d -> Z.of_nat (length d) < DATUM_MAX -> NoDup d.*1 ->
  exists d', ovsdb_datum_sort d = (d', None) /\ d' ≡ₚ d /\ datum_ok kt vt d'.
Proof.
  intros Hr Hl Hn. destruct (ovsdb_datum_sort d) as [d' error] eqn:E.
  apply (datum_sort_spec kt vt) in E as (Hp & [(-> & _ & Hs) | [_ ?]]); [| done | done | done].
  exists d'. split; [done |]. split; [done |]. split; [by rewrite Hp | done | by rewrite Hp].
Qed.

Lemma sort_assert_distinct kt vt d :
  Forall (row_ok kt vt) d -> Z.of_nat (length d) < DATUM_MAX -> NoDup d.*1 ->
  exists d', ovsdb_datum_sort_assert d = Some d' /\ d' ≡ₚ d /\ datum_ok kt vt d'.
Proof.
  intros Hr Hl Hn. destruct (sort_distinct kt vt d Hr Hl Hn) as (d' & E & H). exists d'. unfold ovsdb_datum_sort_assert. by rewrite E.
Qed.

End datum.
End OvsdbDatum.
