(* ===== verification/OvsdbSets.v ===== *)
(** Data as finite sets and maps, continued: searching, union, subtraction, comparison and
    differences, against the elements of the data. *)
From stdpp Require Import gmap sorting.
From S2P Require Import Prelude Text Unicode Containers Shash Json JsonLex Sort Uuid OvsdbTypes OvsdbData OvsdbDatum.

Module OvsdbSets.
Export OvsdbDatum.

Section sets.
Context {R : Type} {D : Double R} {DO : DoubleOrder R} {Dok : DoubleOk R} {So : Sorting} {Sok : SortingOk So}.

Abbreviation atom := (ovsdb_atom R).
Abbreviation datum := (ovsdb_datum R).
Abbreviation row := (atom * option atom)%type.
Implicit Types (a b d e old new : datum) (r s : row) (kt vt : ovsdb_atomic_type) (ty : ovsdb_type R) (k : atom).

(** Rows of a type, data of a type. *)
Definition row_of ty r : Prop := row_ok (type (key ty)) (type (value ty)) r.
Definition ok ty d : Prop := datum_ok (type (key ty)) (type (value ty)) d.

(** The same type, with only the keys compared. *)
Definition keys_only ty ty' : Prop := type (key ty') = type (key ty) /\ type (value ty') = OVSDB_TYPE_VOID.
Definition same_types ty ty' : Prop := type (key ty') = type (key ty) /\ type (value ty') = type (value ty).

Lemma ok_rows ty d : ok ty d -> Forall (row_of ty) d.
Proof. apply rows_ok. Qed.

Lemma find_key_some ty d k :
  ok ty d -> atom_ok (type (key ty)) k -> is_Some (ovsdb_datum_find_key d k) <-> k ∈ d.*1.
Proof.
  intros Hd Hk. pose proof (find_key_spec _ _ d k Hd Hk) as H. destruct Hd as [Hr Hs _]. destruct (ovsdb_datum_find_key d k) as [i |].
  - destruct H as [v Hv]. split; [intros _ | done]. apply list_elem_of_fmap. exists (k, v). split; [done |]. by eapply list_elem_of_lookup_2.
  - split; [by intros [? [=]] |]. intros (r & -> & Hin)%list_elem_of_fmap. by apply H in Hin.
Qed.

Lemma values_equal_spec vt (v w : option atom) :
  match v with None => vt = OVSDB_TYPE_VOID | Some v => atom_ok vt v end ->
  match w with None => vt = OVSDB_TYPE_VOID | Some w => atom_ok vt w end -> values_equal v w = true <-> v = w.
Proof.
  intros Hv Hw. destruct v as [v |], w as [w |]; cbn [values_equal].
  - rewrite (atom_equals_spec vt) by done. split; [by intros -> | by intros [= ->]].
  - destruct Hv as [Hv _]. subst vt. by destruct v.
  - destruct Hw as [Hw _]. subst vt. by destruct w.
  - done.
Qed.

Lemma find_some ty ty' d r :
  ok ty d -> row_of ty r -> same_types ty ty' -> is_Some (ovsdb_datum_find r d ty') <-> r ∈ d.
Proof.
  intros Hd [Hr Hr2] [_ Ev]. unfold ovsdb_datum_find, ovsdb_datum_find_key_value. rewrite Ev.
  pose proof (find_key_spec _ _ d r.1 Hd Hr) as H. destruct Hd as [Hrows Hs Hl].
  destruct (ovsdb_datum_find_key d r.1) as [i |]; cbn [mbind option_bind].
  2: { split; [by intros [? [=]] |]. intros Hin. by apply H in Hin. }
  destruct H as [v Hv]. unfold value_at. rewrite Hv. cbn [mbind option_bind snd].
  assert (row_ok (type (key ty)) (type (value ty)) (r.1, v)) as [_ Ov]
    by (rewrite Forall_forall in Hrows; apply Hrows; by eapply list_elem_of_lookup_2).
  pose proof (values_equal_spec _ v r.2 Ov Hr2) as He.
  assert (v = r.2 <-> r ∈ d) as Hiff.
  { split; [intros ->; apply list_elem_of_lookup; exists i; by destruct r |]. intros Hin.
    assert ((r.1, v) = r) as E by (eapply sorted_keys_inj; [done | done | by eapply list_elem_of_lookup_2 | done | done]). by rewrite <- E. }
  rewrite <- Hiff. destruct (values_equal v r.2); cbn [negb].
  - rewrite andb_false_r. split; [intros _; by apply He | done].
  - assert (v <> r.2) as Hne by (intros E; by apply He in E). destruct (bool_decide _) eqn:Eb; cbn; [| split; [by intros [? [=]] | done]].
    apply bool_decide_eq_true in Eb. exfalso. apply Hne. cbn in Ov. rewrite Eb in Ov, Hr2.
    destruct v as [v |]; [destruct Ov as [Ov _]; by destruct v |].
    destruct r.2 as [w |]; [destruct Hr2 as [Hw _]; by destruct w | done].
Qed.

Lemma find_key_only ty d r :
  ok ty d -> atom_ok (type (key ty)) r.1 -> type (value ty) = OVSDB_TYPE_VOID ->
  is_Some (ovsdb_datum_find r d ty) <-> r.1 ∈ d.*1.
Proof.
  intros Hd Hr Ev. unfold ovsdb_datum_find, ovsdb_datum_find_key_value. rewrite Ev, bool_decide_true by done. cbn [negb andb].
  rewrite <- (find_key_some ty) by done. by destruct (ovsdb_datum_find_key d r.1).
Qed.

(** Membership is decidable although equality of floating-point numbers need not be. *)
Lemma in_dec_row ty d r : ok ty d -> row_of ty r -> r ∈ d \/ r ∉ d.
Proof.
  intros Hd Hr. pose proof (find_some ty ty d r Hd Hr (conj eq_refl eq_refl)) as H.
  destruct (ovsdb_datum_find r d ty); [left; by apply H | right]. intros Hin%H. by destruct Hin.
Qed.

Lemma in_dec_key ty d k : ok ty d -> atom_ok (type (key ty)) k -> k ∈ d.*1 \/ k ∉ d.*1.
Proof.
  intros Hd Hk. pose proof (find_key_some ty d k Hd Hk) as H.
  destruct (ovsdb_datum_find_key d k); [left; by apply H | right]. intros Hin%H. by destruct Hin.
Qed.

Lemma ok_key_inj ty d r s : ok ty d -> r ∈ d -> s ∈ d -> r.1 = s.1 -> r = s.
Proof. intros [Hr Hs _]. by apply (sorted_keys_inj _ _ d _ _ Hr Hs). Qed.

Lemma in_key d r : r ∈ d -> r.1 ∈ d.*1.
Proof. intros H. apply list_elem_of_fmap. by exists r. Qed.

(** ** Inclusion *)

Lemma includes_spec ty a b : ok ty a -> ok ty b -> ovsdb_datum_includes_all a b ty = true <-> (forall r, r ∈ a -> r ∈ b).
Proof.
  intros Ha Hb. unfold ovsdb_datum_includes_all. rewrite andb_true_iff, forallb_forall.
  assert (forall r, In r a -> is_Some (ovsdb_datum_find r b ty) <-> r ∈ b) as Hf.
  { intros r Hr. apply (find_some ty); [done | | done]. pose proof (ok_rows ty a Ha) as Hok. rewrite Forall_forall in Hok. by apply Hok, list_elem_of_In. }
  split.
  - intros [_ H] r Hr. apply list_elem_of_In in Hr. apply (Hf r Hr). specialize (H r Hr). by apply bool_decide_eq_true in H.
  - intros H. split.
    + apply negb_true_iff, Nat.ltb_ge. apply submseteq_length, NoDup_submseteq; [| done].
      apply (NoDup_fmap_1 fst). apply (sorted_nodup (type (key ty)) (type (value ty))); apply Ha.
    + intros r Hr. apply bool_decide_eq_true, Hf; [done |]. by apply H, list_elem_of_In.
Qed.

Lemma excludes_spec ty a b : ok ty a -> ok ty b -> ovsdb_datum_excludes_all a b ty = true <-> (forall r, r ∈ a -> r ∉ b).
Proof.
  intros Ha Hb. unfold ovsdb_datum_excludes_all. rewrite forallb_forall. pose proof (ok_rows ty a Ha) as Hok. rewrite Forall_forall in Hok.
  split; intros H r Hr.
  - apply list_elem_of_In in Hr as Hr'. specialize (H r Hr'). apply negb_true_iff, bool_decide_eq_false in H.
    by rewrite (find_some ty ty) in H by (auto; done).
  - apply negb_true_iff, bool_decide_eq_false. apply list_elem_of_In in Hr.
    rewrite (find_some ty ty) by (auto; done). by apply H.
Qed.
(** ** Union *)

Lemma key_at_fst d i : key_at d i = default (ATOM_INTEGER 0) (d.*1 !! i).
Proof. unfold key_at. rewrite list_lookup_fmap. by destruct (d !! i). Qed.

(** Searching depends on the keys only. *)
Lemma find_key_ext d e k : d.*1 = e.*1 -> ovsdb_datum_find_key d k = ovsdb_datum_find_key e k.
Proof.
  intros H. unfold ovsdb_datum_find_key. assert (length d = length e) as -> by (by rewrite <- (length_fmap fst d), H, length_fmap).
  generalize (S (length e)) as fuel. generalize 0%nat as low, (length e) as high. intros low high fuel. revert low high.
  induction fuel as [| fuel IH]; intros low high; cbn [find_key_loop]; [done |]. destruct (_ <? _)%nat; [| done]. cbv zeta.
  rewrite !key_at_fst, H. destruct (_ <? 0); [apply IH |]. destruct (_ >? 0); [apply IH | done].
Qed.

Lemma row_void ty r : row_of ty r -> (if is_void (value ty) then None else r.2) = r.2.
Proof.
  intros [_ H]. unfold is_void. case_bool_decide as E; [| done]. rewrite E in H.
  destruct r.2 as [v |]; [| done]. destruct H as [H _]. by destruct v.
Qed.

(** What is in [a] and in [new] after the entries [p] of the second datum. *)
Record union_inv (replace : bool) a p a' new : Prop := {
  union_keys : a'.*1 = a.*1;
  union_a : forall r, r ∈ a' <-> if replace then r ∈ p /\ r.1 ∈ a.*1 \/ r ∈ a /\ r.1 ∉ p.*1 else r ∈ a;
  union_new : forall r, r ∈ new <-> r ∈ p /\ r.1 ∉ a.*1;
  union_nodup : NoDup new.*1;
  union_length : (length new <= length p)%nat;
}.

Lemma alter_row a i r s :
  NoDup a.*1 -> a !! i = Some s -> s.1 = r.1 ->
  (alter (λ s : row, (s.1, r.2)) i a).*1 = a.*1 /\
  forall t, t ∈ alter (λ s : row, (s.1, r.2)) i a <-> t = r \/ t ∈ a /\ t.1 <> r.1.
Proof.
  intros Hn Hi Hs. split.
  - apply list_eq. intros j. rewrite !list_lookup_fmap. destruct (decide (j = i)) as [-> |].
    + by rewrite list_lookup_alter_eq, Hi.
    + by rewrite list_lookup_alter_ne.
  - intros t. split.
    + intros [j Hj]%list_elem_of_lookup. destruct (decide (j = i)) as [-> | Hne].
      * rewrite list_lookup_alter_eq, Hi in Hj. injection Hj as <-. left. rewrite Hs. by destruct r.
      * rewrite list_lookup_alter_ne in Hj by done. right. split; [by eapply list_elem_of_lookup_2 |].
        intros E. apply Hne. eapply (NoDup_lookup _ _ _ r.1 Hn); rewrite list_lookup_fmap; [by rewrite Hj, <- E | by rewrite Hi, <- Hs].
    + intros [-> | [[j Hj]%list_elem_of_lookup Hne]].
      * apply (list_elem_of_lookup_2 _ i). rewrite list_lookup_alter_eq, Hi. cbn. rewrite Hs. by destruct r.
      * apply (list_elem_of_lookup_2 _ j). rewrite list_lookup_alter_ne; [done |]. intros ->. congruence.
Qed.

Lemma union_step_inv ty replace a p a' new r :
  ok ty a -> row_of ty r -> r.1 ∉ p.*1 ->
  union_inv (replace && negb (is_void (value ty))) a p a' new ->
  let '(a'', new') := union_step ty replace (a', new) r in
  union_inv (replace && negb (is_void (value ty))) a (p ++ [r]) a'' new'.
Proof.
  intros Ha Hr Hfresh [Hk Hia Hin Hnd Hlen].
  assert (forall s, s ∈ p ++ [r] <-> s ∈ p \/ s = r) as Hsnoc by (intros; by rewrite elem_of_app, list_elem_of_singleton).
  assert (forall k, k ∈ (p ++ [r]).*1 <-> k ∈ p.*1 \/ k = r.1) as Hsnoc1
    by (intros; rewrite fmap_app, elem_of_app; change ([r].*1) with [r.1]; by rewrite list_elem_of_singleton).
  assert (NoDup a.*1) as Hna by (apply (sorted_nodup (type (key ty)) (type (value ty))); apply Ha).
  cbn [union_step]. rewrite (find_key_ext a' a), row_void by done.
  pose proof (find_key_some ty a r.1 Ha (proj1 Hr)) as Hf.
  pose proof (find_key_spec _ _ a r.1 Ha (proj1 Hr)) as Hfs.
  destruct (ovsdb_datum_find_key a r.1) as [i |].
  - assert (r.1 ∈ a.*1) as Hina by (by apply Hf). destruct Hfs as [v Hv].
    assert (exists s, a' !! i = Some s /\ s.1 = r.1) as (s & Hs & Es).
    { assert (a'.*1 !! i = Some r.1) as H by (rewrite Hk, list_lookup_fmap, Hv; done). rewrite list_lookup_fmap in H.
      destruct (a' !! i) as [s |]; [| done]. injection H as H. by exists s. }
    rewrite <- Hk in Hna. destruct (alter_row a' i r s Hna Hs Es) as [Hk' Hmem].
    destruct (replace && negb (is_void (value ty))); (split; [| | | done | rewrite length_app; lia]).
    + congruence.
    + intros t. rewrite Hmem, Hsnoc, Hsnoc1, Hia. pose proof (in_key p t). split.
      * intros [-> | [[[? ?] | [? ?]] ?]]; [left; auto | left; auto | right]. split; [done |]. by intros [].
      * intros [[[? | ->] ?] | [? Hno]]; [right; split; [left; auto |] | by left | right; split; [right |]; auto].
        intros E. apply Hfresh. rewrite <- E. auto.
    + intros t. rewrite Hin, Hsnoc. split; [intros []; auto | intros [[? | ->] ?]; done].
    + done.
    + done.
    + intros t. rewrite Hin, Hsnoc. split; [intros []; auto | intros [[? | ->] ?]; done].
  - assert (r.1 ∉ a.*1) as Hnot by (intros H; apply Hf in H; by destruct H).
    split; [done | | | | rewrite !length_app; cbn; lia].
    + intros t. rewrite Hia. pose proof (in_key a t).
      destruct (replace && negb (is_void (value ty))); [| done]. rewrite Hsnoc, Hsnoc1. split.
      * intros [[? ?] | [? ?]]; [left; auto | right]. split; [done |]. intros [| E]; [done |]. apply Hnot. rewrite <- E. auto.
      * intros [[[? | ->] ?] | [? Hno]]; [left; auto | done | right; auto].
    + intros t. rewrite elem_of_app, list_elem_of_singleton, Hin, Hsnoc, <- surjective_pairing.
      split; [intros [[] | ->]; auto | intros [[? | ->] ?]; auto].
    + rewrite fmap_app. apply NoDup_app. split; [done |]. split; [| by apply NoDup_singleton].
      intros k (t & -> & Ht)%list_elem_of_fmap Hk1. apply list_elem_of_singleton in Hk1. cbn in Hk1.
      apply Hin in Ht as [Ht _]. apply Hfresh. rewrite <- Hk1. by apply in_key.
Qed.

Lemma union_fold ty replace a p :
  ok ty a -> Forall (row_of ty) p -> NoDup p.*1 ->
  let '(a', new) := foldl (union_step ty replace) (a, []) p in
  union_inv (replace && negb (is_void (value ty))) a p a' new.
Proof.
  intros Ha. induction p as [| r p IH] using rev_ind; intros Hp Hn.
  - cbn. split; [done | | | constructor | done].
    + intros r. destruct (_ && _); [| done]. cbn. split; [right; split; [done | apply not_elem_of_nil] |].
      intros [[[]%not_elem_of_nil _] | []]. done.
    + intros r. split; [by intros []%not_elem_of_nil | by intros [[]%not_elem_of_nil _]].
  - apply Forall_app in Hp as [Hp [Hr _]%Forall_cons]. rewrite fmap_app in Hn. apply NoDup_app in Hn as (Hn & Hdisj & _).
    rewrite foldl_snoc. specialize (IH Hp Hn). destruct (foldl _ _ p) as [a' new].
    apply union_step_inv; [done | done | | done]. intros H. apply (Hdisj _ H). left.
Qed.

Lemma sorted_keys_ext d e : d.*1 = e.*1 -> StronglySorted by_key d -> StronglySorted by_key e.
Proof.
  intros H Hs. revert e H. induction Hs as [| r d Hs IH Hr]; intros [| s e] [=]; constructor; [by apply IH |].
  assert (Forall (λ k, ovsdb_atom_compare_3way s.1 k < 0) e.*1) as H; [| by apply Forall_fmap in H].
  change (Forall (λ k, ovsdb_atom_compare_3way s.1 k < 0) (list_fmap row atom fst e)). rewrite <- H1, <- H0.
  change (Forall (λ k, ovsdb_atom_compare_3way r.1 k < 0) d.*1). by apply Forall_fmap.
Qed.

Lemma same_row ty r s : is_void (value ty) = true -> row_of ty r -> row_of ty s -> r.1 = s.1 -> r = s.
Proof.
  intros Hv Hr%row_void Hs%row_void E. rewrite Hv in Hr, Hs. destruct r, s. cbn in *. congruence.
Qed.

(** The union has the elements of both data; of a key that both have, the value is the one of
    the second datum if [replace]. *)
Lemma union_spec ty replace a b :
  ok ty a -> ok ty b -> Z.of_nat (length a + length b) < DATUM_MAX ->
  exists d, ovsdb_datum_union a b ty replace = Some d /\ ok ty d /\
    forall r, r ∈ d <-> if replace then r ∈ b \/ r ∈ a /\ r.1 ∉ b.*1 else r ∈ a \/ r ∈ b /\ r.1 ∉ a.*1.
Proof.
  intros Ha Hb Hl. pose proof (ok_rows ty a Ha) as Ra. pose proof (ok_rows ty b Hb) as Rb.
  assert (NoDup b.*1) as Nb by (apply (sorted_nodup (type (key ty)) (type (value ty))); apply Hb).
  pose proof (union_fold ty replace a b Ha Rb Nb) as H. unfold ovsdb_datum_union.
  destruct (foldl (union_step ty replace) (a, []) b) as [a' new]. destruct H as [Hk Hia Hin Hnd Hlen].
  rewrite Forall_forall in Ra, Rb.
  assert (forall r, r ∈ a' \/ r ∈ new -> row_of ty r) as Hrows.
  { intros r [Hr | [Hr _]%Hin]; [| auto]. apply Hia in Hr. destruct (_ && _); [destruct Hr as [[] | []] |]; auto. }
  assert (forall r, r ∈ a' \/ r ∈ new <-> if replace then r ∈ b \/ r ∈ a /\ r.1 ∉ b.*1 else r ∈ a \/ r ∈ b /\ r.1 ∉ a.*1) as Hmem.
  { intros r. rewrite Hin, Hia. pose proof (in_key a r). pose proof (in_key b r).
    destruct replace; cbn [andb]; [| done]. destruct (is_void (value ty)) eqn:Ev; cbn [negb].
    - split.
      + intros [Hr | []]; [| by left]. destruct (in_dec_key ty b r.1 Hb (proj1 (Ra r Hr))) as [(s & E & Hs)%list_elem_of_fmap | ?]; [| by right].
        left. by rewrite (same_row ty r s) by auto.
      + intros [Hr | []]; [| by left]. destruct (in_dec_key ty a r.1 Ha (proj1 (Rb r Hr))) as [(s & E & Hs)%list_elem_of_fmap | ?]; [| by right].
        left. by rewrite (same_row ty r s) by auto.
    - split; [tauto |]. intros [Hr | []]; [| tauto]. destruct (in_dec_key ty a r.1 Ha (proj1 (Rb r Hr))); tauto. }
  assert (length a' = length a) as Hla by (by rewrite <- (length_fmap fst a'), Hk, length_fmap).
  destruct new as [| s new].
  - exists a'. split; [done |]. split.
    + split; [apply Forall_forall; intros r ?; apply Hrows; auto | apply (sorted_keys_ext a); [done | apply Ha] | lia].
    + intros r. rewrite <- Hmem. pose proof (not_elem_of_nil r). tauto.
  - set (new' := s :: new) in *. destruct (sort_distinct (type (key ty)) (type (value ty)) (a' ++ new')) as (d & E & Hp & Hok).
    + apply Forall_forall. intros r Hr%elem_of_app. by apply Hrows.
    + rewrite length_app. lia.
    + rewrite fmap_app, Hk. apply NoDup_app. split; [apply (sorted_nodup (type (key ty)) (type (value ty))); apply Ha |]. split; [| done].
      intros k Hk1 (r & -> & Hr)%list_elem_of_fmap. apply Hin in Hr. tauto.
    + exists d. rewrite E. split; [done |]. split; [done |]. intros r. by rewrite Hp, elem_of_app, Hmem.
Qed.

(** ** Subtraction *)

Lemma remove_unsafe_perm d i r :
  d !! i = Some r ->
  drop i d ≡ₚ r :: drop i (ovsdb_datum_remove_unsafe d i) /\ take i (ovsdb_datum_remove_unsafe d i) = take i d /\
  length (ovsdb_datum_remove_unsafe d i) = (length d - 1)%nat.
Proof.
  intros Hi. unfold ovsdb_datum_remove_unsafe. pose proof (lookup_lt_Some _ _ _ Hi) as Hlt.
  destruct d as [| s d _] using rev_ind; [done |]. rewrite last_snoc, length_app in *. cbn [length] in *.
  replace (length d + 1 - 1)%nat with (length d) by lia.
  destruct (decide (i = length d)) as [-> | Hne].
  - rewrite list_lookup_middle in Hi by done. injection Hi as <-.
    rewrite list_insert_id by (by rewrite list_lookup_middle). rewrite take_app_length, drop_app_length, drop_all, firstn_all.
    split; [done |]. split; [done | lia].
  - rewrite lookup_app_l in Hi by lia. rewrite insert_app_l by lia. rewrite take_app_exact by (by rewrite length_insert).
    apply list_elem_of_split_length in Hi as (d1 & d2 & -> & ->). rewrite insert_middle by done.
    rewrite <- app_assoc, !take_app_length, !drop_app_length, !length_app. cbn [app length].
    split; [solve_Permutation | done].
Qed.

#[local] Instance bool_filter_perm {A} (f : A -> bool) : Proper (Permutation ==> Permutation) (List.filter f).
Proof.
  intros l l' H. induction H as [| x l l' H IH | x y l | l1 l2 l3 H1 IH1 H2 IH2]; cbn; [done | | | by rewrite IH1].
  - by destruct (f x); rewrite IH.
  - destruct (f x), (f y); [constructor | done..].
Qed.

Lemma subtract_loop_spec bty b fuel a i changed a' changed' :
  (length a - i <= fuel)%nat -> subtract_loop fuel a b bty i changed = (a', changed') ->
  a' ≡ₚ take i a ++ List.filter (λ r, negb (bool_decide (is_Some (ovsdb_datum_find r b bty)))) (drop i a) /\
  (changed' = true \/ changed' = changed /\ a' = a).
Proof.
  revert a i changed. induction fuel as [| fuel IH]; intros a i changed Hf; cbn [subtract_loop].
  { intros [= <- <-]. rewrite firstn_all2, drop_ge by lia. cbn. rewrite app_nil_r. auto. }
  destruct (a !! i) as [r |] eqn:Hi.
  2: { apply lookup_ge_None in Hi. intros [= <- <-]. rewrite firstn_all2, drop_ge by lia. cbn. rewrite app_nil_r. auto. }
  pose proof (lookup_lt_Some _ _ _ Hi) as Hlt.
  destruct (ovsdb_datum_find r b bty) as [j |] eqn:Ef.
  - destruct (remove_unsafe_perm a i r Hi) as (Hp & Ht & Hl). intros E.
    apply IH in E as [Hp' Hc]; [| lia]. split; [| left; destruct Hc as [| []]; done].
    rewrite Hp', Ht. f_equiv. rewrite Hp. cbn [List.filter]. rewrite Ef. done.
  - intros E. apply IH in E as [Hp' Hc]; [| lia]. split; [| done].
    rewrite Hp', (drop_S a r i Hi). cbn [List.filter]. rewrite Ef, (take_S_r _ _ r) by done. cbn. by rewrite <- app_assoc.
Qed.

(** Removes the elements of the second datum, or those with one of its keys. *)
Lemma subtract_spec ty bty a b :
  ok ty a -> same_types ty bty /\ ok ty b \/ keys_only ty bty /\ ok bty b ->
  exists d, ovsdb_datum_subtract a ty b bty = Some d /\ ok ty d /\
    forall r, r ∈ d <-> r ∈ a /\ ~ is_Some (ovsdb_datum_find r b bty).
Proof.
  intros Ha Hty. unfold ovsdb_datum_subtract.
  assert (type (key ty) = type (key bty)) as Ek by (destruct Hty as [[[? _] _] | [[? _] _]]; done).
  rewrite bool_decide_true by done. cbn [negb].
  assert (bool_decide (type (value ty) = type (value bty)) || is_void (value bty) = true) as ->.
  { destruct Hty as [[[_ E] _] | [[_ E] _]]; [by rewrite bool_decide_true | unfold is_void; rewrite E; apply orb_true_r]. }
  cbn [negb]. destruct (subtract_loop _ _ _ _ _ _) as [a' changed] eqn:E.
  apply subtract_loop_spec in E as [Hp Hc]; [| lia]. rewrite take_0, drop_0 in Hp. cbn [app] in Hp.
  assert (forall r, r ∈ a' <-> r ∈ a /\ ~ is_Some (ovsdb_datum_find r b bty)) as Hmem.
  { intros r. rewrite Hp, list_elem_of_In, filter_In, <- list_elem_of_In, negb_true_iff. by rewrite bool_decide_eq_false. }
  assert (Forall (row_of ty) a') as Hr.
  { pose proof (ok_rows ty a Ha) as Hok. rewrite Forall_forall in Hok |- *. intros r [Hr _]%Hmem. auto. }
  assert (length a' <= length a)%nat as Hl by (rewrite Hp; apply filter_length_le).
  destruct Ha as [Ra Sa La]. destruct changed.
  - destruct (sort_assert_distinct (type (key ty)) (type (value ty)) a') as (d & -> & Hpd & Hok); [done | lia | |].
    + rewrite Hp. apply (sublist_NoDup _ a.*1); [by apply (sorted_nodup (type (key ty)) (type (value ty))) |].
      clear. induction a as [| r a IH]; cbn; [done |]. destruct (negb _); cbn; by constructor.
    + exists d. split; [done |]. split; [done |]. intros r. by rewrite Hpd.
  - destruct Hc as [| [_ ->]]; [done |]. exists a. split; [done |]. split; [by split | done].
Qed.

(** ** Comparison *)

Lemma arrays_compare_eq kt (l m : list atom) :
  Forall (atom_ok kt) l -> Forall (atom_ok kt) m -> length l = length m -> atom_arrays_compare_3way l m = 0 <-> l = m.
Proof.
  intros Hl. revert m. induction Hl as [| x l Hx Hl IH]; intros [| y m] Hm [=]; cbn [atom_arrays_compare_3way]; [done |].
  apply Forall_cons in Hm as [Hy Hm]. destruct (Z.eqb_spec (ovsdb_atom_compare_3way x y) 0) as [E | E]; cbn [negb].
  - apply (cmp_eq kt) in E as ->; [| done..]. rewrite IH by done. split; congruence.
  - split; [done |]. intros [= -> _]. exfalso. by apply E, (cmp_eq kt).
Qed.

Lemma values_ok ty d : ok ty d ->
  if is_void (value ty) then forall r, r ∈ d -> r.2 = None
  else Forall (atom_ok (type (value ty))) (values_of d) /\ d.*2 = Some <$> values_of d.
Proof.
  intros Hd%ok_rows. destruct (is_void (value ty)) eqn:Ev.
  { rewrite Forall_forall in Hd. intros r Hr. specialize (row_void ty r (Hd r Hr)). by rewrite Ev. }
  unfold values_of. induction Hd as [| [k v] d [_ Hr] Hd [IH1 IH2]]; cbn; [split; [constructor | done] |].
  cbn in Hr. destruct v as [v |].
  - split; [by constructor |]. cbn. f_equal. apply IH2.
  - unfold is_void in Ev. by rewrite Hr, bool_decide_true in Ev.
Qed.

Lemma equals_spec ty a b : ok ty a -> ok ty b -> ovsdb_datum_equals a b ty = true <-> a = b.
Proof.
  intros Ha Hb. unfold ovsdb_datum_equals, ovsdb_datum_compare_3way. rewrite Z.eqb_eq.
  assert (forall d, ok ty d -> Forall (atom_ok (type (key ty))) d.*1) as Hk.
  { intros d Hd%ok_rows. apply Forall_fmap. eapply Forall_impl; [exact Hd |]. by intros r [H _]. }
  destruct (Nat.eqb_spec (length a) (length b)) as [Hl | Hl]; cbn [negb].
  2: { split; [destruct (_ <? _)%nat; lia | by intros ->]. }
  pose proof (arrays_compare_eq _ a.*1 b.*1 (Hk a Ha) (Hk b Hb) ltac:(by rewrite !length_fmap)) as E1.
  destruct (Z.eqb_spec (atom_arrays_compare_3way a.*1 b.*1) 0) as [E | E]; cbn [negb].
  2: { split; [done |]. intros ->. exfalso. apply E. by apply E1. }
  apply E1 in E. pose proof (values_ok ty a Ha) as Va. pose proof (values_ok ty b Hb) as Vb.
  assert (a.*2 = b.*2 -> a = b) as Heq.
  { clear -E. revert b E. induction a as [| [k v] a IH]; intros [| [k' v'] b] [=] [=]; [done |]. subst. f_equal. by apply IH. }
  destruct (is_void (value ty)).
  - split; [intros _ | done]. apply Heq. clear -Va Vb Hl. apply list_eq. intros i. rewrite !list_lookup_fmap.
    destruct (a !! i) as [r |] eqn:E1, (b !! i) as [s |] eqn:E2; cbn; [| | | done].
    + by rewrite (Va r), (Vb s) by (by eapply list_elem_of_lookup_2).
    + apply lookup_lt_Some in E1. apply lookup_ge_None in E2. lia.
    + apply lookup_lt_Some in E2. apply lookup_ge_None in E1. lia.
  - destruct Va as [Va Ea], Vb as [Vb Eb]. rewrite (arrays_compare_eq (type (value ty))); [| done | done |].
    + split; [intros H; apply Heq; by rewrite Ea, Eb, H | by intros ->].
    + rewrite <- (length_fmap (@Some atom) (values_of a)), <- (length_fmap (@Some atom) (values_of b)), <- Ea, <- Eb. by rewrite !length_fmap.
Qed.

(** ** Differences *)

Lemma drop_value_id ty r : row_of ty r -> drop_value ty r = r.
Proof. intros H. unfold drop_value. rewrite row_void by done. by destruct r. Qed.

Lemma drop_values_id ty d : Forall (row_of ty) d -> List.map (drop_value ty) d = d.
Proof. induction 1 as [| r d Hr _ IH]; cbn; [done |]. by rewrite drop_value_id, IH. Qed.

Lemma diff_loop_cons ty o old n new :
  row_of ty o -> row_of ty n ->
  diff_loop ty (o :: old) (n :: new) =
    let c := ovsdb_atom_compare_3way o.1 n.1 in
    if c <? 0 then o :: diff_loop ty old (n :: new)
    else if c >? 0 then n :: diff_loop ty (o :: old) new
    else (if negb (is_void (value ty)) && negb (values_equal o.2 n.2) then [n] else []) ++ diff_loop ty old new.
Proof. intros Ho Hn. cbn [diff_loop]. by rewrite !(drop_value_id ty o), !(drop_value_id ty n). Qed.

Lemma above_not_in kt vt d r : row_ok kt vt r -> Forall (row_ok kt vt) d -> Forall (by_key r) d -> r.1 ∉ d.*1.
Proof.
  intros Hr Hd Hf (s & E & Hs)%list_elem_of_fmap. rewrite Forall_forall in Hf. apply Hf in Hs. unfold by_key in Hs. rewrite <- E in Hs.
  destruct Hr as [Hr _]. rewrite (proj2 (cmp_eq kt r.1 r.1 Hr Hr) eq_refl) in Hs. lia.
Qed.

Lemma by_key_trans kt vt r s d :
  row_ok kt vt r -> row_ok kt vt s -> Forall (row_ok kt vt) d -> by_key r s -> Forall (by_key s) d -> Forall (by_key r) d.
Proof.
  intros [Hr _] [Hs _] Hd Hrs. rewrite !Forall_forall in *. intros H t Ht. destruct (Hd t Ht) as [Htk _].
  apply (cmp_lt_trans kt r.1 s.1 t.1); auto. specialize (H t Ht). unfold by_key in H. lia.
Qed.

Lemma key_cons k r d : k ∈ (r :: d).*1 <-> k = r.1 \/ k ∈ d.*1.
Proof. apply elem_of_cons. Qed.

(** Where the keys are the same, the new element is in the difference unless the values are. *)
Lemma differ_spec ty o n :
  row_of ty o -> row_of ty n -> o.1 = n.1 ->
  if negb (is_void (value ty)) && negb (values_equal o.2 n.2) then o <> n else o = n.
Proof.
  intros Ho Hn E. destruct (is_void (value ty)) eqn:Ev; cbn [negb andb]; [by apply (same_row ty) |].
  pose proof (values_equal_spec _ o.2 n.2 (proj2 Ho) (proj2 Hn)) as Hv. destruct (values_equal o.2 n.2); cbn [negb].
  - destruct o, n. cbn in *. f_equal; [done | by apply Hv].
  - intros ->. by pose proof (proj2 Hv eq_refl).
Qed.

(** The elements of the difference: those of one datum whose key the other has not, and the new
    one where the values differ. *)
Lemma diff_loop_elem ty old new r :
  Forall (row_of ty) old -> StronglySorted by_key old -> Forall (row_of ty) new -> StronglySorted by_key new ->
  r ∈ diff_loop ty old new <-> r ∈ old /\ r.1 ∉ new.*1 \/ r ∈ new /\ r ∉ old.
Proof.
  intros Ro So'. revert new. induction So' as [| o old So' IHo Ho].
  { intros new Rn _. destruct new as [| n new]; [cbn |]; [pose proof (not_elem_of_nil r); tauto |].
    cbn [diff_loop]. rewrite drop_values_id by done. pose proof (not_elem_of_nil r). tauto. }
  apply Forall_cons in Ro as [Oo Ro]. intros new. induction new as [| n new IHn]; intros Rn Sn.
  { cbn [diff_loop]. rewrite drop_values_id by (by constructor). pose proof (not_elem_of_nil r). pose proof (not_elem_of_nil r.1). cbn. tauto. }
  apply Forall_cons in Rn as [On Rn]. inversion_clear Sn as [| ? ? Sn' Hn].
  rewrite diff_loop_cons by done. cbv zeta. specialize (IHo Ro).
  destruct (Z.ltb_spec (ovsdb_atom_compare_3way o.1 n.1) 0) as [Hc | Hc]; [| rewrite Z.gtb_ltb; destruct (Z.ltb_spec 0 (ovsdb_atom_compare_3way o.1 n.1)) as [Hc' | Hc']].
  - assert (o.1 ∉ (n :: new).*1) as Hno.
    { apply (above_not_in (type (key ty)) (type (value ty))); [done | by constructor |]. constructor; [done |].
      by apply (by_key_trans (type (key ty)) (type (value ty)) o n). }
    rewrite !elem_of_cons, IHo by (by constructor). rewrite !elem_of_cons.
    pose proof (in_key (n :: new) r) as Hk. rewrite elem_of_cons in Hk. split.
    + intros [-> | [[? ?] | [[-> | ?] ?]]]; [by left; auto | auto | right | right]; (split; [auto |]); intros [-> | ?]; auto.
    + intros [[[-> | ?] ?] | [? ?]]; auto. right. right. auto.
  - apply (cmp_opp (type (key ty))) in Hc'; [| apply On | apply Oo].
    assert (n.1 ∉ (o :: old).*1) as Hno.
    { apply (above_not_in (type (key ty)) (type (value ty))); [done | by constructor |]. constructor; [done |].
      by apply (by_key_trans (type (key ty)) (type (value ty)) n o). }
    rewrite elem_of_cons, IHn by done. pose proof (in_key (o :: old) r) as Hk. rewrite key_cons, (elem_of_cons new). split.
    + intros [-> | [[? ?] | [? ?]]]; [right; auto | left | right; auto]. split; [done |]. intros [E | ?]; [| done].
      apply Hno. rewrite <- E. auto.
    + intros [[? Hn'] | [[-> | ?] ?]]; [right; left; split; [done |] | by left | by right; right]. intros ?. apply Hn'. by right.
  - assert (o.1 = n.1) as E by (apply (cmp_eq (type (key ty))); [apply Oo | apply On | lia]).
    assert (o.1 ∉ old.*1) as Hoo by (by apply (above_not_in (type (key ty)) (type (value ty)))).
    assert (n.1 ∉ new.*1) as Hnn by (by apply (above_not_in (type (key ty)) (type (value ty)))).
    pose proof (differ_spec ty o n Oo On E) as Hd. rewrite elem_of_app, IHo, key_cons, !elem_of_cons by done.
    pose proof (in_key old r) as Hk. pose proof (in_key new r) as Hk'. split.
    + intros [Hr | [[? ?] | [? ?]]].
      * destruct (_ && _); [| by apply not_elem_of_nil in Hr]. apply list_elem_of_singleton in Hr as ->. right. split; [auto |].
        intros [-> | ?]; [done |]. apply Hoo. rewrite E. auto.
      * left. split; [auto |]. intros [E' | ?]; [| done]. apply Hoo. rewrite E, <- E'. auto.
      * right. split; [auto |]. intros [-> | ?]; [| done]. apply Hnn. rewrite <- E. auto.
    + intros [[[-> | ?] Hno] | [[-> | ?] Hno]].
      * exfalso. apply Hno. by left.
      * right; left. split; [done |]. intros ?. apply Hno. by right.
      * left. destruct (_ && _); [by apply list_elem_of_singleton |]. exfalso. apply Hno. by left.
      * right; right. split; [done |]. intros ?. apply Hno. by right.
Qed.

Lemma diff_loop_below ty old new x :
  Forall (row_of ty) old -> StronglySorted by_key old -> Forall (row_of ty) new -> StronglySorted by_key new ->
  Forall (by_key x) old -> Forall (by_key x) new -> Forall (by_key x) (diff_loop ty old new).
Proof.
  intros Ro So' Rn Sn Ho Hn. rewrite Forall_forall in *. intros r Hr.
  apply diff_loop_elem in Hr as [[? _] | [? _]]; auto; by apply Forall_forall.
Qed.

Lemma diff_loop_sorted ty old new :
  Forall (row_of ty) old -> StronglySorted by_key old -> Forall (row_of ty) new -> StronglySorted by_key new ->
  StronglySorted by_key (diff_loop ty old new) /\ (length (diff_loop ty old new) <= length old + length new)%nat.
Proof.
  intros Ro So'. revert new. induction So' as [| o old So' IHo Ho].
  { intros new Rn Sn. destruct new as [| n new]; [by split; [constructor |] |]. cbn [diff_loop]. by rewrite drop_values_id. }
  apply Forall_cons in Ro as [Oo Ro]. specialize (IHo Ro). intros new. induction new as [| n new IHn]; intros Rn Sn.
  { cbn [diff_loop]. rewrite drop_values_id by (by constructor). cbn. split; [by constructor | lia]. }
  apply Forall_cons in Rn as [On Rn] . inversion_clear Sn as [| ? ? Sn' Hn]. rewrite diff_loop_cons by done. cbv zeta.
  destruct (Z.ltb_spec (ovsdb_atom_compare_3way o.1 n.1) 0) as [Hc | Hc]; [| rewrite Z.gtb_ltb; destruct (Z.ltb_spec 0 (ovsdb_atom_compare_3way o.1 n.1)) as [Hc' | Hc']].
  - destruct (IHo (n :: new)) as [IH1 IH2]; [by constructor.. |]. cbn in *. split; [| lia]. constructor; [done |].
    apply diff_loop_below; try done; [by constructor.. |]. constructor; [done |]. by apply (by_key_trans (type (key ty)) (type (value ty)) o n).
  - destruct IHn as [IH1 IH2]; [done.. |]. apply (cmp_opp (type (key ty))) in Hc'; [| apply On | apply Oo].
    cbn [length] in *. split; [| lia]. constructor; [done |].
    apply diff_loop_below; try done; [by constructor.. |]. constructor; [done |]. by apply (by_key_trans (type (key ty)) (type (value ty)) n o).
  - assert (o.1 = n.1) as E by (apply (cmp_eq (type (key ty))); [apply Oo | apply On | lia]).
    destruct (IHo new) as [IH1 IH2]; [done.. |]. destruct (_ && _); cbn [app length]; [| split; [done | lia]]. split; [| lia].
    constructor; [done |]. apply diff_loop_below; try done. eapply Forall_impl; [exact Ho |]. intros t. unfold by_key. by rewrite E.
Qed.

Lemma diff_ok ty old new :
  ok ty old -> ok ty new -> Z.of_nat (length old + length new) < DATUM_MAX -> ok ty (ovsdb_datum_diff old new ty).
Proof.
  intros Ho Hn Hl. unfold ovsdb_datum_diff. destruct (ovsdb_type_is_composite ty); cbn [negb]; [| done].
  pose proof (ok_rows ty old Ho) as Ro. pose proof (ok_rows ty new Hn) as Rn. destruct Ho as [_ So' _], Hn as [_ Sn _].
  destruct (diff_loop_sorted ty old new Ro So' Rn Sn) as [Hs Hle]. split; [| done | lia].
  apply Forall_forall. intros r Hr. rewrite Forall_forall in Ro, Rn.
  apply diff_loop_elem in Hr as [[? _] | [? _]]; try done; [by apply Ro | by apply Rn | by apply Forall_forall..].
Qed.

Lemma diff_elem ty old new r :
  ok ty old -> ok ty new -> ovsdb_type_is_composite ty = true ->
  r ∈ ovsdb_datum_diff old new ty <-> r ∈ old /\ r.1 ∉ new.*1 \/ r ∈ new /\ r ∉ old.
Proof.
  intros Ho Hn Hc. unfold ovsdb_datum_diff. rewrite Hc. cbn [negb].
  apply diff_loop_elem; [by apply ok_rows | apply Ho | by apply ok_rows | apply Hn].
Qed.

Lemma ok_ext ty a b : ok ty a -> ok ty b -> (forall r, r ∈ a <-> r ∈ b) -> a = b.
Proof. intros [Ra Sa _] [Rb Sb _]. by apply (datum_ext _ _ a b Ra Sa Rb Sb). Qed.

(** Applying the difference to the old datum gives the new one. *)
Lemma diff_diff ty old new :
  ok ty old -> ok ty new -> Z.of_nat (length old + (length old + length new)) < DATUM_MAX ->
  ovsdb_datum_diff old (ovsdb_datum_diff old new ty) ty = new.
Proof.
  intros Ho Hn Hl. destruct (ovsdb_type_is_composite ty) eqn:Hc.
  2: { unfold ovsdb_datum_diff. by rewrite Hc. }
  assert (ok ty (ovsdb_datum_diff old new ty)) as Hd by (apply diff_ok; [done | done | lia]).
  assert (length (ovsdb_datum_diff old new ty) <= length old + length new)%nat as Hle.
  { unfold ovsdb_datum_diff. rewrite Hc. apply diff_loop_sorted; [by apply ok_rows | apply Ho | by apply ok_rows | apply Hn]. }
  apply (ok_ext ty); [apply diff_ok; [done | done | lia] | done |]. intros r. rewrite diff_elem by done.
  pose proof (ok_rows ty old Ho) as Ro. pose proof (ok_rows ty new Hn) as Rn. rewrite Forall_forall in Ro, Rn.
  assert (forall t, t ∈ ovsdb_datum_diff old new ty <-> t ∈ old /\ t.1 ∉ new.*1 \/ t ∈ new /\ t ∉ old) as Hel by (intros; by apply diff_elem).
  split.
  - intros [[Hr Hno] | [Hr Hno]]; [| apply Hel in Hr as [[] | []]; done].
    destruct (in_dec_key ty new r.1 Hn (proj1 (Ro r Hr))) as [(s & E & Hs)%list_elem_of_fmap | Hk].
    + destruct (in_dec_row ty old s Ho (Rn s Hs)) as [Hso | Hso].
      * by rewrite (ok_key_inj ty old r s).
      * exfalso. apply Hno. rewrite E. apply in_key, Hel. by right.
    + exfalso. apply Hno, in_key, Hel. by left.
  - intros Hr. destruct (in_dec_row ty old r Ho (Rn r Hr)) as [Hro | Hro]; [left | right; split; [apply Hel; by right | done]].
    split; [done |]. intros (s & E & Hs)%list_elem_of_fmap. apply Hel in Hs as [[_ Hs] | [Hs Hso]].
    + apply Hs. rewrite <- E. by apply in_key.
    + apply Hso. by rewrite <- (ok_key_inj ty new r s).
Qed.

(** ** Duplicates *)

Abbreviation cb ty := (ovsdb_datum_sort_compare_cb (type (value ty))).

(** An element that is the smallest of those with its key. *)
Definition least ty d r : Prop := r ∈ d /\ forall s, s ∈ d -> s.1 = r.1 -> cb ty r s <= 0.

Lemma cb_key ty r s : row_of ty r -> row_of ty s -> cb ty r s <= 0 -> by_key r s \/ r.1 = s.1.
Proof. intros Hr Hs H. apply (cb_cases (type (key ty))) in H as [| []]; [by left | by right | done | done]. Qed.

Lemma by_key_irrefl ty r s : row_of ty r -> by_key r s -> r.1 <> s.1.
Proof.
  intros [Hr _] H E. unfold by_key in H. rewrite <- E in H.
  rewrite (proj2 (cmp_eq (type (key ty)) r.1 r.1 Hr Hr) eq_refl) in H. lia.
Qed.

Lemma unique_loop_spec ty last d :
  Forall (row_of ty) (last :: d) -> StronglySorted (λ r s, cb ty r s <= 0) (last :: d) ->
  let u := last :: unique_loop last d in
  StronglySorted by_key u /\ (forall r, r ∈ u -> least ty (last :: d) r) /\ (forall r, r ∈ last :: d -> r.1 ∈ u.*1).
Proof.
  cbv zeta. revert last. induction d as [| r d IH]; intros last Hr Hs; cbn [unique_loop].
  { split; [repeat constructor |]. split; [| intros r; apply in_key]. intros r ->%list_elem_of_singleton. split; [left |].
    intros s ->%list_elem_of_singleton _. apply (cmp_refl _ (row_of ty)); [by apply cb_total; right | by apply Forall_singleton]. }
  apply Forall_cons in Hr as [Ol Hr]. apply Forall_cons in Hr as [Or Hr].
  inversion_clear Hs as [| ? ? Hs' Hle]. apply Forall_cons in Hle as [Hlr Hle]. inversion Hs' as [| ? ? Hs'' Hre]; subst.
  assert (cb ty last last <= 0) as Hll by (apply (cmp_refl _ (row_of ty)); [by apply cb_total; right | done]).
  destruct (ovsdb_atom_equals r.1 last.1) eqn:E.
  - apply (atom_equals_spec (type (key ty))) in E; [| apply Or | apply Ol].
    destruct (IH last) as (Su & Hl & Hc); [by constructor | by constructor |].
    split; [done |]. split.
    + intros t Ht. specialize (Hl t Ht) as [Hin Hmin]. split; [apply elem_of_cons in Hin as [-> | ?]; [left | by right; right] |].
      intros s Hse Est. apply elem_of_cons in Hse as [-> | Hse]; [apply Hmin; [left | done] |].
      apply elem_of_cons in Hse as [-> | Hse]; [| apply Hmin; [by right | done]].
      apply elem_of_cons in Ht as [-> | Ht]; [done |]. exfalso. inversion_clear Su as [| ? ? _ Hb]. rewrite Forall_forall in Hb.
      apply (by_key_irrefl ty last t Ol); [auto | congruence].
    + intros t Ht. apply elem_of_cons in Ht as [-> | Ht]; [apply Hc; left |].
      apply elem_of_cons in Ht as [-> | Ht]; [rewrite E; apply Hc; left | apply Hc; by right].
  - destruct (IH r) as (Su & Hl & Hc); [by constructor | done |].
    assert (by_key last r) as Hlt.
    { destruct (cb_key ty last r Ol Or Hlr) as [| Ek]; [done |]. unfold ovsdb_atom_equals in E.
      rewrite Ek, (proj2 (cmp_eq (type (key ty)) r.1 r.1 (proj1 Or) (proj1 Or)) eq_refl) in E. done. }
    assert (Forall (by_key last) (r :: d)) as Hall.
    { constructor; [done |]. rewrite Forall_forall in Hre, Hr |- *. intros t Ht.
      destruct (cb_key ty r t Or (Hr t Ht) (Hre t Ht)) as [Hb | Ek]; [| unfold by_key; by rewrite <- Ek].
      apply (cmp_lt_trans (type (key ty)) last.1 r.1 t.1); [apply Ol | apply Or | by apply Hr | done | unfold by_key in Hb; lia]. }
    rewrite Forall_forall in Hall. split; [| split].
    + constructor; [done |]. apply Forall_forall. intros t Ht. apply Hall. by apply Hl.
    + intros t Ht. apply elem_of_cons in Ht as [-> | Ht].
      * split; [left |]. intros s Hse Est. apply elem_of_cons in Hse as [-> | Hse]; [done |]. exfalso.
        apply (by_key_irrefl ty last s Ol); auto.
      * specialize (Hl t Ht) as [Hin Hmin]. split; [by right |]. intros s Hse Est. apply elem_of_cons in Hse as [-> | Hse]; [| auto].
        exfalso. apply (by_key_irrefl ty last t Ol); auto.
    + intros t Ht. apply elem_of_cons in Ht as [-> | Ht]; [left |]. rewrite key_cons. right. by apply Hc.
Qed.

(** The result has each key once, with its smallest value. *)
Lemma sort_unique_spec ty d d' n :
  Forall (row_of ty) d -> Z.of_nat (length d) < DATUM_MAX -> ovsdb_datum_sort_unique d (type (value ty)) = (d', n) ->
  ok ty d' /\ (forall r, r ∈ d' -> least ty d r) /\ (forall r, r ∈ d -> r.1 ∈ d'.*1) /\
  n = u64 (Z.of_nat (length d') - Z.of_nat (length d)).
Proof.
  intros Hr Hl. unfold ovsdb_datum_sort_unique. destruct (Nat.ltb_spec (length d) 2) as [Hlt | Hge].
  - intros [= <- <-]. rewrite Z.sub_diag. split; [| split; [| split; [intros r; apply in_key | done]]].
    + destruct d as [| r [| s d]]; cbn in *; [| | lia]; split; try done; repeat constructor.
    + intros r Hin. split; [done |]. intros s Hs _. destruct d as [| x [| y d]]; cbn in *; [by apply not_elem_of_nil in Hin | | lia].
      apply list_elem_of_singleton in Hin as ->, Hs as ->.
      apply (cmp_refl _ (row_of ty)); [by apply cb_total; right | by apply Forall_singleton].
  - destruct (sort_rows (type (key ty)) (type (value ty)) (type (value ty)) d (or_intror eq_refl) Hr Hl) as (Hp & Hs & Hr').
    destruct (ovsdb_datum_sort__ d (type (value ty))) as [| r l] eqn:E.
    { apply Permutation_nil_l in Hp. subst d. cbn in Hge. lia. }
    intros [= <- <-]. destruct (unique_loop_spec ty r l Hr' Hs) as (Su & Hleast & Hc).
    assert (forall t, t ∈ r :: l <-> t ∈ d) as Hpe by (intros; by rewrite Hp).
    assert (length (r :: unique_loop r l) <= length d)%nat as Hlen.
    { rewrite <- Hp. apply submseteq_length, NoDup_submseteq.
      - apply (NoDup_fmap_1 fst), (sorted_nodup (type (key ty)) (type (value ty))); [| done].
        apply Forall_forall. intros t Ht. rewrite Forall_forall in Hr'. apply Hr'. by apply Hleast.
      - intros t Ht. by apply Hleast. }
    split; [split; [| done | lia] |].
    + apply Forall_forall. intros t Ht. rewrite Forall_forall in Hr'. apply Hr'. by apply Hleast.
    + split; [| split; [| done]].
      * intros t Ht. destruct (Hleast t Ht) as [Hin Hmin]. split; [by apply Hpe |]. intros s Hse. by apply Hmin, Hpe.
      * intros t Ht. by apply Hc, Hpe.
Qed.

End sets.
End OvsdbSets.
