(* ===== verification/OvsdbJson.v ===== *)
(** Conversion of atoms, data and types from and to JSON (lib/ovsdb-data.c, lib/ovsdb-types.c),
    with the table of symbols for rows that have no UUID yet. *)
From stdpp Require Import gmap sorting.
From S2P Require Import Prelude Text Unicode Containers Shash Json JsonLex Sort Uuid OvsdbTypes OvsdbData.

Module OvsdbJson.
Export OvsdbData.

Record ovsdb_symbol := mk_symbol {
  symbol_uuid : uuid;
  created : bool;
  strong_ref : bool;
  weak_ref : bool;
}.

#[export] Instance ovsdb_symbol_eta : RecordEta ovsdb_symbol := λ r,
  mk_symbol (symbol_uuid r) (created r) (strong_ref r) (weak_ref r).

(** [generated] counts the UUIDs that uuid_generate() has made. *)
Record ovsdb_symbol_table {T : Type} := mk_symtab { sh : shash T ovsdb_symbol; generated : nat }.
Arguments ovsdb_symbol_table : clear implicits.
Arguments mk_symtab {T}.

#[export] Instance ovsdb_symbol_table_eta {T} : RecordEta (ovsdb_symbol_table T) := λ r, mk_symtab (sh r) (generated r).

Section json.
Context {T R : Type} {HT : HashTable T} {D : Double R} {DO : DoubleOrder R} {So : Sorting}.
Context (hash_string : chars -> Z -> Z).
(** The UUIDs that uuid_generate() makes. *)
Context (uuid_generate : nat -> uuid).

Abbreviation atom := (ovsdb_atom R).
Abbreviation datum := (ovsdb_datum R).
Abbreviation json := (Json.json T R).
Implicit Types (j : json) (a : atom) (d : datum) (base : ovsdb_base_type R) (ty : ovsdb_type R).

(** ** Symbols *)

Definition ovsdb_symbol_table_create : ovsdb_symbol_table T := mk_symtab shash_init 0.

Definition ovsdb_symbol_table_get (symtab : ovsdb_symbol_table T) (name : chars) : option ovsdb_symbol :=
  shash_find_data hash_string (sh symtab) name.

(** The place of the new symbol; [None] is a failed assertion. *)
Definition ovsdb_symbol_table_put (symtab : ovsdb_symbol_table T) (name : chars) (uuid : uuid) (created : bool)
    : option (nat * ovsdb_symbol_table T) :=
  if ovsdb_symbol_table_get symtab name is Some _ then None
  else
    let '(node, sh) := shash_add hash_string name (mk_symbol uuid created false false) (sh symtab) in
    Some (node, symtab <| OvsdbJson.sh := sh |>).

Definition ovsdb_symbol_table_insert (symtab : ovsdb_symbol_table T) (name : chars) : option (nat * ovsdb_symbol_table T) :=
  match shash_find hash_string (sh symtab) name with
  | Some node => Some (node, symtab)
  | None =>
      let uuid := uuid_generate (generated symtab) in
      ovsdb_symbol_table_put (symtab <| generated ::= S |>) name uuid false
  end.

(** The symbol is a node of the table. *)
Definition ovsdb_symbol_referenced (symtab : ovsdb_symbol_table T) (node : nat) base : ovsdb_symbol_table T :=
  match ref_table base with
  | None => symtab
  | Some (_, ref) =>
      let mark (symbol : ovsdb_symbol) :=
        match ref with
        | OVSDB_REF_STRONG => symbol <| strong_ref := true |>
        | OVSDB_REF_WEAK => symbol <| weak_ref := true |>
        end in
      match node_data (sh symtab) node with
      | Some symbol => symtab <| sh ::= set_data node (mark symbol) |>
      | None => symtab
      end
  end.

(** The table of symbols, if there is one, is the state. *)
Abbreviation M A := (M (option (ovsdb_symbol_table T)) ovsdb_error A).

(** The UUID of a symbol, which is made if the table does not have it. *)
Definition use_symbol {E : Type} (name : chars) base : Ovsdb.M (option (ovsdb_symbol_table T)) E uuid := λ symtab,
  match symtab with
  | None => (Crash, None)
  | Some symtab =>
      match ovsdb_symbol_table_insert symtab name with
      | None => (Crash, Some symtab)
      | Some (node, symtab) =>
          match node_data (sh symtab) node with
          | None => (Crash, Some symtab)
          | Some symbol => (Value (symbol_uuid symbol), Some (ovsdb_symbol_referenced symtab node base))
          end
      end
  end.

(** ** Atoms *)

Definition syntax_error j (message : chars) : ovsdb_error := ovsdb_syntax_error (Some j) None message.

Definition wrap_json (name : chars) j : json := JSON_ARRAY [JSON_STRING name; j].

Definition unwrap_json j (name : chars) (value_type : json_type) : json + ovsdb_error :=
  match j with
  | JSON_ARRAY [JSON_STRING s; value] =>
      if negb (strcmp s name =? 0) || negb (bool_decide (type_of_json value = value_type)) then
        inr (syntax_error j (str "expected [" ++ quoted name ++ str ", <" ++ json_type_to_string value_type ++ str ">]"))
      else inl value
  | _ => inr (syntax_error j (str "expected [" ++ quoted name ++ str ", <" ++ json_type_to_string value_type ++ str ">]"))
  end.

Definition parse_json_pair j : (json * json) + ovsdb_error :=
  match j with
  | JSON_ARRAY [elem0; elem1] => inl (elem0, elem1)
  | _ => inr (syntax_error j (str "expected 2-element array"))
  end.

Definition ovsdb_atom_parse_uuid j base : M uuid := λ symtab,
  match unwrap_json j (str "uuid") STRING_TYPE with
  | inl value =>
      let uuid_string := default [] (json_string value) in
      match uuid_from_string uuid_string with
      | Some uuid => ret uuid symtab
      | None => fail (syntax_error j (quoted uuid_string ++ str " is not a valid UUID")) symtab
      end
  | inr error0 =>
      match symtab with
      | None => fail error0 symtab
      | Some _ =>
          match unwrap_json j (str "named-uuid") STRING_TYPE with
          | inl value =>
              let name := default [] (json_string value) in
              if negb (ovsdb_parser_is_id name) then
                fail (syntax_error j (str "named-uuid string is not a valid <id>")) symtab
              else use_symbol name base symtab
          | inr _ => fail error0 symtab
          end
      end
  end.

Definition ovsdb_atom_from_json__ base j : M atom :=
  let wrong_type := fail (syntax_error j (str "expected " ++ ovsdb_atomic_type_to_string (type base))) in
  match type base with
  | OVSDB_TYPE_VOID => crash
  | OVSDB_TYPE_INTEGER => if j is JSON_INTEGER integer then ret (ATOM_INTEGER integer) else wrong_type
  | OVSDB_TYPE_REAL =>
      match j with
      | JSON_INTEGER integer => ret (ATOM_REAL (double_of_integer integer))
      | JSON_REAL real => ret (ATOM_REAL real)
      | _ => wrong_type
      end
  | OVSDB_TYPE_BOOLEAN =>
      match j with
      | JSON_TRUE => ret (ATOM_BOOLEAN true)
      | JSON_FALSE => ret (ATOM_BOOLEAN false)
      | _ => wrong_type
      end
  | OVSDB_TYPE_STRING => if j is JSON_STRING string then ret (ATOM_STRING string) else wrong_type
  | OVSDB_TYPE_UUID => uuid ←! ovsdb_atom_parse_uuid j base; ret (ATOM_UUID uuid)
  end.

Definition ovsdb_atom_from_json base j : M atom :=
  a ←! ovsdb_atom_from_json__ base j;
  _ ←! guard_error (ovsdb_atom_check_constraints a base);
  ret a.

Definition ovsdb_atom_to_json a : json :=
  match a with
  | ATOM_INTEGER integer => JSON_INTEGER integer
  | ATOM_REAL real => JSON_REAL real
  | ATOM_BOOLEAN boolean => if boolean then JSON_TRUE else JSON_FALSE
  | ATOM_STRING string => JSON_STRING string
  | ATOM_UUID uuid => wrap_json (str "uuid") (JSON_STRING (uuid_to_string uuid))
  end.

(** ** Data *)

(** The element of a set or map. *)
Definition row_from_json ty (element : json) : M (atom * option atom) :=
  if ovsdb_type_is_map ty then
    '(key, value) ←! of_outcome match parse_json_pair element with inl p => Value p | inr error => Error error end;
    k ←! ovsdb_atom_from_json (OvsdbTypes.Ovsdb.key ty) key;
    v ←! ovsdb_atom_from_json (OvsdbTypes.Ovsdb.value ty) value;
    ret (k, Some v)
  else
    k ←! ovsdb_atom_from_json (key ty) element;
    ret (k, None).

Fixpoint rows_from_json ty (elements : list json) : M datum :=
  match elements with
  | [] => ret []
  | element :: elements =>
      row ←! row_from_json ty element;
      rows ←! rows_from_json ty elements;
      ret (row :: rows)
  end.

Definition is_set_json j : bool :=
  match j with
  | JSON_ARRAY (JSON_STRING s :: _) => strcmp s (str "set") =? 0
  | _ => false
  end.

Definition ovsdb_datum_from_json__ ty j : M datum :=
  let is_map := ovsdb_type_is_map ty in
  if is_map || is_set_json j then
    let class := if is_map then str "map" else str "set" in
    inner ←! of_outcome match unwrap_json j class ARRAY_TYPE with inl inner => Value inner | inr error => Error error end;
    let elems := default [] (json_array inner) in
    let n := Z.of_nat (length elems) in
    if (n <? n_min ty) || (n >? n_max ty) then
      fail (syntax_error j
        (if (n_min ty =? 1) && (n_max ty =? 1) then
           class ++ str " must have exactly one member but " ++ print_uint 10 n ++ str " are present"
         else
           class ++ str " must have " ++ print_uint 10 (n_min ty) ++ str " to " ++ print_uint 10 (n_max ty) ++
           str " members but " ++ print_uint 10 n ++ str " are present"))
    else rows_from_json ty elems
  else
    k ←! ovsdb_atom_from_json (key ty) j;
    ret [(k, None)].

Definition ovsdb_datum_from_json ty j : M datum :=
  d ←! ovsdb_datum_from_json__ ty j;
  let '(d, error) := ovsdb_datum_sort d in
  _ ←! guard_error error;
  ret d.

(** Without a table of symbols. *)
Definition without_symbols {A} (m : M A) : outcome ovsdb_error A := (m None).1.

Definition ovsdb_transient_datum_from_json ty j : outcome ovsdb_error datum :=
  without_symbols (ovsdb_datum_from_json (ty <| n_min := 0 |> <| n_max := UINT_MAX |>) j).

Definition ovsdb_unconstrained_datum_from_json ty j : outcome ovsdb_error datum :=
  without_symbols (ovsdb_datum_from_json
    (mk_type (ovsdb_base_type_init (type (key ty))) (ovsdb_base_type_init (type (value ty))) 0 UINT_MAX) j).

Definition ovsdb_data_row_name (uuid : uuid) : chars :=
  List.map (λ c, if c =c "-" then "_"%char else c) (str "row" ++ uuid_to_string uuid).

Definition ovsdb_base_to_json a base (use_row_names : bool) : json :=
  match a, ref_table base with
  | ATOM_UUID uuid, Some _ =>
      if use_row_names then JSON_ARRAY [JSON_STRING (str "named-uuid"); JSON_STRING (ovsdb_data_row_name uuid)]
      else ovsdb_atom_to_json a
  | _, _ => ovsdb_atom_to_json a
  end.

Definition ovsdb_datum_to_json__ d ty (use_row_names : bool) : json :=
  if ovsdb_type_is_map ty then
    wrap_json (str "map") (JSON_ARRAY (List.map (λ r : atom * option atom,
      JSON_ARRAY [ovsdb_base_to_json r.1 (key ty) use_row_names;
                  from_option (λ v, ovsdb_base_to_json v (value ty) use_row_names) JSON_NULL r.2]) d))
  else
    match d with
    | [r] => ovsdb_base_to_json r.1 (key ty) use_row_names
    | _ => wrap_json (str "set") (JSON_ARRAY (List.map (λ r : atom * option atom, ovsdb_base_to_json r.1 (key ty) use_row_names) d))
    end.

Definition ovsdb_datum_to_json d ty : json := ovsdb_datum_to_json__ d ty false.
Definition ovsdb_datum_to_json_with_row_names d ty : json := ovsdb_datum_to_json__ d ty true.

Definition ovsdb_datum_convert (dst_type : ovsdb_type R) (src : datum) (src_type : ovsdb_type R) : outcome ovsdb_error datum :=
  without_symbols (ovsdb_datum_from_json dst_type (ovsdb_datum_to_json src src_type)).

(** ** Types *)

Definition ovsdb_atomic_type_from_json j : ovsdb_atomic_type + ovsdb_error :=
  match j with
  | JSON_STRING string =>
      match ovsdb_atomic_type_from_string string with
      | Some type => inl type
      | None => inr (syntax_error j (quoted string ++ str " is not an atomic-type"))
      end
  | _ => inr (syntax_error j (str "atomic-type expected"))
  end.

(** The value of an optional member, [uint] without it, and an error. *)
Definition parse_optional_uint (parser : ovsdb_parser T R) (member : chars) (uint : Z)
    : Z * option ovsdb_error * ovsdb_parser T R :=
  match ovsdb_parser_member hash_string parser member (Z.lor (OP INTEGER_TYPE) OP_OPTIONAL) with
  | (Some (JSON_INTEGER integer as j), parser) =>
      if (integer <? 0) || (integer >? UINT_MAX) then
        (uint, Some (syntax_error j (member ++ str " out of valid range 0 to " ++ print_uint 10 UINT_MAX)), parser)
      else (integer, None, parser)
  | (_, parser) => (uint, None, parser)
  end.

Definition optional (types : Z) : Z := Z.lor types OP_OPTIONAL.

(** The constraints for an atomic type, an error, and the parser. *)
Definition constraints_from_json (type : ovsdb_atomic_type) (parser : ovsdb_parser T R) j
    : base_constraints R * option ovsdb_error * ovsdb_parser T R :=
  match type with
  | OVSDB_TYPE_INTEGER =>
      let '(min, parser) := ovsdb_parser_member hash_string parser (str "minInteger") (optional (OP INTEGER_TYPE)) in
      let '(max, parser) := ovsdb_parser_member hash_string parser (str "maxInteger") (optional (OP INTEGER_TYPE)) in
      let min := default LLONG_MIN (j ← min; json_integer j) in
      let max := default LLONG_MAX (j ← max; json_integer j) in
      (INTEGER_CONSTRAINTS min max,
       if min >? max then Some (syntax_error j (str "minInteger exceeds maxInteger")) else None, parser)
  | OVSDB_TYPE_REAL =>
      let '(min, parser) := ovsdb_parser_member hash_string parser (str "minReal") (optional OP_NUMBER) in
      let '(max, parser) := ovsdb_parser_member hash_string parser (str "maxReal") (optional OP_NUMBER) in
      let min := default minus_DBL_MAX (j ← min; json_real j) in
      let max := default DBL_MAX (j ← max; json_real j) in
      (REAL_CONSTRAINTS min max,
       if double_ltb max min then Some (syntax_error j (str "minReal exceeds maxReal")) else None, parser)
  | OVSDB_TYPE_STRING =>
      let '(minLen, error, parser) := parse_optional_uint parser (str "minLength") 0 in
      let '(maxLen, error, parser) :=
        match error with
        | Some _ => (UINT_MAX, error, parser)
        | None => parse_optional_uint parser (str "maxLength") UINT_MAX
        end in
      (STRING_CONSTRAINTS minLen maxLen,
       match error with
       | Some _ => error
       | None => if minLen >? maxLen then Some (syntax_error j (str "minLength exceeds maxLength")) else None
       end, parser)
  | OVSDB_TYPE_UUID =>
      let '(refTable, parser) := ovsdb_parser_member hash_string parser (str "refTable") (optional OP_ID) in
      match refTable ≫= json_string with
      | None => (UUID_CONSTRAINTS None, None, parser)
      | Some refTable =>
          let '(refType, parser) := ovsdb_parser_member hash_string parser (str "refType") (optional OP_ID) in
          match refType ≫= json_string with
          | None => (UUID_CONSTRAINTS (Some (refTable, OVSDB_REF_STRONG)), None, parser)
          | Some refType =>
              if strcmp refType (str "strong") =? 0 then (UUID_CONSTRAINTS (Some (refTable, OVSDB_REF_STRONG)), None, parser)
              else if strcmp refType (str "weak") =? 0 then (UUID_CONSTRAINTS (Some (refTable, OVSDB_REF_WEAK)), None, parser)
              else (UUID_CONSTRAINTS (Some (refTable, OVSDB_REF_STRONG)),
                    Some (syntax_error j (str "refType must be " ++ quoted (str "strong") ++ str " or " ++ quoted (str "weak") ++
                                          str " (not " ++ quoted refType ++ str ")")), parser)
          end
      end
  | OVSDB_TYPE_VOID | OVSDB_TYPE_BOOLEAN => (NO_CONSTRAINTS, None, parser)
  end.

(** [ovsdb_parser_finish], unless there is an error already. *)
Definition finish {A} (a : A) (error : option ovsdb_error) (parser : ovsdb_parser T R) : outcome ovsdb_error A :=
  match error with
  | Some error => Error error
  | None => match ovsdb_parser_finish parser with Some error => Error error | None => Value a end
  end.

Definition ovsdb_base_type_from_json j : outcome ovsdb_error (ovsdb_base_type R) :=
  match j with
  | JSON_STRING _ =>
      match ovsdb_atomic_type_from_json j with
      | inr error => Error error
      | inl type => Value (ovsdb_base_type_init type)
      end
  | _ =>
      let parser := ovsdb_parser_init (Some j) (str "ovsdb type") in
      match ovsdb_parser_member hash_string parser (str "type") (OP STRING_TYPE) with
      | (None, parser) => match ovsdb_parser_finish parser with Some error => Error error | None => Crash end
      | (Some type, parser) =>
          match ovsdb_atomic_type_from_json type with
          | inr error => Error error
          | inl type =>
              let base := ovsdb_base_type_init type in
              let '(enum, parser) := ovsdb_parser_member hash_string parser (str "enum") (optional OP_ANY) in
              match enum with
              | Some enum =>
                  match without_symbols (ovsdb_datum_from_json (ovsdb_base_type_get_enum_type type) enum) with
                  | Value datum => finish (base <| enum_ := Some datum |>) None parser
                  | Error error => finish base (Some error) parser
                  | Crash => Crash
                  end
              | None =>
                  let '(constraints, error, parser) := constraints_from_json type parser j in
                  finish (base <| OvsdbTypes.Ovsdb.constraints := constraints |>) error parser
              end
          end
      end
  end.

Abbreviation object := (shash T json).

Definition put (name : chars) j (o : object) : object := json_object_put hash_string o name j.

Definition constraints_to_json (constraints : base_constraints R) (o : object) : object :=
  match constraints with
  | NO_CONSTRAINTS => o
  | INTEGER_CONSTRAINTS min max =>
      let o := if negb (min =? LLONG_MIN) then put (str "minInteger") (JSON_INTEGER min) o else o in
      if negb (max =? LLONG_MAX) then put (str "maxInteger") (JSON_INTEGER max) o else o
  | REAL_CONSTRAINTS min max =>
      let o := if negb (double_eqb min minus_DBL_MAX) then put (str "minReal") (JSON_REAL min) o else o in
      if negb (double_eqb max DBL_MAX) then put (str "maxReal") (JSON_REAL max) o else o
  | STRING_CONSTRAINTS minLen maxLen =>
      let o := if negb (minLen =? 0) then put (str "minLength") (JSON_INTEGER minLen) o else o in
      if negb (maxLen =? UINT_MAX) then put (str "maxLength") (JSON_INTEGER maxLen) o else o
  | UUID_CONSTRAINTS None => o
  | UUID_CONSTRAINTS (Some (refTableName, refType)) =>
      let o := put (str "refTable") (JSON_STRING refTableName) o in
      match refType with OVSDB_REF_WEAK => put (str "refType") (JSON_STRING (str "weak")) o | OVSDB_REF_STRONG => o end
  end.

(** Not called for the void type. *)
Definition ovsdb_base_type_to_json base : json :=
  if negb (ovsdb_base_type_has_constraints base) then JSON_STRING (ovsdb_atomic_type_to_string (type base))
  else
    let o := put (str "type") (JSON_STRING (ovsdb_atomic_type_to_string (type base))) shash_init in
    let o := if enum_ base is Some enum then put (str "enum") (ovsdb_datum_to_json enum (ovsdb_base_type_get_enum_type (type base))) o
             else o in
    JSON_OBJECT (constraints_to_json (constraints base) o).

Definition n_from_json (j : option json) (n : Z) : Z + ovsdb_error :=
  match j with
  | None => inl n
  | Some (JSON_INTEGER integer as j) =>
      if (integer >=? 0) && (integer <? UINT_MAX) then inl integer else inr (syntax_error j (str "bad min or max value"))
  | Some j => inr (syntax_error j (str "bad min or max value"))
  end.

Definition scalar_type (key : ovsdb_base_type R) : ovsdb_type R := mk_type key (ovsdb_base_type_init OVSDB_TYPE_VOID) 1 1.

(** The type with both of its bases, and the members that bound the number of elements. *)
Definition type_with_sizes (key value : ovsdb_base_type R) (min max : option json) j : outcome ovsdb_error (ovsdb_type R) :=
  match n_from_json min 1 with
  | inr error => Error error
  | inl n_min =>
      match (match max with
             | Some (JSON_STRING s) => if strcmp s (str "unlimited") =? 0 then inl UINT_MAX else n_from_json max 1
             | _ => n_from_json max 1
             end) with
      | inr error => Error error
      | inl n_max =>
          let ty := mk_type key value n_min n_max in
          if negb (ovsdb_type_is_valid ty) then Error (syntax_error j (str "ovsdb type fails constraint checks"))
          else Value ty
      end
  end.

Definition ovsdb_type_from_json j : outcome ovsdb_error (ovsdb_type R) :=
  match j with
  | JSON_STRING _ =>
      match ovsdb_base_type_from_json j with
      | Value key => Value (scalar_type key)
      | Error error => Error error
      | Crash => Crash
      end
  | JSON_OBJECT _ =>
      let parser := ovsdb_parser_init (Some j) (str "ovsdb type") in
      let '(key, parser) := ovsdb_parser_member hash_string parser (str "key") (Z.lor (OP STRING_TYPE) (OP OBJECT_TYPE)) in
      let '(value, parser) := ovsdb_parser_member hash_string parser (str "value") (optional (Z.lor (OP STRING_TYPE) (OP OBJECT_TYPE))) in
      let '(min, parser) := ovsdb_parser_member hash_string parser (str "min") (optional (OP INTEGER_TYPE)) in
      let '(max, parser) := ovsdb_parser_member hash_string parser (str "max") (optional (Z.lor (OP INTEGER_TYPE) (OP STRING_TYPE))) in
      match ovsdb_parser_finish parser, key with
      | Some error, _ => Error error
      | None, None => Crash
      | None, Some key =>
          match ovsdb_base_type_from_json key, from_option ovsdb_base_type_from_json (Value (ovsdb_base_type_init OVSDB_TYPE_VOID)) value with
          | Value key, Value value => type_with_sizes key value min max j
          | Error error, _ => Error error
          | Value _, Error error => Error error
          | _, _ => Crash
          end
      end
  | _ => Error (syntax_error j (str "ovsdb type expected"))
  end.

Definition ovsdb_type_to_json ty : json :=
  if ovsdb_type_is_scalar ty && negb (ovsdb_base_type_has_constraints (key ty)) then ovsdb_base_type_to_json (key ty)
  else
    let o := put (str "key") (ovsdb_base_type_to_json (key ty)) shash_init in
    let o := if negb (is_void (value ty)) then put (str "value") (ovsdb_base_type_to_json (value ty)) o else o in
    let o := if negb (n_min ty =? 1) then put (str "min") (JSON_INTEGER (n_min ty)) o else o in
    let o := if n_max ty =? UINT_MAX then put (str "max") (JSON_STRING (str "unlimited")) o
             else if negb (n_max ty =? 1) then put (str "max") (JSON_INTEGER (n_max ty)) o else o in
    JSON_OBJECT o.
End json.
End OvsdbJson.
