(* ===== verification/OvsdbJsonThms.v ===== *)
(** Conversion from JSON is safe, and undoes conversion to JSON. *)
From stdpp Require Import gmap sorting.
From S2P Require Import Prelude Text Unicode Containers Shash Json JsonLex JsonNumber JsonParse JsonRoundtrip Sort Uuid OvsdbTypes OvsdbData OvsdbDatum OvsdbSets OvsdbJson.

Module OvsdbJsonThms.
Import JsonLex JsonNumber JsonParse JsonRoundtrip.
Export OvsdbJson OvsdbSets.

Section json.
Context {T R : Type} {HT : HashTable T} {HTok : HashTableOk T}.
Context {D : Double R} {DO : DoubleOrder R} {Dok : DoubleOk R} {So : Sorting} {Sok : SortingOk So}.
Context (hash_string : chars -> Z -> Z) (uuid_generate : nat -> uuid).
Context (Hgen : forall k, uuid_ok (uuid_generate k)).

Abbreviation atom := (ovsdb_atom R).
Abbreviation datum := (ovsdb_datum R).
Abbreviation json := (Json.json T R).
Abbreviation symtab := (option (ovsdb_symbol_table T)).
Abbreviation M A := (Ovsdb.M symtab ovsdb_error A).
Implicit Types (j : json) (a : atom) (d : datum) (base : ovsdb_base_type R) (ty : ovsdb_type R) (N k : Z).

(** ** Types *)

Definition constraints_ok base : Prop :=
  match type base, constraints base with
  | OVSDB_TYPE_VOID, NO_CONSTRAINTS | OVSDB_TYPE_BOOLEAN, NO_CONSTRAINTS => True
  | OVSDB_TYPE_INTEGER, INTEGER_CONSTRAINTS min max => LLONG_MIN <= min <= max /\ max <= LLONG_MAX
  | OVSDB_TYPE_REAL, REAL_CONSTRAINTS min max => canonical min /\ canonical max /\ double_leb min max = true
  | OVSDB_TYPE_STRING, STRING_CONSTRAINTS minLen maxLen => 0 <= minLen <= maxLen /\ maxLen <= UINT_MAX
  | OVSDB_TYPE_UUID, UUID_CONSTRAINTS None => True
  | OVSDB_TYPE_UUID, UUID_CONSTRAINTS (Some (refTableName, _)) => no_nul refTableName /\ ovsdb_parser_is_id refTableName = true
  | _, _ => False
  end.

(** A type with allowed values has no other constraints. *)
Definition base_ok base : Prop :=
  constraints_ok base /\
  match enum_ base with
  | None => True
  | Some enum =>
      constraints base = default_constraints (type base) /\ type base <> OVSDB_TYPE_VOID /\
      datum_ok (type base) OVSDB_TYPE_VOID enum /\ enum <> [] /\
      Forall (λ r : atom * option atom, ovsdb_atom_check_constraints r.1 (ovsdb_base_type_init (type base)) = None) enum
  end.

Record type_ok ty : Prop := {
  key_ok : base_ok (key ty);
  value_ok : base_ok (value ty);
  key_not_void : type (key ty) <> OVSDB_TYPE_VOID;
  n_min_ok : 0 <= n_min ty <= 1;
  n_max_ok : 1 <= n_max ty <= UINT_MAX;
}.

(** Data that satisfy the constraints of their type. *)
Definition valid ty d : Prop :=
  ok ty d /\ n_min ty <= Z.of_nat (length d) <= n_max ty /\ ovsdb_datum_check_constraints d ty = None.

(** ** Computations that do not crash *)

Definition symtab_ok N (s : symtab) : Prop :=
  match s with
  | None => True
  | Some t => exists c, represents hash_string (sh t) c /\ Z.of_nat (size c) <= N /\
                forall name symbol, c !! name = Some symbol -> uuid_ok (symbol_uuid symbol)
  end.

(** The number of symbols that a table of at most [N] symbols can take. *)
Definition SYMBOLS_MAX : Z := 2 ^ 64 - 2.

(** [m] adds at most [k] symbols, does not crash, and its value satisfies [Q]; [tab] says that it
    needs a table. *)
Definition safe {E A} (tab : bool) k (m : Ovsdb.M symtab E A) (Q : A -> Prop) : Prop :=
  forall N s, symtab_ok N s -> (tab = true -> is_Some s) -> N + k <= SYMBOLS_MAX ->
  let '(o, s') := m s in
  symtab_ok (N + k) s' /\ (is_Some s -> is_Some s') /\ match o with Value a => Q a | Error _ => True | Crash => False end.

Lemma symtab_ok_mono N N' s : N <= N' -> symtab_ok N s -> symtab_ok N' s.
Proof. destruct s as [t |]; cbn; [| done]. intros HN (c & Hc & Hs & Hu). exists c. split; [done |]. split; [lia | done]. Qed.

Section safe.
Context {E : Type} (tab : bool).

Lemma safe_ret {A} (x : A) (Q : A -> Prop) : Q x -> safe (E := E) tab 0 (ret x) Q.
Proof. intros H N s Hs _ _. cbn. rewrite Z.add_0_r. done. Qed.

Lemma safe_fail {A} (e : E) (Q : A -> Prop) : safe tab 0 (fail e) Q.
Proof. intros N s Hs _ _. cbn. rewrite Z.add_0_r. done. Qed.

Lemma safe_ret1 {A} (x : A) (Q : A -> Prop) : Q x -> safe (E := E) tab 1 (ret x) Q.
Proof. intros H N s Hs _ _. cbn. split; [by apply (symtab_ok_mono N); [lia |] | done]. Qed.

Lemma safe_fail1 {A} (e : E) (Q : A -> Prop) : safe tab 1 (fail e) Q.
Proof. intros N s Hs _ _. cbn. split; [by apply (symtab_ok_mono N); [lia |] | done]. Qed.

Lemma safe_weaken {A} k k' (m : Ovsdb.M symtab E A) (Q Q' : A -> Prop) :
  k <= k' -> (forall x, Q x -> Q' x) -> safe tab k m Q -> safe tab k' m Q'.
Proof.
  intros Hk HQ Hm N s Hs Ht HN. specialize (Hm N s Hs Ht ltac:(lia)). destruct (m s) as [o s']. destruct Hm as (H1 & H2 & H3).
  split; [by apply (symtab_ok_mono (N + k)); [lia |] |]. split; [done |]. destruct o; auto.
Qed.

Lemma safe_bind {A B} k1 k2 (m : Ovsdb.M symtab E A) (f : A -> Ovsdb.M symtab E B) (Q : A -> Prop) (Q' : B -> Prop) :
  0 <= k1 -> 0 <= k2 -> safe tab k1 m Q -> (forall x, Q x -> safe tab k2 (f x) Q') -> safe tab (k1 + k2) (bind m f) Q'.
Proof.
  intros H1 H2 Hm Hf N s Hs Ht HN. unfold bind. specialize (Hm N s Hs Ht ltac:(lia)). destruct (m s) as [[x | e |] s'].
  - destruct Hm as (Hs' & Hn & HQ). specialize (Hf x HQ (N + k1) s' Hs' ltac:(auto) ltac:(lia)). destruct (f x s') as [o s''].
    destruct Hf as (Hs'' & Hn' & Ho). rewrite Z.add_assoc. split; [done |]. split; [auto | done].
  - destruct Hm as (Hs' & Hn & _). split; [by apply (symtab_ok_mono (N + k1)); [lia |] | done].
  - by destruct Hm as (_ & _ & []).
Qed.

Lemma safe_guard (e : option E) : safe tab 0 (guard_error e) (λ _, e = None).
Proof. destruct e; [apply safe_fail | by apply safe_ret]. Qed.
End safe.

(** ** Symbols *)

Definition symbols_ok (c : gmap chars ovsdb_symbol) : Prop := forall name symbol, c !! name = Some symbol -> uuid_ok (symbol_uuid symbol).

Lemma insert_symbols_ok c name symbol : symbols_ok c -> uuid_ok (symbol_uuid symbol) -> symbols_ok (<[name := symbol]> c).
Proof. intros Hc Hs n s [[<- <-] | [_ H]]%lookup_insert_Some; [done | by apply (Hc n)]. Qed.

Lemma size_insert_le (c : gmap chars ovsdb_symbol) name symbol : (size (<[name := symbol]> c) <= S (size c))%nat.
Proof. rewrite map_size_insert. destruct (c !! name); unfold id; lia. Qed.

(** Inserting gives a node of the table for the name. *)
Lemma symbol_table_insert_spec t c name :
  represents hash_string (sh t) c -> symbols_ok c -> Z.of_nat (size c) + 1 <= SYMBOLS_MAX ->
  exists node symbol t' c', ovsdb_symbol_table_insert hash_string uuid_generate t name = Some (node, t') /\
    represents hash_string (sh t') c' /\ symbols_ok c' /\ (size c' <= S (size c))%nat /\
    nodes (sh t') !! node = Some (name, symbol) /\ shash_find hash_string (sh t') name = Some node /\ c' !! name = Some symbol.
Proof.
  intros Hr Hc Hs. unfold ovsdb_symbol_table_insert. pose proof (find_contents hash_string (sh t) c name Hr) as Hf.
  destruct (c !! name) as [symbol |] eqn:E.
  { destruct Hf as (i & Hfi & Hn). rewrite Hfi. exists i, symbol, t, c. split; [done |]. split; [done |]. split; [done |]. split; [lia | done]. }
  rewrite Hf. unfold ovsdb_symbol_table_put, ovsdb_symbol_table_get. rsimpl.
  rewrite (find_data_contents hash_string (sh t) c) by done. rewrite E.
  set (symbol := mk_symbol (uuid_generate (generated t)) false false false).
  assert (in_u 64 (Z.of_nat (size c) + 1)) as Hin by (unfold in_u, SYMBOLS_MAX in *; lia).
  pose proof (add_contents hash_string (sh t) c name symbol Hr E Hin) as Hr'.
  pose proof (add_find hash_string (sh t) c name symbol Hr E Hin) as Hf'.
  unfold shash_add. destruct (shash_add_nocopy hash_string name symbol (sh t)) as [node sh'] eqn:Ea. cbn [fst snd] in *.
  eexists node, symbol, _, (<[name := symbol]> c). split; [done |]. rsimpl. split; [done |].
  split; [by apply insert_symbols_ok; [| apply Hgen] |]. split; [apply size_insert_le |].
  pose proof (find_contents hash_string sh' _ name Hr') as H. rewrite lookup_insert_eq in H. destruct H as (i & Hi & Hn).
  rewrite Hf' in Hi. injection Hi as ->. split; [done |]. split; [done |]. apply lookup_insert_eq.
Qed.

Lemma use_symbol_safe {E} N t name base :
  symtab_ok N (Some t) -> N + 1 <= SYMBOLS_MAX ->
  exists u t', use_symbol (E := E) hash_string uuid_generate name base (Some t) = (Value u, Some t') /\
    uuid_ok u /\ symtab_ok (N + 1) (Some t').
Proof.
  intros (c & Hr & Hs & Hc) HN. unfold use_symbol.
  destruct (symbol_table_insert_spec t c name Hr Hc ltac:(lia)) as (node & symbol & t' & c' & -> & Hr' & Hc' & Hs' & Hn & Hf & Hl).
  unfold node_data. rewrite Hn. cbn [fmap option_fmap option_map snd]. eexists _, _. split; [done |]. split; [by apply (Hc' name) |].
  unfold ovsdb_symbol_referenced. destruct (ref_table base) as [[? ref] |]; [| exists c'; split; [done | split; [lia | done]]].
  unfold node_data. rewrite Hn. cbn [fmap option_fmap option_map snd].
  eexists (<[name := _]> c'). rsimpl. split; [by apply (set_data_contents hash_string (sh t') c' name _ symbol) |].
  split; [rewrite map_size_insert_Some by done; lia |]. apply insert_symbols_ok; [done |]. specialize (Hc' name symbol Hl). by destruct ref.
Qed.

(** ** Atoms *)

(** JSON as the parser makes it; no array is longer than the positions in data. *)
Definition wf j : Prop := exists N n, N < DATUM_MAX /\ wf_json hash_string canonical N n j.

Lemma wf_array l : wf (JSON_ARRAY l) -> Z.of_nat (length l) < DATUM_MAX /\ Forall wf l.
Proof.
  intros (N & n & HN & H). destruct n as [| n]; [done |]. destruct H as [Hl H]. split; [lia |].
  eapply Forall_impl; [exact H |]. intros j Hj. by exists N, n.
Qed.

Lemma wf_pair j1 j2 : wf (JSON_ARRAY [j1; j2]) -> wf j1 /\ wf j2.
Proof. intros [_ H]%wf_array. apply Forall_cons in H as [H1 H]. by apply Forall_cons in H as [H2 _]. Qed.

Lemma wf_scalar j : wf j ->
  match j with
  | JSON_INTEGER z => LLONG_MIN <= z <= LLONG_MAX
  | JSON_REAL x => canonical x
  | JSON_STRING s => no_nul s
  | _ => True
  end.
Proof. intros (N & n & _ & H). destruct j, n; done. Qed.

Lemma lex_canonical buffer (x : R) : json_lex_number buffer = inl (T_REAL x) -> canonical x.
Proof.
  intros H. pose proof (lex_numerals buffer _ H) as Hn. revert H. unfold json_lex_number, lex_rest, lex_value. cbv zeta.
  destruct (str_to_double (cstr buffer)) as [y |] eqn:E; [| by repeat case_match].
  pose proof (double_finite y (proj1 (strtod_range _ y Hn E)) (proj2 (strtod_range _ y Hn E))) as Hc.
  set (z := if double_eqb y double_zero then double_zero else y) in *. clearbody z.
  intros H. repeat (case_match; try discriminate H); by injection H as <-.
Qed.

Lemma unwrap_json_inv j name t v :
  unwrap_json j name t = inl v -> exists s, j = JSON_ARRAY [JSON_STRING s; v] /\ strcmp s name = 0 /\ type_of_json v = t.
Proof.
  unfold unwrap_json. destruct j as [| | | | l | | |]; try done. destruct l as [| x l]; [done |].
  destruct x as [| | | | | | | string]; try done. destruct l as [| y [| z l]]; try done.
  destruct (Z.eqb_spec (strcmp string name) 0) as [E | E]; cbn [negb orb]; [| done]. case_bool_decide as Et; [| done]. cbn. intros [= <-]. eauto.
Qed.

Lemma parse_uuid_safe j base : wf j -> safe false 1 (ovsdb_atom_parse_uuid hash_string uuid_generate j base) uuid_ok.
Proof.
  intros Hj N s Hs _ HN. unfold ovsdb_atom_parse_uuid, ret, fail. cbv zeta.
  assert (symtab_ok (N + 1) s) as Hs' by (apply (symtab_ok_mono N); [lia | done]).
  destruct (unwrap_json j (str "uuid") STRING_TYPE) as [v | e] eqn:E.
  - apply unwrap_json_inv in E as (s0 & -> & _ & Et). destruct v; try done. cbn [json_string default].
    apply wf_pair in Hj as [_ Hn%wf_scalar].
    unfold id. destruct (uuid_from_string string) as [u |] eqn:Eu; [| by split]. apply uuid_from_string_exact in Eu as [Hu _]; [| done]. by split.
  - destruct s as [t |]; [| by split].
    destruct (unwrap_json j (str "named-uuid") STRING_TYPE) as [v | e']; [| by split].
    destruct (ovsdb_parser_is_id (default [] (json_string v))); cbn [negb]; [| by split].
    destruct (use_symbol_safe (E := ovsdb_error) N t (default [] (json_string v)) base Hs HN) as (u & t' & -> & Hu & Ht'). done.
Qed.

Lemma real_constraints base x :
  base_ok base -> type base = OVSDB_TYPE_REAL -> ovsdb_atom_check_constraints (ATOM_REAL x) base = None ->
  double_leb minus_DBL_MAX x = true /\ double_leb x DBL_MAX = true.
Proof.
  intros [Hc _] Ht. unfold constraints_ok in Hc. rewrite Ht in Hc. unfold ovsdb_atom_check_constraints.
  destruct (match enum_ base with Some _ => _ | None => _ end); [done |].
  destruct (constraints base) as [| | min max | |]; try done. destruct Hc as (Hmin & Hmax & Hle).
  destruct (double_leb min x) eqn:E1, (double_leb x max) eqn:E2; cbn [andb]; try done. intros _.
  destruct (double_range min Hmin) as [H1 _], (double_range max Hmax) as [_ H2].
  split; [by apply (double_le_trans _ min) | by apply (double_le_trans _ max)].
Qed.

(** An atom that was read is one of the type, and satisfies its constraints. *)
Lemma atom_from_json_safe base j :
  wf j -> type base <> OVSDB_TYPE_VOID ->
  safe false 1 (ovsdb_atom_from_json hash_string uuid_generate base j)
    (λ a, atom_ok (type base) a /\ ovsdb_atom_check_constraints a base = None).
Proof.
  intros Hj Ht. change 1 with (1 + (0 + 0)). apply (safe_bind false _ _ _ _ (atom_ok (type base))); [lia | lia | |].
  2: { intros a Ha. apply (safe_bind false _ _ _ _ (λ _, ovsdb_atom_check_constraints a base = None)); [lia | lia | apply safe_guard |].
       intros _ Hc. by apply safe_ret. }
  unfold ovsdb_atom_from_json__. pose proof (wf_scalar j Hj) as Hs.
  destruct (type base) eqn:E; [done | | | | |].
  1-4: destruct j; try apply safe_fail1; apply safe_ret1; (split; [done |]); cbn; try done;
    by apply double_integer.
  change 1 with (1 + 0). apply (safe_bind false _ _ _ _ uuid_ok); [lia | lia | by apply parse_uuid_safe |].
  intros u Hu. by apply safe_ret.
Qed.

(** ** Data *)

Abbreviation row := (atom * option atom)%type.

(** A row whose atoms satisfy the constraints. *)
Definition row_valid ty (r : row) : Prop :=
  row_of ty r /\ ovsdb_atom_check_constraints r.1 (key ty) = None /\
  (v ← r.2; ovsdb_atom_check_constraints v (value ty)) = None.

Lemma first_error_none {A} (f : A -> option ovsdb_error) l : first_error f l = None <-> Forall (λ x, f x = None) l.
Proof.
  unfold first_error. induction l as [| x l IH]; cbn; [split; [constructor | done] |]. rewrite Forall_cons.
  destruct (f x) as [e |]; cbn; [split; [done | by intros []] |]. rewrite IH. tauto.
Qed.

Lemma check_constraints_none ty d : Forall (row_of ty) d -> ovsdb_datum_check_constraints d ty = None <-> Forall (row_valid ty) d.
Proof.
  intros Hr. unfold ovsdb_datum_check_constraints.
  pose proof (first_error_none (λ r : row, ovsdb_atom_check_constraints r.1 (key ty)) d) as H1.
  pose proof (first_error_none (λ r : row, v ← r.2; ovsdb_atom_check_constraints v (value ty)) d) as H2.
  destruct (first_error _ d) as [e |]; [split; [done |]; intros H; apply H1; eapply Forall_impl; [exact H |]; by intros r (_ & ? & _) |].
  apply proj1 in H1. specialize (H1 eq_refl). rewrite Forall_forall in Hr, H1 |- *. split.
  - intros H r Hin. split; [by apply Hr |]. split; [by apply H1 |]. destruct (is_void (value ty)) eqn:Ev; cbn [negb] in H.
    + pose proof (row_void ty r (Hr r Hin)) as Hv. rewrite Ev in Hv. by rewrite <- Hv.
    + apply H2 in H. rewrite Forall_forall in H. by apply H.
  - intros H. destruct (is_void (value ty)); cbn [negb]; [done |]. apply H2. apply Forall_forall. intros r Hin. by apply H.
Qed.

Lemma row_from_json_safe ty j : type_ok ty -> wf j -> safe false 2 (row_from_json hash_string uuid_generate ty j) (row_valid ty).
Proof.
  intros Hty Hj. unfold row_from_json, ovsdb_type_is_map. destruct (is_void (value ty)) eqn:Ev; cbn [negb].
  - unfold is_void in Ev. apply bool_decide_eq_true in Ev.
    apply (safe_weaken false (1 + 0) 2 _ (row_valid ty)); [lia | done |].
    eapply safe_bind; [lia | lia | by apply atom_from_json_safe; [| apply Hty] |]. intros k [Hk Hc]. by apply safe_ret.
  - unfold is_void in Ev. apply bool_decide_eq_false in Ev.
    change 2 with (0 + (1 + (1 + 0))). apply (safe_bind false _ _ _ _ (λ p, wf p.1 /\ wf p.2)); [lia | lia | |].
    { unfold parse_json_pair. destruct j as [| | | | l | | |]; try apply safe_fail. destruct l as [| x [| y [| z l]]]; try apply safe_fail.
      apply wf_pair in Hj. by apply (safe_ret false (x, y)). }
    intros [x y] [Hx Hy]. cbn [fst snd] in *.
    eapply safe_bind; [lia | lia | by apply atom_from_json_safe; [| apply Hty] |]. intros k [Hk Hck].
    eapply safe_bind; [lia | lia | by apply atom_from_json_safe |]. intros v [Hv Hcv]. by apply safe_ret.
Qed.

Lemma rows_from_json_safe ty l :
  type_ok ty -> Forall wf l ->
  safe false (2 * Z.of_nat (length l)) (rows_from_json hash_string uuid_generate ty l) (λ d, Forall (row_valid ty) d /\ length d = length l).
Proof.
  intros Hty Hl. induction Hl as [| j l Hj Hl IH]; cbn [rows_from_json length]; [apply safe_ret; split; [constructor | done] |].
  replace (2 * Z.of_nat (S (length l))) with (2 + (2 * Z.of_nat (length l) + 0)) by lia.
  eapply safe_bind; [lia | lia | by apply row_from_json_safe |]. intros r Hr.
  eapply safe_bind; [lia | lia | exact IH |]. intros d [Hd Hlen]. apply safe_ret. split; [by constructor | cbn; lia].
Qed.

(** The number of elements of a set or map in JSON. *)
Definition elements j : nat := match j with JSON_ARRAY [_; JSON_ARRAY l] => length l | _ => 0%nat end.

Lemma datum_from_json_rows ty j :
  type_ok ty -> wf j ->
  safe false (2 * Z.of_nat (elements j) + 1) (ovsdb_datum_from_json__ hash_string uuid_generate ty j)
    (λ d, Forall (row_valid ty) d /\ n_min ty <= Z.of_nat (length d) <= n_max ty /\ Z.of_nat (length d) < DATUM_MAX).
Proof.
  intros Hty Hj. unfold ovsdb_datum_from_json__. destruct (ovsdb_type_is_map ty || is_set_json j) eqn:Eb.
  - cbv zeta. change (2 * Z.of_nat (elements j) + 1) with (0 + (2 * Z.of_nat (elements j) + 1)).
    apply (safe_bind false _ _ _ _ (λ inner, exists s, j = JSON_ARRAY [JSON_STRING s; inner] /\ type_of_json inner = ARRAY_TYPE)); [lia | lia | |].
    { destruct (unwrap_json _ _ _) as [inner | e] eqn:E; [| apply safe_fail]. apply unwrap_json_inv in E as (s0 & -> & _ & Et). apply safe_ret. eauto. }
    intros inner (s0 & -> & Et). destruct inner as [| | | | l | | |]; try done. cbn [elements json_array default] in *. unfold id.
    apply wf_pair in Hj as [_ [Hl Hj]%wf_array].
    clear Eb. destruct (_ || _) eqn:En; [apply (safe_weaken false 0 _ _ (λ _, False)); [lia | done | apply safe_fail] |].
    apply orb_false_iff in En as [E1 E2]. rewrite Z.gtb_ltb in E2.
    eapply safe_weaken; [| | by apply rows_from_json_safe]; [lia |]. intros d [Hd Hlen]. rewrite Hlen. split; [done |]. lia.
  - apply orb_false_iff in Eb as [Em _]. unfold ovsdb_type_is_map, is_void in Em. apply negb_false_iff, bool_decide_eq_true in Em.
    apply (safe_weaken false (1 + 0) _ _ (λ d, Forall (row_valid ty) d /\ length d = 1%nat)); [lia | |].
    + intros d [Hd ->]. split; [done |]. destruct Hty as [_ _ _ Hmin Hmax]. unfold DATUM_MAX. lia.
    + eapply safe_bind; [lia | lia | by apply atom_from_json_safe; [| apply Hty] |]. intros k [Hk Hc]. apply safe_ret.
      split; [| done]. by apply Forall_singleton.
Qed.

(** Reading a datum does not crash and gives a valid datum of the type. *)
Lemma datum_from_json_safe ty j :
  type_ok ty -> wf j ->
  safe false (2 * Z.of_nat (elements j) + 1) (ovsdb_datum_from_json hash_string uuid_generate ty j) (valid ty).
Proof.
  intros Hty Hj. unfold ovsdb_datum_from_json. rewrite <- (Z.add_0_r (2 * _ + 1)).
  eapply safe_bind; [lia | lia | by apply datum_from_json_rows |]. intros d (Hd & Hn & Hlen).
  assert (Forall (row_of ty) d) as Hr by (eapply Forall_impl; [exact Hd |]; by intros r []).
  destruct (ovsdb_datum_sort d) as [d' error] eqn:E. apply (datum_sort_spec (type (key ty)) (type (value ty))) in E as [Hp Hc]; [| done | done].
  change 0 with (0 + 0). apply (safe_bind false _ _ _ _ (λ _, error = None)); [lia | lia | apply safe_guard |]. intros _ ->.
  apply safe_ret. destruct Hc as [(_ & Hnd & Hs) | [[? [=]] _]].
  split; [split; [by rewrite Hp | done | by rewrite Hp] |]. split; [by rewrite Hp |].
  apply check_constraints_none; by rewrite Hp.
Qed.

(** ** Printing a datum and reading it again *)

Lemma base_to_json base a : ovsdb_base_to_json a base false = ovsdb_atom_to_json a :> json.
Proof. unfold ovsdb_base_to_json. by destruct a, (ref_table base). Qed.

Lemma unwrap_wrap name v t : type_of_json v = t -> unwrap_json (wrap_json name v) name t = inl v.
Proof. intros <-. unfold unwrap_json, wrap_json. by rewrite strcmp_refl, bool_decide_eq_true_2 by done. Qed.

Lemma atom_roundtrip base a (s : symtab) :
  atom_ok (type base) a -> ovsdb_atom_check_constraints a base = None ->
  ovsdb_atom_from_json hash_string uuid_generate base (ovsdb_atom_to_json a) s = (Value a, s).
Proof.
  intros [Ht Ha] Hc. unfold ovsdb_atom_from_json, bind.
  assert (ovsdb_atom_from_json__ hash_string uuid_generate base (ovsdb_atom_to_json a) s = (Value a, s)) as ->.
  { unfold ovsdb_atom_from_json__. rewrite <- Ht. destruct a as [z | x | b | string | u]; cbn [atom_type ovsdb_atom_to_json]; [done | done | by destruct b | done |].
    unfold bind, ovsdb_atom_parse_uuid. rewrite unwrap_wrap by done. cbn [json_string default]. unfold id. by rewrite uuid_roundtrip. }
  by rewrite Hc.
Qed.

Definition row_to_json ty (r : row) : json :=
  if ovsdb_type_is_map ty then JSON_ARRAY [ovsdb_atom_to_json r.1; from_option ovsdb_atom_to_json JSON_NULL r.2]
  else ovsdb_atom_to_json r.1.

Lemma row_roundtrip ty r (s : symtab) :
  row_valid ty r -> row_from_json hash_string uuid_generate ty (row_to_json ty r) s = (Value r, s).
Proof.
  intros ([Hk Hv] & Hck & Hcv). unfold row_from_json, row_to_json, ovsdb_type_is_map, is_void. destruct r as [k v]. cbn [fst snd] in *.
  case_bool_decide as Ev; cbn [negb]; unfold bind at 1.
  - rewrite atom_roundtrip by done. destruct v as [v |]; [| done]. rewrite Ev in Hv. by destruct Hv as [? _], v.
  - destruct v as [v |]; [| done]. cbn [parse_json_pair of_outcome ret from_option]. unfold bind.
    rewrite (atom_roundtrip (key ty) k) by done. by rewrite (atom_roundtrip (value ty) v) by done.
Qed.

Lemma rows_roundtrip ty d (s : symtab) :
  Forall (row_valid ty) d -> rows_from_json hash_string uuid_generate ty (List.map (row_to_json ty) d) s = (Value d, s).
Proof.
  intros Hd. induction Hd as [| r d Hr Hd IH]; [done |]. cbn [rows_from_json List.map]. unfold bind. by rewrite row_roundtrip, IH.
Qed.

Lemma datum_to_json_rows ty d :
  ovsdb_datum_to_json d ty =
  if ovsdb_type_is_map ty then wrap_json (str "map") (JSON_ARRAY (List.map (row_to_json ty) d))
  else match d with
       | [r] => ovsdb_atom_to_json r.1
       | _ => wrap_json (str "set") (JSON_ARRAY (List.map (row_to_json ty) d))
       end :> json.
Proof.
  unfold ovsdb_datum_to_json, ovsdb_datum_to_json__, row_to_json. destruct (ovsdb_type_is_map ty).
  - do 2 f_equal. apply map_ext. intros [k v]. cbn [fst snd]. rewrite base_to_json. do 3 f_equal. destruct v; cbn; [apply base_to_json | done].
  - assert (List.map (λ r : row, ovsdb_base_to_json r.1 (key ty) false) d = List.map (λ r : row, ovsdb_atom_to_json r.1 : json) d) as H.
    { apply map_ext. intros r. apply base_to_json. }
    destruct d as [| r [| r' d]]; [done | apply base_to_json | by rewrite H].
Qed.

Lemma atom_not_set a : is_set_json (ovsdb_atom_to_json a : json) = false.
Proof. by destruct a as [| | [] | |]. Qed.

Lemma rows_wrapped ty d (class : chars) (s : symtab) :
  Forall (row_valid ty) d -> n_min ty <= Z.of_nat (length d) <= n_max ty ->
  class = (if ovsdb_type_is_map ty then str "map" else str "set") -> ovsdb_type_is_map ty || (strcmp class (str "set") =? 0) = true ->
  ovsdb_datum_from_json__ hash_string uuid_generate ty (wrap_json class (JSON_ARRAY (List.map (row_to_json ty) d))) s = (Value d, s).
Proof.
  intros Hd Hn Hc Hb. unfold ovsdb_datum_from_json__. cbv zeta.
  assert (ovsdb_type_is_map ty || is_set_json (wrap_json class (JSON_ARRAY (List.map (row_to_json ty) d))) = true) as -> by done.
  rewrite <- Hc. unfold bind. rewrite unwrap_wrap by done. cbn [of_outcome ret json_array default]. unfold id.
  rewrite length_map. assert ((Z.of_nat (length d) <? n_min ty) || (Z.of_nat (length d) >? n_max ty) = false) as ->.
  { rewrite Z.gtb_ltb. apply orb_false_iff. lia. }
  by apply rows_roundtrip.
Qed.

Lemma datum_rows_roundtrip ty d (s : symtab) :
  valid ty d -> ovsdb_datum_from_json__ hash_string uuid_generate ty (ovsdb_datum_to_json d ty) s = (Value d, s).
Proof.
  intros (Hok & Hn & Hc). apply check_constraints_none in Hc; [| by apply ok_rows]. rewrite datum_to_json_rows.
  destruct (ovsdb_type_is_map ty) eqn:Em; [by apply rows_wrapped; rewrite ?Em |].
  destruct d as [| r [| r' d]]; [by apply rows_wrapped; rewrite ?Em | | by apply rows_wrapped; rewrite ?Em].
  unfold ovsdb_datum_from_json__. rewrite Em, atom_not_set. cbn [orb]. unfold bind. apply Forall_cons in Hc as [([Hk Hv] & Hck & Hcv) _].
  rewrite atom_roundtrip by done. destruct r as [k [v |]]; [| done]. unfold ovsdb_type_is_map, is_void in Em. cbn [snd] in Hv.
  apply negb_false_iff, bool_decide_eq_true in Em. rewrite Em in Hv. by destruct Hv as [? _], v.
Qed.

(** A sorted datum is not changed by sorting. *)
Lemma sort_sorted ty d : ok ty d -> ovsdb_datum_sort d = (d, None).
Proof.
  intros Hok. destruct (ovsdb_datum_sort d) as [d' e] eqn:E.
  pose proof E as E'. apply (datum_sort_spec (type (key ty)) (type (value ty))) in E' as [Hp Hc]; [| apply Hok | apply Hok].
  pose proof (sorted_nodup _ _ d (rows_ok _ _ _ Hok) (keys_sorted _ _ _ Hok)) as Hnd. destruct Hc as [(-> & _ & Hs) | [_ ?]]; [| done]. f_equal.
  apply (ok_ext ty); [split; [rewrite Hp; apply Hok | done | rewrite Hp; apply Hok] | done |]. intros r. by rewrite Hp.
Qed.

Lemma datum_roundtrip ty d (s : symtab) :
  valid ty d -> ovsdb_datum_from_json hash_string uuid_generate ty (ovsdb_datum_to_json d ty) s = (Value d, s).
Proof.
  intros Hd. unfold ovsdb_datum_from_json, bind. rewrite datum_rows_roundtrip by done. by rewrite (sort_sorted ty) by apply Hd.
Qed.

End json.
End OvsdbJsonThms.
