(* ===== verification/OvsdbTypeThms.v ===== *)
(** Types in JSON: reading gives a well-formed type or an error, and undoes printing. *)
From stdpp Require Import gmap sorting.
From S2P Require Import Prelude Text Unicode Containers Shash Json JsonLex JsonNumber JsonParse JsonRoundtrip Sort Uuid OvsdbTypes OvsdbData OvsdbDatum OvsdbSets OvsdbJson OvsdbJsonThms.

Module OvsdbTypeThms.
Import JsonParse.
Export OvsdbJsonThms.

Section types.
Context {T R : Type} {HT : HashTable T} {HTok : HashTableOk T}.
Context {D : Double R} {DO : DoubleOrder R} {Dok : DoubleOk R} {So : Sorting} {Sok : SortingOk So}.
Context (hash_string : chars -> Z -> Z) (uuid_generate : nat -> uuid).
Context (Hgen : forall k, uuid_ok (uuid_generate k)).

Abbreviation json := (Json.json T R).
Abbreviation object := (shash T json).
Abbreviation parser := (ovsdb_parser T R).
Implicit Types (j : json) (o : object) (p : parser) (base : ovsdb_base_type R) (ty : ovsdb_type R).

(** ** Objects with given members *)

(** The members of an object, some of which are left out. *)
Abbreviation fields := (list (chars * option json)).
Implicit Types (fs : fields).

Definition present fs : list (chars * json) := omap (λ f, pair f.1 <$> f.2) fs.

Definition object_has o fs : Prop := represents hash_string o (list_to_map (present fs)).

Definition put_field (f : chars * option json) o : object :=
  match f.2 with Some j => put hash_string f.1 j o | None => o end.

Lemma present_names fs k : k ∈ (present fs).*1 -> k ∈ fs.*1.
Proof.
  intros ([k' j] & -> & Hin)%list_elem_of_fmap. apply list_elem_of_omap in Hin as ([k v] & Hf & E). destruct v; [| done].
  injection E as -> ->. apply list_elem_of_fmap. by eexists (k', Some j).
Qed.

Lemma present_nodup fs : NoDup fs.*1 -> NoDup (present fs).*1.
Proof.
  induction fs as [| [k [j |]] fs IH]; cbn; [constructor | |]; intros [Hk Hd]%NoDup_cons; [| by apply IH].
  constructor; [| by apply IH]. intros H%present_names. done.
Qed.

Lemma present_length fs : (length (present fs) <= length fs)%nat.
Proof. induction fs as [| [k [j |]] fs IH]; cbn; [lia | |]; fold (present fs); lia. Qed.

Lemma present_app fs fs' : present (fs ++ fs') = present fs ++ present fs'.
Proof. apply omap_app. Qed.

Lemma present_lookup fs k v : NoDup fs.*1 -> (k, v) ∈ fs -> (list_to_map (present fs) : gmap chars json) !! k = v.
Proof.
  intros Hd Hin. destruct v as [j |].
  - apply elem_of_list_to_map_1; [by apply present_nodup |]. apply list_elem_of_omap. by eexists (k, Some j).
  - apply not_elem_of_list_to_map_1. intros ([k' j] & -> & Hj)%list_elem_of_fmap. apply list_elem_of_omap in Hj as ([k v] & Hf & E).
    destruct v as [j' |]; [| done]. injection E as -> ->. cbn in Hin. by pose proof (nodup_fst_inj _ _ _ Hd Hf Hin eq_refl).
Qed.

Lemma init_has : object_has shash_init [].
Proof. apply init_contents. Qed.

Lemma put_field_has o fs f :
  object_has o fs -> NoDup (fs ++ [f]).*1 -> Z.of_nat (length fs) < 2 ^ 63 -> object_has (put_field f o) (fs ++ [f]).
Proof.
  intros Ho Hd Hl. unfold object_has, put_field. rewrite present_app. destruct f as [k [j |]]; cbn; [| by rewrite app_nil_r].
  assert (NoDup (present fs).*1) as Hp by (apply present_nodup; rewrite fmap_app in Hd; apply NoDup_app in Hd; apply Hd).
  assert (list_to_map (present fs ++ [(k, j)]) = <[k := j]> (list_to_map (present fs) : gmap chars json)) as ->.
  { change (<[k := j]> (list_to_map (present fs))) with (list_to_map ((k, j) :: present fs) : gmap chars json).
    apply list_to_map_proper; [| by rewrite <- Permutation_cons_append].
    pose proof (present_nodup _ Hd) as H. by rewrite present_app in H. }
  apply replace_contents; [done |]. rewrite <- (length_map_to_list (list_to_map (present fs))), map_to_list_to_map by done.
  pose proof (present_length fs). unfold in_u. lia.
Qed.

Definition put_fields fs o : object := foldl (λ o f, put_field f o) o fs.

Lemma put_fields_has o fs fs' :
  object_has o fs -> NoDup (fs ++ fs').*1 -> Z.of_nat (length (fs ++ fs')) < 2 ^ 63 -> object_has (put_fields fs' o) (fs ++ fs').
Proof.
  revert o fs. induction fs' as [| f fs' IH]; intros o fs Ho Hd Hl; cbn; [by rewrite app_nil_r |].
  rewrite (app_assoc fs [f] fs' : fs ++ f :: fs' = _) in *. apply IH; [| done | done]. rewrite length_app in Hl.
  apply put_field_has; [done | rewrite fmap_app in Hd; apply NoDup_app in Hd; apply Hd | rewrite length_app in Hl; lia].
Qed.

(** ** Reading the members in turn *)

(** A parser that has read some members. *)
Definition reader (name : chars) o fs : parser := mk_ovsdb_parser name (reverse (present fs).*1) (Some o) None.

Definition fits (types : Z) (v : option json) : Prop :=
  match v with Some j => has_type types j = true | None => Z.land types OP_OPTIONAL =? 0 = false end.

Lemma member_returns nm o fs all k v rest types :
  object_has o all -> NoDup all.*1 -> all = fs ++ (k, v) :: rest -> fits types v ->
  ovsdb_parser_member hash_string (reader nm o fs) k types = (v, reader nm o (fs ++ [(k, v)])).
Proof.
  intros Ho Hd -> Hf. unfold ovsdb_parser_member, reader. cbn [json_of]. rewrite (find_data_contents _ _ _ _ Ho).
  rewrite (present_lookup _ k v Hd) by (apply elem_of_app; right; by constructor).
  destruct v as [j |]; cbn [fits] in Hf; rewrite Hf; [| by rewrite present_app, app_nil_r].
  f_equal. unfold reader. rewrite present_app, fmap_app, reverse_app. cbn [present omap list_omap fmap option_fmap option_map list_fmap fst snd].
  change (mk_ovsdb_parser nm (sset_add (reverse (present fs).*1) k) (Some o) None = mk_ovsdb_parser nm (k :: reverse (present fs).*1) (Some o) None).
  f_equal. unfold sset_add.
  rewrite decide_False; [done |]. rewrite elem_of_reverse. intros H%present_names.
  rewrite fmap_app in Hd. apply NoDup_app in Hd as (_ & Hd & _). apply (Hd k H). by constructor.
Qed.

Lemma finish_all nm o all : object_has o all -> NoDup all.*1 -> ovsdb_parser_finish (reader nm o all) = None.
Proof.
  intros Ho Hd. unfold ovsdb_parser_finish, reader. cbn [json_of parse_error used]. rewrite (count_contents _ _ _ Ho), length_reverse, length_fmap.
  rewrite <- (length_map_to_list (list_to_map (present all))), map_to_list_to_map by (by apply present_nodup). by rewrite Z.sub_diag.
Qed.
(** Reads the next of the members [all] of the object. *)
Ltac read Ho Hd :=
  match goal with
  | |- context [ovsdb_parser_member _ (reader ?nm ?o ?fs) ?k ?types] =>
      rewrite (member_returns nm o fs _ k _ _ types Ho Hd ltac:(first [reflexivity | rewrite <- app_assoc; reflexivity])); [| try done]
  end.

(** ** Types of atoms *)

Lemma atomic_type_roundtrip type :
  type <> OVSDB_TYPE_VOID -> ovsdb_atomic_type_from_json (JSON_STRING (ovsdb_atomic_type_to_string type) : json) = inl type.
Proof. by destruct type. Qed.

Lemma init_ok type : base_ok (R := R) (ovsdb_base_type_init type).
Proof.
  split; [| done]. destruct type; cbn; [done | by unfold LLONG_MIN, LLONG_MAX | | done | by unfold UINT_MAX | done].
  split; [apply double_min_ok |]. split; [apply double_max_ok |]. apply (double_range DBL_MAX), double_max_ok.
Qed.

Lemma enum_type_ok type : type <> OVSDB_TYPE_VOID -> type_ok (R := R) (ovsdb_base_type_get_enum_type type).
Proof. intros H. split; [apply init_ok | apply init_ok | done | done | done]. Qed.

Lemma enum_valid base enum :
  base_ok base -> enum_ base = Some enum -> valid (ovsdb_base_type_get_enum_type (type base)) enum.
Proof.
  intros [_ H] E. rewrite E in H. destruct H as (_ & Ht & Hok & Hne & Hc). split; [done |]. split.
  - cbn. pose proof (length_ok _ _ _ Hok). unfold DATUM_MAX, UINT_MAX in *. destruct enum; [done |]. cbn in *. lia.
  - apply check_constraints_none; [apply Hok |]. pose proof (rows_ok _ _ _ Hok) as Hr. rewrite Forall_forall in Hc, Hr |- *. intros r Hin.
    split; [by apply Hr |]. split; [by apply Hc |]. apply Hr in Hin as [_ Hv]. destruct r as [k [v |]]; [| done]. by destruct Hv, v.
Qed.

Lemma no_constraints base :
  base_ok base -> ovsdb_base_type_has_constraints base = false -> base = ovsdb_base_type_init (type base).
Proof.
  intros [Hc _]. unfold ovsdb_base_type_has_constraints, ovsdb_base_type_init, constraints_ok in *. destruct base as [t e c]. cbn in *.
  destruct e; [done |]. destruct t, c as [| min max | min max | min max | ref]; try done; cbn.
  - intros [E1 E2]%orb_false_iff. apply negb_false_iff, Z.eqb_eq in E1 as ->. by apply negb_false_iff, Z.eqb_eq in E2 as ->.
  - intros [E1 E2]%orb_false_iff. destruct Hc as (Hmin & Hmax & _).
    apply negb_false_iff, double_eq_spec in E1 as ->; [| done | apply double_min_ok].
    by apply negb_false_iff, double_eq_spec in E2 as ->; [| done | apply double_max_ok].
  - intros [E1 E2]%orb_false_iff. apply negb_false_iff, Z.eqb_eq in E1 as ->. by apply negb_false_iff, Z.eqb_eq in E2 as ->.
  - case_bool_decide as H; [done |]. intros _. destruct ref; [| done]. by destruct H.
Qed.

Lemma double_eqb_refl (x : R) : canonical x -> double_eqb x x = true.
Proof. intros H. by apply double_eq_spec. Qed.

(** The members that hold the constraints. *)
Definition unless (b : bool) j : option json := if b then None else Some j.

Definition constraint_fields (constraints : base_constraints R) : fields :=
  match constraints with
  | NO_CONSTRAINTS => []
  | INTEGER_CONSTRAINTS min max =>
      [(str "minInteger", unless (min =? LLONG_MIN) (JSON_INTEGER min)); (str "maxInteger", unless (max =? LLONG_MAX) (JSON_INTEGER max))]
  | REAL_CONSTRAINTS min max =>
      [(str "minReal", unless (double_eqb min minus_DBL_MAX) (JSON_REAL min)); (str "maxReal", unless (double_eqb max DBL_MAX) (JSON_REAL max))]
  | STRING_CONSTRAINTS minLen maxLen =>
      [(str "minLength", unless (minLen =? 0) (JSON_INTEGER minLen)); (str "maxLength", unless (maxLen =? UINT_MAX) (JSON_INTEGER maxLen))]
  | UUID_CONSTRAINTS None => [(str "refTable", None)]
  | UUID_CONSTRAINTS (Some (refTableName, refType)) =>
      [(str "refTable", Some (JSON_STRING refTableName));
       (str "refType", unless (bool_decide (refType = OVSDB_REF_STRONG)) (JSON_STRING (str "weak")))]
  end.

Lemma constraints_to_json_fields constraints o :
  constraints_to_json hash_string constraints o = put_fields (constraint_fields constraints) o.
Proof.
  destruct constraints as [| min max | min max | min max | [[name ref] |]]; cbn; unfold put_field; cbn; [done | | | | | done].
  - by destruct (min =? LLONG_MIN), (max =? LLONG_MAX).
  - by destruct (double_eqb min minus_DBL_MAX), (double_eqb max DBL_MAX).
  - by destruct (min =? 0), (max =? UINT_MAX).
  - by destruct ref.
Qed.

Lemma default_fields type : present (constraint_fields (default_constraints type)) = [].
Proof.
  destruct type; cbn; try done. by rewrite (double_eqb_refl minus_DBL_MAX), (double_eqb_refl DBL_MAX) by (apply double_min_ok || apply double_max_ok).
Qed.

Lemma default_integer n dflt : default dflt (j ← unless (n =? dflt) (JSON_INTEGER n); json_integer j) = n.
Proof. by destruct (Z.eqb_spec n dflt). Qed.

Lemma default_real (x dflt : R) :
  canonical x -> canonical dflt -> default dflt (j ← unless (double_eqb x dflt) (JSON_REAL x); json_real j) = x.
Proof. intros Hx Hd. destruct (double_eqb x dflt) eqn:E; [| done]. by apply double_eq_spec in E as ->. Qed.

Lemma any_fits (v : option json) : fits (optional OP_ANY) v.
Proof. by destruct v as [[] |]. Qed.

Lemma uint_reads nm o fs all k (n dflt : Z) rest :
  object_has o all -> NoDup all.*1 -> all = fs ++ (k, unless (n =? dflt) (JSON_INTEGER n)) :: rest -> 0 <= n <= UINT_MAX ->
  parse_optional_uint hash_string (reader nm o fs) k dflt = (n, None, reader nm o (fs ++ [(k, unless (n =? dflt) (JSON_INTEGER n))])).
Proof.
  intros Ho Hd Ha Hn. unfold parse_optional_uint. rewrite (member_returns nm o fs all k _ rest _ Ho Hd Ha) by (by destruct (n =? dflt)).
  destruct (Z.eqb_spec n dflt) as [-> | Hne]; cbn [unless]; [done |]. rewrite Z.gtb_ltb.
  assert ((n <? 0) || (UINT_MAX <? n) = false) as -> by lia. done.
Qed.

Lemma constraints_read nm o fs base j :
  constraints_ok base -> object_has o (fs ++ constraint_fields (constraints base)) -> NoDup (fs ++ constraint_fields (constraints base)).*1 ->
  constraints_from_json hash_string (type base) (reader nm o fs) j =
  (constraints base, None, reader nm o (fs ++ constraint_fields (constraints base))).
Proof.
  unfold constraints_ok. destruct base as [t e c]. cbn [type constraints]. intros Hc Ho Hd. unfold constraints_from_json.
  destruct t, c as [| min max | min max | min max | [[table ref] |]]; try done; cbn [constraint_fields] in *.
  - by rewrite app_nil_r.
  - read Ho Hd; [| by destruct (min =? LLONG_MIN)]. read Ho Hd; [| by destruct (max =? LLONG_MAX)]. rewrite <- app_assoc. cbn [app].
    rewrite !default_integer, Z.gtb_ltb. by assert (max <? min = false) as -> by lia.
  - read Ho Hd; [| by destruct (double_eqb min _)]. read Ho Hd; [| by destruct (double_eqb max _)]. rewrite <- app_assoc. cbn [app].
    destruct Hc as (Hmin & Hmax & Hle).
    rewrite (default_real min), (default_real max) by (done || apply double_min_ok || apply double_max_ok).
    rewrite double_le_spec in Hle by done. apply negb_true_iff in Hle. by rewrite Hle.
  - by rewrite app_nil_r.
  - rewrite (uint_reads nm o fs _ _ min 0 _ Ho Hd eq_refl) by lia.
    rewrite (uint_reads nm o _ _ (str "maxLength") max UINT_MAX [] Ho Hd (app_assoc fs [_] _)) by lia. rewrite <- app_assoc. cbn [app].
    rewrite Z.gtb_ltb. by assert (max <? min = false) as -> by lia.
  - destruct Hc as [Hn Hid]. read Ho Hd. cbn [mbind option_bind json_string]. read Ho Hd; [| by destruct ref].
    rewrite <- app_assoc. cbn [app]. by destruct ref.
  - by read Ho Hd.
Qed.

Ltac distinct := apply (bool_decide_eq_true_1 (NoDup _)); by vm_compute.

(** The members of a type. *)
Definition enum_field base : option json :=
  (λ enum, ovsdb_datum_to_json enum (ovsdb_base_type_get_enum_type (type base))) <$> enum_ base.

Definition base_fields base : fields :=
  [(str "type", Some (JSON_STRING (ovsdb_atomic_type_to_string (type base)))); (str "enum", enum_field base)] ++
  constraint_fields (constraints base).

Lemma base_names base : NoDup (base_fields base).*1.
Proof.
  unfold base_fields. destruct (constraints base) as [| ? ? | ? ? | ? ? | [[? ?] |]]; distinct.
Qed.

Lemma base_object base : exists o,
  object_has o (base_fields base) /\
  ovsdb_base_type_to_json hash_string base =
  (if ovsdb_base_type_has_constraints base then JSON_OBJECT o else JSON_STRING (ovsdb_atomic_type_to_string (type base))).
Proof.
  exists (put_fields (base_fields base) shash_init). split.
  - apply (put_fields_has shash_init []); [apply init_has | apply base_names |].
    unfold base_fields. by destruct (constraints base) as [| ? ? | ? ? | ? ? | [[? ?] |]].
  - unfold ovsdb_base_type_to_json. destruct (ovsdb_base_type_has_constraints base); [| done]. cbn [negb]. rewrite constraints_to_json_fields.
    unfold put_fields, base_fields. rewrite foldl_app. unfold enum_field. by destruct (enum_ base).
Qed.

Lemma base_type_roundtrip base :
  base_ok base -> type base <> OVSDB_TYPE_VOID ->
  ovsdb_base_type_from_json hash_string uuid_generate (ovsdb_base_type_to_json hash_string base) = Value base.
Proof.
  intros Hb Ht. destruct (base_object base) as (o & Ho & ->). pose proof (base_names base) as Hd.
  destruct (ovsdb_base_type_has_constraints base) eqn:Ec.
  2: { unfold ovsdb_base_type_from_json. rewrite atomic_type_roundtrip by done. by rewrite <- no_constraints. }
  unfold ovsdb_base_type_from_json, ovsdb_parser_init. change (mk_ovsdb_parser ?nm [] (Some o) None) with (reader nm o []).
  read Ho Hd. rewrite atomic_type_roundtrip by done. read Ho Hd; [| apply any_fits].
  unfold enum_field. destruct (enum_ base) as [enum |] eqn:Ee; cbn [fmap option_fmap option_map].
  - unfold without_symbols. rewrite datum_roundtrip by (by apply enum_valid). cbn [fst]. unfold finish.
    destruct Hb as [_ H]. rewrite Ee in H. destruct H as (Hc & _). rewrite finish_all.
    + destruct base as [t e c]. cbn in *. by subst.
    + unfold object_has, base_fields in Ho. rewrite Hc, present_app, default_fields, app_nil_r in Ho. unfold enum_field in Ho. by rewrite Ee in Ho.
    + distinct.
  - pose proof Ho as Ho'. pose proof Hd as Hd'. unfold base_fields, enum_field in Ho', Hd'. rewrite Ee in Ho', Hd'.
    rewrite (constraints_read _ _ _ base _ (proj1 Hb) Ho' Hd'). unfold finish. rewrite (finish_all _ _ _ Ho' Hd').
    destruct base as [t e c]. cbn in *. by subst.
Qed.

(** ** Types of data *)

Definition max_field (n : Z) : option json :=
  if n =? UINT_MAX then Some (JSON_STRING (str "unlimited")) else unless (n =? 1) (JSON_INTEGER n).

Definition type_fields ty : fields :=
  [(str "key", Some (ovsdb_base_type_to_json hash_string (key ty)));
   (str "value", if is_void (value ty) then None else Some (ovsdb_base_type_to_json hash_string (value ty)));
   (str "min", unless (n_min ty =? 1) (JSON_INTEGER (n_min ty)));
   (str "max", max_field (n_max ty))].

Lemma type_names ty : NoDup (type_fields ty).*1.
Proof. distinct. Qed.

Lemma type_object ty : exists o,
  object_has o (type_fields ty) /\
  ovsdb_type_to_json hash_string ty =
  (if ovsdb_type_is_scalar ty && negb (ovsdb_base_type_has_constraints (key ty)) then ovsdb_base_type_to_json hash_string (key ty)
   else JSON_OBJECT o).
Proof.
  exists (put_fields (type_fields ty) shash_init). split.
  - by apply (put_fields_has shash_init []); [apply init_has | apply type_names |].
  - unfold ovsdb_type_to_json. destruct (_ && _); [done |]. unfold put_fields, type_fields, max_field. cbn [foldl].
    by destruct (is_void (value ty)), (n_min ty =? 1), (n_max ty =? UINT_MAX), (n_max ty =? 1).
Qed.

Lemma base_fits base types :
  (forall s, has_type types (JSON_STRING s : json) = true) -> (forall o, has_type types (JSON_OBJECT o : json) = true) ->
  fits types (Some (ovsdb_base_type_to_json hash_string base)).
Proof.
  intros Hs Ho. destruct (base_object base) as (o & _ & ->). cbn. destruct (ovsdb_base_type_has_constraints base); [apply Ho | apply Hs].
Qed.

Lemma n_roundtrip n : 0 <= n < UINT_MAX -> n_from_json (unless (n =? 1) (JSON_INTEGER n : json)) 1 = inl n.
Proof.
  intros Hn. destruct (Z.eqb_spec n 1) as [-> | Hne]; [done |]. cbn. rewrite Z.geb_leb.
  by assert ((0 <=? n) && (n <? UINT_MAX) = true) as -> by lia.
Qed.

Lemma base_valid base : base_ok base -> ovsdb_base_type_is_valid base = true.
Proof.
  intros [Hc _]. unfold constraints_ok, ovsdb_base_type_is_valid in *. destruct (type base), (constraints base) as [| | | |]; try done; try lia. by destruct Hc as (_ & _ & ?).
Qed.

Lemma type_valid ty : type_ok ty -> ovsdb_type_is_valid ty = true.
Proof.
  intros [Hk Hv Hn Hmin Hmax]. unfold ovsdb_type_is_valid, is_void. rewrite !base_valid by done. rewrite bool_decide_eq_false_2 by done. cbn [negb andb]. lia.
Qed.

Lemma void_init base : base_ok base -> type base = OVSDB_TYPE_VOID -> base = ovsdb_base_type_init OVSDB_TYPE_VOID.
Proof.
  intros Hb Ht. rewrite <- Ht. apply no_constraints; [done |]. destruct Hb as [Hc He]. unfold constraints_ok, ovsdb_base_type_has_constraints in *.
  rewrite Ht in *. destruct (enum_ base); [by destruct He as (_ & ? & _) |]. by destruct (constraints base).
Qed.

Lemma sizes_roundtrip ty j :
  type_ok ty ->
  type_with_sizes (key ty) (value ty) (unless (n_min ty =? 1) (JSON_INTEGER (n_min ty))) (max_field (n_max ty)) j = Value ty.
Proof.
  intros Hty. unfold type_with_sizes. rewrite n_roundtrip by (destruct (n_min_ok _ Hty); unfold UINT_MAX; lia).
  pose proof (n_max_ok _ Hty) as Hmax. pose proof (type_valid ty Hty) as Hv. destruct ty as [k v min max]. cbn [key value n_min n_max] in *.
  assert (match max_field max with
          | Some (JSON_STRING s) => if strcmp s (str "unlimited") =? 0 then inl UINT_MAX else n_from_json (max_field max) 1
          | _ => n_from_json (max_field max) 1
          end = inl max) as ->; [| by rewrite Hv].
  unfold max_field. destruct (Z.eqb_spec max UINT_MAX) as [-> | Hne]; [done |].
  pose proof (n_roundtrip max ltac:(lia)) as Hn. by destruct (max =? 1).
Qed.

Lemma type_roundtrip ty :
  type_ok ty -> ovsdb_type_from_json hash_string uuid_generate (ovsdb_type_to_json hash_string ty) = Value ty.
Proof.
  intros Hty. destruct (type_object ty) as (o & Ho & ->). pose proof (type_names ty) as Hd. pose proof Hty as [Hk Hv Hn Hmin Hmax].
  destruct (_ && _) eqn:E.
  - apply andb_true_iff in E as [Es Ec%negb_true_iff]. destruct (base_object (key ty)) as (ko & _ & Ek). rewrite Ec in Ek.
    pose proof (base_type_roundtrip (key ty) Hk Hn) as Hr. rewrite Ek in Hr |- *. unfold ovsdb_type_from_json. rewrite Hr.
    unfold ovsdb_type_is_scalar, is_void in Es. apply andb_true_iff in Es as [[Ev E1%Z.eqb_eq]%andb_true_iff E2%Z.eqb_eq].
    apply bool_decide_eq_true in Ev. f_equal. unfold scalar_type. destruct ty as [k v min max]. cbn in *. subst. f_equal.
    symmetry. by apply void_init.
  - unfold ovsdb_type_from_json, ovsdb_parser_init. change (mk_ovsdb_parser ?nm [] (Some o) None) with (reader nm o []).
    read Ho Hd; [| by apply base_fits]. read Ho Hd; [| by destruct (is_void (value ty)); [| apply base_fits]].
    read Ho Hd; [| by destruct (n_min ty =? 1)].
    read Ho Hd; [| by unfold max_field; destruct (n_max ty =? UINT_MAX), (n_max ty =? 1)].
    cbn [app]. rewrite (finish_all _ _ _ Ho Hd), base_type_roundtrip by done.
    assert (from_option (ovsdb_base_type_from_json hash_string uuid_generate) (Value (ovsdb_base_type_init OVSDB_TYPE_VOID))
      (if is_void (value ty) then None else Some (ovsdb_base_type_to_json hash_string (value ty))) = Value (value ty)) as ->.
    { unfold is_void. case_bool_decide as Ev; [| by apply base_type_roundtrip]. cbn. f_equal. symmetry. by apply void_init. }
    by apply sizes_roundtrip.
Qed.

(** ** Reading any JSON *)

Definition returns {A} (m : outcome ovsdb_error A) (Q : A -> Prop) : Prop :=
  match m with Value x => Q x | Error _ => True | Crash => False end.

Lemma wf_member o k v : wf hash_string (JSON_OBJECT o) -> shash_find_data hash_string o k = Some v -> wf hash_string v.
Proof.
  intros (N & n & HN & H) Hf. destruct n as [| n]; [done |]. destruct H as [_ H]. unfold shash_find_data in Hf.
  apply bind_Some in Hf as (i & _ & Hn). unfold node_data in Hn. apply fmap_Some in Hn as ([k' v'] & Hi & ->).
  rewrite Forall_lookup in H. exists N, n. split; [done |]. by apply (H i) in Hi as [_ ?].
Qed.

Lemma wf_elements j : wf hash_string j -> Z.of_nat (elements j) < DATUM_MAX.
Proof.
  intros Hj. destruct j as [| | | | l | | |]; try done. destruct l as [| x [| y l]]; try done.
  destruct y as [| | | | m | | |]; try done. destruct l as [| z l]; [| done]. by apply wf_pair in Hj as [_ [Hj _]%wf_array].
Qed.

(** A parser of an object, or one that failed already. *)
Definition parser_ok p : Prop := match json_of p with Some o => wf hash_string (JSON_OBJECT o) | None => is_Some (parse_error p) end.

Lemma parser_init_ok j nm : wf hash_string j -> parser_ok (ovsdb_parser_init (Some j) nm).
Proof. intros Hj. destruct j; try done; by eexists. Qed.

Lemma raise_error_is_some p message : is_Some (parse_error (ovsdb_parser_raise_error p message)).
Proof. unfold ovsdb_parser_raise_error. destruct (parse_error p) eqn:E; rewrite ?E; by eexists. Qed.

Lemma raise_error_json p message : json_of (ovsdb_parser_raise_error p message) = json_of p.
Proof. unfold ovsdb_parser_raise_error. by destruct (parse_error p). Qed.

(** What a member that was read is. *)
Definition member_ok (types : Z) (v : option json) p : Prop :=
  match v with
  | Some j => wf hash_string j /\ has_type types j = true
  | None => Z.land types OP_OPTIONAL =? 0 = true -> is_Some (parse_error p)
  end.

Lemma member_safe p k types v p' :
  parser_ok p -> ovsdb_parser_member hash_string p k types = (v, p') ->
  parser_ok p' /\ (is_Some (parse_error p) -> is_Some (parse_error p')) /\ member_ok types v p'.
Proof.
  unfold parser_ok, ovsdb_parser_member. destruct (json_of p) as [o |] eqn:E; intros Hp.
  2: { intros [= <- <-]. rewrite E. split; [done |]. split; [done |]. by intros _. }
  destruct (shash_find_data hash_string o k) as [j |] eqn:Ef.
  - apply wf_member in Ef; [| done]. destruct (has_type types j) eqn:Eh; intros [= <- <-]; [by destruct p; cbn in *; rewrite E |].
    rewrite raise_error_json, E. pose proof raise_error_is_some. split; [done |]. split; [auto |]. by intros _.
  - intros [= <- <-]. destruct (_ =? 0) eqn:Eo; [rewrite raise_error_json | ]; rewrite E; pose proof raise_error_is_some.
    + split; [done |]. split; [auto |]. by intros _.
    + split; [done |]. split; [done |]. cbn. by rewrite Eo.
Qed.

Lemma finish_failed p : is_Some (parse_error p) -> is_Some (ovsdb_parser_finish p).
Proof. intros [e He]. unfold ovsdb_parser_finish. rewrite He. by eexists. Qed.

(** What the members can be, by the types that are allowed. *)
Lemma integer_member v p : member_ok (optional (OP INTEGER_TYPE)) v p ->
  forall n, LLONG_MIN <= n <= LLONG_MAX -> LLONG_MIN <= default n (j ← v; json_integer j) <= LLONG_MAX.
Proof.
  intros Hv n Hn. destruct v as [j |]; [| done]. destruct Hv as [Hj%wf_scalar Ht]. by destruct j.
Qed.

Lemma real_member v p : member_ok (optional OP_NUMBER) v p ->
  forall x : R, canonical x -> canonical (default x (j ← v; json_real j)).
Proof.
  intros Hv x Hx. destruct v as [j |]; [| done]. destruct Hv as [Hj%wf_scalar Ht]. destruct j; try done. by apply double_integer.
Qed.

Lemma id_member v p string : member_ok (optional OP_ID) v p -> v ≫= json_string = Some string ->
  no_nul string /\ ovsdb_parser_is_id string = true.
Proof.
  intros Hv E. destruct v as [j |]; [| done]. destruct Hv as [Hj%wf_scalar Ht]. destruct j; try done. by injection E as ->.
Qed.

Lemma uint_safe p k dflt n e p' :
  parser_ok p -> 0 <= dflt <= UINT_MAX -> parse_optional_uint hash_string p k dflt = (n, e, p') -> parser_ok p' /\ 0 <= n <= UINT_MAX.
Proof.
  intros Hp Hd. unfold parse_optional_uint. destruct (ovsdb_parser_member _ _ _ _) as [v p''] eqn:E.
  apply member_safe in E as (Hp' & _ & Hv); [| done]. destruct v as [[] |]; try (by intros [= <- <- <-]).
  destruct (_ || _) eqn:Eo; [by intros [= <- <- <-] |]. intros [= <- <- <-]. split; [done |]. rewrite Z.gtb_ltb in Eo. lia.
Qed.

Lemma constraints_safe type p j c p' :
  parser_ok p -> constraints_from_json hash_string type p j = (c, None, p') -> constraints_ok (mk_base type None c).
Proof.
  intros Hp. unfold constraints_from_json, constraints_ok. cbn [OvsdbTypes.Ovsdb.type constraints]. destruct type.
  - by intros [= <- _].
  - destruct (ovsdb_parser_member _ p _ _) as [min p1] eqn:E1. apply member_safe in E1 as (Hp1 & _ & Hmin); [| done].
    destruct (ovsdb_parser_member _ p1 _ _) as [max p2] eqn:E2. apply member_safe in E2 as (Hp2 & _ & Hmax); [| done].
    pose proof (integer_member _ _ Hmin LLONG_MIN ltac:(done)) as H1. pose proof (integer_member _ _ Hmax LLONG_MAX ltac:(done)) as H2.
    destruct (_ >? _) eqn:Eg; intros [= <- _]. rewrite Z.gtb_ltb in Eg. lia.
  - destruct (ovsdb_parser_member _ p _ _) as [min p1] eqn:E1. apply member_safe in E1 as (Hp1 & _ & Hmin); [| done].
    destruct (ovsdb_parser_member _ p1 _ _) as [max p2] eqn:E2. apply member_safe in E2 as (Hp2 & _ & Hmax); [| done].
    pose proof (real_member _ _ Hmin _ double_min_ok) as H1. pose proof (real_member _ _ Hmax _ double_max_ok) as H2.
    destruct (double_ltb _ _) eqn:Eg; intros [= <- _]. split; [done |]. split; [done |]. by rewrite double_le_spec, Eg.
  - by intros [= <- _].
  - destruct (parse_optional_uint _ p _ _) as [[min e1] p1] eqn:E1. apply uint_safe in E1 as [Hp1 Hmin]; [| done | done].
    destruct e1 as [e1 |]; [by intros [=] |].
    destruct (parse_optional_uint _ p1 _ _) as [[max e2] p2] eqn:E2. apply uint_safe in E2 as [Hp2 Hmax]; [| done | done].
    destruct e2; [by intros [=] |]. destruct (_ >? _) eqn:Eg; intros [= <- _]. rewrite Z.gtb_ltb in Eg. lia.
  - destruct (ovsdb_parser_member _ p _ _) as [table p1] eqn:E1. apply member_safe in E1 as (Hp1 & _ & Ht); [| done].
    destruct (table ≫= json_string) as [name |] eqn:En; [| by intros [= <- _]]. apply (id_member table p1 name Ht) in En.
    destruct (ovsdb_parser_member _ p1 _ _) as [ref p2] eqn:E2. destruct (ref ≫= json_string); [| by intros [= <- _]].
    destruct (_ =? 0); [by intros [= <- _] |]. destruct (_ =? 0); by intros [= <- _].
Qed.

Lemma atomic_type_not_void j type : ovsdb_atomic_type_from_json j = inl type -> type <> OVSDB_TYPE_VOID.
Proof.
  destruct j; try done. cbn. unfold ovsdb_atomic_type_from_string. repeat (destruct (_ =? 0); [by intros [= <-] |]). done.
Qed.

Lemma enum_safe type j :
  wf hash_string j -> type <> OVSDB_TYPE_VOID ->
  returns (without_symbols (ovsdb_datum_from_json hash_string uuid_generate (ovsdb_base_type_get_enum_type type) j))
    (λ enum, base_ok (R := R) (ovsdb_base_type_init type <| enum_ := Some enum |>)).
Proof.
  intros Hj Ht. pose proof (datum_from_json_safe hash_string uuid_generate Hgen _ j (enum_type_ok type Ht) Hj 0 None I ltac:(done)) as Hs.
  pose proof (wf_elements j Hj) as He. specialize (Hs ltac:(unfold SYMBOLS_MAX, DATUM_MAX in *; lia)). unfold without_symbols.
  destruct (ovsdb_datum_from_json _ _ _ _ _) as [[d | e |] s]; cbn in *; [| done | by destruct Hs as (_ & _ & [])].
  destruct Hs as (_ & _ & Hok & Hn & Hc). split; [exact (proj1 (init_ok type)) |]. cbn. split; [done |]. split; [done |]. split; [done |].
  split; [intros ->; cbn in Hn; lia |]. apply check_constraints_none in Hc; [| by apply ok_rows].
  eapply Forall_impl; [exact Hc |]. by intros r (_ & ? & _).
Qed.

Definition base_read base : Prop := base_ok base /\ type base <> OVSDB_TYPE_VOID.

Lemma finish_returns {A} (x : A) e p (Q : A -> Prop) : (e = None -> Q x) -> returns (finish x e p) Q.
Proof. unfold finish. destruct e; [done |]. destruct (ovsdb_parser_finish p); cbn; auto. Qed.

Lemma base_type_safe j : wf hash_string j -> returns (ovsdb_base_type_from_json hash_string uuid_generate j) base_read.
Proof.
  intros Hj. pose proof (parser_init_ok j (str "ovsdb type") Hj) as Hp.
  assert (match ovsdb_atomic_type_from_json j with inr error => True | inl t => base_read (ovsdb_base_type_init t) end) as Hs.
  { destruct (ovsdb_atomic_type_from_json j) as [t |] eqn:E; [| done]. split; [apply init_ok | by eapply atomic_type_not_void]. }
  unfold ovsdb_base_type_from_json. cbv zeta.
  destruct (ovsdb_parser_member _ (ovsdb_parser_init (Some j) _) (str "type") _) as [t p1] eqn:E1.
  apply member_safe in E1 as (Hp1 & _ & Ht); [| done].
  assert (returns match t with None => match ovsdb_parser_finish p1 with Some error => Error error | None => Crash end | Some _ => Error (plain_error []) end base_read) as Hnone.
  { destruct t; [done |]. destruct (finish_failed p1 (Ht eq_refl)) as [e ->]. done. }
  assert (forall t, t <> OVSDB_TYPE_VOID ->
    returns (let '(enum, p2) := ovsdb_parser_member hash_string p1 (str "enum") (optional OP_ANY) in
      match enum with
      | Some enum =>
          match without_symbols (ovsdb_datum_from_json hash_string uuid_generate (ovsdb_base_type_get_enum_type t) enum) with
          | Value datum => finish (ovsdb_base_type_init t <| enum_ := Some datum |>) None p2
          | Error error => finish (ovsdb_base_type_init t) (Some error) p2
          | Crash => Crash
          end
      | None =>
          let '(constraints, error, p3) := constraints_from_json hash_string t p2 j in
          finish (ovsdb_base_type_init t <| OvsdbTypes.Ovsdb.constraints := constraints |>) error p3
      end) base_read) as Hobj.
  { intros t' Hv. destruct (ovsdb_parser_member _ p1 _ _) as [enum p2] eqn:E2. apply member_safe in E2 as (Hp2 & _ & He); [| done].
    destruct enum as [enum |].
    - pose proof (enum_safe t' enum (proj1 He) Hv) as H. destruct (without_symbols _); [| done | done]. apply finish_returns. by intros _.
    - destruct (constraints_from_json _ _ _ _) as [[c e] p3] eqn:Ec. apply finish_returns. intros ->. apply constraints_safe in Ec; [| done]. done. }
  destruct j; try (destruct t as [t |]; [| done]; destruct (ovsdb_atomic_type_from_json t) as [t' |] eqn:Et; [| done];
    apply Hobj; by eapply atomic_type_not_void).
  by destruct (ovsdb_atomic_type_from_json _).
Qed.

Lemma n_safe (v : option json) n : n_from_json v 1 = inl n -> 0 <= n <= UINT_MAX.
Proof.
  destruct v as [j |]; cbn; [| by intros [= <-]]. destruct j; try done. rewrite Z.geb_leb. destruct (_ && _) eqn:E; [| done]. intros [= <-]. lia.
Qed.

Lemma sizes_safe k v min max j :
  base_read k -> base_ok v -> returns (type_with_sizes k v min max j) type_ok.
Proof.
  intros [Hk Hn] Hv. unfold type_with_sizes. destruct (n_from_json min 1) as [n |] eqn:E1; [| done]. apply n_safe in E1.
  destruct (match max with Some (JSON_STRING _) => _ | _ => _ end) as [m |] eqn:E2; [| done].
  assert (0 <= m <= UINT_MAX) as Hm.
  { destruct max as [[] |]; try (by apply n_safe in E2). destruct (_ =? 0); [by injection E2 as <- | done]. }
  cbv zeta. destruct (ovsdb_type_is_valid _) eqn:Evalid; [| done]. unfold ovsdb_type_is_valid in Evalid. cbn in Evalid.
  rewrite !andb_true_iff, Z.geb_leb in Evalid. destruct Evalid as [[_ H1] H2]. split; cbn; [done | done | done | lia | lia].
Qed.

Lemma type_safe j : wf hash_string j -> returns (ovsdb_type_from_json hash_string uuid_generate j) type_ok.
Proof.
  intros Hj. destruct j as [| | | o | | | | string] eqn:Ej; try done.
  - pose proof (parser_init_ok j (str "ovsdb type")) as Hp. rewrite Ej in Hp. specialize (Hp Hj). unfold ovsdb_type_from_json.
    destruct (ovsdb_parser_member _ (ovsdb_parser_init _ _) _ _) as [k p1] eqn:E1. apply member_safe in E1 as (Hp1 & _ & Hk); [| done].
    destruct (ovsdb_parser_member _ p1 _ _) as [v p2] eqn:E2. apply member_safe in E2 as (Hp2 & Hf2 & Hv); [| done].
    destruct (ovsdb_parser_member _ p2 _ _) as [min p3] eqn:E3. apply member_safe in E3 as (Hp3 & Hf3 & _); [| done].
    destruct (ovsdb_parser_member _ p3 _ _) as [max p4] eqn:E4. apply member_safe in E4 as (Hp4 & Hf4 & _); [| done].
    destruct k as [k |].
    2: { destruct (finish_failed p4 (Hf4 (Hf3 (Hf2 (Hk eq_refl))))) as [e ->]. done. }
    destruct (ovsdb_parser_finish p4); [done |]. pose proof (base_type_safe k (proj1 Hk)) as Hkb.
    assert (returns (from_option (ovsdb_base_type_from_json hash_string uuid_generate) (Value (ovsdb_base_type_init OVSDB_TYPE_VOID)) v) base_ok) as Hvb.
    { destruct v as [v |]; [| apply init_ok]. pose proof (base_type_safe v (proj1 Hv)) as H. cbn. by destruct (ovsdb_base_type_from_json _ _ v); [apply H | |]. }
    destruct (ovsdb_base_type_from_json _ _ k); [| done | done]. destruct (from_option _ _ v); [| done | done]. by apply sizes_safe.
  - pose proof (base_type_safe (JSON_STRING string) Hj) as H. unfold ovsdb_type_from_json.
    destruct (ovsdb_base_type_from_json _ _ _) as [k | e |]; [| done | done]. destruct H as [Hk Hn]. split; cbn; [done | apply init_ok | done | done | by unfold UINT_MAX].
Qed.

End types.
End OvsdbTypeThms.
