(* ===== verification/OvsdbText.v ===== *)
(** Data in the text format of the command line tools: lib/ovsdb-data.c, from tokens to data,
    and the conversions of numbers of lib/util.c that it uses. *)
From stdpp Require Import gmap sorting.
From S2P Require Import Prelude Text Scan Unicode Containers Shash Json Sort Uuid OvsdbTypes OvsdbData OvsdbJson.

Module OvsdbText.
Export OvsdbJson.

(** ** Numbers *)

(** strtoll(s, &tail, 10): the value and the tail; [None] is no number, or one out of range. *)
Definition str_to_llong_with_tail (s : chars) : option (Z * chars) :=
  let s := Scan.skip_spaces s in
  let negative := hd_char s =c "-" in
  let s := if negative || (hd_char s =c "+") then tail s else s in
  let '(digits, tail) := span isdigit s in
  let magnitude := digits_value 10 0 (List.map hexit_value digits) in
  let x := if negative then - magnitude else magnitude in
  if (length digits =? 0)%nat || (x <? LLONG_MIN) || (x >? LLONG_MAX) then None else Some (x, tail).

Definition str_to_llong (s : chars) : option Z :=
  match str_to_llong_with_tail s with
  | Some (x, tail) => if hd_char tail =c NUL then Some x else None
  | None => None
  end.

Definition str_to_llong_range (s : chars) : option (Z * Z) :=
  match str_to_llong_with_tail s with
  | Some (begin, tail) => if hd_char tail =c "-" then pair begin <$> str_to_llong (List.tl tail) else None
  | None => None
  end.

(** ** Tokens *)

Definition ovsdb_token_is_delim (c : ascii) : bool := strchr (str ":=, []{}!<>") c.

(** The token and the rest, or the message of an error; [s] is the text from its start. *)
Fixpoint token_loop (s : chars) (in_quotes : bool) (p out : chars) : (chars * chars) + chars :=
  match p with
  | [] => if in_quotes then inr (s ++ str ": quoted string extends past end of argument") else inl (out, [])
  | c :: p' =>
      if c =c "\" then
        match p' with
        | [] => inr (s ++ str ": backslash at end of argument")
        | d :: p'' => token_loop s in_quotes p'' (out ++ (if in_quotes then ["\"%char] else []) ++ [d])
        end
      else if negb in_quotes && ovsdb_token_is_delim c then inl (out, p)
      else token_loop s (if c =c chr 34 then negb in_quotes else in_quotes) p' (out ++ [c])
  end.

Definition ovsdb_token_parse (s : chars) : (chars * chars) + chars := token_loop s false s [].

Section text.
Context {T R : Type} {HT : HashTable T} {D : Double R} {DO : DoubleOrder R} {So : Sorting}.
Context (hash_string : chars -> Z -> Z) (uuid_generate : nat -> uuid) (ovs_retval_to_string : Z -> chars).

Abbreviation atom := (ovsdb_atom R).
Abbreviation row := (atom * option atom)%type.
Abbreviation datum := (ovsdb_datum R).
(** Errors are messages. *)
Abbreviation M A := (Ovsdb.M (option (ovsdb_symbol_table T)) chars A).
Implicit Types (a : atom) (d : datum) (base : ovsdb_base_type R) (ty : ovsdb_type R) (s p : chars).

(** ** Atoms *)

(** The atom and, if [range] is set and the text is a range, the atom at its end. *)
Definition ovsdb_atom_from_string__ (range : bool) base s : M (atom * option atom) :=
  match type base with
  | OVSDB_TYPE_VOID => crash
  | OVSDB_TYPE_INTEGER =>
      match if range then str_to_llong_range s else None with
      | Some (integer, end_) =>
          if end_ <? integer then fail (quoted s ++ str " is not a valid range. Range end cannot be before start.")
          else ret (ATOM_INTEGER integer, Some (ATOM_INTEGER end_))
      | None =>
          match str_to_llong s with
          | Some integer => ret (ATOM_INTEGER integer, None)
          | None => fail (quoted s ++ str " is not a valid integer or range")
          end
      end
  | OVSDB_TYPE_REAL =>
      match str_to_double s with
      | Some real => ret (ATOM_REAL (if double_eqb real double_zero then double_zero else real), None)
      | None => fail (quoted s ++ str " is not a valid real number")
      end
  | OVSDB_TYPE_BOOLEAN =>
      if existsb (λ word, strcmp s word =? 0) [str "true"; str "yes"; str "on"; str "1"] then ret (ATOM_BOOLEAN true, None)
      else if existsb (λ word, strcmp s word =? 0) [str "false"; str "no"; str "off"; str "0"] then ret (ATOM_BOOLEAN false, None)
      else fail (quoted s ++ str " is not a valid boolean (use " ++ quoted (str "true") ++ str " or " ++ quoted (str "false") ++ str ")")
  | OVSDB_TYPE_STRING =>
      if hd_char s =c NUL then
        fail (str "An empty string is not valid as input; use " ++ quoted [] ++ str " to represent the empty string")
      else if hd_char s =c chr 34 then
        if (length s <? 2)%nat || negb (default NUL (last s) =c chr 34) then
          fail (s ++ str ": missing quote at end of quoted string")
        else
          let '(ok, out) := json_string_unescape (take (length s - 2) (tail s)) in
          if ok then ret (ATOM_STRING (cstr out), None) else fail (s ++ str ": " ++ out)
      else ret (ATOM_STRING s, None)
  | OVSDB_TYPE_UUID =>
      if hd_char s =c "@" then uuid ←! use_symbol hash_string uuid_generate s base; ret (ATOM_UUID uuid, None)
      else match uuid_from_string s with
           | Some uuid => ret (ATOM_UUID uuid, None)
           | None => fail (quoted s ++ str " is not a valid UUID")
           end
  end.

Definition MAX_OVSDB_ATOM_RANGE_SIZE : Z := 4096.

Definition ovsdb_atom_range_check_size (range_start range_end : Z) : option ovsdb_error :=
  if u64 (range_end - range_start) >=? MAX_OVSDB_ATOM_RANGE_SIZE then
    Some (db_error (str "constraint violation")
      (str "Range " ++ quoted (print_int range_start ++ str "-" ++ print_int range_end) ++
       str " is too big. Maximum allowed size is " ++ print_int MAX_OVSDB_ATOM_RANGE_SIZE ++ str "."))
  else None.

(** The integers from [i] to [end_], until one of them is not allowed.  [Crash] is a counter that
    overflows; there are at most as many allowed values as [fuel]. *)
Fixpoint check_range (fuel : nat) base (i end_ : Z) : outcome ovsdb_error unit :=
  if i >? end_ then Value tt
  else
    match ovsdb_atom_check_constraints (ATOM_INTEGER i) base with
    | Some error => Error error
    | None => if i =? LLONG_MAX then Crash else match fuel with O => Crash | S fuel => check_range fuel base (i + 1) end_ end
    end.

(** The constraints of the end of a range, and of what is between. *)
Definition check_range_end base (start end_ : Z) : outcome ovsdb_error unit :=
  match (match enum_ base with
         | Some enum => if start =? LLONG_MAX then Crash else check_range (length enum) base (start + 1) end_
         | None => match ovsdb_atom_check_constraints (ATOM_INTEGER end_) base with Some error => Error error | None => Value tt end
         end) with
  | Value tt => match ovsdb_atom_range_check_size start end_ with Some error => Error error | None => Value tt end
  | o => o
  end.

Definition ovsdb_atom_from_string (range : bool) base s : M (atom * option atom) :=
  '(a, range_end) ←! ovsdb_atom_from_string__ range base s;
  match ovsdb_atom_check_constraints a base with
  | Some error => fail (ovsdb_error_to_string ovs_retval_to_string error)
  | None =>
      match range_end with
      | None => ret (a, None)
      | Some range_end =>
          match check_range_end base (a_integer a) (a_integer range_end) with
          | Value _ => ret (a, Some range_end)
          | Error error => fail (ovsdb_error_to_string ovs_retval_to_string error)
          | Crash => crash
          end
      end
  end.

(** ** Data *)

Definition parse_atom_token (range : bool) s base : M (atom * option atom * chars) :=
  match ovsdb_token_parse s with
  | inr error => fail error
  | inl (token, s) => '(a, range_end) ←! ovsdb_atom_from_string range base token; ret (a, range_end, s)
  end.

(** The key, the value of a map, the end of a range of keys, and the rest. *)
Definition parse_key_value s ty : M (atom * option atom * option atom * chars) :=
  '(key, range_end_key, p) ←! parse_atom_token true s (Ovsdb.key ty);
  if negb (is_void (Ovsdb.value ty)) then
    let p := Scan.skip_spaces p in
    if hd_char p =c "=" then
      '(value, _, p) ←! parse_atom_token false (Scan.skip_spaces (tail p)) (Ovsdb.value ty);
      ret (key, Some value, range_end_key, p)
    else fail (cstr (s ++ str ": syntax error at " ++ quoted [hd_char p] ++ str " expecting " ++ quoted (str "=")))
  else ret (key, None, range_end_key, p).

(** The entries up to the delimiter at the end, and the rest from it on; [end_delim] is the
    terminator without one.  Every round uses a character. *)
Fixpoint entries_loop (fuel : nat) s ty (end_delim : ascii) p d : M (datum * chars) :=
  if (hd_char p =c NUL) || (hd_char p =c end_delim) then ret (d, p)
  else
    match fuel with
    | O => crash
    | S fuel =>
        if ovsdb_token_is_delim (hd_char p) then
          fail (s ++ str ": unexpected " ++ quoted [hd_char p] ++ str " parsing " ++ ovsdb_type_to_english ty)
        else
          '(key, value, range_end_key, p) ←! parse_key_value p ty;
          d ←! of_option (ovsdb_datum_add_unsafe d key value ty range_end_key);
          let p := Scan.skip_spaces p in
          entries_loop fuel s ty end_delim (if hd_char p =c "," then Scan.skip_spaces (tail p) else p) d
    end.

Definition check_size s ty d : option chars :=
  let n := Z.of_nat (length d) in
  let things := if ovsdb_type_is_map ty then str "pair(s)" else str "value(s)" in
  if n <? n_min ty then
    Some (s ++ str ": " ++ print_uint 10 n ++ str " " ++ things ++ str " specified but the minimum number is " ++ print_uint 10 (n_min ty))
  else if n >? n_max ty then
    Some (s ++ str ": " ++ print_uint 10 n ++ str " " ++ things ++ str " specified but the maximum number is " ++ print_uint 10 (n_max ty))
  else None.

(** After the entries. *)
Definition finish_datum s ty (end_delim : ascii) p d : M datum :=
  if negb (hd_char p =c end_delim) then fail (s ++ str ": missing " ++ quoted [end_delim] ++ str " at end of data")
  else if negb (end_delim =c NUL) && negb (hd_char (Scan.skip_spaces (tail p)) =c NUL) then
    fail (s ++ str ": trailing garbage after " ++ quoted [end_delim])
  else
    _ ←! guard_error (check_size s ty d);
    let '(d, error) := ovsdb_datum_sort d in
    match error with
    | Some _ => fail (s ++ (if ovsdb_type_is_map ty then str ": map contains duplicate key" else str ": set contains duplicate value"))
    | None => ret d
    end.

Definition ovsdb_datum_from_string ty s : M datum :=
  let is_map := ovsdb_type_is_map ty in
  let p := Scan.skip_spaces s in
  if hd_char p =c (if is_map then "{" else "[") then
    let end_delim := if is_map then "}"%char else "]"%char in
    '(d, p) ←! entries_loop (length s) s ty end_delim (Scan.skip_spaces (tail p)) [];
    finish_datum s ty end_delim p d
  else if hd_char p =c NUL then
    fail (if is_map then str "use " ++ quoted (str "{}") ++ str " to specify the empty map"
          else str "use " ++ quoted (str "[]") ++ str " to specify the empty set")
  else
    '(d, p) ←! entries_loop (length s) s ty NUL p [];
    finish_datum s ty NUL p d.

(** From the pairs of a string map, in the order of SMAP_FOR_EACH. *)
Definition ovsdb_datum_from_smap (smap : list (chars * chars)) : datum :=
  (ovsdb_datum_sort_unique (List.map (λ node : chars * chars, (ATOM_STRING node.1, Some (ATOM_STRING node.2))) smap) OVSDB_TYPE_STRING).1.
End text.
End OvsdbText.
