(* ===== verification/OvsdbTextThms.v ===== *)
(** Data in the text format: reading undoes printing, and reading any text is safe except for
    ranges of the keys of maps, ranges up to the largest integer, and symbols without a table. *)
From stdpp Require Import gmap sorting.
From S2P Require Import Prelude Text Scan Unicode Containers Shash Json JsonLex JsonNumber JsonParse JsonRead JsonRoundtrip Sort Uuid OvsdbTypes OvsdbData OvsdbDatum OvsdbSets OvsdbJson OvsdbJsonThms OvsdbText.

Module OvsdbTextThms.
Import JsonLex JsonNumber JsonRoundtrip.
Export OvsdbText OvsdbJsonThms.

(** ** Tokens *)

Definition wordb (c : ascii) : bool := negb (c =c "\") && negb (c =c chr 34) && negb (ovsdb_token_is_delim c) && negb (isspace c).

(** The text of a token that needs no quotes. *)
Definition word (t : chars) : Prop := Forall (λ c, wordb c = true) t.

Lemma token_word s t rest out : word t -> token_loop s false (t ++ rest) out = token_loop s false rest (out ++ t).
Proof.
  intros Ht. revert out. induction Ht as [| c t Hc Ht IH]; intros out; cbn [app]; [by rewrite app_nil_r |].
  unfold wordb in Hc. rewrite !andb_true_iff, !negb_true_iff in Hc. destruct Hc as [[[H1 H2] H3] _].
  cbn [token_loop]. rewrite H1, H2, H3. cbn [negb andb]. rewrite IH. by rewrite <- app_assoc.
Qed.

Lemma token_end s rest out : ovsdb_token_is_delim (hd_char rest) = true -> token_loop s false rest out = inl (out, rest).
Proof.
  destruct rest as [| c rest]; [done |]. cbn [hd_char token_loop]. intros H. rewrite H.
  destruct (c =c "\") eqn:E; [| done]. apply Ascii.eqb_eq in E as ->. done.
Qed.

Lemma token_plain s t rest out : Forall plain t -> token_loop s true (t ++ rest) out = token_loop s true rest (out ++ t).
Proof.
  intros Ht. revert out. induction Ht as [| c t (H1 & H2 & _) Ht IH]; intros out; cbn [app]; [by rewrite app_nil_r |].
  apply Ascii.eqb_neq in H1, H2. cbn [token_loop]. rewrite H2, H1. cbn [negb andb]. rewrite IH. by rewrite <- app_assoc.
Qed.

Lemma token_escaped s t rest out : no_nul t -> token_loop s true (escaped t ++ rest) out = token_loop s true rest (out ++ escaped t).
Proof.
  intros Ht. revert out. induction Ht as [| c t Hc Ht IH]; intros out; [by rewrite app_nil_r |].
  change (escaped (c :: t)) with (chars_escaping c ++ escaped t). rewrite <- app_assoc.
  destruct (escape_forms c Hc) as [Hp | e _ _ | h _ _ _ Hh].
  - rewrite (token_plain _ [c]) by (by constructor). rewrite IH. by rewrite <- app_assoc.
  - cbn [app token_loop]. change ("\" =c "\")%char with true. cbv iota. rewrite IH. by rewrite <- app_assoc.
  - rewrite <- !app_comm_cons. cbn [token_loop]. change ("\" =c "\")%char with true. cbv iota.
    rewrite token_plain by done. rewrite IH. by rewrite <- !app_assoc.
Qed.

Lemma token_quoted t rest :
  no_nul t -> ovsdb_token_is_delim (hd_char rest) = true ->
  ovsdb_token_parse (json_serialize_string t ++ rest) = inl (json_serialize_string t, rest).
Proof.
  intros Ht Hr. unfold ovsdb_token_parse.
  assert (forall s, token_loop s false (json_serialize_string t ++ rest) [] = inl (json_serialize_string t, rest)) as H; [| apply H].
  intros s. unfold json_serialize_string. rewrite cstr_id by done. fold (escaped t). rewrite <- !app_assoc. cbn [app token_loop].
  change (chr 34 =c "\") with false. change (ovsdb_token_is_delim (chr 34)) with false. change (chr 34 =c chr 34) with true. cbn [negb andb].
  rewrite token_escaped by done. cbn [app token_loop]. change (chr 34 =c "\") with false. change (chr 34 =c chr 34) with true. cbn [negb andb].
  rewrite token_end by done. done.
Qed.

Lemma token_of_word t rest : word t -> ovsdb_token_is_delim (hd_char rest) = true -> ovsdb_token_parse (t ++ rest) = inl (t, rest).
Proof. intros Ht Hr. unfold ovsdb_token_parse. by rewrite token_word, token_end. Qed.

(** The characters of numbers, UUIDs and plain strings need no quotes. *)
Definition plain_string_char (c : ascii) : bool := isalpha c || isdigit c || (c =c "_") || (c =c "-") || (c =c ".").

Lemma plain_string_word c : plain_string_char c = true -> wordb c = true.
Proof.
  intros H. assert (implb (plain_string_char c) (wordb c) = true) as Hc; [| by rewrite H in Hc].
  revert c H. intros c _. revert c. apply all_chars_spec. by vm_compute.
Qed.

Lemma numeral_word c : numeral c = true -> wordb c = true.
Proof.
  intros H. assert (implb (numeral c) (wordb c) = true) as Hc; [| by rewrite H in Hc].
  revert c H. intros c _. revert c. apply all_chars_spec. by vm_compute.
Qed.

Lemma digit_word d : 0 <= d < 16 -> wordb (digit_char d) = true.
Proof.
  intros Hd. assert (forallb (λ d, wordb (digit_char d)) (List.map Z.of_nat (seq 0 16)) = true) as H by by vm_compute.
  rewrite forallb_forall in H. apply H, in_map_iff. exists (Z.to_nat d). split; [lia | apply in_seq; lia].
Qed.

Lemma digits_word b l : b <= 16 -> Forall (λ d, 0 <= d < b) l -> word (List.map digit_char l).
Proof. intros Hb Hl. induction Hl as [| d l Hd _ IH]; cbn; [constructor |]. constructor; [apply digit_word; lia | done]. Qed.

Lemma uuid_word u : word (uuid_to_string u).
Proof.
  assert (forall n x, word (print_hex n x)) as H.
  { intros n x. induction n as [| n IH]; cbn [print_hex]; constructor; [| done]. apply digit_word, Z.mod_pos_bound. lia. }
  unfold uuid_to_string, word in *. rewrite !Forall_app, !Forall_singleton. by repeat split.
Qed.

Lemma uuid_no_symbol u : (hd_char (uuid_to_string u) =c "@") = false.
Proof.
  assert (exists d : Z, hd_char (uuid_to_string u) = digit_char d /\ 0 <= d < 16) as (d & -> & Hd).
  { unfold uuid_to_string. cbn. eexists. split; [done |]. apply Z.mod_pos_bound. lia. }
  assert (forallb (λ d, negb (digit_char d =c "@")) (List.map Z.of_nat (seq 0 16)) = true) as H by by vm_compute.
  rewrite forallb_forall in H. apply negb_true_iff, H, in_map_iff. exists (Z.to_nat d). split; [lia | apply in_seq; lia].
Qed.

Lemma print_int_word z : LLONG_MIN <= z <= LLONG_MAX -> word (print_int z).
Proof.
  unfold LLONG_MIN, LLONG_MAX. intros Hz. unfold print_int. destruct (Z.ltb_spec z 0).
  - destruct (print_uint_digits 10 (- z) ltac:(lia) ltac:(unfold in_u; lia)) as (l & -> & _ & _ & Hl).
    constructor; [done |]. by apply (digits_word 10).
  - destruct (print_uint_digits 10 z ltac:(lia) ltac:(unfold in_u; lia)) as (l & -> & _ & _ & Hl). by apply (digits_word 10).
Qed.

(** ** Atoms *)

Lemma llong_digits l :
  l <> [] -> Forall (λ d, 0 <= d < 10) l ->
  span isdigit (List.map digit_char l) = (List.map digit_char l, []) /\
  digits_value 10 0 (List.map hexit_value (List.map digit_char l)) = digits_value 10 0 l /\
  (length (List.map digit_char l) =? 0)%nat = false /\
  exists c t, List.map digit_char l = c :: t /\ isspace c = false /\ (c =c "-") = false /\ (c =c "+") = false.
Proof.
  intros Hne Hl. split; [rewrite <- (app_nil_r (List.map digit_char l)) at 1; apply span_app; [by apply digits_isdigit | by right] |].
  split; [by rewrite map_hexit by (eapply Forall_impl; [done |]; cbn; lia) |]. split; [by destruct l |].
  destruct Hl as [| d l Hd Hl]; [done |]. exists (digit_char d), (List.map digit_char l). split; [done |].
  assert (forallb (λ d, negb (isspace (digit_char d)) && negb (digit_char d =c "-") && negb (digit_char d =c "+")) (List.map Z.of_nat (seq 0 10)) = true) as H
    by by vm_compute.
  rewrite forallb_forall in H. specialize (H d). rewrite !andb_true_iff, !negb_true_iff in H.
  destruct H as [[? ?] ?]; [| done]. apply in_map_iff. exists (Z.to_nat d). split; [lia | apply in_seq; lia].
Qed.

Lemma llong_print_int z : LLONG_MIN <= z <= LLONG_MAX -> str_to_llong_with_tail (print_int z) = Some (z, []).
Proof.
  intros Hz. assert (forall x : Z, (x <? LLONG_MIN) || (x >? LLONG_MAX) = false <-> LLONG_MIN <= x <= LLONG_MAX) as Hr.
  { intros x. rewrite Z.gtb_ltb, orb_false_iff, !Z.ltb_ge. lia. }
  unfold print_int. destruct (Z.ltb_spec z 0) as [Hn | Hn].
  - destruct (print_uint_digits 10 (- z)) as (l & -> & Hne & Hv & Hl); [lia | unfold in_u, LLONG_MIN in *; lia |].
    destruct (llong_digits l Hne Hl) as (E1 & E2 & E3 & _). unfold str_to_llong_with_tail, Scan.skip_spaces.
    cbn [span]. change (isspace "-") with false. cbn [snd hd_char]. change ("-" =c "-")%char with true. cbn [orb tail].
    rewrite E1, E2, E3, Hv, Z.opp_involutive. cbn [orb]. by rewrite (proj2 (Hr z) Hz).
  - destruct (print_uint_digits 10 z) as (l & -> & Hne & Hv & Hl); [lia | unfold in_u, LLONG_MAX in *; lia |].
    destruct (llong_digits l Hne Hl) as (E1 & E2 & E3 & c & t & Ec & H1 & H2 & H3). unfold str_to_llong_with_tail, Scan.skip_spaces.
    assert ((span isspace (List.map digit_char l)).2 = List.map digit_char l) as -> by (rewrite Ec; cbn [span]; by rewrite H1).
    assert (hd_char (List.map digit_char l) = c) as -> by by rewrite Ec. rewrite H2, H3. cbn [orb].
    rewrite E1, E2, E3, Hv. cbn [orb]. by rewrite (proj2 (Hr z) Hz).
Qed.

Section text.
Context {T R : Type} {HT : HashTable T} {HTok : HashTableOk T}.
Context {D : Double R} {DO : DoubleOrder R} {Dok : DoubleOk R} {So : Sorting} {Sok : SortingOk So}.
Context (hash_string : chars -> Z -> Z) (uuid_generate : nat -> uuid) (ovs_retval_to_string : Z -> chars).

Abbreviation atom := (ovsdb_atom R).
Abbreviation row := (atom * option atom)%type.
Abbreviation datum := (ovsdb_datum R).
Abbreviation symtab := (option (ovsdb_symbol_table T)).
Abbreviation atom_from_string := (ovsdb_atom_from_string hash_string uuid_generate ovs_retval_to_string).
Abbreviation datum_from_string := (ovsdb_datum_from_string hash_string uuid_generate ovs_retval_to_string).
Implicit Types (a : atom) (d : datum) (r : row) (base : ovsdb_base_type R) (ty : ovsdb_type R) (s p rest : chars).

(** A real number that is printed exactly. *)
Definition text_real (x : R) : Prop :=
  Forall (λ c, numeral c = true) (format_g x) /\ format_g x <> [] /\ str_to_double (format_g x) = Some x.

Definition printable a : Prop := match a with ATOM_REAL x => text_real x | _ => True end.

Lemma plain_string s :
  string_needs_quotes s = false ->
  exists c t, s = c :: t /\ isalpha c || (c =c "_") = true /\ word s.
Proof.
  unfold string_needs_quotes. rewrite !orb_false_iff. intros [[[[H1 H2] _] _] _].
  destruct s as [| c t]; [done |]. cbn [hd_char tail] in *. exists c, t. split; [done |].
  assert (isalpha c || (c =c "_") = true) as Hc by (by destruct (isalpha c), (c =c "_")). split; [done |].
  constructor; [apply plain_string_word; unfold plain_string_char; apply orb_true_iff in Hc as [-> | ->]; by rewrite ?orb_true_r |].
  apply Forall_forall. intros d Hd. apply plain_string_word. unfold plain_string_char.
  destruct (isalpha d) eqn:E1, (isdigit d) eqn:E2, (d =c "_") eqn:E3, (d =c "-") eqn:E4, (d =c ".") eqn:E5; try done.
  exfalso. assert (existsb (λ c, negb (isalpha c) && negb (isdigit c) && negb (c =c "_") && negb (c =c "-") && negb (c =c ".")) t = true) as H.
  { apply existsb_exists. exists d. split; [by apply list_elem_of_In |]. by rewrite E1, E2, E3, E4, E5. }
  by rewrite H in H2.
Qed.

Lemma atom_token kt a rest :
  atom_ok kt a -> printable a -> ovsdb_token_is_delim (hd_char rest) = true ->
  ovsdb_token_parse (ovsdb_atom_to_string a ++ rest) = inl (ovsdb_atom_to_string a, rest).
Proof.
  intros [_ Ha] Hp Hr. destruct a as [z | x | b | t | u]; cbn [ovsdb_atom_to_string] in *.
  - apply token_of_word; [by apply print_int_word | done].
  - apply token_of_word; [| done]. eapply Forall_impl; [apply Hp |]. intros c. apply numeral_word.
  - apply token_of_word; [by destruct b; repeat constructor | done].
  - destruct (string_needs_quotes t) eqn:E; [by apply token_quoted |]. apply plain_string in E as (c & t' & _ & _ & Hw). by apply token_of_word.
  - apply token_of_word; [apply uuid_word | done].
Qed.

Lemma word_head t : word t -> t <> [] -> exists c t', t = c :: t' /\ ovsdb_token_is_delim c = false /\ isspace c = false.
Proof.
  intros Ht Hne. destruct Ht as [| c t Hc Ht]; [done |]. exists c, t. split; [done |]. unfold wordb in Hc.
  rewrite !andb_true_iff, !negb_true_iff in Hc. by destruct Hc as [[_ ?] ?].
Qed.

Lemma print_int_nonempty z : LLONG_MIN <= z <= LLONG_MAX -> print_int z <> [].
Proof.
  intros Hz E. pose proof (llong_print_int z Hz) as H. by rewrite E in H.
Qed.

(** The text of an atom starts neither with a delimiter nor with a space. *)
Lemma atom_head kt a : atom_ok kt a -> printable a ->
  exists c t, ovsdb_atom_to_string a = c :: t /\ ovsdb_token_is_delim c = false /\ isspace c = false.
Proof.
  intros [_ Ha] Hp. destruct a as [z | x | b | t | u]; cbn [ovsdb_atom_to_string] in *.
  - apply word_head; [by apply print_int_word | by apply print_int_nonempty].
  - destruct Hp as (Hw & Hne & _). apply word_head; [| done]. eapply Forall_impl; [done |]. intros c. apply numeral_word.
  - destruct b; eexists _, _; by split.
  - destruct (string_needs_quotes t) eqn:E; [by eexists _, _ |]. apply plain_string in E as (c & t' & -> & _ & Hw). by apply word_head.
  - apply word_head; [apply uuid_word |]. intros E. pose proof (length_uuid_to_string u) as H. by rewrite E in H.
Qed.

Lemma quoted_shape t : no_nul t ->
  (hd_char (json_serialize_string t) =c NUL) = false /\ (hd_char (json_serialize_string t) =c chr 34) = true /\
  (length (json_serialize_string t) <? 2)%nat || negb (default NUL (last (json_serialize_string t)) =c chr 34) = false /\
  take (length (json_serialize_string t) - 2) (tail (json_serialize_string t)) = escaped t.
Proof.
  intros Ht. unfold json_serialize_string. rewrite cstr_id by done. fold (escaped t). split; [done |]. split; [done |].
  rewrite app_assoc, last_snoc, !length_app. cbn [length default app tail]. split.
  - apply orb_false_iff. split; [apply Nat.ltb_ge; lia | done].
  - rewrite take_app_le, take_ge by lia. done.
Qed.

Lemma atom_text_roundtrip (range : bool) base a (s : symtab) :
  atom_ok (type base) a -> printable a -> ovsdb_atom_check_constraints a base = None ->
  atom_from_string range base (ovsdb_atom_to_string a) s = (Value (a, None), s).
Proof.
  intros [Ht Ha] Hp Hc. unfold ovsdb_atom_from_string, bind.
  assert (ovsdb_atom_from_string__ hash_string uuid_generate range base (ovsdb_atom_to_string a) s = (Value (a, None), s)) as ->;
    [| by rewrite Hc].
  unfold ovsdb_atom_from_string__. rewrite <- Ht. destruct a as [z | x | b | t | u]; cbn [atom_type ovsdb_atom_to_string].
  - assert ((if range then str_to_llong_range (print_int z) else None) = None) as ->.
    { destruct range; [| done]. unfold str_to_llong_range. by rewrite llong_print_int. }
    unfold str_to_llong. by rewrite llong_print_int.
  - destruct Hp as (_ & _ & ->). destruct (double_eqb x double_zero) eqn:E; [| done].
    by apply double_eq_spec in E as ->; [| | apply double_zero_ok].
  - by destruct b.
  - destruct (string_needs_quotes t) eqn:E.
    + destruct (quoted_shape t Ha) as (-> & -> & -> & ->). unfold json_string_unescape. rewrite unescape_escaped by done.
      cbn [app]. by rewrite cstr_id.
    + apply plain_string in E as (c & t' & -> & Hf & Hw). cbn [hd_char].
      assert ((c =c NUL) = false /\ (c =c chr 34) = false) as [-> ->]; [| done].
      apply orb_true_iff in Hf as [Hf | Hf%Ascii.eqb_eq]; [| by subst]. split; apply Ascii.eqb_neq; by intros ->.
  - rewrite uuid_no_symbol. by rewrite uuid_roundtrip.
Qed.

(** ** Data *)

Definition row_printable r : Prop := printable r.1 /\ from_option printable True r.2.

Definition row_text ty r : chars :=
  ovsdb_atom_to_string r.1 ++ (if ovsdb_type_is_map ty then "="%char :: from_option ovsdb_atom_to_string [] r.2 else []).

Lemma skip_none p : isspace (hd_char p) = false -> Scan.skip_spaces p = p.
Proof. unfold Scan.skip_spaces. destruct p as [| c p]; [done |]. cbn [hd_char span]. by intros ->. Qed.

Lemma head_app (t rest : chars) c t' : t = c :: t' -> hd_char (t ++ rest) = c.
Proof. by intros ->. Qed.

Lemma parse_row ty r rest (s : symtab) :
  row_valid ty r -> row_printable r -> ovsdb_token_is_delim (hd_char rest) = true ->
  parse_key_value hash_string uuid_generate ovs_retval_to_string (row_text ty r ++ rest) ty s = (Value (r.1, r.2, None, rest), s).
Proof.
  intros ([Hk Hv] & Hck & Hcv) [Hpk Hpv] Hr. unfold parse_key_value, row_text, parse_atom_token, ovsdb_type_is_map, is_void. rewrite <- app_assoc.
  case_bool_decide as Ev; cbn [negb].
  - cbn [app]. unfold bind at 1. rewrite (atom_token _ _ _ Hk Hpk Hr). unfold bind at 1. rewrite atom_text_roundtrip by done.
    destruct r as [k [v |]]; [| done]. cbn [snd] in Hv. rewrite Ev in Hv. by destruct Hv as [? _], v.
  - destruct r as [k [v |]]; [| done]. cbn [fst snd from_option mbind option_bind] in *.
    unfold bind at 1. rewrite (atom_token _ k _ Hk Hpk) by done. unfold bind at 1. rewrite atom_text_roundtrip by done. cbn [ret].
    rewrite (skip_none (_ ++ rest)) by done. cbn [app hd_char tail]. change ("=" =c "=")%char with true. cbv iota.
    destruct (atom_head _ v Hv Hpv) as (c & t & Ec & _ & Hs). rewrite skip_none by (by rewrite (head_app _ _ _ _ Ec)).
    unfold bind. rewrite (atom_token _ v _ Hv Hpv) by done. by rewrite atom_text_roundtrip.
Qed.

Definition more_text ty d : chars := concat (List.map (λ r, str ", " ++ row_text ty r) d).
Definition entries_text ty d : chars := match d with [] => [] | r :: d => row_text ty r ++ more_text ty d end.

Lemma row_to_string_text ty i r :
  row_to_string (ovsdb_type_is_map ty) i r = (if (0 <? i)%nat then str ", " else []) ++ row_text ty r.
Proof. unfold row_to_string, row_text. by destruct (ovsdb_type_is_map ty). Qed.

Lemma imap_const {A B} (f : nat -> A -> B) (g : A -> B) l : (forall i x, f i x = g x) -> imap f l = List.map g l.
Proof. intros H. revert f H. induction l as [| x l IH]; intros f H; [done |]. rewrite imap_cons. cbn. rewrite H. f_equal. apply IH. intros i y. apply H. Qed.

Lemma to_string_entries ty d :
  ovsdb_datum_to_string d ty =
  (if (n_max ty >? 1) || (length d =? 0)%nat
   then (if ovsdb_type_is_map ty then "{" else "[")%char :: entries_text ty d ++ [if ovsdb_type_is_map ty then "}" else "]"]%char
   else entries_text ty d).
Proof.
  unfold ovsdb_datum_to_string. cbv zeta. assert (concat (imap (row_to_string (ovsdb_type_is_map ty)) d) = entries_text ty d) as ->.
  { destruct d as [| r d]; [done |]. rewrite imap_cons. cbn [concat entries_text]. rewrite row_to_string_text. cbn [app Nat.ltb Nat.leb].
    f_equal. unfold more_text. f_equal. apply imap_const. intros i r'. apply row_to_string_text. }
  destruct (_ || _); [by destruct (ovsdb_type_is_map ty) |]. cbn [app]. apply app_nil_r.
Qed.

(** The delimiters at the end. *)
Definition closing (c : ascii) : Prop := c = NUL \/ c = "]"%char \/ c = "}"%char.

Definition close_text (c : ascii) : chars := if c =c NUL then [] else [c].

Lemma closing_facts c : closing c ->
  hd_char (close_text c) = c /\ ovsdb_token_is_delim c = true /\ isspace c = false /\ (c =c ",") = false.
Proof. by intros [-> | [-> | ->]]. Qed.

Lemma row_head ty r rest : row_valid ty r -> row_printable r ->
  ovsdb_token_is_delim (hd_char (row_text ty r ++ rest)) = false /\ isspace (hd_char (row_text ty r ++ rest)) = false.
Proof.
  intros ([Hk _] & _) [Hp _]. destruct (atom_head _ _ Hk Hp) as (c & t & Ec & H1 & H2). unfold row_text. rewrite <- app_assoc.
  by rewrite (head_app _ _ _ _ Ec).
Qed.

Lemma more_delim ty d c : closing c -> ovsdb_token_is_delim (hd_char (more_text ty d ++ close_text c)) = true.
Proof. intros Hc. destruct d as [| r d]; [| done]. cbn. destruct (closing_facts c Hc) as (-> & ? & _). done. Qed.

Lemma entries_roundtrip ty d c fuel s acc (st : symtab) :
  Forall (row_valid ty) d -> Forall row_printable d -> closing c -> (length d <= fuel)%nat ->
  entries_loop hash_string uuid_generate ovs_retval_to_string fuel s ty c (entries_text ty d ++ close_text c) acc st =
  (Value (acc ++ d, close_text c), st).
Proof.
  intros Hd. revert fuel acc. induction Hd as [| r d Hr Hd IH]; intros fuel acc Hp Hc Hf.
  - cbn [entries_text app]. destruct (closing_facts c Hc) as (Hh & _). rewrite app_nil_r. destruct fuel; cbn [entries_loop]; rewrite Hh, Ascii.eqb_refl, orb_true_r; done.
  - apply Forall_cons in Hp as [Hpr Hp]. destruct fuel as [| fuel]; [cbn in Hf; lia |]. cbn [entries_text]. rewrite <- app_assoc.
    destruct (row_head ty r (more_text ty d ++ close_text c) Hr Hpr) as [Hdel Hsp]. destruct (closing_facts c Hc) as (Hh & Hcd & Hcs & Hcc).
    cbn [entries_loop].
    assert ((hd_char (row_text ty r ++ more_text ty d ++ close_text c) =c NUL) || (hd_char (row_text ty r ++ more_text ty d ++ close_text c) =c c) = false) as ->.
    { apply orb_false_iff. split; apply Ascii.eqb_neq; intros E; rewrite E in Hdel; [done | by rewrite Hcd in Hdel]. }
    rewrite Hdel. unfold bind at 1. rewrite parse_row by (done || by apply more_delim). cbn [ovsdb_datum_add_unsafe of_option bind ret].
    assert ((if is_void (value ty) then None else r.2) = r.2) as -> by apply row_void, Hr.
    change (bind (ret ?x) ?f st) with (f x st).
    assert ((let p := Scan.skip_spaces (more_text ty d ++ close_text c) in if hd_char p =c "," then Scan.skip_spaces (tail p) else p)
            = entries_text ty d ++ close_text c) as Hnext.
    { destruct d as [| r' d]; cbn [more_text List.map concat app entries_text].
      - cbv zeta. rewrite skip_none by (by rewrite Hh). by rewrite Hh, Hcc.
      - apply Forall_cons in Hd as [Hr' Hd]. apply Forall_cons in Hp as [Hpr' Hp]. cbv zeta. cbn [app str String.list_ascii_of_string].
        rewrite (skip_none (","%char :: _)) by done. cbn [hd_char tail]. change ("," =c ",")%char with true. cbv iota.
        unfold Scan.skip_spaces at 1. cbn [span]. change (isspace " ") with true. cbv iota.
        fold (more_text ty d). rewrite <- !app_assoc. destruct (row_head ty r' (more_text ty d ++ close_text c) Hr' Hpr') as [_ Hs].
        pose proof (skip_none _ Hs) as Hk. unfold Scan.skip_spaces in Hk. by destruct (span isspace _). }
    cbv zeta in Hnext |- *. rewrite Hnext, IH by (done || cbn in Hf; lia). rewrite <- app_assoc. by destruct r.
Qed.

Lemma more_length ty d : (length d <= length (more_text ty d))%nat.
Proof.
  induction d as [| r d IH]; [cbn; lia |]. change (more_text ty (r :: d)) with ((str ", " ++ row_text ty r) ++ more_text ty d).
  rewrite !length_app. cbn [length str String.list_ascii_of_string]. lia.
Qed.

Lemma entries_length ty d : Forall (row_valid ty) d -> Forall row_printable d -> (length d <= length (entries_text ty d))%nat.
Proof.
  intros Hd Hp. destruct d as [| r d]; [cbn; lia |]. apply Forall_cons in Hd as [Hr _]. apply Forall_cons in Hp as [Hpr _].
  pose proof (more_length ty d) as Hm.
  destruct Hr as ([Hk _] & _). destruct Hpr as [Hpr _]. destruct (atom_head _ _ Hk Hpr) as (c & t & Ec & _).
  cbn [entries_text length]. unfold row_text. rewrite Ec, !length_app. cbn [length]. lia.
Qed.

Lemma finish_roundtrip ty d c s (st : symtab) :
  valid ty d -> closing c -> finish_datum s ty c (close_text c) d st = (Value d, st).
Proof.
  intros (Hok & Hn & _) Hc. unfold finish_datum. destruct (closing_facts c Hc) as (-> & _). rewrite Ascii.eqb_refl. cbn [negb].
  assert (negb (c =c NUL) && negb (hd_char (Scan.skip_spaces (tail (close_text c))) =c NUL) = false) as ->.
  { unfold close_text. destruct (c =c NUL); [done |]. done. }
  unfold check_size. rewrite Z.gtb_ltb. assert (Z.of_nat (length d) <? n_min ty = false) as -> by lia.
  assert (n_max ty <? Z.of_nat (length d) = false) as -> by lia. cbn [guard_error bind ret].
  unfold bind, ret. by rewrite (sort_sorted ty) by done.
Qed.

Lemma entries_datum ty d c s (st : symtab) :
  valid ty d -> Forall row_printable d -> closing c -> (length d <= length s)%nat ->
  ('(d, p) ←! entries_loop hash_string uuid_generate ovs_retval_to_string (length s) s ty c (entries_text ty d ++ close_text c) [];
   finish_datum s ty c p d) st = (Value d, st).
Proof.
  intros Hv Hp Hc Hl. pose proof Hv as (Hok & _ & Hcs). apply check_constraints_none in Hcs; [| by apply ok_rows].
  unfold bind. rewrite entries_roundtrip by done. by apply finish_roundtrip.
Qed.

(** The text of a datum is read as the datum. *)
Lemma datum_text_roundtrip ty d (st : symtab) :
  valid ty d -> Forall row_printable d -> datum_from_string ty (ovsdb_datum_to_string d ty) st = (Value d, st).
Proof.
  intros Hv Hp. pose proof Hv as (Hok & _ & Hcs). apply check_constraints_none in Hcs; [| by apply ok_rows].
  pose proof (entries_length ty d Hcs Hp) as Hl.
  assert (forall t, Scan.skip_spaces (entries_text ty d ++ [t]) = entries_text ty d ++ [t] \/ isspace t = true) as Hskip.
  { intros t. destruct d as [| r d]; [destruct (isspace t) eqn:E; [by right | left; by apply skip_none] | left].
    cbn [entries_text]. rewrite <- app_assoc. apply skip_none, row_head; [by apply Forall_cons in Hcs as [? _] | by apply Forall_cons in Hp as [? _]]. }
  rewrite to_string_entries. unfold ovsdb_datum_from_string. cbv zeta. destruct (_ || _) eqn:Eb.
  - rewrite (skip_none (_ :: _)) by (by destruct (ovsdb_type_is_map ty)). cbn [hd_char tail].
    rewrite Ascii.eqb_refl. set (s := _ :: _). assert (length d <= length s)%nat as Hls by (unfold s; cbn [length]; rewrite length_app; lia).
    destruct (ovsdb_type_is_map ty).
    + destruct (Hskip "}"%char) as [-> | ?]; [| done]. by apply (entries_datum ty d "}"%char); [| | right; right |].
    + destruct (Hskip "]"%char) as [-> | ?]; [| done]. by apply (entries_datum ty d "]"%char); [| | right; left |].
  - apply orb_false_iff in Eb as [_ Eb]. destruct d as [| r d]; [done |].
    apply Forall_cons in Hcs as [Hr Hcs]. pose proof Hp as Hp'. apply Forall_cons in Hp' as [Hpr _].
    destruct (row_head ty r (more_text ty d) Hr Hpr) as [H1 H2]. change (row_text ty r ++ more_text ty d) with (entries_text ty (r :: d)) in H1, H2.
    rewrite skip_none by done.
    assert ((hd_char (entries_text ty (r :: d)) =c (if ovsdb_type_is_map ty then "{" else "[")) = false) as ->.
    { apply Ascii.eqb_neq. intros E. rewrite E in H1. by destruct (ovsdb_type_is_map ty). }
    assert ((hd_char (entries_text ty (r :: d)) =c NUL) = false) as -> by (apply Ascii.eqb_neq; intros E; by rewrite E in H1).
    pose proof (entries_datum ty (r :: d) NUL (entries_text ty (r :: d)) st Hv Hp (or_introl eq_refl) Hl) as H.
    change (close_text NUL) with (@nil ascii) in H. by rewrite app_nil_r in H.
Qed.

End text.
End OvsdbTextThms.
