(* ===== verification/OvsdbTextSafe.v ===== *)
(** Reading any text as data is safe, except for the cases that the hypotheses name: symbols
    without a table, ranges of keys of maps, and ranges up to the largest integer. *)
From stdpp Require Import gmap sorting list_numbers.
From S2P Require Import Prelude Text Scan Unicode Containers Shash Json JsonLex JsonNumber Sort Uuid OvsdbTypes OvsdbData OvsdbDatum OvsdbSets OvsdbJson OvsdbJsonThms OvsdbText OvsdbTextThms.

Module OvsdbTextSafe.
Import JsonLex.
Export OvsdbTextThms.

(** ** Tokens *)

Lemma token_loop_rest n s q p out t rest :
  (length p <= n)%nat -> no_nul p -> no_nul out -> token_loop s q p out = inl (t, rest) ->
  no_nul t /\ no_nul rest /\ (length rest <= length p)%nat.
Proof.
  revert q p out. induction n as [| n IH]; intros q p out Hn Hp Ho.
  { destruct p; [| cbn in Hn; lia]. cbn. destruct q; [done |]. intros [= <- <-]. split; [done |]. split; [constructor | lia]. }
  destruct Hp as [| c p Hc Hp]; cbn [token_loop]; [destruct q; [done |]; intros [= <- <-]; split; [done |]; split; [constructor | cbn; lia] |]. cbn [length] in Hn.
  destruct (c =c "\").
  - destruct Hp as [| d p Hd Hp]; [done |]. cbn [length] in *. intros E. apply IH in E as (H1 & H2 & H3); [| lia | done |].
    + split; [done |]. split; [done | lia].
    + apply Forall_app. split; [done |]. apply Forall_app. split; [destruct q; by repeat constructor | by constructor].
  - destruct (negb q && _); [intros [= <- <-]; split; [done |]; split; [by constructor | cbn; lia] |].
    intros E. apply IH in E as (H1 & H2 & H3); [| lia | done | by apply Forall_app; split; [| constructor]].
    split; [done |]. split; [done | cbn; lia].
Qed.

Lemma token_rest s t rest :
  no_nul s -> ovsdb_token_is_delim (hd_char s) = false -> ovsdb_token_parse s = inl (t, rest) ->
  no_nul t /\ no_nul rest /\ (length rest < length s)%nat.
Proof.
  intros Hs Hd. unfold ovsdb_token_parse. destruct s as [| c p]; [done |]. cbn [hd_char token_loop] in *. rewrite Hd.
  apply Forall_cons in Hs as [Hc Hp]. destruct (c =c "\").
  - destruct p as [| d p]; [done |]. apply Forall_cons in Hp as [Hd' Hp]. intros E.
    apply (token_loop_rest (length p)) in E as (H1 & H2 & H3); [| done | done | by constructor]. split; [done |]. split; [done |]. cbn. lia.
  - cbn [negb andb]. intros E. apply (token_loop_rest (length p)) in E as (H1 & H2 & H3); [| done | done | by constructor].
    split; [done |]. split; [done |]. cbn. lia.
Qed.

Lemma token_rest_le s t rest :
  no_nul s -> ovsdb_token_parse s = inl (t, rest) -> no_nul t /\ no_nul rest /\ (length rest <= length s)%nat.
Proof. intros Hs E. eapply (token_loop_rest (length s)); [done | done | constructor | exact E]. Qed.

Lemma skip_rest s : no_nul s -> no_nul (Scan.skip_spaces s) /\ (length (Scan.skip_spaces s) <= length s)%nat.
Proof.
  intros Hs. unfold Scan.skip_spaces. rewrite <- (span_split isspace s) in Hs at 1.
  split; [by apply Forall_app in Hs as [_ ?] |]. rewrite <- (span_split isspace s) at 2. rewrite length_app. lia.
Qed.

Lemma tail_rest s : no_nul s -> no_nul (tail s) /\ (length (tail s) <= length s)%nat.
Proof. intros Hs. destruct Hs; cbn; (split; [done || constructor | lia]). Qed.

Lemma llong_tail_range s x t : str_to_llong_with_tail s = Some (x, t) -> LLONG_MIN <= x <= LLONG_MAX.
Proof.
  unfold str_to_llong_with_tail. destruct (span isdigit _) as [ds rest]. cbv zeta. rewrite Z.gtb_ltb.
  destruct (_ || _) eqn:E; [done |]. intros [= <- _]. apply orb_false_iff in E as [[_ E1]%orb_false_iff E2]. lia.
Qed.

Lemma llong_range s x : str_to_llong s = Some x -> LLONG_MIN <= x <= LLONG_MAX.
Proof.
  unfold str_to_llong. destruct (str_to_llong_with_tail s) as [[y t] |] eqn:E; [| done]. apply llong_tail_range in E.
  destruct (_ =c _); [| done]. by intros [= <-].
Qed.

Lemma llong_range_range s x y : str_to_llong_range s = Some (x, y) -> LLONG_MIN <= x <= LLONG_MAX /\ LLONG_MIN <= y <= LLONG_MAX.
Proof.
  unfold str_to_llong_range. destruct (str_to_llong_with_tail s) as [[z t] |] eqn:E; [| done]. apply llong_tail_range in E.
  destruct (_ =c _); [| done]. intros H. apply fmap_Some in H as (w & Hw & [= -> ->]). by apply llong_range in Hw.
Qed.

Section safe.
Context {T R : Type} {HT : HashTable T} {HTok : HashTableOk T}.
Context {D : Double R} {DO : DoubleOrder R} {Dok : DoubleOk R} {So : Sorting} {Sok : SortingOk So}.
Context (hash_string : chars -> Z -> Z) (uuid_generate : nat -> uuid) (ovs_retval_to_string : Z -> chars).
Context (Hgen : forall k, uuid_ok (uuid_generate k)).

Abbreviation atom := (ovsdb_atom R).
Abbreviation row := (atom * option atom)%type.
Abbreviation datum := (ovsdb_datum R).
Abbreviation symtab := (option (ovsdb_symbol_table T)).
Abbreviation safe := (safe hash_string true).
Implicit Types (a : atom) (d : datum) (r : row) (base : ovsdb_base_type R) (ty : ovsdb_type R) (s p rest : chars) (x y z : Z).

(** ** Ranges *)

(** The integer satisfies the constraints. *)
Definition allowed base z : Prop := ovsdb_atom_check_constraints (ATOM_INTEGER z : atom) base = None.

Lemma allowed_enum base enum z :
  base_ok base -> enum_ base = Some enum -> type base = OVSDB_TYPE_INTEGER -> LLONG_MIN <= z <= LLONG_MAX ->
  allowed base z -> ATOM_INTEGER z ∈ enum.*1.
Proof.
  intros [_ Hb] E Ht Hz. rewrite E in Hb. destruct Hb as (_ & _ & Hok & _). unfold allowed, ovsdb_atom_check_constraints. rewrite E.
  case_bool_decide as Hf; [intros _ | done]. rewrite Ht in Hok.
  destruct Hf as [i Hi]. pose proof (find_key_spec _ _ enum (ATOM_INTEGER z) Hok (conj eq_refl Hz)) as H.
  rewrite Hi in H. destruct H as [v Hv]. apply list_elem_of_fmap. exists (ATOM_INTEGER z, v). split; [done |]. by apply list_elem_of_lookup_2 in Hv.
Qed.

(** There are no more allowed values than those that are listed. *)
Lemma allowed_count base enum x y :
  base_ok base -> enum_ base = Some enum -> type base = OVSDB_TYPE_INTEGER -> LLONG_MIN <= x -> y - 1 <= LLONG_MAX ->
  (forall z, x <= z < y -> allowed base z) -> y - x <= Z.of_nat (length enum).
Proof.
  intros Hb E Ht Hx Hy H. destruct (Z.le_gt_cases y x); [lia |].
  assert (length (ATOM_INTEGER <$> seqZ x (y - x) : list atom) <= length enum.*1)%nat as Hl.
  { apply submseteq_length, NoDup_submseteq; [apply NoDup_fmap; [by intros ? ? [= ->] | apply NoDup_seqZ] |].
    intros a (z & -> & Hz%elem_of_seqZ)%list_elem_of_fmap. apply (allowed_enum base); try done; [lia |]. apply H. lia. }
  rewrite !length_fmap, length_seqZ in Hl. lia.
Qed.

Lemma check_range_spec base enum x fuel i end_ :
  base_ok base -> enum_ base = Some enum -> type base = OVSDB_TYPE_INTEGER -> ~ allowed base LLONG_MAX ->
  LLONG_MIN <= x < i -> end_ <= LLONG_MAX -> i <= LLONG_MAX -> (forall z, x <= z < i -> allowed base z) ->
  Z.of_nat (length enum) < Z.of_nat fuel + (i - x) ->
  match check_range fuel base i end_ with
  | Value _ => forall z, x <= z <= end_ -> allowed base z
  | Error _ => True
  | Crash => False
  end.
Proof.
  intros Hb E Ht Hm. revert i. induction fuel as [| fuel IH]; intros i Hx He Hi Hall Hf; cbn [check_range]; rewrite Z.gtb_ltb.
  all: destruct (Z.ltb_spec end_ i) as [Hlt | Hge]; [intros z Hz; apply Hall; lia |].
  all: destruct (ovsdb_atom_check_constraints (ATOM_INTEGER i) base) eqn:Ec; [done |].
  all: destruct (Z.eqb_spec i LLONG_MAX) as [-> | Hne]; [by apply Hm |].
  all: assert (forall z, x <= z < i + 1 -> allowed base z) as Hall' by
    (intros z Hz; destruct (decide (z = i)) as [-> |]; [done | apply Hall; lia]).
  - pose proof (allowed_count base enum x (i + 1) Hb E Ht ltac:(lia) ltac:(lia) Hall'). lia.
  - apply IH; [lia | lia | lia | done | lia].
Qed.

Lemma allowed_between base x y z :
  base_ok base -> enum_ base = None -> type base = OVSDB_TYPE_INTEGER -> allowed base x -> allowed base y -> x <= z <= y -> allowed base z.
Proof.
  intros [Hc _] E Ht. unfold allowed, ovsdb_atom_check_constraints, constraints_ok in *. rewrite E, Ht in *.
  destruct (constraints base) as [| min max | | |]; try done. rewrite !Z.geb_leb. intros Hx Hy Hz.
  destruct ((min <=? x) && (x <=? max)) eqn:E1; [| done]. destruct ((min <=? y) && (y <=? max)) eqn:E2; [| done].
  assert ((min <=? z) && (z <=? max) = true) as -> by lia. done.
Qed.

Lemma range_end_spec base x y :
  base_ok base -> type base = OVSDB_TYPE_INTEGER -> ~ allowed base LLONG_MAX -> allowed base x ->
  LLONG_MIN <= x <= y -> y <= LLONG_MAX ->
  match check_range_end base x y with
  | Value _ => y < LLONG_MAX /\ y - x < MAX_OVSDB_ATOM_RANGE_SIZE /\ forall z, x <= z <= y -> allowed base z
  | Error _ => True
  | Crash => False
  end.
Proof.
  intros Hb Ht Hm Hx Hxy Hy. unfold check_range_end.
  assert (match (match enum_ base with
         | Some enum => if x =? LLONG_MAX then Crash else check_range (length enum) base (x + 1) y
         | None => match ovsdb_atom_check_constraints (ATOM_INTEGER y) base with Some error => Error error | None => Value tt end
         end) with Value _ => forall z, x <= z <= y -> allowed base z | Error _ => True | Crash => False end) as H.
  { destruct (enum_ base) as [enum |] eqn:E.
    - destruct (Z.eqb_spec x LLONG_MAX) as [-> |]; [done |]. apply (check_range_spec base enum x); try done; [lia | lia | | lia].
      intros z Hz. by replace z with x by lia.
    - destruct (ovsdb_atom_check_constraints (ATOM_INTEGER y) base) eqn:Ey; [done |]. intros z Hz. by apply (allowed_between base x y). }
  destruct (match enum_ base with Some _ => _ | None => _ end) as [[] | e |]; [| done | done].
  unfold ovsdb_atom_range_check_size. rewrite Z.geb_leb, wrap_small by (unfold in_u, LLONG_MIN, LLONG_MAX in *; lia).
  destruct (Z.leb_spec MAX_OVSDB_ATOM_RANGE_SIZE (y - x)); [done |]. split; [| done].
  destruct (decide (y = LLONG_MAX)) as [-> |]; [| lia]. destruct Hm. apply H. lia.
Qed.

(** ** Atoms *)

(** The atom before its constraints are checked. *)
Definition atom_raw base a : Prop :=
  match a with
  | ATOM_REAL x => type base = OVSDB_TYPE_REAL /\ (x = double_zero \/ double_eqb x double_zero = false)
  | _ => atom_ok (type base) a
  end.

Definition range_raw (range : bool) base a (e : option atom) : Prop :=
  match e with
  | None => True
  | Some e => range = true /\ type base = OVSDB_TYPE_INTEGER /\
              exists x y, a = ATOM_INTEGER x /\ e = ATOM_INTEGER y /\ LLONG_MIN <= x <= y /\ y <= LLONG_MAX
  end.

Lemma symbol_safe s base : safe 1 (use_symbol (E := chars) hash_string uuid_generate s base) uuid_ok.
Proof.
  intros N st Hs Ht HN. destruct st as [t |]; [| by destruct (Ht eq_refl)].
  destruct (use_symbol_safe (E := chars) hash_string uuid_generate Hgen N t s base Hs HN) as (u & t' & -> & Hu & Ht'). done.
Qed.

Lemma atom_raw_safe (range : bool) base s :
  no_nul s -> type base <> OVSDB_TYPE_VOID ->
  safe 1 (ovsdb_atom_from_string__ hash_string uuid_generate range base s) (λ q : row, atom_raw base q.1 /\ range_raw range base q.1 q.2).
Proof.
  intros Hs Ht. unfold ovsdb_atom_from_string__. destruct (type base) eqn:E; [done | | | | |].
  - destruct (if range then str_to_llong_range s else None) as [[x y] |] eqn:Er.
    + destruct range; [| done]. apply llong_range_range in Er as [Hx Hy]. destruct (Z.ltb_spec y x); [apply safe_fail1 |].
      apply safe_ret1. cbn. rewrite E. split; [by split |]. split; [done |]. split; [done |]. exists x, y. split; [done |]. split; [done |]. lia.
    + destruct (str_to_llong s) as [x |] eqn:Ex; [| apply safe_fail1]. apply llong_range in Ex. apply safe_ret1. cbn. by rewrite E.
  - destruct (str_to_double s) as [x |]; [| apply safe_fail1]. apply safe_ret1. cbn. split; [| done]. split; [done |].
    destruct (double_eqb x double_zero) eqn:Ex; [by left | by right].
  - destruct (existsb _ _); [apply safe_ret1; cbn; by rewrite E |]. destruct (existsb _ _); [apply safe_ret1; cbn; by rewrite E | apply safe_fail1].
  - destruct (_ =c NUL); [apply safe_fail1 |]. destruct (_ =c chr 34); [| apply safe_ret1; cbn; by rewrite E].
    destruct (_ || _); [apply safe_fail1 |]. destruct (json_string_unescape _) as [[] out]; [| apply safe_fail1].
    apply safe_ret1. cbn. rewrite E. split; [| done]. split; [done | apply no_nul_cstr].
  - destruct (_ =c "@").
    + change 1 with (1 + 0). eapply safe_bind; [lia | lia | apply symbol_safe |]. intros u Hu. apply safe_ret. cbn. by rewrite E.
    + destruct (uuid_from_string s) as [u |] eqn:Eu; [| apply safe_fail1]. apply uuid_from_string_exact in Eu as [Hu _]; [| done].
      apply safe_ret1. cbn. by rewrite E.
Qed.

Lemma raw_atom_ok base a : base_ok base -> atom_raw base a -> ovsdb_atom_check_constraints a base = None -> atom_ok (type base) a.
Proof.
  intros Hb Ha Hc. destruct a as [| x | | |]; try done. destruct Ha as [Ht Hz]. destruct (real_constraints base x Hb Ht Hc) as [H1 H2].
  split; [done |]. cbn. destruct Hz as [-> | Hz]; [apply double_zero_ok |]. pose proof (double_finite x H1 H2) as H. by rewrite Hz in H.
Qed.

(** An atom that was read, or a range of integers all of which are allowed. *)
Definition atom_read (range : bool) base (p : atom * option atom) : Prop :=
  atom_ok (type base) p.1 /\ ovsdb_atom_check_constraints p.1 base = None /\
  match p.2 with
  | None => True
  | Some e => range = true /\ type base = OVSDB_TYPE_INTEGER /\
      exists x y, p.1 = ATOM_INTEGER x /\ e = ATOM_INTEGER y /\ LLONG_MIN <= x <= y /\ y < LLONG_MAX /\
        y - x < MAX_OVSDB_ATOM_RANGE_SIZE /\ forall z, x <= z <= y -> allowed base z
  end.

(** Ranges cannot reach the largest integer. *)
Definition bounded base : Prop := type base = OVSDB_TYPE_INTEGER -> ~ allowed base LLONG_MAX.

Lemma atom_text_safe (range : bool) base s :
  no_nul s -> base_ok base -> type base <> OVSDB_TYPE_VOID -> (range = true -> bounded base) ->
  safe 1 (ovsdb_atom_from_string hash_string uuid_generate ovs_retval_to_string range base s) (atom_read range base).
Proof.
  intros Hs Hb Ht Hm. unfold ovsdb_atom_from_string. change 1 with (1 + 0).
  eapply safe_bind; [lia | lia | by apply atom_raw_safe |]. intros [a e] [Ha He]. cbn [fst snd] in *.
  destruct (ovsdb_atom_check_constraints a base) eqn:Ec; [apply safe_fail |]. pose proof (raw_atom_ok base a Hb Ha Ec) as Hok.
  destruct e as [e |]; [| by apply safe_ret]. destruct He as (-> & Hti & x & y & -> & -> & Hxy & Hy). cbn [a_integer].
  pose proof (range_end_spec base x y Hb Hti (Hm eq_refl Hti) Ec Hxy Hy) as H.
  destruct (check_range_end base x y); [| apply safe_fail | done]. apply safe_ret.
  split; [done |]. split; [done |]. split; [done |]. split; [done |]. exists x, y. destruct H as (H1 & H2 & H3). do 4 (split; [done |]). by split.
Qed.

(** ** Data *)

(** A type whose keys cannot be ranges, unless it is a set whose ranges are bounded. *)
Definition text_type ty : Prop :=
  type_ok ty /\ (type (key ty) = OVSDB_TYPE_INTEGER -> is_void (value ty) = true /\ ~ allowed (key ty) LLONG_MAX).

Lemma atom_token_safe (range : bool) base s :
  no_nul s -> base_ok base -> type base <> OVSDB_TYPE_VOID -> (range = true -> bounded base) ->
  safe 1 (parse_atom_token hash_string uuid_generate ovs_retval_to_string range s base)
    (λ q : atom * option atom * chars, atom_read range base q.1 /\ no_nul q.2 /\ (length q.2 <= length s)%nat /\
       (ovsdb_token_is_delim (hd_char s) = false -> length q.2 < length s)%nat).
Proof.
  intros Hs Hb Ht Hm. unfold parse_atom_token. destruct (ovsdb_token_parse s) as [[t rest] |] eqn:E; [| apply safe_fail1].
  destruct (token_rest_le s t rest Hs E) as (Hnt & Hnr & Hl). change 1 with (1 + 0).
  eapply safe_bind; [lia | lia | by apply atom_text_safe |]. intros [a e] Ha. apply safe_ret. cbn [fst snd].
  split; [done |]. split; [done |]. split; [done |]. intros Hd. by apply (token_rest s t rest).
Qed.

(** An entry that was read. *)
Definition entry_read ty s (q : atom * option atom * option atom * chars) : Prop :=
  let '(k, v, e, rest) := q in
  atom_read true (key ty) (k, e) /\
  (if is_void (value ty) then v = None
   else exists w, v = Some w /\ atom_ok (type (value ty)) w /\ ovsdb_atom_check_constraints w (value ty) = None) /\
  no_nul rest /\ (length rest < length s)%nat.

Lemma key_value_safe ty s :
  text_type ty -> no_nul s -> ovsdb_token_is_delim (hd_char s) = false ->
  safe 2 (parse_key_value hash_string uuid_generate ovs_retval_to_string s ty) (entry_read ty s).
Proof.
  intros [Hty Hk] Hs Hd. unfold parse_key_value. change 2 with (1 + (1 + 0)).
  eapply safe_bind; [lia | lia | apply atom_token_safe; [done | apply Hty | apply Hty | intros _ Ht; by apply Hk] |].
  intros [[k e] p] (Hr & Hn & _ & Hl). cbn [fst snd] in *. specialize (Hl Hd). destruct (is_void (value ty)) eqn:Ev; cbn [negb].
  - apply safe_ret1. unfold entry_read. rewrite Ev. by split; [| split; [| split]].
  - destruct (skip_rest p Hn) as [Hn1 Hl1]. destruct (_ =c "="); [| apply safe_fail1].
    destruct (tail_rest _ Hn1) as [Hn2 Hl2]. destruct (skip_rest _ Hn2) as [Hn3 Hl3].
    unfold is_void in Ev. apply bool_decide_eq_false in Ev.
    eapply safe_bind; [lia | lia | apply atom_token_safe; [exact Hn3 | apply Hty | done | done] |].
    intros [[w e'] p'] (Hw & Hn' & Hle & _). cbn [fst snd] in *. apply safe_ret. unfold entry_read, is_void. rewrite bool_decide_eq_false_2 by done.
    split; [done |]. split; [| split; [done | lia]]. exists w. split; [done |]. by destruct Hw as (? & ? & _).
Qed.

Lemma add_safe ty d k v e s rest :
  text_type ty -> Forall (row_valid ty) d -> entry_read ty s (k, v, e, rest) ->
  exists d', ovsdb_datum_add_unsafe d k v ty e = Some d' /\ Forall (row_valid ty) d' /\
    Z.of_nat (length d') <= Z.of_nat (length d) + MAX_OVSDB_ATOM_RANGE_SIZE.
Proof.
  intros [Hty Hk] Hd ((Hok & Hc & He) & Hv & _). cbn [fst snd] in *. unfold ovsdb_datum_add_unsafe. destruct e as [e |].
  - destruct He as (_ & Ht & x & y & -> & -> & Hxy & Hy & Hsz & Hall). cbn [a_integer]. destruct (Hk Ht) as [Ev _].
    assert ((x <=? y) && (y <? LLONG_MAX) && (y - x <? LLONG_MAX) = true) as -> by (unfold MAX_OVSDB_ATOM_RANGE_SIZE, LLONG_MAX in *; lia). eexists. split; [done |]. split.
    + apply Forall_app. split; [done |]. apply Forall_forall. intros r (i & <- & Hi%in_seq)%list_elem_of_In%in_map_iff.
      unfold is_void in Ev. apply bool_decide_eq_true in Ev. split; [| split; [apply Hall; lia | done]].
      split; [rewrite Ht; split; [done |]; cbn; lia | done].
    + rewrite length_app, length_map, length_seq. lia.
  - eexists. split; [done |]. split; [| rewrite length_app; cbn; unfold MAX_OVSDB_ATOM_RANGE_SIZE; lia].
    apply Forall_app. split; [done |]. apply Forall_singleton. destruct (is_void (value ty)) eqn:Ev.
    + unfold is_void in Ev. apply bool_decide_eq_true in Ev. by split; [split | split].
    + destruct Hv as (w & -> & Hw & Hcw). by split; [split | split].
Qed.

(** Fewer symbols are used than allowed. *)
Ltac weaken k := eapply (safe_weaken _ _ k); [lia | intros ? Hq; exact Hq |].

Lemma entries_safe ty s (c : ascii) fuel p d :
  text_type ty -> no_nul p -> (length p <= fuel)%nat -> Forall (row_valid ty) d ->
  safe (2 * Z.of_nat (length p)) (entries_loop hash_string uuid_generate ovs_retval_to_string fuel s ty c p d)
    (λ q : datum * chars, Forall (row_valid ty) q.1 /\
       Z.of_nat (length q.1) <= Z.of_nat (length d) + MAX_OVSDB_ATOM_RANGE_SIZE * Z.of_nat (length p)).
Proof.
  intros Hty. revert p d. unfold MAX_OVSDB_ATOM_RANGE_SIZE. induction fuel as [| fuel IH]; intros p d Hn Hf Hd; cbn [entries_loop].
  { assert (p = []) as -> by (destruct p; [done | cbn in Hf; lia]). cbn. apply safe_ret. cbn. split; [done | lia]. }
  destruct (_ || _).
  { weaken 0. apply safe_ret. cbn. split; [done | lia]. }
  destruct (ovsdb_token_is_delim (hd_char p)) eqn:Ed.
  { weaken 0. apply safe_fail. }
  destruct p as [| c0 p0] eqn:Ep; [done |]. rewrite <- Ep in *. assert (1 <= length p)%nat as Hp by (rewrite Ep; cbn; lia).
  weaken (2 + (0 + (2 * Z.of_nat (length p) - 2))).
  eapply safe_bind; [lia | lia | by apply key_value_safe |]. intros [[[k v] e] rest] Hr.
  destruct (add_safe ty d k v e p rest Hty Hd Hr) as (d' & -> & Hd' & Hl'). destruct Hr as (_ & _ & Hnr & Hlr).
  eapply (safe_bind _ _ _ _ _ _ (λ w : datum, w = d')); [lia | lia | by apply safe_ret |]. intros ? ->.
  destruct (skip_rest rest Hnr) as [Hn1 Hl1]. destruct (tail_rest _ Hn1) as [Hn2 Hl2]. destruct (skip_rest _ Hn2) as [Hn3 Hl3].
  cbv zeta. set (p' := if _ =c "," then _ else _).
  assert (no_nul p' /\ (length p' < length p)%nat) as [Hnp Hlp] by (unfold p'; destruct (_ =c ","); split; (done || lia)).
  eapply safe_weaken; [| | apply (IH p' d')]; [lia | | done | lia | done].
  intros [d2 p2] [H1 H2]. cbn in *. split; [done |]. unfold MAX_OVSDB_ATOM_RANGE_SIZE in *. lia.
Qed.

Lemma finish_safe ty s (c : ascii) p d :
  type_ok ty -> Forall (row_valid ty) d -> Z.of_nat (length d) < DATUM_MAX -> safe 0 (finish_datum s ty c p d) (valid ty).
Proof.
  intros Hty Hd Hlen. unfold finish_datum. destruct (negb _); [apply safe_fail |]. destruct (_ && _); [apply safe_fail |].
  change 0 with (0 + 0). eapply safe_bind; [lia | lia | apply safe_guard |]. intros ? Hs. cbv beta in Hs.
  assert (n_min ty <= Z.of_nat (length d) <= n_max ty) as Hn.
  { unfold check_size in Hs. rewrite Z.gtb_ltb in Hs. destruct (Z.ltb_spec (Z.of_nat (length d)) (n_min ty)); [done |].
    destruct (Z.ltb_spec (n_max ty) (Z.of_nat (length d))); [done | lia]. }
  assert (Forall (row_of ty) d) as Hr by (eapply Forall_impl; [exact Hd |]; by intros r []).
  destruct (ovsdb_datum_sort d) as [d' error] eqn:E. apply (datum_sort_spec (type (key ty)) (type (value ty))) in E as [Hp Hc]; [| done | done].
  destruct error; [apply safe_fail |]. apply safe_ret. destruct Hc as [(_ & Hnd & Hso) | [[? [=]] _]].
  split; [split; [by rewrite Hp | done | by rewrite Hp] |]. split; [by rewrite Hp |]. apply check_constraints_none; by rewrite Hp.
Qed.

(** Reading a text does not crash, adds at most two symbols for each character, and gives a
    valid datum. *)
Lemma datum_text_safe ty s :
  text_type ty -> no_nul s -> MAX_OVSDB_ATOM_RANGE_SIZE * Z.of_nat (length s) < DATUM_MAX ->
  safe (2 * Z.of_nat (length s)) (ovsdb_datum_from_string hash_string uuid_generate ovs_retval_to_string ty s) (valid ty).
Proof.
  intros Hty Hs Hl. unfold ovsdb_datum_from_string. cbv zeta.
  assert (forall c p, no_nul p -> (length p <= length s)%nat ->
    safe (2 * Z.of_nat (length s)) ('(d, p) ←! entries_loop hash_string uuid_generate ovs_retval_to_string (length s) s ty c p []; finish_datum s ty c p d) (valid ty)) as He.
  { intros c p Hp Hlp. weaken (2 * Z.of_nat (length p) + 0).
    eapply safe_bind; [lia | lia | by apply entries_safe |]. intros [d p'] [Hd Hld]. cbn in *.
    apply finish_safe; [apply Hty | done |]. unfold MAX_OVSDB_ATOM_RANGE_SIZE in *. lia. }
  destruct (skip_rest s Hs) as [Hn1 Hl1]. destruct (tail_rest _ Hn1) as [Hn2 Hl2]. destruct (skip_rest _ Hn2) as [Hn3 Hl3].
  destruct (_ =c _); [apply He; [done | lia] |]. destruct (_ =c NUL); [| by apply He].
  weaken 0. apply safe_fail.
Qed.

End safe.
End OvsdbTextSafe.
