(* ===== verification/OvsdbProps.v ===== *)
(** Properties of OVSDB data and types. *)
From stdpp Require Import gmap sorting.
From S2P Require Import Prelude Text Hmap Unicode Containers Shash Json JsonLex JsonNumber JsonParse JsonRoundtrip JsonProps Sort Uuid OvsdbTypes OvsdbData OvsdbDatum OvsdbSets OvsdbJson OvsdbJsonThms OvsdbTypeThms OvsdbText OvsdbTextThms OvsdbTextSafe.

Module OvsdbProps.
Import JsonLex JsonNumber JsonParse JsonRoundtrip.
Export OvsdbTypeThms OvsdbTextSafe.

Section properties.
Context {T R : Type} {HT : HashTable T} {HTok : HashTableOk T}.
Context {D : Double R} {DO : DoubleOrder R} {Dok : DoubleOk R} {So : Sorting} {Sok : SortingOk So}.

Abbreviation row := (ovsdb_atom R * option (ovsdb_atom R))%type.
Abbreviation datum := (ovsdb_datum R).
Abbreviation json := (Json.json T R).
Abbreviation symtab := (option (ovsdb_symbol_table T)).
Implicit Types (j : json) (a b d : datum) (r : row) (base : ovsdb_base_type R) (ty : ovsdb_type R).

(** ** Sets and maps *)

(** C5: data are finite sets and maps.  On data whose keys are in order the operations of the
    library do what their names say of the sets of elements: looking up a key finds its position
    or shows that there is none; inclusion, exclusion and equality are those of the sets; the
    union has the elements of both, with the value of the right or of the left for a key in both;
    the difference has the elements of the one that are not in the other.  The results are in
    order again, and no assertion fails. *)
Theorem datum_set_operations ty a b :
  ok ty a -> ok ty b -> Z.of_nat (length a + length b) < DATUM_MAX ->
  (forall k, atom_ok (type (key ty)) k ->
     match ovsdb_datum_find_key a k with
     | Some i => exists v, a !! i = Some (k, v)
     | None => forall v, (k, v) ∉ a
     end) /\
  (ovsdb_datum_includes_all a b ty = true <-> forall r, r ∈ a -> r ∈ b) /\
  (ovsdb_datum_excludes_all a b ty = true <-> forall r, r ∈ a -> r ∉ b) /\
  (ovsdb_datum_equals a b ty = true <-> forall r, r ∈ a <-> r ∈ b) /\
  (forall replace, exists d, ovsdb_datum_union a b ty replace = Some d /\ ok ty d /\
     forall r, r ∈ d <-> if replace then r ∈ b \/ r ∈ a /\ r.1 ∉ b.*1 else r ∈ a \/ r ∈ b /\ r.1 ∉ a.*1) /\
  (exists d, ovsdb_datum_subtract a ty b ty = Some d /\ ok ty d /\ forall r, r ∈ d <-> r ∈ a /\ r ∉ b).
Proof.
  intros Ha Hb Hl. split; [| split; [by apply includes_spec | split; [by apply excludes_spec | split; [| split]]]].
  - intros k Hk. pose proof (find_key_spec _ _ a k Ha Hk) as H.
    destruct (ovsdb_datum_find_key a k); [done |]. intros v Hin. by apply H in Hin.
  - rewrite equals_spec by done. split; [by intros -> | by apply (ok_ext ty)].
  - intros replace. by apply union_spec.
  - destruct (subtract_spec ty ty a b Ha (or_introl (conj (conj eq_refl eq_refl) Hb))) as (d & -> & Hd & Hel).
    exists d. split; [done |]. split; [done |]. intros r. rewrite Hel. pose proof (ok_rows ty a Ha) as Hr. rewrite Forall_forall in Hr.
    split; intros [Hin Hn]; (split; [done |]); intros H; apply Hn; apply (find_some ty ty); try done; by apply Hr.
Qed.


(** Removing duplicates keeps one row for each key, the one with the least value, and puts
    the keys in order.  The count returned is the number of rows dropped with the wrong sign, in
    the unsigned type of the result. *)
Theorem datum_sort_unique_exact ty d d' n :
  Forall (row_of ty) d -> Z.of_nat (length d) < DATUM_MAX -> ovsdb_datum_sort_unique d (type (value ty)) = (d', n) ->
  ok ty d' /\ (forall r, r ∈ d' -> least ty d r) /\ (forall r, r ∈ d -> r.1 ∈ d'.*1) /\
  n = u64 (- (Z.of_nat (length d) - Z.of_nat (length d'))).
Proof.
  intros Hr Hl E. destruct (sort_unique_spec ty d d' n Hr Hl E) as (Hok & Hle & Hk & ->).
  split; [done |]. split; [done |]. split; [done |]. f_equal. lia.
Qed.

(** ** JSON *)

Context (hash_string : chars -> Z -> Z) (uuid_generate : nat -> uuid).

(** C15: data survive conversion to JSON: the JSON of a datum that satisfies the constraints of
    its type is read as the same datum, without touching the table of symbols, and converting
    it to its own type does not change it. *)
Theorem datum_json_roundtrip ty d (s : symtab) :
  valid ty d ->
  ovsdb_datum_from_json hash_string uuid_generate ty (ovsdb_datum_to_json d ty) s = (Value d, s) /\
  ovsdb_datum_convert (T := T) hash_string uuid_generate ty d ty = Value d.
Proof.
  intros Hd. split; [by apply datum_roundtrip |]. unfold ovsdb_datum_convert, without_symbols. by rewrite datum_roundtrip.
Qed.

Context (Hgen : forall k, uuid_ok (uuid_generate k)).

Lemma result_wf N j : N < DATUM_MAX -> result_ok hash_string canonical N j -> (exists message, j = JSON_STRING message) \/ wf hash_string j.
Proof.
  intros HN. unfold result_ok. set (n := 1000%nat). clearbody n. destruct j as [| | | o | l | | | message]; intros H; try destruct H.
  - right. exists N, n. by split.
  - right. exists N, n. by split.
  - left. by exists message.
Qed.

Lemma parses_wf fl pieces :
  2 * Z.of_nat (length (concat pieces)) + 1 < DATUM_MAX ->
  exists p j, feed_pieces hash_string fl pieces = Some p /\ json_parser_finish hash_string p = Some j /\
    ((exists message, j = JSON_STRING message) \/ wf hash_string j).
Proof.
  intros Hf. unfold DATUM_MAX in Hf.
  destruct (feed_pieces_all hash_string canonical lex_canonical fl pieces) as (n & p & _ & E & I); [unfold in_u; lia |].
  destruct (finish_keeps hash_string canonical lex_canonical _ p I) as (j & Ej & Hj); [unfold in_u; lia |].
  exists p, j. split; [done |]. split; [done |]. by eapply result_wf; [| exact Hj].
Qed.

(** C3: from bytes to data.  Whatever bytes, in whatever pieces, the JSON parser is fed, it
    returns an error message or a value from which a datum can be read: no assertion fails, no
    null pointer is used and no loop runs forever; the result is an error or a datum of the type
    whose keys are in order and distinct, whose size is allowed and which satisfies all
    constraints, and the table of symbols gains at most two symbols for each element. *)
Theorem datum_from_bytes_safe fl pieces ty (N : Z) (s : symtab) :
  type_ok ty -> symtab_ok hash_string N s -> 2 * Z.of_nat (length (concat pieces)) + 1 < DATUM_MAX -> N <= 2 ^ 63 ->
  exists p j, feed_pieces hash_string fl pieces = Some p /\ json_parser_finish hash_string p = Some j /\
    ((exists message, j = JSON_STRING message) \/
     let '(o, s') := ovsdb_datum_from_json hash_string uuid_generate ty j s in
     symtab_ok hash_string (N + (2 * Z.of_nat (elements j) + 1)) s' /\
     match o with Value d => valid ty d | Error _ => True | Crash => False end).
Proof.
  intros Hty Hs Hf HN. destruct (parses_wf fl pieces Hf) as (p & j & Ep & Ej & Hj). exists p, j. split; [done |]. split; [done |].
  destruct Hj as [Hj | Hj]; [by left | right]. pose proof (wf_elements hash_string j Hj) as He.
  pose proof (datum_from_json_safe hash_string uuid_generate Hgen ty j Hty Hj N s Hs ltac:(done) ltac:(unfold SYMBOLS_MAX, DATUM_MAX in *; lia)) as H.
  destruct (ovsdb_datum_from_json _ _ _ _ _) as [o s']. by destruct H as (H1 & _ & H2).
Qed.

(** C22: types survive conversion to JSON, with all their constraints and allowed values; and
    reading a type from whatever bytes gives an error or a well-formed type. *)
Theorem type_json_exact :
  (forall ty, type_ok ty -> ovsdb_type_from_json hash_string uuid_generate (ovsdb_type_to_json (T := T) hash_string ty) = Value ty) /\
  (forall fl pieces, 2 * Z.of_nat (length (concat pieces)) + 1 < DATUM_MAX ->
     exists p j, feed_pieces hash_string fl pieces = Some p /\ json_parser_finish hash_string p = Some j /\
       ((exists message, j = JSON_STRING message) \/ returns (ovsdb_type_from_json hash_string uuid_generate j) type_ok)).
Proof.
  split; [apply type_roundtrip |]. intros fl pieces Hf. destruct (parses_wf fl pieces Hf) as (p & j & Ep & Ej & Hj).
  exists p, j. split; [done |]. split; [done |]. destruct Hj as [Hj | Hj]; [by left | right]. by apply type_safe.
Qed.

(** ** Text *)

Context (ovs_retval_to_string : Z -> chars).


(** C23: reading any text as a datum, with a table of symbols, does not crash and ends, for types
    in which ranges are allowed only in sets and cannot reach the largest integer: the result is
    an error or a datum that satisfies all constraints, and every character adds at most two
    symbols. *)
Theorem datum_from_string_safe ty (text : chars) (N : Z) (t : ovsdb_symbol_table T) :
  text_type ty -> no_nul text -> MAX_OVSDB_ATOM_RANGE_SIZE * Z.of_nat (length text) < DATUM_MAX ->
  symtab_ok hash_string N (Some t) -> N <= 2 ^ 63 ->
  let '(o, s') := ovsdb_datum_from_string hash_string uuid_generate ovs_retval_to_string ty text (Some t) in
  symtab_ok hash_string (N + 2 * Z.of_nat (length text)) s' /\
  match o with Value d => valid ty d | Error _ => True | Crash => False end.
Proof.
  intros Hty Hn Hl Hs HN.
  pose proof (datum_text_safe hash_string uuid_generate ovs_retval_to_string Hgen ty text Hty Hn Hl N (Some t) Hs ltac:(done)
    ltac:(unfold SYMBOLS_MAX, DATUM_MAX, MAX_OVSDB_ATOM_RANGE_SIZE in *; lia)) as H.
  destruct (ovsdb_datum_from_string _ _ _ _ _ _) as [o s']. by destruct H as (? & _ & ?).
Qed.

End properties.
(** ** Examples *)

(** Numbers with one decimal, counted in tenths, in place of doubles; larger ones saturate. *)
Definition TENTHS_MAX : Z := 10 * 2 ^ 63.

#[local] Instance tenths : Double Z := {
  strtod s := (Z.max 0 (Z.min TENTHS_MAX (JsonProps.read_tenths s)), length s, NO_ERROR);
  double_zero := 0;
  double_eqb := Z.eqb;
  double_of_integer z := 10 * z;
  format_g d := print_uint 10 (d / 10) ++ "."%char :: print_uint 10 (d mod 10);
}.

#[local] Instance tenths_order : DoubleOrder Z := {
  double_ltb := Z.ltb; double_leb := Z.leb; DBL_MAX := TENTHS_MAX; minus_DBL_MAX := - TENTHS_MAX;
}.

#[local] Instance tenths_ok : DoubleOk Z.
Proof.
  refine {| canonical x := - TENTHS_MAX <= x <= TENTHS_MAX |}; unfold double_ltb, double_leb, double_eqb, DBL_MAX, minus_DBL_MAX, double_zero; cbn.
  all: try (intros; lia). all: unfold TENTHS_MAX, LLONG_MIN, LLONG_MAX.
  - intros x H1 H2. destruct (x =? 0); lia.
  - intros s x _. destruct (_ || _); [done |]. intros [= <-]. lia.
  - intros; lia.
  - lia.
  - lia.
  - lia.
Defined.

#[local] Instance example_sorting : Sorting := quicksort_sorting (λ _, 1) 1.
#[local] Instance example_sorting_ok : SortingOk example_sorting := quicksort_sorting_ok (λ _, 1) 1 fair_one.

(** Sets of integers, and maps from strings to integers with at most three pairs. *)
Definition int_set : ovsdb_type Z := mk_type (ovsdb_base_type_init OVSDB_TYPE_INTEGER) (ovsdb_base_type_init OVSDB_TYPE_VOID) 0 UINT_MAX.
Definition int_map : ovsdb_type Z :=
  mk_type (ovsdb_base_type_init OVSDB_TYPE_STRING) (mk_base OVSDB_TYPE_INTEGER None (INTEGER_CONSTRAINTS 0 10)) 0 3.

Definition ints (l : list Z) : ovsdb_datum Z := (λ z, (ATOM_INTEGER z, None)) <$> l.
Definition pairs : ovsdb_datum Z := [(ATOM_STRING (str "a"), Some (ATOM_INTEGER 1)); (ATOM_STRING (str "b"), Some (ATOM_INTEGER 2))].

Lemma ints_ok x y : LLONG_MIN <= x < y /\ y <= LLONG_MAX -> ok int_set (ints [x; y]).
Proof.
  intros H. split; [| | done].
  - repeat apply Forall_cons_2; [.. | constructor]; (split; [split; [done | cbn; lia] | done]).
  - repeat constructor. unfold by_key. cbn. by assert (x <? y = true) as -> by lia.
Defined.

Lemma pairs_valid : valid int_map pairs.
Proof.
  split; [split; [| | done] | split; [done | by vm_compute]].
  - repeat apply Forall_cons_2; [.. | constructor]; by repeat split; repeat constructor.
  - by repeat constructor.
Defined.

Lemma int_map_ok : type_ok int_map.
Proof. by repeat split; unfold LLONG_MIN, LLONG_MAX. Defined.

Lemma datum_set_operations_witness :
  exists d, ovsdb_datum_subtract (ints [1; 2]) int_set (ints [2; 3]) int_set = Some d /\ ok int_set d /\
    forall r, r ∈ d <-> r ∈ ints [1; 2] /\ r ∉ ints [2; 3].
Proof. apply (datum_set_operations int_set (ints [1; 2]) (ints [2; 3])); [by apply ints_ok | by apply ints_ok | done]. Defined.


Lemma datum_sort_unique_exact_witness :
  (ovsdb_datum_sort_unique (ints [2; 1; 2]) OVSDB_TYPE_VOID).2 = 2 ^ 64 - 1 /\
  ok int_set (ovsdb_datum_sort_unique (ints [2; 1; 2]) OVSDB_TYPE_VOID).1.
Proof.
  split; [by vm_compute |]. eapply (datum_sort_unique_exact int_set (ints [2; 1; 2])); [| done | by apply surjective_pairing].
  repeat apply Forall_cons_2; [.. | constructor]; by repeat split.
Defined.

Lemma datum_json_roundtrip_witness :
  ovsdb_datum_convert (T := Hmap.hmap) hash_length (λ _, uuid_zero) int_map pairs int_map = Value pairs.
Proof. apply (datum_json_roundtrip hash_length (λ _, uuid_zero) int_map pairs None), pairs_valid. Defined.

Lemma datum_from_bytes_safe_witness :
  exists p (j : json Hmap.hmap Z), feed_pieces hash_length 0 [str "[true"; str "]"] = Some p /\ json_parser_finish hash_length p = Some j /\
    ((exists message, j = JSON_STRING message) \/
     let '(o, s') := ovsdb_datum_from_json hash_length (λ _, uuid_zero) int_map j None in
     symtab_ok hash_length (0 + (2 * Z.of_nat (elements j) + 1)) s' /\
     match o with Value d => valid int_map d | Error _ => True | Crash => False end).
Proof.
  apply (datum_from_bytes_safe hash_length (λ _, uuid_zero)); [done | apply int_map_ok | done | done | done].
Defined.

Lemma type_json_exact_witness :
  ovsdb_type_from_json hash_length (λ _, uuid_zero) (ovsdb_type_to_json (T := Hmap.hmap) hash_length int_map) = Value int_map.
Proof. apply (type_json_exact hash_length (λ _, uuid_zero)); [done | apply int_map_ok]. Defined.

(** References to rows, and maps from integers to strings. *)
Definition references : ovsdb_type Z := mk_type (ovsdb_base_type_init OVSDB_TYPE_UUID) (ovsdb_base_type_init OVSDB_TYPE_VOID) 0 UINT_MAX.
Definition names : ovsdb_type Z := mk_type (ovsdb_base_type_init OVSDB_TYPE_INTEGER) (ovsdb_base_type_init OVSDB_TYPE_STRING) 0 UINT_MAX.

Definition read_string (ty : ovsdb_type Z) (text : chars) : outcome chars (ovsdb_datum Z) :=
  (ovsdb_datum_from_string (T := Hmap.hmap) hash_length (λ _, uuid_zero) (λ _, []) ty text None).1.



Lemma datum_from_string_safe_witness :
  match (ovsdb_datum_from_string hash_length (λ _, uuid_zero) (λ _, []) int_map (str "{a=1}") (Some ovsdb_symbol_table_create)).1 : outcome chars (ovsdb_datum Z) with
  | Value d => valid int_map d
  | Error _ => True
  | Crash => False
  end.
Proof.
  assert (symtab_ok hash_length 0 (Some (ovsdb_symbol_table_create (T := Hmap.hmap)))) as Hs.
  { exists ∅. split; [apply init_contents |]. split; [by rewrite map_size_empty |]. intros name symbol. by rewrite lookup_empty. }
  pose proof (datum_from_string_safe hash_length (λ _, uuid_zero) ltac:(done) (λ _, []) int_map (str "{a=1}") 0 ovsdb_symbol_table_create) as H.
  destruct (ovsdb_datum_from_string _ _ _ _ _ _) as [o s']. apply H; [| by repeat constructor | done | done | done].
  split; [apply int_map_ok | done].
Defined.

End OvsdbProps.
