(* ===== verification/OvsdbSchema.v ===== *)
(** Columns and sets of columns (ovsdb/column.c), table schemas (ovsdb/table.c) and the fields of
    rows (ovsdb/row.c). *)
From stdpp Require Import gmap sorting.
From S2P Require Import Prelude Text Unicode Containers Shash Json JsonLex Sort Uuid OvsdbTypes OvsdbData OvsdbJson.

Module OvsdbSchema.
Export OvsdbJson.

(** ** Data *)

Record ovsdb_column {R : Type} := mk_column {
  col_index : Z;
  col_name : chars;
  col_mutable : bool;
  persistent : bool;
  col_type : ovsdb_type R;
}.
Arguments ovsdb_column : clear implicits.
Arguments mk_column {R}.

#[export] Instance ovsdb_column_eta {R} : RecordEta (ovsdb_column R) := λ r,
  mk_column (col_index r) (col_name r) (col_mutable r) (persistent r) (col_type r).

(** Pointers to columns of a schema, in an array that grows. *)
Abbreviation ovsdb_column_set R := (list (ovsdb_column R)).

Record ovsdb_table_schema {T R : Type} := mk_schema {
  ts_name : chars;
  ts_mutable : bool;
  is_root : bool;
  max_rows : Z;
  columns : shash T (ovsdb_column R);
  indexes : list (ovsdb_column_set R);
}.
Arguments ovsdb_table_schema : clear implicits.
Arguments mk_schema {T R}.

#[export] Instance ovsdb_table_schema_eta {T R} : RecordEta (ovsdb_table_schema T R) := λ r,
  mk_schema (ts_name r) (ts_mutable r) (is_root r) (max_rows r) (columns r) (indexes r).

Definition OVSDB_COL_UUID : Z := 0.
Definition OVSDB_COL_VERSION : Z := 1.
Definition OVSDB_N_STD_COLUMNS : Z := 2.

Definition english_list_delimiter (index total : nat) : chars :=
  if (index =? 0)%nat then [] else if (index <? total - 1)%nat then str ", " else if (2 <? total)%nat then str ", and " else str " and ".

Section schema.
Context {T R : Type} {HT : HashTable T} {D : Double R} {DO : DoubleOrder R} {So : Sorting}.
Context (hash_string : chars -> Z -> Z) (uuid_generate : nat -> uuid).

Abbreviation datum := (ovsdb_datum R).
Abbreviation json := (Json.json T R).
Abbreviation column := (ovsdb_column R).
Abbreviation column_set := (ovsdb_column_set R).
Abbreviation schema := (ovsdb_table_schema T R).
Implicit Types (j : json) (ty : ovsdb_type R) (col : column) (set : column_set) (ts : schema).

(** ** Columns *)

(** The index is set when the column is added to a schema. *)
Definition ovsdb_column_create (name : chars) (mutable persistent : bool) ty : column := mk_column 0 name mutable persistent ty.

Definition ovsdb_column_clone col : column :=
  ovsdb_column_create (col_name col) (col_mutable col) (persistent col) (col_type col).

Definition OP_BOOLEAN : Z := Z.lor (OP FALSE_TYPE) (OP TRUE_TYPE).

(** An optional member that is a boolean. *)
Definition boolean_member (j : option json) (dflt : bool) : bool := from_option (λ j, default false (json_boolean j)) dflt j.

Definition ovsdb_column_from_json j (name : chars) : outcome ovsdb_error column :=
  let parser := ovsdb_parser_init (Some j) (str "schema for column " ++ name) in
  let '(mutable_json, parser) := ovsdb_parser_member hash_string parser (str "mutable") (optional OP_BOOLEAN) in
  let '(ephemeral, parser) := ovsdb_parser_member hash_string parser (str "ephemeral") (optional OP_BOOLEAN) in
  let '(type_json, parser) := ovsdb_parser_member hash_string parser (str "type") (Z.lor (OP STRING_TYPE) (OP OBJECT_TYPE)) in
  match ovsdb_parser_finish parser, type_json with
  | Some error, _ => Error error
  | None, None => Crash
  | None, Some type_json =>
      match ovsdb_type_from_json hash_string uuid_generate type_json with
      | Error error => Error error
      | Crash => Crash
      | Value ty =>
          let mutable := boolean_member mutable_json true in
          let mutable := mutable || ovsdb_base_type_is_weak_ref (key ty) || ovsdb_base_type_is_weak_ref (value ty) in
          let persistent := negb (boolean_member ephemeral false) in
          Value (ovsdb_column_create name mutable persistent ty)
      end
  end.

Definition ovsdb_column_to_json col : json :=
  let o := shash_init in
  let o := if negb (col_mutable col) then put hash_string (str "mutable") JSON_FALSE o else o in
  let o := if negb (persistent col) then put hash_string (str "ephemeral") JSON_TRUE o else o in
  JSON_OBJECT (put hash_string (str "type") (ovsdb_type_to_json hash_string (col_type col)) o).

(** ** Sets of columns *)

Definition ovsdb_column_set_init : column_set := [].

Definition ovsdb_column_set_add set col : column_set := set ++ [col].

Definition ovsdb_column_set_contains set (column_index : Z) : bool := existsb (λ col, col_index col =? column_index) set.

(** Columns in the order of SHASH_FOR_EACH. *)
Definition schema_columns ts : list column := (shash_nodes (columns ts)).*2.

Definition ovsdb_column_set_add_all set ts : column_set := foldl ovsdb_column_set_add set (schema_columns ts).

Fixpoint column_set_loop j ts set (elems : list json) : column_set + ovsdb_error :=
  let error := syntax_error j (str "array of distinct column names expected") in
  match elems with
  | [] => inl set
  | JSON_STRING s :: elems =>
      match shash_find_data hash_string (columns ts) s with
      | None => inr (syntax_error j (s ++ str " is not a valid column name"))
      | Some col =>
          if ovsdb_column_set_contains set (col_index col) then inr error
          else column_set_loop j ts (ovsdb_column_set_add set col) elems
      end
  | _ :: _ => inr error
  end.

(** Without JSON, all columns. *)
Definition ovsdb_column_set_from_json (json : option (Json.json T R)) ts : column_set + ovsdb_error :=
  match json with
  | None => inl (ovsdb_column_set_add_all ovsdb_column_set_init ts)
  | Some (JSON_ARRAY elems as j) => column_set_loop j ts ovsdb_column_set_init elems
  | Some j => inr (syntax_error j (str "array of distinct column names expected"))
  end.

Definition ovsdb_column_set_to_json set : json := JSON_ARRAY (List.map (λ col, JSON_STRING (col_name col)) set).

Definition ovsdb_column_set_to_string set : chars :=
  match set with
  | [] => str "no columns"
  | _ =>
      str "column" ++ (if (1 <? length set)%nat then str "s" else []) ++ str " " ++
      concat (imap (λ i col, english_list_delimiter i (length set) ++ quoted (col_name col)) set)
  end.

(** ** Schemas *)

(** The column with its index, and the schema; [None] is a failed assertion. *)
Definition add_column ts col : option (column * schema) :=
  match shash_find hash_string (columns ts) (col_name col) with
  | Some _ => None
  | None =>
      let col := col <| col_index := u32 (shash_count (columns ts)) |> in
      Some (col, ts <| columns ::= λ sh, (shash_add hash_string (col_name col) col sh).2 |>)
  end.

Definition ovsdb_type_uuid : ovsdb_type R := scalar_type (ovsdb_base_type_init OVSDB_TYPE_UUID).

Definition ovsdb_table_schema_create (name : chars) (mutable : bool) (max_rows : Z) (is_root : bool) : option schema :=
  let ts := mk_schema name mutable is_root max_rows shash_init [] in
  match add_column ts (ovsdb_column_create (str "_uuid") false true ovsdb_type_uuid) with
  | None => None
  | Some (uuid, ts) =>
      if negb (col_index uuid =? OVSDB_COL_UUID) then None
      else
        match add_column ts (ovsdb_column_create (str "_version") false false ovsdb_type_uuid) with
        | None => None
        | Some (version, ts) => if negb (col_index version =? OVSDB_COL_VERSION) then None else Some ts
        end
  end.

Definition ovsdb_table_schema_get_column ts (name : chars) : option column := shash_find_data hash_string (columns ts) name.

(** The columns of the schema in JSON; [j] is the JSON of the table. *)
Fixpoint columns_from_json j ts (nodes : list (chars * json)) : outcome ovsdb_error schema :=
  match nodes with
  | [] => Value ts
  | (name, value) :: nodes =>
      let column :=
        if hd_char name =c "_" then Error (syntax_error j (str "names beginning with " ++ quoted (str "_") ++ str " are reserved"))
        else if negb (ovsdb_parser_is_id name) then Error (syntax_error j (str "name must be a valid id"))
        else ovsdb_column_from_json value name in
      match column with
      | Error error => Error error
      | Crash => Crash
      | Value col => match add_column ts col with Some (_, ts) => columns_from_json j ts nodes | None => Crash end
      end
  end.

Fixpoint indexes_from_json j ts (elems : list json) : schema + ovsdb_error :=
  match elems with
  | [] => inl ts
  | elem :: elems =>
      match ovsdb_column_set_from_json (Some elem) ts with
      | inr error => inr error
      | inl [] => inr (syntax_error j (str "index must have at least one column"))
      | inl index =>
          match List.find (λ col, negb (persistent col)) index with
          | Some col => inr (syntax_error j (str "ephemeral columns (such as " ++ col_name col ++ str ") may not be indexed"))
          | None => indexes_from_json j (ts <| indexes ::= λ l, l ++ [index] |>) elems
          end
      end
  end.

Definition ovsdb_table_schema_from_json j (name : chars) : outcome ovsdb_error schema :=
  let parser := ovsdb_parser_init (Some j) (str "table schema for table " ++ name) in
  let '(columns, parser) := ovsdb_parser_member hash_string parser (str "columns") (OP OBJECT_TYPE) in
  let '(mutable, parser) := ovsdb_parser_member hash_string parser (str "mutable") (optional OP_BOOLEAN) in
  let '(max_rows, parser) := ovsdb_parser_member hash_string parser (str "maxRows") (optional (OP INTEGER_TYPE)) in
  let '(is_root, parser) := ovsdb_parser_member hash_string parser (str "isRoot") (optional OP_BOOLEAN) in
  let '(indexes, parser) := ovsdb_parser_member hash_string parser (str "indexes") (optional (OP ARRAY_TYPE)) in
  match ovsdb_parser_finish parser, columns ≫= json_object with
  | Some error, _ => Error error
  | None, None => Crash
  | None, Some columns =>
      let n_max_rows := default UINT_MAX (j ← max_rows; json_integer j) in
      if n_max_rows <=? 0 then Error (syntax_error j (str "maxRows must be at least 1"))
      else if shash_is_empty columns then Error (syntax_error j (str "table must have at least one column"))
      else
        match ovsdb_table_schema_create name (boolean_member mutable true) (Z.min n_max_rows UINT_MAX) (boolean_member is_root false) with
        | None => Crash
        | Some ts =>
            match columns_from_json j ts (shash_nodes columns) with
            | Value ts =>
                match indexes_from_json j ts (default [] (indexes ≫= json_array)) with inl ts => Value ts | inr error => Error error end
            | o => o
            end
        end
  end.

Definition ovsdb_table_schema_to_json ts (default_is_root : bool) : json :=
  let put := put hash_string in
  let o := shash_init in
  let o := if negb (ts_mutable ts) then put (str "mutable") JSON_FALSE o else o in
  let o := if negb (Bool.eqb default_is_root (is_root ts)) then put (str "isRoot") (if is_root ts then JSON_TRUE else JSON_FALSE) o else o in
  let columns := foldl (λ cs (node : chars * column), if hd_char node.1 =c "_" then cs else put (col_name node.2) (ovsdb_column_to_json node.2) cs)
                   shash_init (shash_nodes (columns ts)) in
  let o := put (str "columns") (JSON_OBJECT columns) o in
  let o := if negb (max_rows ts =? UINT_MAX) then put (str "maxRows") (JSON_INTEGER (max_rows ts)) o else o in
  JSON_OBJECT (if negb (length (indexes ts) =? 0)%nat
               then put (str "indexes") (JSON_ARRAY (List.map ovsdb_column_set_to_json (indexes ts))) o else o).

(** The columns that creation did not add; [None] is a failed assertion. *)
Definition clone_columns ts (cols : list column) : option schema :=
  foldl (λ (new : option schema) col, ts ← new; if hd_char (col_name col) =c "_" then Some ts else snd <$> add_column ts (ovsdb_column_clone col)) (Some ts) cols.

(** [None] is a failed assertion or a column of an index that the clone does not have. *)
Definition ovsdb_table_schema_clone (old : schema) : option schema :=
  ts ← ovsdb_table_schema_create (ts_name old) (ts_mutable old) (max_rows old) (is_root old);
  ts ← clone_columns ts (schema_columns old);
  indexes ← mapM (mapM (λ col, ovsdb_table_schema_get_column ts (col_name col))) (indexes old);
  Some (ts <| OvsdbSchema.indexes := indexes |>).

(** ** Rows *)

(** One datum for each column, at the index of the column. *)
Abbreviation fields := (list datum).
Implicit Types (row : fields).

(** [None] is an index outside the array. *)
Definition get_field row col : option datum := row !! Z.to_nat (col_index col).

(** The array is not initialized before the loop. *)
Definition ovsdb_row_create ts : fields :=
  foldl (λ row col, <[Z.to_nat (col_index col) := ovsdb_datum_init_default (col_type col)]> row)
    (replicate (Z.to_nat (shash_count (columns ts))) ovsdb_datum_init_empty) (schema_columns ts).

Fixpoint ovsdb_row_compare_columns_3way (a b : fields) set : option Z :=
  match set with
  | [] => Some 0
  | col :: set =>
      x ← get_field a col; y ← get_field b col;
      let cmp := ovsdb_datum_compare_3way x y (col_type col) in
      if negb (cmp =? 0) then Some cmp else ovsdb_row_compare_columns_3way a b set
  end.

Fixpoint ovsdb_row_equal_columns (a b : fields) set : option bool :=
  match set with
  | [] => Some true
  | col :: set =>
      x ← get_field a col; y ← get_field b col;
      if negb (ovsdb_datum_equals x y (col_type col)) then Some false else ovsdb_row_equal_columns a b set
  end.

Definition ovsdb_row_update_columns (dst src : fields) set : option fields :=
  foldl (λ dst col, dst ← dst; x ← get_field src col; _ ← get_field dst col; Some (<[Z.to_nat (col_index col) := x]> dst)) (Some dst) set.

(** The members of the row in JSON, and the columns that they are for; [j] is the whole JSON. *)
Fixpoint row_members_from_json ts j row (included : column_set) (nodes : list (chars * json))
    : M (option (ovsdb_symbol_table T)) ovsdb_error (fields * column_set) :=
  match nodes with
  | [] => ret (row, included)
  | (column_name, value) :: nodes =>
      match ovsdb_table_schema_get_column ts column_name with
      | None =>
          fail (ovsdb_syntax_error (Some j) (Some (str "unknown column"))
                  (str "No column " ++ column_name ++ str " in table " ++ ts_name ts ++ str "."))
      | Some col =>
          d ←! ovsdb_datum_from_json hash_string uuid_generate (col_type col) value;
          _ ←! of_option (get_field row col);
          row_members_from_json ts j (<[Z.to_nat (col_index col) := d]> row) (ovsdb_column_set_add included col) nodes
      end
  end.

(** On an error the callers discard the row. *)
Definition ovsdb_row_from_json ts row j : M (option (ovsdb_symbol_table T)) ovsdb_error (fields * column_set) :=
  match j with
  | JSON_OBJECT object => row_members_from_json ts j row ovsdb_column_set_init (shash_nodes object)
  | _ => fail (syntax_error j (str "row must be JSON object"))
  end.

Definition put_json_column (object : shash T json) row col : option (shash T json) :=
  d ← get_field row col; Some (put hash_string (col_name col) (ovsdb_datum_to_json d (col_type col)) object).

Definition ovsdb_row_to_json row set : option json :=
  JSON_OBJECT <$> foldl (λ object col, object ← object; put_json_column object row col) (Some shash_init) set.
End schema.
End OvsdbSchema.
