(* ===== verification/OvsdbCondition.v ===== *)
(** Conditions on rows (lib/ovsdb-condition.c, ovsdb/condition.c): clauses that compare columns
    with data, and the tables of clauses that make matching any of them fast. *)
From stdpp Require Import gmap sorting.
From S2P Require Import Prelude Text Unicode Containers Shash Json JsonLex Sort Uuid OvsdbTypes OvsdbData OvsdbJson OvsdbSchema.

Module OvsdbCondition.
Export OvsdbSchema.

(** ** Functions *)

Inductive ovsdb_function :=
  | OVSDB_F_FALSE | OVSDB_F_TRUE | OVSDB_F_EQ | OVSDB_F_INCLUDES | OVSDB_F_LE | OVSDB_F_LT | OVSDB_F_GE | OVSDB_F_GT
  | OVSDB_F_EXCLUDES | OVSDB_F_NE.

#[export] Instance ovsdb_function_eq_dec : EqDecision ovsdb_function.
Proof. solve_decision. Defined.

(** The numbers of the enum. *)
Definition function_number (f : ovsdb_function) : Z :=
  match f with
  | OVSDB_F_FALSE => 0 | OVSDB_F_TRUE => 1 | OVSDB_F_EQ => 2 | OVSDB_F_INCLUDES => 3 | OVSDB_F_LE => 4
  | OVSDB_F_LT => 5 | OVSDB_F_GE => 6 | OVSDB_F_GT => 7 | OVSDB_F_EXCLUDES => 8 | OVSDB_F_NE => 9
  end.

Definition ovsdb_function_to_string (f : ovsdb_function) : chars :=
  match f with
  | OVSDB_F_FALSE => str "false" | OVSDB_F_TRUE => str "true" | OVSDB_F_EQ => str "==" | OVSDB_F_INCLUDES => str "includes"
  | OVSDB_F_LE => str "<=" | OVSDB_F_LT => str "<" | OVSDB_F_GE => str ">=" | OVSDB_F_GT => str ">"
  | OVSDB_F_EXCLUDES => str "excludes" | OVSDB_F_NE => str "!="
  end.

(** In the order of OVSDB_FUNCTIONS. *)
Definition OVSDB_FUNCTIONS : list ovsdb_function :=
  [OVSDB_F_FALSE; OVSDB_F_TRUE; OVSDB_F_EQ; OVSDB_F_INCLUDES; OVSDB_F_LE; OVSDB_F_LT; OVSDB_F_GE; OVSDB_F_GT; OVSDB_F_EXCLUDES; OVSDB_F_NE].

(** ** Clauses and conditions *)

Record ovsdb_clause {R : Type} := mk_clause {
  function : ovsdb_function;
  column : ovsdb_column R;
  index : Z;
  arg : ovsdb_datum R;
}.
Arguments ovsdb_clause : clear implicits.
Arguments mk_clause {R}.

(** The arguments of the clauses of a column, as nodes of a hash table by their place. *)
Record ovsdb_o_column {T R : Type} := mk_o_column {
  oc_column : ovsdb_column R;
  o_clauses : T;
  o_args : list (ovsdb_datum R);
}.
Arguments ovsdb_o_column : clear implicits.
Arguments mk_o_column {T R}.

Record ovsdb_condition {T R : Type} := mk_condition {
  clauses : list (ovsdb_clause R);
  optimized : bool;
  o_columns : shash T (ovsdb_o_column T R);
}.
Arguments ovsdb_condition : clear implicits.
Arguments mk_condition {T R}.

#[export] Instance ovsdb_condition_eta {T R} : RecordEta (ovsdb_condition T R) := λ r, mk_condition (clauses r) (optimized r) (o_columns r).

Section condition.
Context {T R : Type} {HT : HashTable T} {D : Double R} {DO : DoubleOrder R} {So : Sorting}.
Context (hash_string : chars -> Z -> Z) (uuid_generate : nat -> uuid).
Context (hash_int : Z -> Z -> Z) (hash_double : R -> Z -> Z) (hash_boolean : bool -> Z -> Z).
(** The C library's. *)
Context (qsort : forall X : Type, (X -> X -> Z) -> list X -> list X).

Abbreviation datum := (ovsdb_datum R).
Abbreviation json := (Json.json T R).
Abbreviation clause := (ovsdb_clause R).
Abbreviation condition := (ovsdb_condition T R).
Abbreviation M A := (M (option (ovsdb_symbol_table T)) ovsdb_error A).
Implicit Types (j : json) (ty : ovsdb_type R) (col : ovsdb_column R) (ts : ovsdb_table_schema T R) (c : clause) (cnd : condition) (row : list datum).

Definition ovsdb_function_from_string (name : chars) : ovsdb_function + ovsdb_error :=
  match List.find (λ f, strcmp name (ovsdb_function_to_string f) =? 0) OVSDB_FUNCTIONS with
  | Some f => inl f
  | None => inr (ovsdb_syntax_error (None : option json) (Some (str "unknown function")) (str "No function named " ++ name ++ str "."))
  end.

(** The type of the argument for a column, with restrictions relaxed. *)
Definition argument_type j (function : ovsdb_function) col : outcome ovsdb_error (ovsdb_type R) :=
  let ty := col_type col in
  match function with
  | OVSDB_F_LT | OVSDB_F_LE | OVSDB_F_GT | OVSDB_F_GE =>
      if negb (ovsdb_type_is_scalar ty || ovsdb_type_is_optional_scalar ty)
         || (negb (bool_decide (type (key ty) = OVSDB_TYPE_INTEGER)) && negb (bool_decide (type (key ty) = OVSDB_TYPE_REAL))) then
        Error (syntax_error j (str "Type mismatch: " ++ quoted (ovsdb_function_to_string function) ++ str " operator may not be applied to column "
                               ++ col_name col ++ str " of type " ++ ovsdb_type_to_english ty ++ str "."))
      else Value (ty <| n_min := 1 |>)
  | OVSDB_F_EQ | OVSDB_F_NE => Value ty
  | OVSDB_F_EXCLUDES => Value (if negb (ovsdb_type_is_scalar ty) then ty <| n_min := 0 |> <| n_max := UINT_MAX |> else ty)
  | OVSDB_F_INCLUDES => Value (if negb (ovsdb_type_is_scalar ty) then ty <| n_min := 0 |> else ty)
  | OVSDB_F_TRUE | OVSDB_F_FALSE => Crash
  end.

(** [crash] is the use of a null pointer, without the column, or OVS_NOT_REACHED(). *)
Definition ovsdb_clause_from_json ts j : M clause :=
  let constant function :=
    col ←! of_option (ovsdb_table_schema_get_column hash_string ts (str "_uuid"));
    ret (mk_clause function col (col_index col) (ovsdb_datum_init_default (col_type col))) in
  match j with
  | JSON_TRUE => constant OVSDB_F_TRUE
  | JSON_FALSE => constant OVSDB_F_FALSE
  | JSON_ARRAY [JSON_STRING column_name; JSON_STRING function_name; value] =>
      match ovsdb_table_schema_get_column hash_string ts column_name with
      | None =>
          fail (ovsdb_syntax_error (Some j) (Some (str "unknown column"))
                  (str "No column " ++ column_name ++ str " in table " ++ ts_name ts ++ str "."))
      | Some col =>
          match ovsdb_function_from_string function_name with
          | inr error => fail error
          | inl function =>
              ty ←! of_outcome (argument_type j function col);
              arg ←! ovsdb_datum_from_json hash_string uuid_generate ty value;
              ret (mk_clause function col (col_index col) arg)
          end
      end
  | _ => fail (syntax_error j (str "Parse error in condition."))
  end.

(** ** Order *)

Definition compare_clauses_3way (a b : clause) : Z :=
  if negb (function_number (function a) =? function_number (function b)) then
    if function_number (function a) <? function_number (function b) then -1 else 1
  else if negb (col_index (column a) =? col_index (column b)) then
    if (col_index (column a) <? OVSDB_N_STD_COLUMNS) || (col_index (column b) <? OVSDB_N_STD_COLUMNS) then
      if col_index (column a) <? col_index (column b) then -1 else 1
    else strcmp (col_name (column a)) (col_name (column b))
  else 0.

Definition compare_clauses_3way_with_data (a b : clause) : Z :=
  let res := compare_clauses_3way a b in
  if negb (res =? 0) then res else ovsdb_datum_compare_3way (arg a) (arg b) (col_type (column a)).

(** ** Optimization *)

Definition datum_hash (d : datum) ty : Z := ovsdb_datum_hash hash_string hash_int hash_double hash_boolean d ty 0.

(** One clause, whose function is an equality. *)
Definition optimize_clause (o_columns : shash T (ovsdb_o_column T R)) c : shash T (ovsdb_o_column T R) :=
  let col := column c in
  let '(node, o_columns) :=
    match shash_find hash_string o_columns (col_name col) with
    | Some node => (node, o_columns)
    | None => shash_add hash_string (col_name col) (mk_o_column col hmap_init []) o_columns
    end in
  match node_data o_columns node with
  | Some o =>
      set_data node (mk_o_column (oc_column o) (hmap_insert (length (o_args o)) (datum_hash (arg c) (col_type col)) (o_clauses o))
                       (o_args o ++ [arg c])) o_columns
  | None => o_columns
  end.

Definition ovsdb_condition_optimize cnd : condition :=
  if negb (optimized cnd) then cnd
  else cnd <| o_columns := foldl optimize_clause (o_columns cnd) (List.filter (λ c, bool_decide (function c = OVSDB_F_EQ)) (clauses cnd)) |>.

Definition ovsdb_condition_init : condition := mk_condition [] true shash_init.

Fixpoint clauses_from_json ts (elems : list json) cnd : M condition :=
  match elems with
  | [] => ret cnd
  | elem :: elems =>
      c ←! ovsdb_clause_from_json ts elem;
      let cnd := cnd <| clauses ::= λ l, l ++ [c] |> in
      clauses_from_json ts elems
        (if function_number (function c) >? function_number OVSDB_F_EQ then cnd <| optimized := false |> else cnd)
  end.

Definition ovsdb_condition_from_json ts j : M condition :=
  array ←! of_option (json_array j);
  cnd ←! clauses_from_json ts array ovsdb_condition_init;
  ret (ovsdb_condition_optimize (cnd <| clauses ::= qsort clause compare_clauses_3way_with_data |>)).

Definition ovsdb_clause_to_json c : json :=
  match function c with
  | OVSDB_F_TRUE => JSON_TRUE
  | OVSDB_F_FALSE => JSON_FALSE
  | f => JSON_ARRAY [JSON_STRING (col_name (column c)); JSON_STRING (ovsdb_function_to_string f);
                     ovsdb_datum_to_json (arg c) (col_type (column c))]
  end.

Definition ovsdb_condition_to_json cnd : json := JSON_ARRAY (List.map ovsdb_clause_to_json (clauses cnd)).

(** ** Evaluation *)

(** The place of a column in a row; [None] is an index outside of the map. *)
Definition row_index (index_map : option (list Z)) col : option nat :=
  match index_map with
  | None => Some (Z.to_nat (col_index col))
  | Some map => Z.to_nat <$> map !! Z.to_nat (col_index col)
  end.

(** [None] is OVS_NOT_REACHED(). *)
Definition compare_scalars (function : ovsdb_function) (cmp : Z) : option bool :=
  match function with
  | OVSDB_F_LT => Some (cmp <? 0)
  | OVSDB_F_LE => Some (cmp <=? 0)
  | OVSDB_F_EQ | OVSDB_F_INCLUDES => Some (cmp =? 0)
  | OVSDB_F_NE | OVSDB_F_EXCLUDES => Some (negb (cmp =? 0))
  | OVSDB_F_GE => Some (cmp >=? 0)
  | OVSDB_F_GT => Some (cmp >? 0)
  | OVSDB_F_TRUE | OVSDB_F_FALSE => None
  end.

Definition compare_sets (function : ovsdb_function) (field arg : datum) ty : option bool :=
  match function with
  | OVSDB_F_EQ => Some (ovsdb_datum_equals field arg ty)
  | OVSDB_F_NE => Some (negb (ovsdb_datum_equals field arg ty))
  | OVSDB_F_INCLUDES => Some (ovsdb_datum_includes_all arg field ty)
  | OVSDB_F_EXCLUDES => Some (ovsdb_datum_excludes_all arg field ty)
  | _ => None
  end.

Definition is_ordering (function : ovsdb_function) : bool :=
  match function with OVSDB_F_LT | OVSDB_F_LE | OVSDB_F_GT | OVSDB_F_GE => true | _ => false end.

(** [None] is OVS_NOT_REACHED() or an index outside of an array. *)
Definition ovsdb_clause_evaluate row c (index_map : option (list Z)) : option bool :=
  let ty := col_type (column c) in
  i ← row_index index_map (column c);
  match function c with
  | OVSDB_F_TRUE => Some true
  | OVSDB_F_FALSE => Some false
  | function =>
      field ← row !! i;
      if ovsdb_type_is_optional_scalar ty && (length field =? 0)%nat && is_ordering function then Some false
      else if ovsdb_type_is_scalar ty || ovsdb_type_is_optional_scalar ty then
        match field, arg c with
        | [x], [y] => compare_scalars function (ovsdb_atom_compare_3way x.1 y.1)
        | _, _ => compare_sets function field (arg c) ty
        end
      else compare_sets function field (arg c) ty
  end.

(** Stops at the first clause that is false, or true. *)
Fixpoint every_clause row (index_map : option (list Z)) (l : list clause) : option bool :=
  match l with
  | [] => Some true
  | c :: l => match ovsdb_clause_evaluate row c index_map with Some true => every_clause row index_map l | o => o end
  end.

Fixpoint any_clause row (index_map : option (list Z)) (l : list clause) : option bool :=
  match l with
  | [] => Some false
  | c :: l => match ovsdb_clause_evaluate row c index_map with Some false => any_clause row index_map l | o => o end
  end.

Definition ovsdb_condition_match_every_clause row cnd : option bool := every_clause row None (clauses cnd).

Definition function_at cnd (i : nat) : option ovsdb_function := function <$> clauses cnd !! i.

Definition ovsdb_condition_empty cnd : bool := (length (clauses cnd) =? 0)%nat.

Definition ovsdb_condition_is_true cnd : bool :=
  ovsdb_condition_empty cnd || bool_decide (function_at cnd 0 = Some OVSDB_F_TRUE) || bool_decide (function_at cnd 1 = Some OVSDB_F_TRUE).

Definition ovsdb_condition_is_false cnd : bool :=
  (length (clauses cnd) =? 1)%nat && bool_decide (function_at cnd 0 = Some OVSDB_F_FALSE).

(** Whether a clause of one column is an equality with the datum of the row. *)
Fixpoint any_o_column row (index_map : option (list Z)) (nodes : list (chars * ovsdb_o_column T R)) : option bool :=
  match nodes with
  | [] => Some false
  | (_, o) :: nodes =>
      let col := oc_column o in
      i ← row_index index_map col;
      d ← row !! i;
      if existsb (λ node, from_option (λ a : datum, ovsdb_datum_equals d a (col_type col)) false (o_args o !! node))
           (for_each_with_hash (datum_hash d (col_type col)) (o_clauses o)) then Some true
      else any_o_column row index_map nodes
  end.

Definition ovsdb_condition_match_any_clause_optimized row cnd (index_map : option (list Z)) : option bool :=
  if ovsdb_condition_is_true cnd then Some true else any_o_column row index_map (shash_nodes (o_columns cnd)).

Definition ovsdb_condition_match_any_clause row cnd (index_map : option (list Z)) : option bool :=
  if optimized cnd then ovsdb_condition_match_any_clause_optimized row cnd index_map else any_clause row index_map (clauses cnd).

Definition ovsdb_condition_empty_or_match_any row cnd (index_map : option (list Z)) : option bool :=
  if ovsdb_condition_empty cnd then Some true else ovsdb_condition_match_any_clause row cnd index_map.

(** The clauses of [a] and [b] in turn. *)
Fixpoint cmp_clauses (a b : list clause) : Z :=
  match a, b with
  | x :: a, y :: b => let res := compare_clauses_3way_with_data x y in if negb (res =? 0) then res else cmp_clauses a b
  | _, _ => 0
  end.

Definition ovsdb_condition_cmp_3way (a b : condition) : Z :=
  if negb (length (clauses a) =? length (clauses b))%nat then if (length (clauses a) <? length (clauses b))%nat then -1 else 1
  else cmp_clauses (clauses a) (clauses b).

(** [index] is not copied; the memory of the clone is zeroed. *)
Definition ovsdb_clause_clone c : clause := mk_clause (function c) (column c) 0 (arg c).

Definition ovsdb_condition_clone (from : condition) : condition :=
  let to := ovsdb_condition_init <| clauses := List.map ovsdb_clause_clone (clauses from) |> <| optimized := optimized from |> in
  if optimized to then ovsdb_condition_optimize to else to.

Definition ovsdb_condition_get_columns cnd : list (ovsdb_column R) := List.map column (clauses cnd).
End condition.
End OvsdbCondition.
