(* ===== verification/OvsdbMutation.v ===== *)
(** Mutations of rows (ovsdb/mutation.c): arithmetic on numbers, insertion into and deletion from
    sets and maps. *)
From stdpp Require Import gmap sorting.
From S2P Require Import Prelude Text Unicode Containers Shash Json JsonLex Sort Uuid OvsdbTypes OvsdbData OvsdbJson OvsdbSchema.

(** Arithmetic of floating-point numbers. *)
Class DoubleArith (R : Type) := {
  double_add : R -> R -> R;
  double_sub : R -> R -> R;
  double_mul : R -> R -> R;
  double_div : R -> R -> R;
}.

Module OvsdbMutation.
Export OvsdbSchema.

Inductive ovsdb_mutator :=
  | OVSDB_M_ADD | OVSDB_M_SUB | OVSDB_M_MUL | OVSDB_M_DIV | OVSDB_M_MOD | OVSDB_M_INSERT | OVSDB_M_DELETE.

#[export] Instance ovsdb_mutator_eq_dec : EqDecision ovsdb_mutator.
Proof. solve_decision. Defined.

Definition ovsdb_mutator_to_string (mutator : ovsdb_mutator) : chars :=
  match mutator with
  | OVSDB_M_ADD => str "+=" | OVSDB_M_SUB => str "-=" | OVSDB_M_MUL => str "*=" | OVSDB_M_DIV => str "/=" | OVSDB_M_MOD => str "%="
  | OVSDB_M_INSERT => str "insert" | OVSDB_M_DELETE => str "delete"
  end.

(** In the order of OVSDB_MUTATORS. *)
Definition OVSDB_MUTATORS : list ovsdb_mutator :=
  [OVSDB_M_ADD; OVSDB_M_SUB; OVSDB_M_MUL; OVSDB_M_DIV; OVSDB_M_MOD; OVSDB_M_INSERT; OVSDB_M_DELETE].

(** ** Integers *)

(** ME_OK is the value of an outcome. *)
Inductive ovsdb_mutation_scalar_error := ME_DOM | ME_RANGE.

Abbreviation scalar A := (outcome ovsdb_mutation_scalar_error A).

(** The result of a signed operation, whose overflow is not defined. *)
Definition int64 (z : Z) : scalar Z := if (LLONG_MIN <=? z) && (z <=? LLONG_MAX) then Value z else Crash.

(** The sum of the check does not overflow because its operands have different signs. *)
Definition add_int (x y : Z) : scalar Z :=
  let z := Z.land (Z.lnot (Z.lxor x y)) LLONG_MIN in
  match int64 (Z.lxor x z + y) with
  | Value sum =>
      if negb (Z.shiftr (Z.land (Z.lnot (Z.lxor x y)) (Z.lnot (Z.lxor sum y))) 63 =? 0) then Error ME_RANGE else int64 (x + y)
  | o => o
  end.

Definition sub_int (x y : Z) : scalar Z :=
  let z := Z.land (Z.lxor x y) LLONG_MIN in
  match int64 (Z.lxor x z - y) with
  | Value difference =>
      if negb (Z.shiftr (Z.land (Z.lxor x y) (Z.lxor difference y)) 63 =? 0) then Error ME_RANGE else int64 (x - y)
  | o => o
  end.

(** Division of 64-bit integers, which is not defined by zero. *)
Definition quotient (x y : Z) : scalar Z := if y =? 0 then Crash else int64 (Z.quot x y).

Definition mul_int (x y : Z) : scalar Z :=
  let overflow : scalar bool :=
    if x >? 0 then
      if y >? 0 then match quotient LLONG_MAX y with Value q => Value (x >=? q) | Error e => Error e | Crash => Crash end
      else match quotient LLONG_MIN x with Value q => Value (y <? q) | Error e => Error e | Crash => Crash end
    else
      if y >? 0 then match quotient LLONG_MIN y with Value q => Value (x <? q) | Error e => Error e | Crash => Crash end
      else if x =? 0 then Value false
      else match quotient LLONG_MAX y with Value q => Value (y <? q) | Error e => Error e | Crash => Crash end in
  match overflow with
  | Value true => Error ME_RANGE
  | Value false => int64 (x * y)
  | Error e => Error e
  | Crash => Crash
  end.

Definition check_int_div (x y : Z) : option ovsdb_mutation_scalar_error :=
  if y =? 0 then Some ME_DOM else if (x =? LLONG_MIN) && (y =? -1) then Some ME_RANGE else None.

Definition div_int (x y : Z) : scalar Z :=
  match check_int_div x y with Some e => Error e | None => quotient x y end.

(** The remainder is not defined where the quotient is not. *)
Definition mod_int (x y : Z) : scalar Z :=
  match check_int_div x y with
  | Some e => Error e
  | None => match quotient x y with Value _ => Value (Z.rem x y) | o => o end
  end.

(** ** Mutations *)

Record ovsdb_mutation {R : Type} := mk_mutation {
  mutator : ovsdb_mutator;
  m_column : ovsdb_column R;
  m_arg : ovsdb_datum R;
  m_type : ovsdb_type R;
}.
Arguments ovsdb_mutation : clear implicits.
Arguments mk_mutation {R}.

Section mutation.
Context {T R : Type} {HT : HashTable T} {D : Double R} {DO : DoubleOrder R} {DA : DoubleArith R} {So : Sorting}.
Context (hash_string : chars -> Z -> Z) (uuid_generate : nat -> uuid).

Abbreviation atom := (ovsdb_atom R).
Abbreviation datum := (ovsdb_datum R).
Abbreviation json := (Json.json T R).
Abbreviation mutation := (ovsdb_mutation R).
Abbreviation M A := (M (option (ovsdb_symbol_table T)) ovsdb_error A).
Implicit Types (j : json) (d : datum) (base : ovsdb_base_type R) (ty : ovsdb_type R) (col : ovsdb_column R) (ts : ovsdb_table_schema T R) (m : mutation) (row : list datum).

Definition ovsdb_mutator_from_string (name : chars) : ovsdb_mutator + ovsdb_error :=
  match List.find (λ mutator, strcmp name (ovsdb_mutator_to_string mutator) =? 0) OVSDB_MUTATORS with
  | Some mutator => inl mutator
  | None => inr (ovsdb_syntax_error (None : option json) (Some (str "unknown mutator")) (str "No mutator named " ++ name ++ str "."))
  end.

Definition type_mismatch (mutator : ovsdb_mutator) col j : ovsdb_error :=
  syntax_error j (str "Type mismatch: " ++ quoted (ovsdb_mutator_to_string mutator) ++ str " operator may not be applied to column " ++
                  col_name col ++ str " of type " ++ ovsdb_type_to_english (col_type col) ++ str ".").

(** [m2] after an error of [m1]. *)
Definition otherwise {A} (m1 m2 : M A) : M A := λ s, match m1 s with (Error _, s) => m2 s | r => r end.

(** The argument of arithmetic, and its type. *)
Definition arithmetic_from_json (mutator : ovsdb_mutator) col j (value : json) : M mutation :=
  let ty := col_type col in
  if (negb (ovsdb_type_is_scalar ty) && negb (ovsdb_type_is_set ty))
     || (negb (bool_decide (type (key ty) = OVSDB_TYPE_INTEGER)) && negb (bool_decide (type (key ty) = OVSDB_TYPE_REAL)))
     || (bool_decide (mutator = OVSDB_M_MOD) && bool_decide (type (key ty) = OVSDB_TYPE_REAL)) then
    fail (type_mismatch mutator col j)
  else
    let ty := ty <| key ::= ovsdb_base_type_clear_constraints |> <| n_min := 1 |> <| n_max := 1 |> in
    arg ←! ovsdb_datum_from_json hash_string uuid_generate ty value;
    ret (mk_mutation mutator col arg ty).

(** The argument of insertion or deletion, and its type.  What is deleted from a map may be given
    by keys alone; the type of values that is left has no members that are used. *)
Definition elements_from_json (mutator : ovsdb_mutator) col j (value : json) : M mutation :=
  let ty := col_type col in
  if negb (ovsdb_type_is_set ty) && negb (ovsdb_type_is_map ty) then fail (type_mismatch mutator col j)
  else
    let ty := ty <| n_min := 0 |> in
    let ty := if bool_decide (mutator = OVSDB_M_DELETE) then ty <| n_max := UINT_MAX |> else ty in
    let read ty := arg ←! ovsdb_datum_from_json hash_string uuid_generate ty value; ret (mk_mutation mutator col arg ty) in
    if ovsdb_type_is_map ty && bool_decide (mutator = OVSDB_M_DELETE) then
      otherwise (read ty) (read (ty <| Ovsdb.value := mk_base OVSDB_TYPE_VOID None NO_CONSTRAINTS |>))
    else read ty.

Definition ovsdb_mutation_from_json ts j : M mutation :=
  match j with
  | JSON_ARRAY [JSON_STRING column_name; JSON_STRING mutator_name; value] =>
      match ovsdb_table_schema_get_column hash_string ts column_name with
      | None =>
          fail (ovsdb_syntax_error (Some j) (Some (str "unknown column"))
                  (str "No column " ++ column_name ++ str " in table " ++ ts_name ts ++ str "."))
      | Some col =>
          if negb (col_mutable col) then
            fail (ovsdb_syntax_error (Some j) (Some (str "constraint violation"))
                    (str "Cannot mutate immutable column " ++ column_name ++ str " in table " ++ ts_name ts ++ str "."))
          else
            match ovsdb_mutator_from_string mutator_name with
            | inr error => fail error
            | inl ((OVSDB_M_INSERT | OVSDB_M_DELETE) as mutator) => elements_from_json mutator col j value
            | inl mutator => arithmetic_from_json mutator col j value
            end
      end
  | _ => fail (syntax_error j (str "Parse error in mutation."))
  end.

Fixpoint mutations_from_json ts (elems : list json) : M (list mutation) :=
  match elems with
  | [] => ret []
  | elem :: elems =>
      m ←! ovsdb_mutation_from_json ts elem;
      rest ←! mutations_from_json ts elems;
      ret (m :: rest)
  end.

(** [crash] is a failed assertion. *)
Definition ovsdb_mutation_set_from_json ts j : M (list mutation) :=
  array ←! of_option (json_array j);
  mutations_from_json ts array.

Definition ovsdb_mutation_to_json m : json :=
  JSON_ARRAY [JSON_STRING (col_name (m_column m)); JSON_STRING (ovsdb_mutator_to_string (mutator m));
              ovsdb_datum_to_json (m_arg m) (m_type m)].

Definition ovsdb_mutation_set_to_json (set : list mutation) : json := JSON_ARRAY (List.map ovsdb_mutation_to_json set).

(** ** Execution *)

Definition scalar_error (error : ovsdb_mutation_scalar_error) (mutator : ovsdb_mutator) : ovsdb_error :=
  match error with
  | ME_DOM => db_error (str "domain error") (str "Division by zero.")
  | ME_RANGE =>
      db_error (str "range error") (str "Result of " ++ quoted (ovsdb_mutator_to_string mutator) ++ str " operation is out of range.")
  end.

Definition check_real_range (x : R) : option ovsdb_mutation_scalar_error :=
  if double_leb minus_DBL_MAX x && double_leb x DBL_MAX then None else Some ME_RANGE.

(** The members of struct ovsdb_scalar_mutation; there is no remainder of real numbers.
    [Crash] is a null pointer. *)
Definition mutate_integer (mutator : ovsdb_mutator) (x y : Z) : scalar Z :=
  match mutator with
  | OVSDB_M_ADD => add_int x y
  | OVSDB_M_SUB => sub_int x y
  | OVSDB_M_MUL => mul_int x y
  | OVSDB_M_DIV => div_int x y
  | OVSDB_M_MOD => mod_int x y
  | OVSDB_M_INSERT | OVSDB_M_DELETE => Crash
  end.

Definition mutate_real (mutator : ovsdb_mutator) (x y : R) : scalar R :=
  match mutator with
  | OVSDB_M_ADD => Value (double_add x y)
  | OVSDB_M_SUB => Value (double_sub x y)
  | OVSDB_M_MUL => Value (double_mul x y)
  | OVSDB_M_DIV => if double_eqb y double_zero then Error ME_DOM else Value (double_div x y)
  | OVSDB_M_MOD | OVSDB_M_INSERT | OVSDB_M_DELETE => Crash
  end.

(** The atom that is stored, and the error. *)
Definition mutate_atom (mutator : ovsdb_mutator) base (a arg : atom) : atom * scalar unit :=
  match type base, a, arg with
  | OVSDB_TYPE_INTEGER, ATOM_INTEGER x, ATOM_INTEGER y =>
      match mutate_integer mutator x y with
      | Value z => (ATOM_INTEGER z, Value tt)
      | Error e => (a, Error e)
      | Crash => (a, Crash)
      end
  | OVSDB_TYPE_REAL, ATOM_REAL x, ATOM_REAL y =>
      match mutate_real mutator x y with
      | Value z => (ATOM_REAL z, match check_real_range z with Some e => Error e | None => Value tt end)
      | Error e => (a, Error e)
      | Crash => (a, Crash)
      end
  | _, _, _ => (a, Crash)
  end.

(** The keys in turn, until one fails. *)
Fixpoint mutate_keys (mutator : ovsdb_mutator) base (arg : atom) d : datum * scalar unit :=
  match d with
  | [] => ([], Value tt)
  | r :: d =>
      match mutate_atom mutator base r.1 arg with
      | (k, Value _) => let '(d, o) := mutate_keys mutator base arg d in ((k, r.2) :: d, o)
      | (k, o) => ((k, r.2) :: d, o)
      end
  end.

(** A datum is changed in place, also when there is an error. *)
Definition mutate_scalar (mutator : ovsdb_mutator) ty (arg : atom) : Ovsdb.M datum ovsdb_error unit := λ d,
  match mutate_keys mutator (key ty) arg d with
  | (d, Crash) => (Crash, d)
  | (d, Error e) => (Error (scalar_error e mutator), d)
  | (d, Value _) =>
      match first_error (λ r : atom * option atom, ovsdb_atom_check_constraints r.1 (key ty)) d with
      | Some error => (Error error, d)
      | None =>
          match ovsdb_datum_sort d with
          | (d, Some _) =>
              (Error (db_error (str "constraint violation")
                 (str "Result of " ++ quoted (ovsdb_mutator_to_string mutator) ++ str " operation contains duplicates.")), d)
          | (d, None) => (Value tt, d)
          end
      end
  end.

Definition ovsdb_datum_conforms_to_type d ty : bool := (Z.of_nat (length d) >=? n_min ty) && (Z.of_nat (length d) <=? n_max ty).

Definition ovsdb_mutation_check_count d ty : option ovsdb_error :=
  if negb (ovsdb_datum_conforms_to_type d ty) then
    Some (db_error (str "constraint violation")
            (str "Attempted to store " ++ print_nat (length d) ++ str " elements in " ++ ovsdb_type_to_english ty ++ str "."))
  else None.

(** The datum that an insertion or deletion leaves, with its size checked. *)
Definition store_elements (result : option datum) ty : Ovsdb.M datum ovsdb_error unit := λ d,
  match result with
  | None => (Crash, d)
  | Some d => (match ovsdb_mutation_check_count d ty with Some error => Error error | None => Value tt end, d)
  end.

(** One mutation on the datum of its column. *)
Definition mutate_datum m : Ovsdb.M datum ovsdb_error unit := λ d,
  let ty := col_type (m_column m) in
  match mutator m with
  | OVSDB_M_INSERT => store_elements (ovsdb_datum_union d (m_arg m) ty false) ty d
  | OVSDB_M_DELETE => store_elements (ovsdb_datum_subtract d ty (m_arg m) (m_type m)) ty d
  | mutator =>
      match m_arg m with
      | [] => (Crash, d)
      | arg :: _ => mutate_scalar mutator ty arg.1 d
      end
  end.

(** The row is changed in place.  [Crash] includes an index outside of it. *)
Definition mutate_row m : Ovsdb.M (list datum) ovsdb_error unit := λ row,
  let i := Z.to_nat (col_index (m_column m)) in
  match row !! i with
  | None => (Crash, row)
  | Some d => let '(o, d) := mutate_datum m d in (o, <[i := d]> row)
  end.

Fixpoint ovsdb_mutation_set_execute (set : list mutation) : Ovsdb.M (list datum) ovsdb_error unit :=
  match set with
  | [] => ret tt
  | m :: set => _ ←! mutate_row m; ovsdb_mutation_set_execute set
  end.
End mutation.
End OvsdbMutation.
