(* ===== verification/OvsdbArith.v ===== *)
(** The arithmetic of mutations is exact, except for products of numbers that are not positive. *)
From stdpp Require Import gmap.
From S2P Require Import Prelude Text Unicode Containers Shash Json JsonLex Sort Uuid OvsdbTypes OvsdbData OvsdbJson OvsdbSchema OvsdbMutation.

Module OvsdbArith.
Export OvsdbMutation.

Definition in64 (z : Z) : Prop := LLONG_MIN <= z <= LLONG_MAX.

(** The result of an operation, or an error if it has more than 64 bits. *)
Definition checked (z : Z) : scalar Z := if bool_decide (in64 z) then Value z else Error ME_RANGE.

Lemma int64_in z : in64 z -> int64 z = Value z.
Proof. unfold in64, int64. intros H. by assert ((LLONG_MIN <=? z) && (z <=? LLONG_MAX) = true) as -> by lia. Qed.

Lemma int64_out z : ~ in64 z -> int64 z = Crash.
Proof. unfold in64, int64. intros H. destruct (_ && _) eqn:E; [| done]. lia. Qed.

Lemma checked_in z : in64 z -> checked z = Value z.
Proof. intros H. unfold checked. by rewrite bool_decide_eq_true_2. Qed.

Lemma checked_out z : ~ in64 z -> checked z = Error ME_RANGE.
Proof. intros H. unfold checked. by rewrite bool_decide_eq_false_2. Qed.

(** ** Bits *)

(** The sign of a number is its bit 63 and all above. *)
Lemma in64_shiftr z : in64 z <-> Z.shiftr z 63 = 0 \/ Z.shiftr z 63 = -1.
Proof.
  unfold in64, LLONG_MIN, LLONG_MAX. rewrite Z.shiftr_div_pow2 by lia.
  pose proof (Z.div_mod z (2 ^ 63) ltac:(lia)). pose proof (Z.mod_pos_bound z (2 ^ 63) ltac:(lia)). lia.
Qed.

Lemma shiftr_sign z : in64 z -> Z.shiftr z 63 = 0 <-> 0 <= z.
Proof.
  intros H%in64_shiftr. pose proof (Z.shiftr_nonneg z 63). destruct H as [E | E]; rewrite E in *; lia.
Qed.

Lemma in64_lxor x y : in64 x -> in64 y -> in64 (Z.lxor x y).
Proof. rewrite !in64_shiftr, Z.shiftr_lxor. intros [-> | ->] [-> | ->]; cbn; auto. Qed.

Lemma in64_land x y : in64 x -> in64 y -> in64 (Z.land x y).
Proof. rewrite !in64_shiftr, Z.shiftr_land. intros [-> | ->] [-> | ->]; cbn; auto. Qed.

Lemma in64_lnot x : in64 x -> in64 (Z.lnot x).
Proof. unfold in64, LLONG_MIN, LLONG_MAX, Z.lnot. lia. Qed.

Lemma lnot_sign x : 0 <= Z.lnot x <-> x < 0.
Proof. unfold Z.lnot. lia. Qed.

(** The sign bit alone. *)
Lemma sign_mask z : in64 z -> Z.land z LLONG_MIN = if z <? 0 then LLONG_MIN else 0.
Proof.
  intros H. assert (LLONG_MIN = Z.lnot (Z.ones 63)) as -> by done. rewrite <- Z.ldiff_land, Z.ldiff_ones_r by lia.
  pose proof (shiftr_sign z H). apply in64_shiftr in H as [E | E]; rewrite E in *; destruct (Z.ltb_spec z 0); done || lia.
Qed.

(** Flipping the sign bit. *)
Lemma flip_sign z : in64 z -> Z.lxor z LLONG_MIN = if z <? 0 then z - LLONG_MIN else z + LLONG_MIN.
Proof.
  intros H. pose proof (sign_mask z H) as Hm. destruct (Z.ltb_spec z 0).
  - assert (in64 (z - LLONG_MIN)) as H' by (unfold in64, LLONG_MIN, LLONG_MAX in *; lia).
    pose proof (sign_mask _ H') as Hm'. destruct (Z.ltb_spec (z - LLONG_MIN) 0); [unfold in64, LLONG_MIN in *; lia |].
    apply Z.add_nocarry_lxor in Hm'. rewrite Z.sub_add in Hm'. rewrite Hm' at 1. by rewrite Z.lxor_assoc, Z.lxor_nilpotent, Z.lxor_0_r.
  - symmetry. by apply Z.add_nocarry_lxor.
Qed.

(** ** Sums and differences *)

Lemma add_int_exact x y : in64 x -> in64 y -> add_int x y = checked (x + y).
Proof.
  intros Hx Hy. unfold add_int. cbv zeta. pose proof (in64_lnot _ (in64_lxor x y Hx Hy)) as Hs.
  pose proof (Z.lxor_nonneg x y) as Hxy. pose proof (lnot_sign (Z.lxor x y)) as Hn. rewrite (sign_mask _ Hs).
  destruct (Z.ltb_spec (Z.lnot (Z.lxor x y)) 0) as [Hlt | Hge].
  - rewrite (flip_sign x Hx). set (sum := (if x <? 0 then x - LLONG_MIN else x + LLONG_MIN) + y).
    assert (in64 sum) as Hsum by (subst sum; unfold in64, LLONG_MIN, LLONG_MAX in *; destruct (Z.ltb_spec x 0); lia).
    rewrite (int64_in _ Hsum). pose proof (in64_lnot _ (in64_lxor _ y Hsum Hy)) as Hc.
    pose proof (shiftr_sign _ (in64_land _ _ Hs Hc)) as Hsh. pose proof (lnot_sign (Z.lxor sum y)). pose proof (Z.lxor_nonneg sum y).
    pose proof (Z.land_nonneg (Z.lnot (Z.lxor x y)) (Z.lnot (Z.lxor sum y))).
    destruct (Z.eqb_spec (Z.shiftr (Z.land (Z.lnot (Z.lxor x y)) (Z.lnot (Z.lxor sum y))) 63) 0) as [E | E]; cbn [negb].
    + assert (in64 (x + y)) as H' by (subst sum; unfold in64, LLONG_MIN, LLONG_MAX in *; destruct (Z.ltb_spec x 0); lia).
      by rewrite int64_in, checked_in.
    + rewrite checked_out; [done |]. subst sum. unfold in64, LLONG_MIN, LLONG_MAX in *. destruct (Z.ltb_spec x 0); lia.
  - assert (in64 (x + y)) as H' by (unfold in64, LLONG_MIN, LLONG_MAX in *; lia).
    rewrite Z.lxor_0_r, (int64_in _ H'), (checked_in _ H').
    assert (Z.shiftr (Z.land (Z.lnot (Z.lxor x y)) (Z.lnot (Z.lxor (x + y) y))) 63 = 0) as ->; [| done].
    apply shiftr_sign; [by apply in64_land; [| apply in64_lnot, in64_lxor] |]. apply Z.land_nonneg. by left.
Qed.

Lemma sub_int_exact x y : in64 x -> in64 y -> sub_int x y = checked (x - y).
Proof.
  intros Hx Hy. unfold sub_int. cbv zeta. pose proof (in64_lxor x y Hx Hy) as Hs.
  pose proof (Z.lxor_nonneg x y) as Hxy. rewrite (sign_mask _ Hs).
  destruct (Z.ltb_spec (Z.lxor x y) 0) as [Hlt | Hge].
  - rewrite (flip_sign x Hx). set (diff := (if x <? 0 then x - LLONG_MIN else x + LLONG_MIN) - y).
    assert (in64 diff) as Hd by (subst diff; unfold in64, LLONG_MIN, LLONG_MAX in *; destruct (Z.ltb_spec x 0); lia).
    rewrite (int64_in _ Hd). pose proof (in64_lxor _ y Hd Hy) as Hc.
    pose proof (shiftr_sign _ (in64_land _ _ Hs Hc)) as Hsh. pose proof (Z.lxor_nonneg diff y).
    pose proof (Z.land_nonneg (Z.lxor x y) (Z.lxor diff y)).
    destruct (Z.eqb_spec (Z.shiftr (Z.land (Z.lxor x y) (Z.lxor diff y)) 63) 0) as [E | E]; cbn [negb].
    + assert (in64 (x - y)) as H' by (subst diff; unfold in64, LLONG_MIN, LLONG_MAX in *; destruct (Z.ltb_spec x 0); lia).
      by rewrite int64_in, checked_in.
    + rewrite checked_out; [done |]. subst diff. unfold in64, LLONG_MIN, LLONG_MAX in *. destruct (Z.ltb_spec x 0); lia.
  - assert (in64 (x - y)) as H' by (unfold in64, LLONG_MIN, LLONG_MAX in *; lia).
    rewrite Z.lxor_0_r, (int64_in _ H'), (checked_in _ H').
    assert (Z.shiftr (Z.land (Z.lxor x y) (Z.lxor (x - y) y)) 63 = 0) as ->; [| done].
    apply shiftr_sign; [by apply in64_land; [| apply in64_lxor] |]. apply Z.land_nonneg. by left.
Qed.

(** ** Quotients *)

Lemma quot_abs_le x y : y <> 0 -> Z.abs (Z.quot x y) <= Z.abs x / Z.abs y.
Proof. intros Hy. rewrite <- Z.quot_abs, Z.quot_div_nonneg by lia. lia. Qed.

Lemma quot_range x y : in64 x -> y <> 0 -> ~ (x = LLONG_MIN /\ y = -1) -> in64 (Z.quot x y).
Proof.
  intros Hx Hy Hn. destruct (decide (y = 1)) as [-> | H1]; [by rewrite Z.quot_1_r |].
  destruct (decide (y = -1)) as [-> | H2].
  { change (-1) with (- (1)). rewrite Z.quot_opp_r, Z.quot_1_r by lia. unfold in64, LLONG_MIN, LLONG_MAX in *. lia. }
  pose proof (quot_abs_le x y Hy). pose proof (Z.div_le_upper_bound (Z.abs x) (Z.abs y) (2 ^ 62) ltac:(lia)) as Hq.
  unfold in64, LLONG_MIN, LLONG_MAX in *. nia.
Qed.

Lemma quotient_in x y : in64 x -> y <> 0 -> ~ (x = LLONG_MIN /\ y = -1) -> quotient x y = Value (Z.quot x y).
Proof. intros Hx Hy Hn. unfold quotient. destruct (Z.eqb_spec y 0); [done |]. by apply int64_in, quot_range. Qed.

Lemma quot_not_range : ~ in64 (Z.quot LLONG_MIN (-1)).
Proof. by vm_compute; intros []. Qed.

Lemma div_int_exact x y : in64 x -> in64 y -> div_int x y = if y =? 0 then Error ME_DOM else checked (Z.quot x y).
Proof.
  intros Hx Hy. unfold div_int, check_int_div. destruct (Z.eqb_spec y 0) as [| H0]; [done |].
  destruct ((x =? LLONG_MIN) && (y =? -1)) eqn:E.
  - rewrite andb_true_iff, !Z.eqb_eq in E. destruct E as [-> ->]. symmetry. apply checked_out, quot_not_range.
  - rewrite quotient_in by (done || lia). symmetry. apply checked_in, quot_range; [done | done | lia].
Qed.

Lemma mod_int_exact x y : in64 x -> in64 y ->
  mod_int x y = if y =? 0 then Error ME_DOM else if bool_decide (in64 (Z.quot x y)) then Value (Z.rem x y) else Error ME_RANGE.
Proof.
  intros Hx Hy. unfold mod_int, check_int_div. destruct (Z.eqb_spec y 0) as [| H0]; [done |].
  destruct ((x =? LLONG_MIN) && (y =? -1)) eqn:E.
  - rewrite andb_true_iff, !Z.eqb_eq in E. destruct E as [-> ->]. by rewrite bool_decide_eq_false_2 by apply quot_not_range.
  - rewrite quotient_in by (done || lia). rewrite bool_decide_eq_true_2; [done |]. apply quot_range; [done | done | lia].
Qed.

(** ** Products *)

Lemma quot_max y : 0 < y -> Z.quot LLONG_MAX y = LLONG_MAX / y.
Proof. intros H. by apply Z.quot_div_nonneg. Qed.

Lemma quot_min y : 0 < y -> Z.quot LLONG_MIN y = - (2 ^ 63 / y).
Proof. intros H. unfold LLONG_MIN. rewrite Z.quot_opp_l by lia. by rewrite Z.quot_div_nonneg. Qed.

(** [n] is above a quotient when its product is above the dividend. *)
Lemma above_quotient a n y : 0 < y -> a / y < n <-> a < n * y.
Proof.
  intros Hy. pose proof (Z.div_mod a y ltac:(lia)). pose proof (Z.mod_pos_bound a y Hy). split; nia.
Qed.

Lemma in64_max : in64 LLONG_MAX.
Proof. by unfold in64, LLONG_MAX, LLONG_MIN. Qed.

Lemma in64_min : in64 LLONG_MIN.
Proof. by unfold in64, LLONG_MAX, LLONG_MIN. Qed.

(** Where one factor is positive the check is right, but for the largest product of two. *)
Lemma mul_int_positive x y : in64 x -> in64 y -> 0 < x \/ 0 < y ->
  mul_int x y = if (0 <? x) && (0 <? y) && (x =? LLONG_MAX / y) then Error ME_RANGE else checked (x * y).
Proof.
  intros Hx Hy Hp. unfold mul_int. cbv zeta. rewrite !Z.gtb_ltb.
  destruct (Z.ltb_spec 0 x) as [H1 | H1], (Z.ltb_spec 0 y) as [H2 | H2]; cbn [andb]; [| | | lia].
  - rewrite quotient_in by (apply in64_max || lia). rewrite quot_max, Z.geb_leb by done.
    pose proof (above_quotient LLONG_MAX x y H2) as Ha. destruct (Z.leb_spec (LLONG_MAX / y) x), (Z.eqb_spec x (LLONG_MAX / y)); try done; try lia.
    + rewrite checked_out; [done |]. unfold in64. lia.
    + assert (in64 (x * y)) by (unfold in64, LLONG_MIN in *; nia). by rewrite int64_in, checked_in.
  - rewrite quotient_in by (apply in64_min || lia). rewrite quot_min by done.
    pose proof (above_quotient (2 ^ 63) (- y) x H1) as Ha. destruct (Z.ltb_spec y (- (2 ^ 63 / x))).
    + rewrite checked_out; [done |]. unfold in64, LLONG_MIN in *. nia.
    + assert (in64 (x * y)) by (unfold in64, LLONG_MIN, LLONG_MAX in *; nia). by rewrite int64_in, checked_in.
  - rewrite quotient_in by (apply in64_min || lia). rewrite quot_min by done.
    pose proof (above_quotient (2 ^ 63) (- x) y H2) as Ha. destruct (Z.ltb_spec x (- (2 ^ 63 / y))).
    + rewrite checked_out; [done |]. unfold in64, LLONG_MIN in *. nia.
    + assert (in64 (x * y)) by (unfold in64, LLONG_MIN, LLONG_MAX in *; nia). by rewrite int64_in, checked_in.
Qed.

Lemma mul_int_zero x : x < 0 -> mul_int x 0 = Crash.
Proof.
  intros H. unfold mul_int. cbv zeta. rewrite !Z.gtb_ltb. destruct (Z.ltb_spec 0 x); [lia |]. by destruct (Z.eqb_spec x 0); [lia |].
Qed.

(** Between negative numbers the check looks at one of them only. *)
Lemma mul_int_negative x y : in64 y -> x < 0 -> y < 0 -> mul_int x y = if LLONG_MAX <? y * y then Error ME_RANGE else int64 (x * y).
Proof.
  intros Hy H1 H2. unfold mul_int. cbv zeta. rewrite !Z.gtb_ltb. destruct (Z.ltb_spec 0 x); [lia |]. destruct (Z.ltb_spec 0 y); [lia |].
  destruct (Z.eqb_spec x 0); [lia |]. rewrite quotient_in by (apply in64_max || unfold LLONG_MAX, LLONG_MIN; lia).
  assert (Z.quot LLONG_MAX y = - (LLONG_MAX / - y)) as ->.
  { rewrite <- quot_max by lia. rewrite Z.quot_opp_r by lia. lia. }
  pose proof (above_quotient LLONG_MAX (- y) (- y) ltac:(lia)) as Ha.
  destruct (Z.ltb_spec y (- (LLONG_MAX / - y))), (Z.ltb_spec LLONG_MAX (y * y)); try done; lia.
Qed.
End OvsdbArith.
