(* ===== verification/OvsdbSchemaThms.v ===== *)
(** Schemas and rows: what is read from JSON is well formed, and rows survive JSON. *)
From stdpp Require Import gmap sorting.
From S2P Require Import Prelude Text Unicode Containers Shash Json JsonLex JsonNumber JsonParse JsonRoundtrip Sort Uuid OvsdbTypes OvsdbData OvsdbDatum OvsdbSets OvsdbJson OvsdbJsonThms OvsdbTypeThms OvsdbSchema.

Module OvsdbSchemaThms.
Import JsonParse.
Export OvsdbSchema OvsdbTypeThms.

Section schema.
Context {T R : Type} {HT : HashTable T} {HTok : HashTableOk T}.
Context {D : Double R} {DO : DoubleOrder R} {Dok : DoubleOk R} {So : Sorting} {Sok : SortingOk So}.
Context (hash_string : chars -> Z -> Z) (uuid_generate : nat -> uuid).
Context (Hgen : forall k, uuid_ok (uuid_generate k)).

Abbreviation datum := (ovsdb_datum R).
Abbreviation json := (Json.json T R).
Abbreviation column := (ovsdb_column R).
Abbreviation schema := (ovsdb_table_schema T R).
Implicit Types (j : json) (ty : ovsdb_type R) (col : column) (ts : schema) (c : gmap chars column) (row : list datum).

(** ** Well-formed schemas *)

(** The columns of a schema are those of [c], and their indexes are the numbers below its size. *)
Record columns_ok ts c : Prop := {
  columns_hold : represents hash_string (columns ts) c;
  columns_size : Z.of_nat (size c) < 2 ^ 32;
  column_ok name col : c !! name = Some col ->
    col_name col = name /\ no_nul name /\ type_ok (col_type col) /\ 0 <= col_index col < Z.of_nat (size c);
  column_inj a b name name' : c !! name = Some a -> c !! name' = Some b -> col_index a = col_index b -> name = name';
}.

Definition uuid_column (name : chars) (persistent : bool) (i : Z) : column := mk_column i name false persistent ovsdb_type_uuid.

(** The columns of every table. *)
Definition std_columns c : Prop :=
  c !! str "_uuid" = Some (uuid_column (str "_uuid") true OVSDB_COL_UUID) /\
  c !! str "_version" = Some (uuid_column (str "_version") false OVSDB_COL_VERSION).

(** Indexes are on distinct columns of the table that are stored. *)
Definition index_ok c (index : list column) : Prop :=
  index <> [] /\ NoDup (List.map col_index index) /\ Forall (λ col, c !! col_name col = Some col /\ persistent col = true) index.

Record schema_holds ts c : Prop := {
  schema_columns_ok : columns_ok ts c;
  schema_std : std_columns c;
  schema_indexes : Forall (index_ok c) (indexes ts);
  schema_max_rows : 1 <= max_rows ts <= UINT_MAX;
}.

Definition schema_ok ts : Prop := exists c, schema_holds ts c.

Lemma get_column ts c name : columns_ok ts c -> ovsdb_table_schema_get_column hash_string ts name = c !! name.
Proof. intros H. apply find_data_contents, H. Qed.

(** ** Building a schema *)

Lemma uuid_type_ok : type_ok (R := R) ovsdb_type_uuid.
Proof. split; [apply init_ok | apply init_ok | done | done | done]. Qed.

Lemma add_column_ok ts c col :
  columns_ok ts c -> c !! col_name col = None -> no_nul (col_name col) -> type_ok (col_type col) -> Z.of_nat (size c) + 1 < 2 ^ 32 ->
  exists col' ts', add_column hash_string ts col = Some (col', ts') /\ col' = col <| col_index := Z.of_nat (size c) |> /\
    columns_ok ts' (<[col_name col := col']> c) /\ indexes ts' = indexes ts /\ max_rows ts' = max_rows ts.
Proof.
  intros H Hn Hz Ht Hs. unfold add_column. pose proof (find_contents _ _ _ (col_name col) (columns_hold _ _ H)) as Hf. rewrite Hn in Hf.
  rewrite Hf, (count_contents _ _ _ (columns_hold _ _ H)), wrap_small by (unfold in_u; lia).
  set (col' := col <| col_index := Z.of_nat (size c) |>). eexists col', _. split; [done |]. split; [done |]. rsimpl. split; [| done].
  assert (size (<[col_name col := col']> c) = S (size c)) as Es by (by rewrite map_size_insert_None).
  split; rsimpl.
  - apply add_contents; [apply H | done | unfold in_u; lia].
  - lia.
  - rewrite Es. intros name x [[<- <-] | [Hne Hx]]%lookup_insert_Some; [subst col'; rsimpl; split_and!; done || lia |].
    destruct (column_ok _ _ H name x Hx) as (? & ? & ? & ?). split_and!; done || lia.
  - intros a b name name' [[<- <-] | [Hne Ha]]%lookup_insert_Some [[<- <-] | [Hne' Hb]]%lookup_insert_Some E; try done.
    + apply (column_ok _ _ H) in Hb. subst col'. rsimpl. lia.
    + apply (column_ok _ _ H) in Ha. subst col'. rsimpl. lia.
    + by eapply (column_inj _ _ H).
Qed.

Lemma init_columns_ok name mutable root n : columns_ok (mk_schema name mutable root n shash_init []) ∅.
Proof. split; [apply init_contents | done | intros ? ? H; by rewrite lookup_empty in H | intros ? ? ? ? H; by rewrite lookup_empty in H]. Qed.

Definition only_std_columns : gmap chars column :=
  <[str "_version" := uuid_column (str "_version") false OVSDB_COL_VERSION]> (<[str "_uuid" := uuid_column (str "_uuid") true OVSDB_COL_UUID]> ∅).

Lemma schema_create_columns name mutable n root :
  exists ts, ovsdb_table_schema_create hash_string name mutable n root = Some ts /\ columns_ok ts only_std_columns /\ indexes ts = [] /\ max_rows ts = n.
Proof.
  unfold ovsdb_table_schema_create. cbv zeta.
  destruct (add_column_ok _ _ (ovsdb_column_create (str "_uuid") false true ovsdb_type_uuid) (init_columns_ok name mutable root n))
    as (u & ts1 & -> & -> & H1 & Ei & Er); [apply lookup_empty | by repeat constructor | apply uuid_type_ok | by rewrite map_size_empty |].
  rewrite map_size_empty. cbn [col_index ovsdb_column_create]. rsimpl. change (Z.of_nat 0 =? OVSDB_COL_UUID) with true. cbn [negb].
  set (u := ovsdb_column_create (str "_uuid") false true ovsdb_type_uuid <| col_index := Z.of_nat (size ∅) |>) in H1.
  change (col_name (ovsdb_column_create (str "_uuid") false true ovsdb_type_uuid)) with (str "_uuid") in H1.
  assert (size (<[str "_uuid" := u]> ∅ : gmap chars column) = 1%nat) as Es by done.
  destruct (add_column_ok _ _ (ovsdb_column_create (str "_version") false false ovsdb_type_uuid) H1)
    as (v & ts2 & -> & -> & H2 & Ei' & Er'); [done | by repeat constructor | apply uuid_type_ok | by rewrite Es |].
  rewrite Es. cbn [col_index ovsdb_column_create]. rsimpl. change (Z.of_nat 1 =? OVSDB_COL_VERSION) with true. cbn [negb].
  eexists ts2. split; [done |]. split; [rewrite Es in H2; exact H2 | exact (conj (eq_trans Ei' Ei) (eq_trans Er' Er))].
Qed.

Lemma schema_create_ok name mutable n root :
  exists ts c, ovsdb_table_schema_create hash_string name mutable n root = Some ts /\ columns_ok ts c /\ std_columns c /\
    size c = 2%nat /\ (forall k, is_Some (c !! k) -> hd_char k = "_"%char) /\ indexes ts = [] /\ max_rows ts = n.
Proof.
  destruct (schema_create_columns name mutable n root) as (ts & E & H & Hi). exists ts, only_std_columns. split; [done |]. split; [done |].
  split; [by split |]. split; [done |]. split; [| done].
  intros k [x Hx]. unfold only_std_columns in Hx. apply lookup_insert_Some in Hx as [[<- _] | [_ Hx]]; [done |].
  apply lookup_insert_Some in Hx as [[<- _] | [_ Hx]]; [done |]. by rewrite lookup_empty in Hx.
Qed.

(** ** Reading a schema *)

Lemma wf_object o : wf hash_string (JSON_OBJECT o : json) ->
  NoDup (shash_nodes o).*1 /\ Forall (λ kv : chars * json, no_nul kv.1 /\ wf hash_string kv.2) (shash_nodes o) /\
  Z.of_nat (length (shash_nodes o)) < DATUM_MAX.
Proof.
  intros (N & n & HN & H). destruct n as [| n]; [done |]. destruct H as [(m & Hm & Hs) H]. split; [by eapply nodes_names |]. split.
  - apply nodes_forall. eapply Forall_impl; [exact H |]. intros kv [? ?]. split; [done |]. by exists N, n.
  - destruct (ok_represents _ _ _ Hm) as (c & Hc & Es). rewrite (Permutation_length (nodes_perm _ _ _ Hc)), length_map_to_list. lia.
Qed.

Lemma column_from_json_safe j name : wf hash_string j ->
  returns (ovsdb_column_from_json hash_string uuid_generate j name) (λ col, col_name col = name /\ type_ok (col_type col)).
Proof.
  intros Hj. unfold ovsdb_column_from_json. cbv zeta.
  destruct (ovsdb_parser_member _ (ovsdb_parser_init _ _) _ _) as [m p1] eqn:E1.
  apply member_safe in E1 as (Hp1 & _ & _); [| by apply parser_init_ok].
  destruct (ovsdb_parser_member _ p1 _ _) as [e p2] eqn:E2. apply member_safe in E2 as (Hp2 & _ & _); [| done].
  destruct (ovsdb_parser_member _ p2 _ _) as [t p3] eqn:E3. apply member_safe in E3 as (Hp3 & _ & Ht); [| done].
  destruct t as [t |]; [| by destruct (finish_failed p3 (Ht eq_refl)) as [? ->]].
  destruct (ovsdb_parser_finish p3); [done |]. pose proof (type_safe hash_string uuid_generate Hgen t (proj1 Ht)) as H.
  by destruct (ovsdb_type_from_json _ _ _).
Qed.

Lemma columns_from_json_safe j ts c nodes :
  columns_ok ts c -> std_columns c -> Forall (λ kv : chars * json, no_nul kv.1 /\ wf hash_string kv.2) nodes -> NoDup nodes.*1 ->
  (forall k, k ∈ nodes.*1 -> is_Some (c !! k) -> hd_char k = "_"%char) -> Z.of_nat (size c + length nodes) < 2 ^ 32 ->
  returns (columns_from_json hash_string uuid_generate j ts nodes)
    (λ ts', (exists c', columns_ok ts' c' /\ std_columns c') /\ indexes ts' = indexes ts /\ max_rows ts' = max_rows ts).
Proof.
  intros Hts Hc Hn. revert ts c Hts Hc. induction Hn as [| [name v] nodes [Hz Hv] Hn IH]; intros ts c Hts Hc Hd Hf Hs; [split; [by exists c | done] |].
  cbn [columns_from_json fst snd] in *. destruct (hd_char name =c "_") eqn:Eu; [done |]. destruct (ovsdb_parser_is_id name); [| done]. cbn [negb].
  pose proof (column_from_json_safe v name Hv) as H. destruct (ovsdb_column_from_json _ _ _ _) as [col | |]; [| done | done].
  destruct H as [En Ht]. cbn [fmap list_fmap fst] in *. apply NoDup_cons in Hd as [Hni Hd].
  assert (c !! name = None) as Hfresh.
  { destruct (c !! name) as [x |] eqn:E; [| done]. rewrite (Hf name) in Eu; [done | by constructor | by eexists]. }
  destruct (add_column_ok ts c col Hts) as (col' & ts' & -> & -> & Hts' & Ei & Er); [by rewrite En | by rewrite En | done | cbn in Hs; lia |].
  specialize (IH ts' _ Hts'). rewrite Ei, Er in IH. apply IH; [| done | |].
  - rewrite En. assert (name <> str "_uuid" /\ name <> str "_version") as [H1 H2] by (split; intros ->; done).
    destruct Hc as [Hc1 Hc2]. by split; rewrite lookup_insert_ne.
  - intros k Hk [x Hx]. rewrite En in Hx. apply lookup_insert_Some in Hx as [[<- _] | [_ Hx]]; [done |].
    apply Hf; [by right | by eexists].
  - rewrite En, map_size_insert_None by done. cbn [length] in Hs. lia.
Qed.

Lemma column_set_loop_ok j ts c set elems index :
  columns_ok ts c -> NoDup (List.map col_index set) -> Forall (λ col, c !! col_name col = Some col) set ->
  column_set_loop hash_string j ts set elems = inl index ->
  NoDup (List.map col_index index) /\ Forall (λ col, c !! col_name col = Some col) index.
Proof.
  intros Hts. revert set. induction elems as [| e elems IH]; intros set Hd Hs; cbn [column_set_loop]; [by intros [= <-] |].
  destruct e as [| | | | | | | s]; try done. rewrite (find_data_contents _ _ _ _ (columns_hold _ _ Hts)).
  destruct (c !! s) as [col |] eqn:E; [| done]. destruct (ovsdb_column_set_contains set (col_index col)) eqn:Ec; [done |].
  apply IH; unfold ovsdb_column_set_add.
  - rewrite map_app. apply NoDup_app. split; [done |]. split; [| apply NoDup_singleton].
    intros x (y & Ey & Hy)%list_elem_of_In%in_map_iff Hx%list_elem_of_singleton. unfold ovsdb_column_set_contains in Ec.
    apply not_true_iff_false in Ec. apply Ec, existsb_exists. exists y. split; [done |]. apply Z.eqb_eq. by rewrite Ey.
  - apply Forall_app. split; [done |]. apply Forall_singleton. destruct (column_ok _ _ Hts s col E) as (-> & _). done.
Qed.

Lemma indexes_from_json_ok j ts c elems ts' :
  columns_ok ts c -> Forall (index_ok c) (indexes ts) -> indexes_from_json hash_string j ts elems = inl ts' ->
  columns_ok ts' c /\ Forall (index_ok c) (indexes ts') /\ max_rows ts' = max_rows ts.
Proof.
  revert ts. induction elems as [| e elems IH]; intros ts Hts Hi; cbn [indexes_from_json]; [by intros [= <-] |].
  destruct (ovsdb_column_set_from_json _ _ _) as [index | ?] eqn:E; [| done].
  assert (NoDup (List.map col_index index) /\ Forall (λ col, c !! col_name col = Some col) index) as [Hd Hc].
  { unfold ovsdb_column_set_from_json in E. destruct e as [| | | | l | | |]; try done. by eapply column_set_loop_ok; [done | | | exact E]; constructor. }
  destruct index as [| x index]; [done |]. destruct (List.find _ (x :: index)) eqn:Ef; [done |].
  intros H. apply IH in H; [exact H | by destruct Hts; split |]. apply Forall_app. split; [exact Hi |]. apply Forall_singleton.
  split; [done |]. split; [done |]. rewrite Forall_forall in Hc |- *. intros col Hin. split; [by apply Hc |].
  apply list_elem_of_In in Hin. pose proof (List.find_none _ _ Ef col Hin) as Hp. by apply negb_false_iff in Hp.
Qed.

(** Reading a schema does not crash and gives a well-formed schema. *)
Lemma schema_from_json_safe j name : wf hash_string j ->
  returns (ovsdb_table_schema_from_json hash_string uuid_generate j name) schema_ok.
Proof.
  intros Hj. unfold ovsdb_table_schema_from_json. cbv zeta.
  destruct (ovsdb_parser_member _ (ovsdb_parser_init _ _) _ _) as [cols p1] eqn:E1.
  apply member_safe in E1 as (Hp1 & _ & Hc); [| by apply parser_init_ok].
  destruct (ovsdb_parser_member _ p1 _ _) as [m p2] eqn:E2. apply member_safe in E2 as (Hp2 & Hf2 & _); [| done].
  destruct (ovsdb_parser_member _ p2 _ _) as [n p3] eqn:E3. apply member_safe in E3 as (Hp3 & Hf3 & Hn); [| done].
  destruct (ovsdb_parser_member _ p3 _ _) as [r p4] eqn:E4. apply member_safe in E4 as (Hp4 & Hf4 & _); [| done].
  destruct (ovsdb_parser_member _ p4 _ _) as [i p5] eqn:E5. apply member_safe in E5 as (Hp5 & Hf5 & _); [| done].
  destruct cols as [cols |]; [| by destruct (finish_failed p5 (Hf5 (Hf4 (Hf3 (Hf2 (Hc eq_refl)))))) as [? ->]].
  destruct (ovsdb_parser_finish p5); [done |]. destruct Hc as [Hw Ht]. destruct cols as [| | | o | | | |]; try done. cbn [mbind option_bind json_object].
  set (max := default UINT_MAX (j0 ← n; json_integer j0)). destruct (Z.leb_spec max 0) as [| Hmax]; [done |]. destruct (shash_is_empty o); [done |].
  destruct (schema_create_ok name (boolean_member m true) (Z.min max UINT_MAX) (boolean_member r false))
    as (ts & c & -> & Hts & Hstd & Hs & Hu & Ei & Er).
  destruct (wf_object o Hw) as (Hd & Hf & Hl).
  pose proof (columns_from_json_safe j ts c (shash_nodes o) Hts Hstd Hf Hd (λ k _, Hu k) ltac:(unfold DATUM_MAX in Hl; lia)) as H.
  destruct (columns_from_json _ _ _ _ _) as [ts' | |]; [| done | done]. destruct H as ((c' & Hts' & Hc') & Ei' & Er').
  destruct (indexes_from_json _ _ _ _) as [ts'' |] eqn:Ex; [| done]. apply (indexes_from_json_ok _ _ c') in Ex as (H1 & H2 & H3); [| done | by rewrite Ei', Ei].
  exists c'. split; [done | done | done |]. rewrite H3, Er', Er. unfold UINT_MAX. lia.
Qed.

(** ** Rows *)

(** Every column has a datum that satisfies [P]. *)
Definition row_holds (P : ovsdb_type R -> datum -> Prop) c row : Prop :=
  length row = size c /\ forall name col, c !! name = Some col -> exists d, get_field row col = Some d /\ P (col_type col) d.

(** Data of a type and with an allowed size. *)
Definition typed ty (d : datum) : Prop := ok ty d /\ n_min ty <= Z.of_nat (length d) <= n_max ty.

Lemma index_inj ts c a b name name' :
  columns_ok ts c -> c !! name = Some a -> c !! name' = Some b -> Z.to_nat (col_index a) = Z.to_nat (col_index b) -> name = name'.
Proof.
  intros Hts Ha Hb E. eapply (column_inj _ _ Hts); [exact Ha | exact Hb |].
  apply (column_ok _ _ Hts) in Ha, Hb. lia.
Qed.

(** A new datum for one column. *)
Lemma set_field ts c P row name col d :
  columns_ok ts c -> c !! name = Some col -> P (col_type col) d -> row_holds P c row ->
  row_holds P c (<[Z.to_nat (col_index col) := d]> row).
Proof.
  intros Hts Hc Hd [Hl Hr]. split; [by rewrite length_insert |]. intros name' col' Hc'. unfold get_field in *.
  pose proof (index_inj ts c col col' name name' Hts Hc Hc') as Hi. destruct (column_ok _ _ Hts name col Hc) as (_ & _ & _ & Hb).
  destruct (decide (Z.to_nat (col_index col) = Z.to_nat (col_index col'))) as [E | E].
  - specialize (Hi E) as <-. rewrite Hc in Hc'. injection Hc' as <-. exists d. by rewrite list_lookup_insert_eq by lia.
  - rewrite list_lookup_insert_ne by done. by apply (Hr name').
Qed.

Lemma default_typed ty : type_ok ty -> typed ty (ovsdb_datum_init_default ty).
Proof.
  intros H. pose proof (n_min_ok _ H). pose proof (n_max_ok _ H). unfold ovsdb_datum_init_default, typed.
  assert (forall t a, ovsdb_atom_init_default (R := R) t = Some a -> atom_ok t a) as Ha.
  { intros t a. destruct t; cbn; intros E; try discriminate E; injection E as <-; (split; [done |]); try done.
    - apply double_zero_ok.
    - apply Forall_nil_2. }
  destruct (ovsdb_atom_init_default (type (key ty))) as [k |] eqn:E; [| by destruct (type (key ty)) eqn:Ek; try done; apply key_not_void in H].
  apply Ha in E. rewrite length_replicate. split; [| lia]. assert (Z.to_nat (n_min ty) = 0%nat \/ Z.to_nat (n_min ty) = 1%nat) as [-> | ->] by lia.
  - split; cbn; [constructor | constructor | done].
  - split; cbn; [| by repeat constructor | done]. apply Forall_singleton. split; [done |].
    cbn. destruct (ovsdb_atom_init_default (type (value ty))) as [v |] eqn:Ev; [by apply Ha |]. by destruct (type (value ty)).
Qed.

Definition has_column c col : Prop := c !! col_name col = Some col.

(** The loop gives each of its columns a datum. *)
Lemma create_loop ts c cols row (Q : column -> Prop) :
  columns_ok ts c -> Forall (has_column c) cols -> length row = size c ->
  (forall col, has_column c col -> Q col -> exists d, get_field row col = Some d /\ typed (col_type col) d) ->
  let row' := foldl (λ row col, <[Z.to_nat (col_index col) := ovsdb_datum_init_default (col_type col)]> row) row cols in
  length row' = size c /\
  forall col, has_column c col -> Q col \/ col ∈ cols -> exists d, get_field row' col = Some d /\ typed (col_type col) d.
Proof.
  intros Hts Hcols. revert row Q. induction Hcols as [| x cols Hx Hcols IH]; intros row Q Hl Hq; cbn [foldl].
  { split; [done |]. intros col Hc [H | H%elem_of_nil]; [by apply Hq | done]. }
  destruct (IH (<[Z.to_nat (col_index x) := ovsdb_datum_init_default (col_type x)]> row) (λ col, Q col \/ col = x)) as [Hl' H].
  - by rewrite length_insert.
  - intros col Hc Hor. unfold get_field. destruct (column_ok _ _ Hts _ x Hx) as (_ & _ & Ht & Hb).
    destruct (decide (Z.to_nat (col_index x) = Z.to_nat (col_index col))) as [E | E].
    + pose proof (index_inj ts c x col _ _ Hts Hx Hc E) as En. unfold has_column in Hx, Hc. rewrite <- En, Hx in Hc. injection Hc as <-.
      eexists. rewrite list_lookup_insert_eq by lia. split; [done |]. by apply default_typed.
    + rewrite list_lookup_insert_ne by done. destruct Hor as [Hor | ->]; [by apply Hq | done].
  - split; [done |]. intros col Hc Hor. apply H; [done |]. destruct Hor as [Hor | [-> | Hin]%elem_of_cons]; auto.
Qed.

Lemma schema_columns_elem ts c col : columns_ok ts c -> col ∈ schema_columns ts <-> has_column c col.
Proof.
  intros Hts. unfold schema_columns. rewrite list_elem_of_fmap. pose proof (nodes_perm _ _ _ (columns_hold _ _ Hts)) as Hp. split.
  - intros ([k x] & -> & Hin). rewrite Hp in Hin. apply elem_of_map_to_list in Hin. cbn.
    destruct (column_ok _ _ Hts k x Hin) as (E & _). unfold has_column. by rewrite E.
  - intros H. exists (col_name col, col). split; [done |]. rewrite Hp. by apply elem_of_map_to_list.
Qed.

(** A new row has a datum of the right type in each column. *)
Lemma row_create_typed ts c : columns_ok ts c -> row_holds typed c (ovsdb_row_create ts).
Proof.
  intros Hts. unfold ovsdb_row_create. rewrite (count_contents _ _ _ (columns_hold _ _ Hts)), Nat2Z.id.
  assert (Forall (has_column c) (schema_columns ts)) as Hc by (apply Forall_forall; intros col; by apply schema_columns_elem).
  destruct (create_loop ts c (schema_columns ts) (replicate (size c) ovsdb_datum_init_empty) (λ _, False) Hts Hc) as [Hl H];
    [by rewrite length_replicate | done |].
  split; [done |]. intros name col Hcol. destruct (column_ok _ _ Hts name col Hcol) as (E & _).
  assert (has_column c col) as Hh by (unfold has_column; by rewrite E). apply H; [done |]. right. by apply (schema_columns_elem ts c).
Qed.

(** ** Rows in JSON *)

Abbreviation symtab := (option (ovsdb_symbol_table T)).

(** How many symbols the members of a row can add. *)
Definition members_cost (nodes : list (chars * json)) : Z :=
  foldr (λ (kv : chars * json) n, 2 * Z.of_nat (elements kv.2) + 1 + n) 0 nodes.

Lemma members_cost_nonneg nodes : 0 <= members_cost nodes.
Proof. unfold members_cost. induction nodes as [| [k v] nodes IH]; cbn [foldr snd]; lia. Qed.

(** A row that is read keeps the data it had, or gets valid ones; the columns read have valid ones. *)
Lemma row_members_safe ts c (P : ovsdb_type R -> datum -> Prop) j row included nodes :
  columns_ok ts c -> (forall ty d, valid ty d -> P ty d) -> Forall (λ kv : chars * json, no_nul kv.1 /\ wf hash_string kv.2) nodes ->
  row_holds P c row -> (forall col, col ∈ included -> exists d, get_field row col = Some d /\ valid (col_type col) d) ->
  Forall (has_column c) included ->
  safe hash_string false (members_cost nodes) (row_members_from_json hash_string uuid_generate ts j row included nodes)
    (λ r, row_holds P c r.1 /\ forall col, col ∈ r.2 -> exists d, get_field r.1 col = Some d /\ valid (col_type col) d).
Proof.
  intros Hts HP Hn. revert row included. induction Hn as [| [k v] nodes [_ Hv] Hn IH]; intros row included Hr Hi Hc;
    cbn [row_members_from_json members_cost foldr fst snd]; [by apply (safe_ret hash_string false (row, included)) |].
  fold (members_cost nodes). pose proof (members_cost_nonneg nodes) as Hm.
  rewrite (get_column ts c) by done. destruct (c !! k) as [col |] eqn:E; [| apply (safe_weaken hash_string false 0 _ _ (λ _, False)); [lia | done | apply safe_fail]].
  destruct (column_ok _ _ Hts k col E) as (En & _ & Ht & _). assert (has_column c col) as Hcol by (unfold has_column; by rewrite En).
  eapply safe_bind; [lia | lia | by apply datum_from_json_safe |]. intros d Hd. destruct (proj2 Hr k col E) as (d0 & Ed & _).
  rewrite Ed. cbn [of_option]. rewrite <- (Z.add_0_l (members_cost nodes)). apply (safe_bind hash_string false _ _ _ _ (λ _, True)); [lia | lia | by apply safe_ret |].
  intros _ _.
  assert (get_field (<[Z.to_nat (col_index col) := d]> row) col = Some d) as Enew.
  { unfold get_field in *. apply list_lookup_insert_eq. by eapply lookup_lt_Some. }
  apply IH; [eapply set_field; eauto | |].
  - intros x [Hx | ->%list_elem_of_singleton]%elem_of_app; [| by exists d].
    destruct (decide (Z.to_nat (col_index col) = Z.to_nat (col_index x))) as [Ex | Ex].
    + rewrite Forall_forall in Hc. specialize (Hc x Hx). pose proof (index_inj ts c col x _ _ Hts Hcol Hc Ex) as Enx.
      unfold has_column in Hc, Hcol. rewrite <- Enx, Hcol in Hc. injection Hc as <-. by exists d.
    + unfold get_field. rewrite list_lookup_insert_ne by done. by apply Hi.
  - apply Forall_app. split; [done |]. by apply Forall_singleton.
Qed.

(** The JSON of a datum of the row. *)
Definition field_json row col : json := ovsdb_datum_to_json (default [] (get_field row col)) (col_type col).

Lemma row_to_json_fields c row set :
  row_holds valid c row -> Forall (has_column c) set -> NoDup (List.map col_name set) -> Z.of_nat (length set) < 2 ^ 63 ->
  exists o, ovsdb_row_to_json hash_string row set = Some (JSON_OBJECT o) /\
    object_has hash_string o (List.map (λ col, (col_name col, Some (field_json row col))) set).
Proof.
  intros Hr Hc Hd Hl. set (fs := List.map (λ col, (col_name col, Some (field_json row col))) set).
  exists (put_fields hash_string fs shash_init). split.
  - unfold ovsdb_row_to_json. subst fs. generalize (shash_init : shash T json) as o. clear Hd Hl.
    induction Hc as [| col set Hcol Hc IH]; intros o; cbn [foldl List.map put_fields]; [done |].
    destruct (proj2 Hr _ col Hcol) as (d & Ed & _). unfold put_json_column at 2. rewrite Ed. cbn [mbind option_bind]. rewrite IH.
    unfold put_field, field_json. cbn [fst snd]. by rewrite Ed.
  - assert (fs.*1 = List.map col_name set) as En by (subst fs; change (List.map ?f ?l) with (f <$> l); by rewrite <- list_fmap_compose).
    apply (put_fields_has hash_string shash_init []); [apply init_has | cbn; by rewrite En | cbn; subst fs; by rewrite length_map].
Qed.

(** Reading the JSON of some columns of a row takes over their data. *)
Lemma row_members_read ts c row0 row included nodes j (s : symtab) :
  columns_ok ts c -> row_holds typed c row0 -> row_holds valid c row ->
  (forall k v, (k, v) ∈ nodes -> exists col, c !! k = Some col /\ v = field_json row col) ->
  exists row', row_members_from_json hash_string uuid_generate ts j row0 included nodes s =
      (Value (row', included ++ omap (λ kv : chars * json, c !! kv.1) nodes), s) /\ row_holds typed c row' /\
    forall k col, c !! k = Some col -> get_field row' col = if decide (k ∈ nodes.*1) then get_field row col else get_field row0 col.
Proof.
  intros Hts. revert row0 included. induction nodes as [| [k v] nodes IH]; intros row0 included Hr0 Hr Hn; cbn [row_members_from_json].
  { exists row0. rewrite app_nil_r. split; [done |]. split; [done |]. intros k col _. by destruct (decide _) as [H%elem_of_nil |]. }
  destruct (Hn k v) as (col & Hc & ->); [by constructor |]. rewrite (get_column ts c), Hc by done.
  destruct (proj2 Hr k col Hc) as (d & Ed & Hd). destruct (proj2 Hr0 k col Hc) as (d0 & Ed0 & _).
  unfold bind at 1. unfold field_json. rewrite Ed. cbn [default]. unfold id. rewrite datum_roundtrip by done. unfold bind at 1. rewrite Ed0. cbn [of_option ret].
  destruct (IH (<[Z.to_nat (col_index col) := d]> row0) (ovsdb_column_set_add included col)) as (row' & -> & Ht & Hrow);
    [eapply set_field; [done | done | | done]; destruct Hd as (? & ? & _); by split | done | intros; apply Hn; by right |].
  exists row'. cbn [omap list_omap fst]. rewrite Hc. unfold ovsdb_column_set_add. rewrite <- app_assoc. split; [done |]. split; [done |].
  intros k' col' Hc'. rewrite (Hrow k' col' Hc'). cbn [fmap list_fmap fst].
  destruct (decide (k' ∈ nodes.*1)) as [H | H].
  { by rewrite decide_True by (by right). }
  unfold get_field at 1. destruct (decide (Z.to_nat (col_index col) = Z.to_nat (col_index col'))) as [E | E].
  - pose proof (index_inj ts c col col' k k' Hts Hc Hc' E) as <-. rewrite Hc in Hc'. injection Hc' as <-.
    rewrite decide_True by (by left). rewrite list_lookup_insert_eq; [done |]. by eapply lookup_lt_Some.
  - rewrite list_lookup_insert_ne by done. rewrite decide_False; [done |]. intros [-> | ?]%elem_of_cons; [| done].
    rewrite Hc in Hc'. by injection Hc' as <-.
Qed.

(** Some columns of a row, printed and read into another row. *)
Lemma row_roundtrips ts c row row0 set (s : symtab) :
  columns_ok ts c -> row_holds valid c row -> row_holds typed c row0 ->
  Forall (has_column c) set -> NoDup (List.map col_name set) -> Z.of_nat (length set) < 2 ^ 63 ->
  exists j row' included, ovsdb_row_to_json hash_string row set = Some j /\
    ovsdb_row_from_json hash_string uuid_generate ts row0 j s = (Value (row', included), s) /\
    row_holds typed c row' /\ included ≡ₚ set /\
    forall k col, c !! k = Some col -> get_field row' col = if decide (k ∈ List.map col_name set) then get_field row col else get_field row0 col.
Proof.
  intros Hts Hr Hr0 Hc Hd Hl. destruct (row_to_json_fields c row set Hr Hc Hd Hl) as (o & -> & Ho).
  set (fs := List.map (λ col, (col_name col, Some (field_json row col))) set) in Ho.
  assert (present fs = List.map (λ col, (col_name col, field_json row col)) set) as Ep.
  { subst fs. clear. induction set as [| x set IH]; cbn; [done |]. by f_equal. }
  assert (shash_nodes o ≡ₚ List.map (λ col, (col_name col, field_json row col)) set) as Hp.
  { rewrite (nodes_perm _ _ _ Ho), <- Ep, map_to_list_to_map; [done |]. rewrite Ep. change (List.map ?f ?l) with (f <$> l). by rewrite <- list_fmap_compose. }
  assert (forall k v, (k, v) ∈ shash_nodes o -> exists col, c !! k = Some col /\ v = field_json row col) as Hn.
  { intros k v Hin. rewrite Hp in Hin. apply list_elem_of_In, in_map_iff in Hin as (col & [= <- <-] & Hin%list_elem_of_In).
    exists col. split; [| done]. rewrite Forall_forall in Hc. by apply Hc. }
  eexists _. destruct (row_members_read ts c row0 row [] (shash_nodes o) (JSON_OBJECT o) s Hts Hr0 Hr Hn) as (row' & E & Ht & Hrow).
  exists row', (omap (λ kv : chars * json, c !! kv.1) (shash_nodes o)). split; [done |]. split; [exact E |]. split; [done |]. split.
  - rewrite Hp. clear -Hc. induction Hc as [| col set Hcol Hc IH]; cbn; [done |]. unfold has_column in Hcol. rewrite Hcol. by constructor.
  - intros k col Hk. rewrite (Hrow k col Hk). assert (k ∈ (shash_nodes o).*1 <-> k ∈ List.map col_name set) as Hiff.
    { rewrite Hp. change (List.map ?f ?l) with (f <$> l). by rewrite <- list_fmap_compose. }
    by destruct (decide (k ∈ (shash_nodes o).*1)), (decide (k ∈ List.map col_name set)); try tauto.
Qed.
End schema.
End OvsdbSchemaThms.
