(* ===== verification/OvsdbMutationThms.v ===== *)
(** Mutations keep rows valid and do what their names say. *)
From stdpp Require Import gmap sorting.
From S2P Require Import Prelude Text Unicode Containers Shash Json JsonLex JsonNumber JsonParse Sort Uuid OvsdbTypes OvsdbData OvsdbDatum OvsdbSets OvsdbJson OvsdbJsonThms OvsdbTypeThms OvsdbSchema OvsdbMutation OvsdbArith OvsdbSchemaThms.

(** Sums and differences of finite numbers, none of them a negative zero, are not one either. *)
Class DoubleArithOk (R : Type) {D : Double R} {DO : DoubleOrder R} {Dok : DoubleOk R} {DA : DoubleArith R} := {
  double_add_ok x y : canonical x -> canonical y ->
    double_leb minus_DBL_MAX (double_add x y) = true -> double_leb (double_add x y) DBL_MAX = true -> canonical (double_add x y);
  double_sub_ok x y : canonical x -> canonical y ->
    double_leb minus_DBL_MAX (double_sub x y) = true -> double_leb (double_sub x y) DBL_MAX = true -> canonical (double_sub x y);
}.

Module OvsdbMutationThms.
Import JsonParse.
Export OvsdbArith OvsdbSchemaThms.

Section mutation.
Context {T R : Type} {HT : HashTable T} {HTok : HashTableOk T}.
Context {D : Double R} {DO : DoubleOrder R} {Dok : DoubleOk R} {DA : DoubleArith R} {DAok : DoubleArithOk R}.
Context {So : Sorting} {Sok : SortingOk So}.
Context (hash_string : chars -> Z -> Z) (uuid_generate : nat -> uuid).
Context (Hgen : forall k, uuid_ok (uuid_generate k)).

Abbreviation atom := (ovsdb_atom R).
Abbreviation datum := (ovsdb_datum R).
Abbreviation json := (Json.json T R).
Abbreviation column := (ovsdb_column R).
Abbreviation mutation := (ovsdb_mutation R).
Abbreviation schema := (ovsdb_table_schema T R).
Implicit Types (j : json) (d : datum) (ty : ovsdb_type R) (col : column) (ts : schema) (c : gmap chars column) (row : list datum) (m : mutation).

(** ** Mutations that were read *)

Definition is_arithmetic (mutator : ovsdb_mutator) : bool :=
  match mutator with OVSDB_M_INSERT | OVSDB_M_DELETE => false | _ => true end.

(** A column of numbers that is not a map. *)
Definition numeric (mutator : ovsdb_mutator) ty : Prop :=
  type (value ty) = OVSDB_TYPE_VOID /\
  (type (key ty) = OVSDB_TYPE_INTEGER \/ type (key ty) = OVSDB_TYPE_REAL /\ mutator <> OVSDB_M_MOD).

Record mutation_ok c m : Prop := {
  m_has_column : has_column c (m_column m);
  m_mutable : col_mutable (m_column m) = true;
  m_valid : valid (m_type m) (m_arg m);
  m_key : type (key (m_type m)) = type (key (col_type (m_column m)));
  m_arithmetic : is_arithmetic (mutator m) = true -> numeric (mutator m) (col_type (m_column m)) /\ length (m_arg m) = 1%nat;
  m_insert : mutator m = OVSDB_M_INSERT -> key (m_type m) = key (col_type (m_column m)) /\ value (m_type m) = value (col_type (m_column m));
  m_delete : mutator m = OVSDB_M_DELETE ->
    type (value (m_type m)) = type (value (col_type (m_column m))) \/ type (value (m_type m)) = OVSDB_TYPE_VOID;
}.

(** How many symbols a mutation can add. *)
Definition mutation_cost j : Z := match j with JSON_ARRAY [_; _; v] => 2 * (2 * Z.of_nat (elements v) + 1) | _ => 0 end.

Lemma mutation_cost_nonneg j : 0 <= mutation_cost j.
Proof. unfold mutation_cost. repeat case_match; lia. Qed.

Lemma safe_otherwise {A} k (m1 m2 : Ovsdb.M (option (ovsdb_symbol_table T)) ovsdb_error A) (Q : A -> Prop) :
  0 <= k -> safe hash_string false k m1 Q -> safe hash_string false k m2 Q -> safe hash_string false (k + k) (otherwise m1 m2) Q.
Proof.
  intros Hk H1 H2 N s Hs Ht HN. unfold otherwise. specialize (H1 N s Hs Ht ltac:(lia)). destruct (m1 s) as [[x | e |] s'].
  - destruct H1 as (? & ? & ?). split; [by apply (symtab_ok_mono hash_string (N + k)); [lia |] | done].
  - destruct H1 as (Hs' & Hn & _). specialize (H2 (N + k) s' Hs' ltac:(done) ltac:(lia)). destruct (m2 s') as [o s'']. destruct H2 as (? & ? & ?).
    rewrite Z.add_assoc. split; [done |]. auto.
  - by destruct H1 as (_ & _ & []).
Qed.

Lemma arithmetic_safe c mutator col j v :
  has_column c col -> col_mutable col = true -> type_ok (col_type col) -> is_arithmetic mutator = true -> wf hash_string v ->
  safe hash_string false (2 * Z.of_nat (elements v) + 1) (arithmetic_from_json hash_string uuid_generate mutator col j v) (mutation_ok c).
Proof.
  intros Hc Hm Ht Ha Hv. unfold arithmetic_from_json. cbv zeta.
  destruct (_ || _) eqn:E; [apply (safe_weaken hash_string false 0 _ _ (λ _, False)); [lia | done | apply safe_fail] |].
  apply orb_false_iff in E as [[E1 E2]%orb_false_iff E3].
  assert (numeric mutator (col_type col)) as Hn.
  { split.
    - unfold ovsdb_type_is_scalar, ovsdb_type_is_set, is_void in E1. by destruct (bool_decide_reflect (type (value (col_type col)) = OVSDB_TYPE_VOID)).
    - destruct (bool_decide_reflect (type (key (col_type col)) = OVSDB_TYPE_INTEGER)); [by left |].
      destruct (bool_decide_reflect (type (key (col_type col)) = OVSDB_TYPE_REAL)); [| done]. right. split; [done |].
      by destruct (bool_decide_reflect (mutator = OVSDB_M_MOD)). }
  set (ty := _ <| n_max := 1 |>). assert (type_ok ty) as Hty.
  { subst ty. split; rsimpl; [apply init_ok | apply Ht | apply Ht | done | done]. }
  rewrite <- (Z.add_0_r (2 * _ + 1)). eapply safe_bind; [lia | lia | by apply datum_from_json_safe |]. intros d Hd. apply safe_ret.
  assert (length d = 1%nat) as Hl by (destruct Hd as (_ & Hd & _); subst ty; revert Hd; rsimpl; lia).
  split; cbn; try done; intros ->; done.
Qed.

Lemma elements_safe c mutator col j v :
  has_column c col -> col_mutable col = true -> type_ok (col_type col) -> is_arithmetic mutator = false -> wf hash_string v ->
  safe hash_string false (2 * (2 * Z.of_nat (elements v) + 1)) (elements_from_json hash_string uuid_generate mutator col j v) (mutation_ok c).
Proof.
  intros Hc Hm Ht Ha Hv. unfold elements_from_json. cbv zeta.
  destruct (_ && _); [apply (safe_weaken hash_string false 0 _ _ (λ _, False)); [lia | done | apply safe_fail] |].
  set (ty := if bool_decide (mutator = OVSDB_M_DELETE) then col_type col <| n_min := 0 |> <| n_max := UINT_MAX |> else col_type col <| n_min := 0 |>).
  set (read := λ ty : ovsdb_type R, arg ←! ovsdb_datum_from_json hash_string uuid_generate ty v; ret (mk_mutation mutator col arg ty)).
  assert (type_ok ty /\ key ty = key (col_type col) /\ value ty = value (col_type col)) as (Hty & Ek & Ev).
  { subst ty. destruct (bool_decide _); rsimpl; (split; [| done]); split; rsimpl; try apply Ht; done. }
  assert (forall ty', type_ok ty' -> key ty' = key (col_type col) ->
    value ty' = value (col_type col) \/ mutator = OVSDB_M_DELETE /\ type (value ty') = OVSDB_TYPE_VOID ->
    safe hash_string false (2 * Z.of_nat (elements v) + 1) (read ty') (mutation_ok c)) as Hread.
  { intros ty' Hty' Ek' Ev'. subst read. cbv beta. rewrite <- (Z.add_0_r (2 * _ + 1)).
    eapply safe_bind; [lia | lia | by apply datum_from_json_safe |]. intros d Hd. apply safe_ret. split; cbn; try done.
    - by rewrite Ek'.
    - by rewrite Ha.
    - intros ->. by destruct Ev' as [| []].
    - intros _. destruct Ev' as [-> | [_ ?]]; auto. }
  destruct (_ && _) eqn:E.
  - apply andb_true_iff in E as [_ E%bool_decide_eq_true]. rewrite <- Z.add_diag. apply safe_otherwise; [lia | |].
    + apply Hread; auto.
    + apply Hread; rsimpl; [| done | by right]. destruct Hty. by split; rsimpl.
  - eapply safe_weaken; [| | apply Hread; auto]; [lia | done].
Qed.

Lemma mutation_from_json_safe ts c j :
  columns_ok hash_string ts c -> wf hash_string j ->
  safe hash_string false (mutation_cost j) (ovsdb_mutation_from_json hash_string uuid_generate ts j) (mutation_ok c).
Proof.
  intros Hts Hj. pose proof (mutation_cost_nonneg j) as Hcost.
  assert (forall e : ovsdb_error, safe hash_string false (mutation_cost j) (fail e) (mutation_ok c)) as Hfail.
  { intros e. apply (safe_weaken hash_string false 0 _ _ (λ _, False)); [done | done | apply safe_fail]. }
  unfold ovsdb_mutation_from_json. destruct j as [| | | | l | | |]; try apply Hfail. destruct l as [| n l]; [apply Hfail |].
  destruct n as [| | | | | | | name]; try apply Hfail. destruct l as [| n l]; [apply Hfail |]. destruct n as [| | | | | | | mname]; try apply Hfail.
  destruct l as [| v [| x l]]; try apply Hfail. apply wf_array in Hj as [_ Hj]. rewrite !Forall_cons in Hj. destruct Hj as (_ & _ & Hv & _).
  rewrite (get_column hash_string ts c) by done. destruct (c !! name) as [col |] eqn:E; [| apply Hfail].
  destruct (column_ok _ _ _ Hts name col E) as (En & _ & Ht & _). assert (has_column c col) as Hcol by (unfold has_column; by rewrite En).
  destruct (col_mutable col) eqn:Em; [| apply Hfail]. cbn [negb]. destruct (ovsdb_mutator_from_string mname) as [mutator |]; [| apply Hfail].
  cbn [mutation_cost]. destruct mutator; try by apply elements_safe.
  all: eapply safe_weaken; [| | by apply arithmetic_safe]; [lia | done].
Qed.

(** How many symbols a list of mutations can add. *)
Definition mutations_cost (elems : list json) : Z := foldr (λ j n, mutation_cost j + n) 0 elems.

Lemma mutations_cost_nonneg elems : 0 <= mutations_cost elems.
Proof. unfold mutations_cost. induction elems as [| j elems IH]; cbn [foldr]; [lia |]. pose proof (mutation_cost_nonneg j). lia. Qed.

Lemma mutations_from_json_safe ts c elems :
  columns_ok hash_string ts c -> Forall (wf hash_string) elems ->
  safe hash_string false (mutations_cost elems) (mutations_from_json hash_string uuid_generate ts elems)
    (λ set, Forall (mutation_ok c) set /\ length set = length elems).
Proof.
  intros Hts Hj. induction Hj as [| j elems Hj Hjs IH]; cbn [mutations_from_json mutations_cost foldr].
  { apply safe_ret. split; [constructor | done]. }
  fold (mutations_cost elems). pose proof (mutations_cost_nonneg elems). pose proof (mutation_cost_nonneg j).
  eapply safe_bind; [lia | lia | by apply mutation_from_json_safe |]. intros m Hm. rewrite <- (Z.add_0_r (mutations_cost elems)).
  eapply safe_bind; [lia | lia | exact IH |]. intros set [Hset Hl]. apply safe_ret. split; [by constructor | cbn; by rewrite Hl].
Qed.

(** ** Arithmetic *)

(** What a mutation of numbers computes. *)
Definition operate (mutator : ovsdb_mutator) (y a : atom) : atom :=
  match a, y with
  | ATOM_INTEGER x, ATOM_INTEGER y =>
      ATOM_INTEGER match mutator with
                   | OVSDB_M_ADD => x + y | OVSDB_M_SUB => x - y | OVSDB_M_MUL => x * y | OVSDB_M_DIV => Z.quot x y | _ => Z.rem x y
                   end
  | ATOM_REAL x, ATOM_REAL y =>
      ATOM_REAL match mutator with
                | OVSDB_M_ADD => double_add x y | OVSDB_M_SUB => double_sub x y | OVSDB_M_MUL => double_mul x y | _ => double_div x y
                end
  | _, _ => a
  end.

(** Integers are multiplied by positive numbers only, and real numbers only added and subtracted. *)
Definition harmless_by (mutator : ovsdb_mutator) (y : atom) : Prop :=
  match y with
  | ATOM_INTEGER y => mutator = OVSDB_M_MUL -> 0 < y
  | ATOM_REAL _ => mutator = OVSDB_M_ADD \/ mutator = OVSDB_M_SUB
  | _ => True
  end.

Lemma checked_value z r : checked z = Value r -> r = z /\ in64 z.
Proof. unfold checked. case_bool_decide; [| done]. by intros [= <-]. Qed.

Lemma checked_safe z : checked z <> Crash.
Proof. unfold checked. by case_bool_decide. Qed.

Lemma mutate_integer_spec mutator x y :
  in64 x -> in64 y -> is_arithmetic mutator = true -> harmless_by mutator (ATOM_INTEGER y) ->
  mutate_integer mutator x y <> Crash /\
  forall z, mutate_integer mutator x y = Value z -> in64 z /\ operate mutator (ATOM_INTEGER y) (ATOM_INTEGER x) = ATOM_INTEGER z.
Proof.
  intros Hx Hy Ha Hh. pose proof checked_safe as Hs. destruct mutator; try done; cbn [mutate_integer operate harmless_by] in *.
  - rewrite add_int_exact by done. split; [done |]. by intros z [-> ?]%checked_value.
  - rewrite sub_int_exact by done. split; [done |]. by intros z [-> ?]%checked_value.
  - rewrite mul_int_positive by (done || right; by apply Hh). destruct (_ && _); [done |]. split; [done |]. by intros z [-> ?]%checked_value.
  - rewrite div_int_exact by done. destruct (y =? 0); [done |]. split; [done |]. by intros z [-> ?]%checked_value.
  - rewrite mod_int_exact by done. destruct (Z.eqb_spec y 0) as [| H0]; [done |]. case_bool_decide; [| done]. split; [done |]. intros z [= <-]. split; [| done].
    pose proof (Z.rem_bound_abs x y H0) as Hb. unfold in64, LLONG_MIN, LLONG_MAX in *. lia.
Qed.

Lemma mutate_real_spec mutator (x y : R) :
  canonical x -> canonical y -> harmless_by mutator (ATOM_REAL y) ->
  exists z, mutate_real mutator x y = Value z /\ operate mutator (ATOM_REAL y) (ATOM_REAL x) = ATOM_REAL z /\
    (check_real_range z = None -> canonical z).
Proof.
  intros Hx Hy [-> | ->]; cbn; eexists; (split; [done |]); (split; [done |]); unfold check_real_range;
    (destruct (double_leb minus_DBL_MAX _) eqn:E1; [| done]); (destruct (double_leb _ DBL_MAX) eqn:E2; [| done]); intros _.
  - by apply double_add_ok.
  - by apply double_sub_ok.
Qed.

Lemma mutate_atom_spec mutator (base : ovsdb_base_type R) (y a : atom) :
  type base = OVSDB_TYPE_INTEGER \/ type base = OVSDB_TYPE_REAL -> is_arithmetic mutator = true -> harmless_by mutator y ->
  atom_ok (type base) y -> atom_ok (type base) a ->
  let '(a', o) := mutate_atom mutator base a y in
  o <> Crash /\ (o = Value tt -> a' = operate mutator y a /\ atom_ok (type base) a').
Proof.
  intros Ht Ha Hh [Hty Hy] [Hta Hx]. unfold mutate_atom. destruct Ht as [E | E]; rewrite E in *.
  - destruct a as [x | | | |]; try done. destruct y as [y | | | |]; try done. destruct (mutate_integer_spec mutator x y Hx Hy Ha Hh) as [Hc Hv].
    destruct (mutate_integer mutator x y) as [z | e |]; [| done | done]. destruct (Hv z eq_refl) as [Hz ->]. by split.
  - destruct a as [| x | | |]; try done. destruct y as [| y | | |]; try done. destruct (mutate_real_spec mutator x y Hx Hy Hh) as (z & -> & -> & Hc).
    destruct (check_real_range z); [done |]. split; [done |]. intros _. split; [done |]. split; [done |]. by apply Hc.
Qed.

Definition operate_row (mutator : ovsdb_mutator) (y : atom) (r : atom * option atom) : atom * option atom := (operate mutator y r.1, r.2).

Lemma mutate_keys_spec mutator ty (y : atom) d :
  numeric mutator ty -> is_arithmetic mutator = true -> harmless_by mutator y -> atom_ok (type (key ty)) y -> Forall (row_of ty) d ->
  let '(d', o) := mutate_keys mutator (key ty) y d in
  o <> Crash /\ (o = Value tt -> d' = List.map (operate_row mutator y) d /\ Forall (row_of ty) d').
Proof.
  intros Hn Ha Hh Hy Hd. assert (type (key ty) = OVSDB_TYPE_INTEGER \/ type (key ty) = OVSDB_TYPE_REAL) as Ht by (destruct Hn as [_ [? | []]]; auto).
  induction Hd as [| r d [Hk Hv] Hd IH]; cbn [mutate_keys]; [split; [done |]; intros _; by split; [| constructor] |].
  pose proof (mutate_atom_spec mutator (key ty) y r.1 Ht Ha Hh Hy Hk) as H. destruct (mutate_atom _ _ _ _) as [k [[] | e |]]; [| done | by destruct H].
  destruct H as [_ H]. destruct (H eq_refl) as [-> Hk']. destruct (mutate_keys _ _ _ d) as [d' o]. destruct IH as [Hc IH]. split; [done |].
  intros E. destruct (IH E) as [-> Hd']. split; [done |]. by constructor.
Qed.

(** ** One datum *)

Lemma mutate_scalar_spec mutator ty (y : atom) d :
  numeric mutator ty -> is_arithmetic mutator = true -> harmless_by mutator y -> atom_ok (type (key ty)) y -> valid ty d ->
  let '(o, d') := mutate_scalar mutator ty y d in
  o <> Crash /\ (o = Value tt -> valid ty d' /\ d' ≡ₚ List.map (operate_row mutator y) d).
Proof.
  intros Hn Ha Hh Hy (Hok & Hsz & Hc). unfold mutate_scalar.
  pose proof (mutate_keys_spec mutator ty y d Hn Ha Hh Hy (ok_rows ty d Hok)) as H. destruct (mutate_keys _ _ _ d) as [d1 [[] | e |]]; [| done | by destruct H].
  destruct H as [_ H]. destruct (H eq_refl) as [Ed Hrows].
  pose proof (first_error_none (λ r : atom * option atom, ovsdb_atom_check_constraints r.1 (key ty)) d1) as Hf.
  destruct (first_error _ d1); [done |]. apply proj1 in Hf. specialize (Hf eq_refl).
  assert (length d1 = length d) as El by (by rewrite Ed, length_map). pose proof (length_ok _ _ _ Hok) as Hlen.
  destruct (ovsdb_datum_sort d1) as [d2 error] eqn:E. apply (datum_sort_spec (type (key ty)) (type (value ty))) in E as [Hp Hs]; [| done | by rewrite El].
  destruct error; [done |]. split; [done |]. intros _. destruct Hs as [(_ & _ & Hs) | [[? [=]] _]]. split; [| by rewrite Hp, Ed].
  assert (ok ty d2) as Hok2 by (split; [by rewrite Hp | done | by rewrite Hp, El]).
  split; [done |]. split; [by rewrite Hp, El |]. apply check_constraints_none; [by rewrite Hp |]. rewrite Hp.
  rewrite Forall_forall in Hf, Hrows |- *. intros r Hr. split; [by apply Hrows |]. split; [by apply Hf |].
  destruct (Hrows r Hr) as [_ Hv]. destruct Hn as [Ev _]. rewrite Ev in Hv. destruct r as [k [v |]]; [| done]. by destruct Hv as [? _], v.
Qed.

(** What a mutation does to a datum.  Deletion is by key where the argument has no values. *)
Definition effect m d d' : Prop :=
  match mutator m with
  | OVSDB_M_INSERT => forall r, r ∈ d' <-> r ∈ d \/ r ∈ m_arg m /\ r.1 ∉ d.*1
  | OVSDB_M_DELETE => forall r, r ∈ d' <-> r ∈ d /\ if is_void (value (m_type m)) then r.1 ∉ (m_arg m).*1 else r ∉ m_arg m
  | mutator => exists r, m_arg m = [r] /\ d' ≡ₚ List.map (operate_row mutator r.1) d
  end.

Definition harmless m : Prop := is_arithmetic (mutator m) = true -> Forall (λ r : atom * option atom, harmless_by (mutator m) r.1) (m_arg m).

Lemma store_elements_spec result ty d d1 :
  result = Some d1 -> type_ok ty -> ok ty d1 -> Forall (row_valid ty) d1 ->
  let '(o, d') := store_elements result ty d in o <> Crash /\ d' = d1 /\ (o = Value tt -> valid ty d').
Proof.
  intros -> Hty Hok Hv. unfold store_elements, ovsdb_mutation_check_count, ovsdb_datum_conforms_to_type. rewrite Z.geb_leb.
  destruct (_ && _) eqn:E; cbn [negb]; [| done]. split; [done |]. split; [done |]. intros _. split; [done |]. split; [lia |].
  apply check_constraints_none; [by apply ok_rows | done].
Qed.

(** Fewer elements than another list has. *)
Lemma rows_le ty d l : ok ty d -> (forall r, r ∈ d -> r ∈ l) -> (length d <= length l)%nat.
Proof.
  intros Hd H. apply submseteq_length, NoDup_submseteq; [| done]. eapply NoDup_fmap_1, (sorted_nodup (type (key ty)) (type (value ty))); apply Hd.
Qed.

Lemma find_deleted m d r c :
  mutation_ok c m -> mutator m = OVSDB_M_DELETE -> ok (col_type (m_column m)) d -> r ∈ d ->
  is_Some (ovsdb_datum_find r (m_arg m) (m_type m)) <->
  if is_void (value (m_type m)) then r.1 ∈ (m_arg m).*1 else r ∈ m_arg m.
Proof.
  intros Hm Ed Hd Hr. destruct (m_valid _ _ Hm) as (Ha & _). pose proof (m_key _ _ Hm) as Ek.
  pose proof (ok_rows _ _ Hd) as Hrows. rewrite Forall_forall in Hrows. destruct (Hrows r Hr) as [Hk Hv].
  unfold is_void. case_bool_decide as Ev.
  - unfold ovsdb_datum_find, ovsdb_datum_find_key_value. rewrite Ev. cbn [mbind option_bind].
    rewrite <- (find_key_some (m_type m) (m_arg m) r.1) by (done || by rewrite Ek). destruct (ovsdb_datum_find_key (m_arg m) r.1); done.
  - destruct (m_delete _ _ Hm Ed) as [E |]; [| done]. apply (find_some (m_type m)); [done | | done]. split; [by rewrite Ek | by rewrite E].
Qed.

(** A mutation of a datum: no crash, and on success a valid datum with the effect that it should have. *)
Definition mutates m d : Prop :=
  let '(o, d') := mutate_datum m d in
  o <> Crash /\ (o = Value tt -> valid (col_type (m_column m)) d' /\ effect m d d' /\ (length d' <= length d + length (m_arg m))%nat).

Lemma arithmetic_mutates c m d :
  mutation_ok c m -> is_arithmetic (mutator m) = true -> harmless m -> valid (col_type (m_column m)) d -> mutates m d.
Proof.
  intros Hm Ear Hh Hd. destruct (m_arithmetic _ _ Hm Ear) as [Hn Hlen]. destruct (m_valid _ _ Hm) as (Ha%ok_rows & _).
  specialize (Hh Ear). destruct (m_arg m) as [| r [|]] eqn:Em; try done. apply Forall_cons in Hh as [Hy _]. apply Forall_cons in Ha as [[Hky _] _].
  rewrite (m_key _ _ Hm) in Hky. pose proof (mutate_scalar_spec (mutator m) (col_type (m_column m)) r.1 d Hn Ear Hy Hky Hd) as H.
  assert (mutate_datum m d = mutate_scalar (mutator m) (col_type (m_column m)) r.1 d) as E by (unfold mutate_datum; rewrite Em; by destruct (mutator m)).
  unfold mutates. rewrite E. destruct (mutate_scalar _ _ _ d) as [o d']. destruct H as [Hcr H]. split; [done |]. intros Ho.
  destruct (H Ho) as [Hv Hp]. split; [done |]. split; [| rewrite Hp, length_map; lia]. unfold effect. destruct (mutator m); try done; by exists r.
Qed.

Lemma insert_mutates c m d :
  mutation_ok c m -> mutator m = OVSDB_M_INSERT -> type_ok (col_type (m_column m)) -> valid (col_type (m_column m)) d ->
  Z.of_nat (length d + length (m_arg m)) < DATUM_MAX -> mutates m d.
Proof.
  intros Hm Ei Hty (Hok & _ & Hc) Hl. destruct (m_insert _ _ Hm Ei) as [Ek Ev]. destruct (m_valid _ _ Hm) as (Ha & _ & Hca).
  apply check_constraints_none in Hc; [| by apply ok_rows]. apply check_constraints_none in Hca; [| by apply ok_rows].
  set (ty := col_type (m_column m)) in *. assert (ok ty (m_arg m)) as Ha' by (unfold ok in *; by rewrite <- Ek, <- Ev).
  destruct (union_spec ty false d (m_arg m) Hok Ha' Hl) as (d1 & E1 & Hok1 & Hel).
  assert (Forall (row_valid ty) d1) as Hv1.
  { rewrite Forall_forall in Hc, Hca |- *. intros r [Hr | [Hr _]]%Hel; [by apply Hc |]. specialize (Hca r Hr). unfold row_valid, row_of in *. by rewrite <- Ek, <- Ev. }
  pose proof (store_elements_spec _ ty d d1 E1 Hty Hok1 Hv1) as H. unfold mutates, mutate_datum. rewrite Ei. fold ty.
  destruct (store_elements _ _ d) as [o d']. destruct H as (Hcr & -> & H). split; [done |]. intros Ho. split; [by apply H |].
  split; [unfold effect; by rewrite Ei |]. rewrite <- length_app. apply (rows_le ty); [done |]. intros r [? | [? _]]%Hel; apply elem_of_app; auto.
Qed.

Lemma delete_mutates c m d :
  mutation_ok c m -> mutator m = OVSDB_M_DELETE -> type_ok (col_type (m_column m)) -> valid (col_type (m_column m)) d -> mutates m d.
Proof.
  intros Hm Ed Hty (Hok & _ & Hc). destruct (m_valid _ _ Hm) as (Ha & _). pose proof (m_key _ _ Hm) as Ek.
  apply check_constraints_none in Hc; [| by apply ok_rows]. set (ty := col_type (m_column m)) in *.
  destruct (subtract_spec ty (m_type m) d (m_arg m) Hok) as (d1 & E1 & Hok1 & Hel).
  { destruct (m_delete _ _ Hm Ed) as [Ev | Ev]; [left | right]; (split; [by split |]); [| done]. unfold ok in *. fold ty in Ev. by rewrite <- Ek, <- Ev. }
  assert (Forall (row_valid ty) d1) as Hv1 by (rewrite Forall_forall in Hc |- *; intros r [Hr _]%Hel; by apply Hc).
  pose proof (store_elements_spec _ ty d d1 E1 Hty Hok1 Hv1) as H. unfold mutates, mutate_datum. rewrite Ed. fold ty.
  destruct (store_elements _ _ d) as [o d']. destruct H as (Hcr & -> & H). split; [done |]. intros Ho. split; [by apply H |]. split.
  - unfold effect. rewrite Ed. intros r. rewrite Hel. split; intros [Hr Hn]; (split; [done |]); pose proof (find_deleted m d r c Hm Ed Hok Hr) as Hf;
      destruct (is_void (value (m_type m))); tauto.
  - transitivity (length d); [| lia]. apply (rows_le ty); [done |]. by intros r [? _]%Hel.
Qed.

Lemma mutate_datum_spec c m d :
  mutation_ok c m -> type_ok (col_type (m_column m)) -> harmless m -> valid (col_type (m_column m)) d ->
  Z.of_nat (length d + length (m_arg m)) < DATUM_MAX -> mutates m d.
Proof.
  intros Hm Hty Hh Hd Hl. destruct (is_arithmetic (mutator m)) eqn:Ear; [by eapply arithmetic_mutates |].
  destruct (mutator m) eqn:E; try done; [by eapply insert_mutates | by eapply delete_mutates].
Qed.

(** ** Rows *)

(** The effects of mutations, one after the other. *)
Fixpoint effects (set : list mutation) row row' : Prop :=
  match set with
  | [] => row' = row
  | m :: set => exists d d', get_field row (m_column m) = Some d /\ effect m d d' /\
                  effects set (<[Z.to_nat (col_index (m_column m)) := d']> row) row'
  end.

(** The elements in the arguments of mutations. *)
Definition argument_rows (set : list mutation) : nat := list_sum (List.map (λ m, length (m_arg m)) set).

(** Executing mutations on a valid row does not crash, and on success leaves a valid row. *)
Lemma execute_spec ts c set row :
  columns_ok hash_string ts c -> Forall (mutation_ok c) set -> Forall harmless set -> row_holds valid c row ->
  Forall (λ d, Z.of_nat (length d + argument_rows set) < DATUM_MAX) row ->
  let '(o, row') := ovsdb_mutation_set_execute set row in
  o <> Crash /\ (o = Value tt -> row_holds valid c row' /\ effects set row row').
Proof.
  intros Hts Hset. revert row. induction Hset as [| m set Hm Hset IH]; intros row Hh Hr Hroom; cbn [ovsdb_mutation_set_execute]; [done |].
  apply Forall_cons in Hh as [Hhm Hh]. pose proof (m_has_column _ _ Hm) as Hcol. destruct (column_ok _ _ _ Hts _ _ Hcol) as (_ & _ & Hty & _).
  destruct (proj2 Hr _ _ Hcol) as (d & Ed & Hd). unfold bind, mutate_row. cbv zeta. unfold get_field in Ed. rewrite Ed.
  change (argument_rows (m :: set)) with (length (m_arg m) + argument_rows set)%nat in Hroom.
  pose proof (Forall_lookup_1 _ _ _ _ Hroom Ed) as Hl. cbn beta in Hl.
  pose proof (mutate_datum_spec c m d Hm Hty Hhm Hd ltac:(lia)) as H. unfold mutates in H. destruct (mutate_datum m d) as [[[] | e |] d']; [| done | by destruct H].
  destruct H as [_ H]. destruct (H eq_refl) as (Hv & He & Hlen).
  specialize (IH (<[Z.to_nat (col_index (m_column m)) := d']> row) Hh).
  destruct (ovsdb_mutation_set_execute set _) as [o row']. destruct IH as [Hcr IH].
  - by eapply set_field.
  - apply Forall_insert; [| lia]. eapply Forall_impl; [exact Hroom |]. cbn. intros. lia.
  - split; [done |]. intros Ho. destruct (IH Ho) as [Hr' He']. split; [done |]. by exists d, d'.
Qed.
End mutation.
End OvsdbMutationThms.
