(* ===== verification/OvsdbConditionThms.v ===== *)
(** Conditions on rows mean what their functions say, and the tables of clauses find the rows
    that some clause accepts. *)
From stdpp Require Import gmap sorting.
From S2P Require Import Prelude Text Unicode Containers Shash Json JsonLex JsonNumber JsonParse Sort Uuid OvsdbTypes OvsdbData OvsdbDatum OvsdbSets OvsdbJson OvsdbJsonThms OvsdbTypeThms OvsdbSchema OvsdbCondition OvsdbSchemaThms.

Module OvsdbConditionThms.
Import JsonParse.
Export OvsdbCondition OvsdbSchemaThms.

(** ** Orders *)

(** Comparisons that say the same from both sides, and are transitive. *)
Record ordered {X} (cmp : X -> X -> Z) (P : X -> Prop) : Prop := {
  ordered_antisym x y : P x -> P y -> Z.sgn (cmp y x) = - Z.sgn (cmp x y);
  ordered_trans x y z : P x -> P y -> P z -> cmp x y <= 0 -> cmp y z <= 0 -> cmp x z <= 0;
}.

Lemma ordered_total {X} (cmp : X -> X -> Z) P : ordered cmp P -> total_on cmp P.
Proof.
  intros [Ha Ht]. split; [| done]. intros x y Hx Hy H. specialize (Ha x y Hx Hy). lia.
Qed.

Lemma ordered_eq_trans {X} (cmp : X -> X -> Z) P x y z :
  ordered cmp P -> P x -> P y -> P z -> cmp x y = 0 -> cmp y z = 0 -> cmp x z = 0.
Proof.
  intros [Ha Ht] Hx Hy Hz E1 E2. pose proof (Ha x y Hx Hy). pose proof (Ha y z Hy Hz). pose proof (Ha x z Hx Hz).
  pose proof (Ht x y z Hx Hy Hz). pose proof (Ht z y x Hz Hy Hx). lia.
Qed.

Definition lex {X} (first second : X -> X -> Z) (x y : X) : Z := if negb (first x y =? 0) then first x y else second x y.

(** The second comparison need only order what the first one takes for equal. *)
Lemma lex_ordered {X} (first second : X -> X -> Z) P :
  ordered first P -> (forall x, P x -> ordered second (λ y, P y /\ first x y = 0)) -> ordered (lex first second) P.
Proof.
  intros H1 H2. pose proof H1 as [Ha Ht]. unfold lex.
  assert (forall x y z, P x -> P y -> P z -> first x y = 0 -> first y z = 0 -> first x z = 0) as He by (intros *; by apply ordered_eq_trans).
  assert (forall x, P x -> first x x = 0) as Hr by (intros x Hx; specialize (Ha x x Hx Hx); lia). split.
  - intros x y Hx Hy. pose proof (Ha x y Hx Hy) as E. destruct (Z.eqb_spec (first x y) 0) as [E1 | E1].
    + rewrite (proj2 (Z.eqb_eq (first y x) 0)) by lia. cbn. apply (ordered_antisym _ _ (H2 x Hx)); auto.
    + rewrite (proj2 (Z.eqb_neq (first y x) 0)) by lia. done.
  - intros x y z Hx Hy Hz. pose proof (Ha x y Hx Hy). pose proof (Ha y z Hy Hz). pose proof (Ha x z Hx Hz).
    pose proof (Ht x y z Hx Hy Hz). pose proof (Ht y z x Hy Hz Hx). pose proof (Ht z x y Hz Hx Hy).
    destruct (Z.eqb_spec (first x y) 0) as [E1 | E1], (Z.eqb_spec (first y z) 0) as [E2 | E2]; cbn.
    + rewrite (He x y z) by done. cbn. apply (ordered_trans _ _ (H2 x Hx)); eauto.
    + destruct (Z.eqb_spec (first x z) 0); cbn; lia.
    + destruct (Z.eqb_spec (first x z) 0); cbn; lia.
    + destruct (Z.eqb_spec (first x z) 0); cbn; lia.
Qed.

(** Comparison by a number. *)
Definition by_number {X} (f : X -> Z) (x y : X) : Z := if negb (f x =? f y) then if f x <? f y then -1 else 1 else 0.

Lemma by_number_ordered {X} (f : X -> Z) P : ordered (by_number f) P.
Proof. unfold by_number. split; intros *; zcases; cbn; intros; lia. Qed.

Lemma ordered_impl {X} (cmp : X -> X -> Z) (P Q : X -> Prop) : (forall x, Q x -> P x) -> ordered cmp P -> ordered cmp Q.
Proof. intros H [Ha Ht]. split; [auto |]. intros x y z Hx Hy Hz. apply Ht; auto. Qed.

Lemma ordered_ext {X} (cmp cmp' : X -> X -> Z) P :
  (forall x y, P x -> P y -> cmp' x y = cmp x y) -> ordered cmp P -> ordered cmp' P.
Proof.
  intros E [Ha Ht]. split.
  - intros x y Hx Hy. rewrite !E by done. auto.
  - intros x y z Hx Hy Hz. rewrite !E by done. eauto.
Qed.

Lemma ordered_map {X Y} (f : X -> Y) (cmp : Y -> Y -> Z) (P : X -> Prop) Q :
  (forall x, P x -> Q (f x)) -> ordered cmp Q -> ordered (λ x y, cmp (f x) (f y)) P.
Proof. intros H [Ha Ht]. split; [auto |]. intros x y z Hx Hy Hz. apply Ht; auto. Qed.

Section condition.
Context {T R : Type} {HT : HashTable T} {HTok : HashTableOk T}.
Context {D : Double R} {DO : DoubleOrder R} {Dok : DoubleOk R} {So : Sorting} {Sok : SortingOk So}.
Context (hash_string : chars -> Z -> Z) (uuid_generate : nat -> uuid).
Context (Hgen : forall k, uuid_ok (uuid_generate k)).

Abbreviation atom := (ovsdb_atom R).
Abbreviation datum := (ovsdb_datum R).
Abbreviation json := (Json.json T R).
Abbreviation symtab := (option (ovsdb_symbol_table T)).
Abbreviation col_t := (ovsdb_column R).
Abbreviation clause := (ovsdb_clause R).
Abbreviation schema := (ovsdb_table_schema T R).
Implicit Types (j : json) (d : datum) (ty : ovsdb_type R) (col : col_t) (ts : schema) (c : gmap chars col_t) (row : list datum) (cl : clause).

Lemma atom_ordered kt : ordered (ovsdb_atom_compare_3way (R := R)) (atom_ok kt).
Proof. split; [apply cmp_antisym | apply cmp_le_trans]. Qed.

Lemma arrays_ordered kt n : ordered (atom_arrays_compare_3way (R := R)) (λ l, Forall (atom_ok kt) l /\ length l = n).
Proof.
  induction n as [| n IH].
  { split; [intros [] [] [] [] | intros [] [] [] [] [] []]; done. }
  apply (ordered_ext (lex (λ l m, ovsdb_atom_compare_3way (hd (ATOM_INTEGER 0) l) (hd (ATOM_INTEGER 0) m)) (λ l m, atom_arrays_compare_3way (tl l) (tl m)))).
  { intros [| x l] [| y m] [_ Hl] [_ Hm]; done. }
  apply lex_ordered.
  - apply (ordered_map _ _ _ (atom_ok kt)); [| apply atom_ordered]. intros [| x l] [H Hl]; [done |]. by apply Forall_cons in H as [H _].
  - intros l0 _. apply (ordered_map _ _ _ (λ l, Forall (atom_ok kt) l /\ length l = n)); [| done].
    intros [| x l] [[H Hl] _]; [done |]. apply Forall_cons in H as [_ H]. split; [done |]. by injection Hl.
Qed.

Lemma keys_ok ty d : ok ty d -> Forall (atom_ok (type (key ty))) d.*1.
Proof. intros Hd%ok_rows. apply Forall_fmap. eapply Forall_impl; [exact Hd |]. by intros r [H _]. Qed.

Lemma datum_ordered ty : ordered (λ a b, ovsdb_datum_compare_3way a b ty) (ok ty).
Proof.
  apply (ordered_ext (lex (by_number (λ d, Z.of_nat (length d))) (lex (λ a b, atom_arrays_compare_3way a.*1 b.*1)
    (λ a b, if is_void (value ty) then 0 else atom_arrays_compare_3way (values_of a) (values_of b))))).
  { intros a b _ _. unfold ovsdb_datum_compare_3way, lex, by_number. cbv beta.
    destruct (Nat.eqb_spec (length a) (length b)), (Z.eqb_spec (Z.of_nat (length a)) (Z.of_nat (length b))); try lia; cbn [negb]; [done |].
    destruct (Nat.ltb_spec (length a) (length b)), (Z.ltb_spec (Z.of_nat (length a)) (Z.of_nat (length b))); try lia; done. }
  assert (forall d0 d, ok ty d /\ by_number (λ d, Z.of_nat (length d)) d0 d = 0 -> ok ty d /\ length d = length d0) as Hlen.
  { intros d0 d. unfold by_number. zcases; intros []; split; done || lia. }
  apply lex_ordered; [apply by_number_ordered |]. intros d0 _. apply (ordered_impl _ (λ d, ok ty d /\ length d = length d0)); [apply Hlen |].
  apply lex_ordered.
  - apply (ordered_map (λ d : datum, d.*1) _ _ (λ l, Forall (atom_ok (type (key ty))) l /\ length l = length d0)); [| apply arrays_ordered].
    intros d [Hd Hl]. rewrite length_fmap. split; [by apply keys_ok | done].
  - intros d1 _. destruct (is_void (value ty)) eqn:Ev; [split; done |].
    apply (ordered_map values_of _ _ (λ l, Forall (atom_ok (type (value ty))) l /\ length l = length d0)); [| apply arrays_ordered].
    intros d [[Hd Hl] _]. pose proof (values_ok ty d Hd) as H. rewrite Ev in H. destruct H as [H E]. split; [done |].
    rewrite <- Hl, <- (length_fmap snd d), E. by rewrite length_fmap.
Qed.

(** ** Clauses that were read *)

(** Ordering functions apply to numbers. *)
Definition scalar ty : Prop := ovsdb_type_is_scalar ty || ovsdb_type_is_optional_scalar ty = true.

Record clause_ok c cl : Prop := {
  cl_has_column : has_column c (column cl);
  cl_arg : ok (col_type (column cl)) (arg cl);
  cl_ordering : is_ordering (function cl) = true ->
    scalar (col_type (column cl)) /\ (type (key (col_type (column cl))) = OVSDB_TYPE_INTEGER \/ type (key (col_type (column cl))) = OVSDB_TYPE_REAL) /\
    length (arg cl) = 1%nat;
}.

(** How many symbols a clause can add. *)
Definition clause_cost j : Z := match j with JSON_ARRAY [_; _; v] => 2 * Z.of_nat (elements v) + 1 | _ => 0 end.

Lemma clause_cost_nonneg j : 0 <= clause_cost j.
Proof. unfold clause_cost. repeat case_match; lia. Qed.

Lemma returns_ordering j f col :
  type_ok (col_type col) -> is_ordering f = true ->
  returns (argument_type j f col) (λ ty', type_ok ty' /\ key ty' = key (col_type col) /\ value ty' = value (col_type col) /\
    scalar (col_type col) /\ (type (key (col_type col)) = OVSDB_TYPE_INTEGER \/ type (key (col_type col)) = OVSDB_TYPE_REAL) /\
    n_min ty' = 1 /\ n_max ty' = 1).
Proof.
  intros Ht Hf. unfold argument_type, scalar. cbv zeta.
  assert (forall e : ovsdb_error, returns (Error e) (λ ty' : ovsdb_type R, False)) as He by done.
  destruct f; try done;
    (destruct (ovsdb_type_is_scalar _ || _) eqn:Es; [| done]);
    (case_bool_decide; [| case_bool_decide; [| done]]); cbn; (split; [split; rsimpl; apply Ht || done |]); rsimpl;
    unfold ovsdb_type_is_scalar, ovsdb_type_is_optional_scalar in Es; split_and!; auto; lia.
Qed.

(** The types of the arguments differ from those of the columns in the number of elements only. *)
Lemma returns_argument j f col :
  type_ok (col_type col) -> f <> OVSDB_F_TRUE -> f <> OVSDB_F_FALSE ->
  returns (argument_type j f col) (λ ty', type_ok ty' /\ key ty' = key (col_type col) /\ value ty' = value (col_type col) /\
    (is_ordering f = true ->
     scalar (col_type col) /\ (type (key (col_type col)) = OVSDB_TYPE_INTEGER \/ type (key (col_type col)) = OVSDB_TYPE_REAL) /\
     n_min ty' = 1 /\ n_max ty' = 1)).
Proof.
  intros Ht H1 H2. destruct (is_ordering f) eqn:Ef.
  - pose proof (returns_ordering j f col Ht Ef) as H. destruct (argument_type j f col) as [ty' | |]; [| done | done].
    destruct H as (? & ? & ? & ? & ? & ?). done.
  - destruct f; try done; cbn; try destruct (negb _); (split; [split; rsimpl; apply Ht || done |]); done.
Qed.

(** A clause that names a constant function, which asserts. *)
Definition names_constant j : bool :=
  match j with
  | JSON_ARRAY [JSON_STRING _; JSON_STRING f; _] => bool_decide (f = str "true") || bool_decide (f = str "false")
  | _ => false
  end.

Lemma function_from_string_spec name f : no_nul name -> ovsdb_function_from_string (T := T) (R := R) name = inl f -> name = ovsdb_function_to_string f.
Proof.
  unfold ovsdb_function_from_string. destruct (List.find _ _) as [f' |] eqn:E; [| done]. intros Hn [= ->].
  apply List.find_some in E as [_ E%Z.eqb_eq]. apply strcmp_eq; [done | | done]. destruct f; repeat constructor; done.
Qed.

Lemma clause_from_json_safe ts c j :
  columns_ok hash_string ts c -> std_columns c -> wf hash_string j -> names_constant j = false ->
  safe hash_string false (clause_cost j) (ovsdb_clause_from_json hash_string uuid_generate ts j)
    (λ cl, clause_ok c cl /\ (function cl = OVSDB_F_FALSE <-> j = JSON_FALSE)).
Proof.
  intros Hts [Hstd _] Hj Hc. pose proof (clause_cost_nonneg j) as Hcost.
  assert (forall e : ovsdb_error, safe hash_string false (clause_cost j) (fail e) (λ cl, clause_ok c cl /\ (function cl = OVSDB_F_FALSE <-> j = JSON_FALSE))) as Hfail.
  { intros e. apply (safe_weaken hash_string false 0 _ _ (λ _, False)); [done | done | apply safe_fail]. }
  assert (forall f, is_ordering f = false -> (f = OVSDB_F_FALSE <-> j = JSON_FALSE) ->
    safe (E := ovsdb_error) hash_string false 0 (col ←! of_option (ovsdb_table_schema_get_column hash_string ts (str "_uuid"));
      ret (mk_clause f col (col_index col) (ovsdb_datum_init_default (col_type col))))
      (λ cl, clause_ok c cl /\ (function cl = OVSDB_F_FALSE <-> j = JSON_FALSE))) as Hconst.
  { intros f Hf Hff. rewrite (get_column hash_string ts c), Hstd by done. apply safe_ret. split; [| done]. split; cbn; [done | | by rewrite Hf].
    exact (proj1 (default_typed _ uuid_type_ok)). }
  unfold ovsdb_clause_from_json. cbv zeta. destruct j as [| | | | l | | |]; try apply Hfail; try by apply Hconst.
  destruct l as [| n l]; [apply Hfail |].
  destruct n as [| | | | | | | name]; try apply Hfail. destruct l as [| n l]; [apply Hfail |]. destruct n as [| | | | | | | fname]; try apply Hfail.
  destruct l as [| v [| x l]]; try apply Hfail. apply wf_array in Hj as [_ Hj]. rewrite !Forall_cons in Hj. destruct Hj as (_ & Hs%wf_scalar & Hv & _).
  rewrite (get_column hash_string ts c) by done. destruct (c !! name) as [col |] eqn:E; [| apply Hfail].
  destruct (column_ok _ _ _ Hts name col E) as (En & _ & Ht & _). assert (has_column c col) as Hcol by (unfold has_column; by rewrite En).
  destruct (ovsdb_function_from_string fname) as [f |] eqn:Ef; [| apply Hfail]. apply function_from_string_spec in Ef; [| done].
  assert (f <> OVSDB_F_TRUE /\ f <> OVSDB_F_FALSE) as [H1 H2].
  { cbn in Hc. apply orb_false_iff in Hc as [H1%bool_decide_eq_false H2%bool_decide_eq_false]. subst fname. split; intros ->; done. }
  pose proof (returns_argument (JSON_ARRAY [JSON_STRING name; JSON_STRING fname; v]) f col Ht H1 H2) as Harg.
  destruct (argument_type _ f col) as [ty' | e |]; [| apply Hfail | done]. destruct Harg as (Hty' & Ek & Ev & Ho).
  cbn [clause_cost]. rewrite <- (Z.add_0_r (2 * _ + 1)).
  lazymatch goal with |- context [bind (of_outcome (Value ty')) ?f] => change (bind (of_outcome (Value ty')) f) with (f ty'); cbv beta end.
  eapply safe_bind; [lia | lia | by apply datum_from_json_safe |]. intros d (Hd & Hl & _). apply safe_ret. split; [| done]. split; cbn; [done | |].
  - unfold ok in *. by rewrite <- Ek, <- Ev.
  - intros Hf. destruct (Ho Hf) as (? & ? & ? & ?). split_and!; done || lia.
Qed.

(** Such a clause on a column of the table stops the program. *)
Lemma constant_clause_crashes ts c j (s : symtab) :
  columns_ok hash_string ts c -> names_constant j = true ->
  (forall name f v, j = JSON_ARRAY [JSON_STRING name; f; v] -> is_Some (c !! name)) ->
  ovsdb_clause_from_json hash_string uuid_generate ts j s = (Crash, s).
Proof.
  intros Hts Hc Hcol. destruct j as [| | | | l | | |]; try done. destruct l as [| n l]; [done |].
  destruct n as [| | | | | | | name]; try done. destruct l as [| n l]; [done |]. destruct n as [| | | | | | | fname]; try done.
  destruct l as [| v [| x l]]; try done. destruct (Hcol name _ _ eq_refl) as [col E].
  cbn [ovsdb_clause_from_json]. rewrite (get_column hash_string ts c), E by done. cbn in Hc.
  apply orb_true_iff in Hc as [->%bool_decide_eq_true | ->%bool_decide_eq_true]; done.
Qed.

(** ** The meaning of clauses *)

Definition field_at (index_map : option (list Z)) row col : option datum := i ← row_index index_map col; row !! i.

(** The row has a datum for each column of the table, at the place that the map gives. *)
Definition row_fits (index_map : option (list Z)) c row : Prop :=
  forall col, has_column c col -> exists d, field_at index_map row col = Some d /\ typed (col_type col) d.

Definition ordering_holds (f : ovsdb_function) (cmp : Z) : Prop :=
  match f with OVSDB_F_LT => cmp < 0 | OVSDB_F_LE => cmp <= 0 | OVSDB_F_GE => 0 <= cmp | _ => 0 < cmp end.

(** What a clause says of the datum of its column; an ordering is false of a missing scalar. *)
Definition accepts cl d : Prop :=
  match function cl with
  | OVSDB_F_FALSE => False
  | OVSDB_F_TRUE => True
  | OVSDB_F_EQ => d = arg cl
  | OVSDB_F_NE => d <> arg cl
  | OVSDB_F_INCLUDES => forall r, r ∈ arg cl -> r ∈ d
  | OVSDB_F_EXCLUDES => forall r, r ∈ arg cl -> r ∉ d
  | f => exists x y, x ∈ d /\ y ∈ arg cl /\ ordering_holds f (ovsdb_atom_compare_3way x.1 y.1)
  end.

(** The row satisfies the clause. *)
Definition satisfies (index_map : option (list Z)) row cl : Prop :=
  exists d, field_at index_map row (column cl) = Some d /\ accepts cl d.

Lemma compare_sets_spec f cl d ty :
  f = function cl -> is_ordering f = false -> f <> OVSDB_F_TRUE -> f <> OVSDB_F_FALSE -> ok ty d -> ok ty (arg cl) ->
  exists b, compare_sets f d (arg cl) ty = Some b /\ (b = true <-> accepts cl d).
Proof.
  intros Ef Ho H1 H2 Hd Ha. unfold accepts. rewrite <- Ef. destruct f; try done; cbn; eexists; (split; [done |]).
  - by apply equals_spec.
  - by apply includes_spec.
  - by apply excludes_spec.
  - rewrite negb_true_iff, <- not_true_iff_false. apply not_iff_compat. by apply equals_spec.
Qed.

Lemma void_row ty x : type (value ty) = OVSDB_TYPE_VOID -> row_of ty x -> x.2 = None.
Proof. intros Ev [_ H]. rewrite Ev in H. destruct x.2 as [v |]; [| done]. destruct H as [H _]. by destruct v. Qed.

Lemma compare_scalars_spec f cl x y ty :
  f = function cl -> f <> OVSDB_F_TRUE -> f <> OVSDB_F_FALSE -> type (value ty) = OVSDB_TYPE_VOID ->
  row_of ty x -> row_of ty y -> arg cl = [y] ->
  exists b, compare_scalars f (ovsdb_atom_compare_3way x.1 y.1) = Some b /\ (b = true <-> accepts cl [x]).
Proof.
  intros Ef H1 H2 Ev Hx Hy Ha. unfold accepts. rewrite <- Ef, Ha.
  assert (ovsdb_atom_compare_3way x.1 y.1 = 0 <-> x = y) as Heq.
  { rewrite (cmp_eq (type (key ty))) by (apply Hx || apply Hy). pose proof (void_row ty x Ev Hx). pose proof (void_row ty y Ev Hy).
    destruct x, y. cbn in *. split; congruence. }
  assert (forall P : _ -> _ -> Prop, (exists x' y', x' ∈ [x] /\ y' ∈ [y] /\ P x' y') <-> P x y) as Hex.
  { intros P. split; [| intros; exists x, y; by rewrite !list_elem_of_singleton].
    intros (x' & y' & ->%list_elem_of_singleton & ->%list_elem_of_singleton & HP). done. }
  destruct f; try done; cbn [compare_scalars ordering_holds]; eexists; (split; [done |]);
    try (rewrite (Hex (λ x y, _)); lia).
  - rewrite Z.eqb_eq, Heq. split; [by intros -> | by intros [= ->]].
  - rewrite Z.eqb_eq, Heq. split; [by intros -> |]. intros H. specialize (H y ltac:(by constructor)). by apply list_elem_of_singleton in H.
  - rewrite negb_true_iff, Z.eqb_neq, Heq. split.
    + intros H r ->%list_elem_of_singleton ->%list_elem_of_singleton. done.
    + intros H ->. by apply (H y); constructor.
  - rewrite negb_true_iff, Z.eqb_neq, Heq. split; intros H E; apply H; [by injection E | by rewrite E].
Qed.

Lemma scalar_type ty : scalar ty -> type (value ty) = OVSDB_TYPE_VOID /\ n_max ty = 1 /\ (ovsdb_type_is_optional_scalar ty = true \/ n_min ty = 1).
Proof.
  unfold scalar, ovsdb_type_is_scalar, ovsdb_type_is_optional_scalar, is_void. case_bool_decide; [| done]. cbn. intros H1. split; [done |]. lia.
Qed.

(** The body of the evaluation, when the function is not constant. *)
Lemma evaluate_field cl d :
  let ty := col_type (column cl) in
  function cl <> OVSDB_F_TRUE -> function cl <> OVSDB_F_FALSE -> typed ty d -> ok ty (arg cl) ->
  (is_ordering (function cl) = true -> scalar ty /\ length (arg cl) = 1%nat) ->
  exists b, (if ovsdb_type_is_optional_scalar ty && (length d =? 0)%nat && is_ordering (function cl) then Some false
      else if ovsdb_type_is_scalar ty || ovsdb_type_is_optional_scalar ty then
        match d, arg cl with
        | [x], [y] => compare_scalars (function cl) (ovsdb_atom_compare_3way x.1 y.1)
        | _, _ => compare_sets (function cl) d (arg cl) ty
        end
      else compare_sets (function cl) d (arg cl) ty) = Some b /\ (b = true <-> accepts cl d).
Proof.
  cbv zeta. set (ty := col_type (column cl)). intros H1 H2 [Hd Hn] Ha Ho. fold (scalar ty) in *.
  destruct (_ && _ && _) eqn:E.
  { apply andb_true_iff in E as [[_ E%Nat.eqb_eq]%andb_true_iff Hf]. destruct d; [| done]. exists false. split; [done |].
    split; [done |]. unfold accepts. destruct (function cl); try done; intros (x & y & Hx%not_elem_of_nil & _); done. }
  assert (is_ordering (function cl) = true -> length d = 1%nat /\ scalar ty /\ length (arg cl) = 1%nat) as Hlen.
  { intros Hf. destruct (Ho Hf) as [Hs Hl]. split_and!; try done. destruct (scalar_type _ Hs) as (_ & Hmax & [Hopt | Hmin]); [| lia].
    rewrite Hopt, Hf in E. destruct (Nat.eqb_spec (length d) 0); [done |]. lia. }
  assert (forall d', d' = d -> (is_ordering (function cl) = false) -> exists b, compare_sets (function cl) d' (arg cl) ty = Some b /\ (b = true <-> accepts cl d)) as Hset.
  { intros d' -> Hf. by apply compare_sets_spec. }
  assert (length d <> 1%nat \/ length (arg cl) <> 1%nat \/ ~ scalar ty -> is_ordering (function cl) = false) as Hnot.
  { intros H. destruct (is_ordering (function cl)); [| done]. destruct (Hlen eq_refl) as (? & ? & ?). tauto. }
  destruct (ovsdb_type_is_scalar ty || _) eqn:Es; [| apply Hset; [done |]; apply Hnot; unfold scalar; rewrite Es; auto].
  destruct (scalar_type ty Es) as (Ev & _ & _). pose proof (ok_rows ty d Hd) as Rd. pose proof (ok_rows ty (arg cl) Ha) as Ra.
  destruct d as [| x [| x' d]]; [by apply Hset, Hnot; auto | | by apply Hset, Hnot; auto].
  destruct (arg cl) as [| y [| y' a]] eqn:Ea; [by apply Hset, Hnot; auto | | by apply Hset, Hnot; auto].
  apply Forall_cons in Rd as [Rx _]. apply Forall_cons in Ra as [Ry _]. by apply (compare_scalars_spec _ cl x y ty).
Qed.

(** Evaluating a clause gives a result, the one that its function means. *)
Lemma evaluate_spec index_map c row cl :
  row_fits index_map c row -> clause_ok c cl ->
  exists b, ovsdb_clause_evaluate row cl index_map = Some b /\ (b = true <-> satisfies index_map row cl).
Proof.
  intros Hr Hcl. destruct (Hr _ (cl_has_column _ _ Hcl)) as (d & Hf & Hd). unfold satisfies. rewrite Hf.
  assert (forall b, (b = true <-> accepts cl d) -> b = true <-> exists d0, Some d = Some d0 /\ accepts cl d0) as Hiff.
  { intros b ->. split; [intros; by exists d | by intros (? & [= <-] & ?)]. }
  unfold field_at in Hf. unfold ovsdb_clause_evaluate. cbv zeta. destruct (row_index index_map (column cl)) as [i |]; [| done].
  cbn [mbind option_bind] in *. rewrite Hf. cbn [mbind option_bind].
  pose proof (evaluate_field cl d) as He. cbv zeta in He. unfold accepts in He at 1, Hiff at 1.
  assert (is_ordering (function cl) = true -> scalar (col_type (column cl)) /\ length (arg cl) = 1%nat) as Ho.
  { intros H. by destruct (cl_ordering _ _ Hcl H) as (? & _ & ?). }
  destruct (function cl); try (exists true; split; [done | by apply Hiff]); try (exists false; split; [done | by apply Hiff]).
  all: destruct (He ltac:(done) ltac:(done) Hd (cl_arg _ _ Hcl) Ho) as (b & Eb & Hb); exists b; split; [exact Eb | by apply Hiff].
Qed.

Lemma every_spec index_map c row l :
  row_fits index_map c row -> Forall (clause_ok c) l ->
  exists b, every_clause row index_map l = Some b /\ (b = true <-> Forall (satisfies index_map row) l).
Proof.
  intros Hr. induction 1 as [| cl l Hcl Hl (b' & E' & Hb')]; cbn [every_clause]; [exists true; by split; [| split]|].
  destruct (evaluate_spec index_map c row cl Hr Hcl) as ([] & -> & Hb).
  - exists b'. split; [done |]. rewrite Forall_cons, Hb'. tauto.
  - exists false. split; [done |]. rewrite Forall_cons. split; [done |]. intros [H _]. by apply Hb.
Qed.

Lemma any_spec index_map c row l :
  row_fits index_map c row -> Forall (clause_ok c) l ->
  exists b, any_clause row index_map l = Some b /\ (b = true <-> Exists (satisfies index_map row) l).
Proof.
  intros Hr. induction 1 as [| cl l Hcl Hl (b' & E' & Hb')]; cbn [any_clause]; [exists false; split; [done |]; by rewrite Exists_nil |].
  destruct (evaluate_spec index_map c row cl Hr Hcl) as ([] & -> & Hb).
  - exists true. split; [done |]. rewrite Exists_cons. tauto.
  - exists b'. split; [done |]. rewrite Exists_cons, Hb'. split; [by right |]. intros [H%Hb |]; done.
Qed.

(** ** The order of clauses *)

(** Columns by number when one is a column of every table, or else by name. *)
Definition compare_columns (a b : col_t) : Z :=
  lex (by_number (λ col, Z.min (col_index col) OVSDB_N_STD_COLUMNS)) (λ a b, strcmp (col_name a) (col_name b)) a b.

Lemma compare_columns_spec ts c a b :
  columns_ok hash_string ts c -> has_column c a -> has_column c b ->
  compare_columns a b =
    (if negb (col_index a =? col_index b) then
       if (col_index a <? OVSDB_N_STD_COLUMNS) || (col_index b <? OVSDB_N_STD_COLUMNS) then if col_index a <? col_index b then -1 else 1
       else strcmp (col_name a) (col_name b)
     else 0) /\ (compare_columns a b = 0 <-> a = b).
Proof.
  intros Hts Ha Hb. unfold compare_columns, lex, by_number, OVSDB_N_STD_COLUMNS.
  destruct (column_ok _ _ _ Hts _ a Ha) as (_ & Na & _ & Ia), (column_ok _ _ _ Hts _ b Hb) as (_ & Nb & _ & Ib).
  assert (col_index a = col_index b -> a = b) as Hi.
  { intros E. pose proof (column_inj _ _ _ Hts a b _ _ Ha Hb E) as En. unfold has_column in *. congruence. }
  assert (strcmp (col_name a) (col_name b) = 0 -> a = b) as Hn.
  { intros E%strcmp_eq; [| done..]. unfold has_column in *. congruence. }
  assert (forall z : Z, z <> 0 -> a <> b -> z = 0 <-> a = b) as Hne by (intros; split; [lia | done]).
  destruct (Z.eqb_spec (col_index a) (col_index b)) as [E | E].
  { rewrite (Hi E), !Z.eqb_refl, strcmp_refl. done. }
  assert (a <> b) as Hab by (by intros ->).
  assert (strcmp (col_name a) (col_name b) <> 0) by auto. zcases; cbn; try lia; (split; [done || lia |]; apply Hne; [lia | done]).
Qed.

Lemma clauses_ordered ts c : columns_ok hash_string ts c -> ordered (compare_clauses_3way_with_data (R := R)) (clause_ok c).
Proof.
  intros Hts. set (by_function := by_number (λ cl : clause, function_number (function cl))).
  set (by_column := λ a b : clause, compare_columns (column a) (column b)).
  apply (ordered_ext (lex (lex by_function by_column) (λ a b, ovsdb_datum_compare_3way (arg a) (arg b) (col_type (column a))))).
  { intros a b Ha Hb. unfold compare_clauses_3way_with_data, compare_clauses_3way. unfold lex at 1.
    assert (lex by_function by_column a b = compare_clauses_3way a b) as ->; [| done].
    unfold lex, by_function, by_column, by_number, compare_clauses_3way. cbv beta.
    rewrite (proj1 (compare_columns_spec ts c (column a) (column b) Hts (cl_has_column _ _ Ha) (cl_has_column _ _ Hb))). zcases; done. }
  apply lex_ordered.
  - apply lex_ordered; [apply by_number_ordered |]. intros cl0 _. apply (ordered_map column _ _ (λ _, True)); [done |].
    apply lex_ordered; [apply by_number_ordered |]. intros col0 _. apply (ordered_map col_name _ _ (λ _, True)); [done |]. split.
    + intros x y _ _. by rewrite strcmp_antisym, Z.sgn_opp.
    + intros x y z _ _ _. apply strcmp_trans.
  - intros cl0 H0. apply (ordered_impl _ (λ cl, clause_ok c cl /\ column cl = column cl0)).
    + intros cl [Hcl E]. split; [done |]. unfold lex, by_function, by_number in E. cbv beta in E.
      destruct (Z.eqb_spec (function_number (function cl0)) (function_number (function cl))) as [Ef | Ef]; cbn in E.
      * symmetry. by apply (compare_columns_spec ts c _ _ Hts (cl_has_column _ _ H0) (cl_has_column _ _ Hcl)).
      * exfalso. revert E. zcases; done.
    + apply (ordered_ext (λ a b, ovsdb_datum_compare_3way (arg a) (arg b) (col_type (column cl0)))); [by intros x y [_ ->] _ |].
      apply (ordered_map arg (λ a b, ovsdb_datum_compare_3way a b (col_type (column cl0))) _ (ok (col_type (column cl0)))); [| apply datum_ordered]. intros cl [Hcl <-]. apply Hcl.
Qed.

Lemma compare_functions cl cl' : compare_clauses_3way_with_data cl cl' <= 0 -> function_number (function cl) <= function_number (function cl').
Proof. unfold compare_clauses_3way_with_data, compare_clauses_3way. zcases; cbn; intros; lia. Qed.

(** ** The tables of clauses *)

Context (hash_int : Z -> Z -> Z) (hash_double : R -> Z -> Z) (hash_boolean : bool -> Z -> Z).
Abbreviation o_column := (ovsdb_o_column T R).
Abbreviation condition := (ovsdb_condition T R).
Abbreviation dhash := (datum_hash hash_string hash_int hash_double hash_boolean).
Implicit Types (o : o_column) (oc : gmap chars o_column) (cnd : condition).

(** The table of a column has its arguments, by their hashes. *)
Definition o_column_ok (o : o_column) : Prop :=
  exists m, hmap_holds (o_clauses o) m /\ forall i, m !! i = (λ a, dhash a (col_type (oc_column o))) <$> o_args o !! i.

(** The tables hold the arguments of these clauses. *)
Record tables c oc (l : list clause) : Prop := {
  tables_size : (size oc <= length l)%nat;
  tables_column name o : oc !! name = Some o -> col_name (oc_column o) = name /\ has_column c (oc_column o) /\ o_column_ok o /\ (length (o_args o) <= length l)%nat;
  tables_args name o a : oc !! name = Some o -> a ∈ o_args o -> exists cl, cl ∈ l /\ column cl = oc_column o /\ arg cl = a;
  tables_clause cl : cl ∈ l -> exists o, oc !! col_name (column cl) = Some o /\ arg cl ∈ o_args o;
}.

Definition add_arg cl o : o_column :=
  mk_o_column (oc_column o) (hmap_insert (length (o_args o)) (dhash (arg cl) (col_type (column cl))) (o_clauses o)) (o_args o ++ [arg cl]).

Definition add_clause cl oc : gmap chars o_column :=
  let name := col_name (column cl) in <[name := add_arg cl (default (mk_o_column (column cl) hmap_init []) (oc !! name))]> oc.

Lemma optimize_represents sh oc cl :
  represents hash_string sh oc -> in_u 64 (Z.of_nat (size oc) + 1) ->
  represents hash_string (optimize_clause hash_string hash_int hash_double hash_boolean sh cl) (add_clause cl oc).
Proof.
  intros Hr Hs. unfold optimize_clause, add_clause. cbv zeta. set (name := col_name (column cl)).
  pose proof (find_contents hash_string sh oc name Hr) as Hf. destruct (oc !! name) as [o |] eqn:E.
  - destruct Hf as (i & Hf & Ei). rewrite Hf. unfold node_data. rewrite Ei. cbn. by apply (set_data_contents _ _ _ _ _ o).
  - rewrite Hf. set (o := mk_o_column (column cl) hmap_init []). pose proof (add_contents _ sh oc name o Hr E Hs) as Hr'.
    pose proof (find_contents _ _ _ name Hr') as Hf'. rewrite lookup_insert_eq in Hf'. destruct Hf' as (i & Hf' & Ei).
    rewrite (add_find _ sh oc) in Hf' by done. unfold shash_add. destruct (shash_add_nocopy hash_string name o sh) as [n sh'] eqn:Ea.
    cbn [fst snd] in *. injection Hf' as ->. unfold node_data. rewrite Ei. cbn.
    rewrite <- (insert_insert_eq oc name (add_arg cl o) o). apply (set_data_contents _ _ _ _ _ o); [done | done | | by rewrite lookup_insert_eq].
    pose proof (add_find _ sh oc name o Hr E Hs) as H. by rewrite Ea in H.
Qed.

Lemma add_arg_ok cl o :
  o_column_ok o -> oc_column o = column cl -> in_u 64 (Z.of_nat (length (o_args o)) + 1) -> o_column_ok (add_arg cl o).
Proof.
  intros (m & Hm & Hi) E Hs. exists (<[length (o_args o) := dhash (arg cl) (col_type (column cl))]> m). cbn.
  assert (m !! length (o_args o) = None) as Hn by (by rewrite Hi, lookup_ge_None_2 by lia).
  assert (size m = length (o_args o)) as Hsz.
  { assert (dom m = set_seq 0 (length (o_args o))) as Hd.
    { apply set_eq. intros i. rewrite elem_of_dom, Hi, fmap_is_Some, lookup_lt_is_Some, elem_of_set_seq. lia. }
    by rewrite <- size_dom, Hd, size_set_seq. }
  split; [apply hmap_insert_holds; [done | done | by rewrite Hsz] |].
  intros i. destruct (decide (i = length (o_args o))) as [-> | Hne].
  - rewrite lookup_insert_eq, lookup_app_r, Nat.sub_diag by lia. cbn. by rewrite E.
  - rewrite lookup_insert_ne, Hi by done. destruct (decide (i < length (o_args o))%nat) as [Hlt | Hge]; [by rewrite lookup_app_l |].
    rewrite !lookup_ge_None_2; [done | rewrite length_app; cbn; lia | lia].
Qed.

Lemma init_o_column_ok col : o_column_ok (mk_o_column col hmap_init []).
Proof. exists ∅. split; [apply hmap_init_holds |]. intros i. by rewrite lookup_empty. Qed.

Lemma add_clause_tables c oc l cl :
  tables c oc l -> has_column c (column cl) -> in_u 64 (Z.of_nat (length l) + 1) -> tables c (add_clause cl oc) (l ++ [cl]).
Proof.
  intros Ht Hcl Hs. unfold add_clause. set (name := col_name (column cl)).
  set (o := default (mk_o_column (column cl) hmap_init []) (oc !! name)).
  assert (oc_column o = column cl /\ o_column_ok o /\ (length (o_args o) <= length l)%nat) as (Ec & Ho & Hl).
  { subst o. destruct (oc !! name) as [o |] eqn:E; cbn [default from_option id]; [| split; [done |]; split; [apply init_o_column_ok | cbn; lia]].
    destruct (tables_column _ _ _ Ht name o E) as (En & Hc & ? & ?). split_and!; [| done..]. unfold has_column in *. rewrite En in Hc. fold name in Hcl. congruence. }
  assert (forall a, a ∈ o_args o -> exists cl', cl' ∈ l /\ column cl' = column cl /\ arg cl' = a) as Hargs.
  { intros a Ha. rewrite <- Ec. subst o. destruct (oc !! name) as [o |] eqn:E; [| by apply not_elem_of_nil in Ha]. by apply (tables_args _ _ _ Ht name). }
  split.
  - rewrite length_app. cbn. pose proof (tables_size _ _ _ Ht). rewrite map_size_insert. case_match; unfold id; lia.
  - intros name' o'. rewrite lookup_insert_Some, length_app. cbn [length]. intros [[<- <-] | [Hne E]].
    + cbn. rewrite Ec, length_app. cbn. split_and!; [done | done | | lia]. apply add_arg_ok; [done | done |]. unfold in_u in *. lia.
    + destruct (tables_column _ _ _ Ht name' o' E) as (? & ? & ? & ?). split_and!; done || lia.
  - intros name' o' a. rewrite lookup_insert_Some. intros [[<- <-] | [Hne E]] Ha.
    + cbn in *. rewrite elem_of_app, list_elem_of_singleton in Ha. rewrite Ec. destruct Ha as [Ha | ->].
      * destruct (Hargs a Ha) as (cl' & ? & ? & ?). exists cl'. rewrite elem_of_app. auto.
      * exists cl. rewrite elem_of_app, list_elem_of_singleton. auto.
    + destruct (tables_args _ _ _ Ht name' o' a E Ha) as (cl' & ? & ? & ?). exists cl'. rewrite elem_of_app. auto.
  - intros cl'. rewrite elem_of_app, list_elem_of_singleton. intros [Hin | ->].
    + destruct (tables_clause _ _ _ Ht cl' Hin) as (o' & E & Ha). destruct (decide (col_name (column cl') = name)) as [En | Hne].
      * exists (add_arg cl o). rewrite En, lookup_insert_eq. split; [done |]. cbn. apply elem_of_app. left. subst o. rewrite <- En, E. done.
      * exists o'. by rewrite lookup_insert_ne.
    + exists (add_arg cl o). fold name. rewrite lookup_insert_eq. split; [done |]. cbn. rewrite elem_of_app, list_elem_of_singleton. auto.
Qed.

Lemma optimize_tables c sh oc l m :
  represents hash_string sh oc -> tables c oc l -> Forall (clause_ok c) m -> in_u 64 (Z.of_nat (length l + length m)) ->
  exists oc', represents hash_string (foldl (optimize_clause hash_string hash_int hash_double hash_boolean) sh m) oc' /\ tables c oc' (l ++ m).
Proof.
  intros Hr Ht Hm. revert sh oc l Hr Ht. induction Hm as [| cl m Hcl Hm IH]; intros sh oc l Hr Ht Hs; cbn [foldl].
  { exists oc. by rewrite app_nil_r. }
  cbn [length] in Hs. pose proof (tables_size _ _ _ Ht).
  destruct (IH (optimize_clause hash_string hash_int hash_double hash_boolean sh cl) (add_clause cl oc) (l ++ [cl])) as (oc' & H1 & H2).
  - apply optimize_represents; [done |]. unfold in_u in *. lia.
  - apply add_clause_tables; [done | apply Hcl |]. unfold in_u in *. lia.
  - rewrite length_app. cbn. unfold in_u in *. lia.
  - exists oc'. by rewrite <- app_assoc in H2.
Qed.

(** ** Matching *)

Lemma any_o_column_spec index_map c row nodes :
  row_fits index_map c row ->
  Forall (λ no : chars * o_column, has_column c (oc_column no.2) /\ o_column_ok no.2 /\ Forall (ok (col_type (oc_column no.2))) (o_args no.2)) nodes ->
  exists b, any_o_column hash_string hash_int hash_double hash_boolean row index_map nodes = Some b /\
    (b = true <-> Exists (λ no : chars * o_column, exists d, field_at index_map row (oc_column no.2) = Some d /\ d ∈ o_args no.2) nodes).
Proof.
  intros Hr. induction 1 as [| [name o] nodes (Hc & (m & Hm & Hi) & Ha) Hn (b' & E' & Hb')]; cbn [any_o_column].
  { exists false. split; [done |]. split; [done | by inversion 1]. }
  cbn [snd] in *. destruct (Hr _ Hc) as (d & Hf & Hd & _). pose proof Hf as Hf'. unfold field_at in Hf'.
  destruct (row_index index_map (oc_column o)) as [i |]; [| done]. cbn [mbind option_bind] in *. rewrite Hf'. cbn [mbind option_bind].
  destruct (existsb _ _) eqn:E.
  - exists true. split; [done |]. split; [intros _ | done]. apply Exists_cons. left. exists d. split; [done |]. cbn.
    apply existsb_exists in E as (n & Hin & Hn'). destruct (o_args o !! n) as [a |] eqn:Ea; [| done]. cbn in Hn'.
    rewrite Forall_forall in Ha. apply list_elem_of_lookup_2 in Ea. apply equals_spec in Hn' as ->; [done | done | by apply Ha].
  - exists b'. split; [done |]. rewrite Exists_cons, Hb'. split; [by right |]. intros [(d' & Hf'' & Hin) |]; [| done]. exfalso.
    cbn in Hf'', Hin. assert (d' = d) as -> by congruence. apply list_elem_of_lookup in Hin as [n En].
    apply not_true_iff_false in E. apply E, existsb_exists. exists n. split.
    + apply list_elem_of_In, (with_hash_elem _ _ _ _ Hm). by rewrite Hi, En.
    + rewrite En. cbn. by apply equals_spec.
Qed.

Record condition_ok c cnd : Prop := {
  cnd_clauses : Forall (clause_ok c) (clauses cnd);
  cnd_sorted : StronglySorted (λ a b : clause, function_number (function a) <= function_number (function b)) (clauses cnd);
  cnd_optimized : optimized cnd = true -> Forall (λ cl : clause, function_number (function cl) <= 2) (clauses cnd) /\
    exists oc, represents hash_string (o_columns cnd) oc /\ tables c oc (List.filter (λ cl, bool_decide (function cl = OVSDB_F_EQ)) (clauses cnd));
}.

(** How many clauses are the constant false. *)
Definition n_false (l : list clause) : nat := length (List.filter (λ cl, bool_decide (function cl = OVSDB_F_FALSE)) l).

Lemma n_false_none m : Forall (λ b : clause, 1 <= function_number (function b)) m -> n_false m = 0%nat.
Proof.
  unfold n_false. induction 1 as [| b m Hb Hm IH]; cbn; [done |]. rewrite bool_decide_false; [done |]. intros E. by rewrite E in Hb.
Qed.

Definition has_true (l : list clause) : Prop := Exists (λ cl, function cl = OVSDB_F_TRUE) l.

Lemma no_true m : Forall (λ b : clause, 2 <= function_number (function b)) m -> ~ has_true m.
Proof. intros Hm (cl & Hin & E)%Exists_exists. rewrite Forall_forall in Hm. specialize (Hm cl Hin). by rewrite E in Hm. Qed.

Lemma n_false_cons cl l : n_false (cl :: l) = ((if bool_decide (function cl = OVSDB_F_FALSE) then 1 else 0) + n_false l)%nat.
Proof. unfold n_false. cbn. by case_bool_decide. Qed.

Abbreviation by_function := (λ a b : clause, function_number (function a) <= function_number (function b)).

Lemma true_first l : StronglySorted by_function l -> function <$> l !! 0%nat = Some OVSDB_F_TRUE <-> n_false l = 0%nat /\ has_true l.
Proof.
  intros [| a l' Hs Ha]; [split; [done | intros [_ H]; by inversion H] |]. change ((a :: l') !! 0%nat) with (Some a). cbn [fmap option_fmap option_map]. rewrite n_false_cons. unfold has_true. rewrite Exists_cons.
  destruct (decide (function a = OVSDB_F_TRUE)) as [E | E].
  { rewrite E in *. rewrite (n_false_none l') by done. split; [by split; [| left] | done]. }
  destruct (decide (function a = OVSDB_F_FALSE)) as [-> |]; [split; [done | by intros []] |].
  split; [by intros [= ?] |]. intros [_ [? | H]]; [done |]. exfalso. revert H. apply no_true. eapply Forall_impl; [exact Ha |]. intros cl. cbv beta.
  destruct (function a); try done; cbn; lia.
Qed.

(** A clause that is true is among the first two unless more than one is false. *)
Lemma true_in_front l : StronglySorted by_function l ->
  function <$> l !! 0%nat = Some OVSDB_F_TRUE \/ function <$> l !! 1%nat = Some OVSDB_F_TRUE <-> (n_false l <= 1)%nat /\ has_true l.
Proof.
  intros Hs. pose proof (true_first l Hs) as H0. destruct Hs as [| a l' Hs Ha]; [split; [by intros [] | intros [_ H]; by inversion H] |].
  change ((a :: l') !! 1%nat) with (l' !! 0%nat). rewrite (true_first l' Hs), H0, n_false_cons. unfold has_true. rewrite Exists_cons.
  case_bool_decide as E; cbn.
  - rewrite E. split; [intros [[]|[]]; split; [lia | by right | lia | by right] |]. intros [? [? | ?]]; [done |]. right. split; [lia | done].
  - rewrite (n_false_none l'); [split; [intros [[? ?] | [? ?]]; auto; lia | intros [? ?]; by left] |].
    eapply Forall_impl; [exact Ha |]. intros cl. cbv beta. destruct (function a); try done; cbn; lia.
Qed.

(** Whether the condition is true of the row. *)
Definition matches (index_map : option (list Z)) row cnd : Prop :=
  clauses cnd = [] \/ Exists (satisfies index_map row) (clauses cnd).

(** A clause that is true does not count when more than one is false. *)
Definition counts cnd cl : Prop := optimized cnd = true -> function cl = OVSDB_F_TRUE -> (n_false (clauses cnd) <= 1)%nat.

Lemma satisfies_true index_map c row cl :
  row_fits index_map c row -> clause_ok c cl -> function cl = OVSDB_F_TRUE -> satisfies index_map row cl.
Proof. intros Hr Hc E. destruct (Hr _ (cl_has_column _ _ Hc)) as (d & Hf & _). exists d. split; [done |]. unfold accepts. by rewrite E. Qed.

Lemma match_optimized index_map c row cnd :
  condition_ok c cnd -> row_fits index_map c row -> optimized cnd = true -> clauses cnd <> [] ->
  exists b, ovsdb_condition_match_any_clause_optimized hash_string hash_int hash_double hash_boolean row cnd index_map = Some b /\
    (b = true <-> Exists (λ cl, satisfies index_map row cl /\ counts cnd cl) (clauses cnd)).
Proof.
  intros Hcnd Hr Ho Hne. pose proof (cnd_clauses _ _ Hcnd) as Hcl. rewrite Forall_forall in Hcl.
  destruct (cnd_optimized _ _ Hcnd Ho) as (Hf & oc & Hoc & Ht). rewrite Forall_forall in Hf.
  pose proof (true_in_front _ (cnd_sorted _ _ Hcnd)) as Hfront.
  unfold ovsdb_condition_match_any_clause_optimized, ovsdb_condition_is_true, ovsdb_condition_empty, function_at.
  destruct (Nat.eqb_spec (length (clauses cnd)) 0) as [H0%length_zero_iff_nil | _]; [done |]. cbn [orb]. destruct (_ || _) eqn:E.
  { exists true. split; [done |]. split; [intros _ | done].
    apply orb_true_iff in E. rewrite !bool_decide_eq_true in E. apply Hfront in E as [Hn (cl & Hin & Et)%Exists_exists].
    apply Exists_exists. exists cl. split; [done |]. split; [by apply (satisfies_true _ c); [| apply Hcl |] | by intros _ _]. }
  assert (~ ((n_false (clauses cnd) <= 1)%nat /\ has_true (clauses cnd))) as Hnt.
  { rewrite <- Hfront. apply orb_false_iff in E as [?%bool_decide_eq_false ?%bool_decide_eq_false]. by intros [? | ?]. }
  assert (forall name o, (name, o) ∈ shash_nodes (o_columns cnd) <-> oc !! name = Some o) as Hnodes.
  { intros name o. rewrite (nodes_perm _ _ _ Hoc). apply elem_of_map_to_list. }
  assert (forall cl, cl ∈ List.filter (λ cl, bool_decide (function cl = OVSDB_F_EQ)) (clauses cnd) <-> cl ∈ clauses cnd /\ function cl = OVSDB_F_EQ) as Hfl.
  { intros cl. by rewrite !list_elem_of_In, filter_In, bool_decide_eq_true. }
  destruct (any_o_column_spec index_map c row (shash_nodes (o_columns cnd)) Hr) as (b & Eb & Hb).
  { apply Forall_forall. intros [name o] Hin%Hnodes. cbn. destruct (tables_column _ _ _ Ht name o Hin) as (_ & ? & ? & _). split_and!; [done.. |].
    apply Forall_forall. intros a Ha. destruct (tables_args _ _ _ Ht name o a Hin Ha) as (cl & [Hin' _]%Hfl & <- & <-). apply Hcl, Hin'. }
  exists b. split; [done |]. rewrite Hb, !Exists_exists. split.
  - intros ([name o] & Hin%Hnodes & d & Hd & Ha). cbn in *. destruct (tables_args _ _ _ Ht name o d Hin Ha) as (cl & [Hin' Ef]%Hfl & Ec & <-).
    exists cl. split; [done |]. split; [| intros _; congruence]. exists (arg cl). rewrite Ec. split; [done |]. unfold accepts. by rewrite Ef.
  - intros (cl & Hin & (d & Hd & Hacc) & Hcount). specialize (Hf cl Hin). unfold accepts in Hacc. destruct (function cl) eqn:Ef; try done.
    + exfalso. apply Hnt. split; [by apply Hcount |]. apply Exists_exists. by exists cl.
    + destruct (tables_clause _ _ _ Ht cl) as (o & Eo & Ha); [by apply Hfl |]. exists (col_name (column cl), o). split; [by apply Hnodes |].
      exists d. rewrite <- Hacc in Ha. cbn. destruct (tables_column _ _ _ Ht _ o Eo) as (En & Hc & _). unfold has_column in Hc. rewrite En in Hc.
      pose proof (cl_has_column _ _ (Hcl cl Hin)) as Hc'. unfold has_column in Hc'. assert (oc_column o = column cl) as -> by congruence. done.
Qed.

(** The answer for a condition that has clauses. *)
Lemma match_any_spec index_map c row cnd :
  condition_ok c cnd -> row_fits index_map c row -> clauses cnd <> [] ->
  exists b, ovsdb_condition_match_any_clause hash_string hash_int hash_double hash_boolean row cnd index_map = Some b /\
    (b = true <-> Exists (λ cl, satisfies index_map row cl /\ counts cnd cl) (clauses cnd)).
Proof.
  intros Hcnd Hr Hne. unfold ovsdb_condition_match_any_clause. destruct (optimized cnd) eqn:Eo; [by apply (match_optimized _ c) |].
  destruct (any_spec index_map c row (clauses cnd) Hr (cnd_clauses _ _ Hcnd)) as (b & E & Hb). exists b. split; [done |]. rewrite Hb.
  unfold counts. rewrite Eo, !Exists_exists. split; intros (cl & Hin & H); exists cl; [done | by destruct H].
Qed.

(** ** Conditions that were read *)

Context (qsort : forall X : Type, (X -> X -> Z) -> list X -> list X).
Context (Hqsort : forall X (cmp : X -> X -> Z) P l, total_on cmp P -> Forall P l ->
  qsort X cmp l ≡ₚ l /\ StronglySorted (λ x y, cmp x y <= 0) (qsort X cmp l)).

Definition is_false j : bool := match j with JSON_FALSE => true | _ => false end.

Definition clauses_cost (elems : list json) : Z := foldr (λ j n, clause_cost j + n) 0 elems.

Lemma clauses_cost_nonneg elems : 0 <= clauses_cost elems.
Proof. unfold clauses_cost. induction elems as [| j elems IH]; cbn [foldr]; [lia |]. pose proof (clause_cost_nonneg j). lia. Qed.

(** Clauses are only equalities and constants as long as the condition is optimized. *)
Record reading c cnd : Prop := {
  rd_clauses : Forall (clause_ok c) (clauses cnd);
  rd_optimized : optimized cnd = true -> Forall (λ cl : clause, function_number (function cl) <= 2) (clauses cnd);
  rd_columns : o_columns cnd = shash_init;
}.

Lemma n_false_app l m : n_false (l ++ m) = (n_false l + n_false m)%nat.
Proof. unfold n_false. by rewrite List.filter_app, length_app. Qed.

Lemma clauses_from_json_safe ts c elems cnd :
  columns_ok hash_string ts c -> std_columns c -> Forall (wf hash_string) elems -> Forall (λ j, names_constant j = false) elems -> reading c cnd ->
  safe hash_string false (clauses_cost elems) (clauses_from_json hash_string uuid_generate ts elems cnd)
    (λ cnd', reading c cnd' /\ length (clauses cnd') = (length (clauses cnd) + length elems)%nat /\
       n_false (clauses cnd') = (n_false (clauses cnd) + length (List.filter is_false elems))%nat).
Proof.
  intros Hts Hc Hj Hk. revert cnd. induction Hj as [| j elems Hj Hjs IH]; intros cnd Hcnd; cbn [clauses_from_json clauses_cost foldr].
  { apply safe_ret. cbn. rewrite !Nat.add_0_r. done. }
  apply Forall_cons in Hk as [Hkj Hk]. fold (clauses_cost elems). pose proof (clauses_cost_nonneg elems). pose proof (clause_cost_nonneg j).
  eapply safe_bind; [lia | lia | by apply (clause_from_json_safe ts c) |]. intros cl [Hcl Hf]. cbv zeta.
  set (cnd1 := if _ >? _ then _ else _).
  assert (reading c cnd1 /\ clauses cnd1 = clauses cnd ++ [cl]) as [H1 E1].
  { destruct Hcnd as [R1 R2 R3]. subst cnd1. change (function_number OVSDB_F_EQ) with 2.
    rewrite Z.gtb_ltb. destruct (Z.ltb_spec 2 (function_number (function cl))); rsimpl; (split; [split; rsimpl; try done | done]).
    - rewrite Forall_app. by split; [| constructor].
    - rewrite Forall_app. by split; [| constructor].
    - intros Ho. rewrite Forall_app. split; [by apply R2 | by constructor]. }
  eapply safe_weaken; [reflexivity | | by apply IH]. intros cnd' (H2 & El & En). split; [done |].
  rewrite El, En, E1, n_false_app, length_app, n_false_cons. cbn [length List.filter].
  assert (bool_decide (function cl = OVSDB_F_FALSE) = is_false j) as ->; [| destruct (is_false j); cbn; split; lia].
  case_bool_decide as Ef; [by rewrite (proj1 Hf Ef) |]. destruct j; try done. by destruct Ef; apply Hf.
Qed.

(** Filling the tables of the clauses. *)
Lemma optimize_ok c cnd :
  reading c cnd -> StronglySorted by_function (clauses cnd) -> in_u 64 (Z.of_nat (length (clauses cnd))) ->
  condition_ok c (ovsdb_condition_optimize hash_string hash_int hash_double hash_boolean cnd) /\
  clauses (ovsdb_condition_optimize hash_string hash_int hash_double hash_boolean cnd) = clauses cnd.
Proof.
  intros [R1 R2 R3] Hs Hl. unfold ovsdb_condition_optimize. destruct (optimized cnd) eqn:Eo; cbn [negb]; rsimpl; (split; [| done]); split; rsimpl; try done; [| congruence].
  intros _. split; [by apply R2 |]. rewrite R3.
  assert (tables c ∅ []) as Ht0.
  { split; [done | intros *; by rewrite lookup_empty | intros *; by rewrite lookup_empty | intros ? ?%not_elem_of_nil; done]. }
  apply (optimize_tables c shash_init ∅ [] _ (init_contents hash_string) Ht0).
  - rewrite Forall_forall in R1 |- *. intros cl Hin. apply list_elem_of_In, filter_In in Hin as [Hin _]. apply R1. by apply list_elem_of_In.
  - cbn. pose proof (filter_length_le (λ cl, bool_decide (function cl = OVSDB_F_EQ)) (clauses cnd)). unfold in_u in *. lia.
Qed.

Lemma condition_from_json_safe ts c elems :
  columns_ok hash_string ts c -> std_columns c -> wf hash_string (JSON_ARRAY elems) -> Forall (λ j, names_constant j = false) elems ->
  safe hash_string false (clauses_cost elems)
    (ovsdb_condition_from_json hash_string uuid_generate hash_int hash_double hash_boolean qsort ts (JSON_ARRAY elems))
    (λ cnd, condition_ok c cnd /\ length (clauses cnd) = length elems /\ n_false (clauses cnd) = length (List.filter is_false elems)).
Proof.
  intros Hts Hc [Hl Hj]%wf_array Hk. unfold ovsdb_condition_from_json. cbn [json_array].
  lazymatch goal with |- context [bind (of_option (Some elems)) ?f] => change (bind (of_option (Some elems)) f) with (f elems); cbv beta end.
  rewrite <- (Z.add_0_r (clauses_cost elems)). eapply safe_bind; [apply clauses_cost_nonneg | lia | apply (clauses_from_json_safe ts c); try done |].
  intros cnd ([R1 R2 R3] & El & En). apply safe_ret. cbn in El, En.
  destruct (Hqsort _ _ _ (clauses cnd) (ordered_total _ _ (clauses_ordered ts c Hts)) R1) as [Hp Hs].
  set (l := qsort _ _ (clauses cnd)) in *.
  assert (StronglySorted by_function l) as Hs'.
  { clear -Hs. induction Hs as [| a l Hs IH Ha]; constructor; [done |]. eapply Forall_impl; [exact Ha |]. intros b. apply compare_functions. }
  assert (Forall (clause_ok c) l) as Hok by (by rewrite Hp).
  assert (length l = length elems /\ n_false l = length (List.filter is_false elems)) as Hn.
  { rewrite <- En, <- El. split; [by rewrite Hp |]. unfold n_false. clear -Hp. apply Permutation_length. induction Hp; cbn; repeat case_bool_decide; eauto using perm_swap, perm_trans. }
  destruct (optimize_ok c (cnd <| clauses ::= qsort clause compare_clauses_3way_with_data |>)) as [H1 H2].
  - split; rsimpl; [done | | done]. intros Ho. fold l. rewrite Hp. by apply R2.
  - rsimpl. done.
  - rsimpl. fold l. rewrite (proj1 Hn). unfold in_u, DATUM_MAX in *. lia.
  - split; [done |]. rewrite H2. rsimpl. done.
Qed.

(** Each clause of the condition was read from one element of the array. *)
Definition reads ts j cl : Prop := exists s s', ovsdb_clause_from_json hash_string uuid_generate ts j s = (Value cl, s').

Lemma clauses_read ts elems cnd (s : symtab) cnd' s' :
  clauses_from_json hash_string uuid_generate ts elems cnd s = (Value cnd', s') ->
  exists l, clauses cnd' = clauses cnd ++ l /\ Forall2 (reads ts) elems l.
Proof.
  revert cnd s. induction elems as [| j elems IH]; intros cnd s; cbn [clauses_from_json].
  { intros [= <- _]. exists []. by rewrite app_nil_r. }
  unfold bind at 1. destruct (ovsdb_clause_from_json _ _ ts j s) as [[cl | |] s1] eqn:E; [| done | done]. cbv zeta. intros (l & El & Hl)%IH.
  exists (cl :: l). split; [rewrite El; destruct (_ >? _); rsimpl; by rewrite <- app_assoc | constructor; [by exists s, s1 | done]].
Qed.

Lemma condition_read ts c elems N (s : symtab) cnd s' :
  columns_ok hash_string ts c -> std_columns c -> wf hash_string (JSON_ARRAY elems) -> Forall (λ j, names_constant j = false) elems ->
  symtab_ok hash_string N s -> N + clauses_cost elems <= SYMBOLS_MAX ->
  ovsdb_condition_from_json hash_string uuid_generate hash_int hash_double hash_boolean qsort ts (JSON_ARRAY elems) s = (Value cnd, s') ->
  exists l, Forall2 (reads ts) elems l /\ clauses cnd ≡ₚ l.
Proof.
  intros Hts Hc [_ Hj]%wf_array Hk Hs HN. unfold ovsdb_condition_from_json, bind. cbn [json_array of_option ret].
  assert (reading c ovsdb_condition_init) as Hi by (split; [constructor | intros _; constructor | done]).
  pose proof (clauses_from_json_safe ts c elems _ Hts Hc Hj Hk Hi N s Hs ltac:(done) HN) as H.
  destruct (clauses_from_json _ _ ts elems _ s) as [[cnd1 | |] s1] eqn:E; [| done | done]. intros [= <- _]. destruct H as (_ & _ & Hrd & _).
  apply clauses_read in E as (l & El & Hl). exists l. split; [done |]. cbn in El.
  destruct (Hqsort _ _ _ (clauses cnd1) (ordered_total _ _ (clauses_ordered ts c Hts)) (rd_clauses _ _ Hrd)) as [Hp _].
  rewrite <- El. unfold ovsdb_condition_optimize. by destruct (negb _); rsimpl.
Qed.

(** ** Copies *)

Lemma clone_clause_ok c cl : clause_ok c cl -> clause_ok c (ovsdb_clause_clone cl).
Proof. intros []. by split. Qed.

Lemma clone_ok c cnd :
  condition_ok c cnd -> in_u 64 (Z.of_nat (length (clauses cnd))) ->
  condition_ok c (ovsdb_condition_clone hash_string hash_int hash_double hash_boolean cnd) /\
  clauses (ovsdb_condition_clone hash_string hash_int hash_double hash_boolean cnd) = List.map ovsdb_clause_clone (clauses cnd) /\
  optimized (ovsdb_condition_clone hash_string hash_int hash_double hash_boolean cnd) = optimized cnd.
Proof.
  intros [Hc Hs Ho] Hl. unfold ovsdb_condition_clone. cbv zeta.
  set (to := ovsdb_condition_init <| clauses := _ |> <| optimized := optimized cnd |>).
  assert (reading c to /\ StronglySorted by_function (clauses to)) as [Hr Hs'].
  { subst to. split; [split |]; rsimpl.
    - apply Forall_fmap. eapply Forall_impl; [exact Hc |]. intros cl. apply clone_clause_ok.
    - intros E. apply Forall_fmap. eapply Forall_impl; [apply (Ho E) |]. done.
    - done.
    - clear -Hs. induction Hs as [| a l Hs IH Ha]; cbn; constructor; [done |]. apply Forall_fmap. eapply Forall_impl; [exact Ha |]. done. }
  destruct (optimize_ok c to Hr Hs') as [H1 H2]; [subst to; rsimpl; by rewrite length_map |].
  assert (optimized to = optimized cnd) as Eto by done. rewrite Eto. destruct (optimized cnd) eqn:Eo.
  - split; [done |]. split; [done |]. unfold ovsdb_condition_optimize. rewrite Eto. done.
  - split; [| done]. unfold ovsdb_condition_optimize in H1. by rewrite Eto in H1.
Qed.

(** A copy matches the same rows. *)
Lemma clone_matches index_map c row cnd :
  condition_ok c cnd -> row_fits index_map c row -> clauses cnd <> [] -> in_u 64 (Z.of_nat (length (clauses cnd))) ->
  let matching cnd := ovsdb_condition_match_any_clause hash_string hash_int hash_double hash_boolean row cnd index_map in
  matching (ovsdb_condition_clone hash_string hash_int hash_double hash_boolean cnd) = matching cnd.
Proof.
  intros Hc Hr Hne Hl. cbv zeta. destruct (clone_ok c cnd Hc Hl) as (Hc' & El & Eo).
  destruct (match_any_spec index_map c row cnd Hc Hr Hne) as (b & -> & Hb).
  destruct (match_any_spec index_map c row _ Hc' Hr) as (b' & -> & Hb'); [rewrite El; by intros H%map_eq_nil |].
  f_equal. apply eq_true_iff_eq. rewrite Hb, Hb', El, !Exists_exists. unfold counts. rewrite Eo, El.
  assert (n_false (List.map ovsdb_clause_clone (clauses cnd)) = n_false (clauses cnd)) as ->.
  { clear. induction (clauses cnd) as [| cl l IH]; cbn [List.map]; [done |]. by rewrite !n_false_cons, IH. }
  split.
  - intros (cl' & (cl & -> & Hin)%list_elem_of_fmap & H). by exists cl.
  - intros (cl & Hin & H). exists (ovsdb_clause_clone cl). split; [| done]. apply list_elem_of_fmap. by exists cl.
Qed.
End condition.
End OvsdbConditionThms.
