(* ===== verification/OvsdbDbProps.v ===== *)
(** Properties of database tables: schemas, rows, conditions and mutations. *)
From stdpp Require Import gmap sorting.
From S2P Require Import Prelude Text Hmap Unicode Containers Shash Json JsonLex JsonNumber JsonParse JsonRoundtrip JsonProps Sort Uuid OvsdbTypes OvsdbData OvsdbDatum OvsdbSets OvsdbJson OvsdbJsonThms OvsdbTypeThms OvsdbProps OvsdbSchema OvsdbCondition OvsdbMutation OvsdbArith OvsdbSchemaThms OvsdbMutationThms OvsdbConditionThms.

Module OvsdbDbProps.
Import JsonParse.
Export OvsdbMutationThms OvsdbConditionThms.

Section properties.
Context {T R : Type} {HT : HashTable T} {HTok : HashTableOk T}.
Context {D : Double R} {DO : DoubleOrder R} {Dok : DoubleOk R} {DA : DoubleArith R} {DAok : DoubleArithOk R}.
Context {So : Sorting} {Sok : SortingOk So}.
Context (hash_string : chars -> Z -> Z) (uuid_generate : nat -> uuid).
Context (Hgen : forall k, uuid_ok (uuid_generate k)).

Abbreviation datum := (ovsdb_datum R).
Abbreviation json := (Json.json T R).
Abbreviation col_t := (ovsdb_column R).
Abbreviation schema := (ovsdb_table_schema T R).
Abbreviation symtab := (option (ovsdb_symbol_table T)).
Implicit Types (j : json) (d : datum) (ty : ovsdb_type R) (col : col_t) (ts : schema) (c : gmap chars col_t) (row : list datum).

(** ** Schemas and rows *)

(** C26: from bytes to schemas.  Whatever bytes the JSON parser is fed, it returns an error message
    or a value from which the schema of a table can be read: no assertion fails and no null
    pointer is used; the result is an error or a schema whose columns have distinct names and
    the numbers below their count, types that are well formed, the columns of every table with
    their fixed numbers, and indexes that are on distinct stored columns of the table. *)
Theorem schema_from_bytes_safe fl pieces (name : chars) :
  2 * Z.of_nat (length (concat pieces)) + 1 < DATUM_MAX ->
  exists p j, feed_pieces hash_string fl pieces = Some p /\ json_parser_finish hash_string p = Some j /\
    ((exists message, j = JSON_STRING message) \/
     returns (ovsdb_table_schema_from_json hash_string uuid_generate j name) (schema_ok hash_string)).
Proof.
  intros Hf. destruct (OvsdbProps.parses_wf hash_string fl pieces Hf) as (p & j & Ep & Ej & Hj). exists p, j. split; [done |]. split; [done |].
  destruct Hj as [Hj | Hj]; [by left | right]. by apply schema_from_json_safe.
Qed.

(** C25: rows survive JSON.  The JSON of some columns of a row, read into a new row of the same
    table, gives these columns their data back and leaves the defaults in the others; the columns
    that are reported as read are those that were written. *)
Theorem row_json_roundtrip ts c row set (s : symtab) :
  schema_holds hash_string ts c -> row_holds valid c row ->
  Forall (has_column c) set -> NoDup (List.map col_name set) -> Z.of_nat (length set) < 2 ^ 63 ->
  exists j row' included, ovsdb_row_to_json hash_string row set = Some j /\
    ovsdb_row_from_json hash_string uuid_generate ts (ovsdb_row_create ts) j s = (Value (row', included), s) /\
    row_holds typed c row' /\ included ≡ₚ set /\
    forall k col, c !! k = Some col ->
      get_field row' col = if decide (k ∈ List.map col_name set) then get_field row col else get_field (ovsdb_row_create ts) col.
Proof.
  intros [Hts _ _ _] Hr Hc Hd Hl. apply (row_roundtrips hash_string uuid_generate ts c); try done. by apply (row_create_typed hash_string).
Qed.

(** ** Mutations *)

(** C27: 64-bit arithmetic in mutations.  Sums and differences, which the code checks by the
    bits of their signs, quotients and remainders are exact, or an error if they do not fit; so
    are products where a factor is positive, but for one product of each positive number that
    fits and is refused. *)
Theorem integer_arithmetic_exact x y :
  in64 x -> in64 y ->
  add_int x y = checked (x + y) /\ sub_int x y = checked (x - y) /\
  div_int x y = (if y =? 0 then Error ME_DOM else checked (Z.quot x y)) /\
  mod_int x y = (if y =? 0 then Error ME_DOM else if bool_decide (in64 (Z.quot x y)) then Value (Z.rem x y) else Error ME_RANGE) /\
  (0 < x \/ 0 < y ->
   mul_int x y = if (0 <? x) && (0 <? y) && (x =? LLONG_MAX / y) then Error ME_RANGE else checked (x * y)).
Proof.
  intros Hx Hy. split_and!; [by apply add_int_exact | by apply sub_int_exact | by apply div_int_exact | by apply mod_int_exact |].
  intros. by apply mul_int_positive.
Qed.

(** C34: products of numbers that are not positive.  The check of two such factors divides by the
    wrong one: a negative number times zero divides by zero, the least number times -2 overflows,
    -1 times -4000000000 is refused; and of positive factors the greatest product is refused. *)
Theorem integer_product_wrong :
  (forall x, x < 0 -> mul_int x 0 = Crash) /\
  mul_int LLONG_MIN (-2) = Crash /\
  mul_int (-1) (-4000000000) = Error ME_RANGE /\
  (forall y, 0 < y <= LLONG_MAX -> mul_int (LLONG_MAX / y) y = Error ME_RANGE /\ in64 (LLONG_MAX / y * y)).
Proof.
  split; [apply mul_int_zero |]. split; [by vm_compute |]. split; [by vm_compute |]. intros y Hy.
  pose proof (Z.div_mod LLONG_MAX y ltac:(lia)) as Hdm. pose proof (Z.mod_pos_bound LLONG_MAX y ltac:(lia)).
  pose proof (Z.div_le_lower_bound LLONG_MAX y 1 ltac:(lia) ltac:(lia)) as H1.
  assert (in64 (LLONG_MAX / y) /\ in64 y /\ in64 (LLONG_MAX / y * y)) as (Hq & Hy' & Hp).
  { pose proof (Z.div_le_upper_bound LLONG_MAX y LLONG_MAX ltac:(lia) ltac:(nia)). unfold in64, LLONG_MIN, LLONG_MAX in *. split_and!; lia. }
  split; [| done]. rewrite mul_int_positive by (done || lia).
  by rewrite Z.eqb_refl, !(proj2 (Z.ltb_lt _ _)) by lia.
Qed.

(** C9: mutations keep rows valid.  Reading an array of mutations does not fail an assertion.
    Executed on a row whose data satisfy the constraints of their columns, mutations that were
    read, that multiply integers by positive numbers only and that only add and subtract real
    numbers, give an error or leave a row whose data satisfy the constraints; in turn each
    computes its operation on every element, inserts the elements whose keys are new, or deletes
    the elements or the keys it names. *)
Theorem mutations_keep_rows_valid ts c elems (N : Z) (s : symtab) :
  schema_holds hash_string ts c -> wf hash_string (JSON_ARRAY elems) -> symtab_ok hash_string N s ->
  N + mutations_cost elems <= SYMBOLS_MAX ->
  match (ovsdb_mutation_set_from_json hash_string uuid_generate ts (JSON_ARRAY elems) s).1 with
  | Crash => False
  | Error _ => True
  | Value set =>
      length set = length elems /\
      forall row, Forall harmless set -> row_holds valid c row ->
        Forall (λ d, Z.of_nat (length d + argument_rows set) < DATUM_MAX) row ->
        let '(o, row') := ovsdb_mutation_set_execute set row in
        o <> Crash /\ (o = Value tt -> row_holds valid c row' /\ effects set row row')
  end.
Proof.
  intros [Hts _ _ _] [_ Hj]%wf_array Hs HN.
  pose proof (mutations_from_json_safe hash_string uuid_generate Hgen ts c elems Hts Hj N s Hs ltac:(done) HN) as H.
  change (ovsdb_mutation_set_from_json _ _ ts (JSON_ARRAY elems) s) with (mutations_from_json hash_string uuid_generate ts elems s).
  destruct (mutations_from_json _ _ ts elems s) as [[set | |] s']; cbn [fst]; [| done | by destruct H as (_ & _ & [])].
  destruct H as (_ & _ & Hset & Hl). split; [done |]. intros row. by apply (execute_spec hash_string ts c).
Qed.

(** ** Conditions *)

Context (hash_int : Z -> Z -> Z) (hash_double : R -> Z -> Z) (hash_boolean : bool -> Z -> Z).
Context (qsort : forall X : Type, (X -> X -> Z) -> list X -> list X).
(** The C library's [qsort] sorts when the comparison is a total order of the elements. *)
Context (Hqsort : forall X (cmp : X -> X -> Z) P l, total_on cmp P -> Forall P l ->
  qsort X cmp l ≡ₚ l /\ StronglySorted (λ x y, cmp x y <= 0) (qsort X cmp l)).

Abbreviation from_json := (ovsdb_condition_from_json hash_string uuid_generate hash_int hash_double hash_boolean qsort).
Abbreviation empty_or_match_any := (ovsdb_condition_empty_or_match_any hash_string hash_int hash_double hash_boolean).

(** Constant clauses are not named by strings, and at most one of them is false. *)
Definition plain_constants (elems : list json) : Prop :=
  Forall (λ j, names_constant j = false) elems /\ (length (List.filter is_false elems) <= 1)%nat.

Lemma match_any_clauses index_map c row (cnd : ovsdb_condition T R) :
  condition_ok hash_string hash_int hash_double hash_boolean c cnd -> row_fits index_map c row -> (n_false (clauses cnd) <= 1)%nat ->
  exists b, empty_or_match_any row cnd index_map = Some b /\
    (b = true <-> clauses cnd = [] \/ Exists (satisfies index_map row) (clauses cnd)).
Proof.
  intros Hc Hr Hn. unfold ovsdb_condition_empty_or_match_any, ovsdb_condition_empty. destruct (Nat.eqb_spec (length (clauses cnd)) 0) as [E | E].
  { apply length_zero_iff_nil in E. exists true. split; [done |]. split; [by left | done]. }
  destruct (match_any_spec hash_string hash_int hash_double hash_boolean index_map c row cnd Hc Hr) as (b & Eb & Hb); [by intros H; rewrite H in E |].
  exists b. split; [done |]. rewrite Hb, !Exists_exists. split.
  - intros (cl & Hin & H & _). right. by exists cl.
  - intros [H | (cl & Hin & H)]; [by rewrite H in E |]. exists cl. split; [done |]. split; [done | by intros _ _].
Qed.

(** C8: conditions mean what their functions say.  Reading an array of clauses does not fail an
    assertion, unless a clause names a constant function.  The clauses of the condition are then
    those of the array in another order, and on every row of the table, whose columns may be at
    other places, both ways of matching give an answer: the row matches every clause, or it
    matches some clause or there is none.  The latter holds for clauses that are tried in turn
    and for the hash tables that replace them when all are equalities or constants, provided that
    at most one clause is the constant false. *)
Theorem condition_match_exact ts c elems (N : Z) (s : symtab) :
  schema_holds hash_string ts c -> wf hash_string (JSON_ARRAY elems) -> plain_constants elems ->
  symtab_ok hash_string N s -> N + clauses_cost elems <= SYMBOLS_MAX ->
  match (from_json ts (JSON_ARRAY elems) s).1 with
  | Crash => False
  | Error _ => True
  | Value cnd =>
      (exists l, Forall2 (reads hash_string uuid_generate ts) elems l /\ clauses cnd ≡ₚ l) /\
      (forall row, row_fits None c row ->
        exists b, ovsdb_condition_match_every_clause row cnd = Some b /\ (b = true <-> Forall (satisfies None row) (clauses cnd))) /\
      (forall index_map row, row_fits index_map c row ->
        exists b, empty_or_match_any row cnd index_map = Some b /\
          (b = true <-> clauses cnd = [] \/ Exists (satisfies index_map row) (clauses cnd)))
  end.
Proof.
  intros [Hts Hstd _ _] Hj [Hk Hf] Hs HN.
  pose proof (condition_from_json_safe hash_string uuid_generate Hgen hash_int hash_double hash_boolean qsort Hqsort ts c elems Hts Hstd Hj Hk N s Hs
    ltac:(done) HN) as H.
  destruct (from_json ts (JSON_ARRAY elems) s) as [[cnd | |] s'] eqn:E; cbn [fst]; [| done | by destruct H as (_ & _ & [])].
  destruct H as (_ & _ & Hc & Hl & Hn). split; [| split].
  - by apply (condition_read hash_string uuid_generate Hgen hash_int hash_double hash_boolean qsort Hqsort ts c elems N s cnd s').
  - intros row Hr. apply (every_spec None c row (clauses cnd) Hr), Hc.
  - intros index_map row Hr. apply (match_any_clauses index_map c); [done | done | by rewrite Hn].
Qed.

(** Conditions of constants are read. *)
Lemma constant_reads ts c (b : bool) (s : symtab) :
  schema_holds hash_string ts c -> exists cl,
    ovsdb_clause_from_json hash_string uuid_generate ts (if b then JSON_TRUE else JSON_FALSE) s = (Value cl, s) /\
    function cl = if b then OVSDB_F_TRUE else OVSDB_F_FALSE.
Proof.
  intros [Hts [Hstd _] _ _]. destruct b; cbn [ovsdb_clause_from_json]; rewrite (get_column hash_string ts c), Hstd by done; by eexists.
Qed.

Lemma constants_read ts c (constants : list bool) (cnd : ovsdb_condition T R) (s : symtab) :
  schema_holds hash_string ts c ->
  exists cnd', clauses_from_json hash_string uuid_generate ts ((λ b : bool, if b then JSON_TRUE else JSON_FALSE) <$> constants) cnd s = (Value cnd', s) /\
    optimized cnd' = optimized cnd.
Proof.
  intros Hts. revert cnd. induction constants as [| b l IH]; intros cnd; [by exists cnd |].
  cbn [fmap list_fmap clauses_from_json]. unfold bind at 1. destruct (constant_reads ts c b s Hts) as (cl & -> & Ef).
  cbv zeta. destruct (_ >? _) eqn:E; [rewrite Ef in E; by destruct b |].
  match goal with |- context [clauses_from_json _ _ ts _ ?x s] => destruct (IH x) as (cnd' & E' & Eo) end.
  exists cnd'. split; [exact E' |]. by rewrite Eo.
Qed.

Lemma constant_function ts c (b : bool) (cl : ovsdb_clause R) :
  schema_holds hash_string ts c -> reads hash_string uuid_generate ts (if b then JSON_TRUE else JSON_FALSE) cl ->
  function cl = if b then OVSDB_F_TRUE else OVSDB_F_FALSE.
Proof. intros Hts (s & s' & E). destruct (constant_reads ts c b s Hts) as (cl' & E' & Ef). congruence. Qed.

(** True is lost in a condition with two clauses that are false. *)
Lemma true_lost index_map c row (cnd : ovsdb_condition T R) t a b :
  condition_ok hash_string hash_int hash_double hash_boolean c cnd -> row_fits index_map c row -> optimized cnd = true ->
  clauses cnd ≡ₚ [a; b; t] -> function a = OVSDB_F_FALSE -> function b = OVSDB_F_FALSE -> function t = OVSDB_F_TRUE ->
  (2 <= n_false (clauses cnd))%nat ->
  Exists (satisfies index_map row) (clauses cnd) /\ empty_or_match_any row cnd index_map = Some false.
Proof.
  intros Hc Hr Ho Hp Ha Hb Ht Hn. pose proof (cnd_clauses _ _ _ _ _ _ Hc) as Hcl. rewrite Forall_forall in Hcl. split.
  { apply Exists_exists. exists t. assert (t ∈ clauses cnd) as Hin by (rewrite Hp; by do 2 right; left).
    split; [done |]. by apply (satisfies_true _ c); [| apply Hcl |]. }
  assert (clauses cnd <> []) as Hne by (intros H; rewrite H in Hn; cbn in Hn; lia).
  unfold ovsdb_condition_empty_or_match_any, ovsdb_condition_empty. destruct (Nat.eqb_spec (length (clauses cnd)) 0) as [H%length_zero_iff_nil |]; [done |].
  destruct (match_any_spec hash_string hash_int hash_double hash_boolean index_map c row cnd Hc Hr Hne) as (r & -> & Hb'). f_equal.
  apply not_true_iff_false. rewrite Hb', Exists_exists. intros (cl & Hin & (d & _ & Hacc) & Hcount). rewrite Hp in Hin. unfold accepts in Hacc.
  rewrite !elem_of_cons in Hin. destruct Hin as [-> | [-> | [-> | Hin%not_elem_of_nil]]]; [by rewrite Ha in Hacc | by rewrite Hb in Hacc | | done].
  specialize (Hcount Ho Ht). lia.
Qed.

(** C33: conditions with constants go wrong in two ways.  A clause that gives the function of an
    existing column as the name of a constant stops the program, since these names are in the
    table of functions.  And a condition that has the clause true matches no row when it has the
    clause false twice, since only the first two clauses are looked at. *)
Theorem constant_clauses_wrong ts c :
  schema_holds hash_string ts c ->
  (forall (name f : chars) v (s : symtab), is_Some (c !! name) -> f = str "true" \/ f = str "false" ->
    from_json ts (JSON_ARRAY [JSON_ARRAY [JSON_STRING name; JSON_STRING f; v]]) s = (Crash, s)) /\
  (exists cnd, from_json ts (JSON_ARRAY [JSON_FALSE; JSON_FALSE; JSON_TRUE]) None = (Value cnd, None) /\
    forall index_map row, row_fits index_map c row ->
      Exists (satisfies index_map row) (clauses cnd) /\ empty_or_match_any row cnd index_map = Some false).
Proof.
  intros Hts. split.
  - intros name f v s Hn Hf. unfold ovsdb_condition_from_json, bind. cbn [json_array of_option ret clauses_from_json]. unfold bind.
    rewrite (constant_clause_crashes hash_string uuid_generate ts c); [done | apply Hts | |].
    + cbn. by destruct Hf as [-> | ->].
    + by intros ? ? ? [= <- _ _].
  - set (elems := [JSON_FALSE; JSON_FALSE; JSON_TRUE] : list json).
    assert (wf hash_string (JSON_ARRAY elems)) as Hj by (exists 3, 2%nat; split; [done | split; [done |]; repeat constructor]).
    assert (Forall (λ j, names_constant j = false) elems) as Hk by (by repeat constructor).
    pose proof (condition_from_json_safe hash_string uuid_generate Hgen hash_int hash_double hash_boolean qsort Hqsort ts c elems
      (schema_columns_ok _ _ _ Hts) (schema_std _ _ _ Hts) Hj Hk 0 None I ltac:(done) ltac:(done)) as H.
    destruct (constants_read ts c [false; false; true] ovsdb_condition_init None Hts) as (cnd1 & E1 & Eo).
    set (cnd := ovsdb_condition_optimize hash_string hash_int hash_double hash_boolean (cnd1 <| clauses ::= qsort _ compare_clauses_3way_with_data |>)).
    assert (from_json ts (JSON_ARRAY elems) None = (Value cnd, None)) as E.
    { unfold ovsdb_condition_from_json, bind. cbn [json_array of_option ret]. subst elems. cbn [fmap list_fmap] in E1. by rewrite E1. }
    assert (optimized cnd = true) as Ho by (subst cnd; unfold ovsdb_condition_optimize; rsimpl; by rewrite Eo).
    exists cnd. split; [done |]. rewrite E in H. destruct H as (_ & _ & Hc & _ & Hn). intros index_map row Hr.
    destruct (condition_read hash_string uuid_generate Hgen hash_int hash_double hash_boolean qsort Hqsort ts c elems 0 None cnd None
      (schema_columns_ok _ _ _ Hts) (schema_std _ _ _ Hts) Hj Hk I ltac:(done) E) as (l & Hread & Hp). subst elems.
    inversion Hread as [| ? a ? l1 Ha H1]; subst. inversion H1 as [| ? b ? l2 Hb H2]; subst. inversion H2 as [| ? t ? l3 Ht H3]; subst. inversion H3; subst.
    apply (true_lost index_map c row cnd t a b); [done | done | done | done | | | | by rewrite Hn].
    + by apply (constant_function ts c false a).
    + by apply (constant_function ts c false b).
    + by apply (constant_function ts c true t).
Qed.
End properties.

(** ** Witnesses *)

#[local] Existing Instances OvsdbProps.tenths OvsdbProps.tenths_order OvsdbProps.tenths_ok OvsdbProps.example_sorting OvsdbProps.example_sorting_ok.

#[local] Instance tenths_arith : DoubleArith Z := {
  double_add := Z.add; double_sub := Z.sub; double_mul x y := x * y / 10; double_div x y := 10 * x / y;
}.

#[local] Instance tenths_arith_ok : DoubleArithOk Z.
Proof. split; intros x y _ _; unfold double_leb, canonical; cbn; unfold OvsdbProps.TENTHS_MAX; lia. Defined.

Section insertion.
Context {X : Type} (cmp : X -> X -> Z).

Fixpoint insert_by (x : X) (l : list X) : list X :=
  match l with [] => [x] | y :: l => if cmp x y <=? 0 then x :: y :: l else y :: insert_by x l end.

Lemma insert_by_perm x l : insert_by x l ≡ₚ x :: l.
Proof. induction l as [| y l IH]; cbn; [done |]. destruct (_ <=? _); [done |]. rewrite IH. constructor. Qed.

Lemma insert_by_sorted P x l : total_on cmp P -> P x -> Forall P l ->
  StronglySorted (λ x y, cmp x y <= 0) l -> StronglySorted (λ x y, cmp x y <= 0) (insert_by x l).
Proof.
  intros Ho Hx Hl Hs. induction Hs as [| y l Hs IH Hy]; cbn [insert_by]; [by repeat constructor |]. apply Forall_cons in Hl as [HPy Hl].
  destruct (Z.leb_spec (cmp x y) 0) as [H | H].
  - constructor; [by constructor |]. constructor; [done |]. rewrite Forall_forall in Hl, Hy |- *. intros z Hz. apply (cmp_trans _ _ Ho x y z); auto.
  - constructor; [by apply IH |]. rewrite insert_by_perm. constructor; [by apply (cmp_total _ _ Ho) | done].
Qed.
End insertion.

(** Insertion in place of the C library's [qsort]. *)
Definition insertion_sort (X : Type) (cmp : X -> X -> Z) (l : list X) : list X := foldr (insert_by cmp) [] l.

Lemma insertion_sorts X (cmp : X -> X -> Z) P l : total_on cmp P -> Forall P l ->
  insertion_sort X cmp l ≡ₚ l /\ StronglySorted (λ x y, cmp x y <= 0) (insertion_sort X cmp l).
Proof.
  intros Ho. induction 1 as [| x l Hx Hl [IH1 IH2]]; cbn [insertion_sort foldr]; [split; [done | constructor] |]. fold (insertion_sort X cmp l).
  split; [rewrite insert_by_perm; by constructor |]. apply (insert_by_sorted cmp P); [done | done | by rewrite IH1 | done].
Qed.

(** A table with a column of sets of integers. *)
Definition numbers : ovsdb_column Z := mk_column 2 (str "n") true true OvsdbProps.int_set.

Definition example_columns : gmap chars (ovsdb_column Z) := <[str "n" := numbers]> only_std_columns.

Definition example_schema : ovsdb_table_schema Hmap.hmap Z :=
  let ts := mk_schema (str "t") true true UINT_MAX shash_init [] in
  default ts (ts ← ovsdb_table_schema_create hash_length (str "t") true UINT_MAX true; snd <$> add_column hash_length ts numbers).

Lemma example_holds : schema_holds hash_length example_schema example_columns.
Proof.
  unfold example_schema. cbv zeta. destruct (schema_create_columns (R := Z) (T := Hmap.hmap) hash_length (str "t") true UINT_MAX true) as (ts & -> & Hts & Hi & Hm).
  cbn [mbind option_bind]. destruct (add_column_ok hash_length ts _ numbers Hts) as (col & ts' & -> & -> & Hts' & Hi' & Hm').
  - done.
  - by repeat constructor.
  - by repeat split.
  - done.
  - cbn [fmap option_fmap option_map snd default from_option id]. split; [exact Hts' | by split | rewrite Hi', Hi; constructor | by rewrite Hm', Hm].
Qed.

Definition no_uuid : ovsdb_datum Z := [(ATOM_UUID uuid_zero, None)].
Definition example_row : list (ovsdb_datum Z) := [no_uuid; no_uuid; OvsdbProps.ints [1; 2]].

Lemma example_row_valid : row_holds valid example_columns example_row.
Proof.
  split; [done |]. unfold example_columns, only_std_columns. intros name col [[_ <-] | [_ [[_ <-] | [_ [[_ <-] | [_ H]]%lookup_insert_Some]]%lookup_insert_Some]]%lookup_insert_Some; [| | | by rewrite lookup_empty in H].
  - exists (OvsdbProps.ints [1; 2]). split; [done |]. split; [by apply OvsdbProps.ints_ok | by split].
  - exists no_uuid. split; [done |]. by repeat split; repeat constructor.
  - exists no_uuid. split; [done |]. by repeat split; repeat constructor.
Qed.

Abbreviation value := (json Hmap.hmap Z).

(** An array of a column, an operation and a number. *)
Definition operation (name : chars) (z : Z) : value := JSON_ARRAY [JSON_STRING (str "n"); JSON_STRING name; JSON_INTEGER z].

Lemma operation_wf name z : no_nul name -> LLONG_MIN <= z <= LLONG_MAX -> wf hash_length (JSON_ARRAY [operation name z]).
Proof.
  intros Hn Hz. exists 3, 3%nat. split; [done |]. split; [done |]. apply Forall_singleton. split; [done |].
  apply Forall_cons_2; [by repeat constructor |]. apply Forall_cons_2; [done |]. apply Forall_cons_2; [done | constructor].
Qed.

Lemma schema_from_bytes_safe_witness :
  exists p (j : value), feed_pieces hash_length 0 [str "{}"] = Some p /\ json_parser_finish hash_length p = Some j /\
    ((exists message, j = JSON_STRING message) \/
     returns (ovsdb_table_schema_from_json hash_length (λ _, uuid_zero) j (str "t")) (schema_ok hash_length)).
Proof. by apply (schema_from_bytes_safe hash_length (λ _, uuid_zero)). Defined.

Lemma row_json_roundtrip_witness :
  exists (j : value) row', ovsdb_row_to_json hash_length example_row [numbers] = Some j /\
    (ovsdb_row_from_json hash_length (λ _, uuid_zero) example_schema (ovsdb_row_create example_schema) j None).1 = Value (row', [numbers]).
Proof.
  destruct (row_json_roundtrip hash_length (λ _, uuid_zero) example_schema example_columns example_row [numbers] None)
    as (j & row' & included & Hto & Hfrom & _ & Hp & _); [exact example_holds | exact example_row_valid | by repeat constructor | by repeat constructor; set_solver | done |].
  exists j, row'. split; [exact Hto |]. rewrite Hfrom. by apply Permutation_singleton_r in Hp as ->.
Defined.

Lemma integer_arithmetic_exact_witness : add_int 1 2 = checked (1 + 2).
Proof. by apply (integer_arithmetic_exact 1 2). Defined.

Lemma mutations_keep_rows_valid_witness :
  match (ovsdb_mutation_set_from_json hash_length (λ _, uuid_zero) example_schema (JSON_ARRAY [operation (str "+=") 1]) None).1 with
  | Value set => length set = 1%nat
  | Error _ => True
  | Crash => False
  end.
Proof.
  pose proof (mutations_keep_rows_valid hash_length (λ _, uuid_zero) ltac:(done) example_schema example_columns [operation (str "+=") 1] 0 None
    example_holds ltac:(apply operation_wf; [by repeat constructor | by unfold LLONG_MIN, LLONG_MAX]) I ltac:(done)) as H.
  destruct (ovsdb_mutation_set_from_json _ _ _ _ _) as [[set | |] s']; [exact (proj1 H) | exact H | exact H].
Defined.

Lemma condition_match_exact_witness :
  match (ovsdb_condition_from_json hash_length (λ _, uuid_zero) (λ x _, x) (λ x _, x) (λ _ _, 0) insertion_sort example_schema
           (JSON_ARRAY [operation (str "includes") 1]) None).1 with
  | Value cnd => exists b, ovsdb_condition_match_every_clause example_row cnd = Some b
  | Error _ => True
  | Crash => False
  end.
Proof.
  pose proof (condition_match_exact hash_length (λ _, uuid_zero) ltac:(done) (λ x _, x) (λ x _, x) (λ _ _, 0) insertion_sort insertion_sorts
    example_schema example_columns [operation (str "includes") 1] 0 None
    example_holds ltac:(apply operation_wf; [by repeat constructor | by unfold LLONG_MIN, LLONG_MAX]) ltac:(split; [by repeat constructor | cbn; lia])
    I ltac:(done)) as H.
  destruct (ovsdb_condition_from_json _ _ _ _ _ _ _ _ _) as [[cnd | |] s']; [| exact H | exact H]. destruct H as (_ & H & _).
  destruct (H example_row) as (b & E & _); [| by exists b].
  intros col Hcol. destruct (proj2 example_row_valid _ _ Hcol) as (d & E & Hd). exists d. split; [exact E |]. split; [exact (proj1 Hd) | exact (proj1 (proj2 Hd))].
Defined.

Lemma constant_clauses_wrong_witness :
  ovsdb_condition_from_json hash_length (λ _, uuid_zero) (λ x _, x) (λ x _, x) (λ _ _, 0) insertion_sort example_schema
    (JSON_ARRAY [operation (str "true") 1]) None = (Crash, None).
Proof.
  apply (constant_clauses_wrong hash_length (λ _, uuid_zero) ltac:(done) (λ x _, x) (λ x _, x) (λ _ _, 0) insertion_sort insertion_sorts
    example_schema example_columns example_holds); [by exists numbers | by left].
Defined.
End OvsdbDbProps.
