(* ===== verification/MacLearning.v ===== *)
(** The MAC learning table (lib/mac-learning.c, lib/mac-learning.h) and two of its users: the
    moves and flushes of ofproto/ofproto-dpif.c and the learning switch of
    lib/learning-switch.c.  The table is a client of the hash table and priority queue
    interfaces.  Failed assertions and uses of missing nodes are [None]. *)
From stdpp Require Import gmap.
From S2P Require Import Prelude Containers.

Module MacLearning.

(** ** Data *)

(** [struct mac_entry]; a MAC address is a 48-bit number, [mlport] a pointer to a
    [mac_learning_port]. *)
Record mac_entry := mk_entry {
  expires : Z;
  grat_arp_lock : Z;
  mac : Z;
  vlan : Z;
  mlport : option nat;
}.

#[export] Instance mac_entry_eta : RecordEta mac_entry :=
  λ r, mk_entry (expires r) (grat_arp_lock r) (mac r) (vlan r) (mlport r).
#[export] Instance mac_entry_inhabited : Inhabited mac_entry := populate (mk_entry 0 0 0 0 None).

(** [struct mac_learning_port]; [port] is the client's pointer, [port_lrus] the entries in the
    order of the list, the front first. *)
Record mac_learning_port := mk_mlport { port : Z; port_lrus : list nat }.

#[export] Instance mlport_eta : RecordEta mac_learning_port := λ r, mk_mlport (port r) (port_lrus r).
#[export] Instance mlport_inhabited : Inhabited mac_learning_port := populate (mk_mlport 0 []).

(** [struct mac_learning] with the entries and ports in memory; [flood_vlans] is a bitmap. *)
Record mac_learning {T Q : Type} := mk_ml {
  table : T;
  lrus : list nat;
  secret : Z;
  flood_vlans : option Z;
  idle_time : Z;
  max_entries : Z;
  ref_cnt : Z;
  need_revalidate : bool;
  total_learned : Z;
  total_expired : Z;
  total_evicted : Z;
  total_moved : Z;
  ports_by_ptr : T;
  ports_by_usage : Q;
  entries : gmap nat mac_entry;
  mlports : gmap nat mac_learning_port;
}.
Arguments mac_learning : clear implicits.

#[export] Instance mac_learning_eta {T Q} : RecordEta (mac_learning T Q) := λ r,
  mk_ml _ _ (table r) (lrus r) (secret r) (flood_vlans r) (idle_time r) (max_entries r) (ref_cnt r)
    (need_revalidate r) (total_learned r) (total_expired r) (total_evicted r) (total_moved r)
    (ports_by_ptr r) (ports_by_usage r) (entries r) (mlports r).

Definition MAC_DEFAULT_MAX : Z := 8192.
Definition MAC_GRAT_ARP_LOCK_TIME : Z := 5.
Definition TIME_MIN : Z := - 2 ^ 63.

(** [ovs_list_remove], [ovs_list_push_back] *)
Definition list_remove (x : nat) (l : list nat) : list nat := filter (λ y, y <> x) l.
Definition push_back (x : nat) (l : list nat) : list nat := l ++ [x].

Definition eth_addr_is_multicast (ea : Z) : bool := Z.testbit ea 40.

Section operations.
Context {T Q : Type} `{HashTable T} `{PriorityQueue Q}.
(** The hash functions of lib/hash.h, which use instructions of the processor where it has
    them. *)
Context (hash_mac : Z -> Z -> Z -> Z) (hash_pointer : Z -> Z -> Z).

Abbreviation ml_t := (mac_learning T Q).
Implicit Types (ml : ml_t) (e p : nat).

Definition entry ml e : mac_entry := entries ml !!! e.

(** ** Entries and ports *)

Definition mac_entry_age ml now e : Z :=
  let remaining := expires (entry ml e) - now in
  s32 (idle_time ml - remaining).

Definition mac_entry_lookup ml mac0 vlan0 : option nat :=
  head (filter (λ e, vlan (entry ml e) = vlan0 /\ mac (entry ml e) = mac0)
               (for_each_with_hash (hash_mac mac0 vlan0 (secret ml)) (table ml))).

Definition mac_learning_port_lookup ml port0 : option nat :=
  head (filter (λ p, port (mlports ml !!! p) = port0)
               (for_each_in_bucket (hash_pointer port0 (secret ml)) (ports_by_ptr ml))).

(** 0 is the null pointer. *)
Definition mac_entry_get_port ml e : Z :=
  match mlport (entry ml e) with Some p => port (mlports ml !!! p) | None => 0 end.

Definition mac_entry_set_grat_arp_lock ml now e : ml_t :=
  ml <| entries ::= alter (λ en, en <| grat_arp_lock := now + MAC_GRAT_ARP_LOCK_TIME |>) e |>.

Definition mac_entry_is_grat_arp_locked ml now e : bool := now <? grat_arp_lock (entry ml e).

(** The part of [mac_entry_set_port] that takes the entry from its port. *)
Definition detach_port ml e : option ml_t :=
  match mlport (entry ml e) with
  | Some p =>
      let ml := ml <| mlports ::= alter (λ mp, mp <| port_lrus ::= list_remove e |>) p |> in
      let priority := heap_priority p (ports_by_usage ml) in
      ml ← (if port_lrus (mlports ml !!! p) is [] then
              if priority =? 1 then
                t ← hmap_remove p (ports_by_ptr ml);
                Some (ml <| ports_by_ptr := t |> <| ports_by_usage ::= heap_remove p |>
                         <| mlports ::= delete p |>)
              else None
            else if 1 <? priority then Some (ml <| ports_by_usage ::= heap_change p (priority - 1) |>)
            else None);
      Some (ml <| entries ::= alter (λ en, en <| mlport := None |>) e |>)
  | None => Some ml
  end.

(** The part that gives it to a port; [xzalloc] returns memory that is not in use. *)
Definition attach_port ml e port0 : ml_t :=
  let '(p, ml) :=
    match mac_learning_port_lookup ml port0 with
    | None =>
        let p := fresh (dom (mlports ml)) in
        (p, ml <| ports_by_ptr ::= hmap_insert p (hash_pointer port0 (secret ml)) |>
               <| ports_by_usage ::= λ q, heap_insert p 1 (heap_alloc p q) |>
               <| mlports ::= <[p := mk_mlport port0 []]> |>)
    | Some p =>
        (p, ml <| ports_by_usage ::= λ q, heap_change p (heap_priority p q + 1) q |>)
    end in
  ml <| mlports ::= alter (λ mp, mp <| port_lrus ::= push_back e |>) p |>
     <| entries ::= alter (λ en, en <| mlport := Some p |>) e |>.

Definition mac_entry_set_port ml e port0 : option ml_t :=
  if mac_entry_get_port ml e =? port0 then Some ml
  else
    ml ← detach_port (ml <| need_revalidate := true |>) e;
    Some (if port0 =? 0 then ml else attach_port ml e port0).

(** ** Expiry and eviction *)

Definition mac_learning_expire ml e : option ml_t :=
  let ml := ml <| need_revalidate := true |> in
  ml ← mac_entry_set_port ml e 0;
  t ← hmap_remove e (table ml);
  Some (ml <| table := t |> <| lrus ::= list_remove e |> <| entries ::= delete e |>).

Definition evict_mac_entry_fairly ml : option ml_t :=
  if heap_is_empty (ports_by_usage ml) then None
  else
    let mlport := heap_max (ports_by_usage ml) in
    e ← head (port_lrus (mlports ml !!! mlport));
    mac_learning_expire (ml <| total_evicted ::= λ x, u64 (x + 1) |>) e.

Definition get_lru ml : option nat := head (lrus ml).

Fixpoint flush_loop (fuel : nat) ml : option ml_t :=
  match fuel, get_lru ml with
  | S fuel, Some e => ml ← mac_learning_expire ml e; flush_loop fuel ml
  | _, _ => Some ml
  end.

Definition mac_learning_flush ml : option ml_t :=
  ml ← flush_loop (length (lrus ml)) ml;
  Some (ml <| table ::= hmap_shrink |>).

Fixpoint run_loop (fuel : nat) now ml : option ml_t :=
  match fuel, get_lru ml with
  | S fuel, Some e =>
      if (max_entries ml <? hmap_count (table ml)) || (expires (entry ml e) <=? now) then
        ml ← mac_learning_expire (ml <| total_expired ::= λ x, u64 (x + 1) |>) e;
        run_loop fuel now ml
      else Some ml
  | _, _ => Some ml
  end.

Definition mac_learning_run ml now : option (bool * ml_t) :=
  ml ← run_loop (length (lrus ml)) now ml;
  Some (need_revalidate ml, ml <| need_revalidate := false |>).

(** What [mac_learning_wait] asks of the poll loop; a time is in milliseconds. *)
Inductive wakeup := Immediate | At (t : Z) | Never.

Definition mac_learning_wait ml : wakeup :=
  if (max_entries ml <? hmap_count (table ml)) || need_revalidate ml then Immediate
  else match get_lru ml with Some e => At (expires (entry ml e) * 1000) | None => Never end.

(** ** Configuration *)

Definition normalize_idle_time (idle : Z) : Z :=
  if idle <? 15 then 15 else if 3600 <? idle then 3600 else idle.

Definition mac_learning_clear_statistics ml : ml_t :=
  ml <| total_learned := 0 |> <| total_expired := 0 |> <| total_evicted := 0 |> <| total_moved := 0 |>.

Definition mac_learning_create (idle secret0 : Z) : ml_t :=
  mk_ml _ _ hmap_init [] secret0 None (normalize_idle_time idle) MAC_DEFAULT_MAX 1 false
    0 0 0 0 hmap_init heap_init ∅ ∅.

Definition mac_learning_ref ml : ml_t := ml <| ref_cnt ::= Z.succ |>.

(** [Some None] is a table that has been freed. *)
Definition mac_learning_unref ml : option (option ml_t) :=
  let old := ref_cnt ml in
  let ml := ml <| ref_cnt ::= Z.pred |> in
  if old =? 1 then
    ml ← foldl (λ oml e, ml ← oml; mac_learning_expire ml e) (Some ml) (for_each (table ml));
    Some None
  else Some (Some ml).

Definition vlan_bitmap_equal (a b : option Z) : bool :=
  match a, b with None, None => true | Some a, Some b => a =? b | _, _ => false end.

Definition mac_learning_set_flood_vlans ml (bitmap : option Z) : bool * ml_t :=
  if vlan_bitmap_equal (flood_vlans ml) bitmap then (false, ml)
  else (true, ml <| flood_vlans := bitmap |>).

Definition mac_learning_set_idle_time ml (idle : Z) : ml_t :=
  let idle := normalize_idle_time idle in
  if idle =? idle_time ml then ml
  else
    let delta := idle - idle_time ml in
    foldl (λ ml e, ml <| entries ::= alter (λ en, en <| expires ::= Z.add delta |>) e |>) ml (lrus ml)
      <| idle_time := idle |>.

Definition mac_learning_set_max_entries ml (max : Z) : ml_t :=
  ml <| max_entries := if max <? 10 then 10 else if 1000 * 1000 <? max then 1000 * 1000 else max |>.

(** ** Learning *)

Definition is_learning_vlan ml (vlan0 : Z) : bool :=
  match flood_vlans ml with None => true | Some b => negb (Z.testbit b vlan0) end.

Definition mac_learning_may_learn ml src_mac vlan0 : bool :=
  is_learning_vlan ml vlan0 && negb (eth_addr_is_multicast src_mac).

(** The outer [None] is a failed assertion. *)
Definition mac_learning_lookup ml dst vlan0 : option (option nat) :=
  if eth_addr_is_multicast dst then Some None
  else if negb (is_learning_vlan ml vlan0) then Some None
  else
    match mac_entry_lookup ml dst vlan0 with
    | None => Some None
    | Some e => if mac_entry_get_port ml e =? 0 then None else Some (Some e)
    end.

(** Marks an entry as recently used. *)
Definition mark_used ml now e : ml_t :=
  let ml := ml <| lrus ::= push_back e |> in
  let ml :=
    match mlport (entry ml e) with
    | Some p => ml <| mlports ::= alter (λ mp, mp <| port_lrus ::= λ l, push_back e (list_remove e l) |>) p |>
    | None => ml
    end in
  ml <| entries ::= alter (λ en, en <| expires := now + idle_time ml |>) e |>.

Definition mac_learning_insert ml now src_mac vlan0 : option (nat * ml_t) :=
  '(e, ml) ←
    match mac_entry_lookup ml src_mac vlan0 with
    | None =>
        let hash := hash_mac src_mac vlan0 (secret ml) in
        ml ← (if max_entries ml <=? hmap_count (table ml) then evict_mac_entry_fairly ml else Some ml);
        let e := fresh (dom (entries ml)) in
        Some (e, ml <| table ::= hmap_insert e hash |>
                    <| entries ::= <[e := mk_entry 0 TIME_MIN src_mac vlan0 None]> |>
                    <| total_learned ::= λ x, u64 (x + 1) |>)
    | Some e => Some (e, ml <| lrus ::= list_remove e |>)
    end;
  Some (e, mark_used ml now e).

Definition is_mac_learning_update_needed ml now src vlan0 (is_gratuitous_arp is_bond : bool) in_port
    : option bool :=
  if negb (mac_learning_may_learn ml src vlan0) then Some false
  else
    found ← mac_learning_lookup ml src vlan0;
    Some match found with
         | None => true
         | Some e =>
             if negb (mac_entry_age ml now e =? 0) then true
             else if is_gratuitous_arp && negb is_bond then true
             else if is_gratuitous_arp && mac_entry_is_grat_arp_locked ml now e then false
             else negb (mac_entry_get_port ml e =? in_port)
         end.

Definition update_learning_table__ ml now src vlan0 (is_gratuitous_arp is_bond : bool) in_port
    : option (bool * ml_t) :=
  if negb (mac_learning_may_learn ml src vlan0) then Some (false, ml)
  else
    '(e, ml) ← mac_learning_insert ml now src vlan0;
    let ml := if is_gratuitous_arp && negb is_bond then mac_entry_set_grat_arp_lock ml now e else ml in
    if is_gratuitous_arp && is_bond && mac_entry_is_grat_arp_locked ml now e then Some (false, ml)
    else if negb (mac_entry_get_port ml e =? in_port) then
      let ml := if negb (mac_entry_get_port ml e =? 0)
                then ml <| total_moved ::= λ x, u64 (x + 1) |> else ml in
      ml ← mac_entry_set_port ml e in_port;
      Some (true, ml)
    else Some (false, ml).

Definition mac_learning_update ml now src vlan0 (is_gratuitous_arp is_bond : bool) in_port
    : option (bool * ml_t) :=
  if in_port =? 0 then Some (false, ml)
  else
    need_update ← is_mac_learning_update_needed ml now src vlan0 is_gratuitous_arp is_bond in_port;
    if need_update : bool then update_learning_table__ ml now src vlan0 is_gratuitous_arp is_bond in_port
    else Some (false, ml).

(** ** Users of the table *)

(** [bundle_move] of ofproto/ofproto-dpif.c *)
Definition bundle_move ml (old new : Z) : option ml_t :=
  foldl (λ oml e, ml ← oml; if mac_entry_get_port ml e =? old then mac_entry_set_port ml e new else Some ml)
    (Some ml) (lrus ml).

(** [bundle_flush_macs] for the table of one bridge *)
Definition bundle_flush_macs ml (bundle : Z) : option ml_t :=
  foldl (λ oml e, ml ← oml; if mac_entry_get_port ml e =? bundle then mac_learning_expire ml e else Some ml)
    (Some ml) (lrus ml).

(** [eth_addr_is_reserved] of lib/packets.c: the nodes have the numbers of their places in the
    array. *)
Definition reserved_addrs : list Z :=
  [0x0180c2000000; 0x0180c2000001; 0x0180c2000002; 0x0180c2000003; 0x0180c2000004;
   0x0180c2000005; 0x0180c2000006; 0x0180c2000007; 0x0180c2000008; 0x0180c2000009;
   0x0180c200000a; 0x0180c200000b; 0x0180c200000c; 0x0180c200000d; 0x0180c200000e;
   0x0180c200000f;
   0x00e02b000000; 0x00e02b000004; 0x00e02b000006;
   0x01000c000000; 0x01000ccccccc; 0x01000ccccccd; 0x01000ccdcdcd;
   0x01000cccccc0; 0x01000cccccc1; 0x01000cccccc2; 0x01000cccccc3; 0x01000cccccc4;
   0x01000cccccc5; 0x01000cccccc6; 0x01000cccccc7].

Definition reserved_table (hash_uint64 : Z -> Z) : T :=
  foldl (λ t i, hmap_insert i (hash_uint64 (reserved_addrs !!! i)) t) hmap_init
    (seq 0 (length reserved_addrs)).

Definition eth_addr_is_reserved (hash_uint64 : Z -> Z) (ea : Z) : bool :=
  existsb (λ i, reserved_addrs !!! i =? ea)
    (for_each_in_bucket (hash_uint64 ea) (reserved_table hash_uint64)).

(** [lswitch_choose_destination] of lib/learning-switch.c, for a switch that learns *)
Definition OFPP_NORMAL : Z := 0xfffa.
Definition OFPP_FLOOD : Z := 0xfffb.
Definition OFPP_NONE : Z := 0xffff.

Definition lswitch_choose_destination (hash_uint64 : Z -> Z) ml now (action_normal : bool) dl_src dl_dst in_port
    : option (Z * ml_t) :=
  ml ← (if mac_learning_may_learn ml dl_src 0 then
          '(e, ml) ← mac_learning_insert ml now dl_src 0;
          if negb (mac_entry_get_port ml e =? in_port) then mac_entry_set_port ml e in_port else Some ml
        else Some ml);
  if eth_addr_is_reserved hash_uint64 dl_dst then Some (OFPP_NONE, ml)
  else
    found ← mac_learning_lookup ml dl_dst 0;
    let out_port := match found with Some e => mac_entry_get_port ml e | None => OFPP_FLOOD end in
    Some (if (if found is Some _ then out_port =? in_port else false) then OFPP_NONE
          else if action_normal && negb (out_port =? OFPP_FLOOD) then OFPP_NORMAL
          else out_port, ml).

End operations.

End MacLearning.
