(* ===== verification/MacLearningInv.v ===== *)
(** The invariant of the MAC learning table: its hash tables, queue and lists describe the same
    set of entries and ports.  Every primitive operation succeeds and preserves it. *)
From stdpp Require Import gmap.
From S2P Require Import Prelude Containers MacLearning.

Module MacLearningInv.
Import MacLearning.

(** ** Lists and maps *)

Lemma elem_of_list_remove x y l : x ∈ list_remove y l <-> x <> y /\ x ∈ l.
Proof. unfold list_remove. by rewrite list_elem_of_filter. Qed.

Lemma nodup_list_remove y l : NoDup l -> NoDup (list_remove y l).
Proof. apply NoDup_filter. Qed.

Lemma list_remove_absent y l : y ∉ l -> list_remove y l = l.
Proof.
  unfold list_remove. induction l as [| x l IH]; [done |]. intros [Hx Hl]%not_elem_of_cons.
  rewrite filter_cons_True by done. by rewrite IH.
Qed.

Lemma list_remove_split y l1 l2 : y ∉ l1 -> y ∉ l2 -> list_remove y (l1 ++ y :: l2) = l1 ++ l2.
Proof.
  intros H1 H2. unfold list_remove. rewrite filter_app, filter_cons_False by tauto.
  by f_equal; apply list_remove_absent.
Qed.

Lemma nodup_split_out (y : nat) l :
  NoDup l -> y ∈ l -> exists l1 l2, l = l1 ++ y :: l2 /\ y ∉ l1 /\ y ∉ l2 /\ list_remove y l = l1 ++ l2.
Proof.
  intros Hnd (l1 & l2 & ->)%list_elem_of_split. apply NoDup_app in Hnd as (_ & H1 & [H2 _]%NoDup_cons).
  assert (y ∉ l1) as H3 by (intros H; apply (H1 y H); set_solver).
  exists l1, l2. split; [done |]. split; [done |]. split; [done |]. by apply list_remove_split.
Qed.

Lemma length_list_remove y l :
  NoDup l -> y ∈ l -> Z.of_nat (length (list_remove y l)) = Z.of_nat (length l) - 1.
Proof.
  intros Hnd Hy. destruct (nodup_split_out y l Hnd Hy) as (l1 & l2 & -> & _ & _ & ->).
  rewrite !length_app. cbn [length]. lia.
Qed.

Lemma nodup_push_back y l : NoDup l -> y ∉ l -> NoDup (push_back y l).
Proof. intros. apply NoDup_app. split; [done |]. split; [set_solver | apply NoDup_singleton]. Qed.

Lemma elem_of_push_back x y l : x ∈ push_back y l <-> x = y \/ x ∈ l.
Proof. unfold push_back. set_solver. Qed.

Lemma push_back_not_nil y l : push_back y l <> [].
Proof. by destruct l. Qed.

Lemma filter_ext_in (P1 P2 : nat -> Prop) `{forall x, Decision (P1 x), forall x, Decision (P2 x)} (l : list nat) :
  (forall x, x ∈ l -> P1 x <-> P2 x) -> filter P1 l = filter P2 l.
Proof.
  induction l as [| x l IH]; [done |]. intros Hl.
  rewrite !filter_cons, IH by (intros y Hy; apply Hl; set_solver).
  destruct (decide (P1 x)) as [H1 | H1], (decide (P2 x)) as [H2 | H2]; try done; exfalso;
    specialize (Hl x ltac:(set_solver)); tauto.
Qed.

Lemma filter_empty (P : nat -> Prop) `{forall x, Decision (P x)} (l : list nat) : (forall x, x ∈ l -> ~ P x) -> filter P l = [].
Proof.
  induction l as [| x l IH]; [done |]. intros Hl. rewrite filter_cons_False by (apply Hl; set_solver).
  apply IH. set_solver.
Qed.

Lemma filter_all (P : nat -> Prop) `{forall x, Decision (P x)} (l : list nat) : (forall x, x ∈ l -> P x) -> filter P l = l.
Proof.
  induction l as [| x l IH]; [done |]. intros Hl. rewrite filter_cons_True by (apply Hl; set_solver).
  f_equal. apply IH. set_solver.
Qed.

(** Changing what a projection does not see. *)
Lemma fmap_alter_same {A B} (f : A -> B) (g : A -> A) (i : nat) (m : gmap nat A) :
  (forall a, f (g a) = f a) -> f <$> alter g i m = f <$> m.
Proof.
  intros Hf. apply map_eq. intros j. rewrite !lookup_fmap, lookup_alter. case_decide as E; [subst j | done].
  destruct (m !! i); cbn; [by rewrite Hf | done].
Qed.

Lemma alter_as_insert {A} (f : A -> A) (i : nat) (m : gmap nat A) a :
  m !! i = Some a -> alter f i m = <[i := f a]> m.
Proof.
  intros Hi. apply map_eq. intros j. rewrite lookup_alter, lookup_insert. case_decide as E; [subst j; by rewrite Hi | done].
Qed.

Definition set_at {A} (f : nat -> A) (x : nat) (v : A) : nat -> A := λ y, if decide (y = x) then v else f y.

Lemma set_at_eq {A} (f : nat -> A) x v : set_at f x v x = v.
Proof. unfold set_at. by rewrite decide_True. Qed.

Lemma set_at_ne {A} (f : nat -> A) x v y : y <> x -> set_at f x v y = f y.
Proof. intros. unfold set_at. by rewrite decide_False. Qed.

Section invariant.
Context {T Q : Type} {HT : HashTable T} {HTok : HashTableOk T}.
Context {PQ : PriorityQueue Q} {PQok : PriorityQueueOk Q}.
Context (hash_mac : Z -> Z -> Z -> Z) (hash_pointer : Z -> Z -> Z).

Abbreviation ml_t := (mac_learning T Q).
Implicit Types (ml : ml_t) (e p : nat).

(** ** The invariant *)

(** The key of an entry, and the port it belongs to. *)
Definition key (en : mac_entry) : Z * Z := (mac en, vlan en).
Definition owner ml (e : nat) : option nat := entries ml !! e ≫= mlport.

(** The hash table and the list hold the entries, which have different keys. *)
Record entries_ok (sec : Z) (t : T) (keys : gmap nat (Z * Z)) (l : list nat) : Prop := {
  e_table : hmap_holds t ((λ k, hash_mac k.1 k.2 sec) <$> keys);
  e_inj e1 e2 k : keys !! e1 = Some k -> keys !! e2 = Some k -> e1 = e2;
  e_nodup : NoDup l;
  e_elem e : e ∈ l <-> is_Some (keys !! e);
}.

(** The hash table and the queue hold the ports, each with its entries and their number. *)
Record ports_ok (sec : Z) (t : T) (q : Q) (mps : gmap nat mac_learning_port) (own : nat -> option nat) : Prop := {
  p_table : hmap_holds t ((λ mp, hash_pointer (port mp) sec) <$> mps);
  p_usage : heap_holds q ((λ mp, Z.of_nat (length (port_lrus mp))) <$> mps);
  p_port p mp : mps !! p = Some mp -> port mp <> 0 /\ port_lrus mp <> [] /\ NoDup (port_lrus mp);
  p_elem p mp e : mps !! p = Some mp -> e ∈ port_lrus mp <-> own e = Some p;
  p_inj p1 p2 mp1 mp2 : mps !! p1 = Some mp1 -> mps !! p2 = Some mp2 -> port mp1 = port mp2 -> p1 = p2;
  p_own e p : own e = Some p -> is_Some (mps !! p);
}.

Record inv ml : Prop := {
  i_entries : entries_ok (secret ml) (table ml) (key <$> entries ml) (lrus ml);
  i_ports : ports_ok (secret ml) (ports_by_ptr ml) (ports_by_usage ml) (mlports ml) (owner ml);
  i_size : Z.of_nat (size (entries ml)) <= 1000000;
  i_max : 10 <= max_entries ml <= 1000000;
  i_idle : 15 <= idle_time ml <= 3600;
}.

(** Every entry has a port. *)
Definition settled ml : Prop := forall e, is_Some (entries ml !! e) -> is_Some (owner ml e).

(** The list of each port is in the order of the list of all entries. *)
Definition ordered ml : Prop :=
  forall p mp, mlports ml !! p = Some mp -> port_lrus mp = filter (λ e, owner ml e = Some p) (lrus ml).

Lemma ports_ok_ext sec t q mps own own' :
  ports_ok sec t q mps own -> (forall e, own' e = own e) -> ports_ok sec t q mps own'.
Proof. intros [] E. constructor; try done; intros; rewrite ?E in *; eauto. Qed.

Lemma get_port_owner ml e :
  mac_entry_get_port ml e = match owner ml e with Some p => port (mlports ml !!! p) | None => 0 end.
Proof.
  unfold mac_entry_get_port, entry, owner. rewrite lookup_total_alt. by destruct (entries ml !! e).
Qed.

Lemma get_port_null ml e : inv ml -> mac_entry_get_port ml e = 0 <-> owner ml e = None.
Proof.
  intros [_ P _ _ _]. rewrite get_port_owner. destruct (owner ml e) as [p |] eqn:E; [| done].
  destruct (p_own _ _ _ _ _ P e p E) as [mp Hp]. rewrite (lookup_total_correct _ _ _ Hp).
  destruct (p_port _ _ _ _ _ P p mp Hp) as [H1 _]. naive_solver.
Qed.

(** ** Taking an entry from its port *)

Lemma port_priority sec t q mps own p mp :
  ports_ok sec t q mps own -> mps !! p = Some mp -> heap_priority p q = Z.of_nat (length (port_lrus mp)).
Proof.
  intros P Hp. apply (heap_priority_spec _ _ _ _ (p_usage _ _ _ _ _ P)). by rewrite lookup_fmap, Hp.
Qed.

Lemma detach_last sec t q mps own e p mp :
  ports_ok sec t q mps own -> mps !! p = Some mp -> own e = Some p -> list_remove e (port_lrus mp) = [] ->
  exists t', hmap_remove p t = Some t' /\
    ports_ok sec t' (heap_remove p q) (delete p mps) (set_at own e None).
Proof.
  intros P Hp He Hl. pose proof P as [P1 P2 P3 P4 P5 P6].
  destruct (hmap_remove_holds t _ p P1) as (t' & Et & Ht); [by rewrite lookup_fmap, Hp |].
  exists t'. split; [done |]. constructor.
  - by rewrite fmap_delete.
  - rewrite fmap_delete. apply heap_remove_holds; [done |]. by rewrite lookup_fmap, Hp.
  - intros p' mp' [_ Hp']%lookup_delete_Some. by apply (P3 p').
  - intros p' mp' e' [Hne Hp']%lookup_delete_Some. rewrite (P4 p' mp' e' Hp').
    destruct (decide (e' = e)) as [-> | Hee]; [rewrite set_at_eq, He; naive_solver | by rewrite set_at_ne].
  - intros p1 p2 mp1 mp2 [_ H1]%lookup_delete_Some [_ H2]%lookup_delete_Some. by apply (P5 p1 p2 mp1 mp2).
  - intros e' p' E. destruct (decide (e' = e)) as [-> | Hee]; [by rewrite set_at_eq in E |].
    rewrite set_at_ne in E by done. rewrite lookup_delete_ne; [by apply (P6 e') |]. intros <-.
    apply (P4 p mp e' Hp) in E. assert (e' ∈ list_remove e (port_lrus mp)) as Hin by (by apply elem_of_list_remove).
    rewrite Hl in Hin. set_solver.
Qed.

(** Giving a port another list of entries. *)
Lemma ports_ok_update sec t q mps own own' p mp l q' :
  ports_ok sec t q mps own -> mps !! p = Some mp -> l <> [] -> NoDup l ->
  (forall e, e ∈ l <-> own' e = Some p) ->
  (forall e p', p' <> p -> own' e = Some p' <-> own e = Some p') ->
  heap_holds q' (<[p := Z.of_nat (length l)]> ((λ mp, Z.of_nat (length (port_lrus mp))) <$> mps)) ->
  ports_ok sec t q' (<[p := mp <| port_lrus := l |>]> mps) own'.
Proof.
  intros [P1 P2 P3 P4 P5 P6] Hp Hl Hnd Hel Hown Hq. constructor.
  - rewrite fmap_insert. rsimpl. rewrite insert_id; [done |]. by rewrite lookup_fmap, Hp.
  - by rewrite fmap_insert.
  - intros p' mp' [[<- <-] | [_ Hp']]%lookup_insert_Some; [| by apply (P3 p')]. rsimpl.
    split; [by apply (P3 p) | done].
  - intros p' mp' e [[<- <-] | [Hne Hp']]%lookup_insert_Some; [by rsimpl |].
    rewrite Hown by done. by apply P4.
  - assert (forall p' mp', <[p := mp <| port_lrus := l |>]> mps !! p' = Some mp' ->
            exists mp0, mps !! p' = Some mp0 /\ port mp0 = port mp') as Hf.
    { intros p' mp' [[<- <-] | [_ Hp']]%lookup_insert_Some; [by exists mp | by exists mp']. }
    intros p1 p2 mp1 mp2 (m1 & H1 & E1)%Hf (m2 & H2 & E2)%Hf E. apply (P5 p1 p2 m1 m2); congruence.
  - intros e p' E. destruct (decide (p' = p)) as [-> | Hne]; [by rewrite lookup_insert_eq |].
    rewrite lookup_insert_ne by done. apply (P6 e). by apply Hown.
Qed.

Lemma detach_more sec t q mps own e p mp :
  ports_ok sec t q mps own -> mps !! p = Some mp -> own e = Some p -> list_remove e (port_lrus mp) <> [] ->
  ports_ok sec t (heap_change p (heap_priority p q - 1) q)
    (<[p := mp <| port_lrus ::= list_remove e |>]> mps) (set_at own e None).
Proof.
  intros P Hp He Hl. pose proof P as [P1 P2 P3 P4 P5 P6]. destruct (P3 p mp Hp) as (_ & _ & Hnd).
  apply (ports_ok_update sec t q mps own _ p mp (list_remove e (port_lrus mp))); try done.
  - by apply nodup_list_remove.
  - intros x. rewrite elem_of_list_remove, (P4 p mp x Hp). unfold set_at. case_decide; naive_solver.
  - intros x p' Hne. unfold set_at. case_decide as E; [subst x; rewrite He; naive_solver | done].
  - rewrite length_list_remove by (done || by apply (P4 p mp e Hp)).
    rewrite (port_priority _ _ _ _ _ _ _ P Hp). apply heap_change_holds; [done |]. by rewrite lookup_fmap, Hp.
Qed.

(** ** Giving an entry to a port *)

Lemma attach_old sec t q mps own e p mp :
  ports_ok sec t q mps own -> mps !! p = Some mp -> own e = None ->
  ports_ok sec t (heap_change p (heap_priority p q + 1) q)
    (<[p := mp <| port_lrus ::= push_back e |>]> mps) (set_at own e (Some p)).
Proof.
  intros P Hp He. pose proof P as [P1 P2 P3 P4 P5 P6]. destruct (P3 p mp Hp) as (_ & _ & Hnd).
  assert (e ∉ port_lrus mp) as Hel by (rewrite (P4 p mp e Hp), He; done).
  apply (ports_ok_update sec t q mps own _ p mp (push_back e (port_lrus mp))); try done.
  - apply push_back_not_nil.
  - by apply nodup_push_back.
  - intros x. rewrite elem_of_push_back, (P4 p mp x Hp). unfold set_at. case_decide; naive_solver.
  - intros x p' Hne. unfold set_at. case_decide as E; [subst x; rewrite He; naive_solver | done].
  - unfold push_back at 1. rewrite length_app, Nat2Z.inj_add. cbn [length].
    rewrite (port_priority _ _ _ _ _ _ _ P Hp). apply heap_change_holds; [done |]. by rewrite lookup_fmap, Hp.
Qed.

Lemma attach_new sec t q mps own e p port0 :
  ports_ok sec t q mps own -> mps !! p = None -> own e = None -> port0 <> 0 ->
  (forall p mp, mps !! p = Some mp -> port mp <> port0) -> in_u 64 (Z.of_nat (size mps) + 1) ->
  ports_ok sec (hmap_insert p (hash_pointer port0 sec) t) (heap_insert p 1 (heap_alloc p q))
    (<[p := mk_mlport port0 [e]]> mps) (set_at own e (Some p)).
Proof.
  intros P Hp He H0 Hport Hs. pose proof P as [P1 P2 P3 P4 P5 P6]. constructor.
  - rewrite fmap_insert. apply hmap_insert_holds; [done | by rewrite lookup_fmap, Hp | by rewrite map_size_fmap].
  - rewrite fmap_insert. apply heap_insert_holds; [done |]. by rewrite lookup_fmap, Hp.
  - intros p' mp' [[<- <-] | [_ Hp']]%lookup_insert_Some; [| by apply (P3 p')]. cbn.
    split; [done |]. split; [done | apply NoDup_singleton].
  - intros p' mp' x [[<- <-] | [Hne Hp']]%lookup_insert_Some; cbn; unfold set_at; case_decide as E.
    + subst x. set_solver.
    + rewrite list_elem_of_singleton. split; [done |]. intros Hx. apply P6 in Hx as [? Hx]. congruence.
    + subst x. rewrite (P4 p' mp' e Hp'), He. naive_solver.
    + by apply P4.
  - intros p1 p2 mp1 mp2 [[<- <-] | [_ H1']]%lookup_insert_Some [[<- <-] | [_ H2']]%lookup_insert_Some E; cbn in *.
    + done.
    + by destruct (Hport p2 mp2 H2').
    + by destruct (Hport p1 mp1 H1').
    + by apply (P5 p1 p2 mp1 mp2).
  - intros x p' E. destruct (decide (p' = p)) as [-> | Hne]; [by rewrite lookup_insert_eq |].
    rewrite lookup_insert_ne by done. apply (P6 x). unfold set_at in E. case_decide; [naive_solver | done].
Qed.

Lemma port_lookup_spec ml port0 :
  inv ml ->
  match mac_learning_port_lookup hash_pointer ml port0 with
  | Some p => exists mp, mlports ml !! p = Some mp /\ port mp = port0
  | None => forall p mp, mlports ml !! p = Some mp -> port mp <> port0
  end.
Proof.
  intros [_ P _ _ _]. pose proof P as [P1 _ _ _ _ _]. unfold mac_learning_port_lookup.
  set (h := hash_pointer port0 (secret ml)).
  destruct (filter _ (for_each_in_bucket h (ports_by_ptr ml))) as [| p l] eqn:E; cbn [head].
  - intros p mp Hp Ep. apply (filter_nil_not_elem_of _ _ p E).
    + by rewrite (lookup_total_correct _ _ _ Hp).
    + apply (in_bucket_elem _ _ h p P1). rewrite lookup_fmap, Hp. cbn. by rewrite Ep.
  - assert (p ∈ p :: l) as Hin by set_solver. rewrite <- E in Hin.
    apply list_elem_of_filter in Hin as [Ep Hin]. apply (in_bucket_member _ _ h p P1) in Hin as [z Hz].
    rewrite lookup_fmap in Hz. destruct (mlports ml !! p) as [mp |] eqn:Hp; [| done].
    exists mp. split; [done |]. by rewrite (lookup_total_correct _ _ _ Hp) in Ep.
Qed.

(** ** Changes of ports leave the rest *)

Definition strip (en : mac_entry) : mac_entry := en <| mlport := None |>.

Record frame ml ml' : Prop := {
  f_lrus : lrus ml' = lrus ml;
  f_table : table ml' = table ml;
  f_secret : secret ml' = secret ml;
  f_flood : flood_vlans ml' = flood_vlans ml;
  f_idle : idle_time ml' = idle_time ml;
  f_max : max_entries ml' = max_entries ml;
  f_strip : strip <$> entries ml' = strip <$> entries ml;
  f_need : need_revalidate ml = true -> need_revalidate ml' = true;
}.

Lemma frame_refl ml : frame ml ml.
Proof. done. Qed.

Lemma frame_trans ml1 ml2 ml3 : frame ml1 ml2 -> frame ml2 ml3 -> frame ml1 ml3.
Proof. intros [] []. constructor; try congruence. auto. Qed.

Lemma frame_keys ml ml' : frame ml ml' -> key <$> entries ml' = key <$> entries ml.
Proof.
  intros F. assert (forall m : gmap nat mac_entry, key <$> m = key <$> (strip <$> m)) as E.
  { intros m. by rewrite <- map_fmap_compose. }
  by rewrite E, (f_strip _ _ F), <- E.
Qed.

Lemma frame_lookup ml ml' e en :
  frame ml ml' -> entries ml !! e = Some en -> exists en', entries ml' !! e = Some en' /\ strip en' = strip en.
Proof.
  intros [] He. apply (f_equal (lookup e)) in f_strip0. rewrite !lookup_fmap, He in f_strip0.
  destruct (entries ml' !! e) as [en' |]; [| done]. exists en'. split; [done |]. by apply (inj Some) in f_strip0.
Qed.

Lemma frame_inv ml ml' :
  inv ml -> frame ml ml' ->
  ports_ok (secret ml') (ports_by_ptr ml') (ports_by_usage ml') (mlports ml') (owner ml') -> inv ml'.
Proof.
  intros [] F P. pose proof (frame_keys ml ml' F) as K. pose proof F as []. constructor; [| done | | |].
  - by rewrite K, f_lrus0, f_table0, f_secret0.
  - apply (f_equal size) in f_strip0. rewrite !map_size_fmap in f_strip0. lia.
  - by rewrite f_max0.
  - by rewrite f_idle0.
Qed.

Lemma owner_alter ml e v x :
  is_Some (entries ml !! e) ->
  (alter (λ en, en <| mlport := v |>) e (entries ml) !! x ≫= mlport) = set_at (owner ml) e v x.
Proof.
  intros [en He]. unfold owner, set_at. rewrite lookup_alter. case_decide as E.
  - subst x. rewrite decide_True, He by done. done.
  - by rewrite decide_False.
Qed.

Lemma strip_alter m e v :
  strip <$> alter (λ en, en <| mlport := v |>) e m = strip <$> (m : gmap nat mac_entry).
Proof. by apply fmap_alter_same. Qed.

(** Entries that keep their port see the same client pointer. *)
Lemma get_port_agree ml ml' x :
  inv ml' -> owner ml' x = owner ml x ->
  (forall p mp', mlports ml' !! p = Some mp' -> is_Some (mlports ml !! p) -> port (mlports ml !!! p) = port mp') ->
  (forall p, owner ml x = Some p -> is_Some (mlports ml !! p)) ->
  mac_entry_get_port ml' x = mac_entry_get_port ml x.
Proof.
  intros I E Hp Hs. rewrite !get_port_owner, E. destruct (owner ml x) as [p |] eqn:Ex; [| done].
  destruct (p_own _ _ _ _ _ (i_ports _ I) x p E) as [mp' Hp'].
  rewrite (lookup_total_correct _ _ _ Hp'). symmetry. by apply Hp; [| apply Hs].
Qed.

Lemma filter_owner_other (own : nat -> option nat) e v p (l : list nat) :
  own e <> Some p -> v <> Some p ->
  filter (λ x, set_at own e v x = Some p) l = filter (λ x, own x = Some p) l.
Proof.
  intros H1 H2. apply list_filter_iff. intros x. unfold set_at. case_decide; naive_solver.
Qed.

Lemma filter_owner_removed (own : nat -> option nat) e p (l : list nat) :
  own e = Some p -> filter (λ x, set_at own e None x = Some p) l = list_remove e (filter (λ x, own x = Some p) l).
Proof.
  intros He. unfold list_remove. rewrite list_filter_filter. apply list_filter_iff. intros x.
  unfold set_at. case_decide; naive_solver.
Qed.

(** ** [detach_port] *)

Record detached ml ml' e : Prop := {
  d_frame : frame ml ml';
  d_inv : inv ml';
  d_owner x : owner ml' x = set_at (owner ml) e None x;
  d_port x : x <> e -> mac_entry_get_port ml' x = mac_entry_get_port ml x;
  d_ordered : ordered ml -> ordered ml';
}.

Lemma detached_intro ml ml' e p :
  inv ml -> owner ml e = Some p -> frame ml ml' ->
  ports_ok (secret ml) (ports_by_ptr ml') (ports_by_usage ml') (mlports ml') (set_at (owner ml) e None) ->
  (forall x, owner ml' x = set_at (owner ml) e None x) ->
  (forall p' mp', mlports ml' !! p' = Some mp' ->
     exists mp0, mlports ml !! p' = Some mp0 /\ port mp0 = port mp' /\
       port_lrus mp' = if decide (p' = p) then list_remove e (port_lrus mp0) else port_lrus mp0) ->
  detached ml ml' e.
Proof.
  intros I Eo F P' Ho Hm. pose proof (i_ports _ I) as P. assert (inv ml') as I'.
  { apply (frame_inv ml); [done | done |]. rewrite (f_secret _ _ F). by apply (ports_ok_ext _ _ _ _ _ _ P'). }
  constructor; [done | done | done | |].
  - intros x Hx. apply get_port_agree; [done | by rewrite Ho, set_at_ne | |].
    + intros p' mp' (mp0 & H0 & Ep & _)%Hm _. by rewrite (lookup_total_correct _ _ _ H0).
    + intros p'. apply (p_own _ _ _ _ _ P).
  - intros Hord p' mp' (mp0 & H0 & _ & ->)%Hm. rewrite (f_lrus _ _ F), (Hord p' mp0 H0).
    rewrite (list_filter_iff (λ x, owner ml' x = Some p') (λ x, set_at (owner ml) e None x = Some p'))
      by (intros x; by rewrite Ho).
    case_decide as E; [subst p'; by rewrite filter_owner_removed |].
    rewrite filter_owner_other; [done | congruence | done].
Qed.

Lemma detach_port_spec ml e :
  inv ml -> is_Some (entries ml !! e) -> exists ml', detach_port ml e = Some ml' /\ detached ml ml' e.
Proof.
  intros I He. pose proof (i_ports _ I) as P. unfold detach_port.
  assert (mlport (entry ml e) = owner ml e) as ->.
  { unfold entry, owner. rewrite lookup_total_alt. by destruct He as [en ->]. }
  destruct (owner ml e) as [p |] eqn:Eo.
  2: { exists ml. split; [done |]. constructor; [done | done | | done | done].
       intros x. unfold set_at. by case_decide; subst. }
  destruct (p_own _ _ _ _ _ P e p Eo) as [mp Hp].
  pose proof (p_port _ _ _ _ _ P p mp Hp) as (_ & _ & Hnd).
  pose proof (proj2 (p_elem _ _ _ _ _ P p mp e Hp) Eo) as Hin.
  pose proof (port_priority _ _ _ _ _ _ _ P Hp) as Hpr.
  pose proof (length_list_remove e _ Hnd Hin) as Hlen.
  cbv zeta. rsimpl. rewrite (alter_as_insert _ _ _ _ Hp), lookup_total_insert_eq. rsimpl.
  rewrite Hpr. destruct (list_remove e (port_lrus mp)) as [| y l] eqn:El.
  - destruct (detach_last _ _ _ _ _ e p mp P Hp Eo El) as (t' & Et & P'). rewrite Et.
    cbn [length] in Hlen. rewrite (proj2 (Z.eqb_eq _ 1)) by lia.
    cbn [mbind option_bind]. eexists. split; [reflexivity |]. apply (detached_intro ml _ e p); rsimpl; try done.
    + constructor; rsimpl; try done. apply strip_alter.
    + by rewrite (alter_as_insert _ _ _ _ Hp), delete_insert_eq.
    + intros x. unfold owner at 1. rsimpl. by apply owner_alter.
    + intros p' mp'. rewrite (alter_as_insert _ _ _ _ Hp), delete_insert_eq. intros [Hne Hp']%lookup_delete_Some. exists mp'.
      by rewrite decide_False by congruence.
  - assert (list_remove e (port_lrus mp) <> []) as Hl by (by rewrite El).
    pose proof (detach_more _ _ _ _ _ e p mp P Hp Eo Hl) as P'. rewrite Hpr in P'.
    cbn [length] in Hlen. rewrite (proj2 (Z.ltb_lt 1 _)) by lia.
    cbn [mbind option_bind]. eexists. split; [reflexivity |]. apply (detached_intro ml _ e p); rsimpl; try done.
    + constructor; rsimpl; try done. apply strip_alter.
    + by rewrite (alter_as_insert _ _ _ _ Hp).
    + intros x. unfold owner at 1. rsimpl. by apply owner_alter.
    + intros p' mp'. rewrite (alter_as_insert _ _ _ _ Hp). intros [[<- <-] | [Hne Hp']]%lookup_insert_Some.
      * exists mp. rsimpl. by rewrite decide_True.
      * exists mp'. by rewrite decide_False by congruence.
Qed.

(** ** [attach_port] *)

Record attached ml ml' e port0 : Prop := {
  a_frame : frame ml ml';
  a_inv : inv ml';
  a_owner_e : is_Some (owner ml' e);
  a_owner x : x <> e -> owner ml' x = owner ml x;
  a_port_e : mac_entry_get_port ml' e = port0;
  a_port x : x <> e -> mac_entry_get_port ml' x = mac_entry_get_port ml x;
  a_ordered : ordered ml -> last (lrus ml) = Some e -> ordered ml';
}.

(** The list that a port has before, empty for a new port. *)
Definition old_list ml p : list nat := match mlports ml !! p with Some mp => port_lrus mp | None => [] end.

Lemma old_list_ordered ml p :
  inv ml -> ordered ml -> old_list ml p = filter (λ x, owner ml x = Some p) (lrus ml).
Proof.
  intros I Ho. unfold old_list. destruct (mlports ml !! p) as [mp |] eqn:Hp; [by apply Ho |].
  symmetry. apply filter_empty. intros x _ E.
  destruct (p_own _ _ _ _ _ (i_ports _ I) x p E) as [? ?]. congruence.
Qed.

Lemma attached_intro ml ml' e p port0 :
  inv ml -> owner ml e = None -> frame ml ml' ->
  ports_ok (secret ml) (ports_by_ptr ml') (ports_by_usage ml') (mlports ml') (set_at (owner ml) e (Some p)) ->
  (forall x, owner ml' x = set_at (owner ml) e (Some p) x) ->
  (forall mp, mlports ml !! p = Some mp -> port mp = port0) ->
  mlports ml' = <[p := mk_mlport port0 (push_back e (old_list ml p))]> (mlports ml) ->
  attached ml ml' e port0.
Proof.
  intros I Eo F P' Ho Hp Hm. pose proof (i_ports _ I) as P. assert (inv ml') as I'.
  { apply (frame_inv ml); [done | done |]. rewrite (f_secret _ _ F). by apply (ports_ok_ext _ _ _ _ _ _ P'). }
  constructor; [done | done | by rewrite Ho, set_at_eq | | | |].
  - intros x Hx. by rewrite Ho, set_at_ne.
  - rewrite get_port_owner, Ho, set_at_eq, Hm. by rewrite lookup_total_insert_eq.
  - intros x Hx. apply get_port_agree; [done | by rewrite Ho, set_at_ne | |].
    + intros p' mp'. rewrite Hm. intros [[<- <-] | [_ Hp']]%lookup_insert_Some [mp0 H0];
        rewrite (lookup_total_correct _ _ _ H0); [by apply Hp | congruence].
    + intros p'. apply (p_own _ _ _ _ _ P).
  - intros Hord (l0 & Hl)%last_Some p' mp'. rewrite Hm, (f_lrus _ _ F).
    rewrite (list_filter_iff (λ x, owner ml' x = Some p') (λ x, set_at (owner ml) e (Some p) x = Some p'))
      by (intros x; by rewrite Ho).
    intros [[<- <-] | [Hne Hp']]%lookup_insert_Some.
    + cbn [port_lrus]. rewrite (old_list_ordered ml p I Hord), Hl.
      pose proof (e_nodup _ _ _ _ (i_entries _ I)) as Hnd. rewrite Hl in Hnd.
      apply NoDup_app in Hnd as (_ & Hnd & _). rewrite !filter_app. unfold push_back.
      rewrite (filter_cons_True (λ x, set_at (owner ml) e (Some p) x = Some p) e []) by (by rewrite set_at_eq).
      rewrite (filter_cons_False (λ x, owner ml x = Some p) e []) by (by rewrite Eo). cbn [filter list_filter].
      rewrite app_nil_r. f_equal. apply filter_ext_in. intros x Hx. rewrite set_at_ne; [done |].
      intros ->. apply (Hnd e Hx). set_solver.
    + rewrite (Hord p' mp' Hp'). rewrite filter_owner_other; [done | congruence | congruence].
Qed.

(** There are at most as many ports as entries. *)
Lemma ports_le_entries ml : inv ml -> (size (mlports ml) <= size (entries ml))%nat.
Proof.
  intros I. pose proof (i_ports _ I) as P.
  pose (f := λ p, default 0%nat (head (port_lrus (mlports ml !!! p)))).
  assert (forall p, p ∈ dom (mlports ml) -> owner ml (f p) = Some p) as Hf.
  { intros p [mp Hp]%elem_of_dom. destruct (p_port _ _ _ _ _ P p mp Hp) as (_ & Hl & _). subst f. cbn.
    rewrite (lookup_total_correct _ _ _ Hp). destruct (port_lrus mp) as [| x l] eqn:E; [done |].
    apply (p_elem _ _ _ _ _ P p mp x Hp). rewrite E. set_solver. }
  rewrite <- !size_dom. unfold size, set_size. cbn. rewrite <- (length_fmap f (elements (dom (mlports ml)))).
  apply submseteq_length, NoDup_submseteq.
  - apply NoDup_fmap_2_strong; [| apply NoDup_elements]. intros p q Hp Hq E.
    rewrite elem_of_elements in Hp, Hq. apply Hf in Hp, Hq. congruence.
  - intros x (p & -> & Hp)%list_elem_of_fmap. rewrite elem_of_elements in Hp. apply Hf in Hp.
    rewrite elem_of_elements, elem_of_dom. unfold owner in Hp. by destruct (entries ml !! f p).
Qed.

Lemma attach_port_spec ml e port0 :
  inv ml -> is_Some (entries ml !! e) -> owner ml e = None -> port0 <> 0 ->
  attached ml (attach_port hash_pointer ml e port0) e port0.
Proof.
  intros I He Eo H0. pose proof (i_ports _ I) as P. unfold attach_port.
  pose proof (port_lookup_spec ml port0 I) as Hl.
  destruct (mac_learning_port_lookup hash_pointer ml port0) as [p |].
  - destruct Hl as (mp & Hp & Ep). rsimpl.
    assert (alter (λ mp, mp <| port_lrus ::= push_back e |>) p (mlports ml)
            = <[p := mk_mlport port0 (push_back e (old_list ml p))]> (mlports ml)) as Em.
    { rewrite (alter_as_insert _ _ _ _ Hp). unfold old_list. rewrite Hp, <- Ep. done. }
    apply (attached_intro ml _ e p); rsimpl; try done.
    + constructor; rsimpl; try done. apply strip_alter.
    + rewrite (alter_as_insert _ _ _ _ Hp). by apply attach_old.
    + intros x. unfold owner at 1. rsimpl. by apply owner_alter.
    + intros mp'. congruence.
  - set (p := fresh (dom (mlports ml))). assert (mlports ml !! p = None) as Hp.
    { apply not_elem_of_dom, is_fresh. }
    assert (alter (λ mp, mp <| port_lrus ::= push_back e |>) p (<[p := mk_mlport port0 []]> (mlports ml))
            = <[p := mk_mlport port0 (push_back e (old_list ml p))]> (mlports ml)) as Em.
    { rewrite (alter_as_insert _ _ _ _ (lookup_insert_eq _ _ _)), insert_insert_eq. unfold old_list. by rewrite Hp. }
    pose proof (ports_le_entries ml I). pose proof (i_size _ I).
    apply (attached_intro ml _ e p); rsimpl; try done.
    + constructor; rsimpl; try done. apply strip_alter.
    + rewrite Em. unfold old_list. rewrite Hp. apply attach_new; try done. unfold in_u. lia.
    + intros x. unfold owner at 1. rsimpl. by apply owner_alter.
    + intros mp'. congruence.
Qed.

End invariant.
End MacLearningInv.
