(* ===== verification/MacLearningOps.v ===== *)
(** What the operations of the MAC learning table do to the list of learned addresses, in the
    order of their last use. *)
From stdpp Require Import gmap.
From S2P Require Import Prelude Containers MacLearning MacLearningInv.

Module MacLearningOps.
Import MacLearning MacLearningInv.

(** A learned address, as the clients see it. *)
Record learned := mk_learned {
  l_mac : Z;
  l_vlan : Z;
  l_port : Z;
  l_expires : Z;
  l_lock : Z;
}.

#[export] Instance learned_eta : RecordEta learned :=
  λ r, mk_learned (l_mac r) (l_vlan r) (l_port r) (l_expires r) (l_lock r).

Definition l_key (r : learned) : Z * Z := (l_mac r, l_vlan r).

(** The number of addresses on a port. *)
Definition uses (q : Z) (l : list learned) : nat := length (filter (λ r, l_port r = q) l).

(** An address is evicted from a port with the most addresses; [first] tells whether it is the
    least recently used one of this port. *)
Inductive evicts (first : bool) : list learned -> list learned -> Prop :=
  evicts_intro l1 r l2 :
    l_port r <> 0 ->
    (forall q, q <> 0 -> (uses q (l1 ++ r :: l2) <= uses (l_port r) (l1 ++ r :: l2))%nat) ->
    (first = true -> Forall (λ s, l_port s <> l_port r) l1) ->
    evicts first (l1 ++ r :: l2) (l1 ++ l2).

Section ops.
Context {T Q : Type} {HT : HashTable T} {HTok : HashTableOk T}.
Context {PQ : PriorityQueue Q} {PQok : PriorityQueueOk Q}.
Context (hash_mac : Z -> Z -> Z -> Z) (hash_pointer : Z -> Z -> Z).

Abbreviation ml_t := (mac_learning T Q).
Abbreviation inv := (inv hash_mac hash_pointer).
Implicit Types (ml : ml_t) (e p : nat).

Definition record ml e : learned :=
  let en := entry ml e in
  mk_learned (mac en) (vlan en) (mac_entry_get_port ml e) (expires en) (grat_arp_lock en).

Definition abs ml : list learned := record ml <$> lrus ml.

Definition settled ml : Prop := forall e, e ∈ lrus ml -> mac_entry_get_port ml e <> 0.

(** The settings that operations on entries do not touch. *)
Record config ml ml' : Prop := {
  c_secret : secret ml' = secret ml;
  c_flood : flood_vlans ml' = flood_vlans ml;
  c_idle : idle_time ml' = idle_time ml;
  c_max : max_entries ml' = max_entries ml;
}.

Lemma config_trans ml1 ml2 ml3 : config ml1 ml2 -> config ml2 ml3 -> config ml1 ml3.
Proof. intros [] []. constructor; congruence. Qed.

Lemma frame_config ml ml' : frame ml ml' -> config ml ml'.
Proof. by intros []. Qed.

Lemma in_lrus ml e : inv ml -> e ∈ lrus ml <-> is_Some (entries ml !! e).
Proof.
  intros I. rewrite (e_elem _ _ _ _ _ (i_entries _ _ _ I)), lookup_fmap. by rewrite fmap_is_Some.
Qed.

Lemma strip_entry ml ml' x :
  (strip <$> entries ml') !! x = (strip <$> entries ml) !! x -> strip (entry ml' x) = strip (entry ml x).
Proof.
  rewrite !lookup_fmap. unfold entry. rewrite !lookup_total_alt.
  destruct (entries ml' !! x), (entries ml !! x); intros E; try done. by apply (inj Some) in E.
Qed.

Lemma record_eq ml ml' x :
  strip (entry ml' x) = strip (entry ml x) -> mac_entry_get_port ml' x = mac_entry_get_port ml x ->
  record ml' x = record ml x.
Proof.
  intros E Hp. unfold record. rewrite Hp. by injection E as -> -> -> ->.
Qed.

Lemma inv_ext ml ml' :
  inv ml -> secret ml' = secret ml -> table ml' = table ml -> lrus ml' = lrus ml ->
  key <$> entries ml' = key <$> entries ml -> ports_by_ptr ml' = ports_by_ptr ml ->
  ports_by_usage ml' = ports_by_usage ml -> mlports ml' = mlports ml ->
  (forall e, owner ml' e = owner ml e) -> 10 <= max_entries ml' <= 1000000 -> 15 <= idle_time ml' <= 3600 ->
  inv ml'.
Proof.
  intros [I1 I2 I3 _ _] E1 E2 E3 E4 E5 E6 E7 E8 E9 E10. constructor; try done.
  - by rewrite E1, E2, E3, E4.
  - rewrite E1, E5, E6, E7. by apply (ports_ok_ext _ _ _ _ _ _ _ I2).
  - apply (f_equal size) in E4. rewrite !map_size_fmap in E4. lia.
Qed.

(** ** Setting the port *)

Record port_set ml ml' e port0 : Prop := {
  s_frame : frame ml ml';
  s_inv : inv ml';
  s_port_e : mac_entry_get_port ml' e = port0;
  s_port x : x <> e -> mac_entry_get_port ml' x = mac_entry_get_port ml x;
  s_ordered : ordered ml -> port0 = 0 \/ last (lrus ml) = Some e -> ordered ml';
  s_need : mac_entry_get_port ml e <> port0 -> need_revalidate ml' = true;
}.

Lemma entry_set_port_spec ml e port0 :
  inv ml -> e ∈ lrus ml ->
  exists ml', mac_entry_set_port hash_pointer ml e port0 = Some ml' /\ port_set ml ml' e port0.
Proof.
  intros I He. apply (in_lrus ml e I) in He. unfold mac_entry_set_port.
  destruct (Z.eqb_spec (mac_entry_get_port ml e) port0) as [E | E].
  { exists ml. by split. }
  set (ml0 := ml <| need_revalidate := true |>).
  assert (inv ml0) as I0 by (by apply (inv_ext ml); try apply I).
  destruct (detach_port_spec hash_mac hash_pointer ml0 e I0 He) as (ml1 & -> & D). cbn [mbind option_bind].
  assert (owner ml1 e = None) as Ho by (rewrite (d_owner _ _ _ _ _ D); apply set_at_eq).
  assert (frame ml ml1) as F1 by (apply (frame_trans _ ml0); [done | apply D]).
  assert (need_revalidate ml1 = true) as Hn by (by apply (f_need _ _ (d_frame _ _ _ _ _ D))).
  destruct (Z.eqb_spec port0 0) as [-> | H0]; eexists; (split; [reflexivity |]).
  - constructor; [done | apply D | | apply D | | done].
    + apply (get_port_null hash_mac hash_pointer); [apply D | done].
    + intros Hord _. by apply (d_ordered _ _ _ _ _ D).
  - destruct He as [en He]. destruct (frame_lookup ml ml1 e en F1 He) as (en1 & He1 & _).
    assert (attached hash_mac hash_pointer ml1 (attach_port hash_pointer ml1 e port0) e port0) as A.
    { apply attach_port_spec; [apply D | by exists en1 | done | done]. }
    constructor.
    + apply (frame_trans _ ml1); [done | apply A].
    + apply A.
    + apply A.
    + intros x Hx. rewrite (a_port _ _ _ _ _ _ A), (d_port _ _ _ _ _ D); done.
    + intros Hord [? | Hl]; [done |]. apply (a_ordered _ _ _ _ _ _ A); [by apply (d_ordered _ _ _ _ _ D) |].
      by rewrite (f_lrus _ _ F1).
    + intros _. by apply (f_need _ _ (a_frame _ _ _ _ _ _ A)).
Qed.

Lemma set_port_record ml ml' e port0 :
  port_set ml ml' e port0 -> record ml' e = record ml e <| l_port := port0 |> /\
  forall x, x <> e -> record ml' x = record ml x.
Proof.
  intros S. assert (forall x, strip (entry ml' x) = strip (entry ml x)) as Hs.
  { intros x. apply strip_entry. by rewrite (f_strip _ _ (s_frame _ _ _ _ S)). }
  split; [| intros x Hx; apply record_eq; [done | by apply S]].
  unfold record. rewrite (s_port_e _ _ _ _ S). pose proof (Hs e) as E. by injection E as -> -> -> ->.
Qed.

(** ** Expiry *)

Record removed ml ml' e : Prop := {
  r_config : config ml ml';
  r_inv : inv ml';
  r_lrus : lrus ml' = list_remove e (lrus ml);
  r_record x : x <> e -> record ml' x = record ml x;
  r_ordered : ordered ml -> ordered ml';
}.

Lemma entries_ok_delete sec (t : T) keys l e :
  entries_ok hash_mac sec t keys l -> is_Some (keys !! e) ->
  exists t', hmap_remove e t = Some t' /\ entries_ok hash_mac sec t' (delete e keys) (list_remove e l).
Proof.
  intros [E1 E2 E3 E4] He. destruct (hmap_remove_holds t _ e E1) as (t' & Et & Ht); [by rewrite lookup_fmap, fmap_is_Some |].
  exists t'. split; [done |]. constructor.
  - by rewrite fmap_delete.
  - intros e1 e2 k [_ H1]%lookup_delete_Some [_ H2]%lookup_delete_Some. by apply (E2 e1 e2 k).
  - by apply nodup_list_remove.
  - intros x. rewrite elem_of_list_remove, E4. destruct (decide (x = e)) as [-> | Hne].
    + rewrite lookup_delete_eq. split; [tauto | by intros []].
    + rewrite lookup_delete_ne by done. tauto.
Qed.

Lemma filter_list_remove (P : nat -> Prop) `{forall x, Decision (P x)} e (l : list nat) :
  filter P (list_remove e l) = list_remove e (filter P l).
Proof.
  unfold list_remove. rewrite !list_filter_filter. apply list_filter_iff. tauto.
Qed.

(** Forgetting an entry that has no port. *)
Lemma forget_spec ml e :
  inv ml -> e ∈ lrus ml -> mac_entry_get_port ml e = 0 ->
  exists t, hmap_remove e (table ml) = Some t /\
    removed ml (ml <| table := t |> <| lrus ::= list_remove e |> <| entries ::= delete e |>) e.
Proof.
  intros I He Hp. pose proof (proj1 (get_port_null hash_mac hash_pointer ml e I) Hp) as Ho.
  pose proof I as [I1 I2 I3 I4 I5]. pose proof (proj1 (in_lrus ml e I) He) as Hs.
  destruct (entries_ok_delete _ _ _ _ e I1) as (t & Et & E'); [by rewrite lookup_fmap, fmap_is_Some |].
  exists t. split; [done |]. set (ml' := upd _ _ _).
  assert (forall x, owner ml' x = owner ml x) as Ho'.
  { intros x. unfold owner at 1, ml'. rsimpl. destruct (decide (x = e)) as [-> | Hne].
    - by rewrite lookup_delete_eq, Ho.
    - by rewrite lookup_delete_ne. }
  constructor; [done | | done | |].
  - unfold ml'. constructor; rsimpl; [by rewrite fmap_delete | by apply (ports_ok_ext _ _ _ _ _ _ _ I2) | | done | done].
    rewrite map_size_delete. destruct (entries ml !! e); cbn; lia.
  - intros x Hx. apply record_eq.
    + apply strip_entry. unfold ml'. rsimpl. by rewrite !lookup_fmap, lookup_delete_ne.
    + by rewrite !get_port_owner, Ho'.
  - intros Hord p mp Hm. rewrite (Hord p mp Hm).
    rewrite (list_filter_iff (λ x, owner ml' x = Some p) (λ x, owner ml x = Some p)) by (intros x; by rewrite Ho').
    unfold ml'. rsimpl. rewrite filter_list_remove, list_remove_absent; [done |].
    rewrite list_elem_of_filter, Ho. naive_solver.
Qed.

Lemma expire_spec ml e :
  inv ml -> e ∈ lrus ml ->
  exists ml', mac_learning_expire hash_pointer ml e = Some ml' /\ removed ml ml' e /\ need_revalidate ml' = true.
Proof.
  intros I He. unfold mac_learning_expire. cbv zeta. set (ml0 := ml <| need_revalidate := true |>).
  assert (inv ml0) as I0 by (by apply (inv_ext ml); try apply I).
  destruct (entry_set_port_spec ml0 e 0 I0 He) as (ml1 & -> & S). cbn [mbind option_bind].
  pose proof (s_frame _ _ _ _ S) as F. pose proof (s_inv _ _ _ _ S) as I1.
  destruct (forget_spec ml1 e I1) as (t & -> & R); [by rewrite (f_lrus _ _ F) | apply S |].
  cbn [mbind option_bind]. eexists. split; [reflexivity |]. split; [| by apply (f_need _ _ F)].
  pose proof R as [R1 R2 R3 R4 R5]. constructor.
  - apply (config_trans _ ml0); [done |]. apply (config_trans _ ml1); [by apply frame_config | done].
  - done.
  - rewrite R3, (f_lrus _ _ F). done.
  - intros x Hx. rewrite R4 by done. change (record ml x) with (record ml0 x). by apply (set_port_record _ _ _ _ S).
  - intros Hord. apply R5. apply (s_ordered _ _ _ _ S); [done | by left].
Qed.

(** ** Eviction *)

Lemma owner_port ml p mp x :
  inv ml -> mlports ml !! p = Some mp -> owner ml x = Some p <-> mac_entry_get_port ml x = port mp.
Proof.
  intros I Hp. pose proof (i_ports _ _ _ I) as P. rewrite get_port_owner. split.
  - intros ->. by rewrite (lookup_total_correct _ _ _ Hp).
  - destruct (owner ml x) as [p' |] eqn:E.
    + destruct (p_own _ _ _ _ _ _ P x p' E) as [mp' Hp']. rewrite (lookup_total_correct _ _ _ Hp').
      intros Hpt. f_equal. by apply (p_inj _ _ _ _ _ _ P p' p mp' mp).
    + intros Hpt. by destruct (p_port _ _ _ _ _ _ P p mp Hp) as [[] _].
Qed.

Lemma uses_abs ml q : uses q (abs ml) = length (filter (λ x, mac_entry_get_port ml x = q) (lrus ml)).
Proof.
  unfold uses, abs. induction (lrus ml) as [| x l IH]; [done |]. rewrite fmap_cons, !filter_cons. cbn [l_port record].
  case_decide; cbn [length]; congruence.
Qed.

(** A port's list has as many entries as the port has addresses. *)
Lemma port_uses ml p mp :
  inv ml -> mlports ml !! p = Some mp -> length (port_lrus mp) = uses (port mp) (abs ml).
Proof.
  intros I Hp. pose proof (i_ports _ _ _ I) as P. rewrite uses_abs. apply Permutation_length, NoDup_Permutation.
  - by apply (p_port _ _ _ _ _ _ P p mp Hp).
  - apply NoDup_filter, I.
  - intros x. rewrite list_elem_of_filter, (p_elem _ _ _ _ _ _ P p mp x Hp), (owner_port ml p mp x I Hp).
    split; [| tauto]. intros E. split; [done |]. apply (in_lrus ml x I).
    apply (owner_port ml p mp x I Hp) in E. unfold owner in E. by destruct (entries ml !! x).
Qed.

Lemma head_filter_split (P : nat -> Prop) `{forall x, Decision (P x)} (l : list nat) x :
  head (filter P l) = Some x -> exists l1 l2, l = l1 ++ x :: l2 /\ P x /\ Forall (λ y, ~ P y) l1.
Proof.
  induction l as [| y l IH]; [done |]. rewrite filter_cons. case_decide as Hy.
  - intros [= <-]. by exists [], l.
  - intros (l1 & l2 & -> & Hx & Hl)%IH. exists (y :: l1), l2. split; [done |]. split; [done |]. by constructor.
Qed.

Lemma removed_abs ml ml' e l1 l2 :
  inv ml -> removed ml ml' e -> lrus ml = l1 ++ e :: l2 -> abs ml' = (record ml <$> l1) ++ (record ml <$> l2).
Proof.
  intros I R El. pose proof (e_nodup _ _ _ _ _ (i_entries _ _ _ I)) as Hnd. rewrite El in Hnd.
  apply NoDup_app in Hnd as (_ & H1 & [H2 _]%NoDup_cons).
  assert (e ∉ l1) as H3 by (intros H; apply (H1 e H); set_solver).
  unfold abs. rewrite (r_lrus _ _ _ R), El, list_remove_split by done. rewrite <- fmap_app.
  apply list_fmap_ext. intros i x Hx. apply (r_record _ _ _ R). apply list_elem_of_lookup_2 in Hx. set_solver.
Qed.

Lemma fmap_split_lrus ml l1 e l2 :
  lrus ml = l1 ++ e :: l2 -> abs ml = (record ml <$> l1) ++ record ml e :: (record ml <$> l2).
Proof. intros E. unfold abs. by rewrite E, fmap_app, fmap_cons. Qed.

(** The port at the root of the queue has the most addresses. *)
Lemma max_port ml :
  inv ml -> settled ml -> lrus ml <> [] ->
  heap_is_empty (ports_by_usage ml) = false /\
  exists mp, mlports ml !! heap_max (ports_by_usage ml) = Some mp /\
    forall q, q <> 0 -> (uses q (abs ml) <= uses (port mp) (abs ml))%nat.
Proof.
  intros I Hs Hne. pose proof (i_ports _ _ _ I) as P. pose proof (p_usage _ _ _ _ _ _ P) as Hu.
  assert (forall x, x ∈ lrus ml -> exists p mp, mlports ml !! p = Some mp /\ port mp = mac_entry_get_port ml x) as Hx.
  { intros x Hx. specialize (Hs x Hx). rewrite get_port_owner in *. destruct (owner ml x) as [p |] eqn:E; [| done].
    destruct (p_own _ _ _ _ _ _ P x p E) as [mp Hp]. exists p, mp. by rewrite (lookup_total_correct _ _ _ Hp). }
  assert (((λ mp, Z.of_nat (length (port_lrus mp))) <$> mlports ml : gmap nat Z) <> ∅) as Hm.
  { destruct (lrus ml) as [| x l]; [done |]. destruct (Hx x ltac:(set_solver)) as (p & mp & Hp & _).
    intros E. apply (f_equal (lookup p)) in E. by rewrite lookup_fmap, Hp in E. }
  rewrite (heap_is_empty_spec _ _ Hu), bool_decide_false by done. split; [done |].
  destruct (heap_max_spec _ _ Hu Hm) as (k & Hk & Hmax). rewrite lookup_fmap in Hk.
  destruct (mlports ml !! heap_max (ports_by_usage ml)) as [mp |] eqn:Ep; [| done].
  exists mp. split; [done |]. intros q Hq.
  destruct (filter (λ x, mac_entry_get_port ml x = q) (lrus ml)) as [| x l] eqn:E.
  { rewrite uses_abs, E. cbn. lia. }
  assert (x ∈ x :: l) as Hin by set_solver. rewrite <- E in Hin. apply list_elem_of_filter in Hin as [<- Hin].
  destruct (Hx x Hin) as (p' & mp' & Hp' & <-). rewrite <- (port_uses ml _ mp I Ep), <- (port_uses ml _ mp' I Hp').
  specialize (Hmax p' (Z.of_nat (length (port_lrus mp')))). rewrite lookup_fmap, Hp' in Hmax.
  injection Hk as <-. specialize (Hmax eq_refl). lia.
Qed.

Lemma evict_spec ml first :
  inv ml -> settled ml -> lrus ml <> [] -> (first = true -> ordered ml) ->
  exists ml' e, evict_mac_entry_fairly hash_pointer ml = Some ml' /\ removed ml ml' e /\ e ∈ lrus ml /\
    evicts first (abs ml) (abs ml') /\ need_revalidate ml' = true.
Proof.
  intros I Hs Hne Hf. destruct (max_port ml I Hs Hne) as (Ee & mp & Hp & Hmax).
  set (p := heap_max (ports_by_usage ml)) in *. pose proof (i_ports _ _ _ I) as P.
  unfold evict_mac_entry_fairly. rewrite Ee. fold p. rewrite (lookup_total_correct _ _ _ Hp).
  pose proof (p_port _ _ _ _ _ _ P p mp Hp) as (Hpn & Hl & _).
  destruct (port_lrus mp) as [| e l] eqn:El; [done |]. cbn [head mbind option_bind].
  assert (owner ml e = Some p) as Ho by (apply (p_elem _ _ _ _ _ _ P p mp e Hp); rewrite El; set_solver).
  assert (e ∈ lrus ml) as He.
  { apply (in_lrus ml e I). unfold owner in Ho. by destruct (entries ml !! e). }
  pose proof (proj1 (owner_port ml p mp e I Hp) Ho) as Hport.
  assert (exists l1 l2, lrus ml = l1 ++ e :: l2 /\
            (first = true -> Forall (λ x, mac_entry_get_port ml x <> port mp) l1)) as (l1 & l2 & Esp & Hfirst).
  { destruct first.
    - specialize (Hf eq_refl p mp Hp). rewrite El in Hf.
      destruct (head_filter_split (λ x, owner ml x = Some p) (lrus ml) e) as (l1 & l2 & E & _ & HF); [by rewrite <- Hf |].
      exists l1, l2. split; [done |]. intros _. eapply Forall_impl; [exact HF |]. intros x Hx E2.
      by apply Hx, (owner_port ml p mp x I Hp).
    - destruct (list_elem_of_split _ _ He) as (l1 & l2 & E). by exists l1, l2. }
  set (ml0 := ml <| total_evicted ::= λ x, u64 (x + 1) |>).
  assert (inv ml0) as I0 by (by apply (inv_ext ml); try apply I).
  destruct (expire_spec ml0 e I0 He) as (ml' & -> & R & Hn). exists ml', e. split; [done |].
  split; [destruct R as [[] ? ? ? ?]; constructor; done |]. split; [done |]. split; [| done].
  rewrite (removed_abs ml0 ml' e l1 l2 I0 R Esp), (fmap_split_lrus ml l1 e l2 Esp) in *.
  apply evicts_intro; cbn [l_port record]; rewrite Hport; [done | |].
  - intros q Hq. by apply Hmax.
  - intros E. apply Forall_fmap. apply (Hfirst E).
Qed.

(** ** Lookup *)

Definition lookup_key (k : Z * Z) (l : list learned) : option learned := head (filter (λ r, l_key r = k) l).
Definition remove_key (k : Z * Z) (l : list learned) : list learned := filter (λ r, l_key r <> k) l.

Lemma record_key ml e en : entries ml !! e = Some en -> l_key (record ml e) = key en.
Proof. intros He. unfold record, entry. by rewrite (lookup_total_correct _ _ _ He). Qed.

Lemma lookup_spec ml mac0 vlan0 :
  inv ml ->
  match mac_entry_lookup hash_mac ml mac0 vlan0 with
  | Some e => e ∈ lrus ml /\ l_key (record ml e) = (mac0, vlan0)
  | None => forall e, e ∈ lrus ml -> l_key (record ml e) <> (mac0, vlan0)
  end.
Proof.
  intros I. pose proof (e_table _ _ _ _ _ (i_entries _ _ _ I)) as Ht. unfold mac_entry_lookup.
  set (h := hash_mac mac0 vlan0 (secret ml)).
  destruct (filter _ (for_each_with_hash h (table ml))) as [| e l] eqn:E; cbn [head].
  - intros e [en He]%(in_lrus ml e I) Ek. rewrite (record_key ml e en He) in Ek. injection Ek as Em Ev.
    apply (filter_nil_not_elem_of _ _ e E).
    + unfold entry. by rewrite (lookup_total_correct _ _ _ He).
    + apply (with_hash_elem _ _ h e Ht). rewrite !lookup_fmap, He. cbn. by rewrite Em, Ev.
  - assert (e ∈ e :: l) as Hin by set_solver. rewrite <- E in Hin. apply list_elem_of_filter in Hin as [[Ev Em] Hin].
    apply (with_hash_elem _ _ h e Ht) in Hin. rewrite !lookup_fmap in Hin.
    destruct (entries ml !! e) as [en |] eqn:He; [| done]. split; [apply (in_lrus ml e I); by rewrite He |].
    rewrite (record_key ml e en He). unfold entry in *. rewrite (lookup_total_correct _ _ _ He) in *.
    unfold key. congruence.
Qed.

(** Entries have different keys. *)
Lemma record_inj ml e1 e2 :
  inv ml -> e1 ∈ lrus ml -> e2 ∈ lrus ml -> l_key (record ml e1) = l_key (record ml e2) -> e1 = e2.
Proof.
  intros I [en1 H1]%(in_lrus ml e1 I) [en2 H2]%(in_lrus ml e2 I).
  rewrite (record_key _ _ _ H1), (record_key _ _ _ H2). intros E.
  apply (e_inj _ _ _ _ _ (i_entries _ _ _ I) e1 e2 (key en1)); rewrite lookup_fmap; [by rewrite H1 | by rewrite H2, E].
Qed.

Lemma remove_key_abs ml e :
  inv ml -> e ∈ lrus ml -> remove_key (l_key (record ml e)) (abs ml) = record ml <$> list_remove e (lrus ml).
Proof.
  intros I He. assert (forall l, (forall x, x ∈ l -> x ∈ lrus ml) ->
    remove_key (l_key (record ml e)) (record ml <$> l) = record ml <$> list_remove e l) as H; [| by apply H].
  unfold remove_key, list_remove. induction l as [| x l IH]; intros Hl; [done |].
  rewrite fmap_cons, !filter_cons. assert (x ∈ lrus ml) as Hx by (apply Hl; set_solver).
  destruct (decide (l_key (record ml x) <> l_key (record ml e))) as [H1 | H1], (decide (x <> e)) as [H2 | H2].
  - rewrite fmap_cons, IH; [done |]. set_solver.
  - exfalso. apply H1. by apply dec_stable in H2 as ->.
  - exfalso. apply dec_stable in H1. by apply H2, (record_inj ml).
  - apply IH. set_solver.
Qed.

Lemma lookup_key_abs ml mac0 vlan0 :
  inv ml -> lookup_key (mac0, vlan0) (abs ml) = record ml <$> mac_entry_lookup hash_mac ml mac0 vlan0.
Proof.
  intros I. pose proof (lookup_spec ml mac0 vlan0 I) as Hl. unfold lookup_key.
  destruct (mac_entry_lookup hash_mac ml mac0 vlan0) as [e |].
  - destruct Hl as [He Ek]. destruct (list_elem_of_split _ _ He) as (l1 & l2 & Esp).
    rewrite (fmap_split_lrus ml l1 e l2 Esp), filter_app, filter_cons_True by done.
    assert (filter (λ r, l_key r = (mac0, vlan0)) (record ml <$> l1) = []) as ->; [| done].
    pose proof (e_nodup _ _ _ _ _ (i_entries _ _ _ I)) as Hnd. rewrite Esp in Hnd. apply NoDup_app in Hnd as (_ & Hnd & _).
    assert (forall x, x ∈ l1 -> l_key (record ml x) <> (mac0, vlan0)) as Hn.
    { intros x Hx E. apply (Hnd x Hx). rewrite <- Ek in E.
      rewrite (record_inj ml x e I ltac:(rewrite Esp; set_solver) He E). set_solver. }
    clear -Hn. induction l1 as [| x l1 IH]; [done |]. rewrite fmap_cons, filter_cons_False by (apply Hn; set_solver).
    apply IH. set_solver.
  - assert (forall l, (forall x, x ∈ l -> x ∈ lrus ml) -> filter (λ r, l_key r = (mac0, vlan0)) (record ml <$> l) = []) as H.
    { induction l as [| x l IH]; intros Hin; [done |]. rewrite fmap_cons, filter_cons_False; [apply IH; set_solver |].
      apply Hl, Hin. set_solver. }
    unfold abs. by rewrite H.
Qed.

End ops.
End MacLearningOps.
