(* ===== verification/MacLearningSpec.v ===== *)
(** The MAC learning table refines a list of addresses in the order of their last use. *)
From stdpp Require Import gmap.
From S2P Require Import Prelude Containers MacLearning MacLearningInv MacLearningOps.

Module MacLearningSpec.
Import MacLearning MacLearningInv MacLearningOps.

Section spec.
Context {T Q : Type} {HT : HashTable T} {HTok : HashTableOk T}.
Context {PQ : PriorityQueue Q} {PQok : PriorityQueueOk Q}.
Context (hash_mac : Z -> Z -> Z -> Z) (hash_pointer : Z -> Z -> Z).

Abbreviation ml_t := (mac_learning T Q).
Abbreviation inv := (inv hash_mac hash_pointer).
Implicit Types (ml : ml_t) (e p : nat).

(** ** Marking entries as used *)

(** [e] has been moved to the back of the list [l]. *)
Record used ml ml' (l : list nat) e (r : learned) : Prop := {
  u_config : config ml ml';
  u_inv : inv ml';
  u_lrus : lrus ml' = push_back e l;
  u_record_e : record ml' e = r;
  u_record x : x <> e -> record ml' x = record ml x;
  u_ordered : ordered ml -> ordered ml';
  u_need : need_revalidate ml' = need_revalidate ml;
}.

Lemma push_back_remove_elem e l x : e ∈ l -> x ∈ push_back e (list_remove e l) <-> x ∈ l.
Proof.
  intros He. rewrite elem_of_push_back, elem_of_list_remove. split; [intros [-> | [_ ?]]; done |].
  destruct (decide (x = e)); tauto.
Qed.

Lemma filter_push_back (P : nat -> Prop) `{forall x, Decision (P x)} e (l : list nat) :
  filter P (push_back e (list_remove e l))
  = if decide (P e) then push_back e (list_remove e (filter P l)) else filter P l.
Proof.
  unfold push_back. rewrite filter_app, filter_list_remove. case_decide as HP.
  - by rewrite filter_cons_True.
  - rewrite filter_cons_False, app_nil_r by done. apply list_remove_absent. rewrite list_elem_of_filter. tauto.
Qed.

Lemma mark_used_fields ml now e :
  let ml' := mark_used ml now e in
  config ml ml' /\ table ml' = table ml /\ ports_by_ptr ml' = ports_by_ptr ml /\
  ports_by_usage ml' = ports_by_usage ml /\ lrus ml' = push_back e (lrus ml) /\
  entries ml' = alter (λ en, en <| expires := now + idle_time ml |>) e (entries ml) /\
  mlports ml' = match owner ml e with
                | Some p => alter (λ mp, mp <| port_lrus ::= λ l, push_back e (list_remove e l) |>) p (mlports ml)
                | None => mlports ml
                end /\
  need_revalidate ml' = need_revalidate ml.
Proof.
  unfold mark_used. cbv zeta. unfold owner, entry. rsimpl. rewrite lookup_total_alt.
  destruct (entries ml !! e) as [en |]; [cbn [mbind option_bind from_option id] | done]. by destruct (mlport en).
Qed.

Lemma mark_used_owner ml now e x : owner (mark_used ml now e) x = owner ml x.
Proof.
  unfold owner. destruct (mark_used_fields ml now e) as (_ & _ & _ & _ & _ & -> & _).
  rewrite lookup_alter. case_decide; [subst x | done]. by destruct (entries ml !! e).
Qed.

Lemma mark_used_get_port ml now e x : mac_entry_get_port (mark_used ml now e) x = mac_entry_get_port ml x.
Proof.
  rewrite !get_port_owner, mark_used_owner. destruct (owner ml x) as [p |]; [| done].
  destruct (mark_used_fields ml now e) as (_ & _ & _ & _ & _ & _ & -> & _).
  destruct (owner ml e) as [q |]; [| done]. rewrite !lookup_total_alt, lookup_alter. case_decide; [subst p | done].
  by destruct (mlports ml !! q).
Qed.

Lemma mark_used_record ml now e :
  (is_Some (entries ml !! e) -> record (mark_used ml now e) e = record ml e <| l_expires := now + idle_time ml |>) /\
  forall x, x <> e -> record (mark_used ml now e) x = record ml x.
Proof.
  unfold record, entry. destruct (mark_used_fields ml now e) as (_ & _ & _ & _ & _ & -> & _). split.
  - intros [en He]. rewrite mark_used_get_port, !lookup_total_alt, lookup_alter_eq, He. done.
  - intros x Hx. by rewrite mark_used_get_port, !lookup_total_alt, lookup_alter_ne.
Qed.

(** An entry in the table is moved to the back. *)
Lemma touch_spec ml now e :
  inv ml -> e ∈ lrus ml ->
  used ml (mark_used (ml <| lrus ::= list_remove e |>) now e) (list_remove e (lrus ml)) e
    (record ml e <| l_expires := now + idle_time ml |>).
Proof.
  intros I He. set (ml0 := ml <| lrus ::= list_remove e |>). pose proof I as [I1 I2 I3 I4 I5].
  destruct (mark_used_fields ml0 now e) as ([] & Et & Ep & Eu & El & Ee & Em & En).
  set (ml' := mark_used ml0 now e) in *.
  assert (forall x, owner ml' x = owner ml x) as Ho by (intros x; apply (mark_used_owner ml0)).
  assert (is_Some (entries ml !! e)) as Hs by (by apply (in_lrus hash_mac hash_pointer)).
  assert (lrus ml' = push_back e (list_remove e (lrus ml))) as El' by done.
  constructor; [done | | done | | | | done].
  - constructor; [| | | by rewrite c_max0 | by rewrite c_idle0].
    + rewrite c_secret0, Et, El', Ee. rewrite fmap_alter_same by done. destruct I1 as [J1 J2 J3 J4]. constructor; [done | done | |].
      * apply nodup_push_back; [by apply nodup_list_remove |]. rewrite elem_of_list_remove. tauto.
      * intros x. by rewrite push_back_remove_elem.
    + apply (ports_ok_ext _ _ _ _ _ (owner ml)); [| done]. rewrite c_secret0, Ep, Eu, Em.
      change (owner ml0 e) with (owner ml e). destruct (owner ml e) as [p |] eqn:Eo; [| done].
      destruct (p_own _ _ _ _ _ _ I2 e p Eo) as [mp Hp]. destruct (p_port _ _ _ _ _ _ I2 p mp Hp) as (_ & Hl & Hnd).
      pose proof (proj2 (p_elem _ _ _ _ _ _ I2 p mp e Hp) Eo) as Hin.
      change (mlports ml0) with (mlports ml). rewrite (alter_as_insert _ _ _ _ Hp).
      eapply (ports_ok_update _ _ _ _ _ (owner ml) _ p mp (push_back e (list_remove e (port_lrus mp)))); try done.
      * apply push_back_not_nil.
      * apply nodup_push_back; [by apply nodup_list_remove |]. rewrite elem_of_list_remove. tauto.
      * intros x. rewrite push_back_remove_elem by done. by apply (p_elem _ _ _ _ _ _ I2).
      * rewrite insert_id; [apply I2 |]. rewrite lookup_fmap, Hp. cbn. f_equal. unfold push_back.
        rewrite length_app, Nat2Z.inj_add, length_list_remove by done. cbn [length]. lia.
    + rewrite Ee. apply Z.le_trans with (Z.of_nat (size (entries ml))); [| done].
      rewrite <- !size_dom, dom_alter_L. done.
  - unfold ml'. by rewrite (proj1 (mark_used_record ml0 now e)).
  - intros x Hx. unfold ml'. by rewrite (proj2 (mark_used_record ml0 now e)).
  - intros Hord p mp. rewrite El', filter_push_back.
    rewrite (list_filter_iff (λ x, owner ml' x = Some p) (λ x, owner ml x = Some p)) by (intros x; by rewrite Ho).
    rewrite Em. change (mlports ml0) with (mlports ml). change (owner ml0 e) with (owner ml e).
    case_decide as Eo; rewrite Ho in Eo.
    + rewrite Eo, lookup_alter_eq. destruct (mlports ml !! p) as [mp0 |] eqn:Hp; [| done]. intros [= <-]. rsimpl.
      by rewrite (Hord p mp0 Hp).
    + destruct (owner ml e) as [q |] eqn:Eq; [rewrite lookup_alter_ne by congruence |]; intros Hp; by apply Hord.
Qed.

Lemma entries_ok_insert sec (t : T) keys l e k :
  entries_ok hash_mac sec t keys l -> keys !! e = None -> (forall x, keys !! x <> Some k) ->
  Z.of_nat (size keys) < 1000000 ->
  entries_ok hash_mac sec (hmap_insert e (hash_mac k.1 k.2 sec) t) (<[e := k]> keys) (push_back e l).
Proof.
  intros [J1 J2 J3 J4] Hn Hk Hsz. constructor.
  - rewrite fmap_insert. apply hmap_insert_holds; [done | by rewrite lookup_fmap, Hn |].
    rewrite map_size_fmap. unfold in_u. lia.
  - intros e1 e2 k' [[<- E1] | [_ H1]]%lookup_insert_Some [[<- E2] | [_ H2]]%lookup_insert_Some.
    + done.
    + destruct (Hk e2). by rewrite E1.
    + destruct (Hk e1). by rewrite E2.
    + by apply (J2 e1 e2 k').
  - apply nodup_push_back; [done |]. rewrite J4, Hn. by intros [].
  - intros x. rewrite elem_of_push_back, J4. destruct (decide (x = e)) as [-> | Hx].
    + rewrite lookup_insert_eq. naive_solver.
    + rewrite lookup_insert_ne by done. naive_solver.
Qed.

(** A new entry is added at the back. *)
Lemma new_entry_spec ml now mac0 vlan0 :
  inv ml -> (forall e, e ∈ lrus ml -> l_key (record ml e) <> (mac0, vlan0)) ->
  Z.of_nat (size (entries ml)) < 1000000 ->
  let e := fresh (dom (entries ml)) in
  let ml0 := ml <| table ::= hmap_insert e (hash_mac mac0 vlan0 (secret ml)) |>
                <| entries ::= <[e := mk_entry 0 TIME_MIN mac0 vlan0 None]> |>
                <| total_learned ::= λ x, u64 (x + 1) |> in
  e ∉ lrus ml /\
  used ml (mark_used ml0 now e) (lrus ml) e (mk_learned mac0 vlan0 0 (now + idle_time ml) TIME_MIN).
Proof.
  intros I Hk Hsz e ml0. pose proof I as [I1 I2 I3 I4 I5].
  assert (entries ml !! e = None) as Hn by (apply not_elem_of_dom, is_fresh).
  assert (e ∉ lrus ml) as Hel by (rewrite (in_lrus hash_mac hash_pointer), Hn by done; by intros []).
  destruct (mark_used_fields ml0 now e) as ([] & Et & Ep & Eu & El & Ee & Em & En).
  assert (owner ml0 e = None) as Ho0 by (unfold owner, ml0; rsimpl; by rewrite lookup_insert_eq).
  assert (forall x, owner (mark_used ml0 now e) x = owner ml x) as Ho.
  { intros x. rewrite mark_used_owner. destruct (decide (x = e)) as [-> | Hx]; [by rewrite Ho0; unfold owner; rewrite Hn |].
    unfold owner, ml0. rsimpl. by rewrite lookup_insert_ne. }
  rewrite Ho0 in Em. split; [done |]. set (ml' := mark_used ml0 now e) in *.
  assert (forall x, x <> e -> record ml' x = record ml x) as Hr.
  { intros x Hx. apply record_eq.
    - apply strip_entry. rewrite Ee. unfold ml0. rsimpl. by rewrite !lookup_fmap, lookup_alter_ne, lookup_insert_ne.
    - rewrite !get_port_owner, Ho, Em. done. }
  constructor; [done | | done | | done | | done].
  - constructor; [| | | by rewrite c_max0 | by rewrite c_idle0].
    + rewrite c_secret0, Et, El, Ee. rewrite fmap_alter_same by done. unfold ml0. rsimpl. rewrite fmap_insert.
      cbn [key mac vlan].
      assert (forall x, key <$> entries ml !! x <> Some (mac0, vlan0)) as Hkey.
      { intros x E. destruct (entries ml !! x) as [en |] eqn:Ex; [| done]. injection E as E1 E2.
        apply (Hk x); [apply (in_lrus hash_mac hash_pointer); by rewrite ?Ex |].
        rewrite (record_key ml x en Ex). unfold key. congruence. }
      apply (entries_ok_insert _ _ _ _ e (mac0, vlan0)); [done | by rewrite lookup_fmap, Hn | | rewrite map_size_fmap; lia].
      intros x. by rewrite lookup_fmap.
    + rewrite c_secret0, Ep, Eu, Em. by apply (ports_ok_ext _ _ _ _ _ (owner ml)).
    + rewrite Ee, <- size_dom, dom_alter_L, size_dom. unfold ml0. rsimpl. rewrite map_size_insert_None by done. lia.
  - unfold ml'. rewrite (proj1 (mark_used_record ml0 now e)) by (unfold ml0; rsimpl; by rewrite lookup_insert_eq).
    unfold record, entry. rewrite get_port_owner, Ho0. unfold ml0. rsimpl. by rewrite lookup_total_insert_eq.
  - intros Hord p mp Hp. rewrite Em in Hp. rewrite (Hord p mp Hp), El. unfold push_back. rewrite filter_app.
    rewrite (list_filter_iff (λ x, owner ml' x = Some p) (λ x, owner ml x = Some p)) by (intros x; by rewrite Ho).
    rewrite (filter_cons_False _ e []) by (rewrite Ho; unfold owner; by rewrite Hn). by rewrite app_nil_r.
Qed.

(** ** Insertion *)

(** The addresses before the one that is inserted, and the latter. *)
Definition inserted (first : bool) (idle max now : Z) (k : Z * Z) (l l0 : list learned) (r : learned) : Prop :=
  match lookup_key k l with
  | Some r0 => l0 = remove_key k l /\ r = r0 <| l_expires := now + idle |>
  | None =>
      (if max <=? Z.of_nat (length l) then evicts first l l0 else l0 = l) /\
      r = mk_learned k.1 k.2 0 (now + idle) TIME_MIN
  end.

Lemma size_lrus ml : inv ml -> size (entries ml) = length (lrus ml).
Proof.
  intros I. pose proof (i_entries _ _ _ I) as [_ _ Hnd _]. rewrite <- size_dom.
  assert (dom (entries ml) = list_to_set (lrus ml)) as ->.
  { apply set_eq. intros x. rewrite elem_of_dom, elem_of_list_to_set. by rewrite (in_lrus hash_mac hash_pointer). }
  by apply size_list_to_set.
Qed.

Lemma count_lrus ml : inv ml -> hmap_count (table ml) = Z.of_nat (length (lrus ml)).
Proof.
  intros I. rewrite (hmap_count_size _ _ (e_table _ _ _ _ _ (i_entries _ _ _ I))).
  by rewrite !map_size_fmap, size_lrus.
Qed.

Lemma used_abs ml ml' l e r :
  used ml ml' l e r -> e ∉ l -> abs ml' = (record ml <$> l) ++ [r].
Proof.
  intros [] He. unfold abs. rewrite u_lrus0. unfold push_back. rewrite fmap_app. cbn. rewrite u_record_e0. f_equal.
  apply list_fmap_ext. intros i x Hx. apply u_record0. intros ->. apply He. by eapply list_elem_of_lookup_2.
Qed.

Lemma used_weaken ml0 ml ml' l e r :
  config ml0 ml -> (ordered ml0 -> ordered ml) -> used ml ml' l e r ->
  inv ml' /\ config ml0 ml' /\ lrus ml' = l ++ [e] /\ record ml' e = r /\ (ordered ml0 -> ordered ml').
Proof.
  intros C O []. split; [done |]. split; [by apply (config_trans _ ml) |]. split; [done |]. split; [done |]. auto.
Qed.

(** The flag for revalidation is not lost. *)
Definition keeps_need ml ml' : Prop := need_revalidate ml = true -> need_revalidate ml' = true.

Lemma insert_spec ml first now mac0 vlan0 :
  inv ml -> settled ml -> (first = true -> ordered ml) ->
  exists e ml' l l0 r,
    mac_learning_insert hash_mac hash_pointer ml now mac0 vlan0 = Some (e, ml') /\
    inv ml' /\ config ml ml' /\ lrus ml' = l ++ [e] /\ record ml' e = r /\ (ordered ml -> ordered ml') /\
    keeps_need ml ml' /\ abs ml' = l0 ++ [r] /\ inserted first (idle_time ml) (max_entries ml) now (mac0, vlan0) (abs ml) l0 r.
Proof.
  intros I Hs Hf. unfold mac_learning_insert, inserted. rewrite (lookup_key_abs hash_mac hash_pointer ml mac0 vlan0 I).
  pose proof (lookup_spec hash_mac hash_pointer ml mac0 vlan0 I) as Hl.
  destruct (mac_entry_lookup hash_mac ml mac0 vlan0) as [e |]; cbn [fmap option_fmap option_map mbind option_bind].
  - destruct Hl as [He Ek]. pose proof (touch_spec ml now e I He) as U.
    destruct (used_weaken ml ml _ _ e _ ltac:(done) ltac:(done) U) as (U1 & U2 & U3 & U4 & U5).
    eexists e, _, _, _, _. repeat (split; [eassumption || reflexivity |]).
    split; [by unfold keeps_need; rewrite (u_need _ _ _ _ _ U) |]. split.
    + apply (used_abs _ _ _ _ _ U). rewrite elem_of_list_remove. tauto.
    + rewrite <- Ek. by rewrite (remove_key_abs hash_mac hash_pointer).
  - rewrite (count_lrus ml I). unfold abs at 2. rewrite length_fmap. pose proof (i_max _ _ _ I) as Hmax.
    pose proof (i_size _ _ _ I) as Hsz. pose proof (size_lrus ml I) as Hlen.
    destruct (Z.leb_spec (max_entries ml) (Z.of_nat (length (lrus ml)))) as [Hfull | Hfull].
    + destruct (evict_spec hash_mac hash_pointer ml first I Hs) as (ml1 & x & -> & R & Hx & Hev & Hnd1).
      { intros E. rewrite E in Hfull. cbn in Hfull. lia. } { done. }
      cbn [mbind option_bind]. pose proof (r_inv _ _ _ _ _ R) as I1. pose proof (i_entries _ _ _ I) as [_ _ Hnd _].
      destruct (new_entry_spec ml1 now mac0 vlan0 I1) as [Hn U].
      * intros e. rewrite (r_lrus _ _ _ _ _ R), elem_of_list_remove. intros [Hne He].
        rewrite (r_record _ _ _ _ _ R) by done. by apply Hl.
      * rewrite (size_lrus ml1 I1), (r_lrus _ _ _ _ _ R), length_list_remove by done. lia.
      * cbv zeta in U. pose proof (r_config _ _ _ _ _ R) as C. rewrite (c_secret _ _ C) in U.
        destruct (used_weaken ml ml1 _ _ _ _ C (r_ordered _ _ _ _ _ R) U) as (U1 & U2 & U3 & U4 & U5).
        eexists _, _, _, _, _. repeat (split; [eassumption || reflexivity |]).
        split; [by unfold keeps_need; rewrite (u_need _ _ _ _ _ U) |]. split.
        -- by apply (used_abs _ _ _ _ _ U).
        -- split; [done |]. by rewrite (c_idle _ _ C).
    + cbn [mbind option_bind]. destruct (new_entry_spec ml now mac0 vlan0 I Hl ltac:(lia)) as [Hn U].
      cbv zeta in U. destruct (used_weaken ml ml _ _ _ _ ltac:(done) ltac:(done) U) as (U1 & U2 & U3 & U4 & U5).
      eexists _, _, _, _, _. repeat (split; [eassumption || reflexivity |]).
      split; [by unfold keeps_need; rewrite (u_need _ _ _ _ _ U) |]. split; [| done].
      by apply (used_abs _ _ _ _ _ U).
Qed.

(** ** Learning *)

(** Learning that address [k] is on [port0] at time [now]. *)
Definition learn (first : bool) (idle max now : Z) (k : Z * Z) (garp bond : bool) (port0 : Z)
    (l : list learned) (b : bool) (l' : list learned) : Prop :=
  exists l0 r0, inserted first idle max now k l l0 r0 /\
    let r := if garp && negb bond then r0 <| l_lock := now + MAC_GRAT_ARP_LOCK_TIME |> else r0 in
    if garp && bond && (now <? l_lock r) then b = false /\ l' = l0 ++ [r]
    else b = negb (l_port r =? port0) /\ l' = l0 ++ [r <| l_port := port0 |>].

Definition ports_known (l : list learned) : Prop := Forall (λ r, l_port r <> 0) l.

Lemma settled_known ml : settled ml <-> ports_known (abs ml).
Proof.
  unfold settled, ports_known, abs. rewrite Forall_fmap, Forall_forall. done.
Qed.

Lemma set_lock_spec ml now e :
  inv ml -> e ∈ lrus ml ->
  let ml' := mac_entry_set_grat_arp_lock ml now e in
  inv ml' /\ config ml ml' /\ lrus ml' = lrus ml /\
  record ml' e = record ml e <| l_lock := now + MAC_GRAT_ARP_LOCK_TIME |> /\
  (forall x, x <> e -> record ml' x = record ml x) /\ (ordered ml -> ordered ml') /\
  need_revalidate ml' = need_revalidate ml.
Proof.
  intros I [en He]%(in_lrus hash_mac hash_pointer ml e I). cbv zeta. unfold mac_entry_set_grat_arp_lock. set (ml' := upd _ _ _).
  assert (forall x, owner ml' x = owner ml x) as Ho.
  { intros x. unfold owner, ml'. rsimpl. rewrite lookup_alter. case_decide; [subst x; by rewrite He | done]. }
  assert (forall x, mac_entry_get_port ml' x = mac_entry_get_port ml x) as Hp.
  { intros x. by rewrite !get_port_owner, Ho. }
  split; [| split; [done | split; [done | split; [| split; [| split; [| done]]]]]].
  - apply (inv_ext hash_mac hash_pointer ml); try done; try apply I. unfold ml'. rsimpl. by apply fmap_alter_same.
  - unfold record. rewrite Hp. unfold entry, ml'. rsimpl. by rewrite !lookup_total_alt, lookup_alter_eq, He.
  - intros x Hx. unfold record. rewrite Hp. unfold entry, ml'. rsimpl. by rewrite !lookup_total_alt, lookup_alter_ne.
  - intros Hord p mp Hm. rewrite (Hord p mp Hm). apply list_filter_iff. intros x. by rewrite Ho.
Qed.

(** Changing the record of the last entry only. *)
Lemma abs_last ml ml' l e :
  inv ml -> lrus ml = l ++ [e] -> lrus ml' = lrus ml -> (forall x, x <> e -> record ml' x = record ml x) ->
  abs ml' = (record ml <$> l) ++ [record ml' e].
Proof.
  intros I El El' Hr. pose proof (i_entries _ _ _ I) as [_ _ Hnd _]. rewrite El in Hnd.
  apply NoDup_app in Hnd as (_ & Hnd & _). unfold abs. rewrite El', El, fmap_app. f_equal.
  apply list_fmap_ext. intros i x Hx. apply Hr. intros ->. apply list_elem_of_lookup_2 in Hx.
  apply (Hnd e Hx). set_solver.
Qed.

Lemma set_same_port r port0 : l_port r = port0 -> r <| l_port := port0 |> = r.
Proof. intros <-. by destruct r. Qed.

(** The last entry is given to [port0]. *)
Lemma set_last_spec ml l e port0 :
  inv ml -> lrus ml = l ++ [e] -> mac_entry_get_port ml e <> port0 ->
  exists ml', mac_entry_set_port hash_pointer ml e port0 = Some ml' /\
    inv ml' /\ config ml ml' /\ (ordered ml -> ordered ml') /\ need_revalidate ml' = true /\
    abs ml' = (record ml <$> l) ++ [record ml e <| l_port := port0 |>].
Proof.
  intros I El Hp. destruct (entry_set_port_spec hash_mac hash_pointer ml e port0 I) as (ml' & E & S); [rewrite El; set_solver |].
  destruct (set_port_record hash_mac hash_pointer _ _ _ _ S) as [Se So]. pose proof (s_frame _ _ _ _ _ _ S) as F.
  exists ml'. split; [done |]. split; [apply S |]. split; [by apply frame_config |]. split; [| split].
  - intros Hord. apply (s_ordered _ _ _ _ _ _ S); [done | right]. rewrite El. apply last_snoc.
  - by apply (s_need _ _ _ _ _ _ S).
  - rewrite (abs_last ml ml' l e I El); [by rewrite Se | by rewrite (f_lrus _ _ F) | done].
Qed.

Lemma update_table_spec ml first now src vlan0 garp bond port0 :
  inv ml -> settled ml -> (first = true -> ordered ml) -> mac_learning_may_learn ml src vlan0 = true ->
  exists b ml', update_learning_table__ hash_mac hash_pointer ml now src vlan0 garp bond port0 = Some (b, ml') /\
    inv ml' /\ config ml ml' /\ (ordered ml -> ordered ml') /\ keeps_need ml ml' /\
    (b = true -> need_revalidate ml' = true) /\
    learn first (idle_time ml) (max_entries ml) now (src, vlan0) garp bond port0 (abs ml) b (abs ml').
Proof.
  intros I Hs Hf Hm. unfold update_learning_table__. rewrite Hm. cbn [negb].
  destruct (insert_spec ml first now src vlan0 I Hs Hf) as (e & ml1 & l & l0 & r0 & -> & I1 & C1 & El & Er & O1 & N1 & Ea & Hins).
  cbn [mbind option_bind]. cbv zeta.
  set (ml2 := if garp && negb bond then mac_entry_set_grat_arp_lock ml1 now e else ml1).
  set (r := if garp && negb bond then r0 <| l_lock := now + MAC_GRAT_ARP_LOCK_TIME |> else r0).
  assert (e ∈ lrus ml1) as He by (rewrite El; set_solver).
  assert (inv ml2 /\ config ml ml2 /\ lrus ml2 = lrus ml1 /\ record ml2 e = r /\
          (forall x, x <> e -> record ml2 x = record ml1 x) /\ (ordered ml -> ordered ml2) /\ keeps_need ml ml2)
    as (I2 & C2 & El2 & Er2 & Ho2 & O2 & N2).
  { subst ml2 r. destruct (garp && negb bond); [| done].
    destruct (set_lock_spec ml1 now e I1 He) as (J1 & J2 & J3 & J4 & J5 & J6 & J7).
    split; [done |]. split; [by apply (config_trans _ ml1) |]. split; [done |]. split; [by rewrite J4, Er |].
    split; [done |]. split; [auto |]. unfold keeps_need. by rewrite J7. }
  assert (abs ml2 = l0 ++ [r]) as Ea2.
  { rewrite (abs_last ml1 ml2 l e I1 El El2 Ho2), Er2. unfold abs in Ea. rewrite El, fmap_app in Ea.
    by apply app_inj_2 in Ea as [-> _]. }
  change (mac_entry_is_grat_arp_locked ml2 now e) with (now <? l_lock (record ml2 e)). rewrite Er2.
  assert (mac_entry_get_port ml2 e = l_port r) as Ep2 by (by rewrite <- Er2).
  destruct (garp && bond && (now <? l_lock r)) eqn:Elock.
  { exists false, ml2. repeat (split; [done |]). exists l0, r0. split; [done |]. cbv zeta. fold r. by rewrite Elock. }
  rewrite Ep2. destruct (Z.eqb_spec (l_port r) port0) as [Ep | Ep]; cbn [negb].
  { exists false, ml2. repeat (split; [done |]). exists l0, r0. split; [done |]. cbv zeta. fold r. rewrite Elock.
    rewrite set_same_port by done. by rewrite (proj2 (Z.eqb_eq _ _) Ep). }
  set (ml2' := if negb (l_port r =? 0) then _ else ml2).
  assert (inv ml2') as I2'.
  { unfold ml2'. destruct (negb (l_port r =? 0)); [| done]. by apply (inv_ext hash_mac hash_pointer ml2); try apply I2. }
  destruct (set_last_spec ml2' l e port0 I2') as (ml3 & -> & I3 & C3 & O3 & N3 & Ea3).
  1, 2: unfold ml2'; destruct (negb (l_port r =? 0)); (done || rsimpl; congruence).
  assert (config ml2 ml2' /\ (ordered ml2 -> ordered ml2') /\ (record ml2' <$> l) ++ [record ml2' e <| l_port := port0 |>]
          = (record ml2 <$> l) ++ [record ml2 e <| l_port := port0 |>]) as (C2' & O2' & Er2')
    by (unfold ml2'; by destruct (negb (l_port r =? 0))).
  rewrite Er2' in Ea3. cbn [mbind option_bind]. exists true, ml3. split; [done |]. split; [done |].
  split; [by apply (config_trans _ ml2), (config_trans _ ml2') |]. split; [auto |]. split; [by intros _ |].
  split; [done |]. exists l0, r0. split; [done |]. cbv zeta. fold r. rewrite Elock, (proj2 (Z.eqb_neq _ _) Ep). split; [done |].
  rewrite Ea3, Er2. unfold abs in Ea2. rewrite El2, El, fmap_app in Ea2. by apply app_inj_2 in Ea2 as [-> _].
Qed.

End spec.
End MacLearningSpec.
