(* ===== verification/MacLearningThms.v ===== *)
(** The MAC learning table as a whole: every sequence of operations refines a list of addresses,
    aging is exact, the flag for revalidation is complete, and the fast path of learning is
    sound. *)
From stdpp Require Import gmap.
From S2P Require Import Prelude Containers Heap Hmap MacLearning MacLearningInv MacLearningOps MacLearningSpec.

Module MacLearningThms.
Import MacLearning MacLearningInv MacLearningOps MacLearningSpec.

(** ** The specification *)

Record state := mk_state {
  sp_flood : option Z;
  sp_idle : Z;
  sp_max : Z;
  sp_list : list learned;
}.

#[export] Instance state_eta : RecordEta state := λ r, mk_state (sp_flood r) (sp_idle r) (sp_max r) (sp_list r).

Inductive op :=
  | Update (now src vlan0 : Z) (garp bond : bool) (port0 : Z)
  | Expire (dst vlan0 : Z)
  | Flush
  | Run (now : Z)
  | SetIdle (idle : Z)
  | SetMax (max : Z)
  | SetFlood (bitmap : option Z)
  | Move (old new : Z)
  | FlushPort (port0 : Z).

Definition learnable (flood : option Z) (src vlan0 : Z) : bool :=
  match flood with None => true | Some b => negb (Z.testbit b vlan0) end && negb (eth_addr_is_multicast src).

(** The address is known on the port, or locked, and was used within the last second, the age
    being a 32-bit number. *)
Definition current (idle now : Z) (k : Z * Z) (garp bond : bool) (port0 : Z) (l : list learned) : Prop :=
  exists r, lookup_key k l = Some r /\ s32 (idle - (l_expires r - now)) = 0 /\ garp && negb bond = false /\
    (garp && (now <? l_lock r) = true \/ l_port r = port0).

(** The front of the list goes while it is too long or its first address is too old. *)
Fixpoint expire_front (max now : Z) (l : list learned) : list learned :=
  match l with
  | [] => []
  | r :: l' => if (max <? Z.of_nat (length l)) || (l_expires r <=? now) then expire_front max now l' else l
  end.

Definition clamp_max (max : Z) : Z := if max <? 10 then 10 else if 1000 * 1000 <? max then 1000 * 1000 else max.

Definition spec_step (first : bool) (o : op) (s : state) (b : bool) (s' : state) : Prop :=
  match o with
  | Update now src vlan0 garp bond port0 =>
      if (port0 =? 0) || negb (learnable (sp_flood s) src vlan0) then b = false /\ s' = s
      else exists l', s' = s <| sp_list := l' |> /\
        (learn first (sp_idle s) (sp_max s) now (src, vlan0) garp bond port0 (sp_list s) b l' \/
         current (sp_idle s) now (src, vlan0) garp bond port0 (sp_list s) /\ b = false /\ l' = sp_list s)
  | Expire dst vlan0 =>
      s' = if learnable (sp_flood s) dst vlan0 then s <| sp_list ::= remove_key (dst, vlan0) |> else s
  | Flush => s' = s <| sp_list := [] |>
  | Run now => s' = s <| sp_list ::= expire_front (sp_max s) now |>
  | SetIdle idle =>
      let idle := normalize_idle_time idle in
      s' = s <| sp_idle := idle |> <| sp_list ::= fmap (λ r, r <| l_expires ::= Z.add (idle - sp_idle s) |>) |>
  | SetMax max => s' = s <| sp_max := clamp_max max |>
  | SetFlood bitmap => b = negb (vlan_bitmap_equal (sp_flood s) bitmap) /\ s' = s <| sp_flood := bitmap |>
  | Move old new => s' = s <| sp_list ::= fmap (λ r, if l_port r =? old then r <| l_port := new |> else r) |>
  | FlushPort port0 => s' = s <| sp_list ::= filter (λ r, l_port r <> port0) |>
  end.

(** What the callers ensure; moves between ports lose the order within a port. *)
Definition allowed (first : bool) (o : op) : Prop :=
  match o with
  | Update now _ _ _ _ _ => 0 <= now
  | Move _ new => first = false /\ new <> 0
  | _ => True
  end.

Section theorems.
Context {T Q : Type} {HT : HashTable T} {HTok : HashTableOk T}.
Context {PQ : PriorityQueue Q} {PQok : PriorityQueueOk Q}.
Context (hash_mac : Z -> Z -> Z -> Z) (hash_pointer : Z -> Z -> Z).

Abbreviation ml_t := (mac_learning T Q).
Abbreviation inv := (inv hash_mac hash_pointer).
Implicit Types (ml : ml_t) (e p : nat).

Definition view ml : state := mk_state (flood_vlans ml) (idle_time ml) (max_entries ml) (abs ml).

Definition exec (o : op) ml : option (bool * ml_t) :=
  match o with
  | Update now src vlan0 garp bond port0 =>
      mac_learning_update hash_mac hash_pointer ml now src vlan0 garp bond port0
  | Expire dst vlan0 =>
      found ← mac_learning_lookup hash_mac ml dst vlan0;
      match found with Some e => ml ← mac_learning_expire hash_pointer ml e; Some (true, ml) | None => Some (false, ml) end
  | Flush => ml ← mac_learning_flush hash_pointer ml; Some (true, ml)
  | Run now => mac_learning_run hash_pointer ml now
  | SetIdle idle => Some (false, mac_learning_set_idle_time ml idle)
  | SetMax max => Some (false, mac_learning_set_max_entries ml max)
  | SetFlood bitmap => Some (mac_learning_set_flood_vlans ml bitmap)
  | Move old new => ml ← bundle_move hash_pointer ml old new; Some (true, ml)
  | FlushPort port0 => ml ← bundle_flush_macs hash_pointer ml port0; Some (true, ml)
  end.

(** ** Lookup and the fast path *)

Lemma lookup_total_ok ml dst vlan0 :
  inv ml -> settled ml ->
  mac_learning_lookup hash_mac ml dst vlan0
  = Some (if learnable (flood_vlans ml) dst vlan0 then mac_entry_lookup hash_mac ml dst vlan0 else None).
Proof.
  intros I Hs. unfold mac_learning_lookup, learnable, is_learning_vlan.
  destruct (eth_addr_is_multicast dst); [by rewrite andb_false_r |]. rewrite andb_true_r.
  set (b := match flood_vlans ml with None => _ | Some _ => _ end). destruct b; [| done]. cbn [negb].
  pose proof (lookup_spec hash_mac hash_pointer ml dst vlan0 I) as Hl.
  destruct (mac_entry_lookup hash_mac ml dst vlan0) as [e |]; [| done]. destruct Hl as [He _].
  rewrite (proj2 (Z.eqb_neq _ 0)); [done | by apply Hs].
Qed.

Lemma needed_false ml now src vlan0 garp bond port0 :
  inv ml -> settled ml -> learnable (flood_vlans ml) src vlan0 = true ->
  exists b, is_mac_learning_update_needed hash_mac ml now src vlan0 garp bond port0 = Some b /\
    (b = false -> current (idle_time ml) now (src, vlan0) garp bond port0 (abs ml)).
Proof.
  intros I Hs Hl. unfold is_mac_learning_update_needed.
  change (mac_learning_may_learn ml src vlan0) with (learnable (flood_vlans ml) src vlan0). rewrite Hl.
  rewrite (lookup_total_ok ml src vlan0 I Hs), Hl. cbn [negb mbind option_bind]. eexists. split; [reflexivity |].
  pose proof (lookup_key_abs hash_mac hash_pointer ml src vlan0 I) as Hk. unfold current. rewrite Hk.
  destruct (mac_entry_lookup hash_mac ml src vlan0) as [e |]; [| done].
  unfold mac_entry_age, mac_entry_is_grat_arp_locked. intros Hb. exists (record ml e). split; [done |].
  destruct (Z.eqb_spec (s32 (idle_time ml - (expires (entry ml e) - now))) 0) as [Ea | Ea]; [| done].
  split; [done |]. cbn [negb] in Hb. destruct (garp && negb bond) eqn:E1; [done |]. split; [done |].
  destruct (garp && (now <? grat_arp_lock (entry ml e))) eqn:E2; [by left |]. right.
  destruct (Z.eqb_spec (mac_entry_get_port ml e) port0); [done | by cbn in Hb].
Qed.

(** ** Repeated expiry *)

Lemma expire_all_spec (P : learned -> bool) l : forall ml,
  inv ml -> NoDup l -> (forall e, e ∈ l -> e ∈ lrus ml) ->
  exists ml', foldl (λ oml e, ml ← oml; if P (record ml e) then mac_learning_expire hash_pointer ml e else Some ml)
                (Some ml) l = Some ml' /\
    inv ml' /\ config ml ml' /\ lrus ml' = filter (λ e, ~ (e ∈ l /\ P (record ml e) = true)) (lrus ml) /\
    (forall x, x ∈ lrus ml' -> record ml' x = record ml x) /\ (ordered ml -> ordered ml') /\ keeps_need ml ml' /\
    (need_revalidate ml' = true \/ lrus ml' = lrus ml).
Proof.
  induction l as [| e l IH]; intros ml I Hnd Hl.
  - exists ml. split; [done |]. split; [done |]. split; [done |].
    split; [| split; [done | split; [done | split; [by intros ? | by right]]]].
    symmetry. apply filter_all. set_solver.
  - apply NoDup_cons in Hnd as [He Hnd]. cbn [foldl mbind option_bind]. destruct (P (record ml e)) eqn:EP.
    + destruct (expire_spec hash_mac hash_pointer ml e I) as (ml1 & -> & R & Hn); [set_solver |].
      pose proof R as [R1 R2 R3 R4 R5].
      destruct (IH ml1 R2 Hnd) as (ml' & E & I' & C' & L' & Rec & O' & N' & _).
      { intros x Hx. rewrite R3, elem_of_list_remove. split; [by intros -> | set_solver]. }
      exists ml'. split; [done |]. split; [done |]. split; [by apply (config_trans _ ml1) |].
      assert (forall x, x <> e -> record ml1 x = record ml x) as Hr by done.
      split; [| split; [| split; [auto | split; [by intros _; apply N' | left; by apply N']]]].
      * rewrite L', R3, filter_list_remove. unfold list_remove. rewrite list_filter_filter. apply list_filter_iff.
        intros x. destruct (decide (x = e)) as [-> | Hx]; [set_solver | rewrite Hr by done; set_solver].
      * intros x Hx. rewrite Rec by done. apply Hr. intros ->. rewrite L', R3 in Hx.
        apply list_elem_of_filter in Hx as [_ Hx]. by apply elem_of_list_remove in Hx as [? _].
    + destruct (IH ml I Hnd) as (ml' & E & I' & C' & L' & Rec & O' & N' & D'); [set_solver |].
      exists ml'. split; [done |]. split; [done |]. split; [done |]. split; [| done].
      rewrite L'. apply list_filter_iff. intros x. destruct (decide (x = e)) as [-> | Hx]; [rewrite EP; set_solver | set_solver].
Qed.

Lemma expire_front_entry ml e l :
  inv ml -> lrus ml = e :: l ->
  exists ml', mac_learning_expire hash_pointer ml e = Some ml' /\ inv ml' /\ config ml ml' /\ lrus ml' = l /\
    abs ml = record ml e :: abs ml' /\ (ordered ml -> ordered ml') /\ need_revalidate ml' = true.
Proof.
  intros I El. destruct (expire_spec hash_mac hash_pointer ml e I) as (ml' & E & R & Hn); [rewrite El; set_solver |].
  pose proof (removed_abs hash_mac hash_pointer ml ml' e [] l I R El) as Ea. pose proof R as [R1 R2 R3 R4 R5].
  exists ml'. split; [done |]. split; [done |]. split; [done |]. split.
  { pose proof (i_entries _ _ _ I) as [_ _ Hnd _]. rewrite El in Hnd. apply NoDup_cons in Hnd as [Hnd _].
    rewrite R3, El. apply (list_remove_split e [] l); [set_solver | done]. }
  split; [| done]. rewrite Ea. unfold abs. by rewrite El.
Qed.

Lemma flush_loop_spec fuel : forall ml,
  inv ml -> (length (lrus ml) <= fuel)%nat ->
  exists ml', flush_loop hash_pointer fuel ml = Some ml' /\ inv ml' /\ config ml ml' /\ abs ml' = [] /\ lrus ml' = [] /\
    (ordered ml -> ordered ml') /\ keeps_need ml ml' /\ (need_revalidate ml' = true \/ abs ml = []).
Proof.
  induction fuel as [| fuel IH]; intros ml I Hf; destruct (lrus ml) as [| e l] eqn:El; cbn [length] in Hf; try lia;
    cbn [flush_loop]; unfold get_lru; rewrite ?El; cbn [head].
  1, 2: exists ml; unfold abs; rewrite El; split; [done |]; split; [done |]; split; [done |];
        split; [done |]; split; [done |]; split; [done |]; split; [by intros ? | by right].
  destruct (expire_front_entry ml e l I El) as (ml1 & -> & I1 & C1 & L1 & A1 & O1 & N1). cbn [mbind option_bind].
  destruct (IH ml1 I1) as (ml' & E & I' & C' & A' & L' & O' & N' & _); [rewrite L1; lia |].
  exists ml'. split; [done |]. split; [done |]. split; [by apply (config_trans _ ml1) |]. split; [done |].
  split; [done |]. split; [auto |]. split; [by intros _; apply N' | left; by apply N'].
Qed.

Lemma run_loop_spec fuel now : forall ml,
  inv ml -> (length (lrus ml) <= fuel)%nat ->
  exists ml', run_loop hash_pointer fuel now ml = Some ml' /\ inv ml' /\ config ml ml' /\
    abs ml' = expire_front (max_entries ml) now (abs ml) /\
    (ordered ml -> ordered ml') /\ keeps_need ml ml' /\ (need_revalidate ml' = true \/ abs ml' = abs ml).
Proof.
  induction fuel as [| fuel IH]; intros ml I Hf; destruct (lrus ml) as [| e l] eqn:El; cbn [length] in Hf; try lia;
    cbn [run_loop]; unfold get_lru; rewrite ?El; cbn [head].
  1, 2: exists ml; unfold abs; rewrite El; split; [done |]; split; [done |]; split; [done |];
        split; [done |]; split; [done |]; split; [by intros ? | by right].
  rewrite (count_lrus hash_mac hash_pointer ml I).
  assert (abs ml = record ml e :: (record ml <$> l)) as Ea by (unfold abs; by rewrite El).
  assert (expire_front (max_entries ml) now (abs ml)
          = if (max_entries ml <? Z.of_nat (length (lrus ml))) || (expires (entry ml e) <=? now)
            then expire_front (max_entries ml) now (record ml <$> l) else abs ml) as Ef.
  { rewrite Ea, El. cbn [expire_front length]. by rewrite length_fmap. }
  rewrite Ef. destruct (_ || _).
  - set (ml0 := ml <| total_expired ::= λ x, u64 (x + 1) |>).
    assert (inv ml0) as I0 by (by apply (inv_ext hash_mac hash_pointer ml); try apply I).
    destruct (expire_front_entry ml0 e l I0 El) as (ml1 & -> & I1 & C1 & L1 & A1 & O1 & N1). cbn [mbind option_bind].
    destruct (IH ml1 I1) as (ml' & E & I' & C' & A' & O' & N' & _); [rewrite L1; lia |].
    exists ml'. split; [done |]. split; [done |]. split; [by apply (config_trans _ ml1); destruct C1 |].
    change (abs ml0) with (abs ml) in A1. rewrite Ea in A1. injection A1 as A1. rewrite A1.
    split; [by rewrite A', (c_max _ _ C1) |]. split; [auto |]. split; [by intros _; apply N' | left; by apply N'].
  - exists ml. split; [done |]. split; [done |]. split; [done |].
    split; [done |]; split; [done |]; split; [by intros ? | by right].
Qed.

(** ** Moves between ports *)

Lemma move_all_spec old new l : forall ml,
  inv ml -> NoDup l -> (forall e, e ∈ l -> e ∈ lrus ml) ->
  exists ml', foldl (λ oml e, ml ← oml; if mac_entry_get_port ml e =? old then mac_entry_set_port hash_pointer ml e new
                                        else Some ml) (Some ml) l = Some ml' /\
    inv ml' /\ config ml ml' /\ lrus ml' = lrus ml /\ keeps_need ml ml' /\
    (forall x, record ml' x = if decide (x ∈ l) then
       (if l_port (record ml x) =? old then record ml x <| l_port := new |> else record ml x) else record ml x) /\
    (need_revalidate ml' = true \/ forall x, record ml' x = record ml x).
Proof.
  induction l as [| e l IH]; intros ml I Hnd Hl.
  - exists ml. split; [done |]. split; [done |]. split; [done |]. split; [done |].
    split; [by intros ? |]. split; [done | by right].
  - apply NoDup_cons in Hnd as [He Hnd]. cbn [foldl mbind option_bind].
    change (mac_entry_get_port ml e) with (l_port (record ml e)).
    destruct (l_port (record ml e) =? old) eqn:Ep.
    + destruct (entry_set_port_spec hash_mac hash_pointer ml e new I) as (ml1 & -> & S); [set_solver |].
      destruct (set_port_record hash_mac hash_pointer _ _ _ _ S) as [Se So]. pose proof (s_frame _ _ _ _ _ _ S) as F.
      destruct (IH ml1) as (ml' & E & I' & C' & L' & N' & R' & D'); [apply S | done | rewrite (f_lrus _ _ F); set_solver |].
      exists ml'. split; [done |]. split; [done |].
      split; [apply (config_trans _ ml1); [by apply frame_config | done] |].
      split; [by rewrite L', (f_lrus _ _ F) |]. split; [intros H; by apply N', (f_need _ _ F) |]. split.
      * intros x. rewrite R'. destruct (decide (x = e)) as [-> | Hx].
        -- rewrite decide_False, decide_True, Ep by set_solver. done.
        -- rewrite So by done. destruct (decide (x ∈ l)); [rewrite decide_True by set_solver | rewrite decide_False by set_solver]; done.
      * destruct (decide (mac_entry_get_port ml e = new)) as [En | En].
        -- destruct D' as [? | D']; [by left | right]. intros x. rewrite D'. destruct (decide (x = e)) as [-> | Hx]; [| by apply So].
           rewrite Se. by apply set_same_port.
        -- left. by apply N', (s_need _ _ _ _ _ _ S).
    + destruct (IH ml I Hnd) as (ml' & E & I' & C' & L' & N' & R' & D'); [set_solver |].
      exists ml'. do 5 (split; [done |]). split; [| done]. intros x. rewrite R'.
      destruct (decide (x = e)) as [-> | Hx]; [rewrite decide_False, decide_True, Ep by set_solver; done |].
      destruct (decide (x ∈ l)); [rewrite decide_True by set_solver | rewrite decide_False by set_solver]; done.
Qed.

(** ** Changing the idle time *)

Lemma shift_entries_spec delta l : forall ml : ml_t,
  NoDup l ->
  let ml' := foldl (λ ml e, ml <| entries ::= alter (λ en, en <| expires ::= Z.add delta |>) e |>) ml l in
  ml' = ml <| entries := entries ml' |> /\
  (forall x, entries ml' !! x = if decide (x ∈ l) then (λ en, en <| expires ::= Z.add delta |>) <$> entries ml !! x
                                else entries ml !! x).
Proof.
  induction l as [| e l IH]; intros ml Hnd; cbv zeta.
  - split; [by destruct ml | done].
  - apply NoDup_cons in Hnd as [He Hnd]. cbn [foldl]. set (ml1 := upd _ _ _).
    destruct (IH ml1 Hnd) as [H1 H2]. cbv zeta in H1, H2. split.
    + rewrite H1 at 1. by destruct ml.
    + intros x. rewrite H2. unfold ml1. rsimpl. destruct (decide (x = e)) as [-> | Hx].
      * rewrite decide_False, decide_True by set_solver. by rewrite lookup_alter_eq.
      * rewrite lookup_alter_ne by done.
        destruct (decide (x ∈ l)); [rewrite decide_True by set_solver | rewrite decide_False by set_solver]; done.
Qed.

Lemma set_idle_spec ml idle :
  inv ml ->
  let i := normalize_idle_time idle in
  let ml' := mac_learning_set_idle_time ml idle in
  inv ml' /\ flood_vlans ml' = flood_vlans ml /\ max_entries ml' = max_entries ml /\ idle_time ml' = i /\
  abs ml' = (λ r, r <| l_expires ::= Z.add (i - idle_time ml) |>) <$> abs ml /\
  (ordered ml -> ordered ml') /\ need_revalidate ml' = need_revalidate ml.
Proof.
  intros I. cbv zeta. unfold mac_learning_set_idle_time. cbv zeta. set (i := normalize_idle_time idle).
  assert (15 <= i <= 3600) as Hi by (subst i; unfold normalize_idle_time; zcases; lia).
  destruct (Z.eqb_spec i (idle_time ml)) as [E | E].
  { rewrite E, Z.sub_diag. do 4 (split; [done |]). split; [| done].
    symmetry. etransitivity; [| apply list_fmap_id]. apply list_fmap_ext. intros _ r _. by destruct r. }
  destruct (shift_entries_spec (i - idle_time ml) (lrus ml) ml) as [H1 H2]; [apply I |]. cbv zeta in H1, H2.
  set (ml1 := foldl _ ml (lrus ml)) in *.
  assert (forall x, owner (ml1 <| idle_time := i |>) x = owner ml x) as Ho.
  { intros x. unfold owner. rsimpl. rewrite H2. case_decide; [| done]. by destruct (entries ml !! x). }
  assert (forall x, x ∈ lrus ml -> record (ml1 <| idle_time := i |>) x
            = record ml x <| l_expires ::= Z.add (i - idle_time ml) |>) as Hr.
  { intros x Hx. assert (mac_entry_get_port (ml1 <| idle_time := i |>) x = mac_entry_get_port ml x) as Hp.
    { rewrite !get_port_owner, Ho. rewrite H1. by rsimpl. }
    unfold record. rewrite Hp. unfold entry. rsimpl. rewrite !lookup_total_alt, H2, decide_True by done.
    apply (in_lrus hash_mac hash_pointer ml x I) in Hx as [en ->]. done. }
  split; [| split; [by rsimpl; rewrite H1 | split; [by rsimpl; rewrite H1 | split; [done | split; [| split]]]]].
  - apply (inv_ext hash_mac hash_pointer ml); rsimpl; try (rewrite H1; by rsimpl); try done; [| rewrite H1; rsimpl; apply I].
    apply map_eq. intros x. rewrite !lookup_fmap, H2. case_decide; [| done]. by destruct (entries ml !! x).
  - unfold abs. rewrite <- list_fmap_compose. assert (lrus (ml1 <| idle_time := i |>) = lrus ml) as -> by (rsimpl; by rewrite H1).
    apply list_fmap_ext. intros k x Hx. apply Hr. by eapply list_elem_of_lookup_2.
  - intros Hord p mp. rsimpl. rewrite H1. rsimpl. intros Hp. rewrite (Hord p mp Hp). apply list_filter_iff. intros x.
    by rewrite <- H1, Ho.
  - rsimpl. by rewrite H1.
Qed.

(** ** Simulation *)

Definition good (first : bool) ml : Prop := inv ml /\ settled ml /\ (first = true -> ordered ml).

(** What the clients look up: addresses and their ports. *)
Definition mapping (l : list learned) : list (Z * Z * Z) := (λ r, (l_key r, l_port r)) <$> l.

Definition simulates (first : bool) (o : op) ml : Prop :=
  exists b ml', exec o ml = Some (b, ml') /\ good first ml' /\ spec_step first o (view ml) b (view ml') /\
    (match o with Run _ => b | _ => need_revalidate ml' end = false ->
     need_revalidate ml = false /\ mapping (abs ml') ≡ₚ mapping (abs ml)).

Lemma keeps_need_false ml ml' : keeps_need ml ml' -> need_revalidate ml' = false -> need_revalidate ml = false.
Proof. unfold keeps_need. destruct (need_revalidate ml); [intros H; by rewrite H | done]. Qed.

Lemma lookup_key_split k l r :
  lookup_key k l = Some r -> exists l1 l2, l = l1 ++ r :: l2 /\ l_key r = k /\ Forall (λ s, l_key s <> k) l1.
Proof.
  unfold lookup_key. induction l as [| s l IH]; [done |]. rewrite filter_cons. case_decide as E.
  - intros [= <-]. by exists [], l.
  - intros (l1 & l2 & -> & Hk & HF)%IH. exists (s :: l1), l2. split; [done |]. split; [done |]. by constructor.
Qed.

(** The addresses of a table are different. *)
Lemma abs_keys ml : inv ml -> NoDup (l_key <$> abs ml).
Proof.
  intros I. unfold abs. rewrite <- list_fmap_compose. apply NoDup_fmap_2_strong; [| apply I].
  intros x y Hx Hy. by apply (record_inj hash_mac hash_pointer ml).
Qed.

Lemma remove_key_middle k l1 r l2 :
  NoDup (l_key <$> (l1 ++ r :: l2)) -> l_key r = k -> remove_key k (l1 ++ r :: l2) = l1 ++ l2.
Proof.
  intros Hnd Hk. rewrite fmap_app, fmap_cons in Hnd. apply NoDup_app in Hnd as (_ & H1 & [H2 _]%NoDup_cons).
  assert (forall l, k ∉ l_key <$> l -> remove_key k l = l) as Hno.
  { unfold remove_key. induction l as [| s l IH]; [done |]. rewrite fmap_cons. intros [Hs Hl]%not_elem_of_cons.
    rewrite filter_cons_True by congruence. by rewrite IH. }
  unfold remove_key. rewrite filter_app, filter_cons_False by tauto. f_equal; apply Hno; subst k; [| done].
  intros H. apply (H1 _ H). set_solver.
Qed.

Lemma mapping_touch k l r r' :
  NoDup (l_key <$> l) -> lookup_key k l = Some r -> l_key r' = l_key r -> l_port r' = l_port r ->
  mapping (remove_key k l ++ [r']) ≡ₚ mapping l.
Proof.
  intros Hnd (l1 & l2 & -> & Hk & _)%lookup_key_split Ek Ep. rewrite remove_key_middle by done. unfold mapping.
  rewrite !fmap_app, fmap_cons. cbn. rewrite Ek, Ep. rewrite <- app_assoc. apply Permutation_app_head.
  by rewrite Permutation_app_comm.
Qed.

(** Learning that returns [false] changes no port. *)
Lemma learn_same first idle max now k garp bond port0 l l' :
  NoDup (l_key <$> l) -> port0 <> 0 -> 0 <= now ->
  learn first idle max now k garp bond port0 l false l' -> mapping l' ≡ₚ mapping l.
Proof.
  intros Hnd H0 Hnow (l0 & r0 & Hins & Hl). unfold inserted in Hins. cbv zeta in Hl.
  destruct (lookup_key k l) as [r1 |] eqn:Ek.
  - destruct Hins as [-> ->]. set (r := if garp && negb bond then _ else _) in Hl.
    assert (l_key r = l_key r1 /\ l_port r = l_port r1) as [E1 E2] by (subst r; by destruct (garp && negb bond)).
    destruct (garp && bond && (now <? l_lock r)); destruct Hl as [Hb ->]; [by apply (mapping_touch k l r1) |].
    symmetry in Hb. apply negb_false_iff, Z.eqb_eq in Hb. rewrite set_same_port by done. by apply (mapping_touch k l r1).
  - exfalso. destruct Hins as [_ ->]. assert ((0 =? port0) = false) as Hne by (apply Z.eqb_neq; congruence).
    assert ((now <? TIME_MIN) = false) as Hl0 by (apply Z.ltb_ge; unfold TIME_MIN; lia).
    destruct garp, bond; cbn [andb negb] in Hl; rsimpl; cbn [l_port l_lock] in Hl; rewrite ?Hl0, Hne in Hl;
      by destruct Hl as [? _].
Qed.

Lemma evicts_sublist first l l' : evicts first l l' -> l' `sublist_of` l.
Proof. intros []. apply sublist_app; [done |]. by apply sublist_cons. Qed.

Lemma known_sublist l l' : l' `sublist_of` l -> ports_known l -> ports_known l'.
Proof.
  intros Hl. unfold ports_known. rewrite !Forall_forall. intros H r Hr. apply H. by apply (elem_of_sublist l').
Qed.

Lemma inserted_known first idle max now k l l0 r :
  ports_known l -> inserted first idle max now k l l0 r ->
  ports_known l0 /\ (l_port r <> 0 \/ l_port r = 0 /\ l_lock r = TIME_MIN).
Proof.
  intros Hk. unfold inserted. destruct (lookup_key k l) as [r1 |] eqn:Ek.
  - intros [-> ->]. split; [apply (known_sublist l); [apply sublist_filter | done] |]. left. apply lookup_key_split in Ek as (l1 & l2 & -> & _ & _).
    by apply Forall_app in Hk as [_ [? _]%Forall_cons].
  - intros [Hl ->]. split; [| by right]. destruct (max <=? Z.of_nat (length l)); [| by subst].
    by apply (known_sublist l); [apply (evicts_sublist first) |].
Qed.

Lemma learn_known first idle max now k garp bond port0 l b l' :
  ports_known l -> port0 <> 0 -> 0 <= now -> learn first idle max now k garp bond port0 l b l' -> ports_known l'.
Proof.
  intros Hk H0 Hnow (l0 & r0 & Hins & Hl). destruct (inserted_known _ _ _ _ _ _ _ _ Hk Hins) as [Hk0 Hr0]. cbv zeta in Hl.
  set (r := if garp && negb bond then _ else _) in Hl.
  destruct (garp && bond && (now <? l_lock r)) eqn:E; destruct Hl as [_ ->]; apply Forall_app; (split; [done |]);
    apply Forall_singleton; [| done].
  apply andb_true_iff in E as [[Eg Eb]%andb_true_iff El]. apply Z.ltb_lt in El. subst r. rewrite Eg, Eb in *. cbn [andb negb] in *.
  destruct Hr0 as [? | [_ Hl0]]; [done |]. rewrite Hl0 in El. unfold TIME_MIN in El. lia.
Qed.

Lemma sim_same first o ml b :
  good first ml -> exec o ml = Some (b, ml) -> spec_step first o (view ml) b (view ml) ->
  (if o is Run _ then False else True) -> simulates first o ml.
Proof. intros G E S Ho. exists b, ml. split; [done |]. split; [done |]. split; [done |]. by destruct o. Qed.

Ltac sim_cbn := cbn [exec spec_step view sp_flood sp_idle sp_max sp_list].

Lemma sim_update first ml now src vlan0 garp bond port0 :
  good first ml -> 0 <= now -> simulates first (Update now src vlan0 garp bond port0) ml.
Proof.
  intros G Hnow. pose proof G as (I & Hs & Hf). destruct ((port0 =? 0) || negb (learnable (flood_vlans ml) src vlan0)) eqn:E0.
  { apply (sim_same _ _ _ false); [done | | by sim_cbn; rewrite E0 | done]. sim_cbn. unfold mac_learning_update.
    destruct (port0 =? 0); [done |]. cbn in E0. unfold is_mac_learning_update_needed.
    change (mac_learning_may_learn ml src vlan0) with (learnable (flood_vlans ml) src vlan0). by rewrite E0. }
  pose proof E0 as [E1 E2]%orb_false_iff. apply negb_false_iff in E2. apply Z.eqb_neq in E1 as Hp0.
  destruct (needed_false ml now src vlan0 garp bond port0 I Hs E2) as (b & Eb & Hcur).
  destruct b.
  - destruct (update_table_spec hash_mac hash_pointer ml first now src vlan0 garp bond port0 I Hs Hf E2)
      as (b & ml' & Eu & I' & C & O & N & Hb & Hl).
    exists b, ml'. sim_cbn. unfold mac_learning_update. rewrite E1, Eb. cbn [mbind option_bind]. split; [done |].
    split; [split; [done |]; split; [| auto] |].
    { apply settled_known. apply (learn_known _ _ _ _ _ _ _ _ _ _ _ (proj1 (settled_known ml) Hs) Hp0 Hnow Hl). }
    rewrite E2. cbn [orb negb]. split.
    + exists (abs ml'). split; [| by left]. unfold view. destruct C as [_ -> -> ->]. done.
    + intros Hn. split; [by apply (keeps_need_false ml ml') |]. destruct b; [by rewrite Hb in Hn |].
      by apply (learn_same _ _ _ _ _ _ _ _ _ _ (abs_keys ml I) Hp0 Hnow Hl).
  - apply (sim_same _ _ _ false); [done | | | done].
    + sim_cbn. unfold mac_learning_update. by rewrite E1, Eb.
    + sim_cbn. rewrite E0. exists (abs ml). split; [done |]. right. split; [by apply Hcur | done].
Qed.

Lemma sim_expire first ml dst vlan0 : good first ml -> simulates first (Expire dst vlan0) ml.
Proof.
  intros G. pose proof G as (I & Hs & Hf). destruct (learnable (flood_vlans ml) dst vlan0) eqn:El.
  2: { apply (sim_same _ _ _ false); [done | | by sim_cbn; rewrite El | done]. sim_cbn. by rewrite (lookup_total_ok ml dst vlan0 I Hs), El. }
  pose proof (lookup_spec hash_mac hash_pointer ml dst vlan0 I) as Hk.
  destruct (mac_entry_lookup hash_mac ml dst vlan0) as [e |] eqn:Ee.
  - destruct Hk as [He Ek]. destruct (expire_spec hash_mac hash_pointer ml e I He) as (ml' & Ex & R & Hn).
    pose proof R as [[_ C2 C3 C4] R2 R3 R4 R5]. exists true, ml'. sim_cbn.
    rewrite (lookup_total_ok ml dst vlan0 I Hs), El, Ee. cbn [mbind option_bind]. rewrite Ex. split; [done |].
    assert (abs ml' = remove_key (dst, vlan0) (abs ml)) as Ea.
    { rewrite <- Ek, (remove_key_abs hash_mac hash_pointer) by done. unfold abs. rewrite R3. apply list_fmap_ext.
      intros i x Hx. apply R4. apply list_elem_of_lookup_2, elem_of_list_remove in Hx as [? _]. done. }
    split; [split; [done |]; split; [| auto] |].
    { apply settled_known. rewrite Ea. apply (known_sublist (abs ml)); [apply sublist_filter | by apply settled_known]. }
    split; [| by rewrite Hn]. unfold view. by rewrite C2, C3, C4, Ea.
  - apply (sim_same _ _ _ false); [done | | | done].
    + sim_cbn. by rewrite (lookup_total_ok ml dst vlan0 I Hs), El, Ee.
    + sim_cbn. rewrite El. unfold view. unfold upd. cbn. f_equal. unfold remove_key. symmetry.
      assert (forall l : list nat, (forall x, x ∈ l -> x ∈ lrus ml) -> filter (λ r, l_key r <> (dst, vlan0)) (record ml <$> l) = record ml <$> l) as H.
      { induction l as [| x l IH]; [done |]. intros Hx. rewrite fmap_cons, filter_cons_True by (apply Hk, Hx; set_solver).
        f_equal. apply IH. set_solver. }
      by apply H.
Qed.

Lemma sim_flush first ml : good first ml -> simulates first Flush ml.
Proof.
  intros (I & Hs & Hf). destruct (flush_loop_spec (length (lrus ml)) ml I (le_n _)) as (ml1 & E & I1 & C & A & L & O & N & D).
  set (ml' := ml1 <| table ::= hmap_shrink |>). exists true, ml'. sim_cbn. unfold mac_learning_flush. rewrite E. cbn [mbind option_bind].
  assert (abs ml' = []) as A' by (unfold abs, ml'; rsimpl; by rewrite L).
  split; [done |]. split; [split; [| split] |].
  - pose proof I1 as [[J1 J2 J3 J4] J5 J6 J7 J8]. constructor; [constructor | | | |]; try done. by apply hmap_shrink_holds.
  - apply settled_known. rewrite A'. constructor.
  - intros Hfi p mp Hp. by apply (O (Hf Hfi) p mp).
  - split; [unfold view; rewrite A'; by destruct C as [_ <- <- <-] |]. intros Hn. split; [by apply (keeps_need_false ml ml1) |].
    rewrite A'. destruct D as [D | ->]; [| done]. change (need_revalidate ml1 = false) in Hn. congruence.
Qed.

Lemma expire_front_drop max now l : exists k, expire_front max now l = drop k l.
Proof.
  induction l as [| r l [k IH]]; [by exists 0%nat |]. cbn [expire_front]. destruct (_ || _); [| by exists 0%nat].
  by exists (S k).
Qed.

Lemma sim_run first ml now : good first ml -> simulates first (Run now) ml.
Proof.
  intros (I & Hs & Hf). destruct (run_loop_spec (length (lrus ml)) now ml I (le_n _)) as (ml1 & E & I1 & C & A & O & N & D).
  set (ml' := ml1 <| need_revalidate := false |>). exists (need_revalidate ml1), ml'. sim_cbn. unfold mac_learning_run.
  rewrite E. cbn [mbind option_bind]. split; [done |]. split; [split; [| split] |].
  - by apply (inv_ext hash_mac hash_pointer ml1); try apply I1.
  - apply settled_known. change (abs ml') with (abs ml1). rewrite A.
    destruct (expire_front_drop (max_entries ml) now (abs ml)) as [k ->].
    apply (known_sublist (abs ml)); [apply sublist_drop | by apply settled_known].
  - intros Hfi p mp Hp. by apply (O (Hf Hfi) p mp).
  - split; [unfold view; change (abs ml') with (abs ml1); rewrite A; by destruct C as [_ <- <- <-] |].
    intros Hn. split; [by apply (keeps_need_false ml ml1) |]. change (abs ml') with (abs ml1).
    destruct D as [D | ->]; [congruence | done].
Qed.

Lemma sim_idle first ml idle : good first ml -> simulates first (SetIdle idle) ml.
Proof.
  intros (I & Hs & Hf). destruct (set_idle_spec ml idle I) as (I' & E1 & E2 & E3 & A & O & N). cbv zeta in *.
  eexists _, _. sim_cbn. split; [reflexivity |]. split; [split; [done |]; split; [| auto] |].
  - apply settled_known. rewrite A. unfold ports_known. rewrite Forall_fmap. by apply settled_known.
  - split; [unfold view; by rewrite E1, E2, E3, A |]. rewrite N, A. intros Hn. split; [done |].
    unfold mapping. by rewrite <- list_fmap_compose.
Qed.

Lemma sim_max first ml max : good first ml -> simulates first (SetMax max) ml.
Proof.
  intros (I & Hs & Hf). eexists _, _. sim_cbn. split; [reflexivity |]. split; [| done].
  split; [| done]. unfold mac_learning_set_max_entries.
  apply (inv_ext hash_mac hash_pointer ml); try done; rsimpl; [zcases; lia | apply I].
Qed.

Lemma sim_flood first ml bitmap : good first ml -> simulates first (SetFlood bitmap) ml.
Proof.
  intros (I & Hs & Hf). unfold simulates. sim_cbn. unfold mac_learning_set_flood_vlans.
  destruct (vlan_bitmap_equal (flood_vlans ml) bitmap) eqn:E.
  - eexists _, _. split; [reflexivity |]. split; [done |]. split; [| done]. split; [done |].
    assert (flood_vlans ml = bitmap) as <-; [| done].
    unfold vlan_bitmap_equal in E. destruct (flood_vlans ml), bitmap; try done. by apply Z.eqb_eq in E as ->.
  - eexists _, _. split; [reflexivity |]. split; [| done]. split; [| done].
    by apply (inv_ext hash_mac hash_pointer ml); try apply I.
Qed.

Lemma sim_move ml old new : good false ml -> new <> 0 -> simulates false (Move old new) ml.
Proof.
  intros (I & Hs & Hf) Hnew. destruct (move_all_spec old new (lrus ml) ml I) as (ml' & E & I' & C & L & N & R & D); [apply I | done |].
  exists true, ml'. sim_cbn. unfold bundle_move. rewrite E. split; [done |].
  assert (abs ml' = (λ r, if l_port r =? old then r <| l_port := new |> else r) <$> abs ml) as A.
  { unfold abs. rewrite L, <- list_fmap_compose. apply list_fmap_ext. intros i x Hx. rewrite R, decide_True; [done |].
    by eapply list_elem_of_lookup_2. }
  split; [split; [done |]; split; [| done] |].
  { apply settled_known. rewrite A. unfold ports_known. rewrite Forall_fmap. apply settled_known in Hs.
    eapply Forall_impl; [exact Hs |]. intros r Hr. cbn. by destruct (l_port r =? old). }
  split; [unfold view; rewrite A; by destruct C as [_ <- <- <-] |]. intros Hn.
  split; [by apply (keeps_need_false ml ml') |]. destruct D as [D | D]; [by rewrite D in Hn |].
  assert (abs ml' = abs ml) as ->; [| done]. unfold abs. rewrite L. apply list_fmap_ext. intros i x _. apply D.
Qed.

Lemma filter_fmap_record ml (P : learned -> Prop) `{forall r, Decision (P r)} (l : list nat) :
  filter P (record ml <$> l) = record ml <$> filter (λ x, P (record ml x)) l.
Proof.
  induction l as [| x l IH]; [done |]. rewrite fmap_cons, !filter_cons. case_decide; [by rewrite IH | done].
Qed.

Lemma sim_flush_port first ml port0 : good first ml -> simulates first (FlushPort port0) ml.
Proof.
  intros (I & Hs & Hf).
  destruct (expire_all_spec (λ r, l_port r =? port0) (lrus ml) ml I) as (ml' & E & I' & C & L & R & O & N & D); [apply I | done |].
  exists true, ml'. sim_cbn. unfold bundle_flush_macs.
  change (λ (oml : option ml_t) e, ml ← oml; if mac_entry_get_port ml e =? port0 then mac_learning_expire hash_pointer ml e else Some ml)
    with (λ (oml : option ml_t) e, ml ← oml; if l_port (record ml e) =? port0 then mac_learning_expire hash_pointer ml e else Some ml).
  rewrite E. split; [done |].
  assert (abs ml' = filter (λ r, l_port r <> port0) (abs ml)) as A.
  { unfold abs at 2. rewrite filter_fmap_record. unfold abs.
    assert (lrus ml' = filter (λ x, l_port (record ml x) <> port0) (lrus ml)) as L'.
    { rewrite L. apply filter_ext_in. intros x Hx. rewrite Z.eqb_eq. tauto. }
    rewrite <- L'. apply list_fmap_ext. intros i x Hx. apply R. by eapply list_elem_of_lookup_2. }
  split; [split; [done |]; split; [| auto] |].
  { apply settled_known. rewrite A. apply (known_sublist (abs ml)); [apply sublist_filter | by apply settled_known]. }
  split; [unfold view; rewrite A; by destruct C as [_ <- <- <-] |]. intros Hn.
  split; [by apply (keeps_need_false ml ml') |]. destruct D as [D | D]; [by rewrite D in Hn |].
  assert (abs ml' = abs ml) as ->; [| done]. unfold abs. rewrite D. apply list_fmap_ext. intros i x Hx. apply R.
  rewrite D. by eapply list_elem_of_lookup_2.
Qed.

(** Dropping the last reference frees every entry. *)
Lemma unref_ok ml : inv ml -> is_Some (mac_learning_unref hash_pointer ml).
Proof.
  intros I. unfold mac_learning_unref. cbv zeta. destruct (ref_cnt ml =? 1); [| done].
  set (ml0 := ml <| ref_cnt ::= Z.pred |>).
  assert (inv ml0) as I0 by (by apply (inv_ext hash_mac hash_pointer ml); try apply I).
  destruct (for_each_elem _ _ (e_table _ _ _ _ _ (i_entries _ _ _ I0))) as [Hnd Hel].
  destruct (expire_all_spec (λ _, true) (for_each (table ml0)) ml0 I0 Hnd) as (ml' & E & _).
  { intros e. rewrite Hel, lookup_fmap, fmap_is_Some, lookup_fmap, fmap_is_Some.
    by rewrite (in_lrus hash_mac hash_pointer). }
  cbn beta iota in E. by rewrite E.
Qed.

Lemma ml_exec_simulates first o ml : good first ml -> allowed first o -> simulates first o ml.
Proof.
  intros G Ha. destruct o; cbn [allowed] in Ha.
  - by apply sim_update.
  - by apply sim_expire.
  - by apply sim_flush.
  - by apply sim_run.
  - by apply sim_idle.
  - by apply sim_max.
  - by apply sim_flood.
  - destruct Ha as [-> Ha]. by apply sim_move.
  - by apply sim_flush_port.
Qed.

End theorems.
End MacLearningThms.
