(* ===== verification/MacLearningProps.v ===== *)
(** Properties of the MAC learning table over all sequences of operations, and of the learning
    switch that uses it. *)
From stdpp Require Import gmap.
From Stdlib Require Import Sorted.
From S2P Require Import Prelude Heap Hmap Containers.
From S2P Require Import MacLearning MacLearningInv MacLearningOps MacLearningSpec MacLearningThms.

Module MacLearningProps.
Import MacLearning MacLearningInv MacLearningOps MacLearningSpec MacLearningThms.

(** The time of the clock after an operation. *)
Definition time_of (t : Z) (o : op) : Z :=
  match o with Update now _ _ _ _ _ | Run now => now | _ => t end.

(** Addresses are in the order in which they expire. *)
Definition timed (t : Z) (s : state) : Prop :=
  StronglySorted (λ r1 r2, l_expires r1 <= l_expires r2) (sp_list s) /\
  Forall (λ r, l_expires r <= t + sp_idle s) (sp_list s).

Lemma sorted_sublist {A} (R : A -> A -> Prop) l l' :
  l' `sublist_of` l -> StronglySorted R l -> StronglySorted R l'.
Proof.
  induction 1 as [| x l' l H IH | x l' l H IH]; intros Hs; [constructor | |]; apply StronglySorted_inv in Hs as [Hs Hx].
  - constructor; [by apply IH |]. rewrite Forall_forall in *. intros y Hy. apply Hx. by apply (elem_of_sublist l').
  - by apply IH.
Qed.

Lemma forall_sublist {A} (P : A -> Prop) l l' : l' `sublist_of` l -> Forall P l -> Forall P l'.
Proof. rewrite !Forall_forall. intros Hl H x Hx. apply H. by apply (elem_of_sublist l'). Qed.

Lemma sorted_snoc {A} (R : A -> A -> Prop) l x :
  StronglySorted R l -> Forall (λ y, R y x) l -> StronglySorted R (l ++ [x]).
Proof.
  induction 1 as [| y l Hs IH Hy]; intros Hx; cbn; [by repeat constructor |].
  apply Forall_cons in Hx as [H1 H2]. constructor; [by apply IH |]. apply Forall_app. split; [done | by apply Forall_singleton].
Qed.

Lemma sorted_fmap {A} (R : A -> A -> Prop) (f : A -> A) l :
  (forall x y, R x y -> R (f x) (f y)) -> StronglySorted R l -> StronglySorted R (f <$> l).
Proof.
  intros Hf. induction 1 as [| y l Hs IH Hy]; cbn; constructor; [done |]. rewrite Forall_fmap.
  eapply Forall_impl; [exact Hy |]. intros z. apply Hf.
Qed.

Lemma inserted_sublist first idle max now k l l0 r :
  inserted first idle max now k l l0 r -> l0 `sublist_of` l /\ l_expires r = now + idle.
Proof.
  unfold inserted. destruct (lookup_key k l).
  - intros [-> ->]. split; [apply sublist_filter | done].
  - intros [Hl ->]. split; [| done]. destruct (max <=? Z.of_nat (length l)); [by apply (evicts_sublist first) | by subst].
Qed.

Lemma learn_timed first idle max now k garp bond port0 l b l' :
  learn first idle max now k garp bond port0 l b l' ->
  exists l0 r, l' = l0 ++ [r] /\ l0 `sublist_of` l /\ l_expires r = now + idle.
Proof.
  intros (l0 & r0 & Hins & Hl). destruct (inserted_sublist _ _ _ _ _ _ _ _ Hins) as [Hs He]. cbv zeta in Hl.
  destruct (garp && negb bond); destruct (garp && bond && _); destruct Hl as [_ ->]; eexists _, _; split;
    [reflexivity | done | reflexivity | done | reflexivity | done | reflexivity | done].
Qed.

Lemma spec_timed first o s b s' t :
  spec_step first o s b s' -> timed t s -> t <= time_of t o -> timed (time_of t o) s'.
Proof.
  intros Hs [H1 H2] Ht. destruct o as [now src vlan0 garp bond port0 | dst vlan0 | | now | idle | max | bm | old new | port0];
    cbn [spec_step time_of] in *.
  - assert (timed now s) as Hsame.
    { split; [done |]. eapply Forall_impl; [exact H2 |]. intros r Hr. cbn in *. lia. }
    destruct (_ || _); [by destruct Hs as [_ ->] |]. destruct Hs as (l' & -> & [Hl | (_ & _ & ->)]); [| by destruct s].
    destruct (learn_timed _ _ _ _ _ _ _ _ _ _ _ Hl) as (l0 & r & -> & Hsub & Hr). unfold timed. rsimpl. split.
    + apply sorted_snoc; [by apply (sorted_sublist _ (sp_list s)) |]. apply (forall_sublist _ (sp_list s)); [done |].
      eapply Forall_impl; [exact H2 |]. intros q Hq. cbn in *. lia.
    + apply Forall_app. split; [apply (forall_sublist _ (sp_list s)); [done | apply Hsame] |].
      apply Forall_singleton. lia.
  - subst s'. destruct (learnable _ _ _); [| done]. unfold timed. rsimpl.
    split; [apply (sorted_sublist _ (sp_list s)) | apply (forall_sublist _ (sp_list s))]; try done; apply sublist_filter.
  - subst s'. unfold timed. rsimpl. split; constructor.
  - subst s'. unfold timed. rsimpl. destruct (expire_front_drop (sp_max s) now (sp_list s)) as [k ->].
    split; [apply (sorted_sublist _ (sp_list s)); [apply sublist_drop | done] |].
    apply (forall_sublist _ (sp_list s)); [apply sublist_drop |]. eapply Forall_impl; [exact H2 |]. intros r Hr. cbn in *. lia.
  - subst s'. unfold timed. rsimpl. split.
    + apply sorted_fmap; [| done]. intros x y. rsimpl. lia.
    + rewrite Forall_fmap. eapply Forall_impl; [exact H2 |]. intros r Hr. cbn in *. rsimpl. lia.
  - by subst s'.
  - by destruct Hs as [_ ->].
  - subst s'. unfold timed. rsimpl. split.
    + apply sorted_fmap; [| done]. intros x y. by destruct (l_port x =? old), (l_port y =? old).
    + rewrite Forall_fmap. eapply Forall_impl; [exact H2 |]. intros r Hr. cbn in *. by destruct (l_port r =? old).
  - subst s'. unfold timed. rsimpl.
    split; [apply (sorted_sublist _ (sp_list s)) | apply (forall_sublist _ (sp_list s))]; try done; apply sublist_filter.
Qed.

(** In a list in the order of expiry, the front loop removes exactly what is too old or too
    much. *)
Lemma expire_front_exact max now l :
  StronglySorted (λ r1 r2, l_expires r1 <= l_expires r2) l -> 0 <= max ->
  expire_front max now l
  = drop (Nat.max (length (filter (λ r, l_expires r <= now) l)) (length l - Z.to_nat max)) l.
Proof.
  intros Hs Hm. induction Hs as [| r l Hs IH Hr]; [done |]. cbn [expire_front].
  destruct (Z.leb_spec (l_expires r) now) as [He | He].
  - rewrite orb_true_r, IH, filter_cons_True by done. cbn [length].
    destruct (decide (length l < Z.to_nat max)%nat) as [Hl | Hl].
    + rewrite !Nat.max_l by lia. done.
    + replace (S (length l) - Z.to_nat max)%nat with (S (length l - Z.to_nat max)) by lia.
      by rewrite <- Nat.succ_max_distr.
  - rewrite orb_false_r. assert (filter (λ r, l_expires r <= now) l = []) as En.
    { clear -Hr He. induction Hr as [| s l Hs _ IH]; [done |]. rewrite filter_cons_False by lia. done. }
    rewrite filter_cons_False, En by lia. rewrite En in IH. cbn [length] in *. rewrite Nat.max_0_l in *.
    destruct (Z.ltb_spec max (Z.of_nat (S (length l)))) as [Hl | Hl].
    + rewrite IH. replace (S (length l) - Z.to_nat max)%nat with (S (length l - Z.to_nat max)) by lia. done.
    + by replace (S (length l) - Z.to_nat max)%nat with 0%nat by lia.
Qed.

Lemma expire_front_result max now l :
  StronglySorted (λ r1 r2, l_expires r1 <= l_expires r2) l -> 0 <= max ->
  Forall (λ r, now < l_expires r) (expire_front max now l) /\ Z.of_nat (length (expire_front max now l)) <= max.
Proof.
  intros Hs Hm. induction Hs as [| r l Hs IH Hr]; [split; [constructor | done] |]. cbn [expire_front].
  destruct (Z.ltb_spec max (Z.of_nat (length (r :: l)))) as [Hl | Hl]; [done |].
  destruct (Z.leb_spec (l_expires r) now) as [He | He]; [done |]. cbn [orb]. split; [| done].
  constructor; [done |]. eapply Forall_impl; [exact Hr |]. intros s Hs'. cbn in *. lia.
Qed.

Section properties.
Context {T Q : Type} {HT : HashTable T} {HTok : HashTableOk T}.
Context {PQ : PriorityQueue Q} {PQok : PriorityQueueOk Q}.
Context (hash_mac : Z -> Z -> Z -> Z) (hash_pointer : Z -> Z -> Z).

Abbreviation ml_t := (mac_learning T Q).
Abbreviation exec := (exec hash_mac hash_pointer).
Abbreviation good := (good hash_mac hash_pointer).
Implicit Types (ml : ml_t).

(** The tables that a sequence of operations produces, with the time of the last one. *)
Inductive reachable (first : bool) : Z -> ml_t -> Prop :=
  | reach_create idle secret0 : reachable first 0 (mac_learning_create idle secret0)
  | reach_step t ml o b ml' :
      reachable first t ml -> allowed first o -> t <= time_of t o -> exec o ml = Some (b, ml') ->
      reachable first (time_of t o) ml'.

Lemma create_good first idle secret0 : good first (mac_learning_create idle secret0).
Proof.
  split; [| split; [| done]].
  - constructor; cbn.
    + rewrite fmap_empty. constructor; cbn; try done; [rewrite fmap_empty; apply hmap_init_holds | constructor |].
      intros e. split; [set_solver | by intros []].
    + constructor; try done; rewrite fmap_empty; [apply hmap_init_holds | apply heap_init_holds].
    + rewrite map_size_empty. lia.
    + unfold MAC_DEFAULT_MAX. lia.
    + unfold normalize_idle_time. zcases; lia.
  - intros e. cbn. set_solver.
Qed.

Lemma reachable_good first t ml : reachable first t ml -> good first ml /\ timed t (view ml).
Proof.
  induction 1 as [idle secret0 | t ml o b ml' _ [IG IT] Ha Ht He].
  - split; [apply create_good |]. split; constructor.
  - destruct (ml_exec_simulates hash_mac hash_pointer first o ml IG Ha) as (b2 & ml2 & He2 & G & Hs & _).
    rewrite He in He2. injection He2 as <- <-. split; [done |]. by apply (spec_timed first o (view ml) b).
Qed.

(** C2: the MAC learning table refines a list of addresses in the order of their last use.
    Along every sequence of learning, expiry, flushing, aging, reconfiguration and moves
    between ports, no assertion fails and no node is missing, each operation does to the list
    what the specification says, and lookup finds what the list holds.  In particular a full
    table evicts from a port with the most addresses, and as long as addresses are not moved
    between ports, the least recently used address of this port. *)
Theorem mac_learning_refines first t ml :
  reachable first t ml ->
  (forall o, allowed first o -> t <= time_of t o -> exists b ml',
     exec o ml = Some (b, ml') /\ spec_step first o (view ml) b (view ml') /\ reachable first (time_of t o) ml') /\
  (forall dst vlan0, exists oe,
     mac_learning_lookup hash_mac ml dst vlan0 = Some oe /\
     record ml <$> oe = if learnable (flood_vlans ml) dst vlan0 then lookup_key (dst, vlan0) (abs ml) else None) /\
  is_Some (mac_learning_unref hash_pointer ml) /\
  NoDup (l_key <$> abs ml) /\ ports_known (abs ml) /\ hmap_count (table ml) = Z.of_nat (length (abs ml)).
Proof.
  intros Hr. destruct (reachable_good first t ml Hr) as [G _]. pose proof G as (I & Hs & Hf). split; [| split; [| split; [| split]]].
  - intros o Ha Ht. destruct (ml_exec_simulates hash_mac hash_pointer first o ml G Ha) as (b & ml' & He & _ & Hsp & _).
    exists b, ml'. split; [done |]. split; [done |]. by apply (reach_step first t ml o b).
  - intros dst vlan0. rewrite (lookup_total_ok hash_mac hash_pointer ml dst vlan0 I Hs). eexists. split; [reflexivity |].
    destruct (learnable _ _ _); [| done]. symmetry. by apply (lookup_key_abs hash_mac hash_pointer).
  - by apply (unref_ok hash_mac).
  - by apply (abs_keys hash_mac hash_pointer).
  - split; [by apply settled_known |]. rewrite (count_lrus hash_mac hash_pointer ml I). unfold abs. by rewrite length_fmap.
Qed.

(** Aging is exact: a run at time [now] removes the addresses that have expired, and as many
    of the least recently used ones as the table holds above its limit, and nothing else; no
    expired address is left behind and the limit holds. *)
Theorem mac_aging_exact first t ml now :
  reachable first t ml -> t <= now ->
  exists b ml', mac_learning_run hash_pointer ml now = Some (b, ml') /\
    abs ml' = drop (Nat.max (length (filter (λ r, l_expires r <= now) (abs ml)))
                            (length (abs ml) - Z.to_nat (max_entries ml))) (abs ml) /\
    Forall (λ r, now < l_expires r) (abs ml') /\ Z.of_nat (length (abs ml')) <= max_entries ml.
Proof.
  intros Hr Ht. destruct (reachable_good first t ml Hr) as [G [Hs _]].
  destruct (ml_exec_simulates hash_mac hash_pointer first (Run now) ml G I) as (b & ml' & He & _ & Hsp & _).
  cbn [MacLearningThms.exec spec_step] in He, Hsp. injection Hsp as _ _ _ Ea. cbn in Ea.
  exists b, ml'. split; [done |]. rewrite Ea. pose proof (i_max _ _ _ (proj1 G)) as Hmax.
  split; [apply expire_front_exact; [done | lia] |]. apply expire_front_result; [done | lia].
Qed.

(** Operations other than runs. *)
Inductive quiet (first : bool) : ml_t -> ml_t -> Prop :=
  | quiet_refl ml : quiet first ml ml
  | quiet_step ml1 o b ml2 ml3 :
      allowed first o -> (if o is Run _ then False else True) -> exec o ml1 = Some (b, ml2) ->
      quiet first ml2 ml3 -> quiet first ml1 ml3.

Lemma quiet_flag first ml ml' :
  quiet first ml ml' -> good first ml -> good first ml' /\
  (need_revalidate ml' = false -> need_revalidate ml = false /\ mapping (abs ml') ≡ₚ mapping (abs ml)).
Proof.
  induction 1 as [ml | ml1 o b ml2 ml3 Ha Ho He _ IH]; intros G; [done |].
  destruct (ml_exec_simulates hash_mac hash_pointer first o ml1 G Ha) as (b2 & ml2' & He2 & G2 & _ & Hn).
  rewrite He in He2. injection He2 as <- <-. destruct (IH G2) as [G3 H3]. split; [done |]. intros E.
  destruct (H3 E) as [E2 P2]. destruct o; try done; destruct (Hn E2) as [E1 P1]; (split; [done |]); by rewrite P2.
Qed.

(** C29: revalidation is never missed: whatever happens to the table between two runs, when the
    second run returns [false] then every address is still known on the same port as after the
    first one, and no other address is. *)
Theorem mac_revalidation_complete first t ml ml1 now ml2 :
  reachable first t ml -> quiet first ml ml1 -> mac_learning_run hash_pointer ml1 now = Some (false, ml2) ->
  mapping (abs ml2) ≡ₚ mapping (abs ml).
Proof.
  intros Hr Hq He. destruct (reachable_good first t ml Hr) as [G _]. destruct (quiet_flag first ml ml1 Hq G) as [G1 H1].
  destruct (ml_exec_simulates hash_mac hash_pointer first (Run now) ml1 G1 I) as (b & ml' & He2 & _ & _ & Hn).
  cbn [MacLearningThms.exec] in He2. rewrite He in He2. injection He2 as <- <-.
  destruct (Hn eq_refl) as [E P]. rewrite P. by apply H1.
Qed.

(** The fast path of learning is sound: when the check under the read lock finds no update
    necessary, then the update under the write lock would return [false] and leave every
    address with the same port, expiration time and lock; it would only move the address to the
    end of the list, behind others used in the same second. *)
Theorem mac_fast_path_sound first t ml now src vlan0 garp bond in_port :
  reachable first t ml -> t <= now -> in_port <> 0 ->
  (forall r, lookup_key (src, vlan0) (abs ml) = Some r -> now + idle_time ml - l_expires r < 2 ^ 31) ->
  is_mac_learning_update_needed hash_mac ml now src vlan0 garp bond in_port = Some false ->
  exists ml', update_learning_table__ hash_mac hash_pointer ml now src vlan0 garp bond in_port = Some (false, ml') /\
    (abs ml' = abs ml \/
     exists r, lookup_key (src, vlan0) (abs ml) = Some r /\ l_expires r = now + idle_time ml /\
       abs ml' = remove_key (src, vlan0) (abs ml) ++ [r]).
Proof.
  intros Hr Ht H0 Hage Hn. destruct (reachable_good first t ml Hr) as [(I & Hs & Hf) [_ Htm]].
  destruct (mac_learning_may_learn ml src vlan0) eqn:El.
  2: { exists ml. split; [| by left]. unfold update_learning_table__. by rewrite El. }
  destruct (needed_false hash_mac hash_pointer ml now src vlan0 garp bond in_port I Hs El) as (b & Eb & Hcur).
  rewrite Hn in Eb. injection Eb as <-. destruct (Hcur eq_refl) as (r & Ek & Ea & Eg & Hp).
  destruct (update_table_spec hash_mac hash_pointer ml first now src vlan0 garp bond in_port I Hs Hf El)
    as (b & ml' & Eu & _ & _ & _ & _ & _ & (l0 & r0 & Hins & Hl)).
  unfold inserted in Hins. rewrite Ek in Hins. destruct Hins as [-> ->].
  assert (l_expires r <= t + idle_time ml) as Hle.
  { apply lookup_key_split in Ek as (l1 & l2 & El2 & _). cbn [view sp_list sp_idle] in Htm. rewrite El2 in Htm.
    by apply Forall_app in Htm as [_ [? _]%Forall_cons]. }
  assert (l_expires r = now + idle_time ml) as Er.
  { specialize (Hage r Ek). rewrite swrap_small in Ea by lia. lia. }
  assert (r <| l_expires := now + idle_time ml |> = r) as Err by (rewrite <- Er; by destruct r).
  cbv zeta in Hl. rewrite Err, Eg in Hl. exists ml'.
  assert (b = false /\ abs ml' = remove_key (src, vlan0) (abs ml) ++ [r]) as [-> Eabs].
  { destruct (garp && bond && (now <? l_lock r)) eqn:Elock; [done |]. destruct Hl as [-> ->].
    assert (l_port r = in_port) as Ep.
    { destruct Hp as [Hp | ?]; [| done]. exfalso. destruct garp, bond; cbn in *; congruence. }
    rewrite set_same_port by done. split; [by rewrite (proj2 (Z.eqb_eq _ _) Ep) | done]. }
  split; [done |]. right. by exists r.
Qed.

(** ** The learning switch *)

Lemma insert_all_holds (f : nat -> Z) l : forall t m,
  hmap_holds t m -> NoDup l -> (forall i, i ∈ l -> m !! i = None) ->
  Z.of_nat (size m + length l) < 2 ^ 64 ->
  exists m', hmap_holds (foldl (λ (t : T) i, hmap_insert i (f i) t) t l) m' /\
    forall i, m' !! i = if decide (i ∈ l) then Some (f i) else m !! i.
Proof.
  induction l as [| x l IH]; intros t m Ht Hnd Hn Hs; cbn [foldl length] in *.
  - exists m. split; [done |]. intros i. by rewrite decide_False by set_solver.
  - apply NoDup_cons in Hnd as [Hx Hnd].
    destruct (IH (hmap_insert x (f x) t) (<[x := f x]> m)) as (m' & Ht' & Hm').
    + apply hmap_insert_holds; [done | apply Hn; set_solver | unfold in_u; lia].
    + done.
    + intros i Hi. rewrite lookup_insert_ne by (intros ->; done). apply Hn. set_solver.
    + rewrite map_size_insert_None by (apply Hn; set_solver). lia.
    + exists m'. split; [done |]. intros i. rewrite Hm'. destruct (decide (i = x)) as [-> | Hne].
      * rewrite decide_False, decide_True by set_solver. by rewrite lookup_insert_eq.
      * rewrite lookup_insert_ne by done.
        destruct (decide (i ∈ l)); [rewrite decide_True by set_solver | rewrite decide_False by set_solver]; done.
Qed.

Lemma is_reserved_spec hash_uint64 ea :
  eth_addr_is_reserved (T := T) hash_uint64 ea = bool_decide (ea ∈ reserved_addrs).
Proof.
  set (n := length reserved_addrs).
  destruct (insert_all_holds (λ i, hash_uint64 (reserved_addrs !!! i)) (seq 0 n) hmap_init ∅) as (m & Hm & Hl).
  - apply hmap_init_holds.
  - apply NoDup_ListNoDup, seq_NoDup.
  - done.
  - rewrite map_size_empty, length_seq. by vm_compute.
  - unfold eth_addr_is_reserved. fold (reserved_table (T := T) hash_uint64) in Hm.
    apply eq_bool_prop_intro. rewrite !Is_true_true, existsb_exists, bool_decide_eq_true. split.
    + intros (i & Hi%list_elem_of_In & E%Z.eqb_eq). apply (in_bucket_member _ _ _ _ Hm) in Hi as [z Hz].
      rewrite Hl in Hz. destruct (decide (i ∈ seq 0 n)) as [Hs | Hs]; [| done]. rewrite elem_of_seq in Hs.
      rewrite <- E. apply list_elem_of_lookup_total_2. lia.
    + intros [i Hi]%list_elem_of_lookup. exists i. rewrite (list_lookup_total_correct _ _ _ Hi).
      split; [| apply Z.eqb_refl]. apply list_elem_of_In, (in_bucket_elem _ _ _ _ Hm). rewrite Hl, decide_True.
      * by rewrite (list_lookup_total_correct _ _ _ Hi).
      * rewrite elem_of_seq. apply lookup_lt_Some in Hi. fold n in Hi. lia.
Qed.

(** What the switch does with a packet when its table holds the addresses [l]. *)
Definition switch_output (flood : option Z) (action_normal : bool) (dl_dst in_port : Z) (l : list learned) : Z :=
  if bool_decide (dl_dst ∈ reserved_addrs) then OFPP_NONE
  else match (if learnable flood dl_dst 0 then lookup_key (dl_dst, 0) l else None) with
       | Some r => if l_port r =? in_port then OFPP_NONE
                   else if action_normal && negb (l_port r =? OFPP_FLOOD) then OFPP_NORMAL else l_port r
       | None => OFPP_FLOOD
       end.

Lemma switch_forward hash_uint64 ml action_normal dl_dst in_port :
  good false ml ->
  (if eth_addr_is_reserved (T := T) hash_uint64 dl_dst then Some (OFPP_NONE, ml)
   else found ← mac_learning_lookup hash_mac ml dl_dst 0;
     let out_port := match found with Some e => mac_entry_get_port ml e | None => OFPP_FLOOD end in
     Some (if (if found is Some _ then out_port =? in_port else false) then OFPP_NONE
           else if action_normal && negb (out_port =? OFPP_FLOOD) then OFPP_NORMAL else out_port, ml))
  = Some (switch_output (flood_vlans ml) action_normal dl_dst in_port (abs ml), ml).
Proof.
  intros (I & Hs & _). rewrite is_reserved_spec. unfold switch_output. case_bool_decide; [done |].
  rewrite (lookup_total_ok hash_mac hash_pointer ml dl_dst 0 I Hs). cbn [mbind option_bind].
  destruct (learnable _ _ _); [| by rewrite andb_false_r].
  rewrite (lookup_key_abs hash_mac hash_pointer ml dl_dst 0 I).
  destruct (mac_entry_lookup hash_mac ml dl_dst 0) as [e |]; [done | by rewrite andb_false_r].
Qed.

Lemma inserted_port first idle max now k l l0 r port0 :
  inserted first idle max now k l l0 r -> port0 <> 0 ->
  l_port r = port0 <-> l_port <$> lookup_key k l = Some port0.
Proof.
  unfold inserted. destruct (lookup_key k l) as [r0 |]; intros [_ ->] H0; rsimpl; cbn; naive_solver.
Qed.


End properties.

(** ** Examples *)

(** Tables over the hash tables and heaps of the program, with simple hash functions. *)
Definition hash3 (a b c : Z) : Z := a + b + c.
Definition hash2 (a b : Z) : Z := a + b.

Abbreviation table := (mac_learning Hmap.hmap Heap.heap).

Definition empty_table : table := mac_learning_create 300 0.

(** The state after a list of operations. *)
Definition after (ops : list op) : option table :=
  foldl (λ oml o, ml ← oml; '(_, ml) ← exec hash3 hash2 o ml; Some ml) (Some empty_table) ops.

(** One address, learned on port 7 at time 10. *)
Definition one_address : table := default empty_table (after [Update 10 5 0 false false 7]).

Lemma empty_reachable : reachable hash3 hash2 true 0 empty_table.
Proof. constructor. Defined.

Lemma one_reachable : reachable hash3 hash2 true 10 one_address.
Proof.
  apply (reach_step hash3 hash2 true 0 empty_table (Update 10 5 0 false false 7) true);
    [constructor | done | done | by vm_compute].
Defined.

Lemma mac_learning_refines_witness :
  exists oe, mac_learning_lookup hash3 one_address 5 0 = Some oe /\
    record one_address <$> oe
    = if learnable (flood_vlans one_address) 5 0 then lookup_key (5, 0) (abs one_address) else None.
Proof.
  destruct (mac_learning_refines hash3 hash2 true 10 one_address one_reachable) as (_ & Hl & _). exact (Hl 5 0).
Defined.

Lemma mac_aging_exact_witness :
  exists b ml', mac_learning_run hash2 one_address 310 = Some (b, ml') /\ abs ml' = [].
Proof.
  destruct (mac_aging_exact hash3 hash2 true 10 one_address 310 one_reachable ltac:(done)) as (b & ml' & E & Ea & _).
  exists b, ml'. split; [exact E |]. rewrite Ea. by vm_compute.
Defined.

(** The address after a run, after it was seen again on its port, and after the next run. *)
Definition run_once : table := default empty_table (after [Update 10 5 0 false false 7; Run 11]).
Definition seen_again : table :=
  default empty_table (after [Update 10 5 0 false false 7; Run 11; Update 12 5 0 false false 7]).
Definition run_twice : table :=
  default empty_table (after [Update 10 5 0 false false 7; Run 11; Update 12 5 0 false false 7; Run 13]).

Lemma run_once_reachable : reachable hash3 hash2 true 11 run_once.
Proof.
  apply (reach_step hash3 hash2 true 10 one_address (Run 11) true);
    [exact one_reachable | done | done | by vm_compute].
Defined.

Lemma mac_revalidation_complete_witness :
  mapping (abs run_twice) ≡ₚ mapping (abs run_once) /\ mapping (abs run_once) = [(5, 0, 7)].
Proof.
  split; [| by vm_compute].
  apply (mac_revalidation_complete hash3 hash2 true 11 run_once seen_again 13 run_twice run_once_reachable).
  - apply (quiet_step _ _ true run_once (Update 12 5 0 false false 7) false seen_again);
      [done | done | by vm_compute | constructor].
  - by vm_compute.
Defined.

Lemma mac_fast_path_sound_witness :
  exists ml', update_learning_table__ hash3 hash2 one_address 10 5 0 false false 7 = Some (false, ml').
Proof.
  destruct (mac_fast_path_sound hash3 hash2 true 10 one_address 10 5 0 false false 7 one_reachable) as (ml' & E & _);
    [done | done | | by vm_compute | by exists ml'].
  assert (lookup_key (5, 0) (abs one_address) = Some (mk_learned 5 0 7 310 TIME_MIN)) as -> by by vm_compute.
  intros r [= <-]. done.
Defined.


(** A packet from port 0 is learned without a port, and the lookup of its destination fails on
    an assertion. *)
Lemma lswitch_port_zero_aborts : lswitch_choose_destination hash3 hash2 id empty_table 3 false 5 5 0 = None.
Proof. by vm_compute. Qed.

(** After the addresses of one port have been moved to another, the eviction takes an address
    that is not the least recently used one of its port. *)
Lemma moved_addresses_lose_order :
  exists ml ml', after [Update 1 4 0 false false 7; Update 2 6 0 false false 8; Move 7 8] = Some ml /\
    evict_mac_entry_fairly hash2 ml = Some ml' /\
    ((λ r, (l_mac r, l_port r, l_expires r)) <$> abs ml) = [(4, 8, 301); (6, 8, 302)] /\
    (l_mac <$> abs ml') = [4].
Proof.
  eexists _, _. split; [by vm_compute |]. split; [by vm_compute |]. split; by vm_compute.
Qed.

End MacLearningProps.
