(* ===== verification/Csum.v ===== *)
(** Internet checksums (lib/csum.c, lib/csum.h): the sum over bytes, its folding, and the
    incremental updates, equal to the checksum computed anew; the result has the same bytes on
    hosts of either byte order. *)
From S2P Require Import Prelude.

Module Csum.

Section Csum.
Context (e : endian).

(** ** The code *)

Definition csum_add16 (partial new : Z) : Z := u32 (partial + new).

Definition csum_add32 (partial new : Z) : Z :=
  u32 (partial + Z.shiftr new 16 + Z.land new 0xffff).

Fixpoint csum_continue (partial : Z) (data : list Z) : Z :=
  match data with
  | a :: b :: data => csum_continue (csum_add16 partial (host_val e [a; b])) data
  | [a] => u32 (partial + match e with Big => Z.shiftl a 8 | Little => a end)
  | [] => partial
  end.

(** The loop of [csum_finish]; two rounds are enough ([csum_fold_done]). *)
Fixpoint csum_fold (fuel : nat) (partial : Z) : Z :=
  match fuel with
  | O => partial
  | S fuel =>
      if Z.shiftr partial 16 =? 0 then partial
      else csum_fold fuel (Z.land partial 0xffff + Z.shiftr partial 16)
  end.

Definition csum_finish (partial : Z) : Z := u16 (Z.lnot (csum_fold 2 partial)).

Definition csum (data : list Z) : Z := csum_finish (csum_continue 0 data).

Definition recalc_csum16 (old_csum old_u16 new_u16 : Z) : Z :=
  let hc_complement := u16 (Z.lnot old_csum) in
  let m_complement := u16 (Z.lnot old_u16) in
  let m_prime := new_u16 in
  csum_finish (hc_complement + m_complement + m_prime).

Definition recalc_csum32 (old_csum old_u32 new_u32 : Z) : Z :=
  recalc_csum16 (recalc_csum16 old_csum (u16 old_u32) (u16 new_u32))
    (u16 (Z.shiftr old_u32 16)) (u16 (Z.shiftr new_u32 16)).

(** The three [be16] words of an Ethernet address. *)
Definition recalc_csum48 (old_csum : Z) (old_mac new_mac : list Z) : Z :=
  foldl (λ c '(o, n), recalc_csum16 c o n) old_csum (zip old_mac new_mac).

(** The four 32-bit words of an IPv6 address. *)
Definition recalc_csum128 (old_csum : Z) (old_u32 new_u32 : list Z) : Z :=
  foldl (λ c '(o, n), recalc_csum32 c o n) old_csum (zip old_u32 new_u32).

(** ** Ones-complement sums *)

(** The sum of the 16-bit words of the data, an odd byte padded with a zero. *)
Fixpoint wsum (data : list Z) : Z :=
  match data with
  | a :: b :: data => host_val e [a; b] + wsum data
  | [a] => host_val e [a; 0]
  | [] => 0
  end.

(** The representative of a sum in ones-complement arithmetic: zero for zero only. *)
Definition oc (x : Z) : Z := if x =? 0 then 0 else 1 + (x - 1) mod 65535.

Lemma oc_small x : 0 <= x < 65536 -> oc x = x.
Proof. intros Hx. unfold oc. destruct (Z.eqb_spec x 0); [lia |]. rewrite Z.mod_small; lia. Qed.

Lemma oc_range x : 0 < x -> 1 <= oc x <= 65535.
Proof.
  intros Hx. unfold oc. destruct (Z.eqb_spec x 0); [lia |].
  pose proof (Z.mod_pos_bound (x - 1) 65535). lia.
Qed.

Lemma oc_cong x : 0 <= x -> (oc x - x) mod 65535 = 0.
Proof.
  intros Hx. unfold oc. destruct (Z.eqb_spec x 0) as [-> |]; [done |].
  pose proof (Z.div_mod (x - 1) 65535 ltac:(lia)).
  replace (1 + (x - 1) mod 65535 - x) with (- ((x - 1) / 65535) * 65535) by lia.
  apply Z_mod_mult.
Qed.

Lemma oc_eq x y : 0 < x -> 0 < y -> (x - y) mod 65535 = 0 -> oc x = oc y.
Proof.
  intros Hx Hy H. unfold oc. destruct (Z.eqb_spec x 0), (Z.eqb_spec y 0); try lia. f_equal.
  Z.to_euclidean_division_equations. lia.
Qed.

Lemma oc_unique x r : 0 < x -> 1 <= r <= 65535 -> (x - r) mod 65535 = 0 -> oc x = r.
Proof. intros Hx Hr H. rewrite (oc_eq x r), oc_small by lia. done. Qed.

Lemma land_ffff x : Z.land x 0xffff = x mod 65536.
Proof. change 0xffff with (Z.ones 16). rewrite Z.land_ones by lia. done. Qed.

Lemma shiftr_16 x : Z.shiftr x 16 = x / 65536.
Proof. rewrite Z.shiftr_div_pow2 by lia. done. Qed.

Lemma csum_fold_oc p : in_u 32 p -> csum_fold 2 p = oc p.
Proof.
  unfold in_u. change (2 ^ 32) with 4294967296. intros Hp. cbn [csum_fold].
  rewrite !land_ffff, !shiftr_16.
  destruct (Z.eqb_spec (p / 65536) 0) as [H0 | H0].
  { rewrite oc_small; [done |]. apply Z.div_small_iff in H0; lia. }
  assert (65536 <= p) by (Z.to_euclidean_division_equations; lia).
  set (q := p mod 65536 + p / 65536).
  assert (0 < q < 131072 /\ (p - q) mod 65535 = 0) as [Hq Hc].
  { unfold q. pose proof (Z.div_mod p 65536 ltac:(lia)).
    pose proof (Z.mod_pos_bound p 65536 ltac:(lia)).
    assert (p / 65536 < 65536) by (apply Z.div_lt_upper_bound; lia).
    assert (0 <= p / 65536) by (apply Z.div_pos; lia). split; [lia |].
    replace (p - (p mod 65536 + p / 65536)) with (p / 65536 * 65535) by lia. apply Z_mod_mult. }
  destruct (Z.eqb_spec (q / 65536) 0) as [H1 | H1].
  - symmetry. apply oc_unique; [lia | | done]. apply Z.div_small_iff in H1; lia.
  - symmetry. apply oc_unique; [lia | |]; Z.to_euclidean_division_equations; lia.
Qed.

(** The loop condition is false when the rounds are used up. *)
Lemma csum_fold_done p : in_u 32 p -> Z.shiftr (csum_fold 2 p) 16 = 0.
Proof.
  intros Hp. rewrite csum_fold_oc, shiftr_16 by done. apply Z.div_small. unfold in_u in Hp.
  destruct (Z.eqb_spec p 0) as [-> | H]; [done |]. pose proof (oc_range p ltac:(lia)). lia.
Qed.

Lemma u16_lnot x : 0 <= x <= 65535 -> u16 (Z.lnot x) = 65535 - x.
Proof.
  intros Hx. unfold wrap, Z.lnot. change (2 ^ 16) with 65536.
  replace (Z.pred (- x)) with (65535 - x + (-1) * 65536) by lia.
  rewrite Z_mod_plus_full. apply Z.mod_small. lia.
Qed.

Lemma csum_finish_oc p : in_u 32 p -> csum_finish p = 65535 - oc p.
Proof.
  intros Hp. unfold csum_finish. rewrite csum_fold_oc by done. apply u16_lnot.
  unfold in_u in Hp. destruct (Z.eqb_spec p 0) as [-> | H]; [done |].
  pose proof (oc_range p ltac:(lia)). lia.
Qed.

(** ** The loop over the data *)

(** Words of bytes. *)
Definition is_byte (b : Z) : Prop := 0 <= b < 256.

Lemma word_range a b : is_byte a -> is_byte b -> 0 <= host_val e [a; b] <= 65535.
Proof. unfold is_byte. intros. destruct e; cbn; lia. Qed.

Lemma list_ind2 (P : list Z -> Prop) :
  P [] -> (forall a, P [a]) -> (forall a b l, P l -> P (a :: b :: l)) -> forall l, P l.
Proof.
  intros H0 H1 H2 l. enough (P l /\ forall a, P (a :: l)) by tauto.
  induction l as [| b l [IH1 IH2]]; split; auto.
Qed.

Lemma wsum_bound data :
  Forall is_byte data -> 0 <= wsum data /\ 2 * wsum data <= 65535 * Z.of_nat (S (length data)).
Proof.
  induction data as [| a | a b data IH] using list_ind2; cbn [wsum length]; intros H.
  - lia.
  - apply Forall_cons in H as [Ha _]. pose proof (word_range a 0 Ha ltac:(unfold is_byte; lia)). lia.
  - rewrite !Forall_cons in H. destruct H as (Ha & Hb & H). specialize (IH H).
    pose proof (word_range a b Ha Hb). lia.
Qed.

Lemma csum_continue_wsum data : forall partial,
  Forall is_byte data -> 0 <= partial -> partial + wsum data < 2 ^ 32 ->
  csum_continue partial data = partial + wsum data.
Proof.
  change (2 ^ 32) with 4294967296.
  induction data as [| a | a b data IH] using list_ind2; cbn [csum_continue wsum]; intros p H Hp Hs.
  - lia.
  - apply Forall_cons in H as [Ha _]. unfold is_byte in Ha.
    assert (match e with Big => Z.shiftl a 8 | Little => a end = host_val e [a; 0]) as ->.
    { destruct e; cbn; [lia |]. rewrite Z.shiftl_mul_pow2 by lia. lia. }
    apply wrap_small. unfold in_u. change (2 ^ 32) with 4294967296.
    pose proof (word_range a 0 Ha ltac:(unfold is_byte; lia)). lia.
  - rewrite !Forall_cons in H. destruct H as (Ha & Hb & H).
    pose proof (word_range a b Ha Hb). pose proof (wsum_bound data H) as [Hw _].
    unfold csum_add16. rewrite wrap_small by (unfold in_u; change (2 ^ 32) with 4294967296; lia).
    rewrite IH by (done || lia). lia.
Qed.

(** Any data of at most 128 kB: the 32-bit sum does not overflow. *)
Definition data_ok (data : list Z) : Prop := Forall is_byte data /\ Z.of_nat (length data) <= 131072.

Lemma data_wsum data : data_ok data -> 0 <= wsum data < 2 ^ 32.
Proof. intros [H Hl]. pose proof (wsum_bound data H). change (2 ^ 32) with 4294967296. lia. Qed.

Lemma csum_oc data : data_ok data -> csum data = 65535 - oc (wsum data).
Proof.
  intros Hd. pose proof (data_wsum data Hd) as Hw. destruct Hd as [Hb Hl]. unfold csum.
  rewrite csum_continue_wsum by (done || lia). rewrite Z.add_0_l. by apply csum_finish_oc.
Qed.

Lemma wsum_app data data' :
  Nat.Even (length data) -> wsum (data ++ data') = wsum data + wsum data'.
Proof.
  induction data as [| a | a b data IH] using list_ind2; cbn [app wsum length]; intros H.
  - lia.
  - destruct H as [k H]. lia.
  - rewrite IH; [lia |]. destruct H as [k H]. exists (pred k). lia.
Qed.

(** ** Incremental updates *)

(** [c] is a checksum of data whose words sum to [t], up to the two forms of zero. *)
Definition tracks (c t : Z) : Prop :=
  0 <= c <= 65535 /\ 0 <= t /\ (65535 - c - t) mod 65535 = 0 /\ (c = 65535 -> t = 0).

Lemma tracks_csum t : 0 <= t -> tracks (65535 - oc t) t.
Proof.
  intros Ht. destruct (Z.eqb_spec t 0) as [-> | H0]; [by repeat split |].
  pose proof (oc_range t ltac:(lia)). pose proof (oc_cong t Ht) as Hc. split; [lia |]. split; [done |].
  split; [| lia]. by replace (65535 - (65535 - oc t) - t) with (oc t - t) by lia.
Qed.

Lemma tracks_exact c t : tracks c t -> 0 < t -> c = 65535 - oc t.
Proof.
  intros (Hc & Ht & Hm & H0) Hpos. rewrite (oc_unique t (65535 - c)); [lia | lia | lia |].
  replace (t - (65535 - c)) with (- (65535 - c - t)) by lia. by apply Z_mod_zero_opp_full.
Qed.

Lemma recalc_step c t o n :
  tracks c t -> 0 <= o <= t -> o <= 65535 -> 0 <= n <= 65535 ->
  tracks (recalc_csum16 c o n) (t - o + n) /\ recalc_csum16 c o n < 65535.
Proof.
  intros (Hc & Ht & Hm & H0) Ho Ho' Hn. unfold recalc_csum16. rewrite !u16_lnot by lia.
  set (x := 65535 - c + (65535 - o) + n). assert (0 < x <= 196605) as Hx.
  { unfold x. split; [| lia]. destruct (Z.eqb_spec c 65535) as [E | E]; [| lia].
    specialize (H0 E). lia. }
  rewrite csum_finish_oc by (unfold in_u; change (2 ^ 32) with 4294967296; lia).
  pose proof (oc_range x ltac:(lia)). pose proof (oc_cong x ltac:(lia)) as Hcong.
  split; [| lia]. split; [lia |]. split; [lia |]. split; [| lia].
  replace (65535 - (65535 - oc x) - (t - o + n)) with ((oc x - x) + (65535 - c - t) + 1 * 65535)
    by (unfold x; lia).
  rewrite Z_mod_plus_full, Zplus_mod, Hcong, Hm. done.
Qed.

(** ** Fields of a packet *)

Lemma wsum_16 x : in_u 16 x -> wsum (host_bytes e 2 x) = x.
Proof.
  unfold in_u. change (2 ^ 16) with 65536. intros Hx.
  destruct e eqn:E; cbn [host_bytes be_bytes rev app wsum]; rewrite E; cbn [host_val rev app];
    unfold be_val; cbn [foldl];
    change (2 ^ (8 * Z.of_nat 1)) with 256; change (2 ^ (8 * Z.of_nat 0)) with 1;
    Z.to_euclidean_division_equations; lia.
Qed.

Lemma wsum_32 x :
  in_u 32 x -> wsum (host_bytes e 4 x) = u16 x + u16 (Z.shiftr x 16).
Proof.
  unfold in_u, wrap. rewrite shiftr_16. change (2 ^ 32) with 4294967296. change (2 ^ 16) with 65536.
  intros Hx. destruct e eqn:E; cbn [host_bytes be_bytes rev app wsum]; rewrite E; cbn [host_val rev app];
    unfold be_val; cbn [foldl];
    change (2 ^ (8 * Z.of_nat 3)) with 16777216; change (2 ^ (8 * Z.of_nat 2)) with 65536;
    change (2 ^ (8 * Z.of_nat 1)) with 256; change (2 ^ (8 * Z.of_nat 0)) with 1;
    Z.to_euclidean_division_equations; lia.
Qed.

(** A field that is overwritten, with its old and its new value: an integer of 16 or 32 bits,
    the three words of an Ethernet address, the four words of an IPv6 address. *)
Inductive field :=
  | F16 (old new : Z)
  | F32 (old new : Z)
  | F48 (old new : list Z)
  | F128 (old new : list Z).

Definition recalc (c : Z) (f : field) : Z :=
  match f with
  | F16 o n => recalc_csum16 c o n
  | F32 o n => recalc_csum32 c o n
  | F48 o n => recalc_csum48 c o n
  | F128 o n => recalc_csum128 c o n
  end.

Definition words (n : nat) (l : list Z) : list Z := flat_map (host_bytes e n) l.

Definition old_bytes (f : field) : list Z :=
  match f with
  | F16 o _ => host_bytes e 2 o | F32 o _ => host_bytes e 4 o
  | F48 o _ => words 2 o | F128 o _ => words 4 o
  end.

Definition new_bytes (f : field) : list Z :=
  match f with
  | F16 _ n => host_bytes e 2 n | F32 _ n => host_bytes e 4 n
  | F48 _ n => words 2 n | F128 _ n => words 4 n
  end.

Definition field_ok (f : field) : Prop :=
  match f with
  | F16 o n => in_u 16 o /\ in_u 16 n
  | F32 o n => in_u 32 o /\ in_u 32 n
  | F48 o n => length o = 3%nat /\ length n = 3%nat /\ Forall (in_u 16) o /\ Forall (in_u 16) n
  | F128 o n => length o = 4%nat /\ length n = 4%nat /\ Forall (in_u 32) o /\ Forall (in_u 32) n
  end.

Lemma recalc32_step c t o n :
  tracks c t -> in_u 32 o -> in_u 32 n -> wsum (host_bytes e 4 o) <= t ->
  tracks (recalc_csum32 c o n) (t - wsum (host_bytes e 4 o) + wsum (host_bytes e 4 n)) /\
  recalc_csum32 c o n < 65535.
Proof.
  intros Ht Ho Hn Hle. rewrite !wsum_32 in * by done. unfold recalc_csum32.
  assert (forall x, 0 <= u16 x <= 65535) as Hr.
  { intros x. pose proof (wrap_range 16 x ltac:(lia)) as H. unfold in_u in H. lia. }
  pose proof (Hr o). pose proof (Hr n). pose proof (Hr (Z.shiftr o 16)). pose proof (Hr (Z.shiftr n 16)).
  destruct (recalc_step c t (u16 o) (u16 n) Ht) as [S1 _]; [lia .. |].
  destruct (recalc_step _ _ (u16 (Z.shiftr o 16)) (u16 (Z.shiftr n 16)) S1) as [S2 S3]; [lia .. |].
  split; [| done].
  by replace (t - (u16 o + u16 (Z.shiftr o 16)) + (u16 n + u16 (Z.shiftr n 16)))
    with (t - u16 o + u16 n - u16 (Z.shiftr o 16) + u16 (Z.shiftr n 16)) by lia.
Qed.

(** Updates of the words of an array, one after the other. *)
Lemma recalc_words_step k (f : Z -> Z -> Z -> Z) (ok : Z -> Prop) o : forall n c t,
  (forall c t o n, tracks c t -> ok o -> ok n -> wsum (host_bytes e k o) <= t ->
    tracks (f c o n) (t - wsum (host_bytes e k o) + wsum (host_bytes e k n)) /\ f c o n < 65535) ->
  (forall x, ok x -> 0 <= wsum (host_bytes e k x)) -> Nat.Even k ->
  length o = length n -> Forall ok o -> Forall ok n -> tracks c t -> wsum (words k o) <= t ->
  let c' := foldl (λ c '(o, n), f c o n) c (zip o n) in
  tracks c' (t - wsum (words k o) + wsum (words k n)) /\ (o <> [] -> c' < 65535).
Proof.
  induction o as [| x o IH]; intros [| y n] c t Hf H0 Hk Hl Ho Hn Ht Hle; try done.
  - cbn. rewrite Z.sub_0_r, Z.add_0_r. done.
  - apply Forall_cons in Ho as [Hx Ho], Hn as [Hy Hn]. cbn [words flat_map] in *.
    change (flat_map (host_bytes e k)) with (words k) in *.
    rewrite !wsum_app in * by by rewrite length_host_bytes.
    assert (0 <= wsum (words k o)).
    { clear -H0 Ho Hk. induction Ho as [| z o Hz Ho IH]; cbn; [done |].
      change (flat_map (host_bytes e k)) with (words k).
      rewrite wsum_app by by rewrite length_host_bytes. specialize (H0 z Hz). lia. }
    pose proof (H0 x Hx). pose proof (H0 y Hy).
    destruct (Hf c t x y Ht Hx Hy ltac:(lia)) as [S1 _]. cbn [zip zip_with foldl].
    destruct (IH n (f c x y) _ Hf H0 Hk ltac:(by injection Hl) Ho Hn S1 ltac:(lia)) as [S3 S4].
    split.
    + by replace (t - (wsum (host_bytes e k x) + wsum (words k o)) +
        (wsum (host_bytes e k y) + wsum (words k n))) with
        (t - wsum (host_bytes e k x) + wsum (host_bytes e k y) - wsum (words k o) + wsum (words k n)) by lia.
    + intros _. destruct o as [| x' o]; [destruct n; [by apply (Hf c t x y Ht Hx Hy ltac:(lia)) | done] |]. by apply S4.
Qed.

(** Updating a field moves a checksum from the old sum to the new one. *)
Lemma recalc_field c t f :
  field_ok f -> tracks c t -> wsum (old_bytes f) <= t ->
  tracks (recalc c f) (t - wsum (old_bytes f) + wsum (new_bytes f)) /\ recalc c f < 65535.
Proof.
  assert (forall x, in_u 16 x -> 0 <= wsum (host_bytes e 2 x)) as P16.
  { intros x Hx. rewrite wsum_16 by done. unfold in_u in Hx. lia. }
  assert (forall x, in_u 32 x -> 0 <= wsum (host_bytes e 4 x)) as P32.
  { intros x Hx. rewrite wsum_32 by done. pose proof (wrap_range 16 x ltac:(lia)) as H1.
    pose proof (wrap_range 16 (Z.shiftr x 16) ltac:(lia)) as H2. unfold in_u in *. lia. }
  assert (forall c t o n, tracks c t -> in_u 16 o -> in_u 16 n -> wsum (host_bytes e 2 o) <= t ->
    tracks (recalc_csum16 c o n) (t - wsum (host_bytes e 2 o) + wsum (host_bytes e 2 n)) /\
    recalc_csum16 c o n < 65535) as S16.
  { intros. rewrite !wsum_16 in * by done. unfold in_u in *. change (2 ^ 16) with 65536 in *.
    apply recalc_step; [done | lia ..]. }
  destruct f as [o n | o n | o n | o n]; cbn [field_ok old_bytes new_bytes recalc]; intros Hok Ht Hle.
  - apply S16; tauto.
  - apply recalc32_step; tauto.
  - destruct Hok as (Lo & Ln & Ho & Hn).
    destruct (recalc_words_step 2 recalc_csum16 (in_u 16) o n c t) as [H1 H2]; try done.
    { by exists 1%nat. } { by rewrite Lo, Ln. }
    split; [done |]. apply H2. by destruct o.
  - destruct Hok as (Lo & Ln & Ho & Hn).
    destruct (recalc_words_step 4 recalc_csum32 (in_u 32) o n c t) as [H1 H2]; try done.
    { intros. by apply recalc32_step. } { by exists 2%nat. } { by rewrite Lo, Ln. }
    split; [done |]. apply H2. by destruct o.
Qed.

(** C20: the incremental updates are equivalent to computing the checksum anew: when a field of
    16, 32, 48 or 128 bits at an even offset is overwritten, the updated checksum is the
    checksum of the new data, for any data of up to 128 kB that is not all zero after the
    change (all-zero data has two checksums in ones-complement arithmetic). *)
Theorem csum_incremental_equiv pre post f :
  field_ok f -> Nat.Even (length pre) ->
  data_ok (pre ++ old_bytes f ++ post) -> data_ok (pre ++ new_bytes f ++ post) ->
  0 < wsum (pre ++ new_bytes f ++ post) ->
  recalc (csum (pre ++ old_bytes f ++ post)) f = csum (pre ++ new_bytes f ++ post).
Proof.
  intros Hf Hpre Hold Hnew Hpos.
  assert (Nat.Even (length (old_bytes f)) /\ Nat.Even (length (new_bytes f))) as [Eo En].
  { assert (forall k l, Nat.Even k -> Nat.Even (length (words k l))) as Hw.
    { intros k l Hk. induction l as [| x l IH]; cbn [words flat_map length]; [by exists 0%nat |].
      rewrite length_app, length_host_bytes. change (flat_map (host_bytes e k) l) with (words k l).
      destruct Hk as [i Hi], IH as [j Hj]. exists (i + j)%nat. lia. }
    split; destruct f; cbn [old_bytes new_bytes]; rewrite ?length_host_bytes;
      solve [by exists 1%nat | by exists 2%nat | apply Hw; by exists 1%nat | apply Hw; by exists 2%nat]. }
  rewrite !csum_oc by done.
  pose proof (data_wsum _ Hold) as [Ho _]. pose proof (tracks_csum _ Ho) as Ht.
  rewrite !wsum_app in * by done.
  assert (forall l, Forall is_byte l -> 0 <= wsum l) as Hpos'.
  { intros l Hl. by pose proof (wsum_bound l Hl) as [? _]. }
  destruct Hold as [Hb _]. rewrite !Forall_app in Hb. destruct Hb as (Hb1 & Hb2 & Hb3).
  pose proof (Hpos' _ Hb1). pose proof (Hpos' _ Hb2). pose proof (Hpos' _ Hb3).
  destruct (recalc_field _ _ f Hf Ht ltac:(lia)) as [Ht' _].
  replace (wsum pre + (wsum (old_bytes f) + wsum post) - wsum (old_bytes f) + wsum (new_bytes f))
    with (wsum pre + (wsum (new_bytes f) + wsum post)) in Ht' by lia.
  apply (tracks_exact _ _ Ht'). lia.
Qed.

End Csum.

(** ** Byte order *)

(** Exchanging the bytes of a word multiplies it by 256, in ones-complement arithmetic. *)
Lemma swap_sum data :
  Forall is_byte data ->
  (wsum Big data - 256 * wsum Little data) mod 65535 = 0 /\ (wsum Big data = 0 <-> wsum Little data = 0).
Proof.
  induction data as [| a | a b data IH] using list_ind2; intros H.
  - done.
  - apply Forall_cons in H as [Ha _]. unfold is_byte in Ha. cbn. split; [| lia].
    apply Z.mod_divide; [lia |]. exists 0. lia.
  - rewrite !Forall_cons in H. destruct H as (Ha & Hb & H). destruct (IH H) as [IH1 IH2].
    pose proof (wsum_bound Big data H) as [HB _]. pose proof (wsum_bound Little data H) as [HL _].
    unfold is_byte in *. cbn [wsum]. change (host_val Big [a; b]) with ((0 * 256 + a) * 256 + b).
    change (host_val Little [a; b]) with ((0 * 256 + b) * 256 + a). split; [| lia].
    replace (_ - _) with (wsum Big data - 256 * wsum Little data + - b * 65535) by lia.
    by rewrite Z_mod_plus_full.
Qed.

(** A checksum has the same two bytes in memory whatever the byte order of the host that
    computes it, so the code needs no conversion around it. *)
Theorem csum_endian_independent data :
  data_ok data -> host_bytes Little 2 (csum Little data) = host_bytes Big 2 (csum Big data).
Proof.
  intros Hd. rewrite !csum_oc by done. destruct (swap_sum data (proj1 Hd)) as [Hs Hz].
  pose proof (data_wsum Big data Hd) as HB. pose proof (data_wsum Little data Hd) as HL.
  set (B := wsum Big data) in *. set (L := wsum Little data) in *.
  destruct (Z.eqb_spec L 0) as [E | E].
  { rewrite E, (proj2 Hz E). done. }
  pose proof (oc_range L ltac:(lia)) as Hr. pose proof (oc_cong L ltac:(lia)) as Hc.
  set (r := oc L) in *.
  assert (oc B = 256 * (r mod 256) + r / 256) as ->.
  { apply oc_unique; [lia | Z.to_euclidean_division_equations; lia |].
    pose proof (Z.div_mod r 256 ltac:(lia)) as Hdm.
    replace (B - (256 * (r mod 256) + r / 256)) with
      (B - 256 * L + (- (256)) * (r - L) + (r / 256) * 65535) by lia.
    rewrite Z_mod_plus_full, Zplus_mod, Hs, Zmult_mod, Hc, Z.mul_0_r. done. }
  cbn. f_equal; [| f_equal]; Z.to_euclidean_division_equations; lia.
Qed.

(** ** Witnesses *)

Lemma bytes_forall l : forallb (λ b, (0 <=? b) && (b <? 256)) l = true -> Forall is_byte l.
Proof.
  rewrite forallb_forall, Forall_forall. intros H b Hb%list_elem_of_In. specialize (H b Hb).
  unfold is_byte. lia.
Qed.

(** An IPv4 header with its checksum field zero, whose source address changes. *)
Definition sample_pre : list Z := [0x45; 0; 0; 0x54; 0; 0; 0x40; 0; 0x40; 1; 0; 0].
Definition sample_post : list Z := [192; 168; 0; 199].

Lemma csum_incremental_equiv_witness :
  recalc (csum Little (sample_pre ++ old_bytes Little (F32 0x0100a8c0 0x0900000a) ++ sample_post))
    (F32 0x0100a8c0 0x0900000a) =
  csum Little (sample_pre ++ new_bytes Little (F32 0x0100a8c0 0x0900000a) ++ sample_post).
Proof.
  apply (csum_incremental_equiv Little sample_pre sample_post (F32 0x0100a8c0 0x0900000a)).
  - split; done.
  - by exists 6%nat.
  - split; [by apply bytes_forall | done].
  - split; [by apply bytes_forall | done].
  - by vm_compute.
Defined.

Lemma csum_endian_independent_witness :
  host_bytes Little 2 (csum Little sample_pre) = host_bytes Big 2 (csum Big sample_pre).
Proof.
  apply (csum_endian_independent sample_pre). split; [by apply bytes_forall | done].
Defined.

End Csum.
