(* ===== verification/Packets.v ===== *)
(** Rewriting IPv4 headers and TCP and UDP ports (lib/packets.c): the setters keep the
    checksums of the IP header and of the transport header valid. *)
From Stdlib Require Import Setoid.
From S2P Require Import Prelude Csum.

Module Packets.
Import Csum.

(** ** Packets *)

(** [struct ip_header]; multi-byte fields as the integers the host reads. *)
Record ip_header := mk_ip {
  ip_ihl_ver : Z; ip_tos : Z; ip_tot_len : Z; ip_id : Z; ip_frag_off : Z;
  ip_ttl : Z; ip_proto : Z; ip_csum : Z; ip_src : Z; ip_dst : Z;
}.

#[export] Instance ip_header_eta : RecordEta ip_header := λ r,
  mk_ip (ip_ihl_ver r) (ip_tos r) (ip_tot_len r) (ip_id r) (ip_frag_off r)
    (ip_ttl r) (ip_proto r) (ip_csum r) (ip_src r) (ip_dst r).

(** A packet from its L3 header on: the header, its options, the L4 header and payload, and
    the connection that its metadata points to. *)
Record dp_packet := mk_packet {
  nh : ip_header;
  ip_options : list Z;
  l4 : list Z;
  md_conn : option nat;
}.

#[export] Instance dp_packet_eta : RecordEta dp_packet := λ r,
  mk_packet (nh r) (ip_options r) (l4 r) (md_conn r).

Definition IPPROTO_TCP : Z := 6.
Definition IPPROTO_UDP : Z := 17.
Definition TCP_HEADER_LEN : nat := 20.
Definition UDP_HEADER_LEN : nat := 8.

(** Offsets of fields in [struct tcp_header] and [struct udp_header]. *)
Definition TP_SRC_OFS : nat := 0.
Definition TP_DST_OFS : nat := 2.
Definition TCP_CSUM_OFS : nat := 16.
Definition UDP_CSUM_OFS : nat := 6.

Inductive addr_field := Src | Dst.

Section Packets.
Context (e : endian).

Definition get16 (o : nat) (b : list Z) : Z := host_val e (bytes_at o 2 b).

Definition put16 (o : nat) (v : Z) (b : list Z) : list Z :=
  take o b ++ host_bytes e 2 v ++ drop (o + 2) b.

(** [htons]: the integer whose bytes in memory are those of [x] in network order. *)
Definition htons (x : Z) : Z := host_val e (be_bytes 2 x).

Definition get_addr (f : addr_field) (h : ip_header) : Z :=
  match f with Src => ip_src h | Dst => ip_dst h end.

Definition put_addr (f : addr_field) (a : Z) (h : ip_header) : ip_header :=
  match f with Src => h <| ip_src := a |> | Dst => h <| ip_dst := a |> end.

(** ** The setters *)

Definition packet_set_ipv4_addr (f : addr_field) (new_addr : Z) (p : dp_packet) : dp_packet :=
  let old_addr := get_addr f (nh p) in
  let l4_size := length (l4 p) in
  let p := p <| md_conn := None |> in
  let p :=
    if (ip_proto (nh p) =? IPPROTO_TCP) && (TCP_HEADER_LEN <=? l4_size)%nat then
      p <| l4 ::= λ b, put16 TCP_CSUM_OFS (recalc_csum32 (get16 TCP_CSUM_OFS b) old_addr new_addr) b |>
    else if (ip_proto (nh p) =? IPPROTO_UDP) && (UDP_HEADER_LEN <=? l4_size)%nat then
      if negb (get16 UDP_CSUM_OFS (l4 p) =? 0) then
        let udp_csum := recalc_csum32 (get16 UDP_CSUM_OFS (l4 p)) old_addr new_addr in
        let udp_csum := if udp_csum =? 0 then htons 0xffff else udp_csum in
        p <| l4 ::= put16 UDP_CSUM_OFS udp_csum |>
      else p
    else p in
  let p := p <| nh ::= λ h, h <| ip_csum := recalc_csum32 (ip_csum h) old_addr new_addr |> |> in
  p <| nh ::= put_addr f new_addr |>.

Definition packet_set_ipv4 (src dst tos ttl : Z) (p : dp_packet) : dp_packet :=
  let p := if negb (ip_src (nh p) =? src) then packet_set_ipv4_addr Src src p else p in
  let p := if negb (ip_dst (nh p) =? dst) then packet_set_ipv4_addr Dst dst p else p in
  let p :=
    if negb (ip_tos (nh p) =? tos) then
      p <| nh ::= λ h, h <| ip_csum := recalc_csum16 (ip_csum h) (htons (ip_tos h)) (htons tos) |>
                         <| ip_tos := tos |> |>
    else p in
  if negb (ip_ttl (nh p) =? ttl) then
    p <| nh ::= λ h, h <| ip_csum := recalc_csum16 (ip_csum h) (htons (Z.shiftl (ip_ttl h) 8))
                                       (htons (Z.shiftl ttl 8)) |>
                       <| ip_ttl := ttl |> |>
  else p.

(** The port at offset [port] and the checksum at offset [csum] of an L4 header. *)
Definition packet_set_port (port : nat) (new_port : Z) (csum : nat) (b : list Z) : list Z :=
  if negb (get16 port b =? new_port) then
    let b := put16 csum (recalc_csum16 (get16 csum b) (get16 port b) new_port) b in
    put16 port new_port b
  else b.

Definition packet_set_tcp_port (src dst : Z) (p : dp_packet) : dp_packet :=
  let p := p <| l4 ::= packet_set_port TP_SRC_OFS src TCP_CSUM_OFS |> in
  let p := p <| l4 ::= packet_set_port TP_DST_OFS dst TCP_CSUM_OFS |> in
  p <| md_conn := None |>.

Definition packet_set_udp_port (src dst : Z) (p : dp_packet) : dp_packet :=
  let p :=
    if negb (get16 UDP_CSUM_OFS (l4 p) =? 0) then
      let p := p <| l4 ::= packet_set_port TP_SRC_OFS src UDP_CSUM_OFS |> in
      let p := p <| l4 ::= packet_set_port TP_DST_OFS dst UDP_CSUM_OFS |> in
      if get16 UDP_CSUM_OFS (l4 p) =? 0 then p <| l4 ::= put16 UDP_CSUM_OFS (htons 0xffff) |> else p
    else p <| l4 ::= λ b, put16 TP_DST_OFS dst (put16 TP_SRC_OFS src b) |> in
  p <| md_conn := None |>.

(** ** Valid packets *)

Definition ip_bytes (h : ip_header) : list Z :=
  [ip_ihl_ver h; ip_tos h] ++ host_bytes e 2 (ip_tot_len h) ++ host_bytes e 2 (ip_id h)
  ++ host_bytes e 2 (ip_frag_off h) ++ [ip_ttl h; ip_proto h] ++ host_bytes e 2 (ip_csum h)
  ++ host_bytes e 4 (ip_src h) ++ host_bytes e 4 (ip_dst h).

(** The pseudo-header of the transport checksum. *)
Definition pseudo_header (h : ip_header) (l4_size : nat) : list Z :=
  host_bytes e 4 (ip_src h) ++ host_bytes e 4 (ip_dst h) ++ [0; ip_proto h]
  ++ be_bytes 2 (Z.of_nat l4_size).

Definition ip_valid (p : dp_packet) : Prop := csum e (ip_bytes (nh p) ++ ip_options p) = 0.

(** A transport checksum is right; a zero UDP checksum is none. *)
Definition l4_csum_valid (p : dp_packet) : Prop :=
  csum e (pseudo_header (nh p) (length (l4 p)) ++ l4 p) = 0.

Definition l4_valid (p : dp_packet) : Prop :=
  if (ip_proto (nh p) =? IPPROTO_TCP) && (TCP_HEADER_LEN <=? length (l4 p))%nat then l4_csum_valid p
  else if (ip_proto (nh p) =? IPPROTO_UDP) && (UDP_HEADER_LEN <=? length (l4 p))%nat then
    get16 UDP_CSUM_OFS (l4 p) = 0 \/ l4_csum_valid p
  else True.

(** Field ranges; the version is not zero. *)
Definition ip_ok (h : ip_header) : Prop :=
  0 < ip_ihl_ver h < 256 /\ is_byte (ip_tos h) /\ in_u 16 (ip_tot_len h) /\ in_u 16 (ip_id h) /\
  in_u 16 (ip_frag_off h) /\ is_byte (ip_ttl h) /\ is_byte (ip_proto h) /\ in_u 16 (ip_csum h) /\
  in_u 32 (ip_src h) /\ in_u 32 (ip_dst h).

Definition packet_ok (p : dp_packet) : Prop :=
  ip_ok (nh p) /\ Forall is_byte (ip_options p) /\ (length (ip_options p) <= 40)%nat /\
  Forall is_byte (l4 p) /\ Z.of_nat (length (l4 p)) <= 65535.

(** ** Congruence modulo 65535 *)

Definition cong (x y : Z) : Prop := (x - y) mod 65535 = 0.

#[local] Instance cong_equiv : Equivalence cong.
Proof.
  unfold cong. split.
  - intros x. by rewrite Z.sub_diag.
  - intros x y H. replace (y - x) with (- (x - y)) by lia. by apply Z_mod_zero_opp_full.
  - intros x y z H1 H2. replace (x - z) with ((x - y) + (y - z)) by lia.
    by rewrite Zplus_mod, H1, H2.
Qed.

#[local] Instance cong_add : Proper (cong ==> cong ==> cong) Z.add.
Proof.
  unfold cong. intros x x' H y y' H'. replace (x + y - (x' + y')) with ((x - x') + (y - y')) by lia.
  by rewrite Zplus_mod, H, H'.
Qed.

#[local] Instance cong_sub : Proper (cong ==> cong ==> cong) Z.sub.
Proof.
  unfold cong. intros x x' H y y' H'. replace (x - y - (x' - y')) with ((x - x') - (y - y')) by lia.
  by rewrite Zminus_mod, H, H'.
Qed.

Lemma cong_multiple x : cong (x + 65535) x.
Proof. unfold cong. replace (x + 65535 - x) with (1 * 65535) by lia. apply Z_mod_mult. Qed.

Lemma cong_diff x y x' y' : cong x y -> x - y = x' - y' -> cong x' y'.
Proof. unfold cong. by intros ? <-. Qed.

(** The checksum over data that includes it is zero when the sum is a multiple of 65535. *)
Lemma valid_iff b : data_ok b -> csum e b = 0 <-> 0 < wsum e b /\ cong (wsum e b) 0.
Proof.
  intros Hb. rewrite csum_oc by done. pose proof (data_wsum e b Hb) as [H _]. unfold cong.
  rewrite Z.sub_0_r. split.
  - intros Hoc. destruct (Z.eqb_spec (wsum e b) 0) as [E | E]; [by rewrite E in Hoc |].
    split; [lia |]. pose proof (oc_cong (wsum e b) H) as Hc.
    replace (oc (wsum e b)) with 65535 in Hc by lia.
    replace (wsum e b) with (65535 - (65535 - wsum e b)) by lia. by rewrite Zminus_mod, Hc.
  - intros [Hp Hc]. rewrite (oc_unique (wsum e b) 65535); [lia | done | lia |].
    by rewrite Zminus_mod, Hc.
Qed.

(** An update keeps checksum plus field constant. *)
Lemma recalc16_cong c o n :
  in_u 16 c -> in_u 16 o -> in_u 16 n ->
  in_u 16 (recalc_csum16 c o n) /\ cong (recalc_csum16 c o n + n) (c + o).
Proof.
  unfold in_u. change (2 ^ 16) with 65536. intros Hc Ho Hn. unfold recalc_csum16.
  rewrite !u16_lnot by lia. set (x := 65535 - c + (65535 - o) + n).
  rewrite csum_finish_oc by (unfold in_u; change (2 ^ 32) with 4294967296; unfold x; lia).
  assert (0 <= x) as Hx by (unfold x; lia). pose proof (oc_cong x Hx) as Hcong.
  assert (0 <= oc x <= 65535).
  { destruct (Z.eqb_spec x 0) as [E |]; [by rewrite E | pose proof (oc_range x ltac:(lia)); lia]. }
  split; [lia |]. unfold cong.
  replace (65535 - oc x + n - (c + o)) with (- (oc x - x) + (-1) * 65535) by (unfold x; lia).
  rewrite Z_mod_plus_full. by apply Z_mod_zero_opp_full.
Qed.

Lemma recalc32_cong c o n :
  in_u 16 c -> in_u 32 o -> in_u 32 n ->
  in_u 16 (recalc_csum32 c o n) /\
  cong (recalc_csum32 c o n + wsum e (host_bytes e 4 n)) (c + wsum e (host_bytes e 4 o)).
Proof.
  intros Hc Ho Hn. unfold recalc_csum32. rewrite !wsum_32 by done.
  assert (forall x, in_u 16 (u16 x)) as Hr by (intros; by apply wrap_range).
  destruct (recalc16_cong c (u16 o) (u16 n)) as [H1 H2]; [done .. |].
  destruct (recalc16_cong (recalc_csum16 c (u16 o) (u16 n)) (u16 (Z.shiftr o 16)) (u16 (Z.shiftr n 16)))
    as [H3 H4]; [done .. |].
  split; [done |]. set (c1 := recalc_csum16 c (u16 o) (u16 n)) in *.
  set (c2 := recalc_csum16 c1 _ _) in *.
  replace (c2 + (u16 n + u16 (Z.shiftr n 16))) with (c2 + u16 (Z.shiftr n 16) + u16 n) by lia.
  rewrite H4. replace (c1 + u16 (Z.shiftr o 16) + u16 n) with (c1 + u16 n + u16 (Z.shiftr o 16)) by lia.
  rewrite H2. by replace (c + u16 o + u16 (Z.shiftr o 16)) with (c + (u16 o + u16 (Z.shiftr o 16))) by lia.
Qed.

(** ** Sums of fields *)

Lemma host_bytes_byte n x : Forall is_byte (host_bytes e n x).
Proof.
  assert (Forall is_byte (be_bytes n x)) as H.
  { induction n; cbn [be_bytes]; constructor; [| done]. apply Z.mod_pos_bound. lia. }
  destruct e; cbn [host_bytes]; [by apply Forall_rev | done].
Qed.

Lemma word_split a b : host_val e [a; b] = host_val e [a; 0] + host_val e [0; b].
Proof. destruct e; cbn; lia. Qed.

Lemma host_bytes_val a b : is_byte a -> is_byte b -> host_bytes e 2 (host_val e [a; b]) = [a; b].
Proof.
  unfold is_byte. intros. destruct e; cbn [host_val host_bytes rev app be_bytes]; unfold be_val;
    cbn [foldl]; change (2 ^ (8 * Z.of_nat 1)) with 256; change (2 ^ (8 * Z.of_nat 0)) with 1;
    f_equal; [| f_equal | | f_equal]; Z.to_euclidean_division_equations; lia.
Qed.

(** A word of a byte string, taken apart and put back. *)
Lemma split16 o b :
  Forall is_byte b -> (o + 2 <= length b)%nat ->
  b = take o b ++ host_bytes e 2 (get16 o b) ++ drop (o + 2) b /\ in_u 16 (get16 o b).
Proof.
  intros Hb Ho. unfold get16, bytes_at. rewrite <- (drop_drop b 2 o).
  assert (b = take o b ++ drop o b) as E by (by rewrite take_drop). rewrite E in Hb.
  apply Forall_app in Hb as [_ Hb]. assert (2 <= length (drop o b))%nat as Hl by (rewrite length_drop; lia).
  destruct (drop o b) as [| x [| y d]] eqn:Ed; cbn [length] in Hl; [lia | lia |].
  rewrite !Forall_cons in Hb. destruct Hb as (Hx & Hy & _).
  change (take 2 (x :: y :: d)) with [x; y]. change (drop 2 (x :: y :: d)) with d.
  rewrite host_bytes_val by done. split; [done |]. pose proof (word_range e x y Hx Hy).
  unfold in_u. change (2 ^ 16) with 65536. lia.
Qed.

Lemma length_put16 o v b : (o + 2 <= length b)%nat -> length (put16 o v b) = length b.
Proof.
  intros Ho. unfold put16. rewrite !length_app, length_take, length_drop, length_host_bytes. lia.
Qed.

Lemma bytes_put16 o v b : Forall is_byte b -> Forall is_byte (put16 o v b).
Proof.
  intros Hb. unfold put16. rewrite !Forall_app. split; [by apply Forall_take |].
  split; [apply host_bytes_byte | by apply Forall_drop].
Qed.

Lemma wsum_put16 o v b :
  Forall is_byte b -> (o + 2 <= length b)%nat -> Nat.Even o -> in_u 16 v ->
  wsum e (put16 o v b) = wsum e b - get16 o b + v.
Proof.
  intros Hb Ho He Hv. destruct (split16 o b Hb Ho) as [E Hg].
  assert (Nat.Even (length (take o b))) as Ht by (rewrite length_take, Nat.min_l by lia; done).
  rewrite E at 2. unfold put16.
  rewrite !wsum_app by (done || rewrite length_host_bytes; by exists 1%nat).
  rewrite !wsum_16 by done. lia.
Qed.

Lemma get16_put16 o v b : (o + 2 <= length b)%nat -> in_u 16 v -> get16 o (put16 o v b) = v.
Proof.
  intros Ho Hv. unfold get16, put16, bytes_at.
  rewrite drop_app_exact by (rewrite length_take; lia).
  rewrite take_app_exact by apply length_host_bytes. by apply host_val_bytes.
Qed.

Lemma get16_put16_ne o o' v b :
  (o' + 2 <= length b)%nat -> (o + 2 <= o' \/ o' + 2 <= o)%nat -> get16 o (put16 o' v b) = get16 o b.
Proof.
  intros Hl Ho. unfold get16. f_equal. apply list_eq. intros i. unfold bytes_at, put16.
  destruct (decide (i < 2)%nat) as [Hi | Hi].
  2: { rewrite !lookup_take_ge by lia. done. }
  rewrite !lookup_take_lt, !lookup_drop by done. destruct Ho as [Ho | Ho].
  - rewrite lookup_app_l by (rewrite length_take; lia). apply lookup_take_lt. lia.
  - rewrite lookup_app_r by (rewrite length_take; lia). rewrite length_take, Nat.min_l by lia.
    rewrite lookup_app_r by (rewrite length_host_bytes; lia). rewrite length_host_bytes, lookup_drop.
    f_equal. lia.
Qed.

(** ** IP headers *)

Lemma wsum_ip h :
  ip_ok h ->
  wsum e (ip_bytes h) =
  host_val e [ip_ihl_ver h; 0] + host_val e [0; ip_tos h] + ip_tot_len h + ip_id h + ip_frag_off h
  + host_val e [ip_ttl h; 0] + host_val e [0; ip_proto h] + ip_csum h
  + wsum e (host_bytes e 4 (ip_src h)) + wsum e (host_bytes e 4 (ip_dst h)).
Proof.
  intros (_ & _ & H1 & H2 & H3 & _ & _ & H4 & _). unfold ip_bytes.
  assert (forall x y, Nat.Even (length [x; y : Z])) as E2 by (by exists 1%nat).
  assert (forall x, Nat.Even (length (host_bytes e 2 x))) as E16
    by (intros; rewrite length_host_bytes; by exists 1%nat).
  assert (forall x, Nat.Even (length (host_bytes e 4 x))) as E32
    by (intros; rewrite length_host_bytes; by exists 2%nat).
  rewrite !wsum_app by done. rewrite !wsum_16 by done. cbn [wsum].
  rewrite (word_split (ip_ihl_ver h)), (word_split (ip_ttl h)). lia.
Qed.

Lemma wsum_nonneg b : Forall is_byte b -> 0 <= wsum e b.
Proof. intros Hb. by pose proof (wsum_bound e b Hb) as [? _]. Qed.

Lemma ip_bytes_byte h : ip_ok h -> Forall is_byte (ip_bytes h).
Proof.
  intros (H1 & H2 & _ & _ & _ & H3 & H4 & _). unfold ip_bytes.
  rewrite !Forall_app, !Forall_cons. unfold is_byte in *.
  repeat split; try apply host_bytes_byte; try lia; done.
Qed.

Lemma length_ip_bytes h : length (ip_bytes h) = 20%nat.
Proof. unfold ip_bytes. rewrite !length_app, !length_host_bytes. done. Qed.

Lemma wsum_ip_options h opts :
  wsum e (ip_bytes h ++ opts) = wsum e (ip_bytes h) + wsum e opts.
Proof. apply wsum_app. rewrite length_ip_bytes. by exists 10%nat. Qed.

Lemma ip_sum_pos h : ip_ok h -> 0 < wsum e (ip_bytes h).
Proof.
  intros Hok. rewrite wsum_ip by done. destruct Hok as (H1 & H2 & H3 & H4 & H5 & H6 & H7 & H8 & _ & _).
  pose proof (wsum_nonneg _ (host_bytes_byte 4 (ip_src h))).
  pose proof (wsum_nonneg _ (host_bytes_byte 4 (ip_dst h))). unfold in_u, is_byte in *.
  assert (0 < host_val e [ip_ihl_ver h; 0]) by (destruct e; cbn; lia).
  assert (0 <= host_val e [0; ip_tos h]) by (destruct e; cbn; lia).
  assert (0 <= host_val e [ip_ttl h; 0]) by (destruct e; cbn; lia).
  assert (0 <= host_val e [0; ip_proto h]) by (destruct e; cbn; lia). lia.
Qed.

Lemma ip_data_ok h opts :
  ip_ok h -> Forall is_byte opts -> (length opts <= 40)%nat -> data_ok (ip_bytes h ++ opts).
Proof.
  intros Hh Ho Hl. split; [| rewrite length_app, length_ip_bytes; lia].
  apply Forall_app. split; [by apply ip_bytes_byte | done].
Qed.

(** Headers with congruent sums are valid together. *)
Lemma ip_valid_cong p p' :
  packet_ok p -> packet_ok p' -> ip_options p' = ip_options p ->
  cong (wsum e (ip_bytes (nh p'))) (wsum e (ip_bytes (nh p))) -> ip_valid p -> ip_valid p'.
Proof.
  intros (Hh & Ho & Hlo & _) (Hh' & _) Eo Hc Hv. unfold ip_valid in *.
  rewrite valid_iff in Hv by by apply ip_data_ok. rewrite valid_iff by (rewrite Eo; by apply ip_data_ok).
  rewrite Eo, wsum_ip_options in *. pose proof (wsum_nonneg _ Ho).
  pose proof (ip_sum_pos _ Hh'). split; [lia |]. rewrite Hc. tauto.
Qed.

(** ** Transport headers *)

Lemma wsum_pseudo h n l :
  wsum e (pseudo_header h n ++ l) =
  wsum e (host_bytes e 4 (ip_src h)) + wsum e (host_bytes e 4 (ip_dst h)) + host_val e [0; ip_proto h]
  + wsum e (be_bytes 2 (Z.of_nat n)) + wsum e l.
Proof.
  unfold pseudo_header. rewrite <- !app_assoc.
  rewrite !wsum_app by (rewrite ?length_host_bytes, ?length_be_bytes;
    solve [by exists 2%nat | by exists 1%nat]).
  cbn [wsum]. lia.
Qed.

Lemma pseudo_data_ok p :
  packet_ok p -> data_ok (pseudo_header (nh p) (length (l4 p)) ++ l4 p).
Proof.
  intros (Hh & _ & _ & Hb & Hl). split.
  - apply Forall_app. split; [| done]. unfold pseudo_header. rewrite !Forall_app, !Forall_cons.
    destruct Hh as (_ & _ & _ & _ & _ & _ & Hp & _).
    repeat split; try apply host_bytes_byte; try (unfold is_byte; lia); try done.
    all: apply Hp || idtac. all: cbn [be_bytes]; repeat constructor; apply Z.mod_pos_bound; lia.
  - rewrite length_app. unfold pseudo_header. rewrite !length_app, !length_host_bytes, length_be_bytes.
    cbn [length]. lia.
Qed.

(** Segments with congruent sums, pseudo-header included, are valid together. *)
Lemma l4_csum_valid_cong p p' :
  packet_ok p -> packet_ok p' -> length (l4 p') = length (l4 p) ->
  ip_proto (nh p') = ip_proto (nh p) -> 0 < ip_proto (nh p) ->
  cong (wsum e (host_bytes e 4 (ip_src (nh p'))) + wsum e (host_bytes e 4 (ip_dst (nh p'))) + wsum e (l4 p'))
       (wsum e (host_bytes e 4 (ip_src (nh p))) + wsum e (host_bytes e 4 (ip_dst (nh p))) + wsum e (l4 p)) ->
  l4_csum_valid p -> l4_csum_valid p'.
Proof.
  intros Hok Hok' El Ep Hp Hc Hv. unfold l4_csum_valid in *.
  rewrite valid_iff in Hv by by apply pseudo_data_ok. rewrite valid_iff by by apply pseudo_data_ok.
  rewrite !wsum_pseudo in *. rewrite El, Ep. destruct Hv as [_ Hv], Hok' as (Hh' & _ & _ & Hb' & _).
  pose proof (wsum_nonneg _ Hb'). pose proof (wsum_nonneg _ (host_bytes_byte 4 (ip_src (nh p')))).
  pose proof (wsum_nonneg _ (host_bytes_byte 4 (ip_dst (nh p')))).
  assert (0 <= wsum e (be_bytes 2 (Z.of_nat (length (l4 p))))).
  { apply wsum_nonneg. cbn [be_bytes]. repeat constructor; apply Z.mod_pos_bound; lia. }
  assert (0 < host_val e [0; ip_proto (nh p)]).
  { destruct e; cbn; lia. }
  split; [lia |]. etransitivity; [| exact Hv]. eapply cong_diff; [exact Hc | lia].
Qed.

(** ** Rewriting an address *)

(** The L4 data after an address has changed. *)
Definition l4_readdress (proto old new : Z) (b : list Z) : list Z :=
  if (proto =? IPPROTO_TCP) && (TCP_HEADER_LEN <=? length b)%nat then
    put16 TCP_CSUM_OFS (recalc_csum32 (get16 TCP_CSUM_OFS b) old new) b
  else if (proto =? IPPROTO_UDP) && (UDP_HEADER_LEN <=? length b)%nat then
    if negb (get16 UDP_CSUM_OFS b =? 0) then
      let c := recalc_csum32 (get16 UDP_CSUM_OFS b) old new in
      put16 UDP_CSUM_OFS (if c =? 0 then htons 0xffff else c) b
    else b
  else b.

Lemma set_addr_parts f a p :
  packet_set_ipv4_addr f a p =
  mk_packet
    (put_addr f a (nh p <| ip_csum := recalc_csum32 (ip_csum (nh p)) (get_addr f (nh p)) a |>))
    (ip_options p) (l4_readdress (ip_proto (nh p)) (get_addr f (nh p)) a (l4 p)) None.
Proof.
  unfold packet_set_ipv4_addr, l4_readdress. rsimpl. destruct (_ && _); [done |].
  destruct (_ && _); [| done]. by destruct (negb _).
Qed.

Lemma htons_ffff : htons 0xffff = 65535.
Proof. unfold htons. destruct e; reflexivity. Qed.

(** Shape and sum of the rewritten L4 data. *)
Lemma l4_readdress_spec proto old new b :
  Forall is_byte b -> in_u 32 old -> in_u 32 new ->
  let b' := l4_readdress proto old new b in
  Forall is_byte b' /\ length b' = length b /\
  (((proto =? IPPROTO_TCP) && (TCP_HEADER_LEN <=? length b)%nat = true \/
    (proto =? IPPROTO_UDP) && (UDP_HEADER_LEN <=? length b)%nat = true /\ get16 UDP_CSUM_OFS b <> 0) ->
   cong (wsum e b' + wsum e (host_bytes e 4 new)) (wsum e b + wsum e (host_bytes e 4 old))) /\
  ((proto =? IPPROTO_TCP) && (TCP_HEADER_LEN <=? length b)%nat = false ->
   get16 UDP_CSUM_OFS b = 0 -> b' = b).
Proof.
  intros Hb Ho Hn. unfold l4_readdress.
  destruct ((proto =? IPPROTO_TCP) && (TCP_HEADER_LEN <=? length b)%nat) eqn:Etcp.
  - apply andb_prop in Etcp as [_ Hl%Nat.leb_le]. unfold TCP_HEADER_LEN, TCP_CSUM_OFS in *.
    destruct (split16 16 b Hb ltac:(lia)) as [_ Hg].
    destruct (recalc32_cong _ old new Hg Ho Hn) as [Hc1 Hc2].
    split; [by apply bytes_put16 |]. split; [apply length_put16; lia |]. split; [| done]. intros _.
    rewrite wsum_put16 by (done || lia || by exists 8%nat). eapply cong_diff; [exact Hc2 | lia].
  - destruct ((proto =? IPPROTO_UDP) && (UDP_HEADER_LEN <=? length b)%nat) eqn:Eudp.
    2: { repeat split; try done. by intros [[=] | [[=] _]]. }
    apply andb_prop in Eudp as [_ Hl%Nat.leb_le]. unfold UDP_HEADER_LEN, UDP_CSUM_OFS in *.
    destruct (split16 6 b Hb ltac:(lia)) as [_ Hg].
    destruct (Z.eqb_spec (get16 6 b) 0) as [E0 | E0]; cbn [negb].
    { repeat split; try done. by intros [[=] | [_ ?]]. }
    destruct (recalc32_cong _ old new Hg Ho Hn) as [Hc1 Hc2].
    set (c := recalc_csum32 (get16 6 b) old new) in *.
    set (c' := if c =? 0 then htons 65535 else c).
    assert (in_u 16 c' /\ cong c' c) as [Hc3 Hc4].
    { unfold c'. destruct (Z.eqb_spec c 0) as [-> |]; [| done]. by rewrite htons_ffff. }
    split; [by apply bytes_put16 |]. split; [apply length_put16; lia |]. split; [| done]. intros _.
    rewrite wsum_put16 by (done || lia || by exists 3%nat). rewrite Hc4.
    eapply cong_diff; [exact Hc2 | lia].
Qed.

Lemma put_addr_ok f a h : ip_ok h -> in_u 32 a -> ip_ok (put_addr f a h).
Proof. unfold ip_ok. intros Hh Ha. destruct f; cbn [put_addr]; rsimpl; tauto. Qed.

Lemma get_addr_ok f h : ip_ok h -> in_u 32 (get_addr f h).
Proof. intros (? & ? & ? & ? & ? & ? & ? & ? & ? & ?). by destruct f. Qed.

(** Packets and checksums stay right when an address is rewritten. *)
Definition good (p : dp_packet) : Prop := packet_ok p /\ ip_valid p /\ l4_valid p.

Lemma set_addr_good f a p :
  good p -> in_u 32 a -> good (packet_set_ipv4_addr f a p).
Proof.
  intros (Hok & Hip & Hl4) Ha. rewrite set_addr_parts. pose proof Hok as (Hh & Ho & Hlo & Hb & Hlb).
  pose proof (get_addr_ok f (nh p) Hh) as Hold. pose proof Hh as (_ & _ & _ & _ & _ & _ & _ & Hcs & _).
  destruct (recalc32_cong _ _ a Hcs Hold Ha) as [Hc1 Hc2].
  destruct (l4_readdress_spec (ip_proto (nh p)) _ a (l4 p) Hb Hold Ha) as (Hb' & Hlen & Hcong & Hsame).
  set (b' := l4_readdress _ _ _ _) in *. set (p' := mk_packet _ _ _ _).
  assert (packet_ok p') as Hok'.
  { unfold p', packet_ok. cbn [nh ip_options l4]. rewrite Hlen. split; [| tauto].
    apply put_addr_ok; [| done]. unfold ip_ok in *. rsimpl. tauto. }
  assert (ip_proto (nh p') = ip_proto (nh p)) as Ep by (by destruct f).
  split; [done | split].
  - apply (ip_valid_cong p); [done .. | |done]. destruct Hok' as [Hh' _].
    rewrite !wsum_ip by done. unfold p'. cbn [nh]. destruct f; cbn [put_addr get_addr] in *; rsimpl;
      (eapply cong_diff; [exact Hc2 | lia]).
  - unfold l4_valid in *. assert (l4 p' = b') as El by done. rewrite Ep, El, Hlen.
    destruct (_ && _) eqn:Etcp.
    + apply (l4_csum_valid_cong p); [done .. | | |done].
      { apply andb_prop in Etcp as [->%Z.eqb_eq _]. done. }
      specialize (Hcong (or_introl eq_refl)). unfold p'. cbn [nh l4].
      destruct f; cbn [put_addr get_addr] in *; rsimpl; (eapply cong_diff; [exact Hcong | lia]).
    + destruct ((_ =? IPPROTO_UDP) && _) eqn:Eudp; [| done].
      destruct (Z.eqb_spec (get16 UDP_CSUM_OFS (l4 p)) 0) as [E0 | E0].
      { left. by rewrite (Hsame eq_refl E0). }
      right. destruct Hl4 as [? | Hl4]; [done |].
      apply (l4_csum_valid_cong p); [done .. | | |done].
      { apply andb_prop in Eudp as [->%Z.eqb_eq _]. done. }
      specialize (Hcong (or_intror (conj eq_refl E0))). unfold p'. cbn [nh l4].
      destruct f; cbn [put_addr get_addr] in *; rsimpl; (eapply cong_diff; [exact Hcong | lia]).
Qed.

(** ** Rewriting the rest of the IP header *)

(** A header that differs in its checksum and in fields outside the pseudo-header. *)
Lemma set_header_good p h' :
  good p -> ip_ok h' -> ip_src h' = ip_src (nh p) -> ip_dst h' = ip_dst (nh p) ->
  ip_proto h' = ip_proto (nh p) -> cong (wsum e (ip_bytes h')) (wsum e (ip_bytes (nh p))) ->
  good (p <| nh := h' |>).
Proof.
  intros (Hok & Hip & Hl4) Hh' Es Ed Ep Hc.
  assert (packet_ok (p <| nh := h' |>)) as Hok'.
  { unfold packet_ok in *. rsimpl. tauto. }
  split; [done | split].
  - apply (ip_valid_cong p); [done .. |]. done.
  - unfold l4_valid, l4_csum_valid, pseudo_header in *. rsimpl. by rewrite Es, Ed, Ep.
Qed.

Lemma word_in_u a b : is_byte a -> is_byte b -> in_u 16 (host_val e [a; b]).
Proof.
  intros Ha Hb. pose proof (word_range e a b Ha Hb). unfold in_u. change (2 ^ 16) with 65536. lia.
Qed.

Lemma htons_low x : is_byte x -> htons x = host_val e [0; x].
Proof.
  unfold is_byte, htons. intros Hx. cbn [be_bytes]. change (2 ^ (8 * Z.of_nat 1)) with 256.
  change (2 ^ (8 * Z.of_nat 0)) with 1. rewrite Z.div_1_r, Z.div_small, !Z.mod_small by lia. done.
Qed.

Lemma htons_high x : is_byte x -> htons (Z.shiftl x 8) = host_val e [x; 0].
Proof.
  unfold is_byte, htons. intros Hx. cbn [be_bytes]. change (2 ^ (8 * Z.of_nat 1)) with 256.
  change (2 ^ (8 * Z.of_nat 0)) with 1. rewrite Z.shiftl_mul_pow2 by lia. change (2 ^ 8) with 256.
  rewrite Z.div_1_r, Z.div_mul, Z_mod_mult, Z.mod_small by lia. done.
Qed.

Lemma byte_0 : is_byte 0.
Proof. unfold is_byte. lia. Qed.

Lemma set_tos_good p tos :
  good p -> is_byte tos ->
  good (p <| nh ::= λ h, h <| ip_csum := recalc_csum16 (ip_csum h) (htons (ip_tos h)) (htons tos) |>
                           <| ip_tos := tos |> |>).
Proof.
  intros Hg Ht. pose proof Hg as ((Hh & _) & _).
  pose proof Hh as (_ & Ht0 & _ & _ & _ & _ & _ & Hcs & _).
  destruct (recalc16_cong _ _ _ Hcs (word_in_u 0 (ip_tos (nh p)) byte_0 Ht0) (word_in_u 0 tos byte_0 Ht))
    as [Hc1 Hc2]. rewrite <- !htons_low in Hc1, Hc2 by done.
  set (h' := nh p <| ip_csum := recalc_csum16 (ip_csum (nh p)) (htons (ip_tos (nh p))) (htons tos) |>
                  <| ip_tos := tos |>). assert (ip_ok h') as Hh'.
  { unfold ip_ok, h' in *. rsimpl. tauto. }
  apply (set_header_good p h'); try done. rewrite !wsum_ip by done. unfold h'. rsimpl.
  rewrite !htons_low in * by done. eapply cong_diff; [exact Hc2 | lia].
Qed.

Lemma set_ttl_good p ttl :
  good p -> is_byte ttl ->
  good (p <| nh ::= λ h, h <| ip_csum := recalc_csum16 (ip_csum h) (htons (Z.shiftl (ip_ttl h) 8))
                                           (htons (Z.shiftl ttl 8)) |>
                           <| ip_ttl := ttl |> |>).
Proof.
  intros Hg Ht. pose proof Hg as ((Hh & _) & _).
  pose proof Hh as (_ & _ & _ & _ & _ & Ht0 & _ & Hcs & _).
  destruct (recalc16_cong _ _ _ Hcs (word_in_u (ip_ttl (nh p)) 0 Ht0 byte_0) (word_in_u ttl 0 Ht byte_0))
    as [Hc1 Hc2]. rewrite <- !htons_high in Hc1, Hc2 by done.
  set (h' := nh p <| ip_csum := recalc_csum16 (ip_csum (nh p)) (htons (Z.shiftl (ip_ttl (nh p)) 8))
                                  (htons (Z.shiftl ttl 8)) |>
                  <| ip_ttl := ttl |>). assert (ip_ok h') as Hh'.
  { unfold ip_ok, h' in *. rsimpl. tauto. }
  apply (set_header_good p h'); try done. rewrite !wsum_ip by done. unfold h'. rsimpl.
  rewrite !htons_high in * by done. eapply cong_diff; [exact Hc2 | lia].
Qed.

(** The fields that the setters are not asked to change. *)
Definition rest (h : ip_header) : list Z :=
  [ip_ihl_ver h; ip_tot_len h; ip_id h; ip_frag_off h; ip_proto h].

(** C21: rewriting the addresses, the type of service and the time to live of an IPv4 packet
    keeps it valid: if the header checksum and the TCP or UDP checksum (where there is one) were
    right, they are right for the new fields, a UDP checksum does not become zero, and nothing
    else of the header, its options or the length of the payload changes. *)
Theorem packet_set_ipv4_valid src dst tos ttl p :
  good p -> in_u 32 src -> in_u 32 dst -> is_byte tos -> is_byte ttl ->
  let p' := packet_set_ipv4 src dst tos ttl p in
  good p' /\ ip_src (nh p') = src /\ ip_dst (nh p') = dst /\ ip_tos (nh p') = tos /\
  ip_ttl (nh p') = ttl /\ rest (nh p') = rest (nh p) /\ ip_options p' = ip_options p /\
  length (l4 p') = length (l4 p).
Proof.
  intros Hg Hs Hd Ht Hl. unfold packet_set_ipv4.
  set (p1 := if negb (ip_src (nh p) =? src) then _ else p).
  assert (good p1 /\ ip_src (nh p1) = src /\ rest (nh p1) = rest (nh p) /\
    ip_options p1 = ip_options p /\ length (l4 p1) = length (l4 p)) as (G1 & S1 & R1 & O1 & L1).
  { unfold p1. destruct (Z.eqb_spec (ip_src (nh p)) src) as [E | E]; cbn [negb]; [done |].
    split; [by apply set_addr_good |]. rewrite set_addr_parts. repeat split. cbn [l4].
    apply l4_readdress_spec; [apply Hg | apply (get_addr_ok Src), Hg | done]. }
  set (p2 := if negb (ip_dst (nh p1) =? dst) then _ else p1).
  assert (good p2 /\ ip_src (nh p2) = src /\ ip_dst (nh p2) = dst /\ rest (nh p2) = rest (nh p) /\
    ip_options p2 = ip_options p /\ length (l4 p2) = length (l4 p)) as (G2 & S2 & D2 & R2 & O2 & L2).
  { unfold p2. destruct (Z.eqb_spec (ip_dst (nh p1)) dst) as [E | E]; cbn [negb]; [done |].
    split; [by apply set_addr_good |]. rewrite set_addr_parts. repeat split; [done .. |]. cbn [l4].
    rewrite <- L1. apply l4_readdress_spec; [apply G1 | apply (get_addr_ok Dst), G1 | done]. }
  clearbody p1 p2. set (p3 := if negb (ip_tos (nh p2) =? tos) then _ else p2).
  assert (good p3 /\ ip_src (nh p3) = src /\ ip_dst (nh p3) = dst /\ ip_tos (nh p3) = tos /\
    rest (nh p3) = rest (nh p) /\ ip_options p3 = ip_options p /\ length (l4 p3) = length (l4 p))
    as (G3 & S3 & D3 & T3 & R3 & O3 & L3).
  { unfold p3. destruct (Z.eqb_spec (ip_tos (nh p2)) tos) as [E | E]; cbn [negb]; [done |].
    split; [by apply set_tos_good |]. done. }
  clearbody p3. destruct (Z.eqb_spec (ip_ttl (nh p3)) ttl) as [E | E]; cbn [negb]; [done |].
  split; [by apply set_ttl_good |]. done.
Qed.

(** ** Rewriting ports *)

Lemma set_port_spec port new csum b :
  Forall is_byte b -> (port + 2 <= length b)%nat -> (csum + 2 <= length b)%nat ->
  (port + 2 <= csum)%nat -> Nat.Even port -> Nat.Even csum -> in_u 16 new ->
  let b' := packet_set_port port new csum b in
  Forall is_byte b' /\ length b' = length b /\ get16 port b' = new /\ cong (wsum e b') (wsum e b) /\
  (forall o, (o + 2 <= port \/ port + 2 <= o)%nat -> (o + 2 <= csum \/ csum + 2 <= o)%nat ->
   get16 o b' = get16 o b).
Proof.
  intros Hb Hlp Hlc Hpc Ep Ec Hn. unfold packet_set_port.
  destruct (Z.eqb_spec (get16 port b) new) as [E | E]; cbn [negb]; [done |].
  destruct (split16 port b Hb Hlp) as [_ Hp]. destruct (split16 csum b Hb Hlc) as [_ Hc].
  destruct (recalc16_cong _ _ new Hc Hp Hn) as [Hc1 Hc2].
  set (c := recalc_csum16 _ _ _) in *. set (b1 := put16 csum c b).
  assert (Forall is_byte b1) as Hb1 by by apply bytes_put16.
  assert (length b1 = length b) as Hl1 by by apply length_put16.
  split; [by apply bytes_put16 |]. split; [rewrite length_put16; lia |].
  split; [apply get16_put16; [lia | done] |]. split.
  - rewrite wsum_put16 by (done || lia). unfold b1 at 2. rewrite get16_put16_ne by lia. unfold b1.
    rewrite wsum_put16 by done. eapply cong_diff; [exact Hc2 | lia].
  - intros o Ho1 Ho2. rewrite get16_put16_ne by lia. unfold b1. by rewrite get16_put16_ne.
Qed.

(** Data with a congruent sum keeps the transport checksum right. *)
Lemma set_l4_good p b' :
  good p -> Forall is_byte b' -> length b' = length (l4 p) ->
  (cong (wsum e b') (wsum e (l4 p)) /\ 0 < ip_proto (nh p) /\
   (get16 UDP_CSUM_OFS (l4 p) = 0 -> ip_proto (nh p) = IPPROTO_TCP) \/
   ip_proto (nh p) = IPPROTO_UDP /\ get16 UDP_CSUM_OFS b' = 0) ->
  good (mk_packet (nh p) (ip_options p) b' None).
Proof.
  intros (Hok & Hip & Hl4) Hb' Hlen Hor. set (p' := mk_packet _ _ _ _).
  assert (packet_ok p') as Hok'. { unfold packet_ok, p' in *. cbn [nh ip_options l4]. rewrite Hlen. tauto. }
  split; [done | split; [done |]]. unfold l4_valid in *.
  change (nh p') with (nh p). change (l4 p') with b'. rewrite Hlen.
  destruct Hor as [(Hc & Hp & Hz) | [Hu H0]].
  - assert (l4_csum_valid p -> l4_csum_valid p') as Hv.
    { apply l4_csum_valid_cong; try done. unfold p'. cbn [nh l4]. by rewrite Hc. }
    revert Hl4. destruct (_ && _); [by apply Hv |]. destruct (_ && _) eqn:Eudp; [| done].
    intros [H0 | H0]; [| right; by apply Hv].
    apply andb_prop in Eudp as [Eu%Z.eqb_eq _]. by rewrite (Hz H0) in Eu.
  - rewrite Hu. change (IPPROTO_UDP =? IPPROTO_TCP) with false. cbn [andb]. cbv iota.
    destruct ((IPPROTO_UDP =? IPPROTO_UDP) && _); [by left | exact I].
Qed.

(** Setting the ports of a TCP or UDP packet keeps it valid: the ports are the new ones and
    the checksum, if there is one, is right; a UDP packet without a checksum stays without. *)
Theorem packet_set_ports_valid src dst p :
  good p -> in_u 16 src -> in_u 16 dst ->
  (ip_proto (nh p) = IPPROTO_TCP -> (TCP_HEADER_LEN <= length (l4 p))%nat ->
   let p' := packet_set_tcp_port src dst p in
   good p' /\ get16 TP_SRC_OFS (l4 p') = src /\ get16 TP_DST_OFS (l4 p') = dst /\ nh p' = nh p) /\
  (ip_proto (nh p) = IPPROTO_UDP -> (UDP_HEADER_LEN <= length (l4 p))%nat ->
   let p' := packet_set_udp_port src dst p in
   good p' /\ get16 TP_SRC_OFS (l4 p') = src /\ get16 TP_DST_OFS (l4 p') = dst /\ nh p' = nh p /\
   (get16 UDP_CSUM_OFS (l4 p') = 0 <-> get16 UDP_CSUM_OFS (l4 p) = 0)).
Proof.
  intros Hg Hs Hd. pose proof Hg as ((_ & _ & _ & Hb & _) & _ & Hl4).
  assert (Nat.Even 0 /\ Nat.Even 2 /\ Nat.Even 6 /\ Nat.Even 16) as (E0 & E2 & E6 & E16).
  { by repeat split; [exists 0%nat | exists 1%nat | exists 3%nat | exists 8%nat]. }
  unfold TP_SRC_OFS, TP_DST_OFS, TCP_HEADER_LEN, UDP_HEADER_LEN. split; intros Hp Hl.
  - unfold packet_set_tcp_port, TCP_CSUM_OFS, TP_SRC_OFS, TP_DST_OFS. rsimpl.
    destruct (set_port_spec 0 src 16 (l4 p)) as (B1 & L1 & G1 & C1 & K1); [done || lia .. |].
    set (b1 := packet_set_port 0 src 16 (l4 p)) in *.
    destruct (set_port_spec 2 dst 16 b1) as (B2 & L2 & G2 & C2 & K2); [done || lia .. |].
    split; [| by rewrite K2 by lia].
    apply (set_l4_good p (packet_set_port 2 dst 16 b1)); [done | done | by rewrite L2 |].
    left. by rewrite C2, C1, Hp.
  - unfold packet_set_udp_port, UDP_CSUM_OFS, TP_SRC_OFS, TP_DST_OFS.
    destruct (Z.eqb_spec (get16 6 (l4 p)) 0) as [H0 | H0]; cbn [negb].
    + rsimpl. set (b2 := put16 2 dst (put16 0 src (l4 p))).
      assert (length (put16 0 src (l4 p)) = length (l4 p)) as L1 by (apply length_put16; lia).
      assert (get16 6 b2 = 0) as G6.
      { unfold b2. rewrite !get16_put16_ne by lia. done. }
      split.
      { apply (set_l4_good p b2); [done | by apply bytes_put16, bytes_put16 | | by right].
        unfold b2. rewrite length_put16; lia. }
      unfold b2 at 1 2. rewrite get16_put16_ne, !get16_put16 by (done || lia). done.
    + rsimpl. destruct (set_port_spec 0 src 6 (l4 p)) as (B1 & L1 & G1 & C1 & K1); [done || lia .. |].
      set (b1 := packet_set_port 0 src 6 (l4 p)) in *.
      destruct (set_port_spec 2 dst 6 b1) as (B2 & L2 & G2 & C2 & K2); [done || lia .. |].
      set (b2 := packet_set_port 2 dst 6 b1) in *.
      destruct (Z.eqb_spec (get16 6 b2) 0) as [Z2 | Z2]; rsimpl.
      * split.
        { apply (set_l4_good p (put16 6 (htons 65535) b2)); [done | by apply bytes_put16 | |].
          { rewrite length_put16; lia. } left.
          rewrite wsum_put16, htons_ffff, Z2 by (done || lia || by rewrite htons_ffff).
          rewrite Z.sub_0_r, cong_multiple, C2, C1, Hp. done. }
        fold b1; fold b2. rewrite (get16_put16_ne 0), (get16_put16_ne 2), get16_put16 by (rewrite ?htons_ffff; (done || lia)).
        rewrite K2, htons_ffff by lia. done.
      * split; [| by rewrite K2 by lia].
        apply (set_l4_good p b2); [done | done | by rewrite L2 |]. left. by rewrite C2, C1, Hp.
Qed.

End Packets.

(** ** Witnesses *)

(** A TCP segment with a payload of odd length, as a little-endian host sees it. *)
Definition sample_tcp : dp_packet :=
  mk_packet (mk_ip 69 0 11008 1 64 64 6 7535 16820416 117440522) []
    [48; 57; 0; 80; 0; 0; 0; 0; 0; 0; 0; 0; 80; 16; 1; 0; 42; 47; 0; 0; 104; 105; 33] (Some 1%nat).

Lemma sample_tcp_good : good Little sample_tcp.
Proof.
  split; [| split; reflexivity]. unfold packet_ok, sample_tcp, ip_ok, in_u, is_byte.
  cbn [nh ip_options l4 ip_ihl_ver ip_tos ip_tot_len ip_id ip_frag_off ip_ttl ip_proto ip_csum ip_src ip_dst].
  split; [lia |]. split; [done |]. split; [cbn; lia |]. split; [by apply bytes_forall | done].
Qed.

Lemma packet_set_ipv4_valid_witness :
  let p' := packet_set_ipv4 Little 16777343 33554442 16 63 sample_tcp in
  good Little p' /\ ip_src (nh p') = 16777343 /\ ip_dst (nh p') = 33554442 /\ ip_tos (nh p') = 16 /\
  ip_ttl (nh p') = 63 /\ rest (nh p') = rest (nh sample_tcp) /\
  ip_options p' = ip_options sample_tcp /\ length (l4 p') = length (l4 sample_tcp).
Proof.
  apply (packet_set_ipv4_valid Little 16777343 33554442 16 63 sample_tcp);
    [apply sample_tcp_good | by split | by split | by split | by split].
Defined.

Lemma packet_set_ports_valid_witness :
  let p' := packet_set_tcp_port Little 53764 20480 sample_tcp in
  good Little p' /\ get16 Little TP_SRC_OFS (l4 p') = 53764 /\
  get16 Little TP_DST_OFS (l4 p') = 20480 /\ nh p' = nh sample_tcp.
Proof.
  apply (packet_set_ports_valid Little 53764 20480 sample_tcp);
    [apply sample_tcp_good | by split | by split | reflexivity | unfold TCP_HEADER_LEN; cbn; lia].
Defined.

End Packets.
