(* ===== verification/BpfSnat.v ===== *)
(** Source address translation on the traffic-control hook (bpf_snat.c): lookup of the
    connection, rewriting of TCP, UDP and ICMP error packets, and the checksum arithmetic of
    the file. The kernel helpers and the library functions that the file calls are
    parameters. *)
From Stdlib Require Import Setoid.
From S2P Require Import Prelude Csum Packets.

Module BpfSnat.
Import Csum Packets.

(** ** Data *)

(** What the program uses of [struct __sk_buff]. *)
Record sk_buff := mk_skb { data : list Z; mark : Z; vlan_proto : Z }.

#[export] Instance sk_buff_eta : RecordEta sk_buff := λ r, mk_skb (data r) (mark r) (vlan_proto r).

(** The padding of the keys is always zero. *)
Record bpf_lb_conn_key := mk_key {
  k_sip : Z; k_dip : Z; k_vip : Z; k_sport : Z; k_dport : Z; k_vport : Z; k_proto : Z;
}.

Record bpf_lb_conn_value := mk_value { v_sip : Z; v_dip : Z; v_sport : Z; v_dport : Z; v_proto : Z }.

Record pkt_l4_info := mk_info { dport : Z; sport : Z; sync : Z }.

Definition TC_ACT_OK : Z := 0.
Definition TC_ACT_SHOT : Z := 2.
Definition ETH_HLEN : nat := 14.
Definition ETH_P_IP : Z := 0x0800.
Definition ETH_P_802_3_MIN : Z := 0x0600.
Definition IPPROTO_ICMP : Z := 1.
Definition ICMP_DEST_UNREACH : Z := 3.
Definition ICMP_SOURCE_QUENCH : Z := 4.
Definition ICMP_TIME_EXCEEDED : Z := 11.
Definition TCP_SPORT_OFF : nat := 0.
Definition TCP_DPORT_OFF : nat := 2.

(** Sizes of [struct iphdr] and [struct icmp_err_hdr], offsets in the former. *)
Definition IPHDR : nat := 20.
Definition ICMP_ERR_HDR : nat := 32.
Definition IP_PROTOCOL : nat := 9.
Definition IP_CHECK : nat := 10.
Definition IP_SADDR : nat := 12.
Definition IP_DADDR : nat := 16.

(** Offsets in an ICMP error packet without options. *)
Definition IP_OFF : nat := 14.
Definition ICMP_OFF : nat := 34.
Definition ICMP_CSUM : nat := 36.
Definition INNER_IP : nat := 42.
Definition INNER_SPORT : nat := 62.
Definition INNER_DPORT : nat := 64.

(** ** Checksum arithmetic *)

Definition bpf_csum_fold (csum : Z) : Z :=
  let sum := csum in
  let sum := Z.land sum 0xffff + Z.shiftr sum 16 in
  let sum := Z.land sum 0xffff + Z.shiftr sum 16 in
  u16 (Z.lnot sum).

Definition csum_unfold (n : Z) : Z := n.

Definition csum_add (csum addend : Z) : Z :=
  let res := u32 (csum + addend) in
  u32 (res + (if res <? addend then 1 else 0)).

Definition csum_sub (csum addend : Z) : Z := csum_add csum (u32 (Z.lnot addend)).

(** The checksum that [csum_replace4] stores. *)
Definition csum_replace4 (sum from to : Z) : Z :=
  let tmp := csum_sub (u32 (Z.lnot (csum_unfold sum))) from in
  bpf_csum_fold (csum_add tmp to).

(** *** Facts on the arithmetic *)

#[local] Existing Instances cong_equiv cong_add cong_sub.

(** Linear reasoning modulo 65535. *)
Ltac cong_lia := unfold cong in *; Z.to_euclidean_division_equations; lia.

Lemma bpf_csum_fold_oc p : in_u 32 p -> bpf_csum_fold p = 65535 - oc p.
Proof.
  unfold in_u. change (2 ^ 32) with 4294967296. intros Hp. unfold bpf_csum_fold. cbv zeta.
  rewrite !land_ffff, !shiftr_16. set (q := p mod 65536 + p / 65536).
  set (r := q mod 65536 + q / 65536).
  assert (0 <= r <= 65535 /\ (0 < p -> 0 < r) /\ (p - r) mod 65535 = 0) as (Hr & Hpos & Hc).
  { subst q r. Z.to_euclidean_division_equations. lia. }
  rewrite u16_lnot by done. f_equal. destruct (Z.eqb_spec p 0) as [-> | Hne].
  - subst r q. done.
  - symmetry. apply oc_unique; [lia | lia | done].
Qed.

Lemma csum_add_spec a b :
  in_u 32 a -> in_u 32 b ->
  in_u 32 (csum_add a b) /\ cong (csum_add a b) (a + b) /\ (0 < a -> 0 < csum_add a b).
Proof.
  unfold in_u, csum_add, cong, wrap. change (2 ^ 32) with 4294967296. intros Ha Hb.
  assert ((a + b) mod 4294967296 = if a + b <? 4294967296 then a + b else a + b - 4294967296) as ->.
  { destruct (a + b <? 4294967296) eqn:E; [apply Z.mod_small; lia |].
    rewrite <- (Z.mod_small (a + b - 4294967296) 4294967296) by lia.
    rewrite <- (Z_mod_plus_full (a + b - 4294967296) 1). f_equal. lia. }
  destruct (a + b <? 4294967296) eqn:E.
  - replace (a + b <? b) with false by lia. rewrite Z.add_0_r, Z.mod_small by lia.
    rewrite Z.sub_diag. split; [lia |]. split; [done | lia].
  - replace (a + b - 4294967296 <? b) with true by lia. rewrite Z.mod_small by lia.
    split; [lia |]. split; [| lia].
    replace (a + b - 4294967296 + 1 - (a + b)) with (- 65537 * 65535) by lia. apply Z_mod_mult.
Qed.

Lemma lnot_cong x : in_u 32 x -> in_u 32 (u32 (Z.lnot x)) /\ cong (u32 (Z.lnot x)) (- x).
Proof.
  unfold in_u, cong, wrap, Z.lnot. change (2 ^ 32) with 4294967296. intros Hx.
  replace (Z.pred (- x)) with (4294967295 - x + (-1) * 4294967296) by lia.
  rewrite Z_mod_plus_full, Z.mod_small by lia. split; [lia |].
  replace (4294967295 - x - - x) with (65537 * 65535) by lia. apply Z_mod_mult.
Qed.

(** The updated checksum makes up for the change of the field; it is never the zero that only
    zero data has. *)
Lemma csum_replace4_spec c from to :
  in_u 16 c -> in_u 32 from -> in_u 32 to ->
  0 <= csum_replace4 c from to < 65535 /\ cong (csum_replace4 c from to + to) (c + from).
Proof.
  intros Hc Hf Ht. unfold csum_replace4, csum_sub, csum_unfold. cbv zeta.
  assert (in_u 32 c) as Hc' by (unfold in_u in *; lia).
  destruct (lnot_cong c Hc') as [R1 C1], (lnot_cong from Hf) as [R2 C2].
  assert (0 < u32 (Z.lnot c)) as P1.
  { unfold in_u in Hc. unfold wrap, Z.lnot. change (2 ^ 16) with 65536 in Hc. change (2 ^ 32) with 4294967296.
    Z.to_euclidean_division_equations. lia. }
  destruct (csum_add_spec _ _ R1 R2) as (R3 & C3 & P3). specialize (P3 P1).
  destruct (csum_add_spec _ _ R3 Ht) as (R4 & C4 & P4). specialize (P4 P3).
  set (x := csum_add _ to) in *. rewrite bpf_csum_fold_oc by done.
  pose proof (oc_range x P4). split; [lia |].
  assert (cong (oc x) x) as Hoc by (unfold cong; apply oc_cong; lia).
  rewrite C3, C1, C2 in C4. revert Hoc C4. generalize (oc x) x. clear. intros y x H1 H2.
  cong_lia.
Qed.

Lemma wsum4_cong e x : in_u 32 x -> cong (wsum e (host_bytes e 4 x)) x.
Proof.
  intros Hx. rewrite wsum_32 by done. unfold in_u, wrap in *. rewrite shiftr_16. unfold cong.
  change (2 ^ 16) with 65536. change (2 ^ 32) with 4294967296 in *.
  Z.to_euclidean_division_equations. lia.
Qed.

(** The update of this program is the one of lib/csum.c. *)
Lemma csum_replace4_recalc c from to :
  0 <= c < 65535 -> in_u 32 from -> in_u 32 to -> csum_replace4 c from to = recalc_csum32 c from to.
Proof.
  intros Hc Hf Ht. assert (in_u 16 c) as Hc' by (unfold in_u; lia).
  destruct (csum_replace4_spec c from to Hc' Hf Ht) as [R1 C1].
  destruct (recalc32_cong Little c from to Hc' Hf Ht) as [R2 C2].
  rewrite (wsum4_cong Little to Ht), (wsum4_cong Little from Hf) in C2.
  assert (forall c o n, 0 <= c < 65535 -> in_u 16 o -> in_u 16 n -> 0 <= recalc_csum16 c o n < 65535) as Hr.
  { intros a o n Ha Ho Hn. unfold in_u in *. change (2 ^ 16) with 65536 in *. unfold recalc_csum16.
    rewrite !u16_lnot by lia. rewrite csum_finish_oc by (unfold in_u; change (2 ^ 32) with 4294967296; lia).
    pose proof (oc_range (65535 - a + (65535 - o) + n) ltac:(lia)). lia. }
  assert (0 <= recalc_csum32 c from to < 65535) as R3.
  { unfold recalc_csum32. apply Hr; [apply Hr; [done | |] | |]; by apply wrap_range. }
  assert (cong (csum_replace4 c from to) (recalc_csum32 c from to)) as E.
  { apply (cong_diff (csum_replace4 c from to + to) (recalc_csum32 c from to + to)); [| lia].
    by rewrite C1, C2. }
  revert R1 R3 E. generalize (csum_replace4 c from to) (recalc_csum32 c from to). clear. intros. cong_lia.
Qed.

(** ** Bytes of a packet *)

(** Bytes written over those at an offset. *)
Definition store (o : nat) (w b : list Z) : list Z := take o b ++ w ++ drop (o + length w) b.

(** Evenness of a small number, found by trial, and bounds of offsets. *)
Ltac try_half k := first [exists k; lia | lazymatch k with 20%nat => fail | _ => let k' := eval cbv in (S k) in try_half k' end].
Ltac offsets :=
  rewrite ?length_host_bytes;
  lazymatch goal with |- Nat.Even _ => try_half 0%nat | |- _ => first [done | lia] end.

(** *** Facts on stores *)

Lemma lookup_store o w b i :
  (o + length w <= length b)%nat ->
  store o w b !! i = if decide (o <= i < o + length w)%nat then w !! (i - o)%nat else b !! i.
Proof.
  intros Ho. unfold store. destruct (decide (o <= i < o + length w)%nat) as [Hi | Hi].
  - rewrite lookup_app_r by (rewrite length_take; lia). rewrite length_take, Nat.min_l by lia.
    rewrite lookup_app_l by lia. done.
  - destruct (decide (i < o)%nat) as [Hlt | Hge].
    + rewrite lookup_app_l by (rewrite length_take; lia). by apply lookup_take_lt.
    + rewrite lookup_app_r by (rewrite length_take; lia). rewrite length_take, Nat.min_l by lia.
      rewrite lookup_app_r by lia. rewrite lookup_drop. f_equal. lia.
Qed.

Lemma length_store o w b : (o + length w <= length b)%nat -> length (store o w b) = length b.
Proof. intros Ho. unfold store. rewrite !length_app, length_take, length_drop. lia. Qed.

Lemma store_byte o w b : Forall is_byte w -> Forall is_byte b -> Forall is_byte (store o w b).
Proof.
  intros Hw Hb. unfold store. rewrite !Forall_app.
  split; [by apply Forall_take | split; [done | by apply Forall_drop]].
Qed.

Lemma bytes_at_store_same o w b : (o + length w <= length b)%nat -> bytes_at o (length w) (store o w b) = w.
Proof.
  intros Ho. unfold bytes_at, store. rewrite drop_app_exact by (rewrite length_take; lia).
  by apply take_app_exact.
Qed.

Lemma bytes_at_store_out o n p w b :
  (p + length w <= length b)%nat -> (p + length w <= o \/ o + n <= p)%nat ->
  bytes_at o n (store p w b) = bytes_at o n b.
Proof.
  intros Hp Ho. apply list_eq. intros i. unfold bytes_at. destruct (decide (i < n)%nat) as [Hi | Hi].
  - rewrite !lookup_take_lt, !lookup_drop, lookup_store by done. by rewrite decide_False by lia.
  - by rewrite !lookup_take_ge by lia.
Qed.

Lemma bytes_at_split o n m b : bytes_at o (n + m) b = bytes_at o n b ++ bytes_at (o + n) m b.
Proof. unfold bytes_at. rewrite <- take_take_drop. do 2 f_equal. by rewrite drop_drop. Qed.

Lemma length_bytes_at o n b : (o + n <= length b)%nat -> length (bytes_at o n b) = n.
Proof. intros H. unfold bytes_at. rewrite length_take, length_drop. lia. Qed.

Section BpfSnat.
Context (e : endian).

(** An integer of [n] bytes read from and written to a packet in memory. *)
Definition ld (n o : nat) (b : list Z) : Z := host_val e (bytes_at o n b).
Definition st (n o : nat) (v : Z) (b : list Z) : list Z := store o (host_bytes e n v) b.

Definition bpf_ntohs (x : Z) : Z := be_val (host_bytes e 2 x).
Definition bpf_htons (x : Z) : Z := host_val e (be_bytes 2 x).

(** *** Sums of ranges *)

(** Overwriting words of a range changes its sum by the difference of the words. *)
Lemma wsum_store o n p w b :
  (o <= p)%nat -> (p + length w <= o + n)%nat -> (o + n <= length b)%nat ->
  Nat.Even (p - o) -> Nat.Even (length w) ->
  wsum e (bytes_at o n (store p w b)) = wsum e (bytes_at o n b) - wsum e (bytes_at p (length w) b) + wsum e w.
Proof.
  intros H1 H2 H3 E1 E2.
  assert (exists m, n = (p - o) + (length w + m))%nat as [m ->]
    by (exists (o + n - (p + length w))%nat; lia).
  rewrite !bytes_at_split. replace (o + (p - o))%nat with p by lia.
  rewrite bytes_at_store_same by lia. rewrite !bytes_at_store_out by lia.
  rewrite !wsum_app by (rewrite ?length_bytes_at by lia; done). lia.
Qed.

Lemma bytes_at_byte o n b : Forall is_byte b -> Forall is_byte (bytes_at o n b).
Proof. intros. by apply Forall_take, Forall_drop. Qed.

Lemma wsum_ld o b : (o + 2 <= length b)%nat -> wsum e (bytes_at o 2 b) = ld 2 o b.
Proof.
  intros H. unfold ld. pose proof (length_bytes_at o 2 b H) as Hl.
  destruct (bytes_at o 2 b) as [| x [| y [| z l]]]; try done. cbn [wsum]. lia.
Qed.

Lemma ld_range o b : Forall is_byte b -> (o + 2 <= length b)%nat -> in_u 16 (ld 2 o b).
Proof.
  intros Hb H. unfold ld. pose proof (length_bytes_at o 2 b H) as Hl.
  pose proof (bytes_at_byte o 2 b Hb) as Hf.
  destruct (bytes_at o 2 b) as [| x [| y [| z l]]]; try done.
  rewrite !Forall_cons in Hf. destruct Hf as (Hx & Hy & _). pose proof (word_range e x y Hx Hy).
  unfold in_u. change (2 ^ 16) with 65536. lia.
Qed.

Lemma length_st n o v b : (o + n <= length b)%nat -> length (st n o v b) = length b.
Proof. intros H. apply length_store. rewrite length_host_bytes. lia. Qed.

Lemma st_byte n o v b : Forall is_byte b -> Forall is_byte (st n o v b).
Proof. intros H. apply store_byte; [apply host_bytes_byte | done]. Qed.

Lemma ld_st_same n o v b :
  (o + n <= length b)%nat -> in_u (8 * Z.of_nat n) v -> ld n o (st n o v b) = v.
Proof.
  intros H Hv. unfold ld, st. rewrite <- (length_host_bytes e n v) at 1.
  rewrite bytes_at_store_same by (rewrite length_host_bytes; lia). by apply host_val_bytes.
Qed.

Lemma bytes_at_st_out o k n p v b :
  (p + n <= length b)%nat -> (p + n <= o \/ o + k <= p)%nat ->
  bytes_at o k (st n p v b) = bytes_at o k b.
Proof. intros H Ho. apply bytes_at_store_out; rewrite length_host_bytes; lia. Qed.

Lemma ld_st_out k o n p v b :
  (p + n <= length b)%nat -> (p + n <= o \/ o + k <= p)%nat -> ld k o (st n p v b) = ld k o b.
Proof. intros H Ho. unfold ld. by rewrite bytes_at_st_out. Qed.

Lemma wsum_st o k n p v b :
  (o <= p)%nat -> (p + n <= o + k)%nat -> (o + k <= length b)%nat -> Nat.Even (p - o) -> Nat.Even n ->
  wsum e (bytes_at o k (st n p v b))
  = wsum e (bytes_at o k b) - wsum e (bytes_at p n b) + wsum e (host_bytes e n v).
Proof.
  intros H1 H2 H3 E1 E2. unfold st. rewrite wsum_store; rewrite ?length_host_bytes; done.
Qed.

(** ** Helpers *)

(** [struct csum_offset] *)
Record csum_offset := mk_csum_offset { offset : nat; flags : Z }.

(** The kernel helpers and the functions of the packet library; [None] is an error. *)
Record helpers := mk_helpers {
  skb_store_bytes : nat -> list Z -> list Z -> option (list Z);
  csum_diff : list Z -> list Z -> Z -> Z;
  l3_csum_replace : nat -> Z -> list Z -> option (list Z);
  csum_l4_offset_and_flags : Z -> csum_offset;
  csum_l4_replace : nat -> csum_offset -> Z -> list Z -> option (list Z);
  l4_load_port : nat -> list Z -> option Z;
  l4_modify_port : nat -> nat -> csum_offset -> Z -> Z -> list Z -> option (list Z);
}.

(** The error codes of the library. *)
Record codes := mk_codes {
  DROP_WRITE_ERROR : Z; DROP_CSUM_L3 : Z; DROP_CSUM_L4 : Z; DROP_UNKNOWN_L4 : Z; PORT_ERROR : Z;
}.

Context (h : helpers) (err : codes).
Context (conntrack_hash_tab : bpf_lb_conn_key -> option bpf_lb_conn_value).

(** ** Header checks *)

Definition validate_ip_data (skb : sk_buff) (l3_len : nat) : bool :=
  negb (length (data skb) <? ETH_HLEN + l3_len)%nat.

Definition validate_ethertype (skb : sk_buff) : option Z :=
  if (length (data skb) <? ETH_HLEN)%nat then None
  else
    let proto := ld 2 12 (data skb) in
    if bpf_ntohs proto <? ETH_P_802_3_MIN then None else Some proto.

Definition ipv4_hdrlen (b : list Z) : nat := Z.to_nat (Z.land (ld 1 IP_OFF b) 15 * 4).

Definition extract_l4_info (b : list Z) (l4proto : Z) (l4_off : nat) : Z + pkt_l4_info :=
  let ports sync :=
    match l4_load_port h (l4_off + TCP_DPORT_OFF) b with
    | None => inl (PORT_ERROR err)
    | Some dport =>
        match l4_load_port h (l4_off + TCP_SPORT_OFF) b with
        | None => inl (PORT_ERROR err)
        | Some sport => inr (mk_info dport sport sync)
        end
    end in
  if l4proto =? IPPROTO_TCP then
    match l4_load_port h (l4_off + 12) b with
    | None => inl (PORT_ERROR err)
    | Some sync => ports (if Z.testbit (Z.shiftr sync 9) 0 then 1 else 0)
    end
  else if l4proto =? IPPROTO_UDP then ports 0
  else if l4proto =? IPPROTO_ICMP then inr (mk_info 0 0 0)
  else inl (DROP_UNKNOWN_L4 err).

(** ** Rewriting TCP and UDP *)

(** A step that may fail with a code, before the rest. *)
Definition attempt (code : Z) (op : list Z -> option (list Z)) (k : list Z -> Z * list Z) (b : list Z)
  : Z * list Z :=
  match op b with None => (code, b) | Some b => k b end.

(** One address: the bytes stored, and the checksum difference accumulated. *)
Definition manip_addr (off : nat) (new old sum : Z) (k : Z -> list Z -> Z * list Z) (b : list Z)
  : Z * list Z :=
  if negb (new =? old) then
    attempt (DROP_WRITE_ERROR err) (skb_store_bytes h off (host_bytes e 4 new))
      (k (csum_diff h (host_bytes e 4 old) (host_bytes e 4 new) sum)) b
  else k sum b.

Definition manip_port (l4_off off : nat) (co : csum_offset) (new old : Z)
    (k : list Z -> Z * list Z) (b : list Z) : Z * list Z :=
  if negb (new =? old) then attempt (PORT_ERROR err) (l4_modify_port h l4_off off co new old) k b
  else k b.

(** The addresses and ports are all given. *)
Definition nf_nat_manip_pkt (new_daddr old_daddr new_saddr old_saddr new_dport old_dport
    new_sport old_sport l4proto : Z) (l3_off l4_off : nat) (b : list Z) : Z * list Z :=
  let csum_off := csum_l4_offset_and_flags h l4proto in
  if negb (l4proto =? IPPROTO_UDP) && negb (l4proto =? IPPROTO_TCP) then (DROP_WRITE_ERROR err, b)
  else
    manip_addr (l3_off + IP_DADDR) new_daddr old_daddr 0 (λ sum,
    manip_addr (l3_off + IP_SADDR) new_saddr old_saddr sum (λ sum,
    attempt (DROP_CSUM_L3 err) (l3_csum_replace h (l3_off + IP_CHECK) sum) (λ b,
    (if (offset csum_off =? 0)%nat then λ k, k
     else attempt (DROP_CSUM_L4 err) (csum_l4_replace h l4_off csum_off sum))
      (manip_port l4_off TCP_DPORT_OFF csum_off new_dport old_dport
        (manip_port l4_off TCP_SPORT_OFF csum_off new_sport old_sport (λ b, (0, b)))) b))) b.

(** ** Rewriting ICMP errors *)

Definition icmp_key (dir : bool) (skb : sk_buff) : bpf_lb_conn_key :=
  let b := data skb in
  {| k_dip := ld 4 (INNER_IP + IP_SADDR) b; k_sip := ld 4 (INNER_IP + IP_DADDR) b;
     k_proto := ld 1 (INNER_IP + IP_PROTOCOL) b;
     k_dport := ld 2 INNER_SPORT b; k_sport := ld 2 INNER_DPORT b;
     k_vip := if dir then mark skb else 0; k_vport := if dir then vlan_proto skb else 0 |}.

(** A header of 20 bytes with its checksum computed anew. *)
Definition rechecksum (o : nat) (b : list Z) : list Z :=
  let b := st 2 (o + IP_CHECK) 0 b in
  let check := csum_diff h [] (bytes_at o IPHDR b) 0 in
  st 2 (o + IP_CHECK) (bpf_csum_fold check) b.

Definition icmp_translate (dir : bool) (value : bpf_lb_conn_value) (b : list Z) : list Z :=
  let '(b, old, new) :=
    if dir then
      let b := st 4 (INNER_IP + IP_DADDR) (v_sip value) b in
      let old := ld 2 INNER_DPORT b in
      let b := st 2 INNER_DPORT (v_sport value) b in
      (b, old, ld 2 INNER_DPORT b)
    else
      let b := st 4 (INNER_IP + IP_SADDR) (v_dip value) b in
      let old := ld 2 INNER_SPORT b in
      let b := st 2 INNER_SPORT (v_dport value) b in
      (b, old, ld 2 INNER_SPORT b) in
  let b := rechecksum INNER_IP b in
  let b := st 2 ICMP_CSUM (csum_replace4 (ld 2 ICMP_CSUM b) old new) b in
  let b := if dir then st 4 (IP_OFF + IP_SADDR) (v_sip value) b
           else st 4 (IP_OFF + IP_DADDR) (v_dip value) b in
  rechecksum IP_OFF b.

(** [dir] is true for packets that leave. *)
Definition nf_nat_icmp_reply_translation (dir : bool) (skb : sk_buff) : Z * sk_buff :=
  let b := data skb in
  if (length b <? ETH_HLEN)%nat then (TC_ACT_OK, skb)
  else if negb (bpf_ntohs (ld 2 12 b) =? ETH_P_IP) then (TC_ACT_OK, skb)
  else if (length b <? ETH_HLEN + IPHDR)%nat then (TC_ACT_OK, skb)
  else if negb (ld 1 (IP_OFF + IP_PROTOCOL) b =? IPPROTO_ICMP) then (TC_ACT_OK, skb)
  else if (length b <? ETH_HLEN + IPHDR + ICMP_ERR_HDR)%nat then (TC_ACT_OK, skb)
  else
    let type := ld 1 ICMP_OFF b in
    if negb (type =? ICMP_DEST_UNREACH) && negb (type =? ICMP_SOURCE_QUENCH)
       && negb (type =? ICMP_TIME_EXCEEDED) then (TC_ACT_OK, skb)
    else
      let key := icmp_key dir skb in
      let skb := if dir then skb <| mark := 0 |> else skb in
      if negb (k_proto key =? IPPROTO_TCP) && negb (k_proto key =? IPPROTO_UDP) then (TC_ACT_OK, skb)
      else
        match conntrack_hash_tab key with
        | None => (TC_ACT_OK, skb)
        | Some value => (TC_ACT_OK, skb <| data := icmp_translate dir value b |>)
        end.

(** ** The hook *)

Definition l4_key (dir : bool) (l4proto : Z) (pkt : pkt_l4_info) (skb : sk_buff) : bpf_lb_conn_key :=
  {| k_dip := ld 4 (IP_OFF + IP_DADDR) (data skb); k_sip := ld 4 (IP_OFF + IP_SADDR) (data skb);
     k_proto := l4proto; k_dport := dport pkt; k_sport := sport pkt;
     k_vip := if dir then mark skb else 0; k_vport := if dir then vlan_proto skb else 0 |}.

Definition nf_nat_ipv4_fn (dir : bool) (skb : sk_buff) : Z * sk_buff :=
  match validate_ethertype skb with
  | None => (TC_ACT_OK, skb)
  | Some l3proto =>
      if negb (bpf_htons ETH_P_IP =? l3proto) then (TC_ACT_OK, skb)
      else if negb (validate_ip_data skb IPHDR) then (TC_ACT_OK, skb)
      else
        let l4proto := ld 1 (IP_OFF + IP_PROTOCOL) (data skb) in
        if negb (l4proto =? IPPROTO_TCP) && negb (l4proto =? IPPROTO_UDP)
           && negb (l4proto =? IPPROTO_ICMP) then (TC_ACT_OK, skb)
        else if l4proto =? IPPROTO_ICMP then nf_nat_icmp_reply_translation dir skb
        else
          let l4_off := (ETH_HLEN + ipv4_hdrlen (data skb))%nat in
          match extract_l4_info (data skb) l4proto l4_off with
          | inl _ => (TC_ACT_SHOT, skb)
          | inr pkt =>
              let key := l4_key dir l4proto pkt skb in
              let skb := if dir then skb <| mark := 0 |> else skb in
              match conntrack_hash_tab key with
              | None => (TC_ACT_OK, skb)
              | Some value =>
                  let new_dip := if dir then k_dip key else v_dip value in
                  let new_dport := if dir then k_dport key else v_dport value in
                  let new_sip := if dir then v_sip value else k_sip key in
                  let new_sport := if dir then v_sport value else k_sport key in
                  let '(ret, b) :=
                    nf_nat_manip_pkt new_dip (k_dip key) new_sip (k_sip key)
                      new_dport (k_dport key) new_sport (k_sport key) l4proto ETH_HLEN l4_off (data skb) in
                  let skb := skb <| data := b |> in
                  if negb (ret =? 0) then (TC_ACT_SHOT, skb) else (TC_ACT_OK, skb)
              end
          end
  end.

Definition tc_egress (skb : sk_buff) : Z * sk_buff := nf_nat_ipv4_fn true skb.
Definition tc_ingress (skb : sk_buff) : Z * sk_buff := nf_nat_ipv4_fn false skb.

(** ** What the helpers are relied on for *)

(** The checksum at [o] was adjusted for data whose sum grew by [d]; a UDP packet without a
    checksum keeps none, and an adjusted UDP checksum is not zero. *)
Definition adjusted (proto : Z) (o : nat) (d : Z) (b b' : list Z) : Prop :=
  (o + 2 <= length b)%nat /\
  if (proto =? IPPROTO_UDP) && (ld 2 o b =? 0) then b' = b
  else exists c, in_u 16 c /\ (proto = IPPROTO_UDP -> c <> 0) /\ b' = st 2 o c b
         /\ cong (c + d) (ld 2 o b).

(** Documented behaviour of the helpers when they succeed. *)
Record helpers_ok : Prop := mk_helpers_ok {
  store_law : forall o w b b', skb_store_bytes h o w b = Some b' ->
    b' = store o w b /\ (o + length w <= length b)%nat;
  diff_law : forall from to seed, Forall is_byte from -> Forall is_byte to ->
    Nat.divide 4 (length from) -> Nat.divide 4 (length to) -> in_u 32 seed ->
    in_u 32 (csum_diff h from to seed)
    /\ cong (csum_diff h from to seed) (seed + wsum e to - wsum e from);
  l3_law : forall o diff b b', l3_csum_replace h o diff b = Some b' ->
    exists c, in_u 16 c /\ b' = st 2 o c b /\ cong (c + diff) (ld 2 o b) /\ (o + 2 <= length b)%nat;
  tcp_offset_law : offset (csum_l4_offset_and_flags h IPPROTO_TCP) = TCP_CSUM_OFS;
  udp_offset_law : offset (csum_l4_offset_and_flags h IPPROTO_UDP) = UDP_CSUM_OFS;
  l4_law : forall proto l4_off diff b b' (co := csum_l4_offset_and_flags h proto),
    csum_l4_replace h l4_off co diff b = Some b' -> adjusted proto (l4_off + offset co) diff b b';
  load_law : forall o b v, l4_load_port h o b = Some v -> v = ld 2 o b /\ (o + 2 <= length b)%nat;
  port_law : forall proto l4_off off new old b b' (co := csum_l4_offset_and_flags h proto),
    l4_modify_port h l4_off off co new old b = Some b' -> old = ld 2 (l4_off + off) b ->
    exists b1, adjusted proto (l4_off + offset co) (new - old) b b1
      /\ b' = st 2 (l4_off + off) new b1 /\ (l4_off + off + 2 <= length b)%nat;
}.

(** ** Sums and validity *)

Lemma wsum_pos l i x : Forall is_byte l -> l !! i = Some x -> 0 < x -> 0 < wsum e l.
Proof.
  revert i. induction l as [| a | a b l IH] using list_ind2; intros i Hl Hi Hx; [done | |].
  - rewrite Forall_singleton in Hl. destruct i; [| done]. injection Hi as ->.
    cbn [wsum]. unfold is_byte in Hl. destruct e; cbn; lia.
  - rewrite !Forall_cons in Hl. destruct Hl as (Ha & Hb & Hl). cbn [wsum].
    pose proof (proj1 (wsum_bound e l Hl)). unfold is_byte in Ha, Hb.
    destruct i as [| [| i]].
    + injection Hi as ->. destruct e; cbn; lia.
    + injection Hi as ->. destruct e; cbn; lia.
    + specialize (IH i Hl Hi Hx). pose proof (word_range e a b Ha Hb). lia.
Qed.

(** A range whose checksum is right: its sum is a multiple of 65535 and not zero. *)
Lemma range_valid o n i b :
  Forall is_byte b -> Z.of_nat (length b) <= 131072 -> (o <= i < o + n)%nat -> (o + n <= length b)%nat ->
  0 < ld 1 i b -> cong (wsum e (bytes_at o n b)) 0 -> csum e (bytes_at o n b) = 0.
Proof.
  intros Hb Hl Hi Hn Hx Hc. pose proof (bytes_at_byte o n b Hb) as Hf.
  apply valid_iff; [split; [done | rewrite length_bytes_at; lia] |]. split; [| done].
  destruct (bytes_at o n b !! (i - o)%nat) as [x |] eqn:E.
  2: { apply lookup_ge_None in E. rewrite length_bytes_at in E; lia. }
  apply (wsum_pos _ (i - o) x Hf E). unfold bytes_at in E. rewrite lookup_take_lt in E by lia.
  rewrite lookup_drop in E. replace (o + (i - o))%nat with i in E by lia.
  replace x with (ld 1 i b); [done |]. unfold ld, bytes_at. rewrite (drop_S b x i E). cbn [take].
  apply (Forall_lookup_1 _ _ _ _ Hb) in E. unfold is_byte in E.
  rewrite take_0. destruct e; cbn; lia.
Qed.

Lemma valid_cong o n b :
  Forall is_byte b -> Z.of_nat (length b) <= 131072 ->
  csum e (bytes_at o n b) = 0 -> cong (wsum e (bytes_at o n b)) 0.
Proof.
  intros Hb Hl H. pose proof (bytes_at_byte o n b Hb) as Hf. apply valid_iff in H; [tauto |].
  split; [done |]. unfold bytes_at. rewrite length_take, length_drop. lia.
Qed.

Lemma st_st n o v w b : (o + n <= length b)%nat -> st n o v (st n o w b) = st n o v b.
Proof.
  intros H. apply list_eq. intros i. unfold st.
  rewrite !lookup_store by (rewrite ?length_store; rewrite ?length_host_bytes; lia).
  rewrite !length_host_bytes. by destruct (decide _).
Qed.

Lemma rechecksum_spec o b :
  helpers_ok -> Forall is_byte b -> (o + IPHDR <= length b)%nat ->
  exists c, in_u 16 c /\ rechecksum o b = st 2 (o + IP_CHECK) c b
    /\ cong (wsum e (bytes_at o IPHDR (rechecksum o b))) 0.
Proof.
  intros Hh Hb Hl. unfold rechecksum. cbv zeta. unfold IPHDR, IP_CHECK in *.
  set (b1 := st 2 (o + 10) 0 b). assert (length b1 = length b) as L1 by (apply length_st; lia).
  assert (Forall is_byte b1) as B1 by by apply st_byte.
  destruct (diff_law Hh [] (bytes_at o 20 b1) 0) as [R C]; [done | by apply bytes_at_byte | | | done |].
  { by exists 0%nat. } { rewrite length_bytes_at by lia. by exists 5%nat. }
  set (x := csum_diff h [] (bytes_at o 20 b1) 0) in *. rewrite bpf_csum_fold_oc by done.
  unfold in_u in R.
  assert (0 <= oc x <= 65535) as Ro.
  { destruct (Z.eqb_spec x 0) as [-> | Hne]; [done | pose proof (oc_range x ltac:(lia)); lia]. }
  assert (in_u 16 (65535 - oc x)) as Rc by (unfold in_u; change (2 ^ 16) with 65536; lia).
  exists (65535 - oc x). split; [done |]. split; [apply st_st; lia |].
  assert (cong (oc x) x) as Ho by (unfold cong; apply oc_cong; lia).
  rewrite wsum_st by offsets.
  rewrite wsum_ld, wsum_16 by (done || lia).
  replace (ld 2 (o + 10) b1) with 0 by (symmetry; apply ld_st_same; [lia | done]).
  change (wsum e []) with 0 in C. revert Ho C. generalize (wsum e (bytes_at o 20 b1)) (oc x) x.
  clear. intros. cong_lia.
Qed.

(** ** ICMP errors *)

(** Both directions of [icmp_translate]: the inner address at [q] and port at [p], the outer
    address at [o]. *)
Definition icmp_rewrite (q p o : nat) (addr port : Z) (b : list Z) : list Z :=
  let b1 := st 4 q addr b in
  let b2 := st 2 p port b1 in
  let b3 := rechecksum INNER_IP b2 in
  let b4 := st 2 ICMP_CSUM (csum_replace4 (ld 2 ICMP_CSUM b3) (ld 2 p b1) (ld 2 p b2)) b3 in
  rechecksum IP_OFF (st 4 o addr b4).

Lemma icmp_translate_rewrite dir v b :
  icmp_translate dir v b =
  if dir then icmp_rewrite 58 64 26 (v_sip v) (v_sport v) b
  else icmp_rewrite 54 62 30 (v_dip v) (v_dport v) b.
Proof. unfold icmp_translate, icmp_rewrite. destruct dir; reflexivity. Qed.

(** Length of a packet after stores inside it. *)
Ltac lens := rewrite ?length_st by lens; lia.

Lemma lookup_st n o v b i :
  (o + n <= length b)%nat -> (i < o \/ o + n <= i)%nat -> st n o v b !! i = b !! i.
Proof.
  intros H Hi. unfold st. rewrite lookup_store by (rewrite length_host_bytes; lia).
  rewrite length_host_bytes. by rewrite decide_False by lia.
Qed.

Lemma icmp_rewrite_eq q p o addr port b (b' := icmp_rewrite q p o addr port b) :
  helpers_ok -> Forall is_byte b -> (66 <= length b)%nat ->
  (q = 54 \/ q = 58)%nat -> (p = 62 \/ p = 64)%nat -> (o = 26 \/ o = 30)%nat -> in_u 16 port ->
  exists c1 c2 c3, in_u 16 c1 /\ in_u 16 c3 /\
    let b2 := st 2 p port (st 4 q addr b) in
    c2 = csum_replace4 (ld 2 36 b) (ld 2 p b) port
    /\ cong (wsum e (bytes_at 42 20 (st 2 52 c1 b2))) 0
    /\ b' = st 2 24 c3 (st 4 o addr (st 2 36 c2 (st 2 52 c1 b2)))
    /\ cong (wsum e (bytes_at 14 20 b')) 0.
Proof.
  intros Hh Hb Hl Hq Hp Ho Hport. subst b'. unfold icmp_rewrite. cbv zeta.
  unfold INNER_IP, ICMP_CSUM, IP_OFF.
  set (b2 := st 2 p port (st 4 q addr b)).
  assert (Forall is_byte b2) as B2 by (by repeat apply st_byte).
  assert (length b2 = length b) as L2 by (unfold b2; rewrite !length_st by lens; done).
  destruct (rechecksum_spec 42 b2 Hh B2) as (c1 & R1 & E1 & C1); [unfold IPHDR; lia |].
  unfold IPHDR, IP_CHECK in E1, C1. rewrite E1 in *. change (42 + 10)%nat with 52%nat in *.
  assert (ld 2 36 (st 2 52 c1 b2) = ld 2 36 b) as -> by (rewrite ld_st_out by lens; unfold b2; by rewrite !ld_st_out by lens).
  assert (ld 2 p (st 4 q addr b) = ld 2 p b) as -> by (by rewrite ld_st_out by lens).
  assert (ld 2 p b2 = port) as -> by (apply ld_st_same; [lens | done]).
  set (c2 := csum_replace4 _ _ _). set (b5 := st 4 o addr _).
  assert (Forall is_byte b5) as B5 by (by repeat apply st_byte).
  assert (length b5 = length b) as L5 by (unfold b5; rewrite !length_st by lens; lia).
  destruct (rechecksum_spec 14 b5 Hh B5) as (c3 & R3 & E3 & C3); [unfold IPHDR; lia |].
  unfold IPHDR, IP_CHECK in E3, C3. rewrite E3 in *.
  by exists c1, c2, c3.
Qed.

(** The sum from the ICMP header on does not change modulo 65535. *)
Lemma icmp_rewrite_sum q p addr port c1 b
    (c2 := csum_replace4 (ld 2 36 b) (ld 2 p b) port) (b2 := st 2 p port (st 4 q addr b))
    (b4 := st 2 36 c2 (st 2 52 c1 b2)) (n := (length b - 34)%nat) :
  Forall is_byte b -> (66 <= length b)%nat ->
  (q = 54 \/ q = 58)%nat -> (p = 62 \/ p = 64)%nat -> in_u 16 port ->
  cong (wsum e (bytes_at 42 20 b)) 0 -> cong (wsum e (bytes_at 42 20 (st 2 52 c1 b2))) 0 ->
  cong (wsum e (bytes_at 34 n b4)) (wsum e (bytes_at 34 n b)).
Proof.
  intros Hb Hl Hq Hp Hport Hi Hi'.
  assert (forall b', length b' = length b ->
    wsum e (bytes_at 34 n b') = wsum e (bytes_at 34 8 b') + wsum e (bytes_at 42 20 b')
      + wsum e (bytes_at 62 (length b - 62) b')) as Hsplit.
  { intros b' Hb'. replace n with (8 + (20 + (length b - 62)))%nat by lia.
    rewrite !bytes_at_split. change (34 + 8)%nat with 42%nat. change (42 + 20)%nat with 62%nat.
    rewrite !wsum_app by (rewrite length_bytes_at by lia; offsets). lia. }
  assert (forall x, in_u 16 x -> in_u 32 x) as H32 by (unfold in_u; intros; lia).
  destruct (csum_replace4_spec (ld 2 36 b) (ld 2 p b) port) as [Rc Cc];
    [apply ld_range; offsets | apply H32, ld_range; offsets | by apply H32 |]. fold c2 in Rc, Cc.
  assert (length b2 = length b) as L2 by (unfold b2; by rewrite !length_st by lens).
  rewrite !Hsplit by (unfold b4; rewrite ?length_st by lens; done).
  replace (bytes_at 42 20 b4) with (bytes_at 42 20 (st 2 52 c1 b2))
    by (symmetry; unfold b4; apply bytes_at_st_out; lens).
  replace (bytes_at 62 (length b - 62) b4) with (bytes_at 62 (length b - 62) b2)
    by (symmetry; unfold b4; rewrite !bytes_at_st_out by lens; done).
  replace (wsum e (bytes_at 62 (length b - 62) b2))
    with (wsum e (bytes_at 62 (length b - 62) b) - ld 2 p b + port).
  2: { unfold b2. rewrite wsum_st by (rewrite ?length_st by lens; destruct Hp as [-> | ->]; offsets).
       rewrite !bytes_at_st_out by lens. rewrite wsum_ld, wsum_16 by (done || lia). done. }
  replace (wsum e (bytes_at 34 8 b4)) with (wsum e (bytes_at 34 8 b) - ld 2 36 b + c2).
  2: { unfold b4. rewrite wsum_st by (rewrite ?length_st by lens; offsets). unfold b2.
       rewrite !bytes_at_st_out by lens. rewrite wsum_ld by lia. rewrite wsum_16; [done |].
       unfold in_u. change (2 ^ 16) with 65536. lia. }
  rewrite Hi', Hi. revert Cc. generalize (ld 2 p b) (ld 2 36 b) c2. clear. intros. cong_lia.
Qed.

(** An ICMP error about a TCP or UDP packet, without IP options, with valid checksums in the
    ICMP header and in the IP header that it quotes. *)
Record icmp_error (b : list Z) : Prop := mk_icmp_error {
  ie_bytes : Forall is_byte b;
  ie_length : (66 <= length b)%nat /\ Z.of_nat (length b) <= 65549;
  ie_ethertype : ld 2 12 b = bpf_htons ETH_P_IP;
  ie_hdrlen : ipv4_hdrlen b = IPHDR;
  ie_proto : ld 1 (IP_OFF + IP_PROTOCOL) b = IPPROTO_ICMP;
  ie_type : ld 1 ICMP_OFF b = ICMP_DEST_UNREACH \/ ld 1 ICMP_OFF b = ICMP_SOURCE_QUENCH
            \/ ld 1 ICMP_OFF b = ICMP_TIME_EXCEEDED;
  ie_inner_proto : ld 1 (INNER_IP + IP_PROTOCOL) b = IPPROTO_TCP
                   \/ ld 1 (INNER_IP + IP_PROTOCOL) b = IPPROTO_UDP;
  ie_inner : csum e (bytes_at INNER_IP IPHDR b) = 0;
  ie_icmp : csum e (bytes_at ICMP_OFF (length b - ICMP_OFF) b) = 0;
}.

(** The packet [b'] is [b] with the inner address at [q] and port at [p] and the outer address
    at [o] replaced, valid checksums, and no other change. *)
Record icmp_translated (q p o : nat) (addr port : Z) (b b' : list Z) : Prop := mk_icmp_translated {
  it_length : length b' = length b;
  it_outer : csum e (bytes_at IP_OFF IPHDR b') = 0;
  it_inner : csum e (bytes_at INNER_IP IPHDR b') = 0;
  it_icmp : csum e (bytes_at ICMP_OFF (length b - ICMP_OFF) b') = 0;
  it_inner_addr : ld 4 q b' = addr;
  it_inner_port : ld 2 p b' = port;
  it_outer_addr : ld 4 o b' = addr;
  it_rest : forall i, ~ (24 <= i < 26 \/ o <= i < o + 4 \/ 36 <= i < 38 \/ 52 <= i < 54
                        \/ q <= i < q + 4 \/ p <= i < p + 2)%nat -> b' !! i = b !! i;
}.

Lemma icmp_rewrite_translated q p o addr port b :
  helpers_ok -> icmp_error b ->
  (q = 54 \/ q = 58)%nat -> (p = 62 \/ p = 64)%nat -> (o = 26 \/ o = 30)%nat ->
  in_u 32 addr -> in_u 16 port ->
  icmp_translated q p o addr port b (icmp_rewrite q p o addr port b).
Proof.
  intros Hh [Hb [Hl Hl2] _ _ Hproto Htype Hiproto Hinner Hicmp] Hq Hp Ho Haddr Hport.
  unfold IP_OFF, INNER_IP, ICMP_OFF, IPHDR, IP_PROTOCOL in *.
  change (14 + 9)%nat with 23%nat in Hproto. change (42 + 9)%nat with 51%nat in Hiproto.
  apply valid_cong in Hinner, Hicmp; [| done || lia ..].
  destruct (icmp_rewrite_eq q p o addr port b Hh Hb Hl Hq Hp Ho Hport)
    as (c1 & c2 & c3 & R1 & R3 & Ec2 & C1 & E & C3).
  pose proof (icmp_rewrite_sum q p addr port c1 b Hb Hl Hq Hp Hport Hinner C1) as C4. cbv zeta in *.
  rewrite <- Ec2 in C4. set (b2 := st 2 p port (st 4 q addr b)) in *.
  set (b4 := st 2 36 c2 (st 2 52 c1 b2)) in *.
  set (b' := icmp_rewrite q p o addr port b) in *.
  assert (length b4 = length b) as L4 by (unfold b4, b2; by rewrite !length_st by lens).
  assert (length b' = length b) as L' by (rewrite E; by rewrite !length_st by lens).
  assert (Forall is_byte b') as B' by (rewrite E; by repeat apply st_byte).
  assert (forall x n, (34 <= x)%nat -> bytes_at x n b' = bytes_at x n b4) as Hhigh.
  { intros x n Hx. rewrite E. by rewrite !bytes_at_st_out by lens. }
  assert (forall x, (x = 23 \/ x = 34 \/ x = 51)%nat -> ld 1 x b' = ld 1 x b) as Hld.
  { intros x Hx. rewrite E. unfold b4, b2. by rewrite !ld_st_out by lens. }
  split; unfold IP_OFF, INNER_IP, ICMP_OFF, IPHDR; [done | | | | | | |].
  - apply (range_valid 14 20 23); try lia; [done | rewrite Hld by lia; rewrite Hproto; done | done].
  - apply (range_valid 42 20 51); try lia; [done | rewrite Hld by lia; unfold IPPROTO_TCP, IPPROTO_UDP in *; lia |].
    rewrite Hhigh by lia. unfold b4. rewrite bytes_at_st_out by (unfold b2; lens). done.
  - apply (range_valid 34 (length b - 34) 34); try lia;
      [done | rewrite Hld by lia; unfold ICMP_DEST_UNREACH, ICMP_SOURCE_QUENCH, ICMP_TIME_EXCEEDED in *; lia |].
    rewrite Hhigh by lia. by rewrite C4.
  - rewrite E. unfold b4, b2. rewrite !ld_st_out by lens. apply ld_st_same; [lia | done].
  - rewrite E. unfold b4, b2. rewrite !ld_st_out by lens. apply ld_st_same; [lens | done].
  - rewrite E. rewrite ld_st_out by lens. apply ld_st_same; [lens | done].
  - intros i Hi. rewrite E. unfold b4, b2. clear -Hi Hl Hq Hp Ho. rewrite !lookup_st by lens. done.
Qed.

(** An IPv4 frame gets past the first checks of the hook. *)
Lemma ethertype_ip b m w :
  (14 <= length b)%nat -> ld 2 12 b = bpf_htons ETH_P_IP ->
  bpf_ntohs (bpf_htons ETH_P_IP) = ETH_P_IP
  /\ validate_ethertype (mk_skb b m w) = Some (bpf_htons ETH_P_IP).
Proof.
  intros Hl He. assert (bpf_ntohs (bpf_htons ETH_P_IP) = ETH_P_IP) as E
    by (unfold bpf_ntohs, bpf_htons; by destruct e).
  split; [done |]. unfold validate_ethertype. cbn [data].
  destruct (Nat.ltb_spec (length b) ETH_HLEN); [unfold ETH_HLEN in *; lia |]. by rewrite He, E.
Qed.

(** The offset for packets that leave or that arrive. *)
Definition pick (dir : bool) (x y : nat) : nat := if dir then x else y.

(** The address and port that a value gives a direction. *)
Definition new_addr (dir : bool) (v : bpf_lb_conn_value) : Z := if dir then v_sip v else v_dip v.
Definition new_port (dir : bool) (v : bpf_lb_conn_value) : Z := if dir then v_sport v else v_dport v.

Definition value_ok (v : bpf_lb_conn_value) : Prop :=
  in_u 32 (v_sip v) /\ in_u 32 (v_dip v) /\ in_u 16 (v_sport v) /\ in_u 16 (v_dport v).

Lemma new_ok dir v : value_ok v -> in_u 32 (new_addr dir v) /\ in_u 16 (new_port dir v).
Proof. unfold value_ok. destruct dir; cbn; tauto. Qed.

(** C19: an ICMP error about a connection that is translated is translated with it, in both
    directions: the outer address and the quoted address and port become those of the
    connection, the checksums of both IP headers and of the ICMP message are valid
    afterwards, nothing else changes and the packet is passed on. *)
Theorem snat_icmp_translates dir skb v :
  helpers_ok -> value_ok v -> icmp_error (data skb) -> conntrack_hash_tab (icmp_key dir skb) = Some v ->
  exists b', nf_nat_ipv4_fn dir skb
             = (TC_ACT_OK, mk_skb b' (if dir then 0 else mark skb) (vlan_proto skb))
    /\ icmp_translated (pick dir 58 54) (pick dir 64 62) (pick dir 26 30)
         (new_addr dir v) (new_port dir v) (data skb) b'.
Proof.
  intros Hh Hv Hb Hk. destruct (new_ok dir v Hv) as [Ha Hp]. destruct skb as [b m w].
  cbn [data mark vlan_proto] in *. pose proof Hb as [Bb [Hl Hl2] He _ Hproto Htype Hiproto _ _].
  destruct (ethertype_ip b m w ltac:(lia) He) as [En Ev].
  exists (icmp_translate dir v b). split.
  - unfold nf_nat_ipv4_fn. rewrite Ev, Z.eqb_refl. cbn [negb].
    unfold validate_ip_data, nf_nat_icmp_reply_translation. cbn [data]. rewrite He, En, Z.eqb_refl, Hproto.
    assert (forall k, (k <= 66)%nat -> (length b <? k)%nat = false) as Hlen
      by (intros k Hk'; apply Nat.ltb_ge; lia).
    unfold ETH_HLEN, IPHDR, ICMP_ERR_HDR. rewrite !Hlen by lia. cbn [negb].
    change (IPPROTO_ICMP =? IPPROTO_TCP) with false. change (IPPROTO_ICMP =? IPPROTO_UDP) with false.
    change (IPPROTO_ICMP =? IPPROTO_ICMP) with true. cbn [negb andb].
    replace (negb (ld 1 ICMP_OFF b =? _) && _ && _) with false by (destruct Htype as [-> | [-> | ->]]; done).
    rewrite Hk. replace (k_proto _) with (ld 1 (INNER_IP + IP_PROTOCOL) b) by done.
    replace (negb _ && negb _) with false by (destruct Hiproto as [-> | ->]; done).
    by destruct dir.
  - rewrite icmp_translate_rewrite.
    destruct dir; apply icmp_rewrite_translated; try done; lia.
Qed.

End BpfSnat.

(** Length of a packet after stores inside it. *)
Ltac lens := rewrite ?length_st by lens; lia.

(** ** A model of the helpers *)

(** Helpers that do what the documentation says, with sums reduced modulo 65535; the flag of
    UDP checksums is 32. *)
Definition adjust (e : endian) (co : csum_offset) (o : nat) (d : Z) (b : list Z) : option (list Z) :=
  if (o + 2 <=? length b)%nat then
    if (flags co =? 32) && (ld e 2 o b =? 0) then Some b
    else
      let c := (ld e 2 o b - d) mod 65535 in
      Some (st e 2 o (if (flags co =? 32) && (c =? 0) then 65535 else c) b)
  else None.

Definition model_helpers (e : endian) : helpers := {|
  skb_store_bytes o w b := if (o + length w <=? length b)%nat then Some (store o w b) else None;
  csum_diff from to seed := (seed + wsum e to - wsum e from) mod 65535;
  l3_csum_replace o d b :=
    if (o + 2 <=? length b)%nat then Some (st e 2 o ((ld e 2 o b - d) mod 65535) b) else None;
  csum_l4_offset_and_flags proto :=
    mk_csum_offset (if proto =? IPPROTO_TCP then TCP_CSUM_OFS else UDP_CSUM_OFS)
      (if proto =? IPPROTO_UDP then 32 else 0);
  csum_l4_replace l co d b := adjust e co (l + offset co) d b;
  l4_load_port o b := if (o + 2 <=? length b)%nat then Some (ld e 2 o b) else None;
  l4_modify_port l o co n x b :=
    if (l + o + 2 <=? length b)%nat then st e 2 (l + o) n <$> adjust e co (l + offset co) (n - x) b else None;
|}.

Lemma mod_cong x d : 0 <= (x - d) mod 65535 < 65535 /\ cong ((x - d) mod 65535 + d) x.
Proof. cong_lia. Qed.

Lemma adjust_adjusted e proto o d b b' :
  adjust e (csum_l4_offset_and_flags (model_helpers e) proto) o d b = Some b' -> adjusted e proto o d b b'.
Proof.
  unfold adjust, adjusted. cbn [csum_l4_offset_and_flags model_helpers flags].
  destruct (Nat.leb_spec (o + 2) (length b)) as [Hl |]; [| done].
  replace ((if proto =? IPPROTO_UDP then 32 else 0) =? 32) with (proto =? IPPROTO_UDP)
    by (by destruct (proto =? IPPROTO_UDP)).
  destruct (_ && (ld e 2 o b =? 0)); [by intros [= <-] |]. intros [= <-]. split; [done |].
  destruct (mod_cong (ld e 2 o b) d) as [R C]. set (c := (ld e 2 o b - d) mod 65535) in *.
  eexists. split; [| split; [| split; [done |]]].
  - unfold in_u. change (2 ^ 16) with 65536. destruct (_ && _); lia.
  - intros ->. rewrite Z.eqb_refl. cbn [andb]. destruct (Z.eqb_spec c 0); [done | done].
  - destruct (_ && (c =? 0)) eqn:E; [| done]. apply andb_true_iff in E as [_ E].
    revert C. generalize c (ld e 2 o b) E. clear. intros. cong_lia.
Qed.

Lemma model_helpers_ok e : helpers_ok e (model_helpers e).
Proof.
  split; cbn [skb_store_bytes csum_diff l3_csum_replace csum_l4_replace l4_load_port l4_modify_port model_helpers].
  - intros o w b b'. destruct (Nat.leb_spec (o + length w) (length b)); [by intros [= <-] | done].
  - intros from to seed _ _ _ _ _. unfold in_u. generalize (seed + wsum e to - wsum e from). intros x.
    split; [pose proof (Z.mod_pos_bound x 65535); lia | cong_lia].
  - intros o d b b'. destruct (Nat.leb_spec (o + 2) (length b)); [| done]. intros [= <-].
    destruct (mod_cong (ld e 2 o b) d) as [R C]. eexists. split; [| done].
    unfold in_u. change (2 ^ 16) with 65536. lia.
  - done.
  - done.
  - intros proto l d b b' H. by apply adjust_adjusted.
  - intros o b v. destruct (Nat.leb_spec (o + 2) (length b)); [by intros [= <-] | done].
  - intros proto l o n x b b'. destruct (Nat.leb_spec (l + o + 2) (length b)); [| done].
    destruct (adjust _ _ _ _ b) as [b1 |] eqn:E; [| done]. intros [= <-] _. exists b1.
    split; [by apply adjust_adjusted | done].
Qed.

(** A router reports to 192.0.2.1 that a UDP packet from its port 40000 could not be delivered;
    the connection belongs to port 50000 of 10.0.0.5. *)
Definition icmp_sample : list Z :=
  [2; 0; 0; 0; 0; 1; 2; 0; 0; 0; 0; 2; 8; 0;
   69; 0; 0; 56; 0; 0; 64; 0; 64; 1; 78; 143; 198; 51; 100; 1; 192; 0; 2; 1;
   3; 1; 96; 129; 0; 0; 0; 0;
   69; 0; 0; 28; 0; 7; 64; 0; 64; 17; 66; 238; 192; 0; 2; 1; 93; 184; 216; 34;
   156; 64; 0; 53; 0; 8; 0; 0].

Definition no_codes : codes := mk_codes (-1) (-2) (-3) (-4) (-5).

Definition sample_value : bpf_lb_conn_value :=
  mk_value (be_val [1; 2; 0; 192]) (be_val [5; 0; 0; 10]) (be_val [64; 156]) (be_val [80; 195]) 17.

(** Connections of the port above. *)
Definition sample_tab (k : bpf_lb_conn_key) : option bpf_lb_conn_value :=
  if k_dport k =? be_val [64; 156] then Some sample_value else None.

Lemma snat_icmp_translates_witness :
  exists b', nf_nat_ipv4_fn Little (model_helpers Little) no_codes sample_tab false (mk_skb icmp_sample 7 0)
             = (TC_ACT_OK, mk_skb b' 7 0)
    /\ icmp_translated Little 54 62 30 (be_val [5; 0; 0; 10]) (be_val [80; 195]) icmp_sample b'.
Proof.
  apply (snat_icmp_translates Little (model_helpers Little) no_codes sample_tab false
    (mk_skb icmp_sample 7 0) sample_value).
  - apply model_helpers_ok.
  - unfold value_ok, in_u. cbn. lia.
  - split; try reflexivity; [| cbn; lia | by left | by right].
    cbn [data icmp_sample]. repeat constructor; done.
  - reflexivity.
Defined.

End BpfSnat.
