(* ===== verification/BpfSnatL4.v ===== *)
(** Translation of TCP and UDP packets by bpf_snat.c, with the kernel helpers as far as they
    are documented: addresses, ports and checksums of the result. *)
From Stdlib Require Import Setoid.
From S2P Require Import Prelude Csum Packets BpfSnat.

Module BpfSnatL4.
Import Csum Packets BpfSnat.

#[local] Existing Instances cong_equiv cong_add cong_sub.

Section L4.
Context (e : endian) (h : helpers) (err : codes).
Context (conntrack_hash_tab : bpf_lb_conn_key -> option bpf_lb_conn_value).

(** ** One direction *)

(** The offset of the checksum in the L4 header. *)
Definition l4_csum (proto : Z) : nat := if proto =? IPPROTO_TCP then TCP_CSUM_OFS else UDP_CSUM_OFS.

(** [nf_nat_manip_pkt] when only the address at [o] and the port at [p] can differ. *)
Definition manip_one (o p : nat) (na oa np op proto : Z) (l4_off : nat) (b : list Z) : Z * list Z :=
  let co := csum_l4_offset_and_flags h proto in
  manip_addr e h err o na oa 0 (λ sum,
  attempt (DROP_CSUM_L3 err) (l3_csum_replace h 24 sum) (λ b,
  attempt (DROP_CSUM_L4 err) (csum_l4_replace h l4_off co sum)
    (manip_port h err l4_off p co np op (λ b, (0, b))) b)) b.

Definition l4_proto (proto : Z) : Prop := proto = IPPROTO_TCP \/ proto = IPPROTO_UDP.

Lemma l4_offset proto :
  helpers_ok e h -> l4_proto proto -> offset (csum_l4_offset_and_flags h proto) = l4_csum proto.
Proof.
  intros Hh [-> | ->]; [apply (tcp_offset_law _ _ Hh) | apply (udp_offset_law _ _ Hh)].
Qed.

Lemma manip_dir (dir : bool) na np od os odp osp proto l4_off b :
  helpers_ok e h -> l4_proto proto ->
  nf_nat_manip_pkt e h err (if dir then od else na) od (if dir then na else os) os
    (if dir then odp else np) odp (if dir then np else osp) osp proto ETH_HLEN l4_off b
  = manip_one (pick dir 26 30) (pick dir TCP_SPORT_OFF TCP_DPORT_OFF) na (if dir then os else od)
      np (if dir then osp else odp) proto l4_off b.
Proof.
  intros Hh Hp. unfold nf_nat_manip_pkt, manip_one. cbv zeta. rewrite (l4_offset proto Hh Hp).
  replace (negb (proto =? IPPROTO_UDP) && negb (proto =? IPPROTO_TCP)) with false
    by (destruct Hp as [-> | ->]; done).
  replace (l4_csum proto =? 0)%nat with false by (unfold l4_csum; by destruct (_ =? _)).
  destruct dir; unfold manip_addr, manip_port; rewrite !Z.eqb_refl; reflexivity.
Qed.

Lemma be_bytes_add n : forall x k, be_bytes n (x + k * 2 ^ (8 * Z.of_nat n)) = be_bytes n x.
Proof.
  induction n as [| n IH]; intros x k; [done |]. cbn [be_bytes].
  replace (8 * Z.of_nat (S n)) with (8 + 8 * Z.of_nat n) by lia. rewrite Z.pow_add_r by lia.
  change (2 ^ 8) with 256. f_equal.
  - rewrite Z.mul_assoc, Z_div_plus_full by (apply Z.pow_nonzero; lia). apply Z_mod_plus_full.
  - rewrite Z.mul_assoc. apply IH.
Qed.

Lemma be_bytes_val l : Forall is_byte l -> be_bytes (length l) (be_val l) = l.
Proof.
  intros H. induction H as [| a l Ha Hl IH]; [done |]. unfold is_byte in Ha.
  pose proof (be_val_range l Hl) as IHr.
  assert (be_val (a :: l) = be_val l + a * 2 ^ (8 * Z.of_nat (length l))) as ->.
  { unfold be_val at 1. cbn [foldl]. rewrite be_val_app_acc. lia. }
  set (M := 2 ^ (8 * Z.of_nat (length l))) in *. cbn [length].
  cbn [be_bytes]. fold M. rewrite be_bytes_add, IH. f_equal.
  rewrite Z_div_plus_full by lia. rewrite Z.div_small by lia. apply Z.mod_small. lia.
Qed.

Lemma host_bytes_of_val l : Forall is_byte l -> host_bytes e (length l) (host_val e l) = l.
Proof.
  intros H. destruct e; cbn [host_bytes host_val]; [| by apply (be_bytes_val l)].
  rewrite <- (length_rev l), be_bytes_val by by apply Forall_rev. apply rev_involutive.
Qed.

Lemma st_ld n o b : Forall is_byte b -> (o + n <= length b)%nat -> st e n o (ld e n o b) b = b.
Proof.
  intros Hb Hl. unfold st, store, ld. rewrite length_host_bytes.
  rewrite <- (length_bytes_at o n b Hl) at 1. rewrite host_bytes_of_val by by apply bytes_at_byte.
  unfold bytes_at. rewrite <- (drop_drop b n o), take_drop. apply take_drop.
Qed.

Lemma ld4_range o b : Forall is_byte b -> (o + 4 <= length b)%nat -> in_u 32 (ld e 4 o b).
Proof.
  intros Hb Hl. pose proof (bytes_at_byte o 4 b Hb) as H. pose proof (length_bytes_at o 4 b Hl) as L.
  unfold ld. destruct e; cbn [host_val].
  - pose proof (be_val_range _ (Forall_rev H)) as R. by rewrite length_rev, L in R.
  - pose proof (be_val_range _ H) as R. by rewrite L in R.
Qed.

(** The effect of the address: stored, and its difference known. *)
Lemma manip_addr_spec o na oa b k r :
  helpers_ok e h -> Forall is_byte b -> (o + 4 <= length b)%nat -> oa = ld e 4 o b ->
  in_u 32 na -> in_u 32 oa ->
  manip_addr e h err o na oa 0 k b = r ->
  r = (DROP_WRITE_ERROR err, b) /\ skb_store_bytes h o (host_bytes e 4 na) b = None
  \/ exists sum, cong sum (wsum e (host_bytes e 4 na) - wsum e (host_bytes e 4 oa))
       /\ r = k sum (st e 4 o na b).
Proof.
  intros Hh Hb Hl Ho Rn Ro <-. unfold manip_addr, attempt. destruct (Z.eqb_spec na oa) as [-> | Hne]; cbn [negb].
  - right. exists 0. split; [by rewrite Z.sub_diag |]. rewrite Ho. by rewrite st_ld by auto.
  - destruct (skb_store_bytes h o (host_bytes e 4 na) b) as [b1 |] eqn:E; [| by left].
    right. destruct (store_law _ _ Hh _ _ _ _ E) as [-> _].
    eexists. split; [| done].
    destruct (diff_law _ _ Hh (host_bytes e 4 oa) (host_bytes e 4 na) 0) as [_ C];
      [apply host_bytes_byte | apply host_bytes_byte | rewrite length_host_bytes; by exists 1%nat .. | done |].
    exact C.
Qed.

(** ** Packets *)

(** Offset and length of the L4 part. *)
Definition l4_off (b : list Z) : nat := (ETH_HLEN + ipv4_hdrlen e b)%nat.
Definition l4_len (b : list Z) : nat := (length b - l4_off b)%nat.

(** The bytes that a transport checksum covers. *)
Definition l4_covered (proto : Z) (b : list Z) : list Z :=
  bytes_at 26 8 b ++ [0; proto] ++ be_bytes 2 (Z.of_nat (l4_len b)) ++ bytes_at (l4_off b) (l4_len b) b.

Definition l4_sum (b : list Z) : Z :=
  wsum e (bytes_at 26 8 b) + wsum e (bytes_at (l4_off b) (l4_len b) b).

Definition no_csum (proto : Z) (b : list Z) : bool :=
  (proto =? IPPROTO_UDP) && (ld e 2 (l4_off b + l4_csum proto) b =? 0).

(** A TCP or UDP packet over IPv4 with valid checksums; a zero UDP checksum is none. *)
Record l4_packet (proto : Z) (b : list Z) : Prop := mk_l4_packet {
  lp_bytes : Forall is_byte b;
  lp_length : Z.of_nat (length b) <= 65549;
  lp_ethertype : ld e 2 12 b = bpf_htons e ETH_P_IP;
  lp_proto : l4_proto proto /\ ld e 1 23 b = proto;
  lp_hdrlen : (20 <= ipv4_hdrlen e b)%nat /\ (l4_off b + l4_csum proto + 2 <= length b)%nat;
  lp_ip : csum e (bytes_at 14 (ipv4_hdrlen e b) b) = 0;
  lp_l4 : no_csum proto b = true \/ csum e (l4_covered proto b) = 0;
}.

Lemma l4_csum_even proto : l4_proto proto -> l4_csum proto = 16%nat \/ l4_csum proto = 6%nat.
Proof. intros [-> | ->]; [by left | by right]. Qed.

Lemma hdrlen_even b : Nat.Even (ipv4_hdrlen e b).
Proof.
  unfold ipv4_hdrlen. exists (Z.to_nat (Z.land (ld e 1 IP_OFF b) 15 * 2)).
  assert (0 <= Z.land (ld e 1 IP_OFF b) 15) by (apply Z.land_nonneg; right; done). lia.
Qed.

(** The L4 part starts where it did as long as the first byte of the IP header is kept. *)
Lemma l4_off_same b b' : ld e 1 IP_OFF b' = ld e 1 IP_OFF b -> l4_off b' = l4_off b.
Proof. unfold l4_off, ipv4_hdrlen. by intros ->. Qed.

(** Validity of the transport checksum in terms of the sum. *)
Definition l4_rest (proto : Z) (n : nat) : Z := wsum e ([0; proto] ++ be_bytes 2 (Z.of_nat n)).

Lemma l4_covered_sum proto b :
  (34 <= length b)%nat -> wsum e (l4_covered proto b) = l4_sum b + l4_rest proto (l4_len b).
Proof.
  intros Hl. unfold l4_covered, l4_sum, l4_rest. rewrite (app_assoc [0; proto]).
  rewrite wsum_app by (rewrite length_bytes_at by lia; by exists 4%nat).
  rewrite wsum_app by (rewrite length_app, length_be_bytes; by exists 2%nat). lia.
Qed.

(** ** The steps of the rewriting *)

Definition codes_ok : Prop :=
  DROP_WRITE_ERROR err <> 0 /\ DROP_CSUM_L3 err <> 0 /\ DROP_CSUM_L4 err <> 0 /\ PORT_ERROR err <> 0.

(** An adjustment stores a checksum, zero exactly for a UDP packet without one. *)
Lemma adjusted_store proto o d x x' :
  Forall is_byte x -> adjusted e proto o d x x' ->
  exists c, in_u 16 c /\ x' = st e 2 o c x
    /\ ((proto =? IPPROTO_UDP) && (c =? 0)) = ((proto =? IPPROTO_UDP) && (ld e 2 o x =? 0))
    /\ ((proto =? IPPROTO_UDP) && (ld e 2 o x =? 0) = false -> cong (c + d) (ld e 2 o x)).
Proof.
  intros Hx [Hl H]. destruct ((proto =? IPPROTO_UDP) && (ld e 2 o x =? 0)) eqn:E.
  - subst x'. exists (ld e 2 o x). rewrite st_ld by done. rewrite E. split; [by apply ld_range | done].
  - destruct H as (c & Hc & Hn & -> & Hcong). exists c. split; [done |]. split; [done |]. split; [| done].
    destruct (Z.eqb_spec proto IPPROTO_UDP) as [-> | ?]; [| done]. cbn [andb].
    apply Z.eqb_neq. by apply Hn.
Qed.

(** The effect of a port: the checksum adjusted, and the port stored. *)
Lemma manip_port_spec proto l p np op x r (co := csum_l4_offset_and_flags h proto) :
  helpers_ok e h -> l4_proto proto -> Forall is_byte x -> op = ld e 2 (l + p) x ->
  (l + p + 2 <= length x)%nat -> (l + l4_csum proto + 2 <= length x)%nat ->
  manip_port h err l p co np op (λ b, (0, b)) x = r ->
  r = (PORT_ERROR err, x) /\ l4_modify_port h l p co np op x = None
  \/ exists x', adjusted e proto (l + l4_csum proto) (np - op) x x' /\ r = (0, st e 2 (l + p) np x').
Proof.
  intros Hh Hp Hx Ho Hl Hc <-. unfold manip_port, attempt.
  destruct (Z.eqb_spec np op) as [-> | Hne]; cbn [negb].
  - right. exists x. split; [| by rewrite Ho, st_ld].
    split; [done |]. destruct (_ && _) eqn:E; [done |]. exists (ld e 2 (l + l4_csum proto) x).
    split; [by apply ld_range |]. split; [intros ->; rewrite Z.eqb_refl in E; by apply Z.eqb_neq |].
    rewrite st_ld by done. split; [done |]. rewrite Z.sub_diag, Z.add_0_r. done.
  - destruct (l4_modify_port h l p co np op x) as [x1 |] eqn:E; [| by left]. right.
    destruct (port_law _ _ Hh _ _ _ _ _ _ _ E Ho) as (x' & Ha & -> & _).
    rewrite (l4_offset proto Hh Hp) in Ha. by exists x'.
Qed.

(** Stores into the IP header do not reach past it. *)
Lemma ip_stores_ld n o na c b m :
  (34 <= length b)%nat -> (26 <= o /\ o + 4 <= 34)%nat -> (34 <= n)%nat ->
  ld e m n (st e 2 24 c (st e 4 o na b)) = ld e m n b.
Proof. intros. rewrite !ld_st_out by lens. done. Qed.

(** The packet that a successful rewriting gives, store by store; [l] is the offset of the L4
    part and [k] that of its checksum. *)
Lemma manip_one_spec proto o p na oa np op b ret b' l k :
  helpers_ok e h -> codes_ok -> l4_proto proto -> Forall is_byte b ->
  (26 <= o /\ o + 4 <= 34)%nat -> (34 <= l /\ l + p + 2 <= k /\ k + 2 <= length b)%nat ->
  k = (l + l4_csum proto)%nat ->
  oa = ld e 4 o b -> op = ld e 2 (l + p) b -> in_u 32 na -> in_u 32 oa ->
  manip_one o p na oa np op proto l b = (ret, b') ->
  let none := (proto =? IPPROTO_UDP) && (ld e 2 k b =? 0) in
  ret <> 0 \/
  ret = 0 /\ exists d c2 c3 c4,
    cong d (wsum e (host_bytes e 4 na) - wsum e (host_bytes e 4 oa))
    /\ (in_u 16 c2 /\ in_u 16 c3 /\ in_u 16 c4) /\ cong (c2 + d) (ld e 2 24 b)
    /\ b' = st e 2 (l + p) np (st e 2 k c4 (st e 2 k c3 (st e 2 24 c2 (st e 4 o na b))))
    /\ ((proto =? IPPROTO_UDP) && (c4 =? 0)) = none
    /\ (none = false -> cong (c3 + d) (ld e 2 k b) /\ cong (c4 + (np - op)) c3).
Proof.
  intros Hh (K1 & K2 & K3 & K4) Hp Hb Ho (Hl & Hlk & Hk) Ek Hoa Hop Rn Ro. unfold manip_one. cbv zeta.
  intros E.
  destruct (manip_addr_spec o na oa b _ _ Hh Hb ltac:(lia) Hoa Rn Ro E) as [[E1 _] | (d & Hd & E1)];
    [injection E1 as -> ->; by left |]. clear E.
  unfold attempt at 1 in E1.
  destruct (l3_csum_replace h 24 d (st e 4 o na b)) as [x2 |] eqn:E2; [| injection E1 as -> ->; by left].
  destruct (l3_law _ _ Hh _ _ _ _ E2) as (c2 & R2 & -> & C2 & _). clear E2. rewrite ld_st_out in C2 by lia.
  pose proof (ip_stores_ld k o na c2 b 2 ltac:(lia) Ho ltac:(lia)) as Hk2.
  pose proof (ip_stores_ld (l + p) o na c2 b 2 ltac:(lia) Ho ltac:(lia)) as Hp2.
  assert (Forall is_byte (st e 2 24 c2 (st e 4 o na b))) as B2 by (by repeat apply st_byte).
  assert (length (st e 2 24 c2 (st e 4 o na b)) = length b) as L2 by (by rewrite !length_st by lens).
  remember (st e 2 24 c2 (st e 4 o na b)) as x2 eqn:X2.
  unfold attempt in E1.
  destruct (csum_l4_replace h l _ d x2) as [x3 |] eqn:E3; [| injection E1 as -> ->; by left].
  apply (l4_law _ _ Hh) in E3. rewrite (l4_offset proto Hh Hp), <- Ek in E3.
  destruct (adjusted_store _ _ _ _ _ B2 E3) as (c3 & R3 & -> & N3 & C3). clear E3.
  rewrite Hk2 in N3, C3.
  pose proof (ld_st_same e 2 k c3 x2 ltac:(lia) R3) as Hk3.
  assert (op = ld e 2 (l + p) (st e 2 k c3 x2)) as Hp3 by (rewrite ld_st_out, Hp2 by lia; done).
  pose proof (length_st e 2 k c3 x2 ltac:(lia)) as L3. pose proof (st_byte e 2 k c3 x2 B2) as B3.
  remember (st e 2 k c3 x2) as x3 eqn:X3.
  destruct (manip_port_spec proto l p np op x3 _ Hh Hp B3 Hp3 ltac:(lia) ltac:(lia) (eq_sym E1))
    as [[E4 _] | (x4 & A4 & E4)]; [injection E4 as -> ->; by left |].
  injection E4 as -> ->. right. split; [done |]. rewrite <- Ek in A4.
  destruct (adjusted_store _ _ _ _ _ B3 A4) as (c4 & R4 & -> & N4 & C4). rewrite Hk3, N3 in N4, C4.
  exists d, c2, c3, c4. split; [done |]. split; [done |]. split; [done |].
  split; [by rewrite X3, X2 |]. split; [done |]. intros Hn. split; [by apply C3 | by apply C4].
Qed.

(** ** Sums after the rewriting *)

Section stores.
Context (o p l k : nat) (na np c2 c4 : Z) (b : list Z).
Context (Hb : Forall is_byte b) (Ho : (o = 26 \/ o = 30)%nat) (Hpo : (p = 0 \/ p = 2)%nat).
Context (Hl : (34 <= l)%nat) (El : Nat.Even (l - 14)) (Hk : (k = l + 6 \/ k = l + 16)%nat).
Context (Hkb : (k + 2 <= length b)%nat).
Context (R2 : in_u 16 c2) (R4 : in_u 16 c4) (Rnp : in_u 16 np) (Rna : in_u 32 na).

Definition rewritten : list Z := st e 2 (l + p) np (st e 2 k c4 (st e 2 24 c2 (st e 4 o na b))).

Lemma rewritten_length : length rewritten = length b.
Proof. unfold rewritten. by rewrite !length_st by lens. Qed.

Lemma rewritten_byte : Forall is_byte rewritten.
Proof. unfold rewritten. by repeat apply st_byte. Qed.

Lemma old_addr_bytes : bytes_at o 4 b = host_bytes e 4 (ld e 4 o b).
Proof.
  pose proof (length_bytes_at o 4 b ltac:(lia)) as L. unfold ld. rewrite <- L at 2.
  by rewrite host_bytes_of_val by by apply bytes_at_byte.
Qed.

Definition addr_change : Z := wsum e (host_bytes e 4 na) - wsum e (host_bytes e 4 (ld e 4 o b)).

Lemma rewritten_ip :
  wsum e (bytes_at 14 (l - 14) rewritten)
  = wsum e (bytes_at 14 (l - 14) b) + addr_change - ld e 2 24 b + c2.
Proof.
  unfold rewritten, addr_change. rewrite !bytes_at_st_out by lens.
  rewrite !wsum_st by (rewrite ?length_st by lens; destruct Ho as [-> | ->]; offsets).
  rewrite bytes_at_st_out by lens. rewrite wsum_ld, wsum_16, old_addr_bytes by (done || lia). lia.
Qed.

Lemma rewritten_pseudo : wsum e (bytes_at 26 8 rewritten) = wsum e (bytes_at 26 8 b) + addr_change.
Proof.
  unfold rewritten, addr_change. rewrite !(bytes_at_st_out _ _ _ 2) by lens.
  rewrite wsum_st by (destruct Ho as [-> | ->]; offsets). rewrite old_addr_bytes. lia.
Qed.

Lemma rewritten_l4 :
  wsum e (bytes_at l (length b - l) rewritten)
  = wsum e (bytes_at l (length b - l) b) - ld e 2 k b + c4 - ld e 2 (l + p) b + np.
Proof.
  unfold rewritten.
  rewrite !(wsum_st _ l) by (rewrite ?length_st by lens; destruct Hpo as [-> | ->], Hk as [-> | ->]; offsets).
  rewrite !bytes_at_st_out by lens. rewrite !wsum_ld, !wsum_16 by (done || lia). lia.
Qed.

Lemma rewritten_ld n x :
  (x < 24 \/ (34 <= x /\ x + n <= l))%nat -> (x + n <= 24 \/ 34 <= x)%nat -> ld e n x rewritten = ld e n x b.
Proof. intros. unfold rewritten. by rewrite !ld_st_out by lens. Qed.

Lemma rewritten_fields :
  ld e 4 o rewritten = na /\ ld e 2 (l + p) rewritten = np /\ ld e 2 k rewritten = c4.
Proof.
  unfold rewritten. split; [| split].
  - rewrite !ld_st_out by lens. apply ld_st_same; [lia | done].
  - apply ld_st_same; [lens | done].
  - rewrite ld_st_out by lens. apply ld_st_same; [lens | done].
Qed.

Lemma rewritten_rest i :
  ~ (24 <= i < 26 \/ o <= i < o + 4 \/ l + p <= i < l + p + 2 \/ k <= i < k + 2)%nat -> rewritten !! i = b !! i.
Proof. intros Hi. unfold rewritten. by rewrite !lookup_st by lens. Qed.

End stores.

(** ** The translation *)

(** The packet [b'] is [b] with the address at [o] and the port at [p] of the L4 header
    replaced, valid checksums, and no other change. *)
Record l4_translated (proto : Z) (o p : nat) (addr port : Z) (b b' : list Z) : Prop := mk_l4_translated {
  lt_length : length b' = length b;
  lt_ip : csum e (bytes_at 14 (ipv4_hdrlen e b) b') = 0;
  lt_l4 : if no_csum proto b then no_csum proto b' = true else csum e (l4_covered proto b') = 0;
  lt_addr : ld e 4 o b' = addr;
  lt_port : ld e 2 (l4_off b + p) b' = port;
  lt_rest : forall i, ~ (24 <= i < 26 \/ o <= i < o + 4 \/ l4_off b + p <= i < l4_off b + p + 2
                        \/ l4_off b + l4_csum proto <= i < l4_off b + l4_csum proto + 2)%nat -> b' !! i = b !! i;
}.

Lemma covered_ok proto b :
  l4_proto proto -> Forall is_byte b -> Z.of_nat (length b) <= 65549 -> data_ok (l4_covered proto b).
Proof.
  intros Hp Hb Hl. unfold l4_covered. split.
  - rewrite !Forall_app. split; [by apply bytes_at_byte |]. split.
    { destruct Hp as [-> | ->]; repeat constructor; done. }
    split; [apply (host_bytes_byte Big 2) | by apply bytes_at_byte].
  - rewrite !length_app, length_be_bytes. unfold bytes_at. rewrite !length_take, !length_drop. cbn [length]. lia.
Qed.

Lemma covered_valid proto b :
  l4_proto proto -> Forall is_byte b -> (34 <= length b)%nat -> Z.of_nat (length b) <= 65549 ->
  csum e (l4_covered proto b) = 0 <-> cong (l4_sum b + l4_rest proto (l4_len b)) 0.
Proof.
  intros Hp Hb Hl Hl2. pose proof (covered_ok proto b Hp Hb Hl2) as Hd.
  rewrite valid_iff, l4_covered_sum by done. split; [tauto |]. intros H. split; [| done].
  rewrite <- l4_covered_sum by done. apply (wsum_pos e _ 9 proto); [apply Hd | | destruct Hp as [-> | ->]; done].
  unfold l4_covered. rewrite lookup_app_r by (rewrite length_bytes_at by lia; lia).
  by rewrite length_bytes_at by lia.
Qed.

Lemma rewritten_translated proto o p na np b d c2 c3 c4 (k := (l4_off b + l4_csum proto)%nat) :
  l4_packet proto b -> (o = 26 \/ o = 30)%nat -> (p = 0 \/ p = 2)%nat ->
  in_u 32 na -> in_u 16 np -> in_u 16 c2 -> in_u 16 c4 ->
  cong d (addr_change o na b) -> cong (c2 + d) (ld e 2 24 b) ->
  ((proto =? IPPROTO_UDP) && (c4 =? 0)) = no_csum proto b ->
  (no_csum proto b = false -> cong (c3 + d) (ld e 2 k b) /\ cong (c4 + (np - ld e 2 (l4_off b + p) b)) c3) ->
  l4_translated proto o p na np b (rewritten o p (l4_off b) k na np c2 c4 b).
Proof.
  intros [Hb Hl _ [Hp Hproto] [Hh1 Hh2] Hip Hl4] Ho Hpo Rna Rnp R2 R4 Hd C2 Hn C34.
  set (l := l4_off b) in *.
  assert (34 <= l)%nat as H34 by (unfold l, l4_off, ETH_HLEN; lia).
  assert (l - 14 = ipv4_hdrlen e b)%nat as Ehl by (unfold l, l4_off, ETH_HLEN; lia).
  assert (k = l + 6 \/ k = l + 16)%nat as Hk by (subst k; destruct (l4_csum_even proto Hp); lia).
  set (b' := rewritten o p l k na np c2 c4 b).
  pose proof (rewritten_length o p l k na np c2 c4 b Ho Hpo H34 Hk Hh2) as L'.
  pose proof (rewritten_byte o p l k na np c2 c4 b Hb) as B'.
  destruct (rewritten_fields o p l k na np c2 c4 b Ho Hpo H34 Hk Hh2 R4 Rnp Rna) as (F1 & F2 & F3).
  fold b' in L', B', F1, F2, F3.
  assert (l4_off b' = l) as El' by (apply l4_off_same, rewritten_ld; unfold IP_OFF; lia).
  split; [done | | | done | done |].
  - rewrite <- Ehl. apply (range_valid e 14 (l - 14) 23); try lia; [done | |].
    { unfold b'. rewrite rewritten_ld by lia. rewrite Hproto. destruct Hp as [-> | ->]; done. }
    unfold b'. rewrite rewritten_ip by (done || rewrite Ehl; apply hdrlen_even).
    apply valid_cong in Hip; [| done || lia ..]. rewrite <- Ehl in Hip.
    revert Hip C2 Hd. generalize (wsum e (bytes_at 14 (l - 14) b)) (addr_change o na b) (ld e 2 24 b). clear.
    intros. cong_lia.
  - destruct (no_csum proto b) eqn:En.
    + unfold no_csum. rewrite El'. fold k. by rewrite F3.
    + destruct Hl4 as [Hl4 | Hl4]; [done |]. specialize (C34 eq_refl) as [C3 C4].
      apply covered_valid in Hl4; [| done || lia ..]. apply covered_valid; [done | done | lia | lia |].
      unfold l4_sum, l4_len in *. rewrite El', L'. fold l in Hl4. unfold b'. rewrite rewritten_pseudo, rewritten_l4 by done.
      revert Hl4 C3 C4 Hd. fold k. generalize (addr_change o na b) (ld e 2 k b) (ld e 2 (l + p) b)
        (wsum e (bytes_at 26 8 b)) (wsum e (bytes_at l (length b - l) b)) (l4_rest proto (length b - l)).
      clear. intros. cong_lia.
  - intros i Hi. apply rewritten_rest; done.
Qed.

(** Helpers that succeed on every access inside the packet. *)
Record never_fails : Prop := mk_never_fails {
  nf_store : forall o w b, (o + length w <= length b)%nat -> is_Some (skb_store_bytes h o w b);
  nf_l3 : forall o d b, (o + 2 <= length b)%nat -> is_Some (l3_csum_replace h o d b);
  nf_l4 : forall l co d b, (l + offset co + 2 <= length b)%nat -> is_Some (csum_l4_replace h l co d b);
  nf_load : forall o b, (o + 2 <= length b)%nat -> is_Some (l4_load_port h o b);
  nf_port : forall l o co n x b, (l + o + 2 <= length b)%nat -> (l + offset co + 2 <= length b)%nat ->
    is_Some (l4_modify_port h l o co n x b);
}.

Lemma adjusted_length proto o d x x' : adjusted e proto o d x x' -> length x' = length x.
Proof.
  intros [Hl H]. destruct (_ && _); [by subst |]. destruct H as (c & _ & _ & -> & _). by apply length_st.
Qed.

Lemma manip_one_succeeds proto o p na oa np op l b :
  helpers_ok e h -> never_fails -> l4_proto proto ->
  (o + 4 <= length b)%nat -> (26 <= length b)%nat ->
  (l + p + 2 <= length b)%nat -> (l + l4_csum proto + 2 <= length b)%nat ->
  (manip_one o p na oa np op proto l b).1 = 0.
Proof.
  intros Hh Hf Hp H1 H2 H3 H4. unfold manip_one. cbv zeta.
  assert (forall s x, length x = length b ->
    (attempt (DROP_CSUM_L3 err) (l3_csum_replace h 24 s) (λ b,
      attempt (DROP_CSUM_L4 err) (csum_l4_replace h l (csum_l4_offset_and_flags h proto) s)
        (manip_port h err l p (csum_l4_offset_and_flags h proto) np op (λ b, (0, b))) b) x).1 = 0) as Hrest.
  { intros s x Lx. unfold attempt at 1. destruct (nf_l3 Hf 24 s x ltac:(lia)) as [x1 E1]. rewrite E1.
    destruct (l3_law _ _ Hh _ _ _ _ E1) as (c & _ & -> & _ & Hc).
    pose proof (length_st e 2 24 c x Hc) as L1. remember (st e 2 24 c x) as x1 eqn:X1. clear X1 E1.
    unfold attempt. destruct (nf_l4 Hf l (csum_l4_offset_and_flags h proto) s x1) as [x2 E2].
    { rewrite (l4_offset proto Hh Hp). lia. }
    rewrite E2. apply (l4_law _ _ Hh), adjusted_length in E2. unfold manip_port, attempt.
    destruct (negb _); [| done].
    destruct (nf_port Hf l p (csum_l4_offset_and_flags h proto) np op x2) as [x3 ->]; [lia | | done].
    rewrite (l4_offset proto Hh Hp). lia. }
  unfold manip_addr, attempt at 1. destruct (negb _); [| by apply Hrest].
  destruct (nf_store Hf o (host_bytes e 4 na) b) as [x E]; [rewrite length_host_bytes; lia |]. rewrite E.
  apply Hrest. destruct (store_law _ _ Hh _ _ _ _ E) as [-> Hx]. by apply length_store.
Qed.

(** The ports of a packet as the key of a connection has them. *)
Definition l4_ports (b : list Z) : pkt_l4_info :=
  mk_info (ld e 2 (l4_off b + TCP_DPORT_OFF) b) (ld e 2 (l4_off b + TCP_SPORT_OFF) b) 0.

Lemma extract_spec proto b :
  helpers_ok e h -> l4_packet proto b ->
  (never_fails -> exists s, extract_l4_info h err b proto (l4_off b) = inr (mk_info (dport (l4_ports b)) (sport (l4_ports b)) s))
  /\ ((exists c, extract_l4_info h err b proto (l4_off b) = inl c)
      \/ exists s, extract_l4_info h err b proto (l4_off b) = inr (mk_info (dport (l4_ports b)) (sport (l4_ports b)) s)).
Proof.
  intros Hh [Hb _ _ [Hp _] [_ Hl] _ _]. unfold extract_l4_info.
  pose proof (l4_csum_even proto Hp) as Hc. unfold l4_ports. cbn [dport sport].
  assert (forall x, (x + 2 <= length b)%nat ->
    (never_fails -> l4_load_port h x b = Some (ld e 2 x b))
    /\ (l4_load_port h x b = None \/ l4_load_port h x b = Some (ld e 2 x b))) as Hload.
  { intros x Hx. destruct (l4_load_port h x b) as [v |] eqn:E.
    - destruct (load_law _ _ Hh _ _ _ E) as [-> _]. auto.
    - split; [| by left]. intros Hf. destruct (nf_load Hf x b Hx) as [v E']. congruence. }
  destruct (Hload (l4_off b + TCP_DPORT_OFF)%nat) as [D1 D2]; [unfold TCP_DPORT_OFF; lia |].
  destruct (Hload (l4_off b + TCP_SPORT_OFF)%nat) as [S1 S2]; [unfold TCP_SPORT_OFF; lia |].
  destruct Hp as [-> | ->].
  - destruct (Hload (l4_off b + 12)%nat) as [F1 F2]; [change (l4_csum IPPROTO_TCP) with 16%nat in Hl; lia |].
    cbn [Z.eqb Pos.eqb IPPROTO_TCP]. split.
    + intros Hf. rewrite D1, S1, F1 by done. by eexists.
    + destruct F2 as [-> | ->]; [by left; eexists |]. destruct D2 as [-> | ->]; [by left; eexists |].
      destruct S2 as [-> | ->]; [by left; eexists | right; by eexists].
  - cbn [Z.eqb Pos.eqb IPPROTO_TCP IPPROTO_UDP]. split.
    + intros Hf. rewrite D1, S1 by done. by eexists.
    + destruct D2 as [-> | ->]; [by left; eexists |].
      destruct S2 as [-> | ->]; [by left; eexists | right; by eexists].
Qed.

(** What the hook does with a TCP or UDP packet of a known connection. *)
Lemma hook_l4 dir skb proto v (b := data skb)
    (m := manip_one (pick dir 26 30) (pick dir TCP_SPORT_OFF TCP_DPORT_OFF) (new_addr dir v)
            (ld e 4 (pick dir 26 30) b) (new_port dir v)
            (ld e 2 (l4_off b + pick dir TCP_SPORT_OFF TCP_DPORT_OFF) b) proto (l4_off b) b) :
  helpers_ok e h -> l4_packet proto b ->
  conntrack_hash_tab (l4_key e dir proto (l4_ports b) skb) = Some v ->
  nf_nat_ipv4_fn e h err conntrack_hash_tab dir skb =
  match extract_l4_info h err b proto (l4_off b) with
  | inl _ => (TC_ACT_SHOT, skb)
  | inr _ => (if negb (m.1 =? 0) then TC_ACT_SHOT else TC_ACT_OK,
              mk_skb m.2 (if dir then 0 else mark skb) (vlan_proto skb))
  end.
Proof.
  intros Hh Hb Hk. pose proof Hb as [_ _ He [Hp Hproto] [Hh1 Hh2] _ _].
  assert (34 <= length b)%nat as Hl by (unfold l4_off, ETH_HLEN in Hh2; lia).
  destruct (extract_spec proto b Hh Hb) as [_ X].
  subst b m. destruct skb as [b mk w]. cbn [data mark vlan_proto] in *.
  destruct (ethertype_ip e b mk w ltac:(lia) He) as [En Ev].
  unfold nf_nat_ipv4_fn. rewrite Ev, Z.eqb_refl. unfold validate_ip_data. cbn [data negb].
  destruct (Nat.ltb_spec (length b) (ETH_HLEN + IPHDR)); [unfold ETH_HLEN, IPHDR in *; lia |]. cbn [negb].
  change (IP_OFF + IP_PROTOCOL)%nat with 23%nat. rewrite Hproto.
  replace (negb (proto =? IPPROTO_TCP) && negb (proto =? IPPROTO_UDP) && _) with false
    by (destruct Hp as [-> | ->]; done).
  replace (proto =? IPPROTO_ICMP) with false by (destruct Hp as [-> | ->]; done).
  fold (l4_off b). destruct X as [[c ->] | [s ->]]; [done |].
  change (l4_key e dir proto (mk_info (dport (l4_ports b)) (sport (l4_ports b)) s) (mk_skb b mk w))
    with (l4_key e dir proto (l4_ports b) (mk_skb b mk w)). rewrite Hk.
  assert (forall (x : Z * list Z) k, (let '(r, d) := x in
      if negb (r =? 0) then (TC_ACT_SHOT, mk_skb d k w) else (TC_ACT_OK, mk_skb d k w))
    = (if negb (x.1 =? 0) then TC_ACT_SHOT else TC_ACT_OK, mk_skb x.2 k w)) as Hret
    by (intros [ret c] k; cbn [fst snd]; by destruct (negb (ret =? 0))).
  destruct dir.
  - pose proof (manip_dir true (v_sip v) (v_sport v) (ld e 4 30 b) (ld e 4 26 b)
      (dport (l4_ports b)) (sport (l4_ports b)) proto (l4_off b) b Hh Hp) as E.
    etrans; [| apply Hret]. cbn [new_addr new_port pick] in *.
    change (ld e 2 (l4_off b + TCP_SPORT_OFF) b) with (sport (l4_ports b)). rewrite <- E. reflexivity.
  - pose proof (manip_dir false (v_dip v) (v_dport v) (ld e 4 30 b) (ld e 4 26 b)
      (dport (l4_ports b)) (sport (l4_ports b)) proto (l4_off b) b Hh Hp) as E.
    etrans; [| apply Hret]. cbn [new_addr new_port pick] in *.
    change (ld e 2 (l4_off b + TCP_DPORT_OFF) b) with (dport (l4_ports b)). rewrite <- E. reflexivity.
Qed.

(** C18: a TCP or UDP packet of a connection that is translated leaves with the address and port
    of the connection in place of its own source, or arrives with them in place of its
    destination; the IP checksum is valid afterwards, the transport checksum too if the packet
    had one, and no other byte changes. If no helper fails the packet is passed on; it is
    dropped only when one fails. *)
Theorem snat_l4_translates dir skb proto v :
  helpers_ok e h -> codes_ok -> value_ok v -> l4_packet proto (data skb) ->
  conntrack_hash_tab (l4_key e dir proto (l4_ports (data skb)) skb) = Some v ->
  let '(action, skb') := nf_nat_ipv4_fn e h err conntrack_hash_tab dir skb in
  (never_fails -> action = TC_ACT_OK)
  /\ (action = TC_ACT_SHOT \/
      action = TC_ACT_OK
      /\ l4_translated proto (pick dir 26 30) (pick dir TCP_SPORT_OFF TCP_DPORT_OFF)
           (new_addr dir v) (new_port dir v) (data skb) (data skb')
      /\ mark skb' = (if dir then 0 else mark skb) /\ vlan_proto skb' = vlan_proto skb).
Proof.
  intros Hh Hc Hv Hb Hk. destruct (new_ok dir v Hv) as [Ra Rp].
  rewrite (hook_l4 dir skb proto v Hh Hb Hk).
  destruct (extract_spec proto (data skb) Hh Hb) as [X1 X2].
  destruct X2 as [[c E] | [s E]]; rewrite E.
  { split; [| by left]. intros Hf. destruct (X1 Hf) as [s E']. congruence. }
  set (m := manip_one _ _ _ _ _ _ _ _ _). pose proof Hb as [Bb Hl _ [Hp _] [Hh1 Hh2] _ _].
  set (b := data skb) in *. set (o := pick dir 26 30). set (p := pick dir TCP_SPORT_OFF TCP_DPORT_OFF).
  assert (o = 26 \/ o = 30)%nat as Ho by (destruct dir; [by left | by right]).
  assert (p = 0 \/ p = 2)%nat as Hpo by (destruct dir; [by left | by right]).
  pose proof (l4_csum_even proto Hp) as Hc4.
  assert (34 <= l4_off b)%nat as H34 by (unfold l4_off, ETH_HLEN; lia).
  split.
  { intros Hf. unfold m. rewrite manip_one_succeeds; try done; fold b o p; lia. }
  destruct m as [ret b'] eqn:Em. cbn [fst snd].
  destruct (manip_one_spec proto o p (new_addr dir v) (ld e 4 o b) (new_port dir v)
    (ld e 2 (l4_off b + p) b) b ret b' (l4_off b) (l4_off b + l4_csum proto) Hh Hc Hp Bb)
    as [Hr | (-> & d & c2 & c3 & c4 & C1 & (R2 & R3 & R4) & C2 & -> & N4 & C34)];
    try done; try lia; [apply ld4_range; [done | lia] | |].
  - left. by destruct (Z.eqb_spec ret 0).
  - right. split; [done |]. split; [| done]. rewrite st_st by (rewrite !length_st by lens; lia).
    by apply (rewritten_translated proto o p _ _ b d c2 c3 c4).
Qed.

End L4.

(** ** A concrete translation *)

Lemma model_never_fails e : never_fails (model_helpers e).
Proof.
  split; cbn [skb_store_bytes l3_csum_replace csum_l4_replace l4_load_port l4_modify_port model_helpers];
    unfold adjust; intros.
  - destruct (Nat.leb_spec (o + length w) (length b)); [done | lia].
  - destruct (Nat.leb_spec (o + 2) (length b)); [done | lia].
  - destruct (Nat.leb_spec (l + offset co + 2) (length b)); [by destruct (_ && _) | lia].
  - destruct (Nat.leb_spec (o + 2) (length b)); [done | lia].
  - destruct (Nat.leb_spec (l + o + 2) (length b)); [| lia].
    destruct (Nat.leb_spec (l + offset co + 2) (length b)); [by destruct (_ && _) | lia].
Qed.

(** A SYN from port 49153 of 10.0.0.5 to a web server, which leaves as port 40000 of
    192.0.2.1. *)
Definition syn_sample : list Z :=
  [2; 0; 0; 0; 0; 1; 2; 0; 0; 0; 0; 2; 8; 0;
   69; 0; 0; 40; 0; 0; 64; 0; 64; 6; 250; 240; 10; 0; 0; 5; 93; 184; 216; 34;
   192; 1; 0; 80; 0; 0; 0; 1; 0; 0; 0; 0; 80; 2; 250; 240; 180; 191; 0; 0].

Definition any_tab (k : bpf_lb_conn_key) : option bpf_lb_conn_value := Some sample_value.

Lemma snat_l4_translates_witness :
  let '(action, skb') :=
    nf_nat_ipv4_fn Little (model_helpers Little) no_codes any_tab true (mk_skb syn_sample 7 0) in
  action = TC_ACT_OK
  /\ l4_translated Little IPPROTO_TCP 26 0 (be_val [1; 2; 0; 192]) (be_val [64; 156]) syn_sample (data skb').
Proof.
  pose proof (snat_l4_translates Little (model_helpers Little) no_codes any_tab true
    (mk_skb syn_sample 7 0) IPPROTO_TCP sample_value) as H.
  destruct (nf_nat_ipv4_fn _ _ _ _ _ _) as [action skb'].
  destruct H as [H1 [H2 | (H2 & H3 & _)]].
  - apply model_helpers_ok.
  - done.
  - unfold value_ok, in_u. cbn. lia.
  - split; try reflexivity; [| done | split; [by left | done] | split; apply Nat.leb_le; reflexivity | by right].
    cbn [data syn_sample]. repeat constructor; done.
  - reflexivity.
  - rewrite H2 in H1. by specialize (H1 (model_never_fails Little)).
  - done.
Defined.

End BpfSnatL4.
