(* ===== verification/Conntrack.v ===== *)
(** Connection tracking without TCP: timeout policies and expirations (lib/conntrack-tp.c),
    the trackers of ICMP (lib/conntrack-icmp.c) and of other protocols
    (lib/conntrack-other.c). *)
From stdpp Require Import gmap.
From S2P Require Import Prelude.

Module Conntrack.

(** ** Data *)

Inductive ct_timeout :=
  | CT_TM_TCP_FIRST_PACKET | CT_TM_TCP_OPENING | CT_TM_TCP_ESTABLISHED | CT_TM_TCP_CLOSING
  | CT_TM_TCP_FIN_WAIT | CT_TM_TCP_CLOSED | CT_TM_OTHER_FIRST | CT_TM_OTHER_MULTIPLE
  | CT_TM_OTHER_BIDIR | CT_TM_ICMP_FIRST | CT_TM_ICMP_REPLY.

Inductive ct_update_res := CT_UPDATE_INVALID | CT_UPDATE_VALID | CT_UPDATE_NEW | CT_UPDATE_VALID_NEW.

#[export] Instance ct_timeout_eq_dec : EqDecision ct_timeout.
Proof. solve_decision. Defined.

(** The indices CT_DPIF_TP_ATTR_*. *)
Definition CT_DPIF_TP_ATTR_TCP_SYN_SENT : nat := 0.
Definition CT_DPIF_TP_ATTR_TCP_SYN_RECV : nat := 1.
Definition CT_DPIF_TP_ATTR_TCP_ESTABLISHED : nat := 2.
Definition CT_DPIF_TP_ATTR_TCP_FIN_WAIT : nat := 3.
Definition CT_DPIF_TP_ATTR_TCP_TIME_WAIT : nat := 6.
Definition CT_DPIF_TP_ATTR_TCP_CLOSE : nat := 7.
Definition CT_DPIF_TP_ATTR_UDP_FIRST : nat := 11.
Definition CT_DPIF_TP_ATTR_UDP_SINGLE : nat := 12.
Definition CT_DPIF_TP_ATTR_UDP_MULTIPLE : nat := 13.
Definition CT_DPIF_TP_ATTR_ICMP_FIRST : nat := 14.
Definition CT_DPIF_TP_ATTR_ICMP_REPLY : nat := 15.
Definition CT_DPIF_TP_ATTR_MAX : nat := 16.

(** The defaults, in seconds; attributes that are not listed are zero. *)
Definition ct_dpif_netdev_tp_def : list Z :=
  [30; 30; 24 * 60 * 60; 15 * 60; 0; 0; 45; 30; 0; 0; 0; 60; 60; 30; 60; 30].

(** [struct ct_dpif_timeout_policy] *)
Record timeout_policy := mk_tp { tp_pol_id : Z; present : Z; attrs : list Z }.

#[export] Instance timeout_policy_eta : RecordEta timeout_policy := λ r,
  mk_tp (tp_pol_id r) (present r) (attrs r).

(** What the trackers use of [struct conntrack]: the policies by number and the flag of
    sequence checking. *)
Record conntrack := mk_ct { timeout_policies : gmap Z timeout_policy; tcp_seq_chk : bool }.

#[export] Instance conntrack_eta : RecordEta conntrack := λ r,
  mk_ct (timeout_policies r) (tcp_seq_chk r).

(** What they use of [struct conn]: its expiration, the expiry list that it is on, whether it
    was removed from the lists, and its policy. *)
Record conn := mk_conn { expiration : Z; exp_list : ct_timeout; cleaned : bool; tp_id : Z }.

#[export] Instance conn_eta : RecordEta conn := λ r,
  mk_conn (expiration r) (exp_list r) (cleaned r) (tp_id r).

(** ** Timeout policies *)

Definition DEFAULT_TP_ID : Z := 0.
Definition ENOENT : Z := 2.

Definition timeout_policy_lookup (ct : conntrack) (id : Z) : option timeout_policy :=
  timeout_policies ct !! id.

Definition timeout_policy_get (ct : conntrack) (id : Z) : option timeout_policy :=
  timeout_policy_lookup ct id.

(** Attribute [i] of [src], if present, replaces that of [dst]. *)
Definition update_attr (src : timeout_policy) (dst : timeout_policy) (i : nat) : timeout_policy :=
  if negb (Z.land (present src) (Z.shiftl 1 (Z.of_nat i)) =? 0) then
    dst <| attrs ::= <[i := attrs src !!! i]> |>
        <| present ::= λ p, Z.lor p (Z.shiftl 1 (Z.of_nat i)) |>
  else dst.

Definition update_existing_tp (dst src : timeout_policy) : timeout_policy :=
  foldl (update_attr src) dst (seq 0 CT_DPIF_TP_ATTR_MAX).

Definition init_default_tp (id : Z) : timeout_policy := mk_tp id 0 ct_dpif_netdev_tp_def.

Definition timeout_policy_create (new_tp : timeout_policy) (ct : conntrack) : conntrack :=
  let tp := update_existing_tp (init_default_tp (tp_pol_id new_tp)) new_tp in
  ct <| timeout_policies ::= <[tp_pol_id new_tp := tp]> |>.

(** The policy to remove is given by its number, the key under which lookups find it. *)
Definition timeout_policy_clean (id : Z) (ct : conntrack) : conntrack :=
  ct <| timeout_policies ::= delete id |>.

Definition timeout_policy_delete__ (id : Z) (ct : conntrack) : Z * conntrack :=
  match timeout_policy_lookup ct id with
  | Some _ => (0, timeout_policy_clean id ct)
  | None => (ENOENT, ct)
  end.

Definition timeout_policy_delete (id : Z) (ct : conntrack) : Z * conntrack :=
  timeout_policy_delete__ id ct.

Definition timeout_policy_init (ct : conntrack) : conntrack :=
  let ct := ct <| timeout_policies := ∅ |> in
  timeout_policy_create (mk_tp DEFAULT_TP_ID 0 (replicate CT_DPIF_TP_ATTR_MAX 0)) ct.

Definition timeout_policy_update (new_tp : timeout_policy) (ct : conntrack) : Z * conntrack :=
  let '(err, ct) :=
    match timeout_policy_lookup ct (tp_pol_id new_tp) with
    | Some _ => timeout_policy_delete__ (tp_pol_id new_tp) ct
    | None => (0, ct)
    end in
  (err, timeout_policy_create new_tp ct).

(** ** Expirations *)

Definition tm_to_ct_dpif_tp (tm : ct_timeout) : nat :=
  match tm with
  | CT_TM_TCP_FIRST_PACKET => CT_DPIF_TP_ATTR_TCP_SYN_SENT
  | CT_TM_TCP_OPENING => CT_DPIF_TP_ATTR_TCP_SYN_RECV
  | CT_TM_TCP_ESTABLISHED => CT_DPIF_TP_ATTR_TCP_ESTABLISHED
  | CT_TM_TCP_CLOSING => CT_DPIF_TP_ATTR_TCP_FIN_WAIT
  | CT_TM_TCP_FIN_WAIT => CT_DPIF_TP_ATTR_TCP_TIME_WAIT
  | CT_TM_TCP_CLOSED => CT_DPIF_TP_ATTR_TCP_CLOSE
  | CT_TM_OTHER_FIRST => CT_DPIF_TP_ATTR_UDP_FIRST
  | CT_TM_OTHER_BIDIR => CT_DPIF_TP_ATTR_UDP_MULTIPLE
  | CT_TM_OTHER_MULTIPLE => CT_DPIF_TP_ATTR_UDP_SINGLE
  | CT_TM_ICMP_FIRST => CT_DPIF_TP_ATTR_ICMP_FIRST
  | CT_TM_ICMP_REPLY => CT_DPIF_TP_ATTR_ICMP_REPLY
  end.

(** The timeout that applies, in seconds. *)
Definition tp_value (ct : conntrack) (id : Z) (tm : ct_timeout) : Z :=
  match timeout_policy_lookup ct id with
  | Some tp => attrs tp !!! tm_to_ct_dpif_tp tm
  | None => ct_dpif_netdev_tp_def !!! tm_to_ct_dpif_tp tm
  end.

(** [tp_value * 1000] is computed in 32 bits. *)
Definition conn_update_expiration__ (tm : ct_timeout) (now tp_value : Z) (c : conn) : conn :=
  if negb (cleaned c) then c <| expiration := now + u32 (tp_value * 1000) |> <| exp_list := tm |>
  else c.

Definition conn_update_expiration (ct : conntrack) (tm : ct_timeout) (now : Z) (c : conn) : conn :=
  conn_update_expiration__ tm now (tp_value ct (tp_id c) tm) c.

Definition conn_init_expiration__ (tm : ct_timeout) (now tp_value : Z) (c : conn) : conn :=
  c <| expiration := now + u32 (tp_value * 1000) |> <| exp_list := tm |>.

Definition conn_init_expiration (ct : conntrack) (tm : ct_timeout) (now : Z) (c : conn) : conn :=
  conn_init_expiration__ tm now (tp_value ct (tp_id c) tm) c.

(** A connection as [xzalloc] leaves it, with its policy; it is on no list yet. *)
Definition new_conn (id : Z) : conn := mk_conn 0 CT_TM_TCP_FIRST_PACKET false id.

(** ** ICMP *)

Inductive icmp_state := ICMPS_FIRST | ICMPS_REPLY.

Record conn_icmp := mk_icmp { icmp_up : conn; icmp_st : icmp_state }.

Definition icmp_timeouts (s : icmp_state) : ct_timeout :=
  match s with ICMPS_FIRST => CT_TM_ICMP_FIRST | ICMPS_REPLY => CT_TM_ICMP_REPLY end.

Definition icmp_conn_update (ct : conntrack) (reply : bool) (now : Z) (c : conn_icmp)
  : ct_update_res * conn_icmp :=
  let st :=
    match icmp_st c with
    | ICMPS_FIRST => if reply then ICMPS_REPLY else ICMPS_FIRST
    | ICMPS_REPLY => ICMPS_REPLY
    end in
  (CT_UPDATE_VALID, mk_icmp (conn_update_expiration ct (icmp_timeouts st) now (icmp_up c)) st).

Definition ICMP4_ECHO_REQUEST : Z := 8.
Definition ICMP4_TIMESTAMP : Z := 13.
Definition ICMP4_INFOREQUEST : Z := 15.
Definition ICMP6_ECHO_REQUEST : Z := 128.

Definition icmp4_valid_new (icmp_type : Z) : bool :=
  (icmp_type =? ICMP4_ECHO_REQUEST) || (icmp_type =? ICMP4_INFOREQUEST)
  || (icmp_type =? ICMP4_TIMESTAMP).

Definition icmp6_valid_new (icmp6_type : Z) : bool := icmp6_type =? ICMP6_ECHO_REQUEST.

Definition icmp_new_conn (ct : conntrack) (now id : Z) : conn_icmp :=
  mk_icmp (conn_init_expiration ct (icmp_timeouts ICMPS_FIRST) now (new_conn id)) ICMPS_FIRST.

(** ** Other protocols *)

Inductive other_state := OTHERS_FIRST | OTHERS_MULTIPLE | OTHERS_BIDIR.

Record conn_other := mk_other { other_up : conn; other_st : other_state }.

Definition other_timeouts (s : other_state) : ct_timeout :=
  match s with
  | OTHERS_FIRST => CT_TM_OTHER_FIRST
  | OTHERS_MULTIPLE => CT_TM_OTHER_MULTIPLE
  | OTHERS_BIDIR => CT_TM_OTHER_BIDIR
  end.

Definition other_conn_update (ct : conntrack) (reply : bool) (now : Z) (c : conn_other)
  : ct_update_res * conn_other :=
  let '(ret, st) :=
    match other_st c, reply with
    | OTHERS_FIRST, true => (CT_UPDATE_VALID, OTHERS_BIDIR)
    | OTHERS_MULTIPLE, true => (CT_UPDATE_VALID, OTHERS_BIDIR)
    | OTHERS_FIRST, false => (CT_UPDATE_VALID_NEW, OTHERS_MULTIPLE)
    | st, _ => (CT_UPDATE_VALID, st)
    end in
  (ret, mk_other (conn_update_expiration ct (other_timeouts st) now (other_up c)) st).

Definition other_valid_new : bool := true.

Definition other_new_conn (ct : conntrack) (now id : Z) : conn_other :=
  mk_other (conn_init_expiration ct (other_timeouts OTHERS_FIRST) now (new_conn id)) OTHERS_FIRST.

(** ** Effective timeouts *)

Definition has_attr (tp : timeout_policy) (i : nat) : bool :=
  negb (Z.land (present tp) (Z.shiftl 1 (Z.of_nat i)) =? 0).

Lemma update_attr_length src dst i : length (attrs (update_attr src dst i)) = length (attrs dst).
Proof. unfold update_attr. destruct (negb _); [| done]. rsimpl. by rewrite length_insert. Qed.

(** Attribute [j] after the first [k] attributes were merged. *)
Lemma update_attrs_spec src k : forall dst j,
  length (attrs dst) = CT_DPIF_TP_ATTR_MAX -> (k <= CT_DPIF_TP_ATTR_MAX)%nat ->
  let tp := foldl (update_attr src) dst (seq 0 k) in
  length (attrs tp) = CT_DPIF_TP_ATTR_MAX /\
  attrs tp !!! j = if (j <? k)%nat && has_attr src j then attrs src !!! j else attrs dst !!! j.
Proof.
  induction k as [| k IH]; intros dst j Hl Hk; cbv zeta; [done |].
  rewrite seq_S, foldl_app. cbn [foldl]. destruct (IH dst j Hl ltac:(lia)) as [L1 A1].
  set (tp := foldl (update_attr src) dst (seq 0 k)) in *. split; [by rewrite update_attr_length |].
  unfold update_attr. fold (has_attr src k). change (0 + k)%nat with k.
  fold (has_attr src k). destruct (decide (j = k)) as [-> | Hne].
  - rewrite Nat.ltb_irrefl in A1. cbn [andb] in A1. destruct (Nat.ltb_spec k (S k)); [| lia]. cbn [andb].
    destruct (has_attr src k); [| done]. rsimpl. apply list_lookup_total_insert_eq. lia.
  - assert ((j <? S k)%nat = (j <? k)%nat) as ->.
    { destruct (Nat.ltb_spec j (S k)), (Nat.ltb_spec j k); lia || done. }
    rewrite <- A1. destruct (has_attr src k); [| done]. rsimpl. by apply list_lookup_total_insert_ne.
Qed.

Lemma tm_index tm : (tm_to_ct_dpif_tp tm < CT_DPIF_TP_ATTR_MAX)%nat.
Proof. unfold CT_DPIF_TP_ATTR_MAX. destruct tm; cbv; lia. Qed.

(** Setting a timeout policy determines the timeouts of the connections that use it: an
    attribute that the policy has applies, the default applies for one that it has not, whatever
    policy of that number was there before, other policies are untouched, and setting never
    fails. *)
Theorem timeout_policy_effective tp ct id tm :
  let '(err, ct') := timeout_policy_update tp ct in
  err = 0 /\ tcp_seq_chk ct' = tcp_seq_chk ct /\
  tp_value ct' id tm =
    if id =? tp_pol_id tp then
      if has_attr tp (tm_to_ct_dpif_tp tm) then attrs tp !!! tm_to_ct_dpif_tp tm
      else ct_dpif_netdev_tp_def !!! tm_to_ct_dpif_tp tm
    else tp_value ct id tm.
Proof.
  unfold timeout_policy_update, timeout_policy_delete__, timeout_policy_clean.
  destruct (update_attrs_spec tp CT_DPIF_TP_ATTR_MAX (init_default_tp (tp_pol_id tp)) (tm_to_ct_dpif_tp tm)
    eq_refl (le_n _)) as [_ HA]. destruct (Nat.ltb_spec (tm_to_ct_dpif_tp tm) CT_DPIF_TP_ATTR_MAX);
    [| pose proof (tm_index tm); lia]. cbn [andb] in HA.
  destruct (timeout_policy_lookup ct (tp_pol_id tp)) eqn:E; (split; [done | split; [done |]]);
    unfold tp_value, timeout_policy_lookup, timeout_policy_create; rsimpl;
    (destruct (Z.eqb_spec id (tp_pol_id tp)) as [-> | Hne];
     [rewrite lookup_insert_eq; exact HA | rewrite lookup_insert_ne by done]); [| done].
  by rewrite lookup_delete_ne.
Qed.

(** ** Directions *)

(** The packets of a connection: whether each is a reply, and when it comes. *)
Fixpoint icmp_run (ct : conntrack) (l : list (bool * Z)) (c : conn_icmp) : conn_icmp :=
  match l with [] => c | (r, now) :: l => icmp_run ct l (icmp_conn_update ct r now c).2 end.

Fixpoint other_run (ct : conntrack) (l : list (bool * Z)) (c : conn_other) : conn_other :=
  match l with [] => c | (r, now) :: l => other_run ct l (other_conn_update ct r now c).2 end.

Definition replied (l : list (bool * Z)) : bool := existsb fst l.

Lemma icmp_run_state ct l : forall c,
  icmp_st (icmp_run ct l c) =
  match icmp_st c with ICMPS_REPLY => ICMPS_REPLY | _ => if replied l then ICMPS_REPLY else ICMPS_FIRST end.
Proof.
  induction l as [| [r now] l IH]; intros c; cbn [icmp_run replied existsb fst].
  - by destruct (icmp_st c).
  - rewrite IH. cbn [icmp_conn_update snd icmp_st]. fold (replied l). by destruct (icmp_st c), r.
Qed.

Lemma other_run_state ct l : forall c,
  other_st (other_run ct l c) =
  match other_st c with
  | OTHERS_BIDIR => OTHERS_BIDIR
  | st => if replied l then OTHERS_BIDIR else match l with [] => st | _ => OTHERS_MULTIPLE end
  end.
Proof.
  induction l as [| [r now] l IH]; intros c; cbn [other_run replied existsb fst].
  - by destruct (other_st c).
  - rewrite IH. unfold other_conn_update. fold (replied l).
    destruct (other_st c), r; cbn [snd other_st orb]; destruct (replied l), l; done.
Qed.

(** The trackers of ICMP and of other protocols record directions exactly: a connection is
    bidirectional if and only if some packet was a reply, and one of another protocol is in the
    state of its first packet only before any other packet, whatever the packets and times. *)
Theorem directions_exact ct l t0 id :
  icmp_st (icmp_run ct l (icmp_new_conn ct t0 id)) = (if replied l then ICMPS_REPLY else ICMPS_FIRST) /\
  other_st (other_run ct l (other_new_conn ct t0 id)) =
    (if replied l then OTHERS_BIDIR else match l with [] => OTHERS_FIRST | _ => OTHERS_MULTIPLE end).
Proof. by rewrite icmp_run_state, other_run_state. Qed.

(** Timeouts of more than 49 days overflow. *)
Lemma long_timeout_overflows ct c now :
  tp_value ct (tp_id c) CT_TM_TCP_ESTABLISHED = 4294968 -> cleaned c = false ->
  expiration (conn_update_expiration ct CT_TM_TCP_ESTABLISHED now c) = now + 704.
Proof.
  intros Hv Hc. unfold conn_update_expiration, conn_update_expiration__. rewrite Hc, Hv. reflexivity.
Qed.

End Conntrack.
