(* ===== verification/ConntrackTcp.v ===== *)
(** Connection tracking of TCP (lib/conntrack-tcp.c): the state machine of the two peers,
    sequence and window checking; its data stays within its types and its states only
    advance. *)
From stdpp Require Import gmap.
From S2P Require Import Prelude Conntrack.

Module ConntrackTcp.
Import Conntrack.

(** ** Data *)

(** [enum ct_dpif_tcp_state], in order. *)
Inductive tcp_state :=
  | CLOSED | LISTEN | SYN_SENT | SYN_RECV | ESTABLISHED | CLOSE_WAIT | FIN_WAIT_1 | CLOSING
  | LAST_ACK | FIN_WAIT_2 | TIME_WAIT.

Definition state_val (s : tcp_state) : Z :=
  match s with
  | CLOSED => 0 | LISTEN => 1 | SYN_SENT => 2 | SYN_RECV => 3 | ESTABLISHED => 4
  | CLOSE_WAIT => 5 | FIN_WAIT_1 => 6 | CLOSING => 7 | LAST_ACK => 8 | FIN_WAIT_2 => 9
  | TIME_WAIT => 10
  end.
Coercion state_val : tcp_state >-> Z.

Record tcp_peer := mk_peer { seqlo : Z; seqhi : Z; max_win : Z; wscale : Z; state : tcp_state }.

#[export] Instance tcp_peer_eta : RecordEta tcp_peer := λ r,
  mk_peer (seqlo r) (seqhi r) (max_win r) (wscale r) (state r).

Record conn_tcp := mk_tcp { up : conn; peer0 : tcp_peer; peer1 : tcp_peer }.

#[export] Instance conn_tcp_eta : RecordEta conn_tcp := λ r, mk_tcp (up r) (peer0 r) (peer1 r).

(** The L4 header and payload of a packet, in network byte order, without link-layer padding. *)
Definition segment := list Z.

Definition be_at (o n : nat) (b : segment) : Z := be_val (bytes_at o n b).

Definition tcp_seq (b : segment) : Z := be_at 4 4 b.
Definition tcp_ack (b : segment) : Z := be_at 8 4 b.
Definition tcp_ctl (b : segment) : Z := be_at 12 2 b.
Definition tcp_winsz (b : segment) : Z := be_at 14 2 b.

Definition TCP_FIN : Z := 0x001.
Definition TCP_SYN : Z := 0x002.
Definition TCP_RST : Z := 0x004.
Definition TCP_PSH : Z := 0x008.
Definition TCP_ACK : Z := 0x010.
Definition TCP_URG : Z := 0x020.

Definition TCP_FLAGS (ctl : Z) : Z := Z.land ctl 0x0fff.
Definition TCP_OFFSET (ctl : Z) : Z := Z.shiftr ctl 12.
Definition TCP_HEADER_LEN : Z := 20.

(** [flags & mask], as a truth value. *)
Definition has (flags mask : Z) : bool := negb (Z.land flags mask =? 0).

(** [dp_packet_get_tcp_payload] and [tcp_payload_length]. *)
Definition tcp_payload_length (b : segment) : Z :=
  let l4_size := Z.of_nat (length b) in
  let tcp_len := TCP_OFFSET (tcp_ctl b) * 4 in
  if (TCP_HEADER_LEN <=? l4_size) && (TCP_HEADER_LEN <=? tcp_len) && (tcp_len <=? l4_size)
  then l4_size - tcp_len else 0.

(** ** Sequence numbers *)

Definition SEQ_GT (a b : Z) : bool := 0 <? s32 (a - b).
Definition SEQ_GEQ (a b : Z) : bool := 0 <=? s32 (a - b).

(** ** Checks on packets *)

Definition tcp_invalid_flags (flags : Z) : bool :=
  if has flags TCP_SYN && (has flags TCP_RST || has flags TCP_FIN) then true
  else if negb (has flags TCP_SYN) && negb (has flags (Z.lor TCP_ACK TCP_RST)) then true
  else negb (has flags TCP_ACK) && (has flags TCP_FIN || has flags TCP_PSH || has flags TCP_URG).

Definition TCPOPT_EOL : Z := 0.
Definition TCPOPT_NOP : Z := 1.
Definition TCPOPT_WINDOW : Z := 3.
Definition TCP_MAX_WSCALE : Z := 14.
Definition CT_WSCALE_FLAG : Z := 0x80.
Definition CT_WSCALE_UNKNOWN : Z := 0x40.
Definition CT_WSCALE_MASK : Z := 0xf.

(** The loop over the options; each round takes at least one of [len] bytes. *)
Fixpoint wscale_loop (fuel : nat) (len : Z) (opt : list Z) (wscale : Z) : Z :=
  match fuel with
  | O => wscale
  | S fuel =>
      if len <? 3 then wscale
      else
        let kind := opt !!! 0%nat in
        if kind =? TCPOPT_EOL then wscale
        else if kind =? TCPOPT_NOP then wscale_loop fuel (len - 1) (drop 1 opt) wscale
        else
          let wscale :=
            if kind =? TCPOPT_WINDOW
            then Z.lor (Z.min (opt !!! 2%nat) TCP_MAX_WSCALE) CT_WSCALE_FLAG else wscale in
          let optlen := opt !!! 1%nat in
          let optlen := if optlen <? 2 then 2 else optlen in
          wscale_loop fuel (len - optlen) (drop (Z.to_nat optlen) opt) wscale
  end.

(** The options take at most 40 bytes; the caller has checked that the header fits the packet. *)
Definition tcp_get_wscale (b : segment) : Z :=
  wscale_loop 64 (TCP_OFFSET (tcp_ctl b) * 4 - TCP_HEADER_LEN) (drop 20 b) 0.

Definition DIV_ROUND_UP (x y : Z) : Z := (x + y - 1) / y.
Definition MAXACKWINDOW : Z := 0xffff + 1500.

Definition tcp_bypass_seq_chk (ct : conntrack) : bool := negb (tcp_seq_chk ct).

(** ** Updates *)

(** The local variables of [tcp_conn_update] that its steps share. *)
Record vars := mk_vars {
  src : tcp_peer; dst : tcp_peer; win : Z; sws : Z; dws : Z; check_ackskew : bool;
}.

#[export] Instance vars_eta : RecordEta vars := λ r,
  mk_vars (src r) (dst r) (win r) (sws r) (dws r) (check_ackskew r).

(** The window scales in use. *)
Definition tcp_scales (src dst : tcp_peer) (flags : Z) : Z * Z :=
  if has (wscale src) CT_WSCALE_FLAG && has (wscale dst) CT_WSCALE_FLAG && negb (has flags TCP_SYN)
  then (Z.land (wscale src) CT_WSCALE_MASK, Z.land (wscale dst) CT_WSCALE_MASK)
  else if has (wscale src) CT_WSCALE_UNKNOWN && has (wscale dst) CT_WSCALE_UNKNOWN
          && negb (has flags TCP_SYN)
  then (TCP_MAX_WSCALE, TCP_MAX_WSCALE)
  else (0, 0).

(** The sequence number after the packet. *)
Definition tcp_end (flags seq p_len : Z) : Z :=
  u32 (seq + p_len + (if has flags TCP_SYN then 1 else 0) + (if has flags TCP_FIN then 1 else 0)).

(** The window scale option of a first SYN of [src]. *)
Definition tcp_first_scale (b : segment) (flags : Z) (v : vars) : vars :=
  if has flags TCP_SYN && has (wscale (dst v)) CT_WSCALE_FLAG then
    let v := v <| src ::= λ s, s <| wscale := tcp_get_wscale b |> |> in
    if has (wscale (src v)) CT_WSCALE_FLAG then
      let sws' := Z.land (wscale (src v)) CT_WSCALE_MASK in
      v <| sws := sws' |> <| win := DIV_ROUND_UP (win v) (Z.shiftl 1 sws') |>
        <| dws := Z.land (wscale (dst v)) CT_WSCALE_MASK |>
    else
      v <| dst ::= λ d, d <| max_win := u16 (Z.shiftl (max_win d) (Z.land (wscale d) CT_WSCALE_MASK)) |>
                          <| wscale := 0 |> |>
  else v.

(** The first packet from [src]. *)
Definition tcp_first_packet (b : segment) (flags seq end_ : Z) (v : vars) : vars :=
  let v := tcp_first_scale b flags v in
  let v := v <| src ::= λ s, s <| seqlo := seq |> <| state := SYN_SENT |> |> in
  let hi := u32 (end_ + Z.max 1 (Z.shiftl (max_win (dst v)) (dws v))) in
  let v :=
    if (seqhi (src v) =? 1) || SEQ_GEQ hi (seqhi (src v)) then
      v <| src ::= λ s, s <| seqhi := hi |> |> <| check_ackskew := false |>
    else v in
  if max_win (src v) <? win v then v <| src ::= λ s, s <| max_win := win v |> |> else v.

(** Inside the window of the connection. *)
Definition tcp_in_window (flags seq orig_seq end_ ack : Z) (v : vars) : bool :=
  let ackskew := if check_ackskew v then s32 (seqlo (dst v) - ack) else 0 in
  SEQ_GEQ (seqhi (src v)) end_
  && SEQ_GEQ seq (u32 (seqlo (src v) - Z.shiftl (max_win (dst v)) (dws v)))
  && (- MAXACKWINDOW <=? ackskew)
  && (ackskew <=? Z.shiftl MAXACKWINDOW (sws v))
  && (negb (has flags TCP_RST) || (orig_seq =? seqlo (src v))
      || (orig_seq =? u32 (seqlo (src v) + 1)) || (u32 (orig_seq + 1) =? seqlo (src v))).

(** Near the window, while the connection is opened or closed. *)
Definition tcp_near_window (seq end_ : Z) (v : vars) : bool :=
  ((state (dst v) <? SYN_SENT) || (FIN_WAIT_2 <=? state (dst v)) || (FIN_WAIT_2 <=? state (src v)))
  && SEQ_GEQ (u32 (seqhi (src v) + MAXACKWINDOW)) end_
  && SEQ_GEQ seq (u32 (seqlo (src v) - MAXACKWINDOW)).

(** Windows and sequence numbers after an accepted packet. *)
Definition tcp_slide (end_ ack : Z) (v : vars) : vars :=
  let v := if max_win (src v) <? win v then v <| src ::= λ s, s <| max_win := win v |> |> else v in
  let v := if SEQ_GT end_ (seqlo (src v)) then v <| src ::= λ s, s <| seqlo := end_ |> |> else v in
  if SEQ_GEQ (u32 (ack + Z.shiftl (win v) (sws v))) (seqhi (dst v)) then
    v <| dst ::= λ d, d <| seqhi := u32 (ack + Z.max (Z.shiftl (win v) (sws v)) 1) |> |>
  else v.

(** States after a packet inside the window. *)
Definition tcp_next_states (flags : Z) (v : vars) : vars :=
  let v :=
    if has flags TCP_SYN && (state (src v) <? SYN_SENT)
    then v <| src ::= λ s, s <| state := SYN_SENT |> |> else v in
  let v :=
    if has flags TCP_FIN && (state (src v) <? CLOSING)
    then v <| src ::= λ s, s <| state := CLOSING |> |> else v in
  let v :=
    if has flags TCP_ACK then
      if state (dst v) =? SYN_SENT then v <| dst ::= λ d, d <| state := ESTABLISHED |> |>
      else if state (dst v) =? CLOSING then v <| dst ::= λ d, d <| state := FIN_WAIT_2 |> |>
      else v
    else v in
  if has flags TCP_RST then
    v <| src ::= λ s, s <| state := TIME_WAIT |> |> <| dst ::= λ d, d <| state := TIME_WAIT |> |>
  else v.

(** States after a packet near the window. *)
Definition tcp_near_states (flags : Z) (v : vars) : vars :=
  let v :=
    if has flags TCP_FIN && (state (src v) <? CLOSING)
    then v <| src ::= λ s, s <| state := CLOSING |> |> else v in
  if has flags TCP_RST then
    v <| src ::= λ s, s <| state := TIME_WAIT |> |> <| dst ::= λ d, d <| state := TIME_WAIT |> |>
  else v.

(** The timeout that the states of the peers call for. *)
Definition tcp_timeout (src dst : tcp_state) : ct_timeout :=
  if (FIN_WAIT_2 <=? src) && (FIN_WAIT_2 <=? dst) then CT_TM_TCP_CLOSED
  else if (CLOSING <=? src) && (CLOSING <=? dst) then CT_TM_TCP_FIN_WAIT
  else if (src <? ESTABLISHED) || (dst <? ESTABLISHED) then CT_TM_TCP_OPENING
  else if (CLOSING <=? src) || (CLOSING <=? dst) then CT_TM_TCP_CLOSING
  else CT_TM_TCP_ESTABLISHED.

Definition get_src (reply : bool) (c : conn_tcp) : tcp_peer := if reply then peer1 c else peer0 c.
Definition get_dst (reply : bool) (c : conn_tcp) : tcp_peer := if reply then peer0 c else peer1 c.

(** The peers written back through their pointers. *)
Definition put_peers (reply : bool) (src dst : tcp_peer) (c : conn_tcp) : conn_tcp :=
  if reply then c <| peer1 := src |> <| peer0 := dst |> else c <| peer0 := src |> <| peer1 := dst |>.

(** Everything after the handling of a plain SYN. *)
Definition tcp_track (ct : conntrack) (b : segment) (reply : bool) (now : Z) (c : conn_tcp)
  : ct_update_res * conn_tcp :=
  let flags := TCP_FLAGS (tcp_ctl b) in
  let '(sws0, dws0) := tcp_scales (get_src reply c) (get_dst reply c) flags in
  let v := mk_vars (get_src reply c) (get_dst reply c) (tcp_winsz b) sws0 dws0 true in
  let orig_seq := tcp_seq b in
  let end_ := tcp_end flags orig_seq (tcp_payload_length b) in
  let v := if state (src v) <? SYN_SENT then tcp_first_packet b flags orig_seq end_ v else v in
  let ack :=
    if negb (has flags TCP_ACK) then seqlo (dst v)
    else if (tcp_ack b =? 0)
            && (Z.land flags (Z.lor TCP_ACK TCP_RST) =? Z.lor TCP_ACK TCP_RST) then seqlo (dst v)
    else tcp_ack b in
  let '(seq, end_) := if orig_seq =? end_ then (seqlo (src v), seqlo (src v)) else (orig_seq, end_) in
  if tcp_in_window flags seq orig_seq end_ ack v || tcp_bypass_seq_chk ct then
    let v := tcp_next_states flags (tcp_slide end_ ack v) in
    let c := put_peers reply (src v) (dst v) c in
    (CT_UPDATE_VALID,
     c <| up ::= conn_update_expiration ct (tcp_timeout (state (src v)) (state (dst v))) now |>)
  else if tcp_near_window seq end_ v then
    let v := tcp_near_states flags (tcp_slide end_ ack v) in
    (CT_UPDATE_VALID, put_peers reply (src v) (dst v) c)
  else (CT_UPDATE_INVALID, put_peers reply (src v) (dst v) c).

Definition tcp_conn_update (ct : conntrack) (b : segment) (reply : bool) (now : Z) (c : conn_tcp)
  : ct_update_res * conn_tcp :=
  let flags := TCP_FLAGS (tcp_ctl b) in
  let src := get_src reply c in
  let dst := get_dst reply c in
  if tcp_invalid_flags flags then (CT_UPDATE_INVALID, c)
  else if Z.land flags (Z.lor TCP_SYN TCP_ACK) =? TCP_SYN then
    if (FIN_WAIT_2 <=? state dst) && (FIN_WAIT_2 <=? state src) then
      (CT_UPDATE_NEW, put_peers reply (src <| state := CLOSED |>) (dst <| state := CLOSED |>) c)
    else if state src <=? SYN_SENT then
      let c := put_peers reply (src <| state := SYN_SENT |>) dst c in
      (CT_UPDATE_VALID_NEW, c <| up ::= conn_update_expiration ct CT_TM_TCP_FIRST_PACKET now |>)
    else tcp_track ct b reply now c
  else tcp_track ct b reply now c.

(** ** New connections *)

Definition tcp_valid_new (b : segment) : bool :=
  let flags := TCP_FLAGS (tcp_ctl b) in
  if tcp_invalid_flags flags then false
  else negb (has flags TCP_SYN && has flags TCP_ACK).

Definition tcp_new_conn (ct : conntrack) (b : segment) (now id : Z) : conn_tcp :=
  let flags := TCP_FLAGS (tcp_ctl b) in
  let lo := tcp_seq b in
  let hi := u32 (lo + tcp_payload_length b + 1 + (if has flags TCP_SYN then 1 else 0)
                 + (if has flags TCP_FIN then 1 else 0)) in
  let ws := if has flags TCP_SYN then tcp_get_wscale b else CT_WSCALE_UNKNOWN in
  let dst_ws := if has flags TCP_SYN then 0 else CT_WSCALE_UNKNOWN in
  let mw := Z.max (tcp_winsz b) 1 in
  let mw :=
    if has ws CT_WSCALE_MASK then DIV_ROUND_UP mw (Z.shiftl 1 (Z.land ws CT_WSCALE_MASK)) else mw in
  mk_tcp (conn_init_expiration ct CT_TM_TCP_FIRST_PACKET now (new_conn id))
    (mk_peer lo hi mw ws SYN_SENT) (mk_peer 0 1 1 dst_ws CLOSED).

(** ** Protocol information *)

Definition CT_DPIF_TCPF_WINDOW_SCALE : Z := 1.
Definition CT_DPIF_TCPF_BE_LIBERAL : Z := 8.

Definition tcp_peer_to_protoinfo_flags (p : tcp_peer) : Z :=
  Z.lor (if has (wscale p) CT_WSCALE_FLAG then CT_DPIF_TCPF_WINDOW_SCALE else 0)
        (if has (wscale p) CT_WSCALE_UNKNOWN then CT_DPIF_TCPF_BE_LIBERAL else 0).

Record protoinfo := mk_info {
  state_orig : tcp_state; state_reply : tcp_state; wscale_orig : Z; wscale_reply : Z;
  flags_orig : Z; flags_reply : Z;
}.

Definition tcp_conn_get_protoinfo (c : conn_tcp) : protoinfo := {|
  state_orig := state (peer0 c); state_reply := state (peer1 c);
  wscale_orig := Z.land (wscale (peer0 c)) CT_WSCALE_MASK;
  wscale_reply := Z.land (wscale (peer1 c)) CT_WSCALE_MASK;
  flags_orig := tcp_peer_to_protoinfo_flags (peer0 c);
  flags_reply := tcp_peer_to_protoinfo_flags (peer1 c);
|}.

(** ** Arithmetic of sequence numbers, windows and flags *)

Lemma s32_is x k : u32 x = u32 k -> - 2 ^ 31 <= k < 2 ^ 31 -> s32 x = k.
Proof.
  unfold wrap, swrap. intros E Hk.
  rewrite <- (Z.add_mod_idemp_l x) by lia. rewrite E, Z.add_mod_idemp_l by lia.
  rewrite Z.mod_small; lia.
Qed.

(** Congruence modulo 2^32 of expressions built from [u32], [+] and [-]. *)
Ltac cong32 := unfold wrap; Z.to_euclidean_division_equations; lia.

Lemma seq_geq_true a b k : 0 <= k < 2 ^ 31 -> u32 (a - b) = u32 k -> SEQ_GEQ a b = true.
Proof. unfold SEQ_GEQ. intros Hk E. rewrite (s32_is _ k E); lia. Qed.

Lemma seq_gt_true a b k : 0 < k < 2 ^ 31 -> u32 (a - b) = u32 k -> SEQ_GT a b = true.
Proof. unfold SEQ_GT. intros Hk E. rewrite (s32_is _ k E); lia. Qed.

Lemma seq_gt_false a b k : - 2 ^ 31 <= k <= 0 -> u32 (a - b) = u32 k -> SEQ_GT a b = false.
Proof. unfold SEQ_GT. intros Hk E. rewrite (s32_is _ k E); lia. Qed.

Lemma scale_range w k : in_u 16 w -> 0 <= k <= 14 -> 0 <= w <= Z.shiftl w k /\ Z.shiftl w k < 2 ^ 30.
Proof.
  unfold in_u. intros Hw Hk. rewrite Z.shiftl_mul_pow2 by lia.
  assert (1 <= 2 ^ k <= 2 ^ 14).
  { split; [| apply Z.pow_le_mono_r; lia]. change 1 with (2 ^ 0). apply Z.pow_le_mono_r; lia. }
  change (2 ^ 14) with 16384 in *. change (2 ^ 16) with 65536 in *. nia.
Qed.

Lemma unscale_range w k : in_u 16 w -> 0 <= k -> in_u 16 (DIV_ROUND_UP w (Z.shiftl 1 k)).
Proof.
  unfold in_u, DIV_ROUND_UP. intros Hw Hk. rewrite Z.shiftl_mul_pow2, Z.mul_1_l by lia.
  assert (1 <= 2 ^ k) by (change 1 with (2 ^ 0); apply Z.pow_le_mono_r; lia).
  split; [apply Z.div_pos; lia |].
  apply Z.div_lt_upper_bound; [lia |]. change (2 ^ 16) with 65536 in *. nia.
Qed.

(** ** Well-formed peers *)

Definition bytes_ok (b : segment) : Prop := Forall (in_u 8) b.

(** A window scale: none, unknown, or announced and at most 14. *)
Definition wscale_ok (w : Z) : Prop := w = 0 \/ w = CT_WSCALE_UNKNOWN \/ CT_WSCALE_FLAG <= w <= CT_WSCALE_FLAG + TCP_MAX_WSCALE.

(** The states that the tracker uses. *)
Definition used_state (s : tcp_state) : Prop :=
  s = CLOSED \/ s = SYN_SENT \/ s = ESTABLISHED \/ s = CLOSING \/ s = FIN_WAIT_2 \/ s = TIME_WAIT.

Record peer_ok (p : tcp_peer) : Prop := mk_peer_ok {
  seqlo_ok : in_u 32 (seqlo p);
  seqhi_ok : in_u 32 (seqhi p);
  max_win_ok : in_u 16 (max_win p);
  scale_ok : wscale_ok (wscale p);
  state_ok : used_state (state p);
}.

Definition tcp_ok (c : conn_tcp) : Prop := peer_ok (peer0 c) /\ peer_ok (peer1 c).

Lemma scale_of_flag w :
  CT_WSCALE_FLAG <= w <= CT_WSCALE_FLAG + TCP_MAX_WSCALE ->
  has w CT_WSCALE_FLAG = true /\ has w CT_WSCALE_UNKNOWN = false
  /\ Z.land w CT_WSCALE_MASK = w - CT_WSCALE_FLAG.
Proof.
  unfold CT_WSCALE_FLAG, TCP_MAX_WSCALE. intros H.
  assert (forallb (λ k, has (128 + Z.of_nat k) 128 && negb (has (128 + Z.of_nat k) 64)
            && (Z.land (128 + Z.of_nat k) 15 =? Z.of_nat k)) (seq 0 15) = true) as F by reflexivity.
  rewrite forallb_forall in F. specialize (F (Z.to_nat (w - 128))).
  rewrite in_seq in F. specialize (F ltac:(lia)).
  rewrite Z2Nat.id in F by lia. replace (128 + (w - 128)) with w in F by lia.
  apply andb_true_iff in F as [[F1 F2%negb_true_iff]%andb_true_iff F3]. repeat split; try done. by apply Z.eqb_eq.
Qed.

Lemma mask_range w : wscale_ok w -> 0 <= Z.land w CT_WSCALE_MASK <= 14.
Proof.
  intros [-> | [-> | H]]; try done. destruct (scale_of_flag w H) as (_ & _ & ->).
  unfold CT_WSCALE_FLAG, TCP_MAX_WSCALE in H. unfold CT_WSCALE_FLAG. lia.
Qed.

Lemma min_flag o : 0 <= o ->
  CT_WSCALE_FLAG <= Z.lor (Z.min o TCP_MAX_WSCALE) CT_WSCALE_FLAG <= CT_WSCALE_FLAG + TCP_MAX_WSCALE.
Proof.
  unfold CT_WSCALE_FLAG, TCP_MAX_WSCALE. intros H.
  assert (forallb (λ k, Z.lor (Z.of_nat k) 128 =? 128 + Z.of_nat k) (seq 0 15) = true) as F by reflexivity.
  rewrite forallb_forall in F. specialize (F (Z.to_nat (Z.min o 14))).
  rewrite in_seq in F. specialize (F ltac:(lia)). rewrite Z2Nat.id in F by lia. lia.
Qed.

Lemma byte_at (b : list Z) (i : nat) : bytes_ok b -> 0 <= b !!! i.
Proof.
  intros H. rewrite list_lookup_total_alt. destruct (b !! i) eqn:E; [| done].
  cbn. eapply Forall_lookup_1 in H; [| exact E]. unfold in_u in H. lia.
Qed.

Lemma wscale_loop_ok fuel : forall len opt w,
  bytes_ok opt -> (w = 0 \/ CT_WSCALE_FLAG <= w <= CT_WSCALE_FLAG + TCP_MAX_WSCALE) ->
  let w' := wscale_loop fuel len opt w in
  w' = 0 \/ CT_WSCALE_FLAG <= w' <= CT_WSCALE_FLAG + TCP_MAX_WSCALE.
Proof.
  induction fuel as [| fuel IH]; intros len opt w Hb Hw; cbn [wscale_loop]; [done |].
  destruct (_ <? 3); [done |]. destruct (_ =? TCPOPT_EOL); [done |].
  assert (forall n, bytes_ok (drop n opt)) by (intros n; by apply Forall_drop).
  destruct (_ =? TCPOPT_NOP); [by apply IH |].
  apply IH; [done |]. destruct (_ =? TCPOPT_WINDOW); [| done].
  right. apply min_flag. by apply byte_at.
Qed.

(** The loop ends by its own condition: more fuel than [len] does not matter. *)
Lemma wscale_loop_fuel fuel : forall k len opt w,
  len <= Z.of_nat fuel + 2 -> wscale_loop (fuel + k) len opt w = wscale_loop fuel len opt w.
Proof.
  induction fuel as [| fuel IH]; intros k len opt w Hlen.
  - destruct k; [done |]. cbn [Nat.add wscale_loop]. by replace (len <? 3) with true by lia.
  - cbn [Nat.add wscale_loop]. destruct (_ <? 3); [done |]. destruct (_ =? TCPOPT_EOL); [done |].
    destruct (_ =? TCPOPT_NOP); [apply IH; lia |]. apply IH. destruct (_ <? 2) eqn:E; lia.
Qed.

Lemma be_at_range o n b : bytes_ok b -> in_u (8 * Z.of_nat n) (be_at o n b).
Proof.
  intros H. unfold be_at, bytes_at, in_u.
  pose proof (be_val_range (take n (drop o b)) ltac:(by apply Forall_take, Forall_drop)) as [H0 H1].
  split; [done |]. eapply Z.lt_le_trans; [exact H1 |].
  apply Z.pow_le_mono_r; [lia |]. rewrite length_take. lia.
Qed.

Lemma get_wscale_ok b : bytes_ok b ->
  tcp_get_wscale b = 0
  \/ CT_WSCALE_FLAG <= tcp_get_wscale b <= CT_WSCALE_FLAG + TCP_MAX_WSCALE.
Proof. intros H. apply wscale_loop_ok; [by apply Forall_drop | by left]. Qed.

(** ** The invariant *)

Record vars_ok (v : vars) : Prop := mk_vars_ok {
  src_ok : peer_ok (src v);
  dst_ok : peer_ok (dst v);
  win_ok : in_u 16 (win v);
  sws_ok : 0 <= sws v <= 14;
  dws_ok : 0 <= dws v <= 14;
}.

Lemma ok_seqlo p x : peer_ok p -> in_u 32 x -> peer_ok (p <| seqlo := x |>).
Proof. by intros []. Qed.

Lemma ok_seqhi p x : peer_ok p -> in_u 32 x -> peer_ok (p <| seqhi := x |>).
Proof. by intros []. Qed.

Lemma ok_max_win p x : peer_ok p -> in_u 16 x -> peer_ok (p <| max_win := x |>).
Proof. by intros []. Qed.

Lemma ok_wscale p x : peer_ok p -> wscale_ok x -> peer_ok (p <| wscale := x |>).
Proof. by intros []. Qed.

Lemma ok_state p s : peer_ok p -> used_state s -> peer_ok (p <| state := s |>).
Proof. by intros []. Qed.

Lemma ok_src v p : vars_ok v -> peer_ok p -> vars_ok (v <| src := p |>).
Proof. by intros []. Qed.

Lemma ok_dst v p : vars_ok v -> peer_ok p -> vars_ok (v <| dst := p |>).
Proof. by intros []. Qed.

Lemma ok_check v x : vars_ok v -> vars_ok (v <| check_ackskew := x |>).
Proof. by intros []. Qed.

Lemma u32_ok x : in_u 32 (u32 x).
Proof. by apply wrap_range. Qed.

Lemma u16_ok x : in_u 16 (u16 x).
Proof. by apply wrap_range. Qed.

Lemma used_lit :
  used_state CLOSED /\ used_state SYN_SENT /\ used_state ESTABLISHED /\ used_state CLOSING
  /\ used_state FIN_WAIT_2 /\ used_state TIME_WAIT.
Proof. unfold used_state. tauto. Qed.

Create HintDb tcp.
#[export] Hint Resolve ok_seqlo ok_seqhi ok_max_win ok_wscale ok_state ok_src ok_dst ok_check u32_ok
  u16_ok src_ok dst_ok win_ok : tcp.
#[export] Hint Extern 1 (used_state _) => apply used_lit : tcp.
#[export] Hint Extern 1 (wscale_ok 0) => left : tcp.

(** The functional updates of the peers are updates by a value. *)
Lemma src_upd v g : v <| src ::= g |> = v <| src := g (src v) |>.
Proof. done. Qed.

Lemma dst_upd v g : v <| dst ::= g |> = v <| dst := g (dst v) |>.
Proof. done. Qed.

Ltac tcp_auto := rewrite ?src_upd, ?dst_upd; cbv beta; eauto 12 with tcp.

Lemma scales_ok s d flags :
  peer_ok s -> peer_ok d ->
  0 <= (tcp_scales s d flags).1 <= 14 /\ 0 <= (tcp_scales s d flags).2 <= 14.
Proof.
  intros Hs Hd. pose proof (mask_range _ (scale_ok _ Hs)). pose proof (mask_range _ (scale_ok _ Hd)).
  unfold tcp_scales, TCP_MAX_WSCALE. repeat case_match; cbn; lia.
Qed.

Lemma first_scale_ok b flags v : bytes_ok b -> vars_ok v -> vars_ok (tcp_first_scale b flags v).
Proof.
  intros Hb Hv. unfold tcp_first_scale. destruct (_ && _); [| done].
  assert (wscale_ok (tcp_get_wscale b)) as Hw by (destruct (get_wscale_ok b Hb); unfold wscale_ok; tauto).
  pose proof (mask_range _ Hw). pose proof (mask_range _ (scale_ok _ (dst_ok _ Hv))).
  destruct (has _ _); [| tcp_auto].
  destruct Hv as [H1 H2 H3 H4 H5]. split; rsimpl; auto with tcp.
  apply unscale_range; [done | lia].
Qed.

Lemma first_packet_ok b flags seq end_ v :
  bytes_ok b -> in_u 32 seq -> vars_ok v -> vars_ok (tcp_first_packet b flags seq end_ v).
Proof.
  intros Hb Hs Hv. unfold tcp_first_packet.
  apply (first_scale_ok b flags) in Hv; [| done]. set (v1 := tcp_first_scale b flags v) in *.
  cbv zeta. set (v2 := v1 <| src ::= _ |>). assert (vars_ok v2) as H2 by (unfold v2; tcp_auto).
  match goal with |- context [if ?b then ?x else v2] => set (v3 := if b then x else v2) end.
  assert (vars_ok v3) as H3 by (unfold v3; case_match; tcp_auto).
  case_match; tcp_auto.
Qed.

Lemma slide_ok end_ ack v : in_u 32 end_ -> vars_ok v -> vars_ok (tcp_slide end_ ack v).
Proof.
  intros He Hv. unfold tcp_slide.
  match goal with |- context [if ?b then ?x else v] => set (v1 := if b then x else v) end.
  assert (vars_ok v1) as H1 by (unfold v1; case_match; tcp_auto).
  match goal with |- context [if ?b then ?x else v1] => set (v2 := if b then x else v1) end.
  assert (vars_ok v2) as H2 by (unfold v2; case_match; tcp_auto).
  case_match; tcp_auto.
Qed.

(** What the steps that set states do to a pair of states. *)
Definition next_pair (flags : Z) (s d : tcp_state) : tcp_state * tcp_state :=
  let s := if has flags TCP_SYN && (s <? SYN_SENT) then SYN_SENT else s in
  let s := if has flags TCP_FIN && (s <? CLOSING) then CLOSING else s in
  let d := if has flags TCP_ACK then
             if d =? SYN_SENT then ESTABLISHED else if d =? CLOSING then FIN_WAIT_2 else d
           else d in
  if has flags TCP_RST then (TIME_WAIT, TIME_WAIT) else (s, d).

Definition near_pair (flags : Z) (s d : tcp_state) : tcp_state * tcp_state :=
  let s := if has flags TCP_FIN && (s <? CLOSING) then CLOSING else s in
  if has flags TCP_RST then (TIME_WAIT, TIME_WAIT) else (s, d).

Definition with_states (p : tcp_state * tcp_state) (v : vars) : vars :=
  v <| src ::= λ s, s <| state := p.1 |> |> <| dst ::= λ d, d <| state := p.2 |> |>.

Lemma next_states_pair flags v :
  tcp_next_states flags v = with_states (next_pair flags (state (src v)) (state (dst v))) v.
Proof.
  destruct v as [[a b c d s] [a' b' c' d' s'] w sw dw ck]. unfold tcp_next_states, next_pair. cbn.
  destruct (has flags TCP_SYN), (has flags TCP_FIN), (has flags TCP_ACK), (has flags TCP_RST);
    destruct s; destruct s'; reflexivity.
Qed.

Lemma near_states_pair flags v :
  tcp_near_states flags v = with_states (near_pair flags (state (src v)) (state (dst v))) v.
Proof.
  destruct v as [[a b c d s] [a' b' c' d' s'] w sw dw ck]. unfold tcp_near_states, near_pair. cbn.
  destruct (has flags TCP_FIN), (has flags TCP_RST); destruct s; reflexivity.
Qed.

(** States are used ones and advance. *)
Definition advances (s d : tcp_state) (p : tcp_state * tcp_state) : Prop :=
  s <= p.1 /\ d <= p.2 /\ (used_state s -> used_state p.1) /\ (used_state d -> used_state p.2).

Lemma next_pair_advances flags s d : advances s d (next_pair flags s d).
Proof.
  unfold advances, next_pair, used_state.
  destruct (has flags TCP_SYN), (has flags TCP_FIN), (has flags TCP_ACK), (has flags TCP_RST);
    destruct s, d; cbn; repeat split; auto 10; lia.
Qed.

Lemma near_pair_advances flags s d : advances s d (near_pair flags s d).
Proof.
  unfold advances, near_pair, used_state.
  destruct (has flags TCP_FIN), (has flags TCP_RST); destruct s, d; cbn; repeat split; auto 10; lia.
Qed.

Lemma with_states_ok p v :
  vars_ok v -> advances (state (src v)) (state (dst v)) p -> vars_ok (with_states p v).
Proof.
  intros Hv (_ & _ & Hs & Hd). unfold with_states.
  specialize (Hs (state_ok _ (src_ok _ Hv))). specialize (Hd (state_ok _ (dst_ok _ Hv))). tcp_auto.
Qed.

(** The local variables when the packet is judged, and what was computed from it. *)
Definition track_vars (b : segment) (reply : bool) (c : conn_tcp) : vars :=
  let flags := TCP_FLAGS (tcp_ctl b) in
  let sc := tcp_scales (get_src reply c) (get_dst reply c) flags in
  let v := mk_vars (get_src reply c) (get_dst reply c) (tcp_winsz b) sc.1 sc.2 true in
  if state (src v) <? SYN_SENT
  then tcp_first_packet b flags (tcp_seq b) (tcp_end flags (tcp_seq b) (tcp_payload_length b)) v
  else v.

Definition track_ack (b : segment) (v : vars) : Z :=
  let flags := TCP_FLAGS (tcp_ctl b) in
  if negb (has flags TCP_ACK) then seqlo (dst v)
  else if (tcp_ack b =? 0) && (Z.land flags (Z.lor TCP_ACK TCP_RST) =? Z.lor TCP_ACK TCP_RST)
  then seqlo (dst v) else tcp_ack b.

Definition track_range (b : segment) (v : vars) : Z * Z :=
  let end_ := tcp_end (TCP_FLAGS (tcp_ctl b)) (tcp_seq b) (tcp_payload_length b) in
  if tcp_seq b =? end_ then (seqlo (src v), seqlo (src v)) else (tcp_seq b, end_).

Lemma tcp_track_eq ct b reply now c :
  let flags := TCP_FLAGS (tcp_ctl b) in
  let v := track_vars b reply c in
  let r := track_range b v in
  let slid := tcp_slide r.2 (track_ack b v) v in
  tcp_track ct b reply now c =
  if tcp_in_window flags r.1 (tcp_seq b) r.2 (track_ack b v) v || tcp_bypass_seq_chk ct then
    let p := next_pair flags (state (src slid)) (state (dst slid)) in
    let v := with_states p slid in
    (CT_UPDATE_VALID,
     put_peers reply (src v) (dst v) c <| up ::= conn_update_expiration ct (tcp_timeout p.1 p.2) now |>)
  else if tcp_near_window r.1 r.2 v then
    let v := with_states (near_pair flags (state (src slid)) (state (dst slid))) slid in
    (CT_UPDATE_VALID, put_peers reply (src v) (dst v) c)
  else (CT_UPDATE_INVALID, put_peers reply (src v) (dst v) c).
Proof.
  cbv zeta. unfold tcp_track, track_vars, track_range, track_ack.
  destruct (tcp_scales _ _ _) as [sws0 dws0]. cbn [fst snd].
  set (v := if _ <? _ then _ else _). destruct (_ =? tcp_end _ _ _); cbn [fst snd];
    rewrite ?next_states_pair, ?near_states_pair; reflexivity.
Qed.

Lemma put_peers_ok reply s d c : peer_ok s -> peer_ok d -> tcp_ok (put_peers reply s d c).
Proof. by destruct reply. Qed.

Lemma get_ok reply c : tcp_ok c -> peer_ok (get_src reply c) /\ peer_ok (get_dst reply c).
Proof. intros []. by destruct reply. Qed.

Lemma track_vars_ok b reply c : bytes_ok b -> tcp_ok c -> vars_ok (track_vars b reply c).
Proof.
  intros Hb Hc. destruct (get_ok reply c Hc) as [Hs Hd].
  pose proof (scales_ok _ _ (TCP_FLAGS (tcp_ctl b)) Hs Hd) as [H1 H2].
  unfold track_vars. cbv zeta.
  set (v := mk_vars _ _ _ _ _ _).
  assert (vars_ok v) by (split; try done; apply (be_at_range 14 2 b Hb)).
  destruct (_ <? _); [| done]. apply first_packet_ok; [done | apply (be_at_range 4 4 b Hb) | done].
Qed.

Lemma track_range_ok b v : bytes_ok b -> vars_ok v -> in_u 32 (track_range b v).2.
Proof.
  intros Hb Hv. unfold track_range. destruct (_ =? _); cbn; [| apply u32_ok].
  apply (src_ok _ Hv).
Qed.

Lemma tcp_conn_update_ok ct b reply now c :
  bytes_ok b -> tcp_ok c -> tcp_ok (tcp_conn_update ct b reply now c).2.
Proof.
  intros Hb Hc. destruct (get_ok reply c Hc) as [Hs Hd].
  assert (tcp_ok (tcp_track ct b reply now c).2) as Ht.
  { rewrite tcp_track_eq. cbv zeta. pose proof (track_vars_ok b reply c Hb Hc) as Hv.
    set (v := track_vars b reply c) in *.
    pose proof (slide_ok _ (track_ack b v) _ (track_range_ok b v Hb Hv) Hv) as Hl.
    set (l := tcp_slide _ _ v) in *.
    pose proof (with_states_ok _ l Hl (next_pair_advances (TCP_FLAGS (tcp_ctl b)) _ _)) as H1.
    pose proof (with_states_ok _ l Hl (near_pair_advances (TCP_FLAGS (tcp_ctl b)) _ _)) as H2.
    destruct (_ || _); [| destruct (tcp_near_window _ _ _)]; cbn [snd].
    - apply (put_peers_ok reply _ _ c (src_ok _ H1) (dst_ok _ H1)).
    - apply (put_peers_ok reply _ _ c (src_ok _ H2) (dst_ok _ H2)).
    - apply (put_peers_ok reply _ _ c (src_ok _ Hv) (dst_ok _ Hv)). }
  unfold tcp_conn_update. cbv zeta. destruct (tcp_invalid_flags _); [done |].
  destruct (_ =? TCP_SYN); [| done]. destruct (_ && _); cbn [snd].
  - apply put_peers_ok; auto with tcp.
  - destruct (_ <=? _); [| done]. cbn [snd].
    apply (put_peers_ok reply _ _ c (ok_state _ SYN_SENT Hs ltac:(apply used_lit)) Hd).
Qed.

Lemma tcp_new_conn_ok ct b now id : bytes_ok b -> tcp_ok (tcp_new_conn ct b now id).
Proof.
  intros Hb. pose proof (be_at_range 14 2 b Hb : in_u 16 (tcp_winsz b)) as Hw.
  assert (in_u 16 (Z.max (tcp_winsz b) 1)) by (unfold in_u in *; lia).
  unfold tcp_new_conn. cbv zeta.
  split; split; cbn [peer0 peer1 seqlo seqhi max_win wscale state];
    try apply u32_ok; try apply used_lit; try (by unfold in_u).
  - apply (be_at_range 4 4 b Hb).
  - destruct (has _ CT_WSCALE_MASK); [| done]. apply unscale_range; [done |].
    destruct (has _ TCP_SYN); [| done]. destruct (get_wscale_ok b Hb) as [-> | H1]; [done |].
    apply mask_range. unfold wscale_ok. tauto.
  - unfold wscale_ok. destruct (has _ _); [destruct (get_wscale_ok b Hb); tauto | tauto].
  - unfold wscale_ok. destruct (has _ _); tauto.
Qed.

(** ** Histories *)

(** The connection after a sequence of packets. *)
Definition tcp_run (ct : conntrack) (c : conn_tcp) (l : list (segment * bool * Z)) : conn_tcp :=
  foldl (λ c '(b, reply, now), (tcp_conn_update ct b reply now c).2) c l.

(** A peer is established, or done, only once the other one was heard. *)
Definition answered (s d : tcp_state) : Prop :=
  s = ESTABLISHED \/ s = FIN_WAIT_2 \/ s = TIME_WAIT -> SYN_SENT <= d.

Definition tcp_inv (c : conn_tcp) : Prop :=
  tcp_ok c /\ answered (state (peer0 c)) (state (peer1 c)) /\ answered (state (peer1 c)) (state (peer0 c)).

Lemma next_pair_answered flags (s d : tcp_state) :
  SYN_SENT <= s -> answered s d ->
  answered (next_pair flags s d).1 (next_pair flags s d).2
  /\ answered (next_pair flags s d).2 (next_pair flags s d).1.
Proof.
  unfold next_pair, answered.
  destruct (has flags TCP_SYN), (has flags TCP_FIN), (has flags TCP_ACK), (has flags TCP_RST);
    destruct s, d; cbn; intros ? H; (split; intros; [|]); first [lia | apply H; tauto | intuition discriminate].
Qed.

Lemma near_pair_answered flags (s d : tcp_state) :
  SYN_SENT <= s -> answered s d -> answered d s ->
  answered (near_pair flags s d).1 (near_pair flags s d).2
  /\ answered (near_pair flags s d).2 (near_pair flags s d).1.
Proof.
  unfold near_pair, answered.
  destruct (has flags TCP_FIN), (has flags TCP_RST);
    destruct s, d; cbn; intros ? H ?; (split; intros; [|]); first [lia | apply H; tauto | intuition discriminate].
Qed.

Lemma first_scale_dst b flags v : state (dst (tcp_first_scale b flags v)) = state (dst v).
Proof. unfold tcp_first_scale. destruct (_ && _); [| done]. by destruct (has _ _). Qed.

Lemma first_packet_states b flags seq end_ v :
  let v' := tcp_first_packet b flags seq end_ v in
  state (src v') = SYN_SENT /\ state (dst v') = state (dst v).
Proof.
  unfold tcp_first_packet. cbv zeta. rewrite <- (first_scale_dst b flags v).
  generalize (tcp_first_scale b flags v). intros v1.
  destruct (_ || _); destruct (_ <? _); done.
Qed.

(** The states when the packet is judged. *)
Lemma track_vars_states b reply c :
  let v := track_vars b reply c in
  state (src v) = (if state (get_src reply c) <? SYN_SENT then SYN_SENT else state (get_src reply c))
  /\ state (dst v) = state (get_dst reply c).
Proof.
  unfold track_vars. cbv zeta. cbn [src]. destruct (_ <? _).
  - apply first_packet_states.
  - done.
Qed.

Lemma slide_states end_ ack v :
  state (src (tcp_slide end_ ack v)) = state (src v)
  /\ state (dst (tcp_slide end_ ack v)) = state (dst v).
Proof.
  unfold tcp_slide. cbv zeta.
  destruct (max_win _ <? _); destruct (SEQ_GT _ _); destruct (SEQ_GEQ _ _); done.
Qed.

Lemma put_peers_same reply c : put_peers reply (get_src reply c) (get_dst reply c) c = c.
Proof. by destruct reply, c. Qed.

(** The two states of a connection as a packet of one direction sees them. *)
Definition states (reply : bool) (c : conn_tcp) : tcp_state * tcp_state :=
  (state (get_src reply c), state (get_dst reply c)).

(** Every way an update can change the states. *)
Lemma tcp_conn_update_states ct b reply now c :
  let flags := TCP_FLAGS (tcp_ctl b) in
  let '(r, c') := tcp_conn_update ct b reply now c in
  let s := state (get_src reply c) in
  let d := state (get_dst reply c) in
  let s1 := if s <? SYN_SENT then SYN_SENT else s in
  r = CT_UPDATE_INVALID /\ (c' = c \/ states reply c' = (s1, d))
  \/ r = CT_UPDATE_NEW /\ FIN_WAIT_2 <= s /\ FIN_WAIT_2 <= d
     /\ Z.land flags (Z.lor TCP_SYN TCP_ACK) = TCP_SYN /\ states reply c' = (CLOSED, CLOSED)
  \/ r = CT_UPDATE_VALID_NEW /\ s <= SYN_SENT /\ states reply c' = (SYN_SENT, d)
  \/ r = CT_UPDATE_VALID
     /\ (states reply c' = next_pair flags s1 d \/ states reply c' = near_pair flags s1 d).
Proof.
  cbv zeta. destruct (tcp_conn_update ct b reply now c) as [r c'] eqn:E. revert E.
  pose proof (track_vars_states b reply c) as [Ts Td].
  assert (forall p v, states reply (put_peers reply (src (with_states p v)) (dst (with_states p v)) c) = p)
    as Hp by (intros [] ?; by destruct reply).
  assert (forall x g, states reply (x <| up ::= g |>) = states reply x) as Hu by (by destruct reply).
  assert (tcp_track ct b reply now c = (r, c') ->
    r = CT_UPDATE_INVALID /\ states reply c' = (state (src (track_vars b reply c)), state (get_dst reply c))
    \/ r = CT_UPDATE_VALID
       /\ (states reply c' = next_pair (TCP_FLAGS (tcp_ctl b)) (state (src (track_vars b reply c))) (state (get_dst reply c))
           \/ states reply c' = near_pair (TCP_FLAGS (tcp_ctl b)) (state (src (track_vars b reply c))) (state (get_dst reply c))))
    as Ht.
  { rewrite tcp_track_eq. cbv zeta. rewrite <- Td.
    destruct (slide_states (track_range b (track_vars b reply c)).2
      (track_ack b (track_vars b reply c)) (track_vars b reply c)) as [-> ->].
    destruct (_ || _); [| destruct (tcp_near_window _ _ _)]; intros [<- <-]%pair_eq.
    - right. split; [done |]. left. by rewrite Hu, Hp.
    - right. split; [done |]. right. apply Hp.
    - left. split; [done |]. by destruct reply. }
  rewrite Ts in Ht. unfold tcp_conn_update. cbv zeta.
  destruct (tcp_invalid_flags _); [intros [<- <-]%pair_eq; tauto |].
  destruct (_ =? TCP_SYN) eqn:E0; [| tauto]. apply Z.eqb_eq in E0. destruct (_ && _) eqn:E1.
  - intros [<- <-]%pair_eq. right; left. split; [done |].
    repeat split; [lia | lia | done | by destruct reply].
  - destruct (state (get_src reply c) <=? SYN_SENT) eqn:E2; [| tauto]. intros [<- <-]%pair_eq. right; right; left.
    split; [done |]. split; [lia | by destruct reply].
Qed.

Lemma inv_by_states reply c' :
  tcp_ok c' ->
  (answered (states reply c').1 (states reply c').2 /\ answered (states reply c').2 (states reply c').1) ->
  tcp_inv c'.
Proof. unfold tcp_inv. destruct reply; cbn; tauto. Qed.

Lemma tcp_conn_update_inv ct b reply now c :
  bytes_ok b -> tcp_inv c -> tcp_inv (tcp_conn_update ct b reply now c).2.
Proof.
  intros Hb [Hok Ha].
  pose proof (tcp_conn_update_ok ct b reply now c Hb Hok) as Hok'.
  pose proof (tcp_conn_update_states ct b reply now c) as Hs. cbv zeta in Hs.
  destruct (tcp_conn_update ct b reply now c) as [r c']. cbn [snd] in *.
  set (s := state (get_src reply c)) in *. set (d := state (get_dst reply c)) in *.
  assert (answered s d /\ answered d s) as [Hsd Hds] by (subst s d; destruct reply; cbn; tauto).
  set (s1 := if s <? SYN_SENT then SYN_SENT else s) in *.
  assert (SYN_SENT <= s1) as H1 by (unfold s1; destruct (s <? SYN_SENT) eqn:E; [done | lia]).
  assert (answered s1 d) as H2.
  { unfold s1. destruct (s <? SYN_SENT); [| done]. intros HH. naive_solver. }
  assert (answered d s1) as H3 by (intros _; done).
  destruct Hs as [[-> [-> | E]] | [(-> & _ & _ & _ & E) | [(-> & _ & E) | [-> [E | E]]]]];
    [by split | | | | |]; apply (inv_by_states reply c' Hok'); rewrite E.
  - done.
  - cbn. unfold answered. naive_solver.
  - cbn. split; intros HH; [naive_solver | done].
  - by apply next_pair_answered.
  - by apply near_pair_answered.
Qed.



(** An update never moves the state of a peer backwards. The one exception is a SYN on a
    connection that both peers have finished: both states are reset and the caller is told
    that this is a new connection. *)
Theorem tcp_states_advance ct b reply now c :
  let '(r, c') := tcp_conn_update ct b reply now c in
  match r with
  | CT_UPDATE_NEW =>
      FIN_WAIT_2 <= state (peer0 c) /\ FIN_WAIT_2 <= state (peer1 c)
      /\ Z.land (TCP_FLAGS (tcp_ctl b)) (Z.lor TCP_SYN TCP_ACK) = TCP_SYN
      /\ state (peer0 c') = CLOSED /\ state (peer1 c') = CLOSED
  | _ => state (peer0 c) <= state (peer0 c') /\ state (peer1 c) <= state (peer1 c')
  end.
Proof.
  pose proof (tcp_conn_update_states ct b reply now c) as Hs. cbv zeta in Hs.
  destruct (tcp_conn_update ct b reply now c) as [r c'].
  set (s := state (get_src reply c)) in *. set (d := state (get_dst reply c)) in *.
  set (s1 := if s <? SYN_SENT then SYN_SENT else s) in *.
  assert (s <= s1) as H1 by (unfold s1; destruct (s <? SYN_SENT) eqn:E; lia).
  assert (s <= (states reply c').1 /\ d <= (states reply c').2 ->
    state (peer0 c) <= state (peer0 c') /\ state (peer1 c) <= state (peer1 c')) as Hm
    by (subst s d; destruct reply; cbn; tauto).
  destruct Hs as [[-> [-> | E]] | [(-> & Hn1 & Hn2 & Hf & E) | [(-> & Hl & E) | [-> [E | E]]]]].
  - lia.
  - apply Hm. rewrite E. cbn [fst snd]. lia.
  - subst s d. unfold states in E. destruct reply; cbn in *; injection E as -> ->; tauto.
  - apply Hm. rewrite E. cbn [fst snd]. lia.
  - apply Hm. rewrite E. destruct (next_pair_advances (TCP_FLAGS (tcp_ctl b)) s1 d) as (? & ? & _). lia.
  - apply Hm. rewrite E. destruct (near_pair_advances (TCP_FLAGS (tcp_ctl b)) s1 d) as (? & ? & _). lia.
Qed.

End ConntrackTcp.
