(* ===== verification/ConntrackTcpFlow.v ===== *)
(** Conversations through the TCP tracker of lib/conntrack-tcp.c: packets that a blind attacker
    could send are refused, the three-way handshake establishes a connection, and an orderly
    close makes it reusable. *)
From stdpp Require Import gmap.
From S2P Require Import Prelude Conntrack ConntrackTcp.

Module ConntrackTcpFlow.
Import Conntrack ConntrackTcp.

(** ** Packets *)

(** The control bits of a segment, the reserved and the ECN bits aside. *)
Definition control (b : segment) : Z := Z.land (TCP_FLAGS (tcp_ctl b)) 0x3f.

Lemma low_land b m : Z.land 0x3f m = m -> Z.land (TCP_FLAGS (tcp_ctl b)) m = Z.land (control b) m.
Proof. intros H. unfold control. by rewrite <- Z.land_assoc, H. Qed.

Lemma low_has b m : Z.land 0x3f m = m -> has (TCP_FLAGS (tcp_ctl b)) m = has (control b) m.
Proof. intros H. unfold has. by rewrite low_land. Qed.

(** Flags without [k] do not match a pattern with it. *)
Lemma land_missing x k m e :
  has x k = false -> Z.land m k = k -> Z.land e k <> 0 -> Z.land x m <> e.
Proof.
  unfold has. intros H%negb_false_iff%Z.eqb_eq Hm He <-. by rewrite <- Z.land_assoc, Hm in He.
Qed.

(** Rewrites every test of flags to one of the control bits, whose value is known. *)
Ltac control_bits H :=
  rewrite ?(low_has _ TCP_SYN), ?(low_has _ TCP_FIN), ?(low_has _ TCP_ACK), ?(low_has _ TCP_RST),
    ?(low_has _ TCP_PSH), ?(low_has _ TCP_URG), ?(low_has _ (Z.lor TCP_ACK TCP_RST)),
    ?(low_land _ (Z.lor TCP_ACK TCP_RST)), ?(low_land _ (Z.lor TCP_SYN TCP_ACK)), ?H by done.

(** A segment without data. *)
Record bare (b : segment) (flags seq ack : Z) : Prop := mk_bare {
  bare_bytes : bytes_ok b;
  bare_flags : control b = flags;
  bare_seq : tcp_seq b = u32 seq;
  bare_ack : tcp_ack b = u32 ack;
  bare_empty : tcp_payload_length b = 0;
}.

Lemma winsz_ok b : bytes_ok b -> in_u 16 (tcp_winsz b).
Proof. apply (be_at_range 14 2). Qed.

(** ** Packets of a blind attacker *)

(** Opened and not finished. *)
Definition open (p : tcp_peer) : Prop := SYN_SENT <= state p < FIN_WAIT_2.

Lemma track_vars_open b reply c :
  SYN_SENT <= state (get_src reply c) ->
  let sc := tcp_scales (get_src reply c) (get_dst reply c) (TCP_FLAGS (tcp_ctl b)) in
  track_vars b reply c = mk_vars (get_src reply c) (get_dst reply c) (tcp_winsz b) sc.1 sc.2 true.
Proof. intros H. unfold track_vars. cbn [src]. by replace (_ <? _) with false by lia. Qed.

Lemma near_window_open seq end_ v : open (src v) -> open (dst v) -> tcp_near_window seq end_ v = false.
Proof.
  unfold open, tcp_near_window. intros Hs Hd.
  replace (state (dst v) <? SYN_SENT) with false by lia.
  replace (FIN_WAIT_2 <=? state (dst v)) with false by lia.
  by replace (FIN_WAIT_2 <=? state (src v)) with false by lia.
Qed.

(** A reset whose sequence number is not next to the one expected. *)
Definition blind_reset (b : segment) (s : tcp_peer) : Prop :=
  has (TCP_FLAGS (tcp_ctl b)) TCP_RST = true /\ 1 < Z.abs (s32 (tcp_seq b - seqlo s)).

(** Data, or a FIN, past the window that the receiver opened. *)
Definition blind_data (b : segment) (s : tcp_peer) : Prop :=
  let end_ := tcp_end (TCP_FLAGS (tcp_ctl b)) (tcp_seq b) (tcp_payload_length b) in
  tcp_seq b <> end_ /\ s32 (seqhi s - end_) < 0.

(** An acknowledgment of something that the receiver has not sent, by more than the slack. *)
Definition blind_ack (b : segment) (d : tcp_peer) : Prop :=
  has (TCP_FLAGS (tcp_ctl b)) TCP_ACK = true /\ has (TCP_FLAGS (tcp_ctl b)) TCP_RST = false
  /\ s32 (seqlo d - tcp_ack b) < - MAXACKWINDOW.

Lemma reset_near (o s : Z) :
  o = s \/ o = u32 (s + 1) \/ u32 (o + 1) = s -> Z.abs (s32 (o - s)) <= 1.
Proof.
  intros [-> | [-> | <-]].
  - by rewrite (s32_is _ 0) by (try cong32; lia).
  - by rewrite (s32_is _ 1) by (try cong32; lia).
  - by rewrite (s32_is _ (-1)) by (try cong32; lia).
Qed.

Lemma in_window_blind b v (r := track_range b v) :
  check_ackskew v = true ->
  blind_reset b (src v) \/ blind_data b (src v) \/ blind_ack b (dst v) ->
  tcp_in_window (TCP_FLAGS (tcp_ctl b)) r.1 (tcp_seq b) r.2 (track_ack b v) v = false.
Proof.
  intros Hck H. unfold tcp_in_window. rewrite Hck. destruct H as [[H1 H2] | [[H1 H2] | (H1 & H2 & H3)]].
  - rewrite H1. cbn [negb orb]. pose proof (reset_near (tcp_seq b) (seqlo (src v))) as Hn.
    destruct (_ =? seqlo (src v)) eqn:E1; [lia |]. destruct (_ =? u32 (_ + 1)) eqn:E2; [lia |].
    destruct (u32 _ =? _) eqn:E3; [lia |]. by rewrite andb_false_r.
  - subst r. unfold track_range. replace (tcp_seq b =? _) with false by lia. cbn [snd].
    unfold SEQ_GEQ. by replace (0 <=? s32 (seqhi _ - _)) with false by lia.
  - unfold track_ack. rewrite H1. cbn [negb].
    assert ((Z.land (TCP_FLAGS (tcp_ctl b)) (Z.lor TCP_ACK TCP_RST) =? Z.lor TCP_ACK TCP_RST) = false) as ->.
    { by apply Z.eqb_neq, (land_missing _ TCP_RST). }
    rewrite andb_false_r. replace (- MAXACKWINDOW <=? _) with false by lia.
    by rewrite andb_false_r, !andb_false_l.
Qed.


(** ** Conversations *)

(** The peer sends [n] next, has everything but perhaps one number recorded, and may send [lo]
    more. *)
Definition insync (p : tcp_peer) (n lo : Z) : Prop :=
  exists i k, 0 <= i <= 1 /\ lo <= k <= 2 ^ 30 /\ seqlo p = u32 (n - i) /\ seqhi p = u32 (n + k).

Definition fin (flags : Z) : Z := if has flags TCP_FIN then 1 else 0.

(** A segment that acknowledges, without SYN and RST. *)
Definition plain (flags : Z) : Prop :=
  has flags TCP_SYN = false /\ has flags TCP_RST = false /\ has flags TCP_ACK = true.

Lemma bare_end b flags s a :
  bare b flags s a -> has flags TCP_SYN = false ->
  tcp_end (TCP_FLAGS (tcp_ctl b)) (tcp_seq b) (tcp_payload_length b) = u32 (s + fin flags).
Proof.
  intros [Hb Hf Hs Ha He] Hsyn. unfold tcp_end, fin. control_bits Hf. rewrite Hsyn, Hs, He.
  rewrite !Z.add_0_r. apply wrap_add_idemp_l.
Qed.

Lemma bare_ack_eq b flags s a v :
  bare b flags s a -> has flags TCP_RST = false -> has flags TCP_ACK = true -> track_ack b v = u32 a.
Proof.
  intros [Hb Hf Hs Ha He] H2 H3. unfold track_ack. control_bits Hf. rewrite H3. cbn [negb].
  replace (Z.land flags (Z.lor TCP_ACK TCP_RST) =? Z.lor TCP_ACK TCP_RST) with false; [by rewrite andb_false_r |].
  symmetry. by apply Z.eqb_neq, (land_missing _ TCP_RST).
Qed.

(** The range that a bare segment covers: its FIN, or where the peer stands. *)
Lemma bare_range b flags s a v :
  bare b flags s a -> has flags TCP_SYN = false ->
  track_range b v =
  if has flags TCP_FIN then (u32 s, u32 (s + 1)) else (seqlo (src v), seqlo (src v)).
Proof.
  intros H Hsyn. unfold track_range. rewrite (bare_end _ _ _ _ H Hsyn), (bare_seq _ _ _ _ H). unfold fin.
  destruct (has flags TCP_FIN).
  - replace (u32 s =? u32 (s + 1)) with false; [done |]. symmetry. apply Z.eqb_neq. cong32.
  - by rewrite Z.add_0_r, Z.eqb_refl.
Qed.

Lemma in_window_sync b flags s a lo v (r := track_range b v) :
  bare b flags s a -> plain flags -> vars_ok v -> check_ackskew v = true ->
  insync (src v) s (fin flags) -> insync (dst v) a lo -> 0 <= lo ->
  tcp_in_window (TCP_FLAGS (tcp_ctl b)) r.1 (tcp_seq b) r.2 (track_ack b v) v = true.
Proof.
  intros Hb Hp Hv Hck (i & k & Hi & Hk & Hlo & Hhi) (j & m & Hj & Hm & Hlo' & Hhi') Hl.
  unfold tcp_in_window. rewrite Hck, (bare_ack_eq _ _ _ _ _ Hb) by apply Hp. subst r.
  rewrite (bare_range _ _ _ _ _ Hb (proj1 Hp)). destruct Hp as (Hsyn & Hrst & Hack).
  pose proof (scale_range (max_win (dst v)) (dws v) (max_win_ok _ (dst_ok _ Hv)) (dws_ok _ Hv)) as [[H0 H1] Hw].
  set (W := Z.shiftl (max_win (dst v)) (dws v)) in *.
  control_bits (bare_flags _ _ _ _ Hb). rewrite Hrst. cbn [negb orb]. rewrite andb_true_r.
  rewrite (s32_is (seqlo (dst v) - u32 a) (- j)) by (rewrite ?Hlo'; try cong32; lia).
  assert (MAXACKWINDOW <= Z.shiftl MAXACKWINDOW (sws v)) as Hm2.
  { rewrite Z.shiftl_mul_pow2 by apply (sws_ok _ Hv). unfold MAXACKWINDOW.
    assert (1 <= 2 ^ sws v) by (change 1 with (2 ^ 0); apply Z.pow_le_mono_r; [lia | apply (sws_ok _ Hv)]). lia. }
  replace (- MAXACKWINDOW <=? - j) with true by (unfold MAXACKWINDOW; lia).
  replace (- j <=? Z.shiftl MAXACKWINDOW (sws v)) with true by (unfold MAXACKWINDOW in *; lia).
  rewrite !andb_true_r. apply andb_true_iff. unfold fin in Hk. rewrite Hhi, Hlo.
  destruct (has flags TCP_FIN); cbn [fst snd]; rewrite ?Hlo; split.
  - apply (seq_geq_true _ _ (k - 1)); [lia | cong32].
  - apply (seq_geq_true _ _ (i + W)); [lia | cong32].
  - apply (seq_geq_true _ _ (k + i)); [lia | cong32].
  - apply (seq_geq_true _ _ W); [lia | cong32].
Qed.

(** Sliding the windows by an acknowledgment [a] never closes the window of the other peer. *)
Lemma slide_dst_sync end_ a lo v :
  vars_ok v -> 0 <= lo -> insync (dst v) a lo -> insync (dst (tcp_slide end_ (u32 a) v)) a lo.
Proof.
  intros Hv Hl (j & m & Hj & Hm & Hlo & Hhi). unfold tcp_slide. cbv zeta.
  set (v1 := if max_win _ <? _ then _ else _).
  assert (dst v1 = dst v /\ win v1 = win v /\ sws v1 = sws v) as (E1 & E2 & E3)
    by (subst v1; by case_match).
  set (v2 := if SEQ_GT _ _ then _ else _).
  assert (dst v2 = dst v /\ win v2 = win v /\ sws v2 = sws v) as (-> & -> & ->)
    by (subst v2; by case_match).
  pose proof (scale_range (win v) (sws v) (win_ok _ Hv) (sws_ok _ Hv)) as [[H0 H1] Hw].
  set (W := Z.shiftl (win v) (sws v)) in *. unfold SEQ_GEQ.
  rewrite Hhi, (s32_is _ (W - m)) by (try cong32; lia).
  assert (dst v2 = dst v) as E4 by (subst v2; by case_match).
  destruct (0 <=? W - m) eqn:E; rewrite ?dst_upd; cbn [upd dst].
  - exists j, (Z.max W 1). rsimpl. rewrite E4. repeat split; try lia.
    rsimpl. unfold wrap. rewrite Z.add_mod_idemp_l by lia. done.
  - rewrite E4. exists j, m. done.
Qed.

Lemma slide_src_sync b flags s a ls v :
  bare b flags s a -> plain flags -> 0 <= ls -> insync (src v) s (fin flags + ls) ->
  insync (src (tcp_slide (track_range b v).2 (track_ack b v) v)) (s + fin flags) ls.
Proof.
  intros Hb Hp Hl (i & k & Hi & Hk & Hlo & Hhi). rewrite (bare_range _ _ _ _ _ Hb (proj1 Hp)).
  unfold tcp_slide. cbv zeta. set (v1 := if max_win _ <? _ then _ else _).
  assert (seqlo (src v1) = seqlo (src v) /\ seqhi (src v1) = seqhi (src v)) as [E1 E2]
    by (subst v1; by case_match).
  rewrite E1, Hlo. unfold fin in *.
  destruct (has flags TCP_FIN); cbn [snd].
  - rewrite (seq_gt_true _ _ (1 + i)) by (try cong32; lia).
    set (v2 := v1 <| src ::= _ |>).
    assert (insync (src v2) (s + 1) ls) as Hv2.
    { exists 0, (k - 1). subst v2. rsimpl. rewrite E2, Hhi.
      repeat split; try lia; f_equal; lia. }
    by case_match.
  - rewrite (seq_gt_false _ _ 0) by (try cong32; lia).
    assert (insync (src v1) (s + 0) ls) as Hv1.
    { exists i, k. rewrite E1, E2, Hlo, Hhi, Z.add_0_r. repeat split; lia. }
    by case_match.
Qed.

(** A bare segment of a peer in sync is accepted, and the peers stay in sync. *)
Lemma update_sync ct b flags s a ls ld reply now c :
  tcp_ok c -> bare b flags s a -> plain flags -> tcp_invalid_flags flags = false ->
  SYN_SENT <= (states reply c).1 -> 0 <= ls -> 0 <= ld ->
  insync (get_src reply c) s (fin flags + ls) -> insync (get_dst reply c) a ld ->
  let p := next_pair flags (states reply c).1 (states reply c).2 in
  exists c', tcp_conn_update ct b reply now c = (CT_UPDATE_VALID, c')
    /\ tcp_ok c' /\ states reply c' = p
    /\ insync (get_src reply c') (s + fin flags) ls /\ insync (get_dst reply c') a ld
    /\ up c' = conn_update_expiration ct (tcp_timeout p.1 p.2) now (up c).
Proof.
  intros Hc Hb Hp Hi Hst Hls Hld Hs Hd p.
  pose proof (tcp_conn_update_ok ct b reply now c (bare_bytes _ _ _ _ Hb) Hc) as Hc'.
  revert Hc'. unfold tcp_conn_update. cbv zeta.
  assert (forall s d, next_pair (TCP_FLAGS (tcp_ctl b)) s d = next_pair flags s d) as Hn.
  { intros. unfold next_pair. by control_bits (bare_flags _ _ _ _ Hb). }
  replace (tcp_invalid_flags (TCP_FLAGS (tcp_ctl b))) with false
    by (rewrite <- Hi; unfold tcp_invalid_flags; by control_bits (bare_flags _ _ _ _ Hb)).
  control_bits (bare_flags _ _ _ _ Hb).
  replace (Z.land flags _ =? TCP_SYN) with false
    by (symmetry; apply Z.eqb_neq, (land_missing _ TCP_SYN); [apply Hp | done | done]).
  rewrite tcp_track_eq. cbv zeta. pose proof (track_vars_ok b reply c (bare_bytes _ _ _ _ Hb) Hc) as Hv.
  rewrite (track_vars_open b reply c) in * by apply Hst. cbv zeta in *.
  set (v := mk_vars _ _ _ _ _ _) in *.
  rewrite (in_window_sync b flags s a ld v) by (try done; destruct Hs as (i & k & Hik); exists i, k; cbn; lia || done).
  cbn [orb]. rewrite Hn. destruct (slide_states (track_range b v).2 (track_ack b v) v) as [-> ->].
  change (next_pair flags (state (src v)) (state (dst v))) with p. intros Hc'. eexists. split; [done |].
  split; [done |]. split; [by destruct p, reply |].
  pose proof (slide_src_sync b flags s a ls v Hb Hp Hls Hs) as H1.
  pose proof (slide_dst_sync (track_range b v).2 a ld v Hv Hld Hd) as H2.
  rewrite <- (bare_ack_eq b flags s a v Hb) in H2 by apply Hp.
  destruct reply; done.
Qed.

(** ** Sequences of packets *)

(** What the tracker answers to a sequence of packets, and the connection after them. *)
Fixpoint tcp_trace (ct : conntrack) (c : conn_tcp) (l : list (segment * bool * Z))
  : list ct_update_res * conn_tcp :=
  match l with
  | [] => ([], c)
  | (b, reply, now) :: l =>
      let '(r, c) := tcp_conn_update ct b reply now c in
      let '(rs, c) := tcp_trace ct c l in
      (r :: rs, c)
  end.

Lemma trace_cons ct c b reply now l r c' :
  tcp_conn_update ct b reply now c = (r, c') ->
  tcp_trace ct c ((b, reply, now) :: l) = (r :: (tcp_trace ct c' l).1, (tcp_trace ct c' l).2).
Proof. intros E. cbn [tcp_trace]. rewrite E. by destruct (tcp_trace ct c' l). Qed.

(** The expiration that [conn_update_expiration] sets on a connection in use. *)
Definition expires (ct : conntrack) (tm : ct_timeout) (now : Z) (c : conn) : Prop :=
  exp_list c = tm /\ expiration c = now + u32 (tp_value ct (tp_id c) tm * 1000).

Lemma update_expires ct tm now c :
  cleaned c = false -> expires ct tm now (conn_update_expiration ct tm now c).
Proof.
  intros H. unfold expires, conn_update_expiration, conn_update_expiration__. rewrite H. done.
Qed.

Lemma update_expiration_cleaned ct tm now c :
  cleaned (conn_update_expiration ct tm now c) = cleaned c.
Proof. unfold conn_update_expiration, conn_update_expiration__. by destruct (cleaned c) eqn:E. Qed.

Lemma put_peers_up reply s d c : up (put_peers reply s d c) = up c.
Proof. by destruct reply. Qed.

(** A connection as the packets of one direction see it. *)
Record view (c : conn_tcp) (r : bool) (ns nd ls ld : Z) (s d : tcp_state) : Prop := mk_view {
  view_ok : tcp_ok c;
  view_cleaned : cleaned (up c) = false;
  view_states : states r c = (s, d);
  view_src : insync (get_src r c) ns ls;
  view_dst : insync (get_dst r c) nd ld;
}.

Lemma view_flip c r ns nd ls ld s d : view c r ns nd ls ld s d -> view c (negb r) nd ns ld ls d s.
Proof. intros [? ? Hst ? ?]. split; try done; destruct r; try done; by injection Hst as <- <-. Qed.

Lemma view_step ct b flags r now c ns nd ls ld s d (p := next_pair flags s d) :
  view c r ns nd (fin flags + ls) ld s d -> bare b flags ns nd ->
  plain flags -> tcp_invalid_flags flags = false -> SYN_SENT <= s -> 0 <= ls -> 0 <= ld ->
  exists c', tcp_conn_update ct b r now c = (CT_UPDATE_VALID, c')
    /\ view c' r (ns + fin flags) nd ls ld p.1 p.2
    /\ expires ct (tcp_timeout p.1 p.2) now (up c').
Proof.
  intros [Hok Hcl Hst Hs Hd] Hb Hp Hi Hle Hls Hld.
  destruct (update_sync ct b flags ns nd ls ld r now c Hok Hb Hp Hi) as (c' & E & H1 & H2 & H3 & H4 & H5);
    rewrite ?Hst; try done.
  rewrite Hst in *. exists c'. split; [done |].
  assert (expires ct (tcp_timeout p.1 p.2) now (up c')) as Hx by (rewrite H5; by apply update_expires).
  split; [| done]. split; try done; [| etrans; [exact H2 | apply surjective_pairing]].
  by rewrite H5, update_expiration_cleaned.
Qed.

(** ** The handshake *)

Lemma first_scale_seqs b flags v (v' := tcp_first_scale b flags v) :
  seqlo (src v') = seqlo (src v) /\ seqhi (src v') = seqhi (src v)
  /\ seqlo (dst v') = seqlo (dst v) /\ seqhi (dst v') = seqhi (dst v).
Proof.
  subst v'. unfold tcp_first_scale. destruct (_ && _); [| done]. by destruct (has _ _).
Qed.

(** The first packet of a peer that was never heard starts its window. *)
Lemma first_packet_seqs b flags seq end_ v (v' := tcp_first_packet b flags seq end_ v) :
  bytes_ok b -> vars_ok v -> seqhi (src v) = 1 ->
  check_ackskew v' = false /\ seqlo (src v') = seq
  /\ (exists k, 1 <= k <= 2 ^ 30 /\ seqhi (src v') = u32 (end_ + k))
  /\ seqlo (dst v') = seqlo (dst v) /\ seqhi (dst v') = seqhi (dst v).
Proof.
  intros Hb Hv Hhi. subst v'. unfold tcp_first_packet.
  destruct (first_scale_seqs b flags v) as (_ & E2 & E3 & E4).
  pose proof (first_scale_ok b flags v Hb Hv) as Hv1. revert E2 E3 E4 Hv1.
  generalize (tcp_first_scale b flags v). intros v1 E2 E3 E4 Hv1. cbv zeta.
  pose proof (scale_range (max_win (dst v1)) (dws v1) (max_win_ok _ (dst_ok _ Hv1)) (dws_ok _ Hv1)) as [[H0 H1] Hw].
  set (v2 := v1 <| src ::= _ |>).
  assert (dst v2 = dst v1 /\ dws v2 = dws v1 /\ seqhi (src v2) = 1 /\ seqlo (src v2) = seq)
    as (-> & -> & -> & Elo) by (subst v2; rsimpl; by rewrite E2, Hhi).
  cbn [Z.eqb orb Pos.eqb]. set (W := Z.shiftl (max_win (dst v1)) (dws v1)) in *.
  set (v3 := v2 <| src ::= _ |> <| check_ackskew := false |>).
  assert (check_ackskew v3 = false /\ seqlo (src v3) = seq /\ seqhi (src v3) = u32 (end_ + Z.max 1 W)
    /\ seqlo (dst v3) = seqlo (dst v) /\ seqhi (dst v3) = seqhi (dst v)) as (F1 & F2 & F3 & F4 & F5)
    by (rewrite <- E3, <- E4; done).
  destruct (_ <? _); repeat split; try done; exists (Z.max 1 W); (split; [lia | done]).
Qed.

Lemma first_in_window b flags v k y a :
  check_ackskew v = false -> vars_ok v -> has flags TCP_RST = false ->
  seqlo (src v) = u32 y -> seqhi (src v) = u32 (u32 (y + 1) + k) -> 1 <= k <= 2 ^ 30 ->
  tcp_in_window flags (u32 y) b (u32 (y + 1)) a v = true.
Proof.
  intros Hck Hv Hrst Hlo Hhi Hk. unfold tcp_in_window. rewrite Hck, Hrst, Hlo, Hhi.
  pose proof (scale_range (max_win (dst v)) (dws v) (max_win_ok _ (dst_ok _ Hv)) (dws_ok _ Hv)) as [[H0 H1] Hw].
  set (W := Z.shiftl (max_win (dst v)) (dws v)) in *.
  rewrite (seq_geq_true _ _ k) by (try cong32; lia).
  rewrite (seq_geq_true _ _ W) by (try cong32; lia).
  assert (0 <= Z.shiftl MAXACKWINDOW (sws v)) by (apply Z.shiftl_nonneg; done).
  replace (- MAXACKWINDOW <=? 0) with true by done.
  by replace (0 <=? Z.shiftl MAXACKWINDOW (sws v)) with true by lia.
Qed.

Lemma new_conn_seqs ct b x a0 now id (c := tcp_new_conn ct b now id) :
  bare b TCP_SYN x a0 ->
  seqlo (peer0 c) = u32 x /\ seqhi (peer0 c) = u32 (x + 2) /\ seqhi (peer1 c) = 1
  /\ states false c = (SYN_SENT, CLOSED).
Proof.
  intros [Hb Hf Hs Ha He]. subst c. unfold tcp_new_conn. cbv zeta. cbn [peer0 peer1 seqlo seqhi].
  control_bits Hf. rewrite Hs, He. repeat split. cbn [has]. change (has TCP_SYN TCP_SYN) with true.
  change (has TCP_SYN TCP_FIN) with false. cbv iota. cong32.
Qed.

Lemma synack_end b y a :
  bare b (Z.lor TCP_SYN TCP_ACK) y a ->
  tcp_end (TCP_FLAGS (tcp_ctl b)) (tcp_seq b) (tcp_payload_length b) = u32 (y + 1).
Proof.
  intros [Hb Hf Hs Ha He]. unfold tcp_end. control_bits Hf. rewrite Hs, He.
  change (has (Z.lor TCP_SYN TCP_ACK) TCP_SYN) with true.
  change (has (Z.lor TCP_SYN TCP_ACK) TCP_FIN) with false. cbv iota. cong32.
Qed.

Lemma synack_range b y a v : bare b (Z.lor TCP_SYN TCP_ACK) y a -> track_range b v = (u32 y, u32 (y + 1)).
Proof.
  intros H. unfold track_range. rewrite (synack_end _ _ _ H), (bare_seq _ _ _ _ H).
  replace (u32 y =? u32 (y + 1)) with false; [done |]. symmetry. apply Z.eqb_neq. cong32.
Qed.

(** The variables when the SYN and ACK of the other peer is judged. *)
Lemma synack_vars ct b1 b2 x a0 y a t1 id (v := track_vars b2 true (tcp_new_conn ct b1 t1 id)) :
  bare b1 TCP_SYN x a0 -> bare b2 (Z.lor TCP_SYN TCP_ACK) y a ->
  check_ackskew v = false /\ seqlo (src v) = u32 y
  /\ (exists k, 1 <= k <= 2 ^ 30 /\ seqhi (src v) = u32 (u32 (y + 1) + k))
  /\ insync (dst v) (x + 1) 1.
Proof.
  intros Hb1 Hb2. destruct (new_conn_seqs ct b1 x a0 t1 id Hb1) as (E1 & E2 & E3 & _).
  pose proof (tcp_new_conn_ok ct b1 t1 id (bare_bytes _ _ _ _ Hb1)) as Hc.
  pose proof (scales_ok _ _ (TCP_FLAGS (tcp_ctl b2)) (proj2 Hc) (proj1 Hc)) as [H1 H2].
  subst v. unfold track_vars. cbv zeta. cbn [src get_src get_dst] in *.
  set (v := mk_vars _ _ _ _ _ _).
  assert (vars_ok v) as Hv by (split; try done; [apply Hc | apply Hc | apply winsz_ok, Hb2]).
  change (state _ <? SYN_SENT) with true. cbv iota.
  rewrite (synack_end _ _ _ Hb2), (bare_seq _ _ _ _ Hb2).
  destruct (first_packet_seqs b2 (TCP_FLAGS (tcp_ctl b2)) (u32 y) (u32 (y + 1)) v (bare_bytes _ _ _ _ Hb2) Hv E3)
    as (F1 & F2 & F3 & F4 & F5).
  repeat split; try done. exists 1, 1. rewrite F4, F5. cbn [dst v]. rewrite E1, E2.
  repeat split; try lia; f_equal; lia.
Qed.

Lemma synack_slide y a k v :
  1 <= k <= 2 ^ 30 -> seqlo (src v) = u32 y -> seqhi (src v) = u32 (u32 (y + 1) + k) ->
  insync (src (tcp_slide (u32 (y + 1)) a v)) (y + 1) 1.
Proof.
  intros Hk Hlo Hhi. unfold tcp_slide. cbv zeta. set (v1 := if max_win _ <? _ then _ else _).
  assert (seqlo (src v1) = seqlo (src v) /\ seqhi (src v1) = seqhi (src v)) as [E1 E2]
    by (subst v1; by case_match).
  rewrite E1, Hlo, (seq_gt_true _ _ 1) by (try cong32; lia).
  set (v2 := v1 <| src ::= _ |>).
  assert (insync (src v2) (y + 1) 1) as Hv2.
  { exists 0, k. subst v2. rsimpl. rewrite E2, Hhi. repeat split; try lia; [f_equal; lia |].
    apply wrap_add_idemp_l. }
  by case_match.
Qed.

(** The second packet: SYN and ACK from the peer that was never heard. *)
Lemma synack_accepted ct b1 b2 x a0 y t1 t2 id (c := tcp_new_conn ct b1 t1 id) :
  bare b1 TCP_SYN x a0 -> bare b2 (Z.lor TCP_SYN TCP_ACK) y (x + 1) ->
  exists c', tcp_conn_update ct b2 true t2 c = (CT_UPDATE_VALID, c')
    /\ view c' false (x + 1) (y + 1) 1 1 ESTABLISHED SYN_SENT.
Proof.
  intros Hb1 Hb2.
  pose proof (tcp_new_conn_ok ct b1 t1 id (bare_bytes _ _ _ _ Hb1)) as Hc.
  pose proof (tcp_conn_update_ok ct b2 true t2 c (bare_bytes _ _ _ _ Hb2) Hc) as Hc'.
  revert Hc'. unfold tcp_conn_update. cbv zeta.
  replace (tcp_invalid_flags (TCP_FLAGS (tcp_ctl b2))) with false
    by (unfold tcp_invalid_flags; by control_bits (bare_flags _ _ _ _ Hb2)).
  control_bits (bare_flags _ _ _ _ Hb2). change (Z.land _ _ =? TCP_SYN) with false.
  rewrite tcp_track_eq. cbv zeta.
  pose proof (track_vars_ok b2 true c (bare_bytes _ _ _ _ Hb2) Hc) as Hv.
  destruct (synack_vars ct b1 b2 x a0 y _ t1 id Hb1 Hb2) as (F1 & F2 & (k & Hk & F3) & F4).
  pose proof (track_vars_states b2 true c) as [S1 S2].
  change (tcp_new_conn ct b1 t1 id) with c in F1, F2, F3, F4.
  set (v := track_vars b2 true c) in *.
  rewrite (synack_range b2 y (x + 1) v Hb2), (bare_ack_eq b2 _ _ _ v Hb2) by done. cbn [fst snd].
  rewrite (first_in_window (tcp_seq b2) _ v k y) by (try done; by control_bits (bare_flags _ _ _ _ Hb2)).
  cbn [orb]. destruct (slide_states (u32 (y + 1)) (u32 (x + 1)) v) as [-> ->].
  rewrite S1, S2. change (state (get_src true c) <? SYN_SENT) with true. cbv iota.
  change (state (get_dst true c)) with SYN_SENT.
  replace (next_pair (TCP_FLAGS (tcp_ctl b2)) SYN_SENT SYN_SENT) with (SYN_SENT, ESTABLISHED)
    by (unfold next_pair; by control_bits (bare_flags _ _ _ _ Hb2)).
  intros Hc'. eexists. split; [done |]. split; [done | | done | |].
  - rsimpl. by rewrite update_expiration_cleaned, put_peers_up.
  - apply (slide_dst_sync (u32 (y + 1)) (x + 1) 1 v Hv); [done | exact F4].
  - apply (synack_slide y (u32 (x + 1)) k v Hk F2 F3).
Qed.

(** C16: whatever the initial sequence numbers, windows and options are, the three packets of a
    handshake -- SYN, SYN and ACK, ACK, each acknowledging the one before -- are accepted
    and establish both peers, with the timeout of established connections; both peers are
    then in sync with the tracker and may send. *)
Theorem tcp_handshake_establishes ct b1 b2 b3 x y a0 t1 t2 t3 id :
  bare b1 TCP_SYN x a0 -> bare b2 (Z.lor TCP_SYN TCP_ACK) y (x + 1) ->
  bare b3 TCP_ACK (x + 1) (y + 1) ->
  tcp_valid_new b1 = true
  /\ exists c, tcp_trace ct (tcp_new_conn ct b1 t1 id) [(b2, true, t2); (b3, false, t3)]
               = ([CT_UPDATE_VALID; CT_UPDATE_VALID], c)
     /\ view c false (x + 1) (y + 1) 1 1 ESTABLISHED ESTABLISHED
     /\ expires ct CT_TM_TCP_ESTABLISHED t3 (up c).
Proof.
  intros H1 H2 H3. split.
  { unfold tcp_valid_new, tcp_invalid_flags. cbv zeta. by control_bits (bare_flags _ _ _ _ H1). }
  destruct (synack_accepted ct b1 b2 x a0 y t1 t2 id H1 H2) as (c2 & E2 & V2).
  destruct (view_step ct b3 TCP_ACK false t3 c2 (x + 1) (y + 1) 1 1 ESTABLISHED SYN_SENT)
    as (c3 & E3 & V3 & X3); try done.
  rewrite Z.add_0_r in V3. exists c3. split; [| split; [done | done]].
  by rewrite (trace_cons _ _ _ _ _ _ _ _ E2), (trace_cons _ _ _ _ _ _ _ _ E3).
Qed.

(** From an established connection in sync, an orderly close by either peer -- its FIN, the
    acknowledgment, the FIN of the other peer and its acknowledgment -- is accepted and
    finishes both peers, with the timeout of closed connections; a SYN on the finished
    connection then reports a new one. *)
Theorem tcp_close_recycles ct c r ns nd b1 b2 b3 b4 b5 t1 t2 t3 t4 r5 t5 :
  view c r ns nd 1 1 ESTABLISHED ESTABLISHED ->
  bare b1 (Z.lor TCP_FIN TCP_ACK) ns nd -> bare b2 TCP_ACK nd (ns + 1) ->
  bare b3 (Z.lor TCP_FIN TCP_ACK) nd (ns + 1) -> bare b4 TCP_ACK (ns + 1) (nd + 1) ->
  control b5 = TCP_SYN ->
  exists c', tcp_trace ct c [(b1, r, t1); (b2, negb r, t2); (b3, negb r, t3); (b4, r, t4)]
             = ([CT_UPDATE_VALID; CT_UPDATE_VALID; CT_UPDATE_VALID; CT_UPDATE_VALID], c')
    /\ state (peer0 c') = FIN_WAIT_2 /\ state (peer1 c') = FIN_WAIT_2
    /\ expires ct CT_TM_TCP_CLOSED t4 (up c')
    /\ (tcp_conn_update ct b5 r5 t5 c').1 = CT_UPDATE_NEW.
Proof.
  intros V Hb1 Hb2 Hb3 Hb4 Hb5.
  destruct (view_step ct _ (Z.lor TCP_FIN TCP_ACK) r t1 _ _ _ 0 1 _ _ V Hb1) as (c1 & E1 & V1%view_flip & _); try done.
  destruct (view_step ct _ TCP_ACK (negb r) t2 _ _ _ 1 0 _ _ V1 Hb2) as (c2 & E2 & V2 & _); try done.
  rewrite Z.add_0_r in V2.
  destruct (view_step ct _ (Z.lor TCP_FIN TCP_ACK) (negb r) t3 _ _ _ 0 0 _ _ V2 Hb3) as (c3 & E3 & V3%view_flip & _); try done.
  rewrite negb_involutive in V3.
  destruct (view_step ct _ TCP_ACK r t4 _ _ _ 0 0 _ _ V3 Hb4) as (c4 & E4 & [_ Hcl4 Hst4 _ _] & X4); try done.
  exists c4. split; [| split; [| split; [| split; [exact X4 |]]]].
  - by rewrite (trace_cons _ _ _ _ _ _ _ _ E1), (trace_cons _ _ _ _ _ _ _ _ E2),
      (trace_cons _ _ _ _ _ _ _ _ E3), (trace_cons _ _ _ _ _ _ _ _ E4).
  - destruct r; by injection Hst4.
  - destruct r; by injection Hst4.
  - unfold tcp_conn_update, tcp_invalid_flags. cbv zeta. control_bits Hb5.
    assert (state (get_src r5 c4) = FIN_WAIT_2 /\ state (get_dst r5 c4) = FIN_WAIT_2) as [-> ->]
      by (destruct r, r5; injection Hst4; done).
    done.
Qed.

(** ** Concrete conversations *)

(** A segment with the given numbers, control bits, window and options (four bytes each). *)
Definition seg (s a flags w : Z) (opts : list Z) : segment :=
  [4; 210; 0; 80] ++ be_bytes 4 s ++ be_bytes 4 a
  ++ [(5 + Z.of_nat (length opts) / 4) * 16; flags] ++ be_bytes 2 w ++ [0; 0; 0; 0] ++ opts.

Definition bytesb (b : segment) : bool := forallb (λ x, (0 <=? x) && (x <? 256)) b.

Lemma bytesb_ok b : bytesb b = true -> bytes_ok b.
Proof.
  unfold bytesb, bytes_ok. rewrite forallb_forall, List.Forall_forall.
  intros H x Hx. specialize (H x Hx). unfold in_u. change (2 ^ 8) with 256. lia.
Qed.

Definition ct0 : conntrack := mk_ct ∅ true.

(** The initiator starts near the wrap of the numbers and announces a window scale of 7. *)
Definition syn : segment := seg 4294967295 0 2 64240 [3; 3; 7; 0].
Definition synack : segment := seg 5000 0 18 65160 [3; 3; 9; 0].
Definition ack : segment := seg 0 5001 16 502 [].

Ltac bare_seg := split; [apply bytesb_ok; reflexivity | reflexivity ..].

Lemma tcp_handshake_establishes_witness :
  tcp_valid_new syn = true
  /\ exists c, tcp_trace ct0 (tcp_new_conn ct0 syn 0 0) [(synack, true, 10); (ack, false, 20)]
               = ([CT_UPDATE_VALID; CT_UPDATE_VALID], c)
     /\ view c false (4294967295 + 1) (5000 + 1) 1 1 ESTABLISHED ESTABLISHED
     /\ expires ct0 CT_TM_TCP_ESTABLISHED 20 (up c).
Proof.
  apply (tcp_handshake_establishes ct0 syn synack ack 4294967295 5000 0 0 10 20 0); bare_seg.
Defined.

(** An established connection. *)
Definition conn0 : conn_tcp :=
  mk_tcp (mk_conn 0 CT_TM_TCP_ESTABLISHED false 0)
    (mk_peer 1000 66000 65535 0 ESTABLISHED) (mk_peer 5000 70000 65535 0 ESTABLISHED).

Lemma conn0_view : view conn0 false 1000 5000 1 1 ESTABLISHED ESTABLISHED.
Proof.
  split; [| done | done | by exists 0, 65000 | by exists 0, 65000].
  split; split; try done; try apply used_lit; by left.
Qed.

Lemma tcp_close_recycles_witness :
  exists c', tcp_trace ct0 conn0 [(seg 1000 5000 17 500 [], false, 1); (seg 5000 1001 16 500 [], true, 2);
                                  (seg 5000 1001 17 500 [], true, 3); (seg 1001 5001 16 500 [], false, 4)]
             = ([CT_UPDATE_VALID; CT_UPDATE_VALID; CT_UPDATE_VALID; CT_UPDATE_VALID], c')
    /\ state (peer0 c') = FIN_WAIT_2 /\ state (peer1 c') = FIN_WAIT_2
    /\ expires ct0 CT_TM_TCP_CLOSED 4 (up c')
    /\ (tcp_conn_update ct0 syn false 5 c').1 = CT_UPDATE_NEW.
Proof.
  apply (tcp_close_recycles ct0 conn0 false 1000 5000); [apply conn0_view | bare_seg .. | reflexivity].
Defined.


(** ** A limit of the tracker *)

(** The window of a peer that announced a scale which the other one refuses is scaled back in
    16 bits, where it can become zero. *)
Lemma refused_scale_loses_window :
  let c := tcp_new_conn ct0 (seg 1000 0 2 65535 [3; 3; 1; 0]) 0 0 in
  max_win (peer0 c) = 32768
  /\ max_win (peer0 (tcp_conn_update ct0 (seg 5000 1001 18 65535 []) true 1 c).2) = 0.
Proof. done. Qed.

End ConntrackTcpFlow.
