(* ===== verification/Netlink.v ===== *)
(** Netlink messages (lib/netlink.c, lib/netlink.h, lib/netlink-protocol.h).

    A message under construction and a received buffer are lists of bytes.  A pointer to an
    attribute is the part of the buffer that starts there.  Integers in host byte order
    follow the endianness [e] of the host.  A failed [ovs_assert] is [None]. *)
From S2P Require Import Prelude.

Module Netlink.

(** ** Sizes and headers *)

Definition NLMSG_HDRLEN : nat := 16.
Definition GENL_HDRLEN : nat := 4.
Definition NLA_HDRLEN : nat := 4.
Definition NLMSG_ERROR : Z := 2.
Definition NLA_TYPE_MASK : Z := 0x3fff.
Definition EPROTO : Z := 71.
Definition INT_MIN : Z := - 2 ^ 31.

(** ROUND_UP(size, 4), NLMSG_ALIGN and NLA_ALIGN alike. *)
Definition align (size : nat) : nat := ((size + 3) / 4 * 4)%nat.

Definition PAD_SIZE (size : nat) : nat := (align size - size)%nat.

(** [nl_attr_oversized] *)
Definition nl_attr_oversized (payload_size : nat) : bool :=
  65535 - Z.of_nat NLA_HDRLEN <? Z.of_nat payload_size.

Inductive nl_attr_type :=
  | NL_A_NO_ATTR | NL_A_UNSPEC | NL_A_U8 | NL_A_U16 | NL_A_U32 | NL_A_U64 | NL_A_U128
  | NL_A_STRING | NL_A_FLAG | NL_A_IPV6 | NL_A_NESTED.

#[export] Instance nl_attr_type_eq_dec : EqDecision nl_attr_type.
Proof. solve_decision. Defined.

(** [min_len] and [max_len] are zero where the default of the type applies. *)
Record nl_policy := mk_policy {
  p_type : nl_attr_type;
  min_len : nat;
  max_len : nat;
  optional : bool;
}.

Section Netlink.
Context (e : endian).

(** ** Appending and prepending *)

Definition nl_msg_put (data msg : list Z) : list Z :=
  msg ++ data ++ replicate (PAD_SIZE (length data)) 0.

Definition nl_msg_push (data msg : list Z) : list Z :=
  data ++ replicate (PAD_SIZE (length data)) 0 ++ msg.

Definition attr_header (len type : Z) : list Z := host_bytes e 2 len ++ host_bytes e 2 type.

(** The bytes of an attribute before padding. *)
Definition attr_bytes (type : Z) (data : list Z) : list Z :=
  attr_header (Z.of_nat (NLA_HDRLEN + length data)) type ++ data.

Definition nl_msg_put_unspec (type : Z) (data msg : list Z) : option (list Z) :=
  if nl_attr_oversized (length data) then None else Some (nl_msg_put (attr_bytes type data) msg).

Definition nl_msg_put_unspec_zero (type : Z) (size : nat) (msg : list Z) : option (list Z) :=
  nl_msg_put_unspec type (replicate size 0) msg.

Definition nl_msg_put_flag (type : Z) := nl_msg_put_unspec type [].
Definition nl_msg_put_u8 (type value : Z) := nl_msg_put_unspec type (host_bytes e 1 value).
Definition nl_msg_put_u16 (type value : Z) := nl_msg_put_unspec type (host_bytes e 2 value).
Definition nl_msg_put_u32 (type value : Z) := nl_msg_put_unspec type (host_bytes e 4 value).
Definition nl_msg_put_u64 (type value : Z) := nl_msg_put_unspec type (host_bytes e 8 value).

(** Values in network byte order, given as the numbers they denote. *)
Definition nl_msg_put_be16 (type value : Z) := nl_msg_put_unspec type (be_bytes 2 value).
Definition nl_msg_put_be32 (type value : Z) := nl_msg_put_unspec type (be_bytes 4 value).
Definition nl_msg_put_be64 (type value : Z) := nl_msg_put_unspec type (be_bytes 8 value).
Definition nl_msg_put_be128 (type value : Z) := nl_msg_put_unspec type (be_bytes 16 value).

(** Strings are lists of non-zero bytes; the terminator is added. *)
Definition nl_msg_put_string__ (type : Z) (value : list Z) (len : nat) :=
  nl_msg_put_unspec type (take len value ++ [0]).
Definition nl_msg_put_string (type : Z) (value : list Z) := nl_msg_put_unspec type (value ++ [0]).

Definition nl_msg_push_unspec (type : Z) (data msg : list Z) : option (list Z) :=
  if nl_attr_oversized (length data) then None else Some (nl_msg_push (attr_bytes type data) msg).

Definition nl_msg_push_flag (type : Z) := nl_msg_push_unspec type [].
Definition nl_msg_push_u8 (type value : Z) := nl_msg_push_unspec type (host_bytes e 1 value).
Definition nl_msg_push_u16 (type value : Z) := nl_msg_push_unspec type (host_bytes e 2 value).
Definition nl_msg_push_u32 (type value : Z) := nl_msg_push_unspec type (host_bytes e 4 value).
Definition nl_msg_push_u64 (type value : Z) := nl_msg_push_unspec type (host_bytes e 8 value).
Definition nl_msg_push_be16 (type value : Z) := nl_msg_push_unspec type (be_bytes 2 value).
Definition nl_msg_push_be32 (type value : Z) := nl_msg_push_unspec type (be_bytes 4 value).
Definition nl_msg_push_be64 (type value : Z) := nl_msg_push_unspec type (be_bytes 8 value).
Definition nl_msg_push_be128 (type value : Z) := nl_msg_push_unspec type (be_bytes 16 value).
Definition nl_msg_push_string (type : Z) (value : list Z) :=
  nl_msg_push_unspec type (value ++ [0]).

Definition nl_msg_put_nlmsghdr (type flags : Z) (msg : list Z) : option (list Z) :=
  match msg with
  | [] => Some (nl_msg_put (host_bytes e 4 0 ++ host_bytes e 2 type ++ host_bytes e 2 flags
                            ++ host_bytes e 4 0 ++ host_bytes e 4 0) [])
  | _ => None
  end.

Definition nl_msg_put_genlmsghdr (family flags cmd version : Z) (msg : list Z) : option (list Z) :=
  m ← nl_msg_put_nlmsghdr family flags msg;
  Some (nl_msg_put ([cmd; version] ++ host_bytes e 2 0) m).

(** ** Nested attributes *)

(** Writes [data] over the bytes of [msg] at [offset]. *)
Definition store (offset : nat) (data msg : list Z) : list Z :=
  take offset msg ++ data ++ drop (offset + length data) msg.

(** The offset of the new header, and the message. *)
Definition nl_msg_start_nested (type : Z) (msg : list Z) : option (nat * list Z) :=
  m ← nl_msg_put_unspec type [] msg; Some (length msg, m).

Definition nl_msg_end_nested (offset : nat) (msg : list Z) : option (list Z) :=
  if (length msg <? offset + NLA_HDRLEN)%nat then None
  else if nl_attr_oversized (length msg - offset - NLA_HDRLEN) then None
  else Some (store offset (host_bytes e 2 (Z.of_nat (length msg - offset))) msg).

Definition nl_msg_cancel_nested (offset : nat) (msg : list Z) : list Z := take offset msg.

Definition nl_msg_put_nested (type : Z) (data msg : list Z) : option (list Z) :=
  '(offset, m) ← nl_msg_start_nested type msg;
  nl_msg_end_nested offset (nl_msg_put data m).

(** ** Attributes of a received message *)

(** An attribute: its header and everything that follows it in the buffer. *)
Record nlattr := mk_attr { nla_len : nat; nla_type : Z; nla_rest : list Z }.

Definition read_attr (b : list Z) : nlattr := {|
  nla_len := Z.to_nat (host_val e (bytes_at 0 2 b));
  nla_type := host_val e (bytes_at 2 2 b);
  nla_rest := drop NLA_HDRLEN b;
|}.

(** [nl_attr_type()] *)
Definition nl_type (nla : nlattr) : Z := Z.land (nla_type nla) NLA_TYPE_MASK.

Definition nl_attr_get_size (nla : nlattr) : option nat :=
  if (NLA_HDRLEN <=? nla_len nla)%nat then Some (nla_len nla - NLA_HDRLEN)%nat else None.

(** The payload of an attribute. *)
Definition nl_attr_get (nla : nlattr) : option (list Z) :=
  n ← nl_attr_get_size nla; Some (take n (nla_rest nla)).

Definition nl_attr_get_unspec (nla : nlattr) (size : nat) : option (list Z) :=
  if (NLA_HDRLEN + size <=? nla_len nla)%nat then Some (take size (nla_rest nla)) else None.

Definition nl_attr_get_flag (nla : option nlattr) : bool := if nla then true else false.
Definition nl_attr_get_u8 (nla : nlattr) := host_val e <$> nl_attr_get_unspec nla 1.
Definition nl_attr_get_u16 (nla : nlattr) := host_val e <$> nl_attr_get_unspec nla 2.
Definition nl_attr_get_u32 (nla : nlattr) := host_val e <$> nl_attr_get_unspec nla 4.
Definition nl_attr_get_u64 (nla : nlattr) := host_val e <$> nl_attr_get_unspec nla 8.
Definition nl_attr_get_be16 (nla : nlattr) := be_val <$> nl_attr_get_unspec nla 2.
Definition nl_attr_get_be32 (nla : nlattr) := be_val <$> nl_attr_get_unspec nla 4.
Definition nl_attr_get_be64 (nla : nlattr) := be_val <$> nl_attr_get_unspec nla 8.
Definition nl_attr_get_be128 (nla : nlattr) := be_val <$> nl_attr_get_unspec nla 16.

(** The bytes before the first null of the payload. *)
Definition nl_attr_get_string (nla : nlattr) : option (list Z) :=
  if (nla_len nla <=? NLA_HDRLEN)%nat then None
  else
    let payload := take (nla_len nla - NLA_HDRLEN) (nla_rest nla) in
    (λ '(i, _), take i payload) <$> list_find (λ b, b = 0) payload.

(** [NL_ATTR_FOR_EACH]: is there an attribute at [b], of which [left] bytes are left? *)
Definition nl_attr_is_valid (b : list Z) (left : nat) : bool :=
  (NLA_HDRLEN <=? left)%nat
  && (NLA_HDRLEN <=? nla_len (read_attr b))%nat && (nla_len (read_attr b) <=? left)%nat.

Definition nl_attr_len_pad (b : list Z) (left : nat) : nat :=
  let len := align (nla_len (read_attr b)) in
  if (len <=? left)%nat then len else nla_len (read_attr b).

Definition nl_attr_next (b : list Z) : list Z := drop (align (nla_len (read_attr b))) b.

(** The attributes that the loop visits and the bytes it leaves.  Each one takes at least
    four bytes, so [left] bounds the number of iterations. *)
Fixpoint for_each_attr (fuel : nat) (b : list Z) (left : nat) : list nlattr * nat :=
  match fuel with
  | O => ([], left)
  | S fuel =>
      if nl_attr_is_valid b left then
        let '(l, rest) := for_each_attr fuel (nl_attr_next b) (left - nl_attr_len_pad b left) in
        (read_attr b :: l, rest)
      else ([], left)
  end.

Definition nl_attrs (b : list Z) : list nlattr * nat := for_each_attr (length b) b (length b).

Definition nl_attr_find__ (b : list Z) (type : Z) : option nlattr :=
  snd <$> list_find (λ a, nl_type a = type) (nl_attrs b).1.

Definition nl_attr_find (buf : list Z) (hdr_len : nat) (type : Z) : option nlattr :=
  nl_attr_find__ (drop hdr_len buf) type.

Definition nl_attr_find_nested (nla : nlattr) (type : Z) : option nlattr :=
  payload ← nl_attr_get nla; nl_attr_find__ payload type.

(** ** Validation *)

Definition min_attr_len (t : nl_attr_type) : nat :=
  match t with
  | NL_A_NO_ATTR | NL_A_UNSPEC | NL_A_FLAG | NL_A_NESTED => 0
  | NL_A_U8 | NL_A_STRING => 1
  | NL_A_U16 => 2
  | NL_A_U32 => 4
  | NL_A_U64 => 8
  | NL_A_U128 | NL_A_IPV6 => 16
  end.

(** [None] is SIZE_MAX. *)
Definition max_attr_len (t : nl_attr_type) : option nat :=
  match t with
  | NL_A_NO_ATTR | NL_A_UNSPEC | NL_A_STRING | NL_A_FLAG | NL_A_NESTED => None
  | NL_A_U8 => Some 1%nat
  | NL_A_U16 => Some 2%nat
  | NL_A_U32 => Some 4%nat
  | NL_A_U64 => Some 8%nat
  | NL_A_U128 | NL_A_IPV6 => Some 16%nat
  end.

(** The allowed range of payload sizes under a policy. *)
Definition policy_min (p : nl_policy) : nat :=
  if (min_len p =? 0)%nat then min_attr_len (p_type p) else min_len p.
Definition policy_max (p : nl_policy) : option nat :=
  if (max_len p =? 0)%nat then max_attr_len (p_type p) else Some (max_len p).

Definition nl_attr_validate (nla : nlattr) (p : nl_policy) : bool :=
  if bool_decide (p_type p = NL_A_NO_ATTR) then true
  else
    let len := (nla_len nla - NLA_HDRLEN)%nat in
    if (len <? policy_min p)%nat
       || (match policy_max p with Some m => (m <? len)%nat | None => false end) then false
    else if bool_decide (p_type p = NL_A_STRING) then
      bool_decide (nla_rest nla !! (len - 1)%nat = Some 0)
      && negb (existsb (λ b, b =? 0) (take (len - 1) (nla_rest nla)))
    else true.

(** The body of the loop of [nl_policy_parse] over the attributes. *)
Fixpoint policy_loop (policy : list nl_policy) (l : list nlattr) (attrs : list (option nlattr))
  : option (list (option nlattr)) :=
  match l with
  | [] => Some attrs
  | nla :: l =>
      let type := Z.to_nat (nl_type nla) in
      match policy !! type with
      | Some p =>
          if bool_decide (p_type p = NL_A_NO_ATTR) then policy_loop policy l attrs
          else if nl_attr_validate nla p then policy_loop policy l (<[type := Some nla]> attrs)
          else None
      | None => policy_loop policy l attrs
      end
  end.

(** The attributes by type, [None] on failure. *)
Definition nl_policy_parse (msg : list Z) (nla_offset : nat) (policy : list nl_policy)
  : option (list (option nlattr)) :=
  if (length msg <? nla_offset)%nat then None
  else
    let '(l, remaining) := nl_attrs (drop nla_offset msg) in
    attrs ← policy_loop policy l (replicate (length policy) None);
    if negb (remaining =? 0)%nat then None
    else if forallb (λ '(p, a), optional p || bool_decide (p_type p = NL_A_NO_ATTR)
                               || nl_attr_get_flag a) (zip policy attrs)
    then Some attrs else None.

Definition nl_parse_nested (nla : nlattr) (policy : list nl_policy)
  : option (list (option nlattr)) :=
  payload ← nl_attr_get nla; nl_policy_parse payload 0 policy.

(** ** Whole messages *)

(** [Some code] for an error message: zero is an acknowledgement. *)
Definition nl_msg_nlmsgerr (msg : list Z) : option Z :=
  if host_val e (bytes_at 4 2 msg) =? NLMSG_ERROR then
    Some (if (length msg <? NLMSG_HDRLEN + 20)%nat then EPROTO
          else
            let err := s32 (host_val e (bytes_at NLMSG_HDRLEN 4 msg)) in
            if (err <=? 0) && (err >? INT_MIN) then - err else EPROTO)
  else None.

(** The first message of a buffer and the rest; [None] clears the buffer. *)
Definition nl_msg_next (buffer : list Z) : option (list Z * list Z) :=
  if (NLMSG_HDRLEN <=? length buffer)%nat then
    let len := Z.to_nat (host_val e (bytes_at 0 4 buffer)) in
    if (NLMSG_HDRLEN <=? len)%nat && (len <=? length buffer)%nat
    then Some (take len buffer, drop len buffer) else None
  else None.

End Netlink.

(** ** Building and reading back *)

Section Properties.
Context (e : endian).

(** The bytes that appending an attribute adds. *)
Definition chunk (a : Z * list Z) : list Z :=
  attr_bytes e a.1 a.2 ++ replicate (PAD_SIZE (length (attr_bytes e a.1 a.2))) 0.

(** Appends attributes one after the other. *)
Fixpoint put_all (l : list (Z * list Z)) (msg : list Z) : option (list Z) :=
  match l with
  | [] => Some msg
  | a :: l => m ← nl_msg_put_unspec e a.1 a.2 msg; put_all l m
  end.

Definition attr_ok (a : Z * list Z) : bool :=
  (0 <=? a.1) && (a.1 <? 2 ^ 16) && negb (nl_attr_oversized (length a.2)).

Lemma align_spec n : (n <= align n < n + 4)%nat /\ (align n mod 4 = 0)%nat.
Proof.
  unfold align. pose proof (Nat.div_mod (n + 3) 4 ltac:(lia)) as H.
  pose proof (Nat.mod_upper_bound (n + 3) 4 ltac:(lia)).
  split; [lia |]. apply Nat.Div0.mod_mul.
Qed.

Lemma length_attr_bytes t d : length (attr_bytes e t d) = (4 + length d)%nat.
Proof. unfold attr_bytes, attr_header. by rewrite !length_app, !length_host_bytes. Qed.

Lemma length_chunk a : length (chunk a) = align (4 + length a.2).
Proof.
  unfold chunk, PAD_SIZE. rewrite length_app, length_replicate, length_attr_bytes.
  pose proof (align_spec (4 + length a.2)). lia.
Qed.

Lemma put_all_chunks l : forall msg,
  forallb attr_ok l = true -> put_all l msg = Some (msg ++ concat (map chunk l)).
Proof.
  induction l as [| a l IH]; intros msg; cbn [put_all forallb map concat]; [by rewrite app_nil_r |].
  intros [Ha Hl]%andb_prop. unfold attr_ok in Ha. apply andb_prop in Ha as [_ Ha].
  apply negb_true_iff in Ha. unfold nl_msg_put_unspec. rewrite Ha. cbn [mbind option_bind].
  rewrite IH by done. unfold nl_msg_put. by rewrite <- app_assoc.
Qed.

Lemma read_chunk a rest :
  attr_ok a = true ->
  read_attr e (chunk a ++ rest) =
  mk_attr (4 + length a.2) a.1
    (a.2 ++ replicate (PAD_SIZE (length (attr_bytes e a.1 a.2))) 0 ++ rest).
Proof.
  intros Ha. unfold attr_ok, nl_attr_oversized in Ha. rewrite !andb_true_iff, negb_true_iff in Ha.
  destruct a as [t d]. cbn [fst snd] in *. destruct Ha as [[Ht1 Ht2] Hd].
  unfold chunk, attr_bytes, attr_header. cbn [fst snd]. rewrite <- !app_assoc.
  unfold read_attr, bytes_at. rewrite drop_0.
  rewrite take_app_exact, (drop_app_exact 2), take_app_exact by apply length_host_bytes.
  rewrite !host_val_bytes by (unfold in_u, NLA_HDRLEN in *;
    change (2 ^ (8 * Z.of_nat 2)) with 65536; change (2 ^ 16) with 65536 in *;
    change (Z.of_nat 4) with 4 in *; lia).
  f_equal; [unfold NLA_HDRLEN; lia |].
  rewrite app_assoc. apply drop_app_exact. by rewrite length_app, !length_host_bytes.
Qed.

(** Type and payload of an attribute. *)
Definition view (a : nlattr) : Z * option (list Z) := (nla_type a, nl_attr_get a).

(** The attributes that the loop visits in a list of chunks. *)
Fixpoint visited_attrs (l : list (Z * list Z)) : list nlattr :=
  match l with
  | [] => []
  | a :: l =>
      mk_attr (4 + length a.2) a.1
        (a.2 ++ replicate (PAD_SIZE (length (attr_bytes e a.1 a.2))) 0 ++ concat (map chunk l))
      :: visited_attrs l
  end.

Lemma for_each_chunks_exact l : forall fuel,
  forallb attr_ok l = true -> (length l <= fuel)%nat ->
  let b := concat (map chunk l) in
  for_each_attr e fuel b (length b) = (visited_attrs l, 0%nat).
Proof.
  induction l as [| a l IH]; intros fuel Hok Hf; cbv zeta; cbn [map concat].
  - by destruct fuel.
  - destruct fuel as [| fuel]; [cbn [length] in Hf; lia |]. cbn [forallb] in Hok.
    apply andb_prop in Hok as [Ha Hl]. cbn [visited_attrs]. set (b := concat (map chunk l)) in *.
    pose proof (align_spec (4 + length a.2)) as Hal.
    cbn [for_each_attr]. unfold nl_attr_is_valid, nl_attr_len_pad, nl_attr_next.
    rewrite read_chunk by done. cbn [nla_len]. rewrite length_app, length_chunk. unfold NLA_HDRLEN.
    destruct (Nat.leb_spec 4 (align (4 + length a.2) + length b)); [| lia].
    destruct (Nat.leb_spec 4 (4 + length a.2)); [| lia].
    destruct (Nat.leb_spec (4 + length a.2) (align (4 + length a.2) + length b)); [| lia].
    destruct (Nat.leb_spec (align (4 + length a.2)) (align (4 + length a.2) + length b)); [| lia].
    cbn [andb]. rewrite drop_app_exact by apply length_chunk.
    replace (align (4 + length a.2) + length b - align (4 + length a.2))%nat with (length b) by lia.
    unfold b. by rewrite IH by (done || cbn [length] in Hf; lia).
Qed.

Lemma chunks_length l : (length l <= length (concat (map chunk l)))%nat.
Proof.
  induction l as [| a l IH]; cbn [map concat length]; [done |].
  rewrite length_app, length_chunk. pose proof (align_spec (4 + length a.2)). lia.
Qed.

Lemma nl_attrs_chunks l :
  forallb attr_ok l = true -> nl_attrs e (concat (map chunk l)) = (visited_attrs l, 0%nat).
Proof. intros H. apply for_each_chunks_exact; [done | apply chunks_length]. Qed.

Lemma view_visited l : map view (visited_attrs l) = map (λ a, (a.1, Some a.2)) l.
Proof.
  induction l as [| a l IH]; cbn [visited_attrs map]; [done |]. rewrite IH. f_equal.
  unfold view, nl_attr_get, nl_attr_get_size. cbn [nla_len nla_type nla_rest].
  change (NLA_HDRLEN <=? 4 + length a.2)%nat with true.
  cbn [mbind option_bind]. f_equal. f_equal. unfold NLA_HDRLEN.
  replace (4 + length a.2 - 4)%nat with (length a.2) by lia. apply take_app_length.
Qed.

(** A nested attribute, opened, filled and closed, is the attribute with that payload, where
    the payload ends on a boundary of four bytes. *)
Lemma nested_chunk type data msg :
  attr_ok (type, data) = true -> align (length data) = length data ->
  exists m, nl_msg_start_nested e type msg = Some (length msg, m) /\
    nl_msg_end_nested e (length msg) (m ++ data) = Some (msg ++ chunk (type, data)).
Proof.
  intros Hok Hal. unfold attr_ok in Hok. cbn [fst snd] in Hok. rewrite !andb_true_iff, negb_true_iff in Hok.
  destruct Hok as [[Ht1 Ht2] Hd]. unfold nl_msg_start_nested, nl_msg_put_unspec.
  change (nl_attr_oversized (length [])) with false. cbn [mbind option_bind].
  eexists. split; [done |]. unfold nl_msg_put. rewrite length_attr_bytes.
  change (PAD_SIZE (4 + length [])) with 0%nat. cbn [replicate]. rewrite app_nil_r.
  unfold attr_bytes, attr_header. rewrite app_nil_r.
  unfold nl_msg_end_nested. rewrite !length_app, !length_host_bytes. unfold NLA_HDRLEN.
  destruct (Nat.ltb_spec (length msg + (2 + 2) + length data) (length msg + 4)); [lia |].
  replace (length msg + (2 + 2) + length data - length msg - 4)%nat with (length data) by lia.
  rewrite Hd. f_equal. unfold store. rewrite length_host_bytes, <- !app_assoc.
  rewrite take_app_length. f_equal.
  rewrite (app_assoc msg), drop_app_exact by (by rewrite length_app, length_host_bytes).
  unfold chunk, attr_bytes, attr_header. cbn [fst snd]. rewrite !length_app, !length_host_bytes.
  replace (PAD_SIZE (2 + 2 + length data)) with 0%nat.
  { cbn [replicate]. rewrite app_nil_r, <- !app_assoc. unfold NLA_HDRLEN. do 3 f_equal. lia. }
  unfold PAD_SIZE, align in *. clear -Hal.
  replace (2 + 2 + length data + 3)%nat with (length data + 3 + 1 * 4)%nat by lia.
  rewrite Nat.div_add by lia. lia.
Qed.

(** A message built by appending attributes reads back as exactly those attributes, in
    order, with their types and payloads and no byte left over; appending fails for no
    payload that fits the 16-bit length field. *)
Theorem netlink_attrs_roundtrip l :
  forallb attr_ok l = true ->
  exists msg, put_all l [] = Some msg /\
    map view (nl_attrs e msg).1 = map (λ a, (a.1, Some a.2)) l /\ (nl_attrs e msg).2 = 0%nat.
Proof.
  intros H. exists (concat (map chunk l)). split; [by rewrite put_all_chunks |].
  rewrite nl_attrs_chunks by done. split; [apply view_visited | done].
Qed.

(** ** Reading arbitrary bytes *)

(** The loop keeps [left] equal to what the buffer still holds, or too small for a header. *)
Lemma for_each_safe fuel : forall b left,
  (length b = left \/ left < 4)%nat -> (left <= fuel)%nat ->
  (forall a, a ∈ (for_each_attr e fuel b left).1 ->
     exists k, a = read_attr e (drop k b) /\ (4 <= nla_len a)%nat /\
       (k + nla_len a <= length b)%nat) /\
  exists b', nl_attr_is_valid e b' (for_each_attr e fuel b left).2 = false.
Proof.
  induction fuel as [| fuel IH]; intros b left Hb Hf; cbn [for_each_attr].
  - split; [by intros a ?%elem_of_nil |]. exists b.
    by assert (left = 0)%nat as -> by lia.
  - destruct (nl_attr_is_valid e b left) eqn:Hv; cbn [fst snd].
    2: { split; [by intros a ?%elem_of_nil | by exists b]. }
    assert (Hv' := Hv). unfold nl_attr_is_valid, NLA_HDRLEN in Hv'.
    rewrite !andb_true_iff, !Nat.leb_le in Hv'. destruct Hv' as [[H1 H2] H3].
    destruct Hb as [Hb | Hb]; [| lia].
    pose proof (align_spec (nla_len (read_attr e b))) as Hal.
    unfold nl_attr_len_pad, nl_attr_next in *. set (n := nla_len (read_attr e b)) in *.
    set (left' := (left - (if (align n <=? left)%nat then align n else n))%nat).
    destruct (IH (drop (align n) b) left') as [IH1 IH2].
    { rewrite length_drop. subst left'. destruct (Nat.leb_spec (align n) left); lia. }
    { subst left'. destruct (Nat.leb_spec (align n) left); lia. }
    destruct (for_each_attr e fuel (drop (align n) b) left') as [l r]. cbn [fst snd] in *.
    split; [| done]. intros a [-> | Ha]%elem_of_cons.
    + exists 0%nat. rewrite drop_0. split; [done |]. lia.
    + destruct (IH1 a Ha) as (k & -> & H4 & H5). exists (align n + k)%nat.
      rewrite drop_drop in *. rewrite length_drop in H5. split; [done |]. lia.
Qed.


(** ** Policies *)

(** What a stored attribute satisfies. *)
Definition attr_fits (visited : list nlattr) (i : nat) (p : nl_policy) (a : nlattr) : Prop :=
  a ∈ visited /\ Z.to_nat (nl_type a) = i /\ nl_attr_validate a p = true.

Lemma policy_loop_sound policy visited l : forall attrs attrs',
  (forall a, a ∈ l -> a ∈ visited) -> length attrs = length policy ->
  (forall i p a, policy !! i = Some p -> attrs !! i = Some (Some a) -> attr_fits visited i p a) ->
  policy_loop policy l attrs = Some attrs' ->
  length attrs' = length policy /\
  (forall i p a, policy !! i = Some p -> attrs' !! i = Some (Some a) -> attr_fits visited i p a).
Proof.
  induction l as [| a l IH]; intros attrs attrs' Hsub Hlen Hok; cbn [policy_loop].
  - by intros [= <-].
  - assert (forall a, a ∈ l -> a ∈ visited) as Hsub' by (intros; apply Hsub; by right).
    destruct (policy !! Z.to_nat (nl_type a)) as [p |] eqn:Ep; [| by apply IH].
    case_bool_decide; [by apply IH |].
    destruct (nl_attr_validate a p) eqn:Ev; [| done].
    apply IH; [done | by rewrite length_insert |].
    intros i q a' Hi Ha'. destruct (decide (i = Z.to_nat (nl_type a))) as [-> | Hne].
    + rewrite list_lookup_insert_eq in Ha' by (rewrite Hlen; by eapply lookup_lt_Some).
      injection Ha' as <-. assert (q = p) as -> by congruence.
      split; [apply Hsub; by left | done].
    + rewrite list_lookup_insert_ne in Ha' by done. by apply Hok.
Qed.

(** [nl_policy_parse] accepts a message only if it is well formed for the policy: no
    bytes are left over, every attribute that is not optional is present, and each attribute
    stored under a type is one of the message, has that type and a payload within the sizes
    that the policy allows. *)
Theorem netlink_policy_sound msg off policy attrs :
  nl_policy_parse e msg off policy = Some attrs ->
  (nl_attrs e (drop off msg)).2 = 0%nat /\ length attrs = length policy /\
  forall i p, policy !! i = Some p -> p_type p <> NL_A_NO_ATTR ->
    match attrs !! i with
    | Some (Some a) =>
        a ∈ (nl_attrs e (drop off msg)).1 /\ Z.to_nat (nl_type a) = i /\
        (policy_min p <= nla_len a - NLA_HDRLEN)%nat /\
        (forall m, policy_max p = Some m -> (nla_len a - NLA_HDRLEN <= m)%nat)
    | _ => optional p = true
    end.
Proof.
  unfold nl_policy_parse. destruct (_ <? _)%nat; [done |].
  destruct (nl_attrs e (drop off msg)) as [l r] eqn:El. cbn [fst snd].
  destruct (policy_loop policy l _) as [attrs' |] eqn:Epl; [| done]. cbn [mbind option_bind].
  destruct (Nat.eqb_spec r 0) as [-> |]; [| done]. cbn [negb].
  destruct (forallb _ _) eqn:Ereq; [| done]. intros [= ->].
  apply (policy_loop_sound policy l) in Epl as [Hlen Hfit].
  2: done. 2: by rewrite length_replicate.
  2: { intros i p a Hi Ha. by apply lookup_replicate_1 in Ha as [[=] _]. }
  split; [done | split; [done |]]. intros i p Hi Hp.
  destruct (attrs !! i) as [[a |] |] eqn:Ea.
  - destruct (Hfit i p a Hi Ea) as (H1 & H2 & Hv). split; [done | split; [done |]].
    unfold nl_attr_validate in Hv. rewrite bool_decide_false in Hv by done.
    destruct (Nat.ltb_spec (nla_len a - NLA_HDRLEN) (policy_min p)); cbn [orb] in Hv; [done |].
    split; [done |]. intros m Hm. rewrite Hm in Hv.
    by destruct (Nat.ltb_spec m (nla_len a - NLA_HDRLEN)).
  - rewrite forallb_forall in Ereq. specialize (Ereq (p, None)).
    cbn [nl_attr_get_flag] in Ereq. rewrite orb_false_r, bool_decide_false, orb_false_r in Ereq by done.
    apply Ereq. apply list_elem_of_In. apply (list_elem_of_lookup_2 _ i).
    apply lookup_zip_Some. done.
  - apply lookup_ge_None in Ea. apply lookup_lt_Some in Hi. lia.
Qed.

End Properties.

(** ** A small message *)

Definition sample_attrs : list (Z * list Z) := [(1, [7]); (3, [1; 2; 3; 4; 5]); (2, [0x10; 0x20; 0; 0])].

Lemma netlink_attrs_roundtrip_witness :
  exists msg, put_all Little sample_attrs [] = Some msg /\
    map view (nl_attrs Little msg).1 = [(1, Some [7]); (3, Some [1; 2; 3; 4; 5]); (2, Some [16; 32; 0; 0])].
Proof.
  destruct (netlink_attrs_roundtrip Little sample_attrs eq_refl) as (msg & H1 & H2 & _).
  exists msg. split; [exact H1 | exact H2].
Defined.

(** Type 1 is an optional byte, type 2 a required 32-bit number; type 3 is not looked at. *)
Definition sample_policy : list nl_policy :=
  [mk_policy NL_A_NO_ATTR 0 0 false; mk_policy NL_A_U8 0 0 true; mk_policy NL_A_U32 0 0 false].

Definition sample_msg : list Z := concat (map (chunk Little) sample_attrs).

Lemma netlink_policy_sound_witness :
  exists attrs, nl_policy_parse Little sample_msg 0 sample_policy = Some attrs /\
    length attrs = 3%nat.
Proof.
  destruct (nl_policy_parse Little sample_msg 0 sample_policy) as [attrs |] eqn:E;
    [| by vm_compute in E].
  exists attrs. split; [done |].
  exact (proj1 (proj2 (netlink_policy_sound Little sample_msg 0 sample_policy attrs E))).
Defined.

End Netlink.
