(* ===== verification/Gateway.v ===== *)
(** The gateway extension: the OpenFlow actions "config_gw" and "handle_gw" as text (the
    parsers and formatters of lib/ofp-actions.c), on the wire (its encoders and decoders), as
    datapath actions (the composers of ofproto/ofproto-dpif-xlate.c, the formatters of
    lib/odp-util.c), and the parameters that "dpctl set-gateway-params" sends to the kernel
    (lib/dpctl.c, lib/dpif-netlink.c, datapath/datapath.c). *)
From S2P Require Import Prelude Text Scan KeyValue Netlink.

Module Gateway.
Import KeyValue.

(** ** The actions *)

(** [struct ofpact_config_gw], and the fields of [struct ofp_action_config_gw] and
    [struct ovs_action_config_gw]: 32-bit integers in the byte order of the host, also
    those declared as big endian, and Ethernet addresses. *)
Record config_gw := mk_config {
  param1 : Z; param2 : Z; param3 : list Z;
  param4 : Z; param5 : Z; param6 : list Z;
  param7 : Z; param8 : Z; param9 : list Z;
}.

#[export] Instance config_gw_eta : RecordEta config_gw := λ r,
  mk_config (param1 r) (param2 r) (param3 r) (param4 r) (param5 r) (param6 r)
    (param7 r) (param8 r) (param9 r).

(** [struct ofpact_handle_gw], [struct ofp_action_handle_gw], [struct ovs_action_handle_gw]. *)
Record handle_gw := mk_handle {
  pipeline1 : Z; pipeline2 : Z; pipeline3 : Z; pipeline4 : Z; pipeline5 : Z;
}.

#[export] Instance handle_gw_eta : RecordEta handle_gw := λ r,
  mk_handle (pipeline1 r) (pipeline2 r) (pipeline3 r) (pipeline4 r) (pipeline5 r).

(** What [ofpact_put_*] leaves: every byte zero. *)
Definition no_mac : list Z := replicate 6 0.
Definition zero_config : config_gw := mk_config 0 0 no_mac 0 0 no_mac 0 0 no_mac.
Definition zero_handle : handle_gw := mk_handle 0 0 0 0 0.

Definition is_u32 (x : Z) : bool := (0 <=? x) && (x <? 2 ^ 32).

Definition config_ok (a : config_gw) : bool :=
  forallb is_u32 [param1 a; param2 a; param4 a; param5 a; param7 a; param8 a] &&
  forallb is_mac [param3 a; param6 a; param9 a].

Definition handle_ok (a : handle_gw) : bool :=
  forallb is_u32 [pipeline1 a; pipeline2 a; pipeline3 a; pipeline4 a; pipeline5 a].

(** ** Text of the OpenFlow actions *)

Definition streq (key : chars) (name : string) : bool := bool_decide (key = str name).
Arguments streq key name%_string_scope.

(** What a parser returns: a null pointer, or a pointer to a message that it has already
    freed. *)
Inductive returned := Null | Freed (message : chars).

Section Text.
Context (scan_float : chars -> Scan.scan_spec -> Scan.conversion).

(** Sets an Ethernet address; on error the action stays as it was. *)
Definition put_mac {A} (a : A) (set : list Z -> A) (value : chars) : A + A * chars :=
  match str_to_mac scan_float value with
  | inl ethaddr => inl (set ethaddr)
  | inr error => inr (a, error)
  end.

(** The body of the loop of [parse_CONFIG_GW]; unknown keys are ignored. *)
Definition config_gw_pair (a : config_gw) (name value : chars) : config_gw + config_gw * chars :=
  if streq name "param1" then inl (a <| param1 := u32 (atoi value) |>)
  else if streq name "param2" then inl (a <| param2 := u32 (atoi value) |>)
  else if streq name "param3" then put_mac a (λ m, a <| param3 := m |>) value
  else if streq name "param4" then inl (a <| param4 := u32 (atoi value) |>)
  else if streq name "param5" then inl (a <| param5 := u32 (atoi value) |>)
  else if streq name "param6" then put_mac a (λ m, a <| param6 := m |>) value
  else if streq name "param7" then inl (a <| param7 := u32 (atoi value) |>)
  else if streq name "param8" then inl (a <| param8 := u32 (atoi value) |>)
  else if streq name "param9" then put_mac a (λ m, a <| param9 := m |>) value
  else inl a.

(** The action appended to the buffer, which stays there on error, and the returned
    pointer. *)
Definition parse_CONFIG_GW (arg : chars) : option (config_gw * returned) :=
  match parse_pairs config_gw_pair zero_config arg with
  | None => None
  | Some (inl a) => Some (a, Null)
  | Some (inr (a, error)) => Some (a, Freed error)
  end.

End Text.

Definition handle_gw_pair (a : handle_gw) (name value : chars) : handle_gw + handle_gw * chars :=
  if streq name "pipeline1" then inl (a <| pipeline1 := u32 (atoi value) |>)
  else if streq name "pipeline2" then inl (a <| pipeline2 := u32 (atoi value) |>)
  else if streq name "pipeline3" then inl (a <| pipeline3 := u32 (atoi value) |>)
  else if streq name "pipeline4" then inl (a <| pipeline4 := u32 (atoi value) |>)
  else if streq name "pipeline5" then inl (a <| pipeline5 := u32 (atoi value) |>)
  else inl a.

Definition parse_HANDLE_GW (arg : chars) : option (handle_gw * returned) :=
  match parse_pairs handle_gw_pair zero_handle arg with
  | None => None
  | Some (inl a) => Some (a, Null)
  | Some (inr (a, error)) => Some (a, Freed error)
  end.

(** [if (x != 0) ds_put_format(s, prefix "%u" or "%x", x)] *)
Definition put_num (prefix : string) (base x : Z) : chars :=
  if x =? 0 then [] else str prefix ++ print_uint base x.
Arguments put_num prefix%_string_scope.

(** The address of an array is never null, so addresses are always printed. *)
Definition format_CONFIG_GW (a : config_gw) : chars :=
  str "config_gw("
  ++ put_num "param1=" 10 (param1 a)
  ++ put_num ",param2=" 10 (param2 a)
  ++ str ",param3=" ++ print_mac (param3 a)
  ++ put_num ",param4=" 10 (param4 a)
  ++ put_num ",param5=" 10 (param5 a)
  ++ str ",param6=" ++ print_mac (param6 a)
  ++ put_num ",param7=" 10 (param7 a)
  ++ put_num ",param8=" 10 (param8 a)
  ++ str ",param9=" ++ print_mac (param9 a)
  ++ str ")".

Definition format_HANDLE_GW (a : handle_gw) : chars :=
  str "handle_gw("
  ++ put_num "pipeline1=" 16 (pipeline1 a)
  ++ put_num ",pipeline2=" 16 (pipeline2 a)
  ++ put_num ",pipeline3=" 16 (pipeline3 a)
  ++ put_num ",pipeline4=" 16 (pipeline4 a)
  ++ put_num ",pipeline5=" 16 (pipeline5 a)
  ++ str ")".

(** Both checks accept every action. *)
Definition check_CONFIG_GW (a : config_gw) : Z := 0.
Definition check_HANDLE_GW (a : handle_gw) : Z := 0.

(** ** The actions on the wire *)

Section Wire.
Context (e : endian).

(** The 56 bytes of [struct ofp_action_config_gw].  [header] is what the generated
    [put_OFPAT_CONFIG_GW] writes: the type and the length, 4 bytes; it zeroes the rest. *)
Definition encode_CONFIG_GW (header : list Z) (a : config_gw) : list Z :=
  header
  ++ host_bytes e 4 (param1 a) ++ host_bytes e 4 (param2 a) ++ param3 a ++ [0; 0]
  ++ host_bytes e 4 (param4 a) ++ host_bytes e 4 (param5 a) ++ param6 a ++ [0; 0]
  ++ host_bytes e 4 (param7 a) ++ host_bytes e 4 (param8 a) ++ param9 a ++ replicate 6 0.

Definition host_at (o : nat) (b : list Z) : Z := host_val e (bytes_at o 4 b).

Definition decode_OFPAT_RAW_CONFIG_GW (b : list Z) : config_gw := {|
  param1 := host_at 4 b; param2 := host_at 8 b; param3 := bytes_at 12 6 b;
  param4 := host_at 20 b; param5 := host_at 24 b; param6 := bytes_at 28 6 b;
  param7 := host_at 36 b; param8 := host_at 40 b; param9 := bytes_at 44 6 b;
|}.

(** The 24 bytes of [struct ofp_action_handle_gw]. *)
Definition encode_HANDLE_GW (header : list Z) (a : handle_gw) : list Z :=
  header ++ host_bytes e 4 (pipeline1 a) ++ host_bytes e 4 (pipeline2 a)
  ++ host_bytes e 4 (pipeline3 a) ++ host_bytes e 4 (pipeline4 a) ++ host_bytes e 4 (pipeline5 a).

Definition decode_OFPAT_RAW_HANDLE_GW (b : list Z) : handle_gw := {|
  pipeline1 := host_at 4 b; pipeline2 := host_at 8 b; pipeline3 := host_at 12 b;
  pipeline4 := host_at 16 b; pipeline5 := host_at 20 b;
|}.

(** ** The datapath actions *)

Definition OVS_ACTION_ATTR_CONFIG_GW : Z := 51.
Definition OVS_ACTION_ATTR_HANDLE_GW : Z := 52.

(** The 48 bytes of [struct ovs_action_config_gw] in the zeroed attribute: two bytes of
    padding follow each address. *)
Definition ovs_config_gw (a : config_gw) : list Z :=
  host_bytes e 4 (param1 a) ++ host_bytes e 4 (param2 a) ++ param3 a ++ [0; 0]
  ++ host_bytes e 4 (param4 a) ++ host_bytes e 4 (param5 a) ++ param6 a ++ [0; 0]
  ++ host_bytes e 4 (param7 a) ++ host_bytes e 4 (param8 a) ++ param9 a ++ [0; 0].

Definition compose_config_gw_action (odp_actions : list Z) (a : config_gw) : option (list Z) :=
  m ← Netlink.nl_msg_put_unspec_zero e OVS_ACTION_ATTR_CONFIG_GW 48 odp_actions;
  Some (Netlink.store (length odp_actions + Netlink.NLA_HDRLEN) (ovs_config_gw a) m).

Definition ovs_handle_gw (a : handle_gw) : list Z :=
  host_bytes e 4 (pipeline1 a) ++ host_bytes e 4 (pipeline2 a)
  ++ host_bytes e 4 (pipeline3 a) ++ host_bytes e 4 (pipeline4 a) ++ host_bytes e 4 (pipeline5 a).

Definition compose_handle_gw_action (odp_actions : list Z) (a : handle_gw) : option (list Z) :=
  m ← Netlink.nl_msg_put_unspec_zero e OVS_ACTION_ATTR_HANDLE_GW 20 odp_actions;
  Some (Netlink.store (length odp_actions + Netlink.NLA_HDRLEN) (ovs_handle_gw a) m).

(** The structs that a datapath finds in the payload of the attributes. *)
Definition read_config_gw (b : list Z) : config_gw := {|
  param1 := host_at 0 b; param2 := host_at 4 b; param3 := bytes_at 8 6 b;
  param4 := host_at 16 b; param5 := host_at 20 b; param6 := bytes_at 24 6 b;
  param7 := host_at 32 b; param8 := host_at 36 b; param9 := bytes_at 40 6 b;
|}.

Definition read_handle_gw (b : list Z) : handle_gw := {|
  pipeline1 := host_at 0 b; pipeline2 := host_at 4 b; pipeline3 := host_at 8 b;
  pipeline4 := host_at 12 b; pipeline5 := host_at 16 b;
|}.

(** [ntohl] of a 32-bit integer held in host byte order. *)
Definition ntohl (x : Z) : Z := be_val (host_bytes e 4 x).

Definition format_odp_config_gw_action (attr : Netlink.nlattr) : option chars :=
  b ← Netlink.nl_attr_get attr;
  let a := read_config_gw b in
  Some (str "config_gw("
    ++ put_num "param1=" 10 (param1 a)
    ++ (if param2 a =? 0 then [] else str ",param2=" ++ print_uint 16 (ntohl (param2 a)))
    ++ str ",param3=" ++ print_mac (param3 a)
    ++ put_num ",param4=" 10 (param4 a)
    ++ (if param5 a =? 0 then [] else str ",param5=" ++ print_uint 16 (ntohl (param5 a)))
    ++ str ",param6=" ++ print_mac (param6 a)
    ++ put_num ",param7=" 10 (param7 a)
    ++ (if param8 a =? 0 then [] else str ",param8=" ++ print_uint 16 (ntohl (param8 a)))
    ++ str ",param9=" ++ print_mac (param9 a)
    ++ str ")").

Definition format_odp_handle_gw_action (attr : Netlink.nlattr) : option chars :=
  b ← Netlink.nl_attr_get attr;
  let a := read_handle_gw b in
  let put prefix x := if x =? 0 then [] else str prefix ++ print_uint 16 (ntohl x) in
  Some (str "handle_gw("
    ++ put "pipeline1="%string (pipeline1 a)
    ++ put ",pipeline2="%string (pipeline2 a)
    ++ put ",pipeline3="%string (pipeline3 a)
    ++ put ",pipeline4="%string (pipeline4 a)
    ++ put ",pipeline5="%string (pipeline5 a)
    ++ str ")").

End Wire.

(** ** dpctl set-gateway-params *)

(** [struct dp_config_gw] *)
Record dp_config_gw := mk_dp_config { gw_param1 : Z; gw_param2 : Z; gw_param3 : list Z }.

#[export] Instance dp_config_gw_eta : RecordEta dp_config_gw := λ r,
  mk_dp_config (gw_param1 r) (gw_param2 r) (gw_param3 r).

Definition EINVAL : Z := 22.
Definition EOPNOTSUPP : Z := 95.

Section Dpctl.
Context (scan_float : chars -> Scan.scan_spec -> Scan.conversion).

(** The body of the loop of [gw_dpif_parse_params]; an error carries the message. *)
Definition gw_dpif_pair (a : dp_config_gw) (key value : chars) : dp_config_gw + chars :=
  match value with
  | [] => inr (str "field " ++ key ++ str " missing value")
  | _ =>
      if streq key "param1" then inl (a <| gw_param1 := u32 (atoi value) |>)
      else if streq key "param2" then inl (a <| gw_param2 := u32 (atoi value) |>)
      else if streq key "param3" then
        match str_to_mac scan_float value with
        | inl ethaddr => inl (a <| gw_param3 := ethaddr |>)
        | inr _ => inr (str "failed to parse field " ++ key)
        end
      else inr (str "invalid field: " ++ key)
  end.

(** From the contents of the struct; [None] only when the loop does not end. *)
Definition gw_dpif_parse_params (s : chars) (a : dp_config_gw) : option (dp_config_gw + chars) :=
  parse_pairs gw_dpif_pair a s.

(** The parameter list in order; [uninit i] is what the uninitialised struct of the [i]th
    argument holds. *)
Fixpoint parse_param_args (uninit : nat -> dp_config_gw) (i : nat) (args : list chars)
    (params_list : list dp_config_gw) : option (list dp_config_gw + chars) :=
  match args with
  | [] => Some (inl params_list)
  | s :: args =>
      match gw_dpif_parse_params s (uninit i) with
      | None => None
      | Some (inr msg) => Some (inr msg)
      | Some (inl a) => parse_param_args uninit (S i) args (params_list ++ [a])
      end
  end.

(** The provider's function, if it has one. *)
Definition gw_set_params : Type := option (option Z -> list dp_config_gw -> Z).

Definition gw_dpif_set_params (f : gw_set_params) (operation : option Z)
    (params_list : list dp_config_gw) : Z :=
  match f with Some f => f operation params_list | None => EOPNOTSUPP end.

(** An error code with its message, or a read of the null pointer that ends [argv]. *)
Inductive dpctl_result := NullArgument | Returns (error : Z) (message : chars).

(** [dp_arg] is whether the first argument names a datapath; [open_error] what opening it
    returns. *)
Definition dpctl_set_gateway_params (uninit : nat -> dp_config_gw) (dp_arg : bool) (open_error : Z)
    (f : gw_set_params) (argv : list chars) : option dpctl_result :=
  let args := drop (if dp_arg then 2 else 1) argv in
  if negb (open_error =? 0) then Some (Returns open_error [])
  else
    match args with
    | [] => Some NullArgument
    | arg :: rest =>
        let operation :=
          if bool_decide (take 10 arg = str "operation=") then
            match Scan.ovs_scan scan_float arg (str "operation=%u") with
            | Some (Scan.OInt v :: _) => inl (Some v, rest)
            | _ => inr (str "invalid operation")
            end
          else inl (None, args) in
        match operation with
        | inr msg => Some (Returns EINVAL msg)
        | inl (operation, args) =>
            match parse_param_args uninit 0 args [] with
            | None => None
            | Some (inr msg) => Some (Returns EINVAL msg)
            | Some (inl params_list) =>
                let error := gw_dpif_set_params f operation params_list in
                Some (Returns error
                  (if error =? 0 then [] else str "failed to set conntrack limit"))
            end
        end
    end.

End Dpctl.

(** ** The request to the kernel *)

Definition OVS_DP_ATTR_USER_FEATURES : Z := 5.
Definition OVS_DP_ATTR_GW_OPERATIONS : Z := 6.
Definition OVS_DP_ATTR_GW_PARAMS : Z := 7.
Definition NLM_F_REQUEST : Z := 1.
Definition NLM_F_ECHO : Z := 8.
Definition OVS_DP_CMD_SET : Z := 4.
Definition OVS_DATAPATH_VERSION : Z := 2.

Section Request.
Context (e : endian).

(** [struct ovs_dp_config_gw]; [pad] is the padding of the struct on the stack. *)
Definition ovs_dp_config_gw (pad : list Z) (a : dp_config_gw) : list Z :=
  host_bytes e 4 (gw_param1 a) ++ host_bytes e 4 (gw_param2 a) ++ gw_param3 a ++ pad.

Definition put_params (pad : list Z) (params_list : list dp_config_gw) (request : list Z) : list Z :=
  foldl (λ request a, Netlink.nl_msg_put (ovs_dp_config_gw pad a) request) request params_list.

(** The request given to [nl_transact], or an error code; [None] when an assertion fails. *)
Definition dpif_netlink_gw_set_params (pad : list Z) (ovs_datapath_family dp_ifindex : Z)
    (operation : option Z) (params_list : list dp_config_gw) : option (list Z + Z) :=
  if ovs_datapath_family <? 0 then Some (inr EOPNOTSUPP)
  else
    request ← Netlink.nl_msg_put_genlmsghdr e ovs_datapath_family
                (Z.lor NLM_F_REQUEST NLM_F_ECHO) OVS_DP_CMD_SET OVS_DATAPATH_VERSION [];
    let request := request ++ host_bytes e 4 dp_ifindex in
    request ← match operation with
              | Some v => Netlink.nl_msg_put_u32 e OVS_DP_ATTR_GW_OPERATIONS v request
              | None => Some request
              end;
    match params_list with
    | [] => Some (inl request)
    | _ =>
        '(opt_offset, request) ← Netlink.nl_msg_start_nested e OVS_DP_ATTR_GW_PARAMS request;
        inl <$> Netlink.nl_msg_end_nested e opt_offset (put_params pad params_list request)
    end.

(** ** The kernel side *)

(** The loop of [ovs_gw_set_params]: the structs it logs and the bytes it leaves. *)
Fixpoint gw_params_loop (fuel rem : nat) (b : list Z) : list dp_config_gw * nat :=
  match fuel with
  | O => ([], rem)
  | S fuel =>
      if (16 <=? rem)%nat then
        let a := mk_dp_config (host_at e 0 b) (host_at e 4 b) (bytes_at 8 6 b) in
        let '(l, r) := gw_params_loop fuel (rem - Netlink.align 16) (drop (Netlink.align 16) b) in
        (a :: l, r)
      else ([], rem)
  end.

Definition ovs_gw_set_params (nla_gw_params : Netlink.nlattr) : list dp_config_gw * nat :=
  let rem := Netlink.align (Netlink.nla_len nla_gw_params - Netlink.NLA_HDRLEN) in
  gw_params_loop rem rem (Netlink.nla_rest nla_gw_params).

(** The new user features, the operation and the parameters taken from the request, and the
    bytes left over. *)
Definition ovs_dp_change (user_features : Z) (a : Z -> option Netlink.nlattr)
  : Z * option Z * (list dp_config_gw * nat) :=
  let nla_get_u32 nla := host_at e 0 (Netlink.nla_rest nla) in
  let user_features :=
    match a OVS_DP_ATTR_USER_FEATURES with Some nla => nla_get_u32 nla | None => user_features end in
  match a OVS_DP_ATTR_GW_OPERATIONS with
  | None => (user_features, None, ([], 0%nat))
  | Some nla =>
      (user_features, Some (nla_get_u32 nla),
       match a OVS_DP_ATTR_GW_PARAMS with
       | Some nla => ovs_gw_set_params nla
       | None => ([], 0%nat)
       end)
  end.

End Request.

End Gateway.
