(* ===== verification/GatewayText.v ===== *)
(** The text of the gateway actions: what the parsers return is well formed, "config_gw"
    reads back exactly, and "handle_gw", printed in hexadecimal and read in decimal, reads
    back for single-digit values only. *)
From S2P Require Import Prelude Text Scan KeyValue Netlink Gateway.

Module GatewayText.
Import KeyValue Gateway.

Lemma is_u32_spec x : is_u32 x = true <-> in_u 32 x.
Proof. unfold is_u32, in_u. lia. Qed.

Lemma is_u32_wrap x : is_u32 (u32 x) = true.
Proof. apply is_u32_spec. by apply wrap_range. Qed.

(** ** What the parsers return *)

(** An invariant of the accumulator holds when the loop ends, either way. *)
Lemma for_each_pair_inv {A} (f : A -> chars -> chars -> A + A * chars) (I : A -> Prop) :
  (forall a k v, I a -> match f a k v with inl a' => I a' | inr (a', _) => I a' end) ->
  forall fuel a s, I a ->
    match for_each_pair fuel f a s with
    | Some (inl a') | Some (inr (a', _)) => I a'
    | None => True
    end.
Proof.
  intros Hf fuel. induction fuel as [| fuel IH]; intros a s Ha; [done |]. cbn [for_each_pair].
  destruct (ofputil_parse_key_value s) as [[[k v] rest] |]; [| done].
  specialize (Hf a k v Ha). destruct (f a k v) as [a' | [a' m]]; [| done]. by apply IH.
Qed.

Lemma config_ok_spec a :
  config_ok a = true <->
  (is_u32 (param1 a) = true /\ is_u32 (param2 a) = true /\ is_u32 (param4 a) = true /\
   is_u32 (param5 a) = true /\ is_u32 (param7 a) = true /\ is_u32 (param8 a) = true) /\
  is_mac (param3 a) = true /\ is_mac (param6 a) = true /\ is_mac (param9 a) = true.
Proof. unfold config_ok. cbn [forallb]. rewrite !andb_true_iff. tauto. Qed.

Lemma put_mac_inv scan_float (I : config_gw -> Prop) a set v :
  I a -> (forall m, is_mac m = true -> I (set m)) ->
  match put_mac scan_float a set v with inl a' => I a' | inr (a', _) => I a' end.
Proof.
  intros Ha Hset. unfold put_mac. destruct (str_to_mac scan_float v) eqn:E; [| done].
  by eapply Hset, str_to_mac_wf.
Qed.

Lemma config_gw_pair_ok scan_float a k v :
  config_ok a = true ->
  match config_gw_pair scan_float a k v with
  | inl a' | inr (a', _) => config_ok a' = true
  end.
Proof.
  intros Ha. pose proof Ha as ((H1 & H2 & H4 & H5 & H7 & H8) & H3 & H6 & H9)%config_ok_spec.
  unfold config_gw_pair.
  repeat match goal with |- context [if streq k ?n then _ else _] => destruct (streq k n) end.
  all: lazymatch goal with |- context [put_mac] => apply put_mac_inv; [exact Ha | intros ??] | _ => idtac end.
  all: apply config_ok_spec; rsimpl; rewrite ?is_u32_wrap; repeat split; assumption.
Qed.

(** Whatever its argument, the parser of "config_gw" returns, and the action that it
    leaves in the buffer is well typed: every integer parameter is a 32-bit value and every
    address has six bytes, also where it returns an error half way. *)
Theorem config_gw_parse_typed scan_float arg :
  exists a r, parse_CONFIG_GW scan_float arg = Some (a, r) /\ config_ok a = true.
Proof.
  unfold parse_CONFIG_GW.
  destruct (for_each_pair_total (S (length arg)) (config_gw_pair scan_float) zero_config arg
    ltac:(lia)) as [x Hx].
  pose proof (for_each_pair_inv (config_gw_pair scan_float) (λ a, config_ok a = true)
    (config_gw_pair_ok scan_float) (S (length arg)) zero_config arg eq_refl) as Hok.
  unfold parse_pairs. rewrite Hx in *. destruct x as [a | [a m]]; by eauto.
Qed.

(** ** Printed items *)

(** The characters of printed values. *)
Definition plain (c : ascii) : bool := value_char c && negb (c =c ")").

Lemma digit_char_plain d : 0 <= d < 16 -> plain (digit_char d) = true.
Proof.
  intros Hd. assert (forallb (λ d, plain (digit_char d)) (map Z.of_nat (seq 0 16)) = true) as H
    by by vm_compute.
  rewrite forallb_forall in H. apply H, in_map_iff. exists (Z.to_nat d).
  split; [lia | apply in_seq; lia].
Qed.

Lemma print_uint_plain b x :
  2 <= b <= 16 -> in_u 32 x -> forallb plain (print_uint b x) = true.
Proof.
  intros Hb Hx. unfold print_uint. assert (0 <= x < b ^ Z.of_nat 64) as Hx'.
  { unfold in_u in Hx. split; [lia |]. apply Z.lt_le_trans with (2 ^ 32); [lia |].
    transitivity (b ^ 32); [apply Z.pow_le_mono_l; lia | apply Z.pow_le_mono_r; lia]. }
  destruct (digits_spec 64 b x ltac:(lia) Hx') as [_ Hd].
  apply forallb_forall. intros c (d & <- & Hin)%in_map_iff. apply digit_char_plain.
  rewrite Forall_forall in Hd. apply list_elem_of_In in Hin. specialize (Hd d Hin). lia.
Qed.

Lemma print_hex2_plain b : in_u 8 b -> forallb plain (print_hex2 b) = true.
Proof.
  unfold in_u. change (2 ^ 8) with 256. intros Hb. unfold print_hex2. cbn [forallb].
  rewrite !digit_char_plain by (Z.to_euclidean_division_equations; lia). done.
Qed.

Lemma print_mac_plain m : Forall (in_u 8) m -> forallb plain (print_mac m) = true.
Proof.
  induction m as [| b m IH]; intros Hm; [done |]. apply Forall_cons in Hm as [Hb Hm].
  destruct m as [| b' m]; [by apply print_hex2_plain |].
  change (print_mac (b :: b' :: m)) with (print_hex2 b ++ str ":" ++ print_mac (b' :: m)).
  rewrite !forallb_app, print_hex2_plain, IH by done. done.
Qed.

(** The pairs that are printed for a number and for an address. *)
Definition num_item (name : string) (base x : Z) : list (chars * chars) :=
  if x =? 0 then [] else [(str name, print_uint base x)].
Definition mac_item (name : string) (m : list Z) : list (chars * chars) :=
  [(str name, print_mac m)].

Definition item_ok (p : chars * chars) : bool :=
  match p.1 with [] => false | _ => true end && forallb key_char p.1 && forallb plain p.1
  && forallb plain p.2.

Lemma plain_value s : forallb plain s = true -> forallb value_char s = true.
Proof.
  rewrite !forallb_forall. intros H c Hc. specialize (H c Hc). unfold plain in H.
  by apply andb_prop in H as [? _].
Qed.

Lemma item_pair_ok l : forallb item_ok l = true -> forallb pair_ok l = true.
Proof.
  rewrite !forallb_forall. intros H p Hp. specialize (H p Hp). unfold item_ok, pair_ok in *.
  rewrite !andb_true_iff in *. destruct H as [[[H1 H2] _] H3]. by rewrite (plain_value p.2).
Qed.

(** No parenthesis in what is printed. *)
Definition no_paren (c : ascii) : bool := negb (c =c "(") && negb (c =c ")").

Lemma plain_no_paren s : forallb plain s = true -> forallb no_paren s = true.
Proof.
  rewrite !forallb_forall. intros H c Hc. specialize (H c Hc). unfold plain, value_char in H.
  unfold no_paren. rewrite !andb_true_iff in *. tauto.
Qed.

Lemma render_no_paren l : forallb item_ok l = true -> forallb no_paren (render l) = true.
Proof.
  induction l as [| [k v] l IH]; [done |]. cbn [forallb]. intros [Hp Hl]%andb_prop.
  unfold item_ok in Hp. cbn [fst snd] in Hp. rewrite !andb_true_iff in Hp.
  unfold render. cbn [flat_map]. fold (render l). rewrite !forallb_app, IH by done.
  destruct Hp as [[[_ _] Hk] Hv]. by rewrite (plain_no_paren k), (plain_no_paren v).
Qed.

Lemma parse_value_paren s rest :
  forallb no_paren s = true -> parse_value (str ")") 0 (s ++ str ")" ++ rest) = length s.
Proof.
  induction s as [| c s IH]; [done |]. cbn [forallb app length parse_value].
  intros [Hc Hs]%andb_prop. unfold no_paren in Hc. rewrite andb_true_iff, !negb_true_iff in Hc.
  destruct Hc as [H1 H2]. change (in_set (str ")") c) with ((c =c ")")%char || false).
  rewrite H1, H2. cbn [orb]. by rewrite IH.
Qed.

(** The argument of an action in parentheses. *)
Lemma parse_key_value_action name arg :
  name <> [] -> forallb key_char name = true -> forallb no_paren arg = true ->
  ofputil_parse_key_value (name ++ str "(" ++ arg ++ str ")") = Some (name, arg, []).
Proof.
  intros Hn0 Hn Ha. unfold ofputil_parse_key_value.
  assert (in_set seps (hd_char name) = false) as Hn1.
  { destruct name as [| c name]; [done |]. cbn [forallb hd_char] in *.
    apply andb_prop in Hn as [Hc _]. unfold key_char, key_ends, in_set in *.
    rewrite existsb_app in Hc. by apply negb_true_iff, orb_false_iff in Hc as [_ ?]. }
  pose proof (span_app (in_set seps) [] (name ++ str "(" ++ arg ++ str ")") eq_refl) as E.
  cbn [app] in E. rewrite E by (left; by destruct name). cbn [snd].
  destruct (name ++ str "(" ++ arg ++ str ")") as [| c0 s0] eqn:E0; [by destruct name |].
  rewrite <- E0, span_app by (done || by left).
  cbn [str String.list_ascii_of_string app hd_char tail].
  change (("(" =c ":")%char || ("(" =c "=")%char || ("(" =c "(")%char) with true.
  change ("(" =c "(")%char with true. cbv iota.
  pose proof (parse_value_paren arg [] Ha) as E1. rewrite app_nil_r in E1.
  change (str ")") with [")"%char] in *. rewrite E1.
  unfold char_at. rewrite drop_app_length.
  change (S (S (length arg))) with (2 + length arg)%nat.
  change (S (length arg)) with (1 + length arg)%nat.
  rewrite !(Nat.add_comm _ (length arg)), <- !drop_drop, !drop_app_length. cbn [hd_char drop].
  change (NUL =c "-")%char with false. rewrite andb_false_r. cbn [andb]. cbv iota.
  rewrite take_app_length, drop_ge; [done |]. rewrite length_app. cbn [length]. lia.
Qed.

(** Parsing the pairs of a list of items, the first with or without its comma. *)
Lemma parse_pairs_items {A E} (f : A -> chars -> chars -> A + E) a l s :
  forallb item_ok l = true -> s = render l \/ s = tail (render l) ->
  parse_pairs f a s = Some (run_pairs f a l).
Proof.
  intros Hok Hs. unfold parse_pairs.
  rewrite (for_each_pair_fuel f _ (S (S (length s)))) by lia.
  apply for_each_pair_render; [by apply item_pair_ok | done |].
  destruct Hs as [-> | ->]; [lia |]. destruct (render l); cbn [tail length]; lia.
Qed.

Lemma render_app l k : render (l ++ k) = render l ++ render k.
Proof. apply flat_map_app. Qed.

Lemma str_app a b : str (a ++ b) = str a ++ str b.
Proof.
  induction a as [| c a IH]; [done |]. unfold str in *. cbn [String.append String.list_ascii_of_string app].
  by rewrite <- IH.
Qed.

Lemma render_num name base x :
  render (num_item name base x) = put_num ("," ++ name ++ "=")%string base x.
Proof.
  unfold num_item, put_num. destruct (x =? 0); [done |]. cbn [render flat_map].
  rewrite app_nil_r, !str_app, <- !app_assoc. done.
Qed.

(** What is read back of a number that was printed in base [base], or not printed. *)
Definition read_back (base x : Z) : Z := if x =? 0 then 0 else u32 (atoi (print_uint base x)).

Lemma read_back_decimal x : in_u 32 x -> read_back 10 x = x.
Proof. intros Hx. unfold read_back. destruct (Z.eqb_spec x 0); [done | by apply atoi_print]. Qed.

Lemma run_num {A E} (f : A -> chars -> chars -> A + E) a name base x l (set : Z -> A) :
  (forall v, f a (str name) v = inl (set (u32 (atoi v)))) -> set 0 = a ->
  run_pairs f a (num_item name base x ++ l) = run_pairs f (set (read_back base x)) l.
Proof.
  intros Hf H0. unfold num_item, read_back.
  destruct (Z.eqb_spec x 0) as [-> | Hx0]; cbn [app run_pairs]; [by rewrite H0 | by rewrite Hf].
Qed.

Lemma num_item_ok name base x :
  2 <= base <= 16 -> in_u 32 x -> item_ok (str name, []) = true ->
  forallb item_ok (num_item name base x) = true.
Proof.
  intros Hb Hx Hn. unfold num_item. destruct (x =? 0); [done |]. cbn [forallb].
  unfold item_ok in *. cbn [fst snd] in *. rewrite print_uint_plain by done.
  rewrite !andb_true_r in *. done.
Qed.

Lemma mac_item_ok name m :
  is_mac m = true -> item_ok (str name, []) = true -> forallb item_ok (mac_item name m) = true.
Proof.
  intros [_ Hm]%is_mac_spec Hn. cbn [mac_item forallb]. unfold item_ok in *. cbn [fst snd] in *.
  rewrite print_mac_plain by done. rewrite !andb_true_r in *. done.
Qed.

(** ** config_gw *)

Definition config_items (a : config_gw) : list (chars * chars) :=
  num_item "param1" 10 (param1 a) ++ num_item "param2" 10 (param2 a)
  ++ mac_item "param3" (param3 a)
  ++ num_item "param4" 10 (param4 a) ++ num_item "param5" 10 (param5 a)
  ++ mac_item "param6" (param6 a)
  ++ num_item "param7" 10 (param7 a) ++ num_item "param8" 10 (param8 a)
  ++ mac_item "param9" (param9 a).

Lemma config_items_ok a : config_ok a = true -> forallb item_ok (config_items a) = true.
Proof.
  rewrite config_ok_spec, !is_u32_spec. intros ((H1 & H2 & H4 & H5 & H7 & H8) & H3 & H6 & H9).
  unfold config_items. rewrite !forallb_app, !num_item_ok, !mac_item_ok by (done || lia). done.
Qed.

(** The printed argument: the items, without the first comma if the first is printed. *)
Definition config_arg (a : config_gw) : chars :=
  if param1 a =? 0 then render (config_items a) else tail (render (config_items a)).

Lemma format_config_arg a : format_CONFIG_GW a = str "config_gw" ++ str "(" ++ config_arg a ++ str ")".
Proof.
  unfold config_arg, config_items, format_CONFIG_GW. rewrite !render_app, !render_num.
  destruct (param1 a =? 0) eqn:E; unfold put_num at 1 7; rewrite E.
  2: change (str ("," ++ "param1" ++ "=")%string) with (","%char :: str "param1="); cbn [app tail].
  all: cbn [render mac_item flat_map]; rewrite ?app_nil_r, <- ?app_assoc; reflexivity.
Qed.

Lemma run_mac scan_float a name m l (set : list Z -> config_gw) :
  (forall v, config_gw_pair scan_float a (str name) v = put_mac scan_float a set v) ->
  is_mac m = true ->
  run_pairs (config_gw_pair scan_float) a (mac_item name m ++ l) =
  run_pairs (config_gw_pair scan_float) (set m) l.
Proof.
  intros Hf [Hl Hm]%is_mac_spec. cbn [mac_item app run_pairs]. rewrite Hf. unfold put_mac.
  by rewrite str_to_mac_print.
Qed.

Lemma run_config_items scan_float a :
  config_ok a = true -> run_pairs (config_gw_pair scan_float) zero_config (config_items a) = inl a.
Proof.
  rewrite config_ok_spec, !is_u32_spec. intros ((H1 & H2 & H4 & H5 & H7 & H8) & H3 & H6 & H9).
  destruct a as [p1 p2 p3 p4 p5 p6 p7 p8 p9]. unfold config_items.
  cbn [param1 param2 param3 param4 param5 param6 param7 param8 param9] in *.
  rewrite <- (app_nil_r (mac_item "param9" _)).
  rewrite (run_num _ _ "param1" _ _ _ (λ x, mk_config x 0 no_mac 0 0 no_mac 0 0 no_mac)),
    read_back_decimal by done.
  rewrite (run_num _ _ "param2" _ _ _ (λ x, mk_config p1 x no_mac 0 0 no_mac 0 0 no_mac)),
    read_back_decimal by done.
  rewrite (run_mac _ _ "param3" _ _ (λ m, mk_config p1 p2 m 0 0 no_mac 0 0 no_mac)) by done.
  rewrite (run_num _ _ "param4" _ _ _ (λ x, mk_config p1 p2 p3 x 0 no_mac 0 0 no_mac)),
    read_back_decimal by done.
  rewrite (run_num _ _ "param5" _ _ _ (λ x, mk_config p1 p2 p3 p4 x no_mac 0 0 no_mac)),
    read_back_decimal by done.
  rewrite (run_mac _ _ "param6" _ _ (λ m, mk_config p1 p2 p3 p4 p5 m 0 0 no_mac)) by done.
  rewrite (run_num _ _ "param7" _ _ _ (λ x, mk_config p1 p2 p3 p4 p5 p6 x 0 no_mac)),
    read_back_decimal by done.
  rewrite (run_num _ _ "param8" _ _ _ (λ x, mk_config p1 p2 p3 p4 p5 p6 p7 x no_mac)),
    read_back_decimal by done.
  by rewrite (run_mac _ _ "param9" _ _ (λ m, mk_config p1 p2 p3 p4 p5 p6 p7 p8 m)) by done.
Qed.

(** The text of every well-typed "config_gw" action is read back as the same action: the
    key-value parser finds the name and the whole argument, with nothing left over, and the
    parser of the action returns success with the original fields, zero parameters (which are
    not printed, and then leave a leading comma) included. *)
Theorem config_gw_text_roundtrip scan_float a :
  config_ok a = true ->
  exists arg, ofputil_parse_key_value (format_CONFIG_GW a) = Some (str "config_gw", arg, []) /\
    parse_CONFIG_GW scan_float arg = Some (a, Null).
Proof.
  intros Ha. pose proof (config_items_ok a Ha) as Hi. exists (config_arg a). split.
  - rewrite format_config_arg. apply parse_key_value_action; [done | done |].
    unfold config_arg. pose proof (render_no_paren _ Hi) as Hn. destruct (param1 a =? 0); [done |].
    destruct (render (config_items a)); [done |]. by apply andb_prop in Hn as [_ ?].
  - unfold parse_CONFIG_GW. rewrite (parse_pairs_items _ _ (config_items a)); [| done |].
    + by rewrite run_config_items.
    + unfold config_arg. destruct (param1 a =? 0); [by left | by right].
Qed.

(** ** handle_gw *)

(** The leading decimal digits of a list. *)
Fixpoint decimals (l : list Z) : list Z :=
  match l with
  | [] => []
  | d :: l => if d <? 10 then d :: decimals l else []
  end.

Lemma atoi_hex_digits l :
  Forall (λ d, 0 <= d < 16) l -> l <> [] ->
  atoi (map digit_char l) =
  s32 (Z.max LLONG_MIN (Z.min (digits_value 10 0 (decimals l)) LLONG_MAX)).
Proof.
  intros Hl Hn. unfold atoi, strtol10. destruct l as [| d l]; [done |].
  apply Forall_cons in Hl as [Hd Hl].
  assert (forallb (λ d, negb (isspace (digit_char d)) && negb (digit_char d =c "-")
      && negb (digit_char d =c "+") && Bool.eqb (isdigit (digit_char d)) (d <? 10))
    (map Z.of_nat (seq 0 16)) = true) as H by by vm_compute.
  assert (forall d, 0 <= d < 16 -> isspace (digit_char d) = false /\ (digit_char d =c "-") = false /\
    (digit_char d =c "+") = false /\ isdigit (digit_char d) = (d <? 10)) as Hc.
  { intros d' Hd'. rewrite forallb_forall in H. specialize (H d').
    rewrite !andb_true_iff, !negb_true_iff, Bool.eqb_true_iff in H.
    destruct H as [[[? ?] ?] ?]; [| by auto]. apply in_map_iff. exists (Z.to_nat d').
    split; [lia | apply in_seq; lia]. }
  destruct (Hc d Hd) as (Hs & Hm & Hp & _). cbn [map span]. rewrite Hs. cbn [snd hd_char].
  rewrite Hm, Hp. cbn [orb]. do 2 f_equal. f_equal. f_equal.
  change (digit_char d :: map digit_char l) with (map digit_char (d :: l)).
  assert (Forall (λ d, 0 <= d < 16) (d :: l)) as Hdl by by constructor.
  clear -Hc Hdl. induction Hdl as [| d' l' Hd' Hl' IH]; [done |]. cbn [map span decimals].
  destruct (Hc d' Hd') as (_ & _ & _ & ->). destruct (d' <? 10); [| done].
  destruct (span isdigit (map digit_char l')) as [u w]. cbn [fst map] in *.
  by rewrite digit_char_spec, IH.
Qed.

Lemma decimals_value_le l : forall v w,
  Forall (λ d, 0 <= d < 16) l -> 0 <= v <= w ->
  0 <= digits_value 10 v (decimals l) <= digits_value 16 w l.
Proof.
  induction l as [| d l IH]; intros v w Hl Hv; cbn [decimals]; [done |].
  apply Forall_cons in Hl as [Hd Hl]. destruct (d <? 10).
  - change (0 <= digits_value 10 (v * 10 + d) (decimals l) <= digits_value 16 (w * 16 + d) l).
    apply IH; [done | lia].
  - change (0 <= v <= digits_value 16 (w * 16 + d) l).
    destruct (IH v (w * 16 + d) Hl ltac:(lia)) as [_ H].
    assert (forall u k, 0 <= u -> Forall (λ d, 0 <= d < 16) k -> u <= digits_value 16 u k) as Hmono.
    { clear. intros u k. revert u. induction k as [| x k IH]; intros u Hu Hk; [done |].
      apply Forall_cons in Hk as [Hx Hk].
      change (u <= digits_value 16 (u * 16 + x) k). specialize (IH (u * 16 + x) ltac:(lia) Hk). lia. }
    specialize (Hmono (w * 16 + d) l ltac:(lia) Hl). lia.
Qed.

Lemma decimals_app l d :
  decimals (l ++ [d]) = decimals l \/
  (decimals l = l /\ decimals (l ++ [d]) = l ++ decimals [d]).
Proof.
  induction l as [| x l IH]; cbn [app decimals]; [by right |].
  destruct (x <? 10); [| by left]. destruct IH as [-> | [H1 H2]]; [by left |].
  right. by rewrite H2, H1.
Qed.

Lemma digits_step fuel b x :
  digits (S fuel) b x [] =
  if x / b =? 0 then [x mod b] else digits fuel b (x / b) [] ++ [x mod b].
Proof. cbn [digits]. destruct (_ =? 0); [done | apply digits_app]. Qed.

(** Fewer than are printed, unless a single decimal digit is. *)
Lemma decimals_hex_lt x :
  10 <= x < 2 ^ 32 -> 0 <= digits_value 10 0 (decimals (digits 64 16 x [])) < x.
Proof.
  intros Hx. rewrite (digits_step 63). destruct (Z.eqb_spec (x / 16) 0) as [H0 | H0].
  - rewrite Z.mod_small by (apply Z.div_small_iff in H0; lia). cbn [decimals].
    destruct (Z.ltb_spec x 10); [lia | cbn; lia].
  - pose proof (Z.div_mod x 16 ltac:(lia)).
    pose proof (Z.mod_pos_bound x 16 ltac:(lia)).
    destruct (digits_spec 63 16 (x / 16) ltac:(lia)) as [Hv Hd].
    { split; [apply Z.div_pos; lia |]. apply Z.lt_le_trans with (2 ^ 32); [lia |].
      transitivity (16 ^ 8); [done | apply Z.pow_le_mono_r; lia]. }
    set (l := digits 63 16 (x / 16) []) in *.
    destruct (decimals_value_le l 0 0 Hd ltac:(lia)) as [Hl1 Hl2]. rewrite Hv in Hl2.
    destruct (decimals_app l (x mod 16)) as [-> | [E ->]]; [lia |]. rewrite E in *.
    unfold digits_value in *. rewrite foldl_app. cbn [decimals].
    destruct (x mod 16 <? 10); cbn [foldl]; lia.
Qed.

Lemma read_back_hex x : in_u 32 x -> read_back 16 x = x <-> x < 10.
Proof.
  intros Hx. unfold read_back. destruct (Z.eqb_spec x 0) as [-> | H0]; [lia |].
  unfold print_uint. assert (0 <= x < 16 ^ Z.of_nat 64) as Hx'.
  { unfold in_u in Hx. split; [lia |]. apply Z.lt_le_trans with (2 ^ 32); [lia |].
    transitivity (16 ^ 8); [done | apply Z.pow_le_mono_r; lia]. }
  destruct (digits_spec 64 16 x ltac:(lia) Hx') as [_ Hd].
  rewrite atoi_hex_digits by (done || apply digits_nonempty).
  unfold in_u in Hx. unfold LLONG_MIN, LLONG_MAX.
  destruct (Z.lt_ge_cases x 10) as [Hlt | Hge].
  - split; [done | intros _]. rewrite (digits_step 63). rewrite Z.div_small, Z.mod_small by lia.
    cbn [Z.eqb decimals]. destruct (Z.ltb_spec x 10); [| lia].
    change (digits_value 10 0 [x]) with (0 * 10 + x). rewrite Z.max_r, Z.min_l by lia.
    rewrite swrap_small by (cbn; lia). rewrite wrap_small; unfold in_u; lia.
  - pose proof (decimals_hex_lt x ltac:(lia)) as Hv.
    set (v := digits_value 10 0 (decimals (digits 64 16 x []))) in *.
    rewrite Z.max_r, Z.min_l by lia. rewrite wrap_swrap, wrap_small by (unfold in_u; lia).
    lia.
Qed.

Definition handle_items (a : handle_gw) : list (chars * chars) :=
  num_item "pipeline1" 16 (pipeline1 a) ++ num_item "pipeline2" 16 (pipeline2 a)
  ++ num_item "pipeline3" 16 (pipeline3 a) ++ num_item "pipeline4" 16 (pipeline4 a)
  ++ num_item "pipeline5" 16 (pipeline5 a).

Definition handle_arg (a : handle_gw) : chars :=
  if pipeline1 a =? 0 then render (handle_items a) else tail (render (handle_items a)).

Lemma handle_ok_spec a :
  handle_ok a = true <-> in_u 32 (pipeline1 a) /\ in_u 32 (pipeline2 a) /\ in_u 32 (pipeline3 a) /\
    in_u 32 (pipeline4 a) /\ in_u 32 (pipeline5 a).
Proof. unfold handle_ok. cbn [forallb]. rewrite !andb_true_iff, !is_u32_spec. tauto. Qed.

Lemma handle_items_ok a : handle_ok a = true -> forallb item_ok (handle_items a) = true.
Proof.
  rewrite handle_ok_spec. intros (H1 & H2 & H3 & H4 & H5).
  unfold handle_items. rewrite !forallb_app, !num_item_ok by (done || lia). done.
Qed.

Lemma format_handle_arg a : format_HANDLE_GW a = str "handle_gw" ++ str "(" ++ handle_arg a ++ str ")".
Proof.
  unfold handle_arg, handle_items, format_HANDLE_GW. rewrite !render_app, !render_num.
  destruct (pipeline1 a =? 0) eqn:E; unfold put_num at 1 6; rewrite E.
  2: change (str ("," ++ "pipeline1" ++ "=")%string) with (","%char :: str "pipeline1="); cbn [app tail].
  all: rewrite <- ?app_assoc; reflexivity.
Qed.

Lemma run_handle_items a :
  run_pairs handle_gw_pair zero_handle (handle_items a) =
  inl (mk_handle (read_back 16 (pipeline1 a)) (read_back 16 (pipeline2 a)) (read_back 16 (pipeline3 a))
    (read_back 16 (pipeline4 a)) (read_back 16 (pipeline5 a))).
Proof.
  destruct a as [p1 p2 p3 p4 p5]. unfold handle_items.
  cbn [pipeline1 pipeline2 pipeline3 pipeline4 pipeline5].
  rewrite <- (app_nil_r (num_item "pipeline5" _ _)).
  rewrite (run_num _ _ "pipeline1" _ _ _ (λ x, mk_handle x 0 0 0 0)) by done.
  rewrite (run_num _ _ "pipeline2" _ _ _ (λ x, mk_handle _ x 0 0 0)) by done.
  rewrite (run_num _ _ "pipeline3" _ _ _ (λ x, mk_handle _ _ x 0 0)) by done.
  rewrite (run_num _ _ "pipeline4" _ _ _ (λ x, mk_handle _ _ _ x 0)) by done.
  by rewrite (run_num _ _ "pipeline5" _ _ _ (λ x, mk_handle _ _ _ _ x)) by done.
Qed.

(** C38: the text of a "handle_gw" action is always accepted, but it is read back as the same
    action exactly when every pipeline number is below ten: the numbers are printed in
    hexadecimal without a prefix and read in decimal. *)
Theorem handle_gw_text_roundtrip_iff a :
  handle_ok a = true ->
  exists arg r, ofputil_parse_key_value (format_HANDLE_GW a) = Some (str "handle_gw", arg, []) /\
    parse_HANDLE_GW arg = Some (r, Null) /\
    (r = a <-> pipeline1 a < 10 /\ pipeline2 a < 10 /\ pipeline3 a < 10 /\ pipeline4 a < 10 /\
               pipeline5 a < 10).
Proof.
  intros Ha. pose proof (handle_items_ok a Ha) as Hi. eexists (handle_arg a), _. split; [| split].
  - rewrite format_handle_arg. apply parse_key_value_action; [done | done |].
    unfold handle_arg. pose proof (render_no_paren _ Hi) as Hn. destruct (pipeline1 a =? 0); [done |].
    destruct (render (handle_items a)); [done |]. by apply andb_prop in Hn as [_ ?].
  - unfold parse_HANDLE_GW. rewrite (parse_pairs_items _ _ (handle_items a)); [| done |].
    + by rewrite run_handle_items.
    + unfold handle_arg. destruct (pipeline1 a =? 0); [by left | by right].
  - apply handle_ok_spec in Ha as (H1 & H2 & H3 & H4 & H5).
    rewrite <- !read_back_hex by done. destruct a as [p1 p2 p3 p4 p5].
    cbn [pipeline1 pipeline2 pipeline3 pipeline4 pipeline5]. split; [by intros [= -> -> -> -> ->] |].
    by intros (-> & -> & -> & -> & ->).
Qed.

(** ** Witnesses *)

Definition sample_config : config_gw :=
  mk_config 0 7 [0; 0x1b; 0x21; 0xaa; 0; 0xff] 4294967295 0 no_mac 12 3232235777 [1; 2; 3; 4; 5; 6].

Lemma config_gw_text_roundtrip_witness :
  exists arg, ofputil_parse_key_value (format_CONFIG_GW sample_config) = Some (str "config_gw", arg, []) /\
    parse_CONFIG_GW Scan.no_float arg = Some (sample_config, Null).
Proof. apply (config_gw_text_roundtrip Scan.no_float sample_config). reflexivity. Defined.

Lemma handle_gw_text_roundtrip_iff_witness :
  exists arg r,
    ofputil_parse_key_value (format_HANDLE_GW (mk_handle 1 16 0 9 2)) = Some (str "handle_gw", arg, []) /\
    parse_HANDLE_GW arg = Some (r, Null) /\
    (r = mk_handle 1 16 0 9 2 <-> 1 < 10 /\ 16 < 10 /\ 0 < 10 /\ 9 < 10 /\ 2 < 10).
Proof. apply (handle_gw_text_roundtrip_iff (mk_handle 1 16 0 9 2)). reflexivity. Defined.

End GatewayText.
