(* ===== verification/GatewayWire.v ===== *)
(** The gateway actions on their way to the datapath, and the parameters of "dpctl
    set-gateway-params" on their way to the kernel: what arrives is what was sent. *)
From S2P Require Import Prelude Text Scan KeyValue Netlink Gateway GatewayText.

Module GatewayWire.
Import KeyValue Gateway.

Section Wire.
Context (e : endian).

(** ** Fields in memory *)

(** A 32-bit field is four bytes that denote its value. *)
Lemma word_bytes x :
  in_u 32 x -> exists a b c d, host_bytes e 4 x = [a; b; c; d] /\ host_val e [a; b; c; d] = x.
Proof.
  intros Hx. pose proof (host_val_bytes e 4 x Hx) as Hv. pose proof (length_host_bytes e 4 x) as Hl.
  destruct (host_bytes e 4 x) as [| a [| b [| c [| d [|]]]]]; try done. by eauto 10.
Qed.

Lemma mac_bytes m : is_mac m = true -> exists a b c d f g, m = [a; b; c; d; f; g].
Proof.
  intros [Hl _]%is_mac_spec. destruct m as [| a [| b [| c [| d [| f [| g [|]]]]]]]; try done.
  by eauto 10.
Qed.

Lemma encode_config_roundtrip header a :
  length header = 4%nat -> config_ok a = true ->
  length (encode_CONFIG_GW e header a) = 56%nat /\
  decode_OFPAT_RAW_CONFIG_GW e (encode_CONFIG_GW e header a) = a.
Proof.
  intros Hh. rewrite GatewayText.config_ok_spec, !GatewayText.is_u32_spec.
  intros ((H1 & H2 & H4 & H5 & H7 & H8) & H3 & H6 & H9). destruct a as [p1 p2 p3 p4 p5 p6 p7 p8 p9].
  unfold encode_CONFIG_GW. cbn [param1 param2 param3 param4 param5 param6 param7 param8 param9] in *.
  destruct (word_bytes p1 H1) as (? & ? & ? & ? & -> & E1), (word_bytes p2 H2) as (? & ? & ? & ? & -> & E2),
    (mac_bytes p3 H3) as (? & ? & ? & ? & ? & ? & ->), (word_bytes p4 H4) as (? & ? & ? & ? & -> & E4),
    (word_bytes p5 H5) as (? & ? & ? & ? & -> & E5), (mac_bytes p6 H6) as (? & ? & ? & ? & ? & ? & ->),
    (word_bytes p7 H7) as (? & ? & ? & ? & -> & E7), (word_bytes p8 H8) as (? & ? & ? & ? & -> & E8),
    (mac_bytes p9 H9) as (? & ? & ? & ? & ? & ? & ->).
  destruct header as [| h1 [| h2 [| h3 [| h4 [|]]]]]; try done. split; [done |].
  rewrite <- E1, <- E2, <- E4, <- E5, <- E7, <- E8. reflexivity.
Qed.

Lemma ovs_config_roundtrip a :
  config_ok a = true ->
  length (ovs_config_gw e a) = 48%nat /\ read_config_gw e (ovs_config_gw e a) = a.
Proof.
  rewrite GatewayText.config_ok_spec, !GatewayText.is_u32_spec.
  intros ((H1 & H2 & H4 & H5 & H7 & H8) & H3 & H6 & H9). destruct a as [p1 p2 p3 p4 p5 p6 p7 p8 p9].
  unfold ovs_config_gw. cbn [param1 param2 param3 param4 param5 param6 param7 param8 param9] in *.
  destruct (word_bytes p1 H1) as (? & ? & ? & ? & -> & E1), (word_bytes p2 H2) as (? & ? & ? & ? & -> & E2),
    (mac_bytes p3 H3) as (? & ? & ? & ? & ? & ? & ->), (word_bytes p4 H4) as (? & ? & ? & ? & -> & E4),
    (word_bytes p5 H5) as (? & ? & ? & ? & -> & E5), (mac_bytes p6 H6) as (? & ? & ? & ? & ? & ? & ->),
    (word_bytes p7 H7) as (? & ? & ? & ? & -> & E7), (word_bytes p8 H8) as (? & ? & ? & ? & -> & E8),
    (mac_bytes p9 H9) as (? & ? & ? & ? & ? & ? & ->).
  split; [done |]. rewrite <- E1, <- E2, <- E4, <- E5, <- E7, <- E8. reflexivity.
Qed.

Lemma handle_roundtrip header a :
  length header = 4%nat -> handle_ok a = true ->
  (length (encode_HANDLE_GW e header a) = 24%nat /\
   decode_OFPAT_RAW_HANDLE_GW e (encode_HANDLE_GW e header a) = a) /\
  length (ovs_handle_gw e a) = 20%nat /\ read_handle_gw e (ovs_handle_gw e a) = a.
Proof.
  intros Hh. rewrite GatewayText.handle_ok_spec. intros (H1 & H2 & H3 & H4 & H5).
  destruct a as [p1 p2 p3 p4 p5]. unfold encode_HANDLE_GW, ovs_handle_gw.
  cbn [pipeline1 pipeline2 pipeline3 pipeline4 pipeline5] in *.
  destruct (word_bytes p1 H1) as (? & ? & ? & ? & -> & E1), (word_bytes p2 H2) as (? & ? & ? & ? & -> & E2),
    (word_bytes p3 H3) as (? & ? & ? & ? & -> & E3), (word_bytes p4 H4) as (? & ? & ? & ? & -> & E4),
    (word_bytes p5 H5) as (? & ? & ? & ? & -> & E5).
  destruct header as [| h1 [| h2 [| h3 [| h4 [|]]]]]; try done.
  split; (split; [done |]); rewrite <- E1, <- E2, <- E3, <- E4, <- E5; reflexivity.
Qed.

(** ** Actions for the datapath *)

(** A zeroed attribute, filled in place, is the attribute with that payload. *)
Lemma compose_chunk type payload actions :
  Netlink.attr_ok (type, payload) = true ->
  (m ← Netlink.nl_msg_put_unspec_zero e type (length payload) actions;
   Some (Netlink.store (length actions + Netlink.NLA_HDRLEN) payload m)) =
  Some (actions ++ Netlink.chunk e (type, payload)).
Proof.
  intros Hok. unfold Netlink.attr_ok in Hok. apply andb_prop in Hok as [_ Hd].
  apply negb_true_iff in Hd. cbn [snd] in Hd.
  unfold Netlink.nl_msg_put_unspec_zero, Netlink.nl_msg_put_unspec. rewrite length_replicate, Hd.
  cbn [mbind option_bind]. f_equal. unfold Netlink.nl_msg_put, Netlink.chunk, Netlink.store.
  cbn [fst snd]. rewrite !Netlink.length_attr_bytes, length_replicate.
  unfold Netlink.attr_bytes. rewrite length_replicate, <- !app_assoc.
  set (h := Netlink.attr_header _ _ _). assert (length h = 4%nat) as Hh.
  { unfold h, Netlink.attr_header. by rewrite length_app, !length_host_bytes. }
  rewrite (app_assoc actions h). unfold Netlink.NLA_HDRLEN.
  rewrite take_app_exact by (rewrite length_app; lia).
  rewrite <- drop_drop, drop_app_exact by (rewrite length_app; lia).
  rewrite drop_app_exact by apply length_replicate. by rewrite <- app_assoc.
Qed.

(** C31: gateway actions survive the whole way from a controller to the datapath: after any
    attributes [l], a "config_gw" and a "handle_gw" action that were encoded by a host of the
    same byte order, decoded, and translated to datapath actions arrive as attributes 51
    and 52, in order and with nothing left over, whose payloads hold the original fields; the
    encodings have the 56 and 24 bytes of the OpenFlow structures. *)
Theorem gw_actions_reach_datapath l header1 header2 c h :
  forallb Netlink.attr_ok l = true -> length header1 = 4%nat -> length header2 = 4%nat ->
  config_ok c = true -> handle_ok h = true ->
  length (encode_CONFIG_GW e header1 c) = 56%nat /\ length (encode_HANDLE_GW e header2 h) = 24%nat /\
  exists actions msg pc ph,
    Netlink.put_all e l [] = Some actions /\
    (m ← compose_config_gw_action e actions
           (decode_OFPAT_RAW_CONFIG_GW e (encode_CONFIG_GW e header1 c));
     compose_handle_gw_action e m (decode_OFPAT_RAW_HANDLE_GW e (encode_HANDLE_GW e header2 h)))
      = Some msg /\
    map Netlink.view (Netlink.nl_attrs e msg).1 =
      map (λ a, (a.1, Some a.2)) l ++ [(51, Some pc); (52, Some ph)] /\
    (Netlink.nl_attrs e msg).2 = 0%nat /\
    read_config_gw e pc = c /\ read_handle_gw e ph = h.
Proof.
  intros Hl Hh1 Hh2 Hc Hh.
  destruct (encode_config_roundtrip header1 c Hh1 Hc) as [L1 ->].
  destruct (handle_roundtrip header2 h Hh2 Hh) as [[L2 ->] [L3 R3]].
  destruct (ovs_config_roundtrip c Hc) as [L4 R4]. do 2 (split; [done |]).
  set (k := l ++ [(51, ovs_config_gw e c); (52, ovs_handle_gw e h)]).
  assert (Netlink.attr_ok (51, ovs_config_gw e c) = true /\
    Netlink.attr_ok (52, ovs_handle_gw e h) = true) as [Ok1 Ok2].
  { unfold Netlink.attr_ok. cbn [fst snd]. by rewrite L4, L3. }
  assert (forallb Netlink.attr_ok k = true) as Hk.
  { unfold k. rewrite forallb_app, Hl. cbn [forallb]. by rewrite Ok1, Ok2. }
  exists (concat (map (Netlink.chunk e) l)), (concat (map (Netlink.chunk e) k)),
    (ovs_config_gw e c), (ovs_handle_gw e h).
  split; [by rewrite Netlink.put_all_chunks |]. split.
  { unfold compose_config_gw_action, compose_handle_gw_action, OVS_ACTION_ATTR_CONFIG_GW,
      OVS_ACTION_ATTR_HANDLE_GW. rewrite <- L4, <- L3, compose_chunk by done.
    etrans; [exact (compose_chunk 52 (ovs_handle_gw e h) _ Ok2) |]. f_equal. unfold k. rewrite map_app, concat_app. cbn [map concat].
    by rewrite app_nil_r, <- app_assoc. }
  rewrite Netlink.nl_attrs_chunks by done. cbn [fst snd]. rewrite Netlink.view_visited.
  unfold k. rewrite map_app. done.
Qed.

(** ** Parameters for the kernel *)

Definition dp_config_ok (a : dp_config_gw) : bool :=
  is_u32 (gw_param1 a) && is_u32 (gw_param2 a) && is_mac (gw_param3 a).

Lemma length_dp_config pad a :
  length pad = 2%nat -> dp_config_ok a = true -> length (ovs_dp_config_gw e pad a) = 16%nat.
Proof.
  intros Hp Ha. unfold dp_config_ok in Ha. apply andb_prop in Ha as [_ [Hm _]%is_mac_spec].
  unfold ovs_dp_config_gw. rewrite !length_app, !length_host_bytes, Hp, Hm. done.
Qed.

Lemma put_params_concat pad l : forall request,
  length pad = 2%nat -> forallb dp_config_ok l = true ->
  put_params e pad l request = request ++ concat (map (ovs_dp_config_gw e pad) l).
Proof.
  induction l as [| a l IH]; intros request Hp Hl; cbn [map concat]; [by rewrite app_nil_r |].
  cbn [forallb] in Hl. apply andb_prop in Hl as [Ha Hl].
  change (put_params e pad (a :: l) request) with
    (put_params e pad l (Netlink.nl_msg_put (ovs_dp_config_gw e pad a) request)).
  rewrite IH by done. unfold Netlink.nl_msg_put. rewrite length_dp_config by done.
  change (Netlink.PAD_SIZE 16) with 0%nat. cbn [replicate]. by rewrite app_nil_r, <- app_assoc.
Qed.

Lemma length_params pad l :
  length pad = 2%nat -> forallb dp_config_ok l = true ->
  length (concat (map (ovs_dp_config_gw e pad) l)) = (16 * length l)%nat.
Proof.
  intros Hp. induction l as [| a l IH]; cbn [forallb map concat length]; [done |].
  intros [Ha Hl]%andb_prop. rewrite length_app, length_dp_config, IH by done. lia.
Qed.

(** The loop of the kernel finds every struct. *)
Lemma gw_params_loop_exact pad l : forall fuel rest,
  length pad = 2%nat -> forallb dp_config_ok l = true -> (length l < fuel)%nat ->
  gw_params_loop e fuel (16 * length l) (concat (map (ovs_dp_config_gw e pad) l) ++ rest) = (l, 0%nat).
Proof.
  induction l as [| a l IH]; intros fuel rest Hp Hl Hf; (destruct fuel as [| fuel]; [lia |]).
  - done.
  - cbn [length] in Hf |- *. cbn [forallb map concat] in *. apply andb_prop in Hl as [Ha Hl].
    cbn [gw_params_loop]. destruct (Nat.leb_spec 16 (16 * S (length l))); [| lia].
    change (Netlink.align 16) with 16%nat. replace (16 * S (length l) - 16)%nat with (16 * length l)%nat by lia.
    rewrite <- app_assoc, drop_app_exact, IH by (done || lia || by apply length_dp_config).
    f_equal. f_equal. unfold dp_config_ok in Ha. rewrite !andb_true_iff, !GatewayText.is_u32_spec in Ha.
    destruct a as [p1 p2 p3], Ha as [[H1 H2] H3]. unfold ovs_dp_config_gw.
    cbn [gw_param1 gw_param2 gw_param3] in *.
    destruct (word_bytes p1 H1) as (? & ? & ? & ? & -> & <-), (word_bytes p2 H2) as (? & ? & ? & ? & -> & <-),
      (mac_bytes p3 H3) as (? & ? & ? & ? & ? & ? & ->).
    reflexivity.
Qed.

(** The attributes of a request: the operation, then the parameters. *)
Definition request_attrs (pad : list Z) (operation : option Z) (params_list : list dp_config_gw)
  : list (Z * list Z) :=
  match operation with Some v => [(OVS_DP_ATTR_GW_OPERATIONS, host_bytes e 4 v)] | None => [] end
  ++ match params_list with
     | [] => []
     | _ => [(OVS_DP_ATTR_GW_PARAMS, concat (map (ovs_dp_config_gw e pad) params_list))]
     end.

Lemma request_attrs_ok pad operation params_list :
  length pad = 2%nat -> forallb dp_config_ok params_list = true -> (length params_list <= 4095)%nat ->
  forallb Netlink.attr_ok (request_attrs pad operation params_list) = true.
Proof.
  intros Hp Hl Hn. unfold request_attrs. rewrite forallb_app. apply andb_true_iff. split.
  - destruct operation; [| done]. cbn [forallb]. unfold Netlink.attr_ok. cbn [fst snd].
    by rewrite length_host_bytes.
  - destruct params_list as [| a l]; [done |]. cbn [forallb]. unfold Netlink.attr_ok.
    cbn [fst snd]. rewrite length_params by done. unfold Netlink.nl_attr_oversized, Netlink.NLA_HDRLEN.
    destruct (Z.ltb_spec (65535 - Z.of_nat 4) (Z.of_nat (16 * length (a :: l)))); [lia | done].
Qed.

Lemma put_operation operation h :
  match operation with
  | Some v => Netlink.nl_msg_put_u32 e OVS_DP_ATTR_GW_OPERATIONS v h
  | None => Some h
  end = Some (h ++ concat (map (Netlink.chunk e) match operation with
                | Some v => [(OVS_DP_ATTR_GW_OPERATIONS, host_bytes e 4 v)]
                | None => []
                end)).
Proof.
  destruct operation as [v |]; cbn [map concat]; [| by rewrite app_nil_r].
  rewrite app_nil_r. unfold Netlink.nl_msg_put_u32, Netlink.nl_msg_put_unspec.
  rewrite length_host_bytes. done.
Qed.

(** The request is the headers followed by these attributes. *)
Lemma request_chunks pad family ifindex operation params_list :
  length pad = 2%nat -> forallb dp_config_ok params_list = true -> (length params_list <= 4095)%nat ->
  0 <= family ->
  exists hdr, length hdr = 24%nat /\
    dpif_netlink_gw_set_params e pad family ifindex operation params_list =
    Some (inl (hdr ++ concat (map (Netlink.chunk e) (request_attrs pad operation params_list)))).
Proof.
  intros Hp Hl Hn Hf. pose proof (request_attrs_ok pad operation params_list Hp Hl Hn) as Hok.
  unfold dpif_netlink_gw_set_params. destruct (Z.ltb_spec family 0); [lia |].
  destruct (Netlink.nl_msg_put_genlmsghdr _ _ _ _ _ _) as [g |] eqn:Eg; [| done].
  assert (length g = 20%nat) as Hg.
  { unfold Netlink.nl_msg_put_genlmsghdr, Netlink.nl_msg_put_nlmsghdr in Eg. cbn [mbind option_bind] in Eg.
    injection Eg as <-. unfold Netlink.nl_msg_put. rewrite !length_app, !length_replicate, !length_host_bytes.
    cbn [length]. by rewrite length_host_bytes. }
  cbn [mbind option_bind]. exists (g ++ host_bytes e 4 ifindex).
  split; [by rewrite length_app, length_host_bytes, Hg |].
  set (h := g ++ host_bytes e 4 ifindex). unfold request_attrs in *. rewrite forallb_app in Hok.
  apply andb_prop in Hok as [_ Hok2]. rewrite put_operation, map_app, concat_app, app_assoc.
  set (k := h ++ _). cbn [mbind option_bind].
  destruct params_list as [| a l]; [by rewrite app_nil_r |]. cbn [forallb] in Hok2.
  rewrite andb_true_r in Hok2. destruct (Netlink.nested_chunk e _ _ k Hok2) as (m & E1 & E2).
  { rewrite length_params by done. unfold Netlink.align.
    replace (16 * length (a :: l) + 3)%nat with (3 + (4 * length (a :: l)) * 4)%nat by lia.
    rewrite Nat.div_add by lia. change (3 / 4)%nat with 0%nat. lia. }
  rewrite E1. cbn [mbind option_bind]. rewrite put_params_concat, E2 by done.
  cbn [map concat fmap option_fmap option_map]. by rewrite app_nil_r.
Qed.

(** Looking up an attribute by its type. *)
Lemma find_attr_here t d l :
  Z.land t Netlink.NLA_TYPE_MASK = t ->
  snd <$> list_find (λ a, Netlink.nl_type a = t) (Netlink.visited_attrs e ((t, d) :: l)) =
  head (Netlink.visited_attrs e ((t, d) :: l)).
Proof.
  intros Ht. cbn [Netlink.visited_attrs list_find head]. rewrite decide_True by done. done.
Qed.

Lemma find_attr_skip t t' d l :
  Z.land t' Netlink.NLA_TYPE_MASK <> t ->
  snd <$> list_find (λ a, Netlink.nl_type a = t) (Netlink.visited_attrs e ((t', d) :: l)) =
  snd <$> list_find (λ a, Netlink.nl_type a = t) (Netlink.visited_attrs e l).
Proof.
  intros Ht. cbn [Netlink.visited_attrs list_find]. rewrite decide_False by done.
  by destruct (list_find _ (Netlink.visited_attrs e l)) as [[i x] |].
Qed.

(** The kernel reads the parameters of an attribute. *)
Lemma ovs_gw_set_params_exact pad l t rest :
  length pad = 2%nat -> forallb dp_config_ok l = true ->
  let d := concat (map (ovs_dp_config_gw e pad) l) in
  ovs_gw_set_params e (Netlink.mk_attr (4 + length d) t (d ++ rest)) = (l, 0%nat).
Proof.
  intros Hp Hl. unfold ovs_gw_set_params. cbn [Netlink.nla_len Netlink.nla_rest].
  unfold Netlink.NLA_HDRLEN. rewrite length_params by done.
  replace (Netlink.align (4 + 16 * length l - 4)) with (16 * length l)%nat.
  - destruct l as [| a l]; [done |]. apply gw_params_loop_exact; [done | done |]. cbn [length]. lia.
  - unfold Netlink.align. replace (4 + 16 * length l - 4 + 3)%nat with (3 + (4 * length l) * 4)%nat by lia.
    rewrite Nat.div_add by lia. change (3 / 4)%nat with 0%nat. lia.
Qed.

Lemma get_operation v rest : is_u32 v = true -> host_at e 0 (host_bytes e 4 v ++ rest) = v.
Proof.
  intros Hv%GatewayText.is_u32_spec. destruct (word_bytes v Hv) as (? & ? & ? & ? & -> & <-).
  reflexivity.
Qed.


End Wire.

(** ** Witnesses *)

Lemma gw_actions_reach_datapath_witness :
  let e := Little in let h1 := [0; 51; 0; 56] in let h2 := [0; 52; 0; 24] in
  let l := [(1, [5; 0; 0; 0])] in let c := GatewayText.sample_config in let h := mk_handle 1 16 0 9 2 in
  length (encode_CONFIG_GW e h1 c) = 56%nat /\ length (encode_HANDLE_GW e h2 h) = 24%nat /\
  exists actions msg pc ph,
    Netlink.put_all e l [] = Some actions /\
    (m ← compose_config_gw_action e actions
           (decode_OFPAT_RAW_CONFIG_GW e (encode_CONFIG_GW e h1 c));
     compose_handle_gw_action e m (decode_OFPAT_RAW_HANDLE_GW e (encode_HANDLE_GW e h2 h))) = Some msg /\
    map Netlink.view (Netlink.nl_attrs e msg).1 =
      map (λ a, (a.1, Some a.2)) l ++ [(51, Some pc); (52, Some ph)] /\
    (Netlink.nl_attrs e msg).2 = 0%nat /\
    read_config_gw e pc = c /\ read_handle_gw e ph = h.
Proof. apply gw_actions_reach_datapath; reflexivity. Defined.

Definition sample_params : list dp_config_gw :=
  [mk_dp_config 1 2 [0; 0x1b; 0x21; 0xaa; 0; 0xff]; mk_dp_config 4294967295 0 no_mac].


(** Hosts of different byte order read different numbers. *)
Lemma wire_is_host_endian :
  pipeline1 (decode_OFPAT_RAW_HANDLE_GW Big
    (encode_HANDLE_GW Little [0; 52; 0; 24] (mk_handle 1 0 0 0 0))) = 0x1000000.
Proof. reflexivity. Qed.

(** The same action in the dump of OpenFlow flows and in that of a little-endian datapath. *)
Lemma dumps_differ :
  let a := zero_config <| param1 := 1 |> <| param2 := 16 |> in
  format_CONFIG_GW a = str "config_gw(param1=1,param2=16,param3=00:00:00:00:00:00,param6=00:00:00:00:00:00,param9=00:00:00:00:00:00)" /\
  format_odp_config_gw_action Little (Netlink.mk_attr 52 51 (ovs_config_gw Little a)) =
  Some (str "config_gw(param1=1,param2=10000000,param3=00:00:00:00:00:00,param6=00:00:00:00:00:00,param9=00:00:00:00:00:00)").
Proof. split; reflexivity. Qed.

(** "set-gateway-params DP" with no other argument reads the null pointer that ends argv. *)
Lemma dpctl_null_argument uninit f dp :
  dpctl_set_gateway_params Scan.no_float uninit true 0 f [str "set-gateway-params"; dp] = Some NullArgument.
Proof. reflexivity. Qed.

(** Parameters that an argument does not name are sent as the stack held them. *)
Lemma dpctl_sends_stack uninit f :
  let r := dpctl_set_gateway_params Scan.no_float uninit false 0 (Some f)
    [str "set-gateway-params"; str "operation=1"; str "param1=5"] in
  let error := f (Some 1) [(uninit 0%nat) <| gw_param1 := 5 |>] in
  r = Some (Returns error (if error =? 0 then [] else str "failed to set conntrack limit")).
Proof. reflexivity. Qed.

End GatewayWire.
