(* ===== verification/Reconnect.v ===== *)
(** The reconnect finite state machine (lib/reconnect.c, lib/reconnect.h). *)
From S2P Require Import Prelude.

Module Reconnect.

(** ** Data *)

(** The FSM states; [state_value] gives the bit each one has in the C enum, which
    the code tests with masks. *)
Inductive state :=
  S_VOID | S_BACKOFF | S_CONNECTING | S_ACTIVE | S_IDLE | S_RECONNECT | S_LISTENING.

#[export] Instance state_eq_dec : EqDecision state.
Proof. solve_decision. Defined.

Definition state_value (s : state) : Z :=
  match s with
  | S_VOID => Z.shiftl 1 0
  | S_BACKOFF => Z.shiftl 1 1
  | S_CONNECTING => Z.shiftl 1 3
  | S_ACTIVE => Z.shiftl 1 4
  | S_IDLE => Z.shiftl 1 5
  | S_RECONNECT => Z.shiftl 1 6
  | S_LISTENING => Z.shiftl 1 7
  end.

Definition state_mask (l : list state) : Z :=
  foldr (fun s m => Z.lor (state_value s) m) 0 l.

(** [s & (l1 | l2 | ...)] used as a truth value. *)
Definition state_in (s : state) (l : list state) : bool :=
  negb (Z.land (state_value s) (state_mask l) =? 0).

Definition is_connected_state (s : state) : bool :=
  state_in s [S_ACTIVE; S_IDLE].

Definition reconnect_state_name__ (s : state) : string :=
  match s with
  | S_VOID => "VOID"
  | S_BACKOFF => "BACKOFF"
  | S_CONNECTING => "CONNECTING"
  | S_ACTIVE => "ACTIVE"
  | S_IDLE => "IDLE"
  | S_RECONNECT => "RECONNECT"
  | S_LISTENING => "LISTENING"
  end.

Inductive vlog_level := VLL_INFO | VLL_DBG.

Record reconnect := mk_reconnect {
  name : string;
  min_backoff : Z;
  max_backoff : Z;
  probe_interval : Z;
  passive : bool;
  info : vlog_level;
  st : state;
  state_entered : Z;
  backoff : Z;
  last_activity : Z;
  last_connected : Z;
  last_disconnected : Z;
  last_receive_attempt : Z;
  max_tries : Z;
  backoff_free_tries : Z;
  creation_time : Z;
  n_attempted_connections : Z;
  n_successful_connections : Z;
  total_connected_duration : Z;
  seqno : Z;
}.

#[export] Instance reconnect_eta : RecordEta reconnect := λ r,
  mk_reconnect (name r) (min_backoff r) (max_backoff r) (probe_interval r)
    (passive r) (info r) (st r) (state_entered r) (backoff r) (last_activity r)
    (last_connected r) (last_disconnected r) (last_receive_attempt r)
    (max_tries r) (backoff_free_tries r) (creation_time r)
    (n_attempted_connections r) (n_successful_connections r)
    (total_connected_duration r) (seqno r).

Inductive reconnect_action := RECONNECT_CONNECT | RECONNECT_DISCONNECT | RECONNECT_PROBE.

#[export] Instance reconnect_action_eq_dec : EqDecision reconnect_action.
Proof. solve_decision. Defined.

Definition RECONNECT_DEFAULT_MIN_BACKOFF : Z := 1000.
Definition RECONNECT_DEFAULT_MAX_BACKOFF : Z := 8000.
Definition RECONNECT_DEFAULT_PROBE_INTERVAL : Z := 5000.

(** ** Operations *)

Definition reconnect_create (now : Z) : reconnect := {|
  name := "void";
  min_backoff := RECONNECT_DEFAULT_MIN_BACKOFF;
  max_backoff := RECONNECT_DEFAULT_MAX_BACKOFF;
  probe_interval := RECONNECT_DEFAULT_PROBE_INTERVAL;
  passive := false;
  info := VLL_INFO;
  st := S_VOID;
  state_entered := now;
  backoff := 0;
  last_activity := now;
  last_connected := LLONG_MAX;
  last_disconnected := LLONG_MAX;
  last_receive_attempt := now;
  max_tries := UINT_MAX;
  backoff_free_tries := 0;
  creation_time := now;
  n_attempted_connections := 0;
  n_successful_connections := 0;
  total_connected_duration := 0;
  seqno := 0;
|}.

Definition reconnect_set_quiet (fsm : reconnect) (quiet : bool) : reconnect :=
  fsm <| info := if quiet then VLL_DBG else VLL_INFO |>.

(** A null name pointer is [None]. *)
Definition reconnect_set_name (fsm : reconnect) (n : option string) : reconnect :=
  fsm <| name := default "void" n |>.

Definition reconnect_set_max_tries (fsm : reconnect) (n : Z) : reconnect :=
  fsm <| max_tries := n |>.

Definition reconnect_set_backoff_free_tries (fsm : reconnect) (n : Z) : reconnect :=
  fsm <| backoff_free_tries := n |>.

Definition reconnect_set_backoff (fsm : reconnect) (minb maxb : Z) : reconnect :=
  let fsm := fsm <| min_backoff := Z.max minb 1000 |>
                 <| max_backoff := if negb (maxb =? 0) then Z.max maxb 1000
                                   else RECONNECT_DEFAULT_MAX_BACKOFF |> in
  let fsm := fsm <| max_backoff ::= λ m,
    if min_backoff fsm >? max_backoff fsm then min_backoff fsm else m |> in
  fsm <| backoff ::= λ b,
    if bool_decide (st fsm = S_BACKOFF) && (b >? maxb) then maxb else b |>.

Definition reconnect_set_probe_interval (fsm : reconnect) (p : Z) : reconnect :=
  fsm <| probe_interval := if negb (p =? 0) then Z.max 1000 p else 0 |>.

Definition reconnect_transition__ (fsm : reconnect) (now : Z) (s : state) : reconnect :=
  let attempt := bool_decide (st fsm = S_CONNECTING) in
  let was := is_connected_state (st fsm) in
  let change := negb (eqb was (is_connected_state s)) in
  fsm <| n_attempted_connections ::= λ n, if attempt then u32 (n + 1) else n |>
      <| n_successful_connections ::= λ n,
           if attempt && bool_decide (s = S_ACTIVE) then u32 (n + 1) else n |>
      <| total_connected_duration ::= λ d,
           if change && was then u32 (d + (now - last_connected fsm)) else d |>
      <| seqno ::= λ n, if change then u32 (n + 1) else n |>
      <| st := s |>
      <| state_entered := now |>.

(** Consumes one of the remaining tries, unless they are unlimited. *)
Definition reconnect_may_retry (fsm : reconnect) : reconnect * bool :=
  let may_retry := max_tries fsm >? 0 in
  (fsm <| max_tries ::= λ n,
     if may_retry && negb (n =? UINT_MAX) then u32 (n - 1) else n |>,
   may_retry).

Definition reconnect_set_passive (fsm : reconnect) (p : bool) (now : Z) : reconnect :=
  if negb (eqb (passive fsm) p) then
    let fsm := fsm <| passive := p |> in
    let '(fsm, restart) :=
      if p then (fsm, state_in (st fsm) [S_CONNECTING; S_RECONNECT])
      else if bool_decide (st fsm = S_LISTENING) then reconnect_may_retry fsm
      else (fsm, false) in
    if restart
    then (reconnect_transition__ fsm now S_BACKOFF) <| backoff := 0 |>
    else fsm
  else fsm.

Definition reconnect_is_enabled (fsm : reconnect) : bool :=
  negb (bool_decide (st fsm = S_VOID)).

Definition reconnect_enable (fsm : reconnect) (now : Z) : reconnect :=
  if bool_decide (st fsm = S_VOID) then
    let '(fsm, ok) := reconnect_may_retry fsm in
    if ok then (reconnect_transition__ fsm now S_BACKOFF) <| backoff := 0 |>
    else fsm
  else fsm.

Definition reconnect_disable (fsm : reconnect) (now : Z) : reconnect :=
  if negb (bool_decide (st fsm = S_VOID))
  then reconnect_transition__ fsm now S_VOID else fsm.

Definition reconnect_force_reconnect (fsm : reconnect) (now : Z) : reconnect :=
  if state_in (st fsm) [S_CONNECTING; S_ACTIVE; S_IDLE]
  then reconnect_transition__ fsm now S_RECONNECT else fsm.

(** The choice of the remaining backoff-free tries and of the next backoff in
    [reconnect_disconnected]. *)
Definition next_backoff (fsm : reconnect) : Z * Z :=
  let free := backoff_free_tries fsm in
  if free >? 1 then (u32 (free - 1), 0)
  else if state_in (st fsm) [S_ACTIVE; S_IDLE]
          && ((last_activity fsm - last_connected fsm >=? backoff fsm)
              || passive fsm) then
    (free, if passive fsm then 0 else min_backoff fsm)
  else if backoff fsm <? min_backoff fsm then (free, min_backoff fsm)
  else if backoff fsm <? Z.quot (max_backoff fsm) 2 then (free, backoff fsm * 2)
  else (free, max_backoff fsm).

(** The error code only selects the log message. *)
Definition reconnect_disconnected (fsm : reconnect) (now : Z) (error : Z) : reconnect :=
  if negb (state_in (st fsm) [S_BACKOFF; S_VOID]) then
    let fsm := fsm <| last_disconnected ::= λ t,
      if state_in (st fsm) [S_ACTIVE; S_IDLE] then now else t |> in
    let '(fsm, ok) := reconnect_may_retry fsm in
    if negb ok then reconnect_transition__ fsm now S_VOID
    else
      let '(free, b) := next_backoff fsm in
      reconnect_transition__
        (fsm <| backoff_free_tries := free |> <| backoff := b |>) now S_BACKOFF
  else fsm.

Definition reconnect_connecting (fsm : reconnect) (now : Z) : reconnect :=
  if negb (bool_decide (st fsm = S_CONNECTING))
  then reconnect_transition__ fsm now S_CONNECTING else fsm.

Definition reconnect_listening (fsm : reconnect) (now : Z) : reconnect :=
  if negb (bool_decide (st fsm = S_LISTENING))
  then reconnect_transition__ fsm now S_LISTENING else fsm.

Definition reconnect_listen_error (fsm : reconnect) (now error : Z) : reconnect :=
  if bool_decide (st fsm = S_LISTENING)
  then reconnect_disconnected fsm now error else fsm.

Definition reconnect_connected (fsm : reconnect) (now : Z) : reconnect :=
  if negb (is_connected_state (st fsm)) then
    let fsm := reconnect_connecting fsm now in
    (reconnect_transition__ fsm now S_ACTIVE) <| last_connected := now |>
  else fsm.

Definition reconnect_connect_failed (fsm : reconnect) (now error : Z) : reconnect :=
  reconnect_disconnected (reconnect_connecting fsm now) now error.

Definition reconnect_activity (fsm : reconnect) (now : Z) : reconnect :=
  let fsm :=
    if bool_decide (st fsm = S_IDLE)
    then reconnect_transition__ fsm now S_ACTIVE else fsm in
  fsm <| last_activity := now |>.

Definition reconnect_receive_attempted (fsm : reconnect) (now : Z) : reconnect :=
  fsm <| last_receive_attempt := now |>.

(** [None] is a failed [ovs_assert]. *)
Definition reconnect_deadline__ (fsm : reconnect) : option Z :=
  if state_entered fsm =? LLONG_MIN then None else Some
  match st fsm with
  | S_VOID | S_LISTENING => LLONG_MAX
  | S_BACKOFF => state_entered fsm + backoff fsm
  | S_CONNECTING => state_entered fsm + Z.max 1000 (backoff fsm)
  | S_ACTIVE =>
      if negb (probe_interval fsm =? 0) then
        let base := Z.max (last_activity fsm) (state_entered fsm) in
        let expiration := base + probe_interval fsm in
        if last_receive_attempt fsm >=? expiration then expiration else LLONG_MAX
      else LLONG_MAX
  | S_IDLE =>
      if negb (probe_interval fsm =? 0) then
        let expiration := state_entered fsm + probe_interval fsm in
        if last_receive_attempt fsm >=? expiration then expiration else LLONG_MAX
      else LLONG_MAX
  | S_RECONNECT => state_entered fsm
  end.

(** The action 0 is [None]. *)
Definition reconnect_run (fsm : reconnect) (now : Z)
  : option (reconnect * option reconnect_action) :=
  deadline ← reconnect_deadline__ fsm;
  Some (if now >=? deadline then
    match st fsm with
    | S_VOID => (fsm, None)
    | S_BACKOFF => (fsm, Some RECONNECT_CONNECT)
    | S_CONNECTING => (fsm, Some RECONNECT_DISCONNECT)
    | S_ACTIVE => (reconnect_transition__ fsm now S_IDLE, Some RECONNECT_PROBE)
    | S_IDLE => (fsm, Some RECONNECT_DISCONNECT)
    | S_RECONNECT => (fsm, Some RECONNECT_DISCONNECT)
    | S_LISTENING => (fsm, None)
    end
  else (fsm, None)).

Definition reconnect_timeout (fsm : reconnect) (now : Z) : option Z :=
  deadline ← reconnect_deadline__ fsm;
  Some (if negb (deadline =? LLONG_MAX) then
    let remaining := deadline - now in
    Z.max 0 (Z.min INT_MAX remaining)
  else -1).

(** The timer, if any, that [reconnect_wait] registers with the poll loop. *)
Definition reconnect_wait (fsm : reconnect) (now : Z) : option (list Z) :=
  timeout ← reconnect_timeout fsm now;
  Some (if timeout >=? 0 then [timeout] else []).

Definition reconnect_is_connected (fsm : reconnect) : bool :=
  is_connected_state (st fsm).

Definition reconnect_get_last_connect_elapsed (fsm : reconnect) (now : Z) : Z :=
  if last_connected fsm =? LLONG_MAX then UINT_MAX
  else u32 (now - last_connected fsm).

Definition reconnect_get_last_disconnect_elapsed (fsm : reconnect) (now : Z) : Z :=
  if last_disconnected fsm =? LLONG_MAX then UINT_MAX
  else u32 (now - last_disconnected fsm).

Record reconnect_stats := mk_stats {
  stats_creation_time : Z;
  stats_last_activity : Z;
  stats_last_connected : Z;
  stats_last_disconnected : Z;
  stats_backoff : Z;
  stats_seqno : Z;
  stats_is_connected : bool;
  stats_msec_since_connect : Z;
  stats_msec_since_disconnect : Z;
  stats_total_connected_duration : Z;
  stats_n_attempted_connections : Z;
  stats_n_successful_connections : Z;
  stats_state : string;
  stats_state_elapsed : Z;
}.

Definition reconnect_get_stats (fsm : reconnect) (now : Z) : reconnect_stats := {|
  stats_creation_time := creation_time fsm;
  stats_last_activity := last_activity fsm;
  stats_last_connected := last_connected fsm;
  stats_last_disconnected := last_disconnected fsm;
  stats_backoff := backoff fsm;
  stats_seqno := seqno fsm;
  stats_is_connected := reconnect_is_connected fsm;
  stats_msec_since_connect := reconnect_get_last_connect_elapsed fsm now;
  stats_msec_since_disconnect := reconnect_get_last_disconnect_elapsed fsm now;
  stats_total_connected_duration :=
    u32 (total_connected_duration fsm +
         (if is_connected_state (st fsm)
          then reconnect_get_last_connect_elapsed fsm now else 0));
  stats_n_attempted_connections := n_attempted_connections fsm;
  stats_n_successful_connections := n_successful_connections fsm;
  stats_state := reconnect_state_name__ (st fsm);
  stats_state_elapsed := u32 (now - state_entered fsm);
|}.

(** ** The client's calls as a transition system *)

Inductive call :=
  | SetQuiet (quiet : bool)
  | SetName (n : option string)
  | SetMaxTries (n : Z)
  | SetBackoffFreeTries (n : Z)
  | SetBackoff (minb maxb : Z)
  | SetProbeInterval (p : Z)
  | SetPassive (p : bool) (now : Z)
  | Enable (now : Z)
  | Disable (now : Z)
  | ForceReconnect (now : Z)
  | Disconnected (now error : Z)
  | Connecting (now : Z)
  | Listening (now : Z)
  | ListenError (now error : Z)
  | Connected (now : Z)
  | ConnectFailed (now error : Z)
  | Activity (now : Z)
  | ReceiveAttempted (now : Z)
  | Run (now : Z).

Definition exec (c : call) (fsm : reconnect) : option reconnect :=
  match c with
  | SetQuiet q => Some (reconnect_set_quiet fsm q)
  | SetName n => Some (reconnect_set_name fsm n)
  | SetMaxTries n => Some (reconnect_set_max_tries fsm n)
  | SetBackoffFreeTries n => Some (reconnect_set_backoff_free_tries fsm n)
  | SetBackoff lo hi => Some (reconnect_set_backoff fsm lo hi)
  | SetProbeInterval p => Some (reconnect_set_probe_interval fsm p)
  | SetPassive p now => Some (reconnect_set_passive fsm p now)
  | Enable now => Some (reconnect_enable fsm now)
  | Disable now => Some (reconnect_disable fsm now)
  | ForceReconnect now => Some (reconnect_force_reconnect fsm now)
  | Disconnected now err => Some (reconnect_disconnected fsm now err)
  | Connecting now => Some (reconnect_connecting fsm now)
  | Listening now => Some (reconnect_listening fsm now)
  | ListenError now err => Some (reconnect_listen_error fsm now err)
  | Connected now => Some (reconnect_connected fsm now)
  | ConnectFailed now err => Some (reconnect_connect_failed fsm now err)
  | Activity now => Some (reconnect_activity fsm now)
  | ReceiveAttempted now => Some (reconnect_receive_attempted fsm now)
  | Run now => fst <$> reconnect_run fsm now
  end.

(** The arguments are values of their C types and obey the documented precondition
    of [reconnect_set_backoff] (the limits are not negative). *)
Definition call_ok (c : call) : bool :=
  match c with
  | SetMaxTries n | SetBackoffFreeTries n => (0 <=? n) && (n <=? UINT_MAX)
  | SetBackoff lo hi => (lo <=? INT_MAX) && (0 <=? hi) && (hi <=? INT_MAX)
  | SetProbeInterval p => p <=? INT_MAX
  | _ => true
  end.

(** A client session: a sequence of calls, none of which fails an assertion. *)
Inductive session : reconnect -> list call -> reconnect -> Prop :=
  | session_nil fsm : session fsm [] fsm
  | session_cons fsm fsm1 fsm2 c cs :
      call_ok c = true -> exec c fsm = Some fsm1 -> session fsm1 cs fsm2 ->
      session fsm (c :: cs) fsm2.

(** The well-formedness invariant of the FSM. *)
Record wf (fsm : reconnect) : Prop := {
  wf_limits : 1000 <= min_backoff fsm /\ min_backoff fsm <= max_backoff fsm <= INT_MAX;
  wf_probe : probe_interval fsm = 0 \/ 1000 <= probe_interval fsm <= INT_MAX;
  wf_backoff : 0 <= backoff fsm <= INT_MAX;
  wf_backing_off : st fsm = S_BACKOFF -> backoff fsm <= max_backoff fsm;
  wf_tries : in_u 32 (max_tries fsm) /\ in_u 32 (backoff_free_tries fsm);
  wf_seqno : in_u 32 (seqno fsm) /\ Z.odd (seqno fsm) = is_connected_state (st fsm);
}.

(** ** Lemmas *)

Ltac wf_fields :=
  split; unfold reconnect_transition__ in *; cbv zeta in *; rsimpl;
  try done; try lia; try (intros; discriminate).

Lemma seqno_parity n was now :
  Z.odd n = was ->
  Z.odd (if negb (eqb was now) then u32 (n + 1) else n) = now.
Proof.
  intros <-. destruct (Z.odd n) eqn:E, now; cbn [negb eqb]; try done.
  all: by rewrite wrap_odd, Z.odd_add, E by lia.
Qed.

Lemma wf_transition fsm now s :
  wf fsm -> (s = S_BACKOFF -> backoff fsm <= max_backoff fsm) ->
  wf (reconnect_transition__ fsm now s).
Proof.
  intros [? ? ? ? ? [? Hodd]] Hs. wf_fields.
  split; [| by apply seqno_parity]. zcases; [done |]. by apply wrap_range.
Qed.

Lemma wf_set_backoff_value fsm b :
  wf fsm -> 0 <= b <= max_backoff fsm -> wf (fsm <| backoff := b |>).
Proof. intros [] ?. wf_fields. Qed.

Lemma wf_may_retry fsm : wf fsm -> wf (reconnect_may_retry fsm).1.
Proof.
  intros []. unfold reconnect_may_retry. cbn [fst]. wf_fields.
  split; [| apply wf_tries0]. zcases; try apply wf_tries0; by apply wrap_range.
Qed.

Lemma double_below_half b m : 0 <= m -> b < Z.quot m 2 -> b * 2 <= m.
Proof. intros ?. rewrite Z.quot_div_nonneg by lia. pose proof (Z.mul_div_le m 2). lia. Qed.

(** The next backoff is within the limits, whatever the previous one was; in
    particular doubling it does not overflow. *)
Lemma next_backoff_range fsm :
  wf fsm -> in_u 32 (next_backoff fsm).1 /\ 0 <= (next_backoff fsm).2 <= max_backoff fsm.
Proof.
  intros [[Hmin Hmax] _ Hb _ [_ Hfree] _]. unfold next_backoff.
  zcases; cbn [fst snd]; (split; [try done; by apply wrap_range |]); try lia.
  all: try (destruct (passive fsm); lia).
  all: split; [lia | apply double_below_half; lia].
Qed.

Lemma wf_restart fsm now :
  wf fsm -> wf ((reconnect_transition__ fsm now S_BACKOFF) <| backoff := 0 |>).
Proof.
  intros H.
  change (wf (reconnect_transition__ (fsm <| backoff := 0 |>) now S_BACKOFF)).
  apply wf_transition; [apply wf_set_backoff_value; [done |] | intros _; rsimpl]; destruct H; lia.
Qed.

Lemma wf_disconnected fsm now err : wf fsm -> wf (reconnect_disconnected fsm now err).
Proof.
  intros H. unfold reconnect_disconnected. destruct (negb _); [cbv zeta | done].
  set (fsm0 := fsm <| last_disconnected ::= _ |>).
  assert (wf fsm0) as H0 by (subst fsm0; destruct H; wf_fields).
  apply wf_may_retry in H0. destruct (reconnect_may_retry fsm0) as [fsm1 ok]. cbn in H0.
  destruct (negb ok); [by apply wf_transition |].
  pose proof (next_backoff_range _ H0). destruct (next_backoff fsm1) as [free b]. cbn in *.
  apply wf_transition; [| intros _; rsimpl; lia]. destruct H0; wf_fields. tauto.
Qed.

Lemma wf_connecting fsm now : wf fsm -> wf (reconnect_connecting fsm now).
Proof. intros. unfold reconnect_connecting. zcase; [done |]. by apply wf_transition. Qed.

Lemma wf_retry_restart fsm now :
  wf fsm ->
  wf (let '(fsm, ok) := reconnect_may_retry fsm in
      if ok then (reconnect_transition__ fsm now S_BACKOFF) <| backoff := 0 |> else fsm).
Proof.
  intros H%wf_may_retry. destruct (reconnect_may_retry fsm) as [fsm1 ok]. cbn in H.
  destruct ok; [by apply wf_restart | done].
Qed.

Lemma wf_set_passive fsm p now : wf fsm -> wf (reconnect_set_passive fsm p now).
Proof.
  intros H. unfold reconnect_set_passive. destruct (negb (eqb _ _)); [| done].
  assert (wf (fsm <| passive := p |>)) as H' by (destruct H; wf_fields).
  destruct p; cbv zeta.
  - zcase; [by apply wf_restart | done].
  - zcase; [by apply wf_retry_restart | done].
Qed.

Lemma wf_set_backoff fsm lo hi :
  lo <= INT_MAX -> 0 <= hi <= INT_MAX -> wf fsm -> wf (reconnect_set_backoff fsm lo hi).
Proof.
  intros Hlo Hhi []. unfold reconnect_set_backoff, RECONNECT_DEFAULT_MAX_BACKOFF, INT_MAX in *.
  cbv zeta. split; rsimpl; try done.
  - zcases; unfold INT_MAX; lia.
  - zcases; unfold INT_MAX; lia.
  - intros Hst. specialize (wf_backing_off0 Hst). rewrite bool_decide_true by done. zcases; lia.
Qed.

Lemma wf_run fsm fsm' now act :
  wf fsm -> reconnect_run fsm now = Some (fsm', act) -> wf fsm'.
Proof.
  intros H Hr. unfold reconnect_run in Hr.
  destruct (reconnect_deadline__ fsm); cbn in Hr; [| done].
  zcase; destruct (st fsm) eqn:E; simplify_eq; try done.
  by apply wf_transition.
Qed.

Lemma wf_connected fsm now : wf fsm -> wf (reconnect_connected fsm now).
Proof.
  intros H. unfold reconnect_connected. destruct (negb _); [| done].
  assert (wf (reconnect_transition__ (reconnect_connecting fsm now) now S_ACTIVE)) as [].
  { apply wf_transition; [by apply wf_connecting | done]. }
  wf_fields.
Qed.

Lemma wf_activity fsm now : wf fsm -> wf (reconnect_activity fsm now).
Proof.
  intros H. unfold reconnect_activity.
  assert (wf (if bool_decide (st fsm = S_IDLE)
              then reconnect_transition__ fsm now S_ACTIVE else fsm)) as [].
  { case_bool_decide; [by apply wf_transition | done]. }
  wf_fields.
Qed.

Lemma wf_guarded (b : bool) fsm fsm' : wf fsm -> (wf fsm -> wf fsm') -> wf (if b then fsm' else fsm).
Proof. destruct b; auto. Qed.

Lemma exec_wf c fsm fsm' :
  call_ok c = true -> exec c fsm = Some fsm' -> wf fsm -> wf fsm'.
Proof.
  intros Hc He Hwf. destruct c; cbn [exec call_ok] in *; simplify_eq.
  all: unfold reconnect_set_quiet, reconnect_set_name, reconnect_set_max_tries,
    reconnect_set_backoff_free_tries, reconnect_set_probe_interval, reconnect_receive_attempted.
  - destruct Hwf; wf_fields.
  - destruct Hwf; wf_fields.
  - destruct Hwf; wf_fields. unfold in_u, UINT_MAX in *. lia.
  - destruct Hwf; wf_fields. unfold in_u, UINT_MAX in *. lia.
  - apply wf_set_backoff; [lia.. | done].
  - destruct Hwf; wf_fields. unfold INT_MAX in *. zcases; lia.
  - by apply wf_set_passive.
  - unfold reconnect_enable. apply wf_guarded; [done |]. by apply wf_retry_restart.
  - unfold reconnect_disable. apply wf_guarded; [done |]. by intros; apply wf_transition.
  - unfold reconnect_force_reconnect. apply wf_guarded; [done |]. by intros; apply wf_transition.
  - by apply wf_disconnected.
  - by apply wf_connecting.
  - unfold reconnect_listening. apply wf_guarded; [done |]. by intros; apply wf_transition.
  - unfold reconnect_listen_error. apply wf_guarded; [done |]. by intros; apply wf_disconnected.
  - by apply wf_connected.
  - by apply wf_disconnected, wf_connecting.
  - by apply wf_activity.
  - destruct Hwf; wf_fields.
  - destruct (reconnect_run fsm now) as [[] |] eqn:E; simplify_eq/=. by eapply wf_run.
Qed.

Lemma create_wf now : wf (reconnect_create now).
Proof.
  split; unfold in_u, UINT_MAX, INT_MAX; cbn; try split; try done; lia || (by right) || done.
Qed.

Lemma session_wf fsm cs fsm' : session fsm cs fsm' -> wf fsm -> wf fsm'.
Proof. induction 1; eauto using exec_wf. Qed.

(** ** Timers *)

Lemma run_not_due fsm now d :
  reconnect_deadline__ fsm = Some d -> now < d -> reconnect_run fsm now = Some (fsm, None).
Proof.
  intros Hd Hlt. unfold reconnect_run. rewrite Hd. cbn [mbind option_bind].
  rewrite Z.geb_leb. by destruct (Z.leb_spec d now); [lia |].
Qed.

Lemma run_due fsm now d :
  reconnect_deadline__ fsm = Some d -> d <> LLONG_MAX -> d <= now ->
  exists fsm' act, reconnect_run fsm now = Some (fsm', Some act).
Proof.
  intros Hd Hmax Hle. unfold reconnect_run. rewrite Hd. cbn [mbind option_bind].
  rewrite Z.geb_leb. destruct (Z.leb_spec d now); [| lia].
  unfold reconnect_deadline__ in Hd. zcase; simplify_eq.
  by destruct (st fsm); simplify_eq; eauto.
Qed.

(** ** Repeated failures *)

Definition fail_all (fsm : reconnect) (l : list (Z * Z)) : reconnect :=
  foldl (fun fsm '(now, err) => reconnect_connect_failed fsm now err) fsm l.

(** The backoff after a failed attempt that is neither free nor preceded by a
    connection. *)
Definition grow (lo hi b : Z) : Z :=
  if b <? lo then lo else if b <? Z.quot hi 2 then b * 2 else hi.

(** The part of the state on which the sequence of backoffs depends. *)
Record failing (lo hi b : Z) (fsm : reconnect) : Prop := {
  failing_lo : min_backoff fsm = lo;
  failing_hi : max_backoff fsm = hi;
  failing_b : backoff fsm = b;
  failing_tries : max_tries fsm = UINT_MAX;
  failing_free : backoff_free_tries fsm <= 1;
}.

Lemma connecting_spec fsm now lo hi b :
  failing lo hi b fsm ->
  failing lo hi b (reconnect_connecting fsm now) /\ st (reconnect_connecting fsm now) = S_CONNECTING.
Proof.
  intros []. unfold reconnect_connecting. case_bool_decide; cbn [negb]; [by split |].
  unfold reconnect_transition__. split; [split |]; by rsimpl.
Qed.

Lemma connect_failed_spec fsm now err lo hi b :
  failing lo hi b fsm ->
  failing lo hi (grow lo hi b) (reconnect_connect_failed fsm now err)
  /\ st (reconnect_connect_failed fsm now err) = S_BACKOFF.
Proof.
  intros H. unfold reconnect_connect_failed, reconnect_disconnected.
  destruct (connecting_spec fsm now _ _ _ H) as [[Hlo Hhi Hb Ht Hf] Hst].
  set (fsm1 := reconnect_connecting fsm now) in *. rewrite Hst.
  change (negb (state_in S_CONNECTING [S_BACKOFF; S_VOID])) with true.
  change (state_in S_CONNECTING [S_ACTIVE; S_IDLE]) with false. cbv zeta.
  unfold reconnect_may_retry. rsimpl. rewrite Ht. cbn [negb].
  change (UINT_MAX >? 0) with true. cbn [negb andb].
  unfold next_backoff. rsimpl. rewrite Hst, Z.gtb_ltb.
  destruct (Z.ltb_spec 1 (backoff_free_tries fsm1)); [lia |].
  change (state_in S_CONNECTING [S_ACTIVE; S_IDLE]) with false. cbn [andb].
  unfold grow. rewrite <- Hlo, <- Hhi, <- Hb.
  zcases; unfold reconnect_transition__; (split; [split |]); rsimpl; rewrite ?Ht; done.
Qed.

Lemma grow_progress lo hi b :
  1000 <= lo <= hi ->
  grow lo hi b = hi \/ (lo <= grow lo hi b /\ (lo <= b -> 2 * b <= grow lo hi b)).
Proof. intros. unfold grow. zcases; lia. Qed.

Lemma grow_max lo hi : 1000 <= lo <= hi -> grow lo hi hi = hi.
Proof.
  intros. unfold grow. zcases; try lia.
  pose proof (double_below_half hi hi). lia.
Qed.

(** After [k + 1] failures the backoff is the maximum or at least 1000 * 2^k. *)
Lemma failing_growth lo hi l :
  1000 <= lo <= hi -> forall fsm b,
  failing lo hi b fsm -> l <> [] ->
  st (fail_all fsm l) = S_BACKOFF /\
  exists b', failing lo hi b' (fail_all fsm l) /\
    (b' = hi \/ (lo <= b' /\ 1000 * 2 ^ (Z.of_nat (length l) - 1) <= b')).
Proof.
  intros Hlim. induction l as [| [now err] l IH] using rev_ind; [done |]. intros fsm b H _.
  unfold fail_all. rewrite foldl_snoc, length_app. cbn [length].
  destruct (decide (l = [])) as [-> | Hne].
  - cbn [foldl length]. destruct (connect_failed_spec _ now err _ _ _ H) as [H' ?].
    split; [done |]. eexists; split; [done |].
    destruct (grow_progress lo hi b Hlim); [by left | right; lia].
  - destruct (IH fsm b H Hne) as (_ & b' & Hb' & Hgrow).
    destruct (connect_failed_spec _ now err _ _ _ Hb') as [H' ?].
    split; [done |]. eexists; split; [done |].
    destruct Hgrow as [-> | Hgrow]; [left; by apply grow_max |].
    destruct (grow_progress lo hi b' Hlim); [by left | right].
    assert (length l <> 0)%nat by (destruct l; [done | cbn; lia]).
    replace (Z.of_nat (length l + 1) - 1) with (Z.succ (Z.of_nat (length l) - 1)) by lia.
    rewrite Z.pow_succ_r by lia. lia.
Qed.

(** ** The retry budget *)

Definition budgeted (c : call) : bool :=
  match c with SetMaxTries _ | SetPassive _ _ => false | _ => true end.

Definition backing_off (fsm : reconnect) : bool := bool_decide (st fsm = S_BACKOFF).

(** The number of times a session enters the BACKOFF state, from which the FSM asks
    the client to connect. *)
Fixpoint backoff_entries (fsm : reconnect) (cs : list call) : Z :=
  match cs with
  | [] => 0
  | c :: cs =>
      match exec c fsm with
      | Some fsm' =>
          (if negb (backing_off fsm) && backing_off fsm' then 1 else 0)
          + backoff_entries fsm' cs
      | None => 0
      end
  end.

(** A call either does not enter BACKOFF and does not add tries, or uses up a try. *)
Definition spends (fsm fsm' : reconnect) : Prop :=
  0 <= max_tries fsm' <= max_tries fsm - (if negb (backing_off fsm) && backing_off fsm' then 1 else 0).

Lemma spends_intro fsm fsm' :
  0 <= max_tries fsm -> max_tries fsm' = max_tries fsm -> st fsm' <> S_BACKOFF -> spends fsm fsm'.
Proof.
  intros ? Heq Hst. unfold spends, backing_off.
  rewrite Heq, (bool_decide_false _ Hst), andb_false_r. lia.
Qed.

Lemma spends_refl fsm : 0 <= max_tries fsm -> spends fsm fsm.
Proof. intros. unfold spends. destruct (backing_off fsm); cbn; lia. Qed.

Lemma spends_trans fsm1 fsm2 fsm3 :
  st fsm2 <> S_BACKOFF -> spends fsm1 fsm2 -> spends fsm2 fsm3 -> spends fsm1 fsm3.
Proof.
  intros Hst. unfold spends, backing_off. rewrite (bool_decide_false _ Hst).
  repeat case_bool_decide; cbn; lia.
Qed.

Lemma spends_retry fsm fsm' n :
  0 < max_tries fsm < UINT_MAX -> max_tries fsm' = n ->
  n = u32 (max_tries fsm - 1) -> spends fsm fsm'.
Proof.
  intros Hr Hn ->. unfold spends. rewrite Hn. unfold UINT_MAX in *.
  rewrite wrap_small by (unfold in_u; lia). destruct (_ && _); lia.
Qed.

Lemma spends_disconnected fsm now err :
  0 <= max_tries fsm < UINT_MAX -> spends fsm (reconnect_disconnected fsm now err).
Proof.
  intros Hr. unfold reconnect_disconnected. destruct (negb _) eqn:E; [| apply spends_refl; lia].
  unfold reconnect_may_retry. cbv zeta. rsimpl. rewrite Z.gtb_ltb.
  destruct (Z.ltb_spec 0 (max_tries fsm)); cbn [negb andb].
  - destruct (next_backoff _) as [free b]. eapply spends_retry; [lia | reflexivity |].
    unfold reconnect_transition__. rsimpl. by destruct (Z.eqb_spec (max_tries fsm) UINT_MAX); [lia |].
  - apply spends_intro; [lia | |]; unfold reconnect_transition__; by rsimpl.
Qed.

Lemma spends_transition fsm now s :
  0 <= max_tries fsm -> s <> S_BACKOFF -> spends fsm (reconnect_transition__ fsm now s).
Proof. intros. apply spends_intro; [done | |]; unfold reconnect_transition__; by rsimpl. Qed.

Lemma spends_connecting fsm now :
  0 <= max_tries fsm ->
  spends fsm (reconnect_connecting fsm now) /\ st (reconnect_connecting fsm now) <> S_BACKOFF
  /\ max_tries (reconnect_connecting fsm now) = max_tries fsm.
Proof.
  intros. unfold reconnect_connecting. case_bool_decide as Hc; cbn [negb].
  - split; [by apply spends_refl | by rewrite Hc].
  - split; [by apply spends_transition |]. unfold reconnect_transition__. by rsimpl.
Qed.

Lemma spends_guarded (b : bool) fsm fsm' :
  0 <= max_tries fsm -> spends fsm fsm' -> spends fsm (if b then fsm' else fsm).
Proof. destruct b; auto using spends_refl. Qed.

Lemma spends_upd fsm fsm' fsm'' :
  spends fsm fsm' -> max_tries fsm'' = max_tries fsm' -> st fsm'' = st fsm' -> spends fsm fsm''.
Proof. unfold spends, backing_off. by intros ? -> ->. Qed.

Lemma exec_spends c fsm fsm' :
  budgeted c = true -> 0 <= max_tries fsm < UINT_MAX ->
  exec c fsm = Some fsm' -> spends fsm fsm'.
Proof.
  intros Hc Hr He. assert (0 <= max_tries fsm) as H0 by lia.
  destruct c; cbn [exec budgeted] in *; simplify_eq.
  all: try (eapply spends_upd; [by apply spends_refl | reflexivity | reflexivity]).
  - unfold reconnect_enable. apply spends_guarded; [done |]. unfold reconnect_may_retry.
    rewrite Z.gtb_ltb. destruct (Z.ltb_spec 0 (max_tries fsm)); cbn [andb].
    + eapply spends_retry; [lia | reflexivity |].
      unfold reconnect_transition__. rsimpl. by destruct (Z.eqb_spec (max_tries fsm) UINT_MAX); [lia |].
    + eapply spends_upd; [by apply spends_refl | reflexivity | reflexivity].
  - apply spends_guarded; [done |]. by apply spends_transition.
  - apply spends_guarded; [done |]. by apply spends_transition.
  - by apply spends_disconnected.
  - by apply spends_connecting.
  - apply spends_guarded; [done |]. by apply spends_transition.
  - apply spends_guarded; [done |]. by apply spends_disconnected.
  - unfold reconnect_connected. apply spends_guarded; [done |].
    destruct (spends_connecting fsm now H0) as (H1 & H2 & H3).
    eapply spends_trans; [exact H2 | done |].
    apply (spends_upd _ (reconnect_transition__ (reconnect_connecting fsm now) now S_ACTIVE)).
    + apply spends_transition; [by rewrite H3 | done].
    + by rsimpl.
    + by rsimpl.
  - destruct (spends_connecting fsm now H0) as (H1 & H2 & H3).
    eapply spends_trans; [exact H2 | done |]. apply spends_disconnected. by rewrite H3.
  - unfold reconnect_activity. eapply spends_upd; [apply spends_guarded | reflexivity | reflexivity].
    + done.
    + by apply spends_transition.
  - destruct (reconnect_run fsm now) as [[fsm1 act] |] eqn:E; simplify_eq/=.
    unfold reconnect_run in E. destruct (reconnect_deadline__ fsm); cbn in E; [| done].
    zcase; [| by simplify_eq; apply spends_refl].
    destruct (st fsm); simplify_eq; by (apply spends_refl || apply spends_transition).
Qed.

Lemma session_spends fsm cs fsm' :
  session fsm cs fsm' -> forallb budgeted cs = true ->
  0 <= max_tries fsm < UINT_MAX ->
  backoff_entries fsm cs + max_tries fsm' <= max_tries fsm.
Proof.
  induction 1 as [| fsm fsm1 fsm2 c cs Hok He Hs IH]; cbn [forallb backoff_entries]; [lia |].
  intros [Hb Hbs]%andb_prop Hr. rewrite He.
  pose proof (exec_spends _ _ _ Hb Hr He) as Hsp. unfold spends in Hsp.
  assert (0 <= max_tries fsm1 < UINT_MAX) as Hr1 by (destruct (_ && _); lia).
  specialize (IH Hbs Hr1). lia.
Qed.

(** A disabled FSM stays disabled when the client reports a disconnection or forces a
    reconnection. *)
Lemma void_ignores_disconnect fsm now err :
  st fsm = S_VOID ->
  reconnect_disconnected fsm now err = fsm /\ reconnect_force_reconnect fsm now = fsm.
Proof. intros H. unfold reconnect_disconnected, reconnect_force_reconnect. by rewrite H. Qed.

(** Asking for the default maximum (0) while backing off cuts the current backoff to 0
    instead of the default maximum. *)
Lemma set_backoff_default_drops_wait fsm lo :
  st fsm = S_BACKOFF -> 0 < backoff fsm ->
  backoff (reconnect_set_backoff fsm lo 0) = 0.
Proof.
  intros Hst Hb. unfold reconnect_set_backoff. cbv zeta. rsimpl.
  rewrite Hst. rewrite bool_decide_true by done. zcases; try done; lia.
Qed.

(** ** Properties *)

(** C35: every FSM that a client can reach from [reconnect_create] by any sequence of
    calls with valid arguments is well formed: the backoff limits are ordered and at
    least a second, the current backoff is within the configured maximum whenever the
    FSM backs off, no field leaves its C type, and the sequence number is odd exactly
    while the FSM is connected. *)
Theorem reconnect_reachable_wf now cs fsm :
  session (reconnect_create now) cs fsm -> wf fsm.
Proof. intros Hs. eapply session_wf; [exact Hs | apply create_wf]. Qed.

Definition sample_session : list call :=
  [Enable 0; Run 0; Connecting 1; ConnectFailed 1200 111; SetBackoff 2000 0; Run 4000;
   Connected 4010; ReceiveAttempted 10000; Run 10000; Activity 10050; Disconnected 11000 (-1)].

Ltac run_session :=
  repeat (eapply session_cons; [reflexivity | vm_compute; reflexivity |]); apply session_nil.

Lemma reconnect_reachable_wf_witness :
  exists fsm, session (reconnect_create 0) sample_session fsm /\ wf fsm.
Proof.
  eexists. split; [run_session |].
  eapply (reconnect_reachable_wf 0 sample_session). run_session.
Defined.

(** The timer that [reconnect_timeout] asks for is exact: nothing is due before it
    fires, and when it fires [reconnect_run] returns an action, so no wakeup is lost;
    when it asks for none, nothing ever becomes due. *)
Theorem reconnect_timeout_exact fsm now t :
  reconnect_timeout fsm now = Some t ->
  (0 <= t ->
     (forall now', now <= now' < now + t -> reconnect_run fsm now' = Some (fsm, None))
     /\ (t < INT_MAX ->
         exists fsm' act, reconnect_run fsm (now + t) = Some (fsm', Some act)))
  /\ (t < 0 -> forall now', now' < LLONG_MAX -> reconnect_run fsm now' = Some (fsm, None)).
Proof.
  unfold reconnect_timeout. intros H.
  destruct (reconnect_deadline__ fsm) as [d |] eqn:Hd; cbn [mbind option_bind] in H; [| done].
  destruct (Z.eqb_spec d LLONG_MAX) as [-> | Hne]; cbn [negb] in H; simplify_eq.
  - split; [lia |]. intros _ now' ?. by eapply run_not_due.
  - split; [| lia]. intros _. split.
    + intros now' ?. eapply run_not_due; [done | lia].
    + intros ?. eapply run_due; [done | done | lia].
Qed.

Lemma reconnect_timeout_exact_witness :
  exists fsm', reconnect_run (reconnect_enable (reconnect_create 5) 5) (5 + 0)
                 = Some (fsm', Some RECONNECT_CONNECT).
Proof.
  destruct (reconnect_timeout_exact (reconnect_enable (reconnect_create 5) 5) 5 0) as [H _].
  - vm_compute. reflexivity.
  - destruct H as [_ H]; [lia |]. destruct H as (fsm' & act & H); [vm_compute; reflexivity |].
    exists fsm'. rewrite H. vm_compute in H. by simplify_eq.
Defined.

(** Exponential backoff saturates: with unlimited tries and no free tries left, after
    any 23 or more consecutive failed attempts (at any times, with any errors) a
    well-formed FSM backs off for exactly the configured maximum. *)
Theorem reconnect_backoff_saturates fsm l :
  wf fsm -> max_tries fsm = UINT_MAX -> backoff_free_tries fsm <= 1 ->
  (23 <= length l)%nat ->
  st (fail_all fsm l) = S_BACKOFF /\ backoff (fail_all fsm l) = max_backoff fsm
  /\ max_backoff (fail_all fsm l) = max_backoff fsm.
Proof.
  intros Hwf Ht Hf Hl. pose proof (wf_limits _ Hwf) as [Hlo Hhi].
  destruct (failing_growth (min_backoff fsm) (max_backoff fsm) l (conj Hlo (proj1 Hhi)) fsm (backoff fsm))
    as (Hst & b & Hb & Hgrow).
  { by split. }
  { intros ->. cbn in Hl. lia. }
  split; [done |]. rewrite (failing_hi _ _ _ _ Hb). split; [| done].
  rewrite (failing_b _ _ _ _ Hb).
  destruct Hgrow as [| [? Hgrow]]; [done |]. exfalso.
  assert (wf (fail_all fsm l)) as Hwf'.
  { unfold fail_all. clear -Hwf. revert fsm Hwf. induction l as [| [now err] l IH]; [done |].
    intros fsm Hwf. cbn. apply IH. by apply wf_disconnected, wf_connecting. }
  pose proof (wf_backoff _ Hwf') as Hmax. rewrite (failing_b _ _ _ _ Hb) in Hmax.
  assert (2 ^ 22 <= 2 ^ (Z.of_nat (length l) - 1)) by (apply Z.pow_le_mono_r; lia).
  unfold INT_MAX in *. lia.
Qed.

Lemma reconnect_backoff_saturates_witness :
  backoff (fail_all (reconnect_create 0) (replicate 23 (7, 111))) = 8000.
Proof.
  destruct (reconnect_backoff_saturates (reconnect_create 0) (replicate 23 (7, 111)))
    as (_ & H & _).
  - apply create_wf.
  - reflexivity.
  - cbn. lia.
  - cbn. lia.
  - exact H.
Defined.

(** The retry budget is respected: in a session that does not reconfigure it, an FSM
    limited to [max_tries] tries enters BACKOFF (the only state in which it asks the
    client to connect) at most [max_tries] times, and what remains of the budget is
    never negative. *)
Theorem reconnect_retry_budget fsm cs fsm' :
  session fsm cs fsm' -> forallb budgeted cs = true ->
  0 <= max_tries fsm < UINT_MAX ->
  backoff_entries fsm cs + max_tries fsm' <= max_tries fsm.
Proof. apply session_spends. Qed.

Definition limited : reconnect := reconnect_set_max_tries (reconnect_create 0) 2.
Definition limited_calls : list call :=
  [Enable 0; Connected 1; Disconnected 2 5; ConnectFailed 3 5; Enable 4].

Lemma reconnect_retry_budget_witness :
  exists fsm', session limited limited_calls fsm' /\ backoff_entries limited limited_calls = 2
    /\ 2 + max_tries fsm' <= 2.
Proof.
  eexists. split; [run_session |]. split; [vm_compute; reflexivity |].
  eapply (reconnect_retry_budget limited limited_calls); [run_session | reflexivity |].
  vm_compute. split; [discriminate | reflexivity].
Defined.

(** The keepalive: on a quiet connection with probing enabled, nothing is due for
    [probe_interval] milliseconds; then, once the client has tried to receive, the FSM
    sends one probe and goes IDLE; if a further interval passes with nothing received
    it disconnects; and activity at any point makes it ACTIVE again with the interval
    restarted. *)
Theorem reconnect_keepalive fsm now now2 rx rx2 :
  let base := Z.max (last_activity fsm) (state_entered fsm) in
  let p := probe_interval fsm in
  wf fsm -> st fsm = S_ACTIVE -> p <> 0 -> LLONG_MIN < state_entered fsm ->
  LLONG_MIN < now < LLONG_MAX -> base + p <= now -> base + p <= rx ->
  now + p <= now2 -> now + p <= rx2 ->
  (forall now', now' < base + p -> now' < LLONG_MAX ->
     reconnect_run fsm now' = Some (fsm, None)) /\
  exists idle,
    reconnect_run (reconnect_receive_attempted fsm rx) now = Some (idle, Some RECONNECT_PROBE)
    /\ st idle = S_IDLE
    /\ reconnect_run (reconnect_receive_attempted idle rx2) now2
         = Some (reconnect_receive_attempted idle rx2, Some RECONNECT_DISCONNECT)
    /\ st (reconnect_activity idle now2) = S_ACTIVE
    /\ last_activity (reconnect_activity idle now2) = now2.
Proof.
  cbv zeta. intros Hwf Hst Hp Hent Hnow Hdue Hrx Hdue2 Hrx2. split.
  { intros now' Hlt Hmax. unfold reconnect_run, reconnect_deadline__. rewrite Hst.
    zcases; cbn [mbind option_bind]; rewrite ?Z.geb_leb; zcases; try done; lia. }
  set (idle := reconnect_transition__ (reconnect_receive_attempted fsm rx) now S_IDLE).
  exists idle. split; [| split; [done |]]. 2: split; [| split].
  - unfold reconnect_run, reconnect_deadline__, reconnect_receive_attempted. rsimpl. rewrite Hst.
    zcases; cbn [mbind option_bind]; zcases; try done; lia.
  - unfold reconnect_run, reconnect_deadline__, reconnect_receive_attempted.
    subst idle. unfold reconnect_transition__, reconnect_receive_attempted. rsimpl.
    zcases; cbn [mbind option_bind]; zcases; try done; lia.
  - unfold reconnect_activity. subst idle. unfold reconnect_transition__. by rsimpl.
  - unfold reconnect_activity. subst idle. by rsimpl.
Qed.

Definition quiet_conn : reconnect :=
  reconnect_connected (reconnect_enable (reconnect_create 0) 0) 10.

Lemma reconnect_keepalive_witness :
  exists idle, reconnect_run (reconnect_receive_attempted quiet_conn 6000) 6000
                 = Some (idle, Some RECONNECT_PROBE) /\ st idle = S_IDLE.
Proof.
  destruct (reconnect_keepalive quiet_conn 6000 12000 6000 12000)
    as (_ & idle & H & Hst & _); try (vm_compute; (reflexivity || discriminate)).
  - apply wf_connected. by apply (exec_wf (Enable 0) (reconnect_create 0)), create_wf.
  - split; vm_compute; reflexivity.
  - by exists idle.
Defined.

End Reconnect.
