(* ===== verification/Stp.v ===== *)
(** The spanning tree protocol engine (lib/stp.c, lib/stp.h): its data, its timers,
    the protocol procedures of IEEE 802.1D clause 8.6 and the client interface.

    An [struct stp] is a record whose [ports] array is a list; a port pointer is an
    index into it.  The BPDUs handed to the [send_bpdu] callback are collected, in
    order, in the field [sent]; a callback that re-enters the module is not modelled.
    Signed [int] arithmetic that can overflow on hostile input is written with its
    two's complement wrap-around ([s32]). *)
From S2P Require Import Prelude.

Module Stp.

(** ** Data *)

Definition STP_DEFAULT_BRIDGE_PRIORITY : Z := 32768.
Definition STP_DEFAULT_PORT_PRIORITY : Z := 128.
Definition STP_DEFAULT_MAX_AGE : Z := 20000.
Definition STP_DEFAULT_HELLO_TIME : Z := 2000.
Definition STP_DEFAULT_FWD_DELAY : Z := 15000.
Definition STP_MAX_PORTS : nat := 255.

Definition STP_PROTOCOL_ID : Z := 0x0000.
Definition STP_PROTOCOL_VERSION : Z := 0x00.
Definition STP_TYPE_CONFIG : Z := 0x00.
Definition STP_TYPE_TCN : Z := 0x80.
Definition STP_CONFIG_TOPOLOGY_CHANGE_ACK : Z := 0x80.
Definition STP_CONFIG_TOPOLOGY_CHANGE : Z := 0x01.
Definition MESSAGE_AGE_INCREMENT : Z := 1.

(** The port states; [STP_ZERO] is the all-zero value that a port has between its
    allocation and its initialization in [stp_create]. *)
Inductive stp_state :=
  | STP_ZERO | STP_DISABLED | STP_LISTENING | STP_LEARNING | STP_FORWARDING | STP_BLOCKING.

#[export] Instance stp_state_eq_dec : EqDecision stp_state.
Proof. solve_decision. Defined.

Definition state_bits (s : stp_state) : Z :=
  match s with
  | STP_ZERO => 0
  | STP_DISABLED => Z.shiftl 1 0
  | STP_LISTENING => Z.shiftl 1 1
  | STP_LEARNING => Z.shiftl 1 2
  | STP_FORWARDING => Z.shiftl 1 3
  | STP_BLOCKING => Z.shiftl 1 4
  end.

(** [s & (l1 | l2 | ...)] used as a truth value. *)
Definition state_in (s : stp_state) (l : list stp_state) : bool :=
  negb (Z.land (state_bits s) (foldr (fun s m => Z.lor (state_bits s) m) 0 l) =? 0).

Inductive stp_role :=
  STP_ROLE_ROOT | STP_ROLE_DESIGNATED | STP_ROLE_ALTERNATE | STP_ROLE_DISABLED.

Record stp_timer := mk_timer { active : bool; value : Z }.
#[export] Instance timer_eta : RecordEta stp_timer := λ t, mk_timer (active t) (value t).

Record stp_port := mk_port {
  port_name : option string;
  p_aux : option Z;
  port_id : Z;
  state : stp_state;
  path_cost : Z;
  p_designated_root : Z;
  designated_cost : Z;
  designated_bridge : Z;
  designated_port : Z;
  topology_change_ack : bool;
  config_pending : bool;
  change_detection_enabled : bool;
  message_age_timer : stp_timer;
  forward_delay_timer : stp_timer;
  hold_timer : stp_timer;
  tx_count : Z;
  rx_count : Z;
  error_count : Z;
  state_changed : bool;
}.

#[export] Instance port_eta : RecordEta stp_port := λ p,
  mk_port (port_name p) (p_aux p) (port_id p) (state p) (path_cost p)
    (p_designated_root p) (designated_cost p) (designated_bridge p) (designated_port p)
    (topology_change_ack p) (config_pending p) (change_detection_enabled p)
    (message_age_timer p) (forward_delay_timer p) (hold_timer p)
    (tx_count p) (rx_count p) (error_count p) (state_changed p).

(** A transmitted frame: the port number and the bytes of the packet. *)
Definition frame : Type := nat * list Z.

Record stp := mk_stp {
  name : string;
  bridge_id : Z;
  max_age : Z;
  hello_time : Z;
  forward_delay : Z;
  bridge_max_age : Z;
  bridge_hello_time : Z;
  bridge_forward_delay : Z;
  rq_max_age : Z;
  rq_hello_time : Z;
  rq_forward_delay : Z;
  elapsed_remainder : Z;
  designated_root : Z;
  root_path_cost : Z;
  root_port : option nat;
  topology_change_detected : bool;
  topology_change : bool;
  hello_timer : stp_timer;
  tcn_timer : stp_timer;
  topology_change_timer : stp_timer;
  ports : list stp_port;
  fdb_needs_flush : bool;
  first_changed_port : nat;
  sent : list frame;
  connectivity_seq : Z;
}.

#[export] Instance stp_eta : RecordEta stp := λ s,
  mk_stp (name s) (bridge_id s) (max_age s) (hello_time s) (forward_delay s)
    (bridge_max_age s) (bridge_hello_time s) (bridge_forward_delay s) (rq_max_age s)
    (rq_hello_time s) (rq_forward_delay s) (elapsed_remainder s) (designated_root s)
    (root_path_cost s) (root_port s) (topology_change_detected s) (topology_change s)
    (hello_timer s) (tcn_timer s) (topology_change_timer s) (ports s)
    (fdb_needs_flush s) (first_changed_port s) (sent s) (connectivity_seq s).

(** ** Ports of a bridge *)

(** [stp->ports[i].field = ...] *)
Definition upd_port (i : nat) (f : stp_port -> stp_port) (s : stp) : stp :=
  s <| ports ::= alter f i |>.

Definition enabled (p : stp_port) : bool := negb (bool_decide (state p = STP_DISABLED)).

(** FOR_EACH_ENABLED_PORT: visits the ports in order, testing each one's state when it
    is reached. *)
Definition for_each_enabled_port (f : nat -> stp -> stp) (s : stp) : stp :=
  foldl (fun s i =>
    match ports s !! i with
    | Some p => if enabled p then f i s else s
    | None => s
    end) s (seq 0 (length (ports s))).

(** ** Timers *)

Definition stp_start_timer (v : Z) (t : stp_timer) : stp_timer := mk_timer true v.

Definition stp_stop_timer (t : stp_timer) : stp_timer := t <| active := false |>.

Definition stp_timer_expired (t : stp_timer) (elapsed timeout : Z) : stp_timer * bool :=
  if active t then
    let t := t <| value ::= λ v, v + elapsed |> in
    if value t >=? timeout then (t <| active := false |>, true) else (t, false)
  else (t, false).

Definition ms_to_timer (ms : Z) : Z := Z.quot (s32 (ms * 0x100)) 1000.

Definition timer_to_ms (timer : Z) : Z := Z.quot (s32 (timer * 1000)) 0x100.

Definition clamp (x lo hi : Z) : Z := if x <? lo then lo else if x >? hi then hi else x.

(** ** BPDUs *)

(** A configuration BPDU, its fields in host byte order. *)
Record stp_config_bpdu := mk_config {
  c_flags : Z;
  c_root_id : Z;
  c_root_path_cost : Z;
  c_bridge_id : Z;
  c_port_id : Z;
  c_message_age : Z;
  c_max_age : Z;
  c_hello_time : Z;
  c_forward_delay : Z;
}.

Definition header_bytes (bpdu_type : Z) : list Z :=
  be_bytes 2 STP_PROTOCOL_ID ++ [STP_PROTOCOL_VERSION] ++ [bpdu_type].

(** The bytes of the packed [struct stp_config_bpdu] in memory. *)
Definition config_bytes (c : stp_config_bpdu) : list Z :=
  header_bytes STP_TYPE_CONFIG ++ [c_flags c] ++ be_bytes 8 (c_root_id c)
  ++ be_bytes 4 (c_root_path_cost c) ++ be_bytes 8 (c_bridge_id c)
  ++ be_bytes 2 (c_port_id c) ++ be_bytes 2 (c_message_age c) ++ be_bytes 2 (c_max_age c)
  ++ be_bytes 2 (c_hello_time c) ++ be_bytes 2 (c_forward_delay c).

Definition tcn_bytes : list Z := header_bytes STP_TYPE_TCN.

(** Reading a [struct stp_config_bpdu] at the start of a buffer. *)
Definition read_config (b : list Z) : stp_config_bpdu := {|
  c_flags := be_val (bytes_at 4 1 b);
  c_root_id := be_val (bytes_at 5 8 b);
  c_root_path_cost := be_val (bytes_at 13 4 b);
  c_bridge_id := be_val (bytes_at 17 8 b);
  c_port_id := be_val (bytes_at 25 2 b);
  c_message_age := be_val (bytes_at 27 2 b);
  c_max_age := be_val (bytes_at 29 2 b);
  c_hello_time := be_val (bytes_at 31 2 b);
  c_forward_delay := be_val (bytes_at 33 2 b);
|}.

Definition STP_LLC_DSAP : Z := 0x42.
Definition STP_LLC_SSAP : Z := 0x42.
Definition STP_LLC_CNTL : Z := 0x03.
Definition eth_addr_stp : list Z := [0x01; 0x80; 0xc2; 0; 0; 0].

(** The frame around a BPDU: Ethernet destination, zero source (for the callback to
    fill in), the length of what follows as the type, and the LLC header. *)
Definition bpdu_frame (bpdu : list Z) : list Z :=
  eth_addr_stp ++ replicate 6 0 ++ be_bytes 2 (3 + Z.of_nat (length bpdu))
  ++ [STP_LLC_DSAP; STP_LLC_SSAP; STP_LLC_CNTL] ++ bpdu.

Definition stp_send_bpdu (i : nat) (bpdu : list Z) (s : stp) : stp :=
  upd_port i (λ p, p <| tx_count ::= λ n, n + 1 |>)
    (s <| sent ::= λ l, l ++ [(i, bpdu_frame bpdu)] |>).

Definition seq_change (s : stp) : stp := s <| connectivity_seq ::= λ n, n + 1 |>.

(** ** Protocol procedures *)

Definition stp_is_root_bridge (s : stp) : bool := bridge_id s =? designated_root s.

Definition stp_is_designated_port (s : stp) (p : stp_port) : bool :=
  (designated_bridge p =? bridge_id s) && (designated_port p =? port_id p).

(** The age that goes into a configuration BPDU: [None] when the code would follow a
    null root port pointer. *)
Definition root_message_age (s : stp) : option Z :=
  i ← root_port s; p ← ports s !! i; Some (value (message_age_timer p)).

Definition config_for (s : stp) (p : stp_port) (age : Z) : stp_config_bpdu := {|
  c_flags := Z.lor (if topology_change_ack p then STP_CONFIG_TOPOLOGY_CHANGE_ACK else 0)
                   (if topology_change s then STP_CONFIG_TOPOLOGY_CHANGE else 0);
  c_root_id := designated_root s;
  c_root_path_cost := root_path_cost s;
  c_bridge_id := bridge_id s;
  c_port_id := u16 (port_id p);
  c_message_age := age;
  c_max_age := u16 (max_age s);
  c_hello_time := u16 (hello_time s);
  c_forward_delay := u16 (forward_delay s);
|}.

Definition stp_transmit_config (i : nat) (s : stp) : stp :=
  match ports s !! i with
  | None => s
  | Some p =>
      let root := stp_is_root_bridge s in
      if negb root && bool_decide (root_port s = None) then s
      else if active (hold_timer p) then upd_port i (λ p, p <| config_pending := true |>) s
      else
        let age :=
          if root then 0
          else u16 (default 0 (root_message_age s) + MESSAGE_AGE_INCREMENT) in
        if age <? max_age s then
          let config := config_for s p age in
          let s := upd_port i (λ p, p <| topology_change_ack := false |>
                                       <| config_pending := false |>) s in
          let s := stp_send_bpdu i (config_bytes config) s in
          upd_port i (λ p, p <| hold_timer ::= stp_start_timer 0 |>) s
        else s
  end.

Definition stp_supersedes_port_info (s : stp) (p : stp_port) (c : stp_config_bpdu) : bool :=
  if negb (c_root_id c =? p_designated_root p) then c_root_id c <? p_designated_root p
  else if negb (c_root_path_cost c =? u32 (designated_cost p)) then
    c_root_path_cost c <? u32 (designated_cost p)
  else if negb (c_bridge_id c =? designated_bridge p) then
    c_bridge_id c <? designated_bridge p
  else negb (c_bridge_id c =? bridge_id s) || (c_port_id c <=? designated_port p).

Definition stp_record_config_information (i : nat) (c : stp_config_bpdu) (s : stp) : stp :=
  upd_port i (λ p, p <| p_designated_root := c_root_id c |>
                     <| designated_cost := s32 (c_root_path_cost c) |>
                     <| designated_bridge := c_bridge_id c |>
                     <| designated_port := c_port_id c |>
                     <| message_age_timer ::= stp_start_timer (c_message_age c) |>) s.

Definition stp_record_config_timeout_values (c : stp_config_bpdu) (s : stp) : stp :=
  s <| max_age := c_max_age c |>
    <| hello_time := c_hello_time c |>
    <| forward_delay := c_forward_delay c |>
    <| topology_change := negb (Z.land (c_flags c) STP_CONFIG_TOPOLOGY_CHANGE =? 0) |>.

Definition stp_config_bpdu_generation (s : stp) : stp :=
  for_each_enabled_port (λ i s,
    match ports s !! i with
    | Some p => if stp_is_designated_port s p then stp_transmit_config i s else s
    | None => s
    end) s.

Definition stp_transmit_tcn (s : stp) : stp :=
  match root_port s with
  | None => s
  | Some i => stp_send_bpdu i tcn_bytes s
  end.

Definition stp_supersedes_root (root p : stp_port) : bool :=
  let p_cost := s32 (designated_cost p + path_cost p) in
  let root_cost := s32 (designated_cost root + path_cost root) in
  if negb (p_designated_root p =? p_designated_root root) then
    p_designated_root p <? p_designated_root root
  else if negb (p_cost =? root_cost) then p_cost <? root_cost
  else if negb (designated_bridge p =? designated_bridge root) then
    designated_bridge p <? designated_bridge root
  else if negb (designated_port p =? designated_port root) then
    designated_port p <? designated_port root
  else port_id p <? port_id root.

(** A port that can lead to a better root than this bridge. *)
Definition root_candidate (s : stp) (p : stp_port) : bool :=
  enabled p && negb (stp_is_designated_port s p || (p_designated_root p >=? bridge_id s)).

(** The loop of [stp_root_selection]: the port chosen so far, with its index. *)
Fixpoint select_root (s : stp) (i : nat) (l : list stp_port) (root : option (nat * stp_port))
  : option (nat * stp_port) :=
  match l with
  | [] => root
  | p :: l =>
      let root' :=
        if root_candidate s p then
          match root with
          | Some (_, r) => if stp_supersedes_root r p then Some (i, p) else root
          | None => Some (i, p)
          end
        else root in
      select_root s (S i) l root'
  end.

Definition stp_root_selection (s : stp) : stp :=
  match select_root s 0 (ports s) None with
  | None =>
      s <| root_port := None |> <| designated_root := bridge_id s |> <| root_path_cost := 0 |>
  | Some (i, root) =>
      s <| root_port := Some i |>
        <| designated_root := p_designated_root root |>
        <| root_path_cost := u32 (s32 (designated_cost root + path_cost root)) |>
  end.

Definition stp_become_designated_port (i : nat) (s : stp) : stp :=
  upd_port i (λ p, p <| p_designated_root := designated_root s |>
                     <| designated_cost := s32 (root_path_cost s) |>
                     <| designated_bridge := bridge_id s |>
                     <| designated_port := port_id p |>) s.

Definition should_be_designated (s : stp) (p : stp_port) : bool :=
  stp_is_designated_port s p
  || negb (p_designated_root p =? designated_root s)
  || (root_path_cost s <? u32 (designated_cost p))
  || ((root_path_cost s =? u32 (designated_cost p))
      && ((bridge_id s <? designated_bridge p)
          || ((bridge_id s =? designated_bridge p)
              && (port_id p <=? designated_port p)))).

Definition stp_designated_port_selection (s : stp) : stp :=
  for_each_enabled_port (λ i s,
    match ports s !! i with
    | Some p => if should_be_designated s p then stp_become_designated_port i s else s
    | None => s
    end) s.

Definition stp_configuration_update (s : stp) : stp :=
  seq_change (stp_designated_port_selection (stp_root_selection s)).

Definition stp_set_port_state (i : nat) (st : stp_state) (s : stp) : stp :=
  match ports s !! i with
  | None => s
  | Some p =>
      let changed := negb (bool_decide (st = state p)) && negb (state_changed p) in
      let s :=
        if changed then
          seq_change (s <| first_changed_port ::= λ f, if (i <? f)%nat then i else f |>)
        else s in
      upd_port i (λ p, p <| state_changed ::= λ b, changed || b |> <| state := st |>) s
  end.

Definition stp_topology_change_detection (s : stp) : stp :=
  let s :=
    if stp_is_root_bridge s then
      s <| topology_change := true |> <| topology_change_timer ::= stp_start_timer 0 |>
    else if negb (topology_change_detected s) then
      (stp_transmit_tcn s) <| tcn_timer ::= stp_start_timer 0 |>
    else s in
  seq_change (s <| fdb_needs_flush := true |> <| topology_change_detected := true |>).

Definition stp_make_forwarding (i : nat) (s : stp) : stp :=
  match ports s !! i with
  | Some p =>
      if bool_decide (state p = STP_BLOCKING) then
        upd_port i (λ p, p <| forward_delay_timer ::= stp_start_timer 0 |>)
          (stp_set_port_state i STP_LISTENING s)
      else s
  | None => s
  end.

Definition stp_make_blocking (i : nat) (s : stp) : stp :=
  match ports s !! i with
  | Some p =>
      if negb (state_in (state p) [STP_DISABLED; STP_BLOCKING]) then
        let s :=
          if state_in (state p) [STP_FORWARDING; STP_LEARNING]
             && change_detection_enabled p
          then stp_topology_change_detection s else s in
        upd_port i (λ p, p <| forward_delay_timer ::= stp_stop_timer |>)
          (stp_set_port_state i STP_BLOCKING s)
      else s
  | None => s
  end.

Definition clear_pending (p : stp_port) : stp_port :=
  p <| config_pending := false |> <| topology_change_ack := false |>.

Definition stp_port_state_selection (s : stp) : stp :=
  for_each_enabled_port (λ i s,
    match ports s !! i with
    | Some p =>
        if bool_decide (root_port s = Some i) then
          stp_make_forwarding i (upd_port i clear_pending s)
        else if stp_is_designated_port s p then
          stp_make_forwarding i
            (upd_port i (λ p, p <| message_age_timer ::= stp_stop_timer |>) s)
        else stp_make_blocking i (upd_port i clear_pending s)
    | None => s
    end) s.

Definition stp_topology_change_acknowledged (s : stp) : stp :=
  s <| topology_change_detected := false |> <| tcn_timer ::= stp_stop_timer |>.

Definition stp_acknowledge_topology_change (i : nat) (s : stp) : stp :=
  stp_transmit_config i (upd_port i (λ p, p <| topology_change_ack := true |>) s).

Definition stp_received_config_bpdu (i : nat) (c : stp_config_bpdu) (s : stp) : stp :=
  if c_message_age c >=? c_max_age c then s
  else
    match ports s !! i with
    | None => s
    | Some p =>
        if enabled p then
          let root := stp_is_root_bridge s in
          if stp_supersedes_port_info s p c then
            let s := stp_record_config_information i c s in
            let s := stp_configuration_update s in
            let s := stp_port_state_selection s in
            let s :=
              if negb (stp_is_root_bridge s) && root then
                let s := s <| hello_timer ::= stp_stop_timer |> in
                if topology_change_detected s then
                  let s := s <| topology_change_timer ::= stp_stop_timer |> in
                  (stp_transmit_tcn s) <| tcn_timer ::= stp_start_timer 0 |>
                else s
              else s in
            if bool_decide (root_port s = Some i) then
              let s := stp_record_config_timeout_values c s in
              let s := stp_config_bpdu_generation s in
              let s :=
                if negb (Z.land (c_flags c) STP_CONFIG_TOPOLOGY_CHANGE_ACK =? 0)
                then stp_topology_change_acknowledged s else s in
              if negb (Z.land (c_flags c) STP_CONFIG_TOPOLOGY_CHANGE =? 0)
              then s <| fdb_needs_flush := true |> else s
            else s
          else if stp_is_designated_port s p then stp_transmit_config i s
          else s
        else s
    end.

Definition stp_received_tcn_bpdu (i : nat) (s : stp) : stp :=
  match ports s !! i with
  | Some p =>
      if enabled p && stp_is_designated_port s p
      then stp_acknowledge_topology_change i (stp_topology_change_detection s)
      else s
  | None => s
  end.

Definition stp_hello_timer_expiry (s : stp) : stp :=
  (stp_config_bpdu_generation s) <| hello_timer ::= stp_start_timer 0 |>.

Definition use_bridge_times (s : stp) : stp :=
  s <| max_age := bridge_max_age s |>
    <| hello_time := bridge_hello_time s |>
    <| forward_delay := bridge_forward_delay s |>.

Definition stp_become_root_bridge (s : stp) : stp :=
  let s := use_bridge_times s in
  let s := stp_topology_change_detection s in
  let s := s <| tcn_timer ::= stp_stop_timer |> in
  (stp_config_bpdu_generation s) <| hello_timer ::= stp_start_timer 0 |>.

(** The end of several procedures: [if (stp_is_root_bridge(stp) && !root)]. *)
Definition become_root_if_new (root : bool) (s : stp) : stp :=
  if stp_is_root_bridge s && negb root then stp_become_root_bridge s else s.

(** The code repeats the body of [stp_become_root_bridge] here. *)
Definition stp_message_age_timer_expiry (i : nat) (s : stp) : stp :=
  let root := stp_is_root_bridge s in
  let s := stp_become_designated_port i s in
  let s := stp_configuration_update s in
  let s := stp_port_state_selection s in
  become_root_if_new root s.

Definition stp_is_designated_for_some_port (s : stp) : bool :=
  existsb (λ p, enabled p && (designated_bridge p =? bridge_id s)) (ports s).

Definition stp_forward_delay_timer_expiry (i : nat) (s : stp) : stp :=
  match ports s !! i with
  | Some p =>
      if bool_decide (state p = STP_LISTENING) then
        upd_port i (λ p, p <| forward_delay_timer ::= stp_start_timer 0 |>)
          (stp_set_port_state i STP_LEARNING s)
      else if bool_decide (state p = STP_LEARNING) then
        let s := stp_set_port_state i STP_FORWARDING s in
        if stp_is_designated_for_some_port s && change_detection_enabled p
        then stp_topology_change_detection s else s
      else s
  | None => s
  end.

Definition stp_tcn_timer_expiry (s : stp) : stp :=
  (stp_transmit_tcn s) <| tcn_timer ::= stp_start_timer 0 |>.

Definition stp_topology_change_timer_expiry (s : stp) : stp :=
  s <| topology_change_detected := false |> <| topology_change := false |>.

Definition stp_hold_timer_expiry (i : nat) (s : stp) : stp :=
  match ports s !! i with
  | Some p => if config_pending p then stp_transmit_config i s else s
  | None => s
  end.

(** [None] is a failed [ovs_assert]. *)
Definition stp_initialize_port (i : nat) (st : stp_state) (s : stp) : option stp :=
  if state_in st [STP_DISABLED; STP_BLOCKING] then
    let s := stp_become_designated_port i s in
    let s :=
      match ports s !! i with
      | Some p =>
          if bool_decide (state p = STP_ZERO) && bool_decide (st = STP_DISABLED)
          then upd_port i (λ p, p <| state := st |>) s
          else stp_set_port_state i st s
      | None => s
      end in
    Some (upd_port i (λ p,
      p <| topology_change_ack := false |>
        <| config_pending := false |>
        <| change_detection_enabled := true |>
        <| p_aux := None |>
        <| message_age_timer ::= stp_stop_timer |>
        <| forward_delay_timer ::= stp_stop_timer |>
        <| hold_timer ::= stp_stop_timer |>
        <| tx_count := 0 |> <| rx_count := 0 |> <| error_count := 0 |>) s)
  else None.

Definition stp_update_bridge_timers (s : stp) : stp :=
  let ht := clamp (rq_hello_time s) 1000 10000 in
  let ma := clamp (rq_max_age s) (Z.max (2 * (ht + 1000)) 6000) 40000 in
  let fd := clamp (rq_forward_delay s) (Z.quot ma 2 + 1000) 30000 in
  let s := s <| bridge_hello_time := ms_to_timer ht |>
             <| bridge_max_age := ms_to_timer ma |>
             <| bridge_forward_delay := ms_to_timer fd |> in
  if stp_is_root_bridge s then use_bridge_times s else s.

(** ** Client interface *)

(** Advances the timer of port [i] selected by the lens and runs [expiry] if it
    expires. *)
Definition tick_port_timer (get : stp_port -> stp_timer)
    (set : stp_timer -> stp_port -> stp_port) (elapsed timeout : Z)
    (expiry : nat -> stp -> stp) (i : nat) (s : stp) : stp :=
  match ports s !! i with
  | Some p =>
      let '(t, expired) := stp_timer_expired (get p) elapsed timeout in
      let s := upd_port i (set t) s in
      if expired then expiry i s else s
  | None => s
  end.

Definition tick_message_age (elapsed : Z) (i : nat) (s : stp) : stp :=
  tick_port_timer message_age_timer (λ t p, p <| message_age_timer := t |>)
    elapsed (max_age s) stp_message_age_timer_expiry i s.

Definition tick_forward_delay (elapsed : Z) (i : nat) (s : stp) : stp :=
  tick_port_timer forward_delay_timer (λ t p, p <| forward_delay_timer := t |>)
    elapsed (forward_delay s) stp_forward_delay_timer_expiry i s.

Definition tick_hold (elapsed : Z) (i : nat) (s : stp) : stp :=
  tick_port_timer hold_timer (λ t p, p <| hold_timer := t |>)
    elapsed (ms_to_timer 1000) stp_hold_timer_expiry i s.

(** The three bridge timers. *)
Definition tick_bridge_timers (elapsed : Z) (s : stp) : stp :=
  let '(t, expired) := stp_timer_expired (hello_timer s) elapsed (hello_time s) in
  let s := s <| hello_timer := t |> in
  let s := if expired then stp_hello_timer_expiry s else s in
  let '(t, expired) := stp_timer_expired (tcn_timer s) elapsed (bridge_hello_time s) in
  let s := s <| tcn_timer := t |> in
  let s := if expired then stp_tcn_timer_expiry s else s in
  let '(t, expired) :=
    stp_timer_expired (topology_change_timer s) elapsed (max_age s + forward_delay s) in
  let s := s <| topology_change_timer := t |> in
  if expired then stp_topology_change_timer_expiry s else s.

Definition stp_tick (ms : Z) (s : stp) : stp :=
  let ms := clamp ms 0 (INT_MAX - 1000) + elapsed_remainder s in
  let elapsed := ms_to_timer ms in
  let s := s <| elapsed_remainder := ms - timer_to_ms elapsed |> in
  if elapsed =? 0 then s
  else
    let s := tick_bridge_timers elapsed s in
    let s := for_each_enabled_port (tick_message_age elapsed) s in
    for_each_enabled_port (λ i s, tick_hold elapsed i (tick_forward_delay elapsed i s)) s.

Definition zero_timer : stp_timer := mk_timer false 0.

(** A port as [xzalloc] and the loop of [stp_create] leave it before
    [stp_initialize_port]. *)
Definition fresh_port (i : nat) : stp_port := {|
  port_name := None;
  p_aux := None;
  port_id := Z.lor (Z.of_nat i + 1) (Z.shiftl STP_DEFAULT_PORT_PRIORITY 8);
  state := STP_ZERO;
  path_cost := 19;
  p_designated_root := 0;
  designated_cost := 0;
  designated_bridge := 0;
  designated_port := 0;
  topology_change_ack := false;
  config_pending := false;
  change_detection_enabled := false;
  message_age_timer := zero_timer;
  forward_delay_timer := zero_timer;
  hold_timer := zero_timer;
  tx_count := 0;
  rx_count := 0;
  error_count := 0;
  state_changed := false;
|}.

(** The bridge before the loop over its ports. *)
Definition fresh_bridge (n : string) (id : Z) : stp :=
  let id := if Z.shiftr id 48 =? 0
            then Z.lor id (Z.shiftl STP_DEFAULT_BRIDGE_PRIORITY 48) else id in
  let s := {|
    name := n;
    bridge_id := id;
    max_age := 0; hello_time := 0; forward_delay := 0;
    bridge_max_age := 0; bridge_hello_time := 0; bridge_forward_delay := 0;
    rq_max_age := STP_DEFAULT_MAX_AGE;
    rq_hello_time := STP_DEFAULT_HELLO_TIME;
    rq_forward_delay := STP_DEFAULT_FWD_DELAY;
    elapsed_remainder := 0;
    designated_root := 0;
    root_path_cost := 0;
    root_port := None;
    topology_change_detected := false;
    topology_change := false;
    hello_timer := zero_timer;
    tcn_timer := zero_timer;
    topology_change_timer := zero_timer;
    ports := map fresh_port (seq 0 STP_MAX_PORTS);
    fdb_needs_flush := false;
    first_changed_port := STP_MAX_PORTS;
    sent := [];
    connectivity_seq := 0;
  |} in
  let s := use_bridge_times (stp_update_bridge_timers s) in
  s <| designated_root := bridge_id s |>
    <| hello_timer := mk_timer true (hello_time s) |>.

Definition stp_create (n : string) (id : Z) : option stp :=
  foldl (λ os i, s ← os; stp_initialize_port i STP_DISABLED s)
    (Some (fresh_bridge n id)) (seq 0 STP_MAX_PORTS).

Definition set_bridge_id (new_id : Z) (s : stp) : stp :=
  if negb (new_id =? bridge_id s) then
    let root := stp_is_root_bridge s in
    let s := for_each_enabled_port (λ i s,
      match ports s !! i with
      | Some p =>
          if stp_is_designated_port s p
          then upd_port i (λ p, p <| designated_bridge := new_id |>) s else s
      | None => s
      end) s in
    let s := s <| bridge_id := new_id |> in
    let s := stp_configuration_update s in
    let s := stp_port_state_selection s in
    become_root_if_new root s
  else s.

Definition mac_bits : Z := Z.shiftl 1 48 - 1.

Definition stp_set_bridge_id (id : Z) (s : stp) : stp :=
  set_bridge_id (Z.lor (Z.land (bridge_id s) (u64 (Z.lnot mac_bits))) (Z.land id mac_bits)) s.

Definition stp_set_bridge_priority (new_priority : Z) (s : stp) : stp :=
  set_bridge_id (Z.lor (Z.land (bridge_id s) mac_bits) (Z.shiftl new_priority 48)) s.

Definition stp_set_hello_time (ms : Z) (s : stp) : stp :=
  stp_update_bridge_timers (s <| rq_hello_time := ms |>).

Definition stp_set_max_age (ms : Z) (s : stp) : stp :=
  stp_update_bridge_timers (s <| rq_max_age := ms |>).

Definition stp_set_forward_delay (ms : Z) (s : stp) : stp :=
  stp_update_bridge_timers (s <| rq_forward_delay := ms |>).

Definition stp_get_hello_time (s : stp) : Z := timer_to_ms (bridge_hello_time s).
Definition stp_get_max_age (s : stp) : Z := timer_to_ms (bridge_max_age s).
Definition stp_get_forward_delay (s : stp) : Z := timer_to_ms (bridge_forward_delay s).

Definition stp_check_and_reset_fdb_flush (s : stp) : stp * bool :=
  (s <| fdb_needs_flush := false |>, fdb_needs_flush s).

(** The loop of [stp_get_changed_port] over the ports from index [i]. *)
Fixpoint find_changed (i : nat) (l : list stp_port) : option nat :=
  match l with
  | [] => None
  | p :: l => if state_changed p then Some i else find_changed (S i) l
  end.

Definition stp_get_changed_port (s : stp) : stp * option nat :=
  match find_changed (first_changed_port s) (drop (first_changed_port s) (ports s)) with
  | Some i =>
      (upd_port i (λ p, p <| state_changed := false |>)
         (s <| first_changed_port := S i |>), Some i)
  | None => (s <| first_changed_port := length (ports s) |>, None)
  end.

Definition stp_state_name (st : stp_state) : option string :=
  match st with
  | STP_ZERO => None
  | STP_DISABLED => Some "disabled"
  | STP_LISTENING => Some "listening"
  | STP_LEARNING => Some "learning"
  | STP_FORWARDING => Some "forwarding"
  | STP_BLOCKING => Some "blocking"
  end%string.

Definition stp_forward_in_state (st : stp_state) : bool := state_in st [STP_FORWARDING].

Definition stp_learn_in_state (st : stp_state) : bool :=
  state_in st [STP_LEARNING; STP_FORWARDING].

Definition stp_should_forward_bpdu (st : stp_state) : bool :=
  state_in st [STP_DISABLED; STP_LISTENING; STP_LEARNING; STP_FORWARDING].

Definition count_error (p : stp_port) : stp_port := p <| error_count ::= λ n, n + 1 |>.

Definition stp_received_bpdu (i : nat) (bpdu : list Z) (s : stp) : stp :=
  match ports s !! i with
  | None => s
  | Some p =>
      if bool_decide (state p = STP_DISABLED) then s
      else if (length bpdu <? 4)%nat then upd_port i count_error s
      else if negb (be_val (bytes_at 0 2 bpdu) =? STP_PROTOCOL_ID) then
        upd_port i count_error s
      else
        let bpdu_type := be_val (bytes_at 3 1 bpdu) in
        let received := upd_port i (λ p, p <| rx_count ::= λ n, n + 1 |>) in
        if bpdu_type =? STP_TYPE_CONFIG then
          if (length bpdu <? 35)%nat then upd_port i count_error s
          else received (stp_received_config_bpdu i (read_config bpdu) s)
        else if bpdu_type =? STP_TYPE_TCN then
          if negb (length bpdu =? 4)%nat then upd_port i count_error s
          else received (stp_received_tcn_bpdu i s)
        else upd_port i count_error s
  end.

Definition stp_port_get_role (s : stp) (p : stp_port) : stp_role :=
  if match root_port s ≫= λ i, ports s !! i with
     | Some r => port_id r =? port_id p
     | None => false
     end then STP_ROLE_ROOT
  else if stp_is_designated_port s p then STP_ROLE_DESIGNATED
  else if bool_decide (state p = STP_DISABLED) then STP_ROLE_DISABLED
  else STP_ROLE_ALTERNATE.

Definition stp_port_disable (i : nat) (s : stp) : stp :=
  match ports s !! i with
  | None => s
  | Some p =>
      if negb (bool_decide (state p = STP_DISABLED)) then
        let root := stp_is_root_bridge s in
        let s := stp_become_designated_port i s in
        let s := stp_set_port_state i STP_DISABLED s in
        let s := upd_port i (λ p, p <| topology_change_ack := false |>
                                     <| config_pending := false |>
                                     <| message_age_timer ::= stp_stop_timer |>
                                     <| forward_delay_timer ::= stp_stop_timer |>) s in
        let s := stp_configuration_update s in
        let s := stp_port_state_selection s in
        let s := become_root_if_new root s in
        upd_port i (λ p, p <| p_aux := None |>) s
      else s
  end.

Definition stp_port_enable (i : nat) (s : stp) : option stp :=
  match ports s !! i with
  | None => Some s
  | Some p =>
      if bool_decide (state p = STP_DISABLED) then
        s ← stp_initialize_port i STP_BLOCKING s;
        Some (stp_port_state_selection s)
      else Some s
  end.

Definition stp_port_set_priority (i : nat) (new_priority : Z) (s : stp) : stp :=
  match ports s !! i with
  | None => s
  | Some p =>
      let new_port_id := u16 (Z.lor (Z.land (port_id p) 0xff) (Z.shiftl new_priority 8)) in
      if negb (port_id p =? new_port_id) then
        let p' := p <| designated_port ::= λ d,
                         if stp_is_designated_port s p then new_port_id else d |>
                    <| port_id := new_port_id |> in
        let s := upd_port i (λ _, p') s in
        if (bridge_id s =? designated_bridge p') && (port_id p' <? designated_port p')
        then stp_port_state_selection (stp_become_designated_port i s)
        else s
      else s
  end.

Definition stp_convert_speed_to_cost (speed : Z) : Z :=
  if speed >=? 10000 then 2
  else if speed >=? 1000 then 4
  else if speed >=? 100 then 19
  else if speed >=? 16 then 62
  else if speed >=? 10 then 100
  else if speed >=? 4 then 250
  else 19.

Definition stp_port_set_path_cost (i : nat) (cost : Z) (s : stp) : stp :=
  match ports s !! i with
  | None => s
  | Some p =>
      if negb (path_cost p =? cost) then
        let s := upd_port i (λ p, p <| path_cost := cost |>) s in
        stp_port_state_selection (stp_configuration_update s)
      else s
  end.

Definition stp_port_set_speed (i : nat) (speed : Z) (s : stp) : stp :=
  stp_port_set_path_cost i (stp_convert_speed_to_cost speed) s.

Definition stp_port_enable_change_detection (i : nat) (s : stp) : stp :=
  upd_port i (λ p, p <| change_detection_enabled := true |>) s.

Definition stp_port_disable_change_detection (i : nat) (s : stp) : stp :=
  upd_port i (λ p, p <| change_detection_enabled := false |>) s.

Definition stp_port_set_name (i : nat) (n : string) (s : stp) : stp :=
  upd_port i (λ p, p <| port_name := Some n |>) s.

Definition stp_port_set_aux (i : nat) (aux : option Z) (s : stp) : stp :=
  upd_port i (λ p, p <| p_aux := aux |>) s.

(** The "stp/tcn" command over the bridges of the process: with a bridge name it acts on
    the first bridge of that name, without one on all of them. *)
Fixpoint tcn_named (n : string) (all : list stp) : option (list stp) :=
  match all with
  | [] => None
  | s :: all =>
      if bool_decide (name s = n) then Some (stp_topology_change_detection s :: all)
      else cons s <$> tcn_named n all
  end.

Definition stp_unixctl_tcn (arg : option string) (all : list stp) : list stp * (string + string) :=
  match arg with
  | Some n =>
      match tcn_named n all with
      | Some all' => (all', inl "OK"%string)
      | None => (all, inr "no such stp object"%string)
      end
  | None => (map stp_topology_change_detection all, inl "OK"%string)
  end.

End Stp.
