(* ===== verification/StpInv.v ===== *)
(** Invariants of the spanning tree engine: what the procedures of [Stp] leave alone,
    the bridge invariant, and that every operation of the client interface keeps it. *)
From S2P Require Import Prelude Stp.
Import Stp.

(** ** Iteration over the enabled ports *)

Definition visit (f : nat -> stp -> stp) (s : stp) (i : nat) : stp :=
  match ports s !! i with
  | Some p => if enabled p then f i s else s
  | None => s
  end.

Lemma foldl_seq_ind {A} (P : nat -> A -> Prop) (g : A -> nat -> A) k n a :
  P k a -> (forall i a, (k <= i < k + n)%nat -> P i a -> P (S i) (g a i)) ->
  P (k + n)%nat (foldl g a (seq k n)).
Proof.
  revert k a. induction n as [| n IH]; intros k a H0 Hstep; cbn [seq foldl].
  - by rewrite Nat.add_0_r.
  - rewrite <- Nat.add_succ_comm. apply IH; [apply Hstep; [lia | done] |].
    intros i a' Hi. apply Hstep. lia.
Qed.

(** Induction over the loop: [P k] holds of the state when port [k] is reached. *)
Lemma for_each_ind_at (P : nat -> stp -> Prop) f s :
  P 0%nat s ->
  (forall i s', (i < length (ports s))%nat -> P i s' -> P (S i) (visit f s' i)) ->
  P (length (ports s)) (for_each_enabled_port f s).
Proof.
  intros H0 Hstep. apply (foldl_seq_ind P (visit f) 0); [done |].
  intros. apply Hstep; [lia | done].
Qed.

Lemma for_each_ind (P : stp -> Prop) f s :
  P s ->
  (forall i p s', P s' -> ports s' !! i = Some p -> enabled p = true -> P (f i s')) ->
  P (for_each_enabled_port f s).
Proof.
  intros H0 Hstep. apply (for_each_ind_at (λ _, P)); [done |].
  intros i s' _ H. unfold visit. destruct (ports s' !! i) as [p |] eqn:E; [| done].
  destruct (enabled p) eqn:?; eauto.
Qed.

(** ** What the transmission procedures leave alone *)

(** The part of a port that the protocol decisions and the port states depend on. *)
Definition proto_port (p : stp_port) :=
  (port_id p, state p, path_cost p, p_designated_root p, designated_cost p,
   designated_bridge p, designated_port p, message_age_timer p, forward_delay_timer p,
   state_changed p).

(** The same for a bridge. *)
Definition proto (s : stp) :=
  (bridge_id s, designated_root s, root_path_cost s, root_port s, first_changed_port s,
   map proto_port (ports s)).

Lemma map_alter_id {A B} (g : A -> B) (f : A -> A) i (l : list A) :
  (forall x, g (f x) = g x) -> map g (alter f i l) = map g l.
Proof.
  intros Hf. revert i. induction l as [| x l IH]; intros [| i]; cbn; try done.
  - by rewrite Hf.
  - f_equal. apply IH.
Qed.

Lemma proto_upd_port i f s :
  (forall p, proto_port (f p) = proto_port p) -> proto (upd_port i f s) = proto s.
Proof. intros Hf. unfold proto, upd_port. rsimpl. by rewrite map_alter_id. Qed.

Lemma proto_send_bpdu i b s : proto (stp_send_bpdu i b s) = proto s.
Proof.
  unfold stp_send_bpdu. rewrite proto_upd_port by done. unfold proto. by rsimpl.
Qed.

Lemma proto_transmit_config i s : proto (stp_transmit_config i s) = proto s.
Proof.
  unfold stp_transmit_config. destruct (ports s !! i) as [p |]; [| done].
  destruct (_ && _); [done |]. destruct (active _); [by apply proto_upd_port |].
  destruct (_ <? _); [| done].
  by rewrite proto_upd_port, proto_send_bpdu, proto_upd_port.
Qed.

Lemma proto_transmit_tcn s : proto (stp_transmit_tcn s) = proto s.
Proof. unfold stp_transmit_tcn. destruct (root_port s); [apply proto_send_bpdu | done]. Qed.

Lemma proto_topology_change_detection s :
  proto (stp_topology_change_detection s) = proto s.
Proof.
  unfold stp_topology_change_detection, seq_change, proto. rsimpl. zcases; rsimpl; try done.
  apply (proto_transmit_tcn s).
Qed.

Lemma proto_config_bpdu_generation s : proto (stp_config_bpdu_generation s) = proto s.
Proof.
  unfold stp_config_bpdu_generation.
  apply (for_each_ind (λ s', proto s' = proto s)); [done |].
  intros i p s' H Hp _. rewrite Hp. destruct (stp_is_designated_port s' p); [| done].
  by rewrite proto_transmit_config.
Qed.

Lemma proto_hello_timer_expiry s : proto (stp_hello_timer_expiry s) = proto s.
Proof. apply (proto_config_bpdu_generation s). Qed.

Lemma proto_tcn_timer_expiry s : proto (stp_tcn_timer_expiry s) = proto s.
Proof. apply (proto_transmit_tcn s). Qed.

Lemma proto_become_root_bridge s : proto (stp_become_root_bridge s) = proto s.
Proof.
  unfold stp_become_root_bridge.
  set (s1 := stp_topology_change_detection (use_bridge_times s)).
  transitivity (proto (stp_config_bpdu_generation (s1 <| tcn_timer ::= stp_stop_timer |>))).
  { unfold proto. by rsimpl. }
  rewrite proto_config_bpdu_generation. transitivity (proto s1).
  { unfold proto. by rsimpl. }
  subst s1. rewrite proto_topology_change_detection. unfold use_bridge_times, proto. by rsimpl.
Qed.

Lemma proto_become_root_if_new root s : proto (become_root_if_new root s) = proto s.
Proof. unfold become_root_if_new. destruct (_ && _); [apply proto_become_root_bridge | done]. Qed.

Lemma proto_acknowledge_topology_change i s :
  proto (stp_acknowledge_topology_change i s) = proto s.
Proof.
  unfold stp_acknowledge_topology_change. by rewrite proto_transmit_config, proto_upd_port.
Qed.

Lemma proto_update_bridge_timers s : proto (stp_update_bridge_timers s) = proto s.
Proof.
  unfold stp_update_bridge_timers, use_bridge_times. cbv zeta.
  destruct (stp_is_root_bridge _); unfold proto; by rsimpl.
Qed.

Lemma proto_tick_hold e i s : proto (tick_hold e i s) = proto s.
Proof.
  unfold tick_hold, tick_port_timer. destruct (ports s !! i) as [p |]; [| done].
  destruct (stp_timer_expired _ _ _) as [t x].
  assert (proto (upd_port i (λ p, p <| hold_timer := t |>) s) = proto s) as H
    by by apply proto_upd_port.
  destruct x; [| done]. unfold stp_hold_timer_expiry.
  destruct (ports (upd_port _ _ _) !! i) as [q |]; [| done].
  destruct (config_pending q); [by rewrite proto_transmit_config | done].
Qed.

Lemma proto_tick_bridge_timers e s : proto (tick_bridge_timers e s) = proto s.
Proof.
  unfold tick_bridge_timers.
  destruct (stp_timer_expired (hello_timer s) _ _) as [t1 x1].
  set (s1 := if x1 then _ else _).
  assert (proto s1 = proto s) as <-.
  { subst s1. destruct x1; [rewrite proto_hello_timer_expiry |]; unfold proto; by rsimpl. }
  destruct (stp_timer_expired (tcn_timer s1) _ _) as [t2 x2].
  set (s2 := if x2 then _ else _).
  assert (proto s2 = proto s1) as <-.
  { subst s2. destruct x2; [rewrite proto_tcn_timer_expiry |]; unfold proto; by rsimpl. }
  destruct (stp_timer_expired (topology_change_timer s2) _ _) as [t3 []].
  - unfold stp_topology_change_timer_expiry, proto. by rsimpl.
  - unfold proto. by rsimpl.
Qed.

(** ** The bridge invariant *)

Definition non_blocking (st : stp_state) : bool :=
  state_in st [STP_LISTENING; STP_LEARNING; STP_FORWARDING].

(** The number in the low byte of a port's identifier is its own, and a pending state
    change is at or after the first port to report. *)
Record port_ok (first i : nat) (p : stp_port) : Prop := {
  ok_id : in_u 16 (port_id p) /\ Z.land (port_id p) 0xff = Z.of_nat i + 1;
  ok_zero : state p <> STP_ZERO;
  ok_changed : state_changed p = true -> (first <= i)%nat;
}.

Record ports_inv (s : stp) : Prop := {
  inv_len : length (ports s) = STP_MAX_PORTS;
  inv_first : (first_changed_port s <= STP_MAX_PORTS)%nat;
  inv_port i p : ports s !! i = Some p -> port_ok (first_changed_port s) i p;
}.

(** The bridge believes itself root exactly when it has no root port, and a root port is
    an enabled port that leads to a better bridge. *)
Record root_inv (s : stp) : Prop := {
  inv_root_le : designated_root s <= bridge_id s;
  inv_root_none : root_port s = None <-> designated_root s = bridge_id s;
  inv_root_some i : root_port s = Some i -> exists p, ports s !! i = Some p /\ enabled p = true;
}.

(** The forward delay timer of a port runs exactly while it listens or learns. *)
Definition timer_ok (p : stp_port) : Prop :=
  active (forward_delay_timer p) = state_in (state p) [STP_LISTENING; STP_LEARNING].

Definition timers_inv (s : stp) : Prop :=
  forall i p, ports s !! i = Some p -> timer_ok p.

(** Only the root port and designated ports leave the blocking state. *)
Definition roles_inv (s : stp) : Prop :=
  forall i p, ports s !! i = Some p -> non_blocking (state p) = true ->
    root_port s = Some i \/ stp_is_designated_port s p = true.

Record bridge_inv (s : stp) : Prop := {
  inv_ports : ports_inv s;
  inv_timers : timers_inv s;
  inv_root : root_inv s;
  inv_roles : roles_inv s;
}.

(** ** Lookup in updated ports *)

Lemma lookup_upd_port i j f s :
  ports (upd_port i f s) !! j =
  if decide (i = j) then f <$> ports s !! j else ports s !! j.
Proof.
  unfold upd_port. rsimpl. destruct (decide (i = j)) as [-> | Hne].
  - apply list_lookup_alter_eq.
  - by apply list_lookup_alter_ne.
Qed.

Lemma lookup_upd_port_Some i j f s q :
  ports (upd_port i f s) !! j = Some q ->
  exists p, ports s !! j = Some p /\ q = if decide (i = j) then f p else p.
Proof.
  rewrite lookup_upd_port. case_decide; destruct (ports s !! j); cbn; intros [= <-]; eauto.
Qed.

Lemma length_upd_port i f s : length (ports (upd_port i f s)) = length (ports s).
Proof. unfold upd_port. rsimpl. apply length_alter. Qed.

(** ** The invariant depends on the protocol part only *)

Lemma proto_lookup s s' i p :
  proto s' = proto s -> ports s' !! i = Some p ->
  exists p0, ports s !! i = Some p0 /\ proto_port p = proto_port p0.
Proof.
  intros H Hp. injection H as _ _ _ _ _ Hm.
  apply (f_equal (λ l, l !! i)) in Hm. rewrite !list_lookup_fmap, Hp in Hm.
  destruct (ports s !! i) as [p0 |]; cbn in Hm; [| done]. exists p0. by apply (inj Some) in Hm.
Qed.

Lemma proto_length s s' : proto s' = proto s -> length (ports s') = length (ports s).
Proof.
  intros H. injection H as _ _ _ _ _ Hm.
  by apply (f_equal length) in Hm; rewrite !length_map in Hm.
Qed.

Lemma port_ok_proto first first' i p p0 :
  proto_port p = proto_port p0 -> (first' <= first)%nat ->
  port_ok first i p0 -> port_ok first' i p.
Proof.
  intros H Hle [? ? Hc]. injection H as ? Hst ? ? ? ? ? ? Hf Hch. split; try congruence.
  rewrite Hch. intros Hx%Hc. lia.
Qed.

Lemma enabled_proto p p0 : proto_port p = proto_port p0 -> enabled p = enabled p0.
Proof. intros H. injection H as ? Hst. unfold enabled. by rewrite Hst. Qed.

Lemma designated_proto s s0 p p0 :
  bridge_id s = bridge_id s0 -> proto_port p = proto_port p0 ->
  stp_is_designated_port s p = stp_is_designated_port s0 p0.
Proof. intros Hb H. injection H as ? ? ? ? ? ? ?. unfold stp_is_designated_port. congruence. Qed.

Lemma timer_ok_proto p p0 : proto_port p = proto_port p0 -> timer_ok p0 -> timer_ok p.
Proof. intros H. injection H as ? Hst ? ? ? ? ? ? Hf _. unfold timer_ok. congruence. Qed.

Lemma ports_inv_proto s s' : proto s' = proto s -> ports_inv s -> ports_inv s'.
Proof.
  intros H [Hl Hf Hp]. pose proof (proto_length _ _ H).
  pose proof (λ i p, proto_lookup s s' i p H) as Hlook.
  injection H as Hb Hd _ Hrp Hfc _. split; [congruence.. |].
  intros i p (p0 & E & Ep)%Hlook. rewrite Hfc.
  eapply port_ok_proto; [done | reflexivity | auto].
Qed.

Lemma timers_inv_proto s s' : proto s' = proto s -> timers_inv s -> timers_inv s'.
Proof.
  intros H Ht i p Hp. destruct (proto_lookup s s' i p H Hp) as (p0 & E & Ep).
  eapply timer_ok_proto; eauto.
Qed.

Lemma root_inv_proto s s' : proto s' = proto s -> root_inv s -> root_inv s'.
Proof.
  intros H [Hle Hn Hs].
  pose proof (λ i p, proto_lookup s' s i p (eq_sym H)) as Hlook.
  injection H as Hb Hd _ Hrp _ _. split; [congruence | by rewrite Hrp, Hb, Hd |].
  intros i. rewrite Hrp. intros (p & E & En)%Hs. destruct (Hlook i p E) as (p' & E' & Ep).
  exists p'. split; [done |]. rewrite <- En. symmetry. by apply enabled_proto.
Qed.

Lemma roles_inv_proto s s' : proto s' = proto s -> roles_inv s -> roles_inv s'.
Proof.
  intros H Hr i p Hp Hnb. destruct (proto_lookup s s' i p H Hp) as (p0 & E & Ep).
  injection H as Hb _ _ Hrp _ _. rewrite Hrp, (designated_proto s' s p p0) by done.
  apply (Hr i p0 E). injection Ep as ? Hst. congruence.
Qed.

Lemma bridge_inv_proto s s' : proto s' = proto s -> bridge_inv s -> bridge_inv s'.
Proof.
  intros H []. split; eauto using ports_inv_proto, timers_inv_proto, root_inv_proto,
    roles_inv_proto.
Qed.

(** ** The port invariant is kept by every primitive *)

Lemma ports_inv_upd_port i f s :
  (forall p, ports s !! i = Some p ->
     port_ok (first_changed_port s) i p -> port_ok (first_changed_port s) i (f p)) ->
  ports_inv s -> ports_inv (upd_port i f s).
Proof.
  intros Hf [Hl Hfst Hp]. split.
  - by rewrite length_upd_port.
  - done.
  - intros j q (p & E & ->)%lookup_upd_port_Some.
    change (first_changed_port (upd_port i f s)) with (first_changed_port s).
    case_decide as Hij; [subst; auto | auto].
Qed.

Ltac keep_ports := intros [Hl Hf Hp]; split; rsimpl; done.

Lemma ports_inv_set_port_state i st s :
  st <> STP_ZERO -> ports_inv s -> ports_inv (stp_set_port_state i st s).
Proof.
  intros Hst Hinv. unfold stp_set_port_state.
  destruct (ports s !! i) as [p |] eqn:E; [| done].
  set (changed := _ && _).
  assert (i < STP_MAX_PORTS)%nat as Hi.
  { apply lookup_lt_Some in E. by rewrite (inv_len _ Hinv) in E. }
  set (f' := if changed then (if i <? first_changed_port s then i else first_changed_port s)%nat
             else first_changed_port s).
  assert (f' <= first_changed_port s /\ (changed = true -> f' <= i))%nat as [Hf1 Hf2].
  { subst f'. destruct changed; [| done].
    destruct (Nat.ltb_spec i (first_changed_port s)); split; lia. }
  set (s1 := if changed then _ else s).
  assert (first_changed_port s1 = f' /\ ports s1 = ports s) as [Hs1 Hs2]
    by (subst s1 f'; by destruct changed).
  destruct Hinv as [Hl Hf Hp]. split.
  - by rewrite length_upd_port, Hs2.
  - change (first_changed_port s1 <= STP_MAX_PORTS)%nat. lia.
  - intros j q (p' & E' & ->)%lookup_upd_port_Some.
    change (first_changed_port (upd_port _ _ s1)) with (first_changed_port s1).
    rewrite Hs1. rewrite Hs2 in E'. destruct (Hp j p' E') as [Hid Hz Hc].
    case_decide; subst; split; rsimpl; try done.
    + intros [? | ?%Hc]%orb_prop; [auto | lia].
    + intros ?%Hc. lia.
Qed.

(** Updates of a port that keep its identifier, its state and its change flag. *)
Lemma ports_inv_upd_same i f s :
  (forall p, port_id (f p) = port_id p /\ state (f p) = state p
             /\ state_changed (f p) = state_changed p) ->
  ports_inv s -> ports_inv (upd_port i f s).
Proof.
  intros Hf. apply ports_inv_upd_port. intros p _ [Hid Hz Hc].
  destruct (Hf p) as (E1 & E2 & E3). split; rewrite ?E1, ?E2, ?E3; done.
Qed.

Lemma ports_inv_same_ports s s' :
  ports s' = ports s -> first_changed_port s' = first_changed_port s ->
  ports_inv s -> ports_inv s'.
Proof. intros H1 H2 []. split; rewrite ?H1, ?H2; done. Qed.

Lemma ports_inv_become_designated i s :
  ports_inv s -> ports_inv (stp_become_designated_port i s).
Proof. by apply ports_inv_upd_same. Qed.

Lemma ports_inv_root_selection s : ports_inv s -> ports_inv (stp_root_selection s).
Proof.
  unfold stp_root_selection. destruct (select_root _ _ _ _) as [[i r] |];
    apply ports_inv_same_ports; by rsimpl.
Qed.

Lemma ports_inv_designated_port_selection s :
  ports_inv s -> ports_inv (stp_designated_port_selection s).
Proof.
  intros H. unfold stp_designated_port_selection. apply for_each_ind; [done |].
  intros i p s' H' Hp _. rewrite Hp. destruct (should_be_designated s' p); [| done].
  by apply ports_inv_become_designated.
Qed.

Lemma ports_inv_configuration_update s :
  ports_inv s -> ports_inv (stp_configuration_update s).
Proof.
  intros H.
  apply (ports_inv_same_ports (stp_designated_port_selection (stp_root_selection s)));
    [done | done |].
  by apply ports_inv_designated_port_selection, ports_inv_root_selection.
Qed.

Lemma ports_inv_make_forwarding i s : ports_inv s -> ports_inv (stp_make_forwarding i s).
Proof.
  intros H. unfold stp_make_forwarding. destruct (ports s !! i); [| done].
  case_bool_decide; [| done].
  apply ports_inv_upd_same; [done |]. by apply ports_inv_set_port_state.
Qed.

Lemma ports_inv_make_blocking i s : ports_inv s -> ports_inv (stp_make_blocking i s).
Proof.
  intros H. unfold stp_make_blocking. destruct (ports s !! i); [| done].
  destruct (negb _); [| done].
  apply ports_inv_upd_same; [done |]. apply ports_inv_set_port_state; [done |].
  destruct (_ && _); [| done].
  eapply ports_inv_proto; [apply proto_topology_change_detection | done].
Qed.

Lemma ports_inv_port_state_selection s :
  ports_inv s -> ports_inv (stp_port_state_selection s).
Proof.
  intros H. unfold stp_port_state_selection. apply for_each_ind; [done |].
  intros i p s' H' Hp _. rewrite Hp. zcases.
  - by apply ports_inv_make_forwarding, ports_inv_upd_same.
  - by apply ports_inv_make_forwarding, ports_inv_upd_same.
  - by apply ports_inv_make_blocking, ports_inv_upd_same.
Qed.

(** ** Loops that change each enabled port on its own *)

(** The bridge-level facts that such a loop reads. *)
Definition core (s : stp) := (bridge_id s, designated_root s, root_path_cost s, root_port s).

(** [f i] changes port [i] as [g] does and nothing else of the protocol state. *)
Definition acts_on (g : stp_port -> stp_port) (i : nat) (s s' : stp) : Prop :=
  core s' = core s /\ length (ports s') = length (ports s) /\
  forall j q, ports s' !! j = Some q ->
    exists p, ports s !! j = Some p /\
      proto_port q = proto_port (if decide (i = j) then g p else p).

Section Pointwise.
Context (f : nat -> stp -> stp) (g : nat -> stp_port -> stp_port) (s : stp).
Hypothesis g_proto : forall i p q,
  proto_port p = proto_port q -> proto_port (g i p) = proto_port (g i q).
Hypothesis g_disabled : forall i p, enabled p = false -> proto_port (g i p) = proto_port p.
Hypothesis f_acts : forall i p s', core s' = core s ->
  ports s' !! i = Some p -> enabled p = true -> acts_on (g i) i s' (f i s').

(** The loop is the pointwise function [g] on the ports. *)
Lemma for_each_pointwise :
  core (for_each_enabled_port f s) = core s /\
  length (ports (for_each_enabled_port f s)) = length (ports s) /\
  forall j q, ports (for_each_enabled_port f s) !! j = Some q ->
    exists p, ports s !! j = Some p /\ proto_port q = proto_port (g j p).
Proof.
  assert (core (for_each_enabled_port f s) = core s /\
    length (ports (for_each_enabled_port f s)) = length (ports s) /\
    forall j q, ports (for_each_enabled_port f s) !! j = Some q ->
      exists p, ports s !! j = Some p /\
        proto_port q = proto_port (if (j <? length (ports s))%nat then g j p else p))
    as (Hc & Hl & Hp).
  { apply (for_each_ind_at (λ k s', core s' = core s /\ length (ports s') = length (ports s) /\
      forall j q, ports s' !! j = Some q ->
        exists p, ports s !! j = Some p /\
          proto_port q = proto_port (if (j <? k)%nat then g j p else p))).
    { split; [done | split; [done |]]. intros j q Hq. by exists q. }
    intros i s' Hi (Hc & Hl & Hp). unfold visit.
    destruct (ports s' !! i) as [p |] eqn:E.
    2: { apply lookup_ge_None in E. lia. }
    destruct (Hp i p E) as (p0 & E0 & Ep0).
    destruct (Nat.ltb_spec i i); [lia |].
    destruct (enabled p) eqn:En.
    - destruct (f_acts i p s' Hc E En) as (Hc' & Hl' & Hp').
      split; [congruence | split; [congruence |]].
      intros j q (q' & Eq' & Hq)%Hp'. destruct (Hp j q' Eq') as (r & Er & Hr).
      exists r. split; [done |]. rewrite Hq. case_decide as Hij.
      + subst j. destruct (Nat.ltb_spec i (S i)); [| lia]. apply g_proto.
        rewrite Hr. by destruct (Nat.ltb_spec i i); [lia |].
      + rewrite Hr. destruct (Nat.ltb_spec j i), (Nat.ltb_spec j (S i)); try done; lia.
    - split; [done | split; [done |]]. intros j q Hq. destruct (Hp j q Hq) as (r & Er & Hr).
      exists r. split; [done |]. rewrite Hr.
      destruct (Nat.ltb_spec j i), (Nat.ltb_spec j (S i)); try done; try lia.
      assert (j = i) as -> by lia. rewrite g_disabled; [done |].
      rewrite Er in E0. injection E0 as ->. rewrite <- En. symmetry. by apply enabled_proto. }
  split; [done | split; [done |]]. intros j q Hq. destruct (Hp j q Hq) as (p & Ep & Hqp).
  exists p. split; [done |]. rewrite Hqp.
  by destruct (Nat.ltb_spec j (length (ports s))); [| apply lookup_lt_Some in Ep; lia].
Qed.
End Pointwise.

Definition respects_proto (g : stp_port -> stp_port) : Prop :=
  forall p q, proto_port p = proto_port q -> proto_port (g p) = proto_port (g q).

Lemma acts_on_upd i f s : acts_on f i s (upd_port i f s).
Proof.
  split; [done | split; [by apply length_upd_port |]].
  intros j q (p & E & ->)%lookup_upd_port_Some. exists p. by case_decide.
Qed.

Lemma acts_on_quiet i s s' : proto s' = proto s -> acts_on (λ p, p) i s s'.
Proof.
  intros H. split; [| split; [by apply proto_length |]].
  - unfold core. by injection H as -> -> -> -> _ _.
  - intros j q Hq. destruct (proto_lookup s s' j q H Hq) as (p & E & Ep).
    exists p. by case_decide.
Qed.

Lemma acts_on_trans g1 g2 i s s1 s2 :
  respects_proto g2 -> acts_on g1 i s s1 -> acts_on g2 i s1 s2 ->
  acts_on (λ p, g2 (g1 p)) i s s2.
Proof.
  intros Hg (Hc1 & Hl1 & Hp1) (Hc2 & Hl2 & Hp2).
  split; [congruence | split; [congruence |]].
  intros j q (q1 & E1 & Hq)%Hp2. destruct (Hp1 j q1 E1) as (p & E & Hq1).
  exists p. split; [done |]. rewrite Hq. case_decide; [| done]. by apply Hg.
Qed.

(** The function need only be right on the port as it is. *)
Lemma acts_on_ext g1 g2 i s s' p :
  ports s !! i = Some p -> proto_port (g1 p) = proto_port (g2 p) ->
  acts_on g1 i s s' -> acts_on g2 i s s'.
Proof.
  intros Hp Hg (Hc & Hl & Ha). split; [done | split; [done |]].
  intros j q (p' & E & Hq)%Ha. exists p'. split; [done |]. rewrite Hq.
  case_decide; [| done]. subst. rewrite Hp in E. by injection E as ->.
Qed.

Lemma acts_on_None g i s : ports s !! i = None -> acts_on g i s s.
Proof.
  intros E. split; [done | split; [done |]]. intros j q Hq. exists q. split; [done |].
  case_decide; [congruence | done].
Qed.

Definition set_state (st : stp_state) (p : stp_port) : stp_port :=
  p <| state_changed ::= λ b, negb (bool_decide (st = state p)) || b |> <| state := st |>.

Lemma acts_on_set_port_state i st s : acts_on (set_state st) i s (stp_set_port_state i st s).
Proof.
  unfold stp_set_port_state. destruct (ports s !! i) as [p |] eqn:E.
  - set (changed := _ && _). set (s1 := if changed then _ else s).
    assert (core s1 = core s /\ ports s1 = ports s) as [Hc Hs1]
      by (subst s1; by destruct changed).
    split; [done | split; [by rewrite length_upd_port, Hs1 |]].
    intros j q (p' & E' & ->)%lookup_upd_port_Some. rewrite Hs1 in E'.
    exists p'. split; [done |]. case_decide; [| done]. subst j.
    rewrite E in E'. injection E' as <-. unfold proto_port, set_state. rsimpl.
    subst changed. f_equal. destruct (bool_decide _), (state_changed p); done.
  - by apply acts_on_None.
Qed.

Definition make_forwarding_port (p : stp_port) : stp_port :=
  if bool_decide (state p = STP_BLOCKING) then
    (set_state STP_LISTENING p) <| forward_delay_timer := mk_timer true 0 |>
  else p.

Definition make_blocking_port (p : stp_port) : stp_port :=
  if negb (state_in (state p) [STP_DISABLED; STP_BLOCKING]) then
    (set_state STP_BLOCKING p) <| forward_delay_timer ::= stp_stop_timer |>
  else p.

Ltac proto_cases :=
  intros ? ? Hpq; unfold proto_port in *; injection Hpq; intros;
  unfold make_forwarding_port, make_blocking_port, set_state, clear_pending; rsimpl;
  repeat match goal with H : _ = _ :> stp_state |- _ => rewrite H; clear H end;
  repeat case_bool_decide; repeat (destruct (negb _)); rsimpl; congruence.

Lemma make_forwarding_port_proto : respects_proto make_forwarding_port.
Proof. proto_cases. Qed.

Lemma make_blocking_port_proto : respects_proto make_blocking_port.
Proof. proto_cases. Qed.

Lemma set_state_proto st : respects_proto (set_state st).
Proof. proto_cases. Qed.

Lemma acts_on_make_forwarding i s :
  acts_on make_forwarding_port i s (stp_make_forwarding i s).
Proof.
  unfold stp_make_forwarding. destruct (ports s !! i) as [p |] eqn:E.
  - case_bool_decide as Hst.
    + eapply acts_on_ext; [done | | eapply acts_on_trans;
        [| apply acts_on_set_port_state | apply acts_on_upd]].
      * unfold make_forwarding_port. by rewrite bool_decide_true.
      * proto_cases.
    + eapply (acts_on_ext (λ p, p)); [done | | by apply acts_on_quiet].
      unfold make_forwarding_port. by rewrite bool_decide_false.
  - by apply acts_on_None.
Qed.

Lemma acts_on_make_blocking i s :
  acts_on make_blocking_port i s (stp_make_blocking i s).
Proof.
  unfold stp_make_blocking. destruct (ports s !! i) as [p |] eqn:E; [| by apply acts_on_None].
  destruct (negb (state_in _ [STP_DISABLED; _])) eqn:Hst.
  - set (s1 := if _ && _ then _ else _).
    assert (proto s1 = proto s) as Hs1.
    { subst s1. destruct (_ && _); [apply proto_topology_change_detection | done]. }
    eapply (acts_on_ext (λ p, (set_state STP_BLOCKING p) <| forward_delay_timer ::= stp_stop_timer |>));
      [done | | eapply (acts_on_trans _ (λ p, p <| forward_delay_timer ::= stp_stop_timer |>));
        [| eapply (acts_on_trans (λ p, p)); [apply set_state_proto | by apply acts_on_quiet
          | apply acts_on_set_port_state] | apply acts_on_upd]].
    + unfold make_blocking_port. by rewrite Hst.
    + proto_cases.
  - eapply (acts_on_ext (λ p, p)); [done | | by apply acts_on_quiet].
    unfold make_blocking_port. by rewrite Hst.
Qed.

(** The state that [stp_port_state_selection] gives to each port. *)
Definition select_port (s : stp) (i : nat) (p : stp_port) : stp_port :=
  if enabled p then
    if bool_decide (root_port s = Some i) then make_forwarding_port p
    else if stp_is_designated_port s p then
      make_forwarding_port (p <| message_age_timer ::= stp_stop_timer |>)
    else make_blocking_port p
  else p.

Lemma select_port_proto s i : respects_proto (select_port s i).
Proof.
  intros p q H. unfold select_port.
  rewrite (enabled_proto p q H), (designated_proto s s p q eq_refl H).
  destruct (enabled q); [| done]. case_bool_decide; [by apply make_forwarding_port_proto |].
  destruct (stp_is_designated_port s q); [| by apply make_blocking_port_proto].
  apply make_forwarding_port_proto. injection H; intros. unfold proto_port. rsimpl. congruence.
Qed.

Lemma port_state_selection_spec s :
  core (stp_port_state_selection s) = core s /\
  length (ports (stp_port_state_selection s)) = length (ports s) /\
  forall i q, ports (stp_port_state_selection s) !! i = Some q ->
    exists p, ports s !! i = Some p /\ proto_port q = proto_port (select_port s i p).
Proof.
  apply for_each_pointwise.
  - apply select_port_proto.
  - intros i p H. unfold select_port. by rewrite H.
  - intros i p s' Hc Hp En. rewrite Hp. unfold core in Hc. injection Hc as Hb _ _ Hr.
    rewrite Hr. replace (stp_is_designated_port s' p) with (stp_is_designated_port s p)
      by (unfold stp_is_designated_port; by rewrite Hb).
    case_bool_decide as Hroot; [| destruct (stp_is_designated_port s p) eqn:Hd].
    + apply (acts_on_ext (λ p, make_forwarding_port (clear_pending p)) _ i s' _ p Hp).
      * unfold select_port. rewrite En, bool_decide_true by done. by apply make_forwarding_port_proto.
      * eapply acts_on_trans; [apply make_forwarding_port_proto | apply acts_on_upd
          | apply acts_on_make_forwarding].
    + apply (acts_on_ext (λ p, make_forwarding_port (p <| message_age_timer ::= stp_stop_timer |>))
        _ i s' _ p Hp).
      * unfold select_port. by rewrite En, bool_decide_false, Hd by done.
      * eapply (acts_on_trans (λ p, p <| message_age_timer ::= stp_stop_timer |>));
          [apply make_forwarding_port_proto | apply acts_on_upd | apply acts_on_make_forwarding].
    + apply (acts_on_ext (λ p, make_blocking_port (clear_pending p)) _ i s' _ p Hp).
      * unfold select_port. rewrite En, bool_decide_false, Hd by done.
        by apply make_blocking_port_proto.
      * eapply acts_on_trans; [apply make_blocking_port_proto | apply acts_on_upd
          | apply acts_on_make_blocking].
Qed.

(** ** Port state selection establishes the roles *)

Lemma timer_ok_make_forwarding p : timer_ok p -> timer_ok (make_forwarding_port p).
Proof.
  unfold make_forwarding_port. case_bool_decide; [| done]. intros _.
  unfold timer_ok, set_state. by rsimpl.
Qed.

Lemma timer_ok_make_blocking p : timer_ok p -> timer_ok (make_blocking_port p).
Proof.
  unfold make_blocking_port. destruct (negb _); [| done]. intros _.
  unfold timer_ok, set_state, stp_stop_timer. by rsimpl.
Qed.

Lemma timer_ok_select s i p : timer_ok p -> timer_ok (select_port s i p).
Proof.
  unfold select_port. intros Ht. destruct (enabled p); [| done].
  case_bool_decide; [by apply timer_ok_make_forwarding |].
  destruct (stp_is_designated_port s p); [| by apply timer_ok_make_blocking].
  apply timer_ok_make_forwarding. unfold timer_ok. by rsimpl.
Qed.

(** The role of a port is not affected by the choice of its state. *)
Definition role_part (p : stp_port) :=
  (port_id p, designated_bridge p, designated_port p, enabled p).

Lemma role_make_forwarding p : role_part (make_forwarding_port p) = role_part p.
Proof.
  unfold make_forwarding_port, role_part, enabled. case_bool_decide as E; [| done].
  unfold set_state. rsimpl. by rewrite E.
Qed.

Lemma role_make_blocking p : role_part (make_blocking_port p) = role_part p.
Proof.
  unfold make_blocking_port, role_part, enabled, set_state.
  destruct (negb _) eqn:Hn; [| done]. rsimpl. f_equal. by destruct (state p).
Qed.

Lemma role_select s i p : role_part (select_port s i p) = role_part p.
Proof.
  unfold select_port. destruct (enabled p); [| done].
  case_bool_decide; [apply role_make_forwarding |].
  destruct (stp_is_designated_port s p); [| apply role_make_blocking].
  by rewrite role_make_forwarding.
Qed.

Lemma enabled_select s i p : enabled (select_port s i p) = enabled p.
Proof. by injection (role_select s i p). Qed.

Lemma designated_select s i p :
  stp_is_designated_port s (select_port s i p) = stp_is_designated_port s p.
Proof. unfold stp_is_designated_port. by injection (role_select s i p) as -> -> -> _. Qed.

Lemma roles_select s i p :
  state p <> STP_ZERO -> non_blocking (state (select_port s i p)) = true ->
  root_port s = Some i \/ stp_is_designated_port s p = true.
Proof.
  intros Hz. unfold select_port. destruct (enabled p) eqn:En.
  - case_bool_decide; [by left |]. destruct (stp_is_designated_port s p); [by right |].
    unfold make_blocking_port, set_state. destruct (negb _) eqn:Hn; [by rsimpl |].
    by destruct (state p).
  - unfold enabled in En. apply negb_false_iff, bool_decide_eq_true in En. by rewrite En.
Qed.

Lemma selection_inv s :
  ports_inv s -> timers_inv s -> root_inv s -> bridge_inv (stp_port_state_selection s).
Proof.
  intros Hp Ht [Hle Hn Hs].
  destruct (port_state_selection_spec s) as (Hc & Hl & Hsel).
  set (s' := stp_port_state_selection s) in *.
  assert (Hc' := Hc). unfold core in Hc'. injection Hc' as Hb Hd _ Hr. split.
  - by apply ports_inv_port_state_selection.
  - intros i q (p & E & Hq)%Hsel. eapply timer_ok_proto; [done |]. by apply timer_ok_select, (Ht i).
  - split; [congruence | by rewrite Hr, Hb, Hd |]. intros i. rewrite Hr. intros (p & E & En)%Hs.
    destruct (ports s' !! i) as [q |] eqn:Eq.
    2: { apply lookup_ge_None in Eq. apply lookup_lt_Some in E. lia. }
    exists q. split; [done |]. destruct (Hsel i q Eq) as (p' & E' & Hq).
    rewrite (enabled_proto _ _ Hq), enabled_select. congruence.
  - intros i q Hi Hnb. destruct (Hsel i q Hi) as (p & E & Hq).
    pose proof (ok_zero _ _ _ (inv_port _ Hp i p E)) as Hz.
    rewrite Hr, (designated_proto s' s _ _ Hb Hq), designated_select.
    apply roles_select; [done |].
    injection Hq as ? Hst. congruence.
Qed.

(** ** Root selection *)

Definition root_key (p : stp_port) : list Z :=
  [p_designated_root p; s32 (designated_cost p + path_cost p); designated_bridge p;
   designated_port p; port_id p].

(** The comparison that the code writes out is the lexicographic order. *)
Lemma supersedes_root_lex r p : stp_supersedes_root r p = lex_lt (root_key p) (root_key r).
Proof.
  unfold stp_supersedes_root. cbn [root_key lex_lt].
  repeat match goal with
         | |- context [?x =? ?y] => destruct (Z.eqb_spec x y); cbn [negb]
         end; done || lia.
Qed.

(** No port of [a] beats [b] and none of [b] beats [c], so none of [a] beats [c]. *)
Lemma not_supersedes_trans a b c :
  stp_supersedes_root b a = false -> stp_supersedes_root c b = false ->
  stp_supersedes_root c a = false.
Proof. rewrite !supersedes_root_lex. intros. by eapply (lex_ge_trans _ (root_key b)). Qed.

Lemma supersedes_not_back a b :
  stp_supersedes_root a b = true -> stp_supersedes_root b a = false.
Proof. rewrite !supersedes_root_lex. apply lex_lt_asym. Qed.

(** One iteration of the loop of [stp_root_selection]. *)
Definition better_root (s : stp) (i : nat) (p : stp_port) (root : option (nat * stp_port)) :=
  if root_candidate s p then
    match root with
    | Some (_, r) => if stp_supersedes_root r p then Some (i, p) else root
    | None => Some (i, p)
    end
  else root.

Lemma better_root_cases s i p root :
  (better_root s i p root = root /\
     (root_candidate s p = true ->
        exists j r, root = Some (j, r) /\ stp_supersedes_root r p = false)) \/
  (better_root s i p root = Some (i, p) /\ root_candidate s p = true /\
     forall j r, root = Some (j, r) -> stp_supersedes_root r p = true).
Proof.
  unfold better_root. destruct (root_candidate s p); [| by left].
  destruct root as [[j r] |].
  - destruct (stp_supersedes_root r p) eqn:E; [right | left; split; eauto].
    split; [done | split; [done |]]. by intros ? ? [= _ <-].
  - right. by split.
Qed.

(** What the loop finds is a candidate that no candidate beats. *)
Lemma select_root_spec s l : forall k root,
  (forall i r, root = Some (i, r) -> root_candidate s r = true) ->
  match select_root s k l root with
  | None => root = None /\ forall p, p ∈ l -> root_candidate s p = false
  | Some (i, r) =>
      root_candidate s r = true /\
      (root = Some (i, r) \/ exists j, i = (k + j)%nat /\ l !! j = Some r) /\
      (forall j r0, root = Some (j, r0) -> stp_supersedes_root r r0 = false) /\
      (forall p, p ∈ l -> root_candidate s p = true -> stp_supersedes_root r p = false)
  end.
Proof.
  induction l as [| p l IH]; intros k root Hroot; cbn [select_root].
  - destruct root as [[i r] |]; [| split; [done | by intros p ?%elem_of_nil]].
    split; [by eapply Hroot | split; [by left | split]].
    + intros j r0 [= -> ->]. by rewrite supersedes_root_lex, lex_lt_irrefl.
    + by intros p ?%elem_of_nil.
  - change (if root_candidate s p then _ else root) with (better_root s k p root).
    destruct (better_root_cases s k p root) as [[-> Hkeep] | (-> & Hc & Hbeat)].
    + specialize (IH (S k) root Hroot).
      destruct (select_root s (S k) l root) as [[i r] |].
      * destruct IH as (Hcand & Hwhere & Hbest & Hl). split; [done | split; [| split; [done |]]].
        { destruct Hwhere as [-> | (j & -> & Hj)]; [by left | right].
          exists (S j). split; [lia | done]. }
        intros q [-> | Hq]%elem_of_cons Hqc; [| by apply Hl].
        destruct (Hkeep Hqc) as (j & r0 & -> & Hr0).
        eapply not_supersedes_trans; [done |]. by eapply Hbest.
      * destruct IH as [-> Hl]. split; [done |].
        intros q [-> | Hq]%elem_of_cons; [| by apply Hl].
        destruct (root_candidate s p); [| done]. by destruct Hkeep as (j & r0 & [=] & _).
    + specialize (IH (S k) (Some (k, p))).
      destruct (select_root s (S k) l (Some (k, p))) as [[i r] |].
      * destruct IH as (Hcand & Hwhere & Hbest & Hl); [by intros ? ? [= _ <-] |].
        specialize (Hbest _ _ eq_refl). split; [done | split; [| split]].
        { right. destruct Hwhere as [[= -> ->] | (j & -> & Hj)]; [exists 0%nat | exists (S j)];
            split; try done; lia. }
        { intros j r0 Hr0%Hbeat. eapply not_supersedes_trans; [| done].
          by apply supersedes_not_back. }
        { intros q [-> | Hq]%elem_of_cons ?; [done | by apply Hl]. }
      * destruct IH as [[=] _]. by intros ? ? [= _ <-].
Qed.

Lemma root_selection_root_inv s : root_inv (stp_root_selection s).
Proof.
  unfold stp_root_selection. pose proof (select_root_spec s (ports s) 0 None) as H.
  destruct (select_root s 0 (ports s) None) as [[i r] |].
  - destruct H as (Hc & [[=] | (j & -> & Hj)] & _); [by intros ? ? [=] |].
    unfold root_candidate in Hc. apply andb_prop in Hc as [En Hc].
    apply negb_true_iff, orb_false_iff in Hc as [_ Hc].
    split; rsimpl; [lia | split; [done | lia] |]. intros i [= <-]. eauto.
  - split; rsimpl; [lia | done | done].
Qed.

(** ** Designated port selection *)

Definition become_designated (s : stp) (p : stp_port) : stp_port :=
  p <| p_designated_root := designated_root s |> <| designated_cost := s32 (root_path_cost s) |>
    <| designated_bridge := bridge_id s |> <| designated_port := port_id p |>.

Definition designate_port (s : stp) (p : stp_port) : stp_port :=
  if enabled p && should_be_designated s p then become_designated s p else p.

Lemma should_be_designated_core s s' p q :
  core s = core s' -> proto_port p = proto_port q ->
  should_be_designated s p = should_be_designated s' q.
Proof.
  intros Hc H. injection Hc as Hb Hd Hr _. injection H as ? ? ? ? ? ? ?.
  unfold should_be_designated, stp_is_designated_port. congruence.
Qed.

Lemma become_designated_proto s s' p q :
  core s = core s' -> proto_port p = proto_port q ->
  proto_port (become_designated s p) = proto_port (become_designated s' q).
Proof.
  intros Hc H. injection Hc as Hb Hd Hr _. injection H as ? ? ? ? ? ? ? ? ? ?.
  unfold proto_port, become_designated. rsimpl. congruence.
Qed.

Lemma designated_port_selection_spec s :
  core (stp_designated_port_selection s) = core s /\
  length (ports (stp_designated_port_selection s)) = length (ports s) /\
  forall i q, ports (stp_designated_port_selection s) !! i = Some q ->
    exists p, ports s !! i = Some p /\ proto_port q = proto_port (designate_port s p).
Proof.
  apply (for_each_pointwise _ (λ _, designate_port s)).
  - intros _ p q H. unfold designate_port.
    rewrite (enabled_proto p q H), (should_be_designated_core s s p q eq_refl H).
    destruct (_ && _); [by apply become_designated_proto | done].
  - intros _ p H. unfold designate_port. by rewrite H.
  - intros i p s' Hc Hp En. rewrite Hp.
    rewrite (should_be_designated_core s' s p p Hc eq_refl).
    destruct (should_be_designated s p) eqn:Hd.
    + eapply acts_on_ext; [done | | apply acts_on_upd].
      unfold designate_port. rewrite En, Hd. by apply become_designated_proto.
    + eapply (acts_on_ext (λ p, p)); [done | | by apply acts_on_quiet].
      unfold designate_port. by rewrite En, Hd.
Qed.

Lemma timers_inv_upd i f s :
  (forall p, timer_ok p -> timer_ok (f p)) -> timers_inv s -> timers_inv (upd_port i f s).
Proof.
  intros Hf Ht j q (p & E & ->)%lookup_upd_port_Some. case_decide; eauto.
Qed.

(** ** Reconfiguration *)

Lemma root_selection_ports s : ports (stp_root_selection s) = ports s.
Proof. unfold stp_root_selection. by destruct (select_root _ _ _ _) as [[] |]; rsimpl. Qed.

Lemma timers_inv_configuration_update s :
  timers_inv s -> timers_inv (stp_configuration_update s).
Proof.
  intros Ht i q Hq.
  destruct (designated_port_selection_spec (stp_root_selection s)) as (_ & _ & Hsel).
  destruct (Hsel i q Hq) as (p & E & Hqp). rewrite root_selection_ports in E.
  eapply timer_ok_proto; [done |]. unfold designate_port. destruct (_ && _); [| eauto].
  exact (Ht i p E).
Qed.

Lemma configuration_update_root_inv s : root_inv (stp_configuration_update s).
Proof.
  pose proof (root_selection_root_inv s) as [Hle Hn Hs].
  destruct (designated_port_selection_spec (stp_root_selection s)) as (Hc & Hl & Hsel).
  unfold stp_configuration_update.
  set (s1 := stp_root_selection s) in *. set (s2 := stp_designated_port_selection s1) in *.
  injection Hc as Hb Hd _ Hr. split.
  - change (designated_root s2 <= bridge_id s2). congruence.
  - change (root_port s2 = None <-> designated_root s2 = bridge_id s2). by rewrite Hr, Hb, Hd.
  - intros i. change (root_port s2 = Some i -> exists p, ports s2 !! i = Some p /\ enabled p = true).
    rewrite Hr. intros (p & E & En)%Hs. destruct (ports s2 !! i) as [q |] eqn:Eq.
    2: { apply lookup_ge_None in Eq. apply lookup_lt_Some in E. lia. }
    exists q. split; [done |]. destruct (Hsel i q Eq) as (p' & E' & Hq).
    rewrite (enabled_proto _ _ Hq). assert (p' = p) as -> by congruence.
    unfold designate_port. by destruct (_ && _).
Qed.

(** A reconfiguration (configuration update followed by port state selection) establishes
    the bridge invariant whatever the roles were before it. *)
Lemma reconfigure_inv s :
  ports_inv s -> timers_inv s ->
  bridge_inv (stp_port_state_selection (stp_configuration_update s)).
Proof.
  intros. apply selection_inv.
  - by apply ports_inv_configuration_update.
  - by apply timers_inv_configuration_update.
  - apply configuration_update_root_inv.
Qed.

(** ** Operations on one port *)

Lemma bridge_inv_acts g i s s' :
  acts_on g i s s' -> ports_inv s' ->
  (forall p, ports s !! i = Some p -> timer_ok p ->
     timer_ok (g p) /\ role_part (g p) = role_part p /\
     (non_blocking (state (g p)) = true -> non_blocking (state p) = true)) ->
  bridge_inv s -> bridge_inv s'.
Proof.
  intros (Hc & Hl & Ha) Hp' Hg [Hp Ht [Hle Hn Hs] Hr]. injection Hc as Hb Hd _ Hrp. split.
  - done.
  - intros j q (p & E & Hq)%Ha. eapply timer_ok_proto; [done |].
    case_decide; [subst; by apply Hg, (Ht j) | by apply (Ht j)].
  - split; [congruence | by rewrite Hrp, Hb, Hd |]. intros j. rewrite Hrp. intros (p & E & En)%Hs.
    destruct (ports s' !! j) as [q |] eqn:Eq.
    2: { apply lookup_ge_None in Eq. apply lookup_lt_Some in E. lia. }
    exists q. split; [done |]. destruct (Ha j q Eq) as (p' & E' & Hq).
    rewrite (enabled_proto _ _ Hq). assert (p' = p) as -> by congruence.
    case_decide; [subst | done]. destruct (Hg p E (Ht _ _ E)) as (_ & Hrole & _).
    injection Hrole as _ _ _ ->. done.
  - intros j q Hj Hnb. destruct (Ha j q Hj) as (p & E & Hq). rewrite Hrp.
    rewrite (designated_proto s' s _ _ Hb Hq). injection Hq as _ Hst. rewrite Hst in Hnb.
    case_decide; [subst | by apply (Hr j)].
    destruct (Hg p E (Ht _ _ E)) as (_ & Hrole & Hnb'). injection Hrole as E1 E2 E3 _.
    unfold stp_is_designated_port. rewrite E1, E2, E3. by apply (Hr j p), Hnb'.
Qed.

(** Updates of a port outside the invariant. *)
Lemma bridge_inv_upd i f s :
  (forall p, port_id (f p) = port_id p /\ state (f p) = state p
     /\ state_changed (f p) = state_changed p /\ forward_delay_timer (f p) = forward_delay_timer p
     /\ designated_bridge (f p) = designated_bridge p
     /\ designated_port (f p) = designated_port p) ->
  bridge_inv s -> bridge_inv (upd_port i f s).
Proof.
  intros Hf H. eapply bridge_inv_acts; [apply acts_on_upd | | | done].
  - apply ports_inv_upd_same; [| apply H]. intros p. destruct (Hf p) as (? & ? & ? & _). done.
  - intros p _. destruct (Hf p) as (E1 & E2 & _ & E3 & E4 & E5).
    unfold timer_ok, role_part, enabled. by rewrite E1, E2, E3, E4, E5.
Qed.

(** Changes of bridge fields outside the invariant. *)
Lemma bridge_inv_same s s' :
  ports s' = ports s -> core s' = core s -> first_changed_port s' = first_changed_port s ->
  bridge_inv s -> bridge_inv s'.
Proof.
  intros H1 H2 H3. apply bridge_inv_proto. unfold proto. injection H2 as -> -> -> ->.
  by rewrite H1, H3.
Qed.

Lemma bridge_inv_message_age_expiry i s :
  ports_inv s -> timers_inv s -> bridge_inv (stp_message_age_timer_expiry i s).
Proof.
  intros Hp Ht. unfold stp_message_age_timer_expiry.
  eapply bridge_inv_proto; [apply proto_become_root_if_new |]. apply reconfigure_inv.
  - by apply ports_inv_become_designated.
  - apply timers_inv_upd; [| done]. intros p. unfold timer_ok. by rsimpl.
Qed.

Lemma bridge_inv_tick_message_age e i s :
  bridge_inv s -> bridge_inv (tick_message_age e i s).
Proof.
  intros H. unfold tick_message_age, tick_port_timer. destruct (ports s !! i) as [p |]; [| done].
  destruct (stp_timer_expired _ _ _) as [t x].
  assert (bridge_inv (upd_port i (λ p, p <| message_age_timer := t |>) s)) as H'.
  { by apply bridge_inv_upd. }
  destruct x; [| done]. apply bridge_inv_message_age_expiry; apply H'.
Qed.

Lemma bridge_inv_tick_hold e i s : bridge_inv s -> bridge_inv (tick_hold e i s).
Proof. apply bridge_inv_proto, proto_tick_hold. Qed.

Lemma timer_expired_active t e timeout t' x :
  stp_timer_expired t e timeout = (t', x) ->
  (x = false /\ active t' = active t) \/ (x = true /\ active t = true /\ active t' = false).
Proof.
  unfold stp_timer_expired. destruct (active t) eqn:Ea.
  - destruct (_ >=? _); intros [= <- <-]; rsimpl; auto.
  - intros [= <- <-]. auto.
Qed.

(** What an expired forward delay timer does to its port. *)
Definition advance_port (t : stp_timer) (p : stp_port) : stp_port :=
  let p := p <| forward_delay_timer := t |> in
  if bool_decide (state p = STP_LISTENING) then
    (set_state STP_LEARNING p) <| forward_delay_timer := mk_timer true 0 |>
  else if bool_decide (state p = STP_LEARNING) then set_state STP_FORWARDING p
  else p.

Lemma forward_delay_expiry_acts i t p s :
  ports s !! i = Some p ->
  acts_on (advance_port t) i s
    (stp_forward_delay_timer_expiry i (upd_port i (λ p, p <| forward_delay_timer := t |>) s)).
Proof.
  intros Hp. unfold stp_forward_delay_timer_expiry. set (f := λ p, p <| forward_delay_timer := t |>).
  rewrite lookup_upd_port, decide_True, Hp by done. cbn [fmap option_fmap option_map].
  change (state (f p)) with (state p).
  pose proof (acts_on_upd i f s) as H1. set (s1 := upd_port i f s) in *.
  case_bool_decide as E1; [| case_bool_decide as E2].
  - eapply (acts_on_ext (λ p, (set_state STP_LEARNING (f p)) <| forward_delay_timer ::= stp_start_timer 0 |>));
      [done | | eapply (acts_on_trans (λ p, set_state STP_LEARNING (f p)));
        [| eapply acts_on_trans; [apply set_state_proto | exact H1 | apply acts_on_set_port_state]
         | apply acts_on_upd]].
    + unfold advance_port. cbv zeta. change (state (p <| forward_delay_timer := t |>)) with (state p).
      by rewrite bool_decide_true.
    + proto_cases.
  - set (s2 := stp_set_port_state i STP_FORWARDING s1).
    set (s3 := if _ && _ then _ else _).
    assert (proto s3 = proto s2) as H3.
    { subst s3. destruct (_ && _); [apply proto_topology_change_detection | done]. }
    eapply (acts_on_ext (λ p, set_state STP_FORWARDING (f p))); [done | |].
    + unfold advance_port. cbv zeta. change (state (p <| forward_delay_timer := t |>)) with (state p).
      by rewrite bool_decide_false, bool_decide_true.
    + eapply (acts_on_trans (λ p, set_state STP_FORWARDING (f p)) (λ p, p));
        [by intros ? ? | | by apply acts_on_quiet].
      eapply acts_on_trans; [apply set_state_proto | exact H1 | apply acts_on_set_port_state].
  - eapply acts_on_ext; [done | | exact H1].
    unfold advance_port. cbv zeta. change (state (p <| forward_delay_timer := t |>)) with (state p).
    by rewrite !bool_decide_false.
Qed.

Lemma ports_inv_forward_delay_expiry i s :
  ports_inv s -> ports_inv (stp_forward_delay_timer_expiry i s).
Proof.
  intros H. unfold stp_forward_delay_timer_expiry. destruct (ports s !! i); [| done].
  case_bool_decide; [| case_bool_decide; [| done]].
  - apply ports_inv_upd_same; [done |]. by apply ports_inv_set_port_state.
  - destruct (_ && _); [eapply ports_inv_proto; [apply proto_topology_change_detection |] |];
      by apply ports_inv_set_port_state.
Qed.

Lemma bridge_inv_tick_forward_delay e i s :
  bridge_inv s -> bridge_inv (tick_forward_delay e i s).
Proof.
  intros H. unfold tick_forward_delay, tick_port_timer.
  destruct (ports s !! i) as [p |] eqn:E; [| done].
  destruct (stp_timer_expired _ _ _) as [t x] eqn:Hx. apply timer_expired_active in Hx.
  set (f := λ p, p <| forward_delay_timer := t |>).
  assert (ports_inv (upd_port i f s)) as Hp by (apply ports_inv_upd_same; [done | apply H]).
  destruct Hx as [[-> Ha] | (-> & Ha & Ht)].
  - eapply bridge_inv_acts; [apply acts_on_upd | done | | done].
    intros p' E' Hok. assert (p' = p) as -> by congruence. split; [| done].
    unfold timer_ok, f in *. rsimpl. congruence.
  - eapply bridge_inv_acts; [by apply (forward_delay_expiry_acts _ _ p) | | | done].
    + by apply ports_inv_forward_delay_expiry.
    + intros p' E' Hok. assert (p' = p) as -> by congruence. clear E'.
      unfold timer_ok in *. rewrite Ha in Hok. unfold advance_port, role_part, enabled, set_state.
      cbv zeta. rsimpl. destruct (state p) eqn:Es; try done.
      all: rewrite ?Es; rsimpl; rewrite ?Es; done.
Qed.
