(* ===== verification/StpOps.v ===== *)
(** The client operations of the spanning tree engine keep the bridge invariant, and the
    properties that follow for every bridge a client can reach. *)
From S2P Require Import Prelude Stp StpInv.
Import Stp.

(** ** The operations as data *)

Inductive op :=
  | Tick (ms : Z)
  | ReceivedBpdu (i : nat) (bpdu : list Z)
  | SetBridgeId (id : Z)
  | SetBridgePriority (priority : Z)
  | SetHelloTime (ms : Z)
  | SetMaxAge (ms : Z)
  | SetForwardDelay (ms : Z)
  | CheckFdbFlush
  | GetChangedPort
  | PortDisable (i : nat)
  | PortEnable (i : nat)
  | PortSetPriority (i : nat) (priority : Z)
  | PortSetPathCost (i : nat) (cost : Z)
  | PortSetSpeed (i : nat) (speed : Z)
  | PortEnableChangeDetection (i : nat)
  | PortDisableChangeDetection (i : nat)
  | PortSetName (i : nat) (n : string)
  | PortSetAux (i : nat) (aux : option Z)
  | UnixctlTcn.

Definition exec (o : op) (s : stp) : option stp :=
  match o with
  | Tick ms => Some (stp_tick ms s)
  | ReceivedBpdu i b => Some (stp_received_bpdu i b s)
  | SetBridgeId id => Some (stp_set_bridge_id id s)
  | SetBridgePriority pr => Some (stp_set_bridge_priority pr s)
  | SetHelloTime ms => Some (stp_set_hello_time ms s)
  | SetMaxAge ms => Some (stp_set_max_age ms s)
  | SetForwardDelay ms => Some (stp_set_forward_delay ms s)
  | CheckFdbFlush => Some (stp_check_and_reset_fdb_flush s).1
  | GetChangedPort => Some (stp_get_changed_port s).1
  | PortDisable i => Some (stp_port_disable i s)
  | PortEnable i => stp_port_enable i s
  | PortSetPriority i pr => Some (stp_port_set_priority i pr s)
  | PortSetPathCost i c => Some (stp_port_set_path_cost i c s)
  | PortSetSpeed i sp => Some (stp_port_set_speed i sp s)
  | PortEnableChangeDetection i => Some (stp_port_enable_change_detection i s)
  | PortDisableChangeDetection i => Some (stp_port_disable_change_detection i s)
  | PortSetName i n => Some (stp_port_set_name i n s)
  | PortSetAux i a => Some (stp_port_set_aux i a s)
  | UnixctlTcn => Some (stp_topology_change_detection s)
  end.

(** A bridge that a client can reach. *)
Inductive reachable : stp -> Prop :=
  | reach_create n id s : stp_create n id = Some s -> reachable s
  | reach_step s o s' : reachable s -> exec o s = Some s' -> reachable s'.

(** ** Each operation keeps the invariant *)

Lemma root_inv_acts g i s s' :
  acts_on g i s s' -> (forall p, enabled p = true -> enabled (g p) = true) ->
  root_inv s -> root_inv s'.
Proof.
  intros (Hc & Hl & Ha) Hg [Hle Hn Hs]. injection Hc as Hb Hd _ Hr.
  split; [congruence | by rewrite Hr, Hb, Hd |]. intros j. rewrite Hr. intros (p & E & En)%Hs.
  destruct (ports s' !! j) as [q |] eqn:Eq.
  2: { apply lookup_ge_None in Eq. apply lookup_lt_Some in E. lia. }
  exists q. split; [done |]. destruct (Ha j q Eq) as (p' & E' & Hq).
  rewrite (enabled_proto _ _ Hq). assert (p' = p) as -> by congruence. case_decide; auto.
Qed.

Lemma bridge_inv_tick ms s : bridge_inv s -> bridge_inv (stp_tick ms s).
Proof.
  intros H. unfold stp_tick. cbv zeta.
  set (s0 := s <| elapsed_remainder := _ |>).
  assert (bridge_inv s0) as H0 by by apply (bridge_inv_same s).
  clearbody s0. destruct (_ =? 0); [done |].
  set (e := ms_to_timer _). clearbody e.
  assert (bridge_inv (for_each_enabled_port (tick_message_age e) (tick_bridge_timers e s0))).
  { apply for_each_ind; [by eapply bridge_inv_proto; [apply proto_tick_bridge_timers |] |].
    intros. by apply bridge_inv_tick_message_age. }
  apply for_each_ind; [done |].
  intros. by apply bridge_inv_tick_hold, bridge_inv_tick_forward_delay.
Qed.

(** What a configuration BPDU does to the protocol state: one that supersedes the
    information of its port is recorded and the bridge reconfigured, any other one is at
    most answered. *)
Lemma received_config_proto i c s :
  proto (stp_received_config_bpdu i c s) =
  proto match ports s !! i with
        | Some p =>
            if negb (c_message_age c >=? c_max_age c) && enabled p && stp_supersedes_port_info s p c
            then stp_port_state_selection (stp_configuration_update
                   (stp_record_config_information i c s))
            else s
        | None => s
        end.
Proof.
  unfold stp_received_config_bpdu. destruct (ports s !! i) as [p |]; [| by destruct (_ >=? _)].
  destruct (_ >=? _); [done |]. destruct (enabled p); [| done].
  destruct (stp_supersedes_port_info s p c); cbn [negb andb].
  - set (s1 := stp_port_state_selection _). clearbody s1. cbv zeta.
    set (s2 := if negb (stp_is_root_bridge s1) && _ then _ else s1).
    assert (proto s2 = proto s1) as H2.
    { subst s2. destruct (_ && _); [| done]. destruct (topology_change_detected _); [| done].
      etransitivity; [| etransitivity; [apply (proto_transmit_tcn
        (s1 <| hello_timer ::= stp_stop_timer |> <| topology_change_timer ::= stp_stop_timer |>)) |]];
        unfold proto; by rsimpl. }
    clearbody s2. case_bool_decide; [| done].
    set (s3 := stp_config_bpdu_generation _).
    assert (proto s3 = proto s2) as H3.
    { subst s3. rewrite proto_config_bpdu_generation.
      unfold stp_record_config_timeout_values, proto. by rsimpl. }
    clearbody s3. rewrite <- H2, <- H3. destruct (negb _).
    all: unfold stp_topology_change_acknowledged, proto; destruct (negb _); by rsimpl.
  - destruct (stp_is_designated_port s p); [| done]. apply proto_transmit_config.
Qed.

Lemma bridge_inv_received_config i c s :
  bridge_inv s -> bridge_inv (stp_received_config_bpdu i c s).
Proof.
  intros H. eapply bridge_inv_proto; [apply received_config_proto |].
  destruct (ports s !! i) as [p |]; [| done]. destruct (_ && _); [| done].
  apply reconfigure_inv.
  - apply ports_inv_upd_same; [done | apply H].
  - apply timers_inv_upd; [| apply H]. intros q. unfold timer_ok. by rsimpl.
Qed.

Lemma bridge_inv_received_tcn i s : bridge_inv s -> bridge_inv (stp_received_tcn_bpdu i s).
Proof.
  intros H. unfold stp_received_tcn_bpdu. destruct (ports s !! i) as [p |]; [| done].
  destruct (_ && _); [| done]. eapply bridge_inv_proto; [| done].
  by rewrite proto_acknowledge_topology_change, proto_topology_change_detection.
Qed.

Lemma bridge_inv_received_bpdu i b s : bridge_inv s -> bridge_inv (stp_received_bpdu i b s).
Proof.
  intros H. assert (bridge_inv (upd_port i count_error s)) as He by by apply bridge_inv_upd.
  unfold stp_received_bpdu. destruct (ports s !! i) as [p |]; [| done].
  destruct (bool_decide _); [done |]. destruct (length b <? 4)%nat; [done |].
  destruct (negb _); [done |]. destruct (_ =? STP_TYPE_CONFIG).
  - destruct (length b <? 35)%nat; [done |].
    apply bridge_inv_upd; [done |]. by apply bridge_inv_received_config.
  - destruct (_ =? STP_TYPE_TCN); [| done]. destruct (negb _); [done |].
    apply bridge_inv_upd; [done |]. by apply bridge_inv_received_tcn.
Qed.

Lemma bridge_inv_set_bridge_id id s : bridge_inv s -> bridge_inv (set_bridge_id id s).
Proof.
  intros H. unfold set_bridge_id. destruct (negb _); [| done]. cbv zeta.
  eapply bridge_inv_proto; [apply proto_become_root_if_new |].
  set (s1 := for_each_enabled_port _ s).
  assert (ports_inv s1 /\ timers_inv s1) as [Hp Ht].
  { subst s1. apply (for_each_ind (λ s, ports_inv s /\ timers_inv s)); [split; apply H |].
    intros i p s' [] Hp _. rewrite Hp. destruct (stp_is_designated_port s' p); [| done].
    split; [by apply ports_inv_upd_same |]. apply timers_inv_upd; [| done].
    intros q. unfold timer_ok. by rsimpl. }
  apply reconfigure_inv; [by apply (ports_inv_same_ports s1) |]. exact Ht.
Qed.

Lemma bridge_inv_port_disable i s : bridge_inv s -> bridge_inv (stp_port_disable i s).
Proof.
  intros H. unfold stp_port_disable. destruct (ports s !! i) as [p |] eqn:E; [| done].
  destruct (negb _); [| done]. cbv zeta.
  apply bridge_inv_upd; [done |]. eapply bridge_inv_proto; [apply proto_become_root_if_new |].
  apply reconfigure_inv.
  - apply ports_inv_upd_same; [done |]. apply ports_inv_set_port_state; [done |].
    by apply ports_inv_become_designated, H.
  - intros j q (p' & E' & ->)%lookup_upd_port_Some.
    destruct (acts_on_set_port_state i STP_DISABLED (stp_become_designated_port i s)) as (_ & _ & Ha).
    destruct (Ha j p' E') as (p1 & E1 & Hp1). apply lookup_upd_port_Some in E1 as (p2 & E2 & ->).
    case_decide.
    + injection Hp1 as _ Hst. unfold timer_ok, stp_stop_timer. rsimpl. rewrite Hst.
      unfold set_state. by rsimpl.
    + eapply timer_ok_proto; [done |]. by eapply H.
Qed.

Lemma initialize_port_spec i s :
  exists s', stp_initialize_port i STP_BLOCKING s = Some s' /\
    (ports_inv s -> ports_inv s') /\ (timers_inv s -> timers_inv s') /\
    exists g, acts_on g i s s' /\
      forall p, state (g p) = STP_BLOCKING /\ p_designated_root (g p) = designated_root s.
Proof.
  unfold stp_initialize_port.
  change (state_in STP_BLOCKING [STP_DISABLED; STP_BLOCKING]) with true. cbv iota.
  set (f := λ p : stp_port, _ <| error_count := 0 |>).
  set (s1 := stp_become_designated_port i s).
  set (s2 := match ports s1 !! i with Some _ => _ | None => _ end).
  assert (acts_on (λ p, set_state STP_BLOCKING (become_designated s p)) i s s2) as H2.
  { pose proof (acts_on_upd i (become_designated s) s) as H1. fold s1 in H1.
    subst s2. destruct (ports s1 !! i) as [p |] eqn:E.
    - rewrite andb_false_r. eapply acts_on_trans; [apply set_state_proto | exact H1 |].
      apply acts_on_set_port_state.
    - eapply acts_on_trans; [apply set_state_proto | exact H1 |]. by apply acts_on_None. }
  eexists. split; [reflexivity |]. split; [| split].
  - intros Hp. apply ports_inv_upd_same; [done |]. subst s2.
    assert (ports_inv s1) by by apply ports_inv_become_designated.
    destruct (ports s1 !! i) as [p |]; [| done]. rewrite andb_false_r.
    by apply ports_inv_set_port_state.
  - intros Ht j q (p' & E' & ->)%lookup_upd_port_Some. destruct H2 as (_ & _ & Ha).
    destruct (Ha j p' E') as (p1 & E1 & Hp1). case_decide.
    + injection Hp1 as _ Hst. unfold timer_ok, f, stp_stop_timer. rsimpl. rewrite Hst.
      unfold set_state. by rsimpl.
    + eapply timer_ok_proto; [done |]. by eapply Ht.
  - exists (λ p, f (set_state STP_BLOCKING (become_designated s p))). split.
    + eapply acts_on_trans; [| exact H2 | apply acts_on_upd].
      intros p q Hpq. injection Hpq; intros. unfold proto_port, f. rsimpl. congruence.
    + intros p. unfold f, set_state, become_designated. by rsimpl.
Qed.

Lemma bridge_inv_port_enable i s s' :
  bridge_inv s -> stp_port_enable i s = Some s' -> bridge_inv s'.
Proof.
  intros H. unfold stp_port_enable. destruct (ports s !! i) as [p |]; [| congruence].
  destruct (bool_decide _); [| congruence].
  destruct (initialize_port_spec i s) as (s1 & -> & Hp & Ht & g & Ha & Hg).
  cbn [mbind option_bind]. intros [= <-]. apply selection_inv.
  - apply Hp, H.
  - apply Ht, H.
  - eapply root_inv_acts; [exact Ha | | apply H]. intros q _. unfold enabled. by rewrite (proj1 (Hg q)).
Qed.

(** The new identifier keeps the port number in its low byte. *)
Lemma new_port_id_ok pid pr :
  in_u 16 (u16 (Z.lor (Z.land pid 0xff) (Z.shiftl pr 8))) /\
  Z.land (u16 (Z.lor (Z.land pid 0xff) (Z.shiftl pr 8))) 0xff = Z.land pid 0xff.
Proof.
  split; [by apply wrap_range |]. apply Z.bits_inj'. intros n Hn.
  unfold u16, wrap. change 0xff with (Z.ones 8).
  destruct (Z.lt_ge_cases n 8).
  - rewrite !Z.land_spec, Z.mod_pow2_bits_low, Z.lor_spec, Z.land_spec by lia.
    rewrite Z.shiftl_spec_low, orb_false_r, Z.ones_spec_low, !andb_true_r by lia. done.
  - by rewrite !Z.land_spec, Z.ones_spec_high, !andb_false_r by lia.
Qed.

Lemma bridge_inv_port_set_priority i pr s :
  bridge_inv s -> bridge_inv (stp_port_set_priority i pr s).
Proof.
  intros H. unfold stp_port_set_priority. destruct (ports s !! i) as [p |] eqn:E; [| done].
  cbv zeta. destruct (new_port_id_ok (port_id p) pr) as [Hr Hl].
  set (nid := u16 _) in *. clearbody nid. destruct (negb _); [| done].
  set (p' := p <| designated_port ::= _ |> <| port_id := nid |>).
  set (s1 := upd_port i (λ _, p') s).
  assert (ports_inv s1) as Hp1.
  { apply ports_inv_upd_port; [| apply H]. intros q Hq Hok.
    assert (q = p) as -> by congruence. destruct Hok as [[Hu Hid] Hz Hc].
    split; subst p'; rsimpl; [split; [done | congruence] | done | done]. }
  assert (timers_inv s1) as Ht1.
  { intros j q (q0 & E0 & ->)%lookup_upd_port_Some. case_decide; [subst | by eapply H].
    assert (timer_ok p) by by eapply H. unfold timer_ok in *. subst p'. by rsimpl. }
  assert (forall q, enabled q = true -> enabled p = true -> enabled p' = true) as Hen.
  { intros q _. unfold enabled. subst p'. by rsimpl. }
  assert (root_inv s1) as Hr1.
  { destruct (inv_root _ H) as [Hle Hn Hs]. split; [done | done |].
    intros j (q & Eq & Enq)%Hs. subst s1. rewrite lookup_upd_port, Eq. case_decide; [subst | by eauto].
    exists p'. split; [done |]. apply (Hen q); congruence. }
  destruct (_ && _).
  - apply selection_inv.
    + by apply ports_inv_become_designated.
    + apply timers_inv_upd; [| done]. intros q. unfold timer_ok. by rsimpl.
    + eapply root_inv_acts; [apply acts_on_upd | | done]. intros q. unfold enabled. by rsimpl.
  - split; try done. intros j q (q0 & E0 & ->)%lookup_upd_port_Some.
    case_decide; [subst j | by apply H]. assert (q0 = p) as -> by congruence.
    intros Hnb. destruct (inv_roles _ H i p E Hnb) as [? | Hd]; [by left | right].
    subst p'. unfold stp_is_designated_port in *. rsimpl.
    change (bridge_id s1) with (bridge_id s). rewrite Hd.
    apply andb_prop in Hd as [-> _]. by rewrite Z.eqb_refl.
Qed.

Lemma bridge_inv_port_set_path_cost i c s :
  bridge_inv s -> bridge_inv (stp_port_set_path_cost i c s).
Proof.
  intros H. unfold stp_port_set_path_cost. destruct (ports s !! i) as [p |]; [| done].
  destruct (negb _); [| done]. apply reconfigure_inv.
  - apply ports_inv_upd_same; [done | apply H].
  - apply timers_inv_upd; [| apply H]. intros q. unfold timer_ok. by rsimpl.
Qed.

Lemma find_changed_spec l : forall k,
  match find_changed k l with
  | Some i => exists j p, i = (k + j)%nat /\ l !! j = Some p /\ state_changed p = true /\
                forall j' p', (j' < j)%nat -> l !! j' = Some p' -> state_changed p' = false
  | None => forall j p, l !! j = Some p -> state_changed p = false
  end.
Proof.
  induction l as [| p l IH]; intros k; cbn [find_changed]; [by intros [] ? |].
  destruct (state_changed p) eqn:E.
  - exists 0%nat, p. repeat split; try done; lia.
  - specialize (IH (S k)). destruct (find_changed (S k) l) as [i |].
    + destruct IH as (j & q & -> & Hq & Hc & Hb). exists (S j), q. repeat split; try done; [lia |].
      intros [| j'] p' Hj'; cbn; [by intros [= <-] |]. apply Hb. lia.
    + intros [| j] q; cbn; [by intros [= <-] | apply IH].
Qed.

(** The same, in terms of the ports of a bridge. *)
Lemma find_changed_bridge s :
  ports_inv s ->
  match find_changed (first_changed_port s) (drop (first_changed_port s) (ports s)) with
  | Some i => (first_changed_port s <= i < STP_MAX_PORTS)%nat /\
      (exists p, ports s !! i = Some p /\ state_changed p = true) /\
      forall j p, (j < i)%nat -> ports s !! j = Some p -> state_changed p = false
  | None => forall j p, ports s !! j = Some p -> state_changed p = false
  end.
Proof.
  intros [Hl Hf Hp]. set (k := first_changed_port s) in *.
  assert (forall j p, ports s !! j = Some p -> (j < k)%nat -> state_changed p = false) as Hlow.
  { intros j p Hj Hlt. destruct (state_changed p) eqn:E; [| done].
    apply (ok_changed _ _ _ (Hp j p Hj)) in E. lia. }
  pose proof (find_changed_spec (drop k (ports s)) k) as H.
  destruct (find_changed k (drop k (ports s))) as [i |].
  - destruct H as (j & p & -> & Hj & Hc & Hb). rewrite lookup_drop in Hj.
    pose proof (lookup_lt_Some _ _ _ Hj). split; [lia | split; [by eauto |]].
    intros j' q Hlt Hq. destruct (decide (j' < k)%nat); [by eapply Hlow |].
    apply (Hb (j' - k)%nat q); [lia |]. rewrite lookup_drop. by replace (k + (j' - k))%nat with j' by lia.
  - intros j q Hq. destruct (decide (j < k)%nat); [by eapply Hlow |].
    apply (H (j - k)%nat q). rewrite lookup_drop. by replace (k + (j - k))%nat with j by lia.
Qed.

Lemma bridge_inv_get_changed_port s :
  bridge_inv s -> bridge_inv (stp_get_changed_port s).1.
Proof.
  intros [Hp Ht Hr Hro]. unfold stp_get_changed_port.
  pose proof (find_changed_bridge s Hp) as H. destruct (find_changed _ _) as [i |]; cbn [fst].
  - destruct H as (Hi & _ & Hb).
    set (s1 := s <| first_changed_port := S i |>).
    set (f := λ p, p <| state_changed := false |>).
    eapply (bridge_inv_acts f i s); [exact (acts_on_upd i f s) | | | by split].
    + split; [by rewrite length_upd_port; apply Hp | |].
      * change (S i <= STP_MAX_PORTS)%nat. lia.
      * intros j q (p & E & ->)%lookup_upd_port_Some. change (ports s !! j = Some p) in E.
        destruct (inv_port _ Hp j p E) as [Hid Hz Hc]. change (first_changed_port _) with (S i).
        case_decide; subst; split; subst f; rsimpl; try done.
        intros Hch. destruct (decide (j < i)%nat); [by rewrite (Hb j p) in Hch | lia].
    + intros p _. unfold timer_ok, role_part, enabled. subst f. by rsimpl.
  - split; [| done | by destruct Hr; split | done].
    destruct Hp as [Hl Hf Hp]. split; rsimpl; [done | lia |].
    intros i p E. destruct (Hp i p E). split; try done. by rewrite (H i p E).
Qed.

Lemma bridge_inv_exec o s s' : bridge_inv s -> exec o s = Some s' -> bridge_inv s'.
Proof.
  intros H. destruct o; cbn [exec]; intros E.
  all: try (injection E as <-).
  all: try by apply bridge_inv_upd.
  all: try (apply (bridge_inv_proto s); [etransitivity; [apply proto_update_bridge_timers | done] | done]).
  - by apply bridge_inv_tick.
  - by apply bridge_inv_received_bpdu.
  - by apply bridge_inv_set_bridge_id.
  - by apply bridge_inv_set_bridge_id.
  - by apply (bridge_inv_same s).
  - by apply bridge_inv_get_changed_port.
  - by apply bridge_inv_port_disable.
  - by apply (bridge_inv_port_enable i s).
  - by apply bridge_inv_port_set_priority.
  - by apply bridge_inv_port_set_path_cost.
  - by apply bridge_inv_port_set_path_cost.
  - eapply bridge_inv_proto; [apply proto_topology_change_detection | done].
Qed.

(** ** Creation *)

(** A port after its initialization in [stp_create]. *)
Definition created_port (i : nat) (p : stp_port) : Prop :=
  port_id p = port_id (fresh_port i) /\ state p = STP_DISABLED /\
  state_changed p = false /\ active (forward_delay_timer p) = false.

(** The bridge after the first [k] iterations of the loop of [stp_create]. *)
Definition creating (k : nat) (s : stp) : Prop :=
  designated_root s = bridge_id s /\ root_port s = None /\
  length (ports s) = STP_MAX_PORTS /\ first_changed_port s = STP_MAX_PORTS /\
  forall i p, ports s !! i = Some p ->
    if (i <? k)%nat then created_port i p else p = fresh_port i.

Lemma initialize_fresh i s :
  creating i s -> (i < STP_MAX_PORTS)%nat ->
  exists s', stp_initialize_port i STP_DISABLED s = Some s' /\ creating (S i) s'.
Proof.
  intros (Hd & Hr & Hl & Hf & Hp) Hi. unfold stp_initialize_port.
  change (state_in STP_DISABLED [STP_DISABLED; STP_BLOCKING]) with true. cbv iota.
  destruct (ports s !! i) as [p |] eqn:E.
  2: { apply lookup_ge_None in E. lia. }
  specialize (Hp i p E) as Hpi. rewrite Nat.ltb_irrefl in Hpi. subst p.
  unfold stp_become_designated_port. rewrite lookup_upd_port, decide_True, E by done.
  cbn [fmap option_fmap option_map]. rsimpl.
  change (bool_decide (state (fresh_port i) = STP_ZERO) && bool_decide (STP_DISABLED = STP_DISABLED))
    with true. cbv iota.
  eexists. split; [reflexivity |]. split; [done | split; [done | split; [| split; [done |]]]].
  - by rewrite !length_upd_port.
  - intros j q (p2 & (p1 & (p & Ep & ->)%lookup_upd_port_Some & ->)%lookup_upd_port_Some
      & ->)%lookup_upd_port_Some. specialize (Hp j p Ep). case_decide.
    + subst j. destruct (Nat.ltb_spec i (S i)); [| lia]. rewrite Nat.ltb_irrefl in Hp. subst p.
      unfold created_port. by rsimpl.
    + destruct (Nat.ltb_spec j i), (Nat.ltb_spec j (S i)); try done; lia.
Qed.

Lemma created n id : exists s, stp_create n id = Some s /\ creating STP_MAX_PORTS s.
Proof.
  unfold stp_create.
  apply (foldl_seq_ind (λ k os, exists s, os = Some s /\ creating k s) _ 0 STP_MAX_PORTS).
  - exists (fresh_bridge n id). split; [done |]. unfold fresh_bridge. cbv zeta.
    set (s0 := mk_stp _ _ _ _ _ _ _ _ _ _ _ _ _ _ _ _ _ _ _ _ _ _ _ _ _).
    assert (ports (stp_update_bridge_timers s0) = ports s0 /\
            root_port (stp_update_bridge_timers s0) = root_port s0 /\
            first_changed_port (stp_update_bridge_timers s0) = first_changed_port s0)
      as (Hports & Hrp & Hfst).
    { unfold stp_update_bridge_timers. cbv zeta. by destruct (stp_is_root_bridge _). }
    generalize dependent (stp_update_bridge_timers s0). intros s1 Hports Hrp Hfst.
    unfold creating, use_bridge_times. rsimpl.
    rewrite Hports, Hrp, Hfst. subst s0. cbn [root_port first_changed_port ports].
    rewrite length_map, length_seq. repeat (split; [done |]).
    intros i p (j & -> & Hj)%list_lookup_fmap_Some. apply lookup_seq in Hj as [-> _]. done.
  - intros i os Hi (s & -> & Hs). cbn [mbind option_bind]. apply initialize_fresh; [done | lia].
Qed.

Lemma fresh_port_id i :
  (i < STP_MAX_PORTS)%nat ->
  in_u 16 (port_id (fresh_port i)) /\ Z.land (port_id (fresh_port i)) 0xff = Z.of_nat i + 1.
Proof.
  intros Hi.
  assert (forallb (λ i, (0 <=? port_id (fresh_port i)) && (port_id (fresh_port i) <? 2 ^ 16)
    && (Z.land (port_id (fresh_port i)) 0xff =? Z.of_nat i + 1)) (seq 0 STP_MAX_PORTS) = true) as H
    by by vm_compute.
  rewrite forallb_forall in H. specialize (H i). rewrite in_seq in H.
  specialize (H ltac:(lia)). unfold in_u. lia.
Qed.

Lemma bridge_inv_create n id s : stp_create n id = Some s -> bridge_inv s.
Proof.
  destruct (created n id) as (s' & -> & Hd & Hr & Hl & Hf & Hp). intros [= <-].
  assert (forall i p, ports s' !! i = Some p -> (i < STP_MAX_PORTS)%nat /\ created_port i p) as Hc.
  { intros i p E. pose proof (lookup_lt_Some _ _ _ E) as Hi. rewrite Hl in Hi. split; [done |].
    specialize (Hp i p E). by destruct (Nat.ltb_spec i STP_MAX_PORTS); [| lia]. }
  split.
  - split; [done | lia |]. intros i p E. destruct (Hc i p E) as (Hi & Hid & Hst & Hch & _).
    split; [rewrite Hid; by apply fresh_port_id | congruence | congruence].
  - intros i p (_ & _ & Hst & _ & Ha)%Hc. unfold timer_ok. by rewrite Ha, Hst.
  - split; [lia | by rewrite Hr, Hd | by rewrite Hr].
  - intros i p (_ & _ & Hst & _)%Hc. by rewrite Hst.
Qed.

Lemma reachable_bridge_inv s : reachable s -> bridge_inv s.
Proof. induction 1; [by eapply bridge_inv_create | by eapply bridge_inv_exec]. Qed.
