(* ===== verification/StpProps.v ===== *)
(** Properties of the spanning tree engine for every bridge a client can reach: states
    against roles, root election, the pace at which ports come up, timers, BPDUs and the
    report of changed ports. *)
From S2P Require Import Prelude Stp StpInv StpOps.
Import Stp.

(** ** Relations between the ports before and after *)

Definition ports_rel (R : stp_port -> stp_port -> Prop) (s s' : stp) : Prop :=
  forall j q, ports s' !! j = Some q -> exists p, ports s !! j = Some p /\ R p q.

Lemma ports_rel_trans (R : stp_port -> stp_port -> Prop) `{!Transitive R} a b c :
  ports_rel R a b -> ports_rel R b c -> ports_rel R a c.
Proof.
  intros H1 H2 j q (p & E & Hp)%H2. destruct (H1 j p E) as (r & Er & Hr).
  exists r. split; [done |]. by etransitivity.
Qed.

(** A port starts to learn or to forward only if it was in that state before. *)
Definition calm (p q : stp_port) : Prop :=
  stp_learn_in_state (state q) = true -> state q = state p.

#[export] Instance calm_trans : Transitive calm.
Proof. intros p q r H1 H2 Hr. specialize (H2 Hr). rewrite H2 in Hr |- *. auto. Qed.

(** A port advances at most one step towards forwarding. *)
Definition paced (p q : stp_port) : Prop :=
  stp_forward_in_state (state q) = true -> stp_learn_in_state (state p) = true.

Lemma calm_same p q : state q = state p -> calm p q.
Proof. by intros ? ?. Qed.

Lemma calm_refl s : ports_rel calm s s.
Proof. intros j q E. exists q. split; [done | by apply calm_same]. Qed.

Lemma calm_ports s s' : ports s' = ports s -> ports_rel calm s s'.
Proof. intros H j q E. exists q. split; [congruence | by apply calm_same]. Qed.

Lemma calm_proto s s' : proto s' = proto s -> ports_rel calm s s'.
Proof.
  intros H j q E. destruct (proto_lookup s s' j q H E) as (p & Ep & Hp).
  exists p. split; [done |]. apply calm_same. by injection Hp.
Qed.

Lemma calm_upd i f s : (forall p, calm p (f p)) -> ports_rel calm s (upd_port i f s).
Proof.
  intros Hf j q (p & E & ->)%lookup_upd_port_Some. exists p. split; [done |].
  case_decide; [apply Hf | by apply calm_same].
Qed.

Lemma calm_acts g i s s' :
  acts_on g i s s' -> (forall p, calm p (g p)) -> ports_rel calm s s'.
Proof.
  intros (_ & _ & Ha) Hg j q (p & E & Hq)%Ha. exists p. split; [done |].
  injection Hq as _ Hq. unfold calm. rewrite Hq. case_decide; [apply Hg | by apply calm_same].
Qed.

Lemma calm_select s i p : calm p (select_port s i p).
Proof.
  unfold calm, select_port, make_forwarding_port, make_blocking_port, set_state.
  destruct (enabled p); [| done].
  case_bool_decide; [| destruct (stp_is_designated_port s p)]; rsimpl.
  all: destruct (state p) eqn:E; cbn; rsimpl; rewrite ?E; done.
Qed.

Lemma calm_selection s : ports_rel calm s (stp_port_state_selection s).
Proof.
  destruct (port_state_selection_spec s) as (_ & _ & H). intros j q (p & E & Hq)%H.
  exists p. split; [done |]. injection Hq as _ Hq. unfold calm. rewrite Hq. apply calm_select.
Qed.

Lemma calm_configuration_update s : ports_rel calm s (stp_configuration_update s).
Proof.
  destruct (designated_port_selection_spec (stp_root_selection s)) as (_ & _ & H).
  intros j q E. destruct (H j q E) as (p & Ep & Hq). rewrite root_selection_ports in Ep.
  exists p. split; [done |]. apply calm_same. injection Hq as _ Hq. rewrite Hq.
  unfold designate_port, become_designated. destruct (_ && _); by rsimpl.
Qed.

Lemma calm_reconfigure s :
  ports_rel calm s (stp_port_state_selection (stp_configuration_update s)).
Proof.
  eapply ports_rel_trans; [apply _ | apply calm_configuration_update | apply calm_selection].
Qed.

Lemma calm_update_reconfigure i f s :
  (forall p, calm p (f p)) ->
  ports_rel calm s (stp_port_state_selection (stp_configuration_update (upd_port i f s))).
Proof.
  intros. eapply ports_rel_trans; [apply _ | by apply calm_upd | apply calm_reconfigure].
Qed.

Lemma calm_set_port_state i st s :
  stp_learn_in_state st = false -> ports_rel calm s (stp_set_port_state i st s).
Proof.
  intros Hst. eapply calm_acts; [apply acts_on_set_port_state |].
  intros p. unfold calm, set_state. rsimpl. by rewrite Hst.
Qed.

Create HintDb calm.
#[export] Hint Resolve calm_refl calm_reconfigure calm_selection calm_set_port_state : calm.

(** Chains of calm steps. *)
Ltac calm_step L := eapply ports_rel_trans; [apply _ | | apply L].
Ltac calm_quiet L := eapply ports_rel_trans; [apply _ | | apply calm_proto, L].
Ltac calm_update := eapply ports_rel_trans; [apply _ | | apply calm_upd; intros ?; by apply calm_same].

Lemma calm_received_bpdu i b s : ports_rel calm s (stp_received_bpdu i b s).
Proof.
  assert (ports_rel calm s (upd_port i count_error s)) as He
    by (apply calm_upd; intros p; by apply calm_same).
  unfold stp_received_bpdu. destruct (ports s !! i) as [p |] eqn:E; [| auto with calm].
  destruct (bool_decide _); [auto with calm |]. destruct (length b <? 4)%nat; [done |].
  destruct (negb _); [done |]. destruct (_ =? STP_TYPE_CONFIG).
  - destruct (length b <? 35)%nat; [done |]. calm_update. calm_quiet received_config_proto.
    rewrite E. destruct (_ && _); [| auto with calm].
    apply calm_update_reconfigure. intros q. by apply calm_same.
  - destruct (_ =? STP_TYPE_TCN); [| done]. destruct (negb _); [done |]. calm_update.
    unfold stp_received_tcn_bpdu. rewrite E. destruct (_ && _); [| auto with calm].
    calm_quiet proto_acknowledge_topology_change. calm_quiet proto_topology_change_detection.
    auto with calm.
Qed.

Lemma calm_set_bridge_id id s : ports_rel calm s (set_bridge_id id s).
Proof.
  unfold set_bridge_id. destruct (negb _); [| auto with calm]. cbv zeta.
  calm_quiet proto_become_root_if_new. calm_step calm_reconfigure.
  apply (for_each_ind (λ s', ports_rel calm s s')); [auto with calm |].
  intros i p s' H E _. rewrite E. destruct (stp_is_designated_port s' p); [by calm_update | done].
Qed.

Lemma calm_port_disable i s : ports_rel calm s (stp_port_disable i s).
Proof.
  unfold stp_port_disable. destruct (ports s !! i); [| auto with calm].
  destruct (negb _); [| auto with calm]. cbv zeta. calm_update.
  calm_quiet proto_become_root_if_new. calm_step calm_reconfigure. calm_update.
  calm_step calm_set_port_state; [| done]. calm_update. auto with calm.
Qed.

Lemma calm_port_enable i s s' : stp_port_enable i s = Some s' -> ports_rel calm s s'.
Proof.
  unfold stp_port_enable. destruct (ports s !! i) as [p |]; [| intros [= <-]; auto with calm].
  destruct (bool_decide _); [| intros [= <-]; auto with calm].
  destruct (initialize_port_spec i s) as (s1 & -> & _ & _ & g & Ha & Hg).
  cbn [mbind option_bind]. intros [= <-]. calm_step calm_selection.
  eapply calm_acts; [done |]. intros q. unfold calm. by rewrite (proj1 (Hg q)).
Qed.

Lemma calm_port_set_priority i pr s : ports_rel calm s (stp_port_set_priority i pr s).
Proof.
  unfold stp_port_set_priority. destruct (ports s !! i) as [p |] eqn:E; [| auto with calm].
  cbv zeta. destruct (negb _); [| auto with calm].
  set (p' := p <| designated_port ::= _ |> <| port_id := _ |>).
  assert (ports_rel calm s (upd_port i (λ _, p') s)) as H.
  { intros j q (q0 & E0 & ->)%lookup_upd_port_Some. exists q0. split; [done |].
    case_decide; [| by apply calm_same]. apply calm_same. subst j p'. rsimpl. congruence. }
  destruct (_ && _); [| done]. calm_step calm_selection. by calm_update.
Qed.

Lemma calm_get_changed_port s : ports_rel calm s (stp_get_changed_port s).1.
Proof.
  unfold stp_get_changed_port. destruct (find_changed _ _); cbn [fst]; [| by apply calm_ports].
  calm_update. by apply calm_ports.
Qed.

Definition is_tick (o : op) : bool := match o with Tick _ => true | _ => false end.

Lemma calm_exec o s s' : is_tick o = false -> exec o s = Some s' -> ports_rel calm s s'.
Proof.
  intros Ho. destruct o; try discriminate Ho; cbn [exec]; intros E.
  all: try (injection E as <-).
  all: try (apply calm_upd; intros p; by apply calm_same).
  all: try (apply calm_proto; etransitivity; [apply proto_update_bridge_timers | done]).
  - apply calm_received_bpdu.
  - apply calm_set_bridge_id.
  - apply calm_set_bridge_id.
  - by apply calm_ports.
  - apply calm_get_changed_port.
  - apply calm_port_disable.
  - by apply (calm_port_enable i).
  - apply calm_port_set_priority.
  - unfold stp_port_set_path_cost. destruct (ports s !! i); [| auto with calm].
    destruct (negb _); [| auto with calm].
    apply calm_update_reconfigure. intros p. by apply calm_same.
  - unfold stp_port_set_speed, stp_port_set_path_cost. destruct (ports s !! i); [| auto with calm].
    destruct (negb _); [| auto with calm].
    apply calm_update_reconfigure. intros p. by apply calm_same.
  - apply calm_proto, proto_topology_change_detection.
Qed.

(** ** The pace of [stp_tick] *)

Lemma calm_message_age_expiry i s : ports_rel calm s (stp_message_age_timer_expiry i s).
Proof.
  unfold stp_message_age_timer_expiry. cbv zeta. calm_quiet proto_become_root_if_new.
  apply calm_update_reconfigure. intros p. by apply calm_same.
Qed.

Lemma calm_tick_message_age e i s : ports_rel calm s (tick_message_age e i s).
Proof.
  unfold tick_message_age, tick_port_timer. destruct (ports s !! i) as [p |]; [| auto with calm].
  destruct (stp_timer_expired _ _ _) as [t []]; [calm_step calm_message_age_expiry |].
  all: apply calm_upd; intros q; by apply calm_same.
Qed.

Lemma tick_forward_delay_paced e i s j q :
  ports (tick_hold e i (tick_forward_delay e i s)) !! j = Some q ->
  exists p, ports s !! j = Some p /\ (if decide (i = j) then paced p q else state q = state p).
Proof.
  intros Hq. destruct (proto_lookup (tick_forward_delay e i s) _ j q (proto_tick_hold e i _) Hq)
    as (q1 & E1 & H1). clear Hq. injection H1 as _ H1. unfold paced. rewrite H1. clear H1.
  unfold tick_forward_delay, tick_port_timer in E1. destruct (ports s !! i) as [p |] eqn:E.
  2: { exists q1. split; [done |]. case_decide; [congruence | done]. }
  destruct (stp_timer_expired _ _ _) as [t []].
  - destruct (forward_delay_expiry_acts i t p s E) as (_ & _ & Ha).
    destruct (Ha j q1 E1) as (p1 & Ep1 & Hp1). exists p1. split; [done |].
    injection Hp1 as _ Hp1. rewrite Hp1. case_decide; [| done].
    unfold advance_port, set_state. cbv zeta. rsimpl.
    case_bool_decide; [| case_bool_decide as Es]; rsimpl;
      [done | by rewrite Es | by destruct (state p1)].
  - apply lookup_upd_port_Some in E1 as (p1 & Ep1 & ->). exists p1. split; [done |].
    case_decide; [| done]. rsimpl. by destruct (state p1).
Qed.

Lemma paced_refl p q : state q = state p -> paced p q.
Proof. intros H. unfold paced. rewrite H. by destruct (state p). Qed.

Lemma forward_loop_paced e s :
  ports_rel paced s
    (for_each_enabled_port (λ i s, tick_hold e i (tick_forward_delay e i s)) s).
Proof.
  set (f := λ i s, tick_hold e i (tick_forward_delay e i s)).
  intros j q Hq. assert (exists p, ports s !! j = Some p /\
    if (j <? length (ports s))%nat then paced p q else state q = state p) as (p & E & Hp).
  { revert j q Hq. apply (for_each_ind_at (λ k s', forall j q, ports s' !! j = Some q ->
      exists p, ports s !! j = Some p /\ if (j <? k)%nat then paced p q else state q = state p)).
    - intros j q E. by exists q.
    - intros i s' Hi IH j q Hq. unfold visit in Hq.
      assert (exists p', ports s' !! j = Some p' /\
        (if decide (i = j) then paced p' q else state q = state p')) as (p' & E' & Hp').
      { destruct (ports s' !! i) as [p0 |] eqn:E0;
          [destruct (enabled p0); [by apply (tick_forward_delay_paced e i) |] |].
        all: exists q; split; [done | case_decide; [by apply paced_refl | done]]. }
      destruct (IH j p' E') as (p & E & Hp). exists p. split; [done |].
      case_decide.
      + subst j. rewrite Nat.ltb_irrefl in Hp. destruct (Nat.ltb_spec i (S i)); [| lia].
        unfold paced in *. by rewrite <- Hp.
      + unfold paced in *. rewrite Hp'.
        destruct (Nat.ltb_spec j i), (Nat.ltb_spec j (S i)); try done; lia. }
  exists p. split; [done |].
  by destruct (Nat.ltb_spec j (length (ports s))); [| apply lookup_lt_Some in E; lia].
Qed.

Lemma tick_paced ms s : ports_rel paced s (stp_tick ms s).
Proof.
  unfold stp_tick. cbv zeta. set (s0 := s <| elapsed_remainder := _ |>).
  change (ports_rel paced s) with (ports_rel paced s0). clearbody s0.
  destruct (_ =? 0); [intros j q E; exists q; by split; [| apply paced_refl] |].
  set (e := ms_to_timer _). set (s1 := for_each_enabled_port _ (tick_bridge_timers e s0)).
  assert (ports_rel calm s0 s1) as H1.
  { subst s1. apply (for_each_ind (λ s, ports_rel calm s0 s));
      [apply calm_proto, proto_tick_bridge_timers |].
    intros i p s' H _ _. eapply ports_rel_trans; [apply _ | done | apply calm_tick_message_age]. }
  clearbody s1. intros j q Hq. destruct (forward_loop_paced e s1 j q Hq) as (p1 & E1 & Hp1).
  destruct (H1 j p1 E1) as (p & E & Hp). exists p. split; [done |].
  unfold paced in *. intros Hf. specialize (Hp1 Hf). by rewrite <- (Hp Hp1).
Qed.

(** ** Agreement on the root *)

(** The information of every enabled port names the root that the bridge believes in. *)
Definition agree_root (s : stp) : Prop :=
  forall i p, ports s !! i = Some p -> enabled p = true ->
    p_designated_root p = designated_root s.

(** Steps that leave the recorded roots and the enabled ports alone. *)
Definition same_info (p q : stp_port) : Prop :=
  p_designated_root q = p_designated_root p /\ enabled q = enabled p.

Lemma agree_same s s' :
  designated_root s' = designated_root s -> ports_rel same_info s s' ->
  agree_root s -> agree_root s'.
Proof.
  intros Hd Hr Ha i q (p & E & Hp & He)%Hr En. rewrite Hd, Hp. apply (Ha i); congruence.
Qed.

Lemma agree_proto s s' : proto s' = proto s -> agree_root s -> agree_root s'.
Proof.
  intros H. apply agree_same; [by injection H |]. intros j q E.
  destruct (proto_lookup s s' j q H E) as (p & Ep & Hp). exists p. split; [done |].
  split; [by injection Hp | by apply enabled_proto].
Qed.

Lemma agree_upd i f s :
  (forall p, same_info p (f p)) -> agree_root s -> agree_root (upd_port i f s).
Proof.
  intros Hf. apply agree_same; [done |]. intros j q (p & E & ->)%lookup_upd_port_Some.
  exists p. split; [done |]. by case_decide.
Qed.

Lemma agree_acts g i s s' :
  acts_on g i s s' ->
  (forall p, same_info p (g p) \/ p_designated_root (g p) = designated_root s) ->
  agree_root s -> agree_root s'.
Proof.
  intros (Hc & _ & Ha) Hg Hs j q (p & E & Hq)%Ha En. injection Hc as _ Hd _ _. rewrite Hd.
  rewrite (enabled_proto _ _ Hq) in En. injection Hq as _ _ _ Hq. rewrite Hq.
  case_decide; [| by apply (Hs j)].
  destruct (Hg p) as [[-> He] | ->]; [| done]. apply (Hs j); congruence.
Qed.

Lemma same_info_select s i p : same_info p (select_port s i p).
Proof.
  split; [| apply enabled_select].
  unfold select_port, make_forwarding_port, make_blocking_port, set_state.
  destruct (enabled p); [| done].
  case_bool_decide; [| destruct (stp_is_designated_port s p)]; rsimpl.
  all: by destruct (state p).
Qed.

Lemma agree_selection s : agree_root s -> agree_root (stp_port_state_selection s).
Proof.
  destruct (port_state_selection_spec s) as (Hc & _ & H). injection Hc as _ Hd _ _.
  apply agree_same; [done |]. intros j q (p & E & Hq)%H. exists p. split; [done |].
  unfold same_info. rewrite (enabled_proto _ _ Hq). injection Hq as _ _ _ ->.
  apply same_info_select.
Qed.

(** A reconfiguration brings all ports to the elected root. *)
Lemma agree_reconfigure s :
  agree_root (stp_port_state_selection (stp_configuration_update s)).
Proof.
  apply agree_selection. intros i q E En.
  destruct (designated_port_selection_spec (stp_root_selection s)) as (Hc & _ & H).
  destruct (H i q E) as (p & _ & Hq). injection Hc as _ Hd _ _.
  rewrite (enabled_proto _ _ Hq) in En. injection Hq as _ _ _ ->.
  etransitivity; [| symmetry; exact Hd].
  unfold designate_port in *. destruct (enabled p) eqn:Ep; cbn [andb] in *; [| congruence].
  destruct (should_be_designated (stp_root_selection s) p) eqn:Hs;
    [by unfold become_designated; rsimpl |].
  unfold should_be_designated in Hs. rewrite !orb_false_iff in Hs. destruct Hs as [[[_ Hs] _] _].
  apply negb_false_iff in Hs. lia.
Qed.

Lemma agree_update_bpdu i b s : agree_root s -> agree_root (stp_received_bpdu i b s).
Proof.
  intros H. assert (agree_root (upd_port i count_error s)) as He by by apply agree_upd.
  unfold stp_received_bpdu. destruct (ports s !! i) as [p |] eqn:E; [| done].
  destruct (bool_decide _); [done |]. destruct (length b <? 4)%nat; [done |].
  destruct (negb _); [done |]. destruct (_ =? STP_TYPE_CONFIG).
  - destruct (length b <? 35)%nat; [done |]. apply agree_upd; [done |].
    eapply agree_proto; [apply received_config_proto |]. rewrite E.
    destruct (_ && _); [apply agree_reconfigure | done].
  - destruct (_ =? STP_TYPE_TCN); [| done]. destruct (negb _); [done |]. apply agree_upd; [done |].
    unfold stp_received_tcn_bpdu. rewrite E. destruct (_ && _); [| done].
    apply (agree_proto s); [| done].
    by rewrite proto_acknowledge_topology_change, proto_topology_change_detection.
Qed.

Lemma agree_tick ms s : agree_root s -> agree_root (stp_tick ms s).
Proof.
  intros H. unfold stp_tick. cbv zeta. set (s0 := s <| elapsed_remainder := _ |>).
  assert (agree_root s0) as H0 by exact H. clearbody s0.
  destruct (_ =? 0); [done |]. set (e := ms_to_timer _). clearbody e.
  apply for_each_ind; [apply for_each_ind |].
  - eapply agree_proto; [apply proto_tick_bridge_timers | done].
  - intros i p s' Hs' E _. unfold tick_message_age, tick_port_timer. rewrite E.
    destruct (stp_timer_expired _ _ _) as [t []]; [| by apply agree_upd].
    unfold stp_message_age_timer_expiry. cbv zeta.
    eapply agree_proto; [apply proto_become_root_if_new | apply agree_reconfigure].
  - intros i p s' Hs' E _. eapply agree_proto; [apply proto_tick_hold |].
    unfold tick_forward_delay, tick_port_timer. rewrite E.
    destruct (stp_timer_expired _ _ _) as [t []]; [| by apply agree_upd].
    eapply agree_acts; [by apply (forward_delay_expiry_acts i t p) | | done].
    intros q. left. unfold same_info, enabled, advance_port, set_state. cbv zeta. rsimpl.
    case_bool_decide as E1; [| case_bool_decide as E2]; rsimpl; [by rewrite E1 | by rewrite E2 | done].
Qed.

Lemma agree_port_set_priority i pr s :
  agree_root s -> agree_root (stp_port_set_priority i pr s).
Proof.
  intros H. unfold stp_port_set_priority. destruct (ports s !! i) as [p |] eqn:E; [| done].
  cbv zeta. destruct (negb _); [| done].
  set (p' := p <| designated_port ::= _ |> <| port_id := _ |>).
  assert (agree_root (upd_port i (λ _, p') s)) as H1.
  { intros j q (q0 & E0 & ->)%lookup_upd_port_Some. case_decide; [| by apply (H j)].
    subst j. intros En. transitivity (p_designated_root p); [subst p'; by rsimpl |].
    apply (H i p E). rewrite <- En. unfold enabled. subst p'. by rsimpl. }
  destruct (_ && _); [| done]. apply agree_selection.
  eapply agree_acts; [apply acts_on_upd | | done]. intros q. right. by rsimpl.
Qed.

Lemma agree_exec o s s' : agree_root s -> exec o s = Some s' -> agree_root s'.
Proof.
  intros H. destruct o; cbn [exec]; intros E. all: try (injection E as <-).
  all: try by apply agree_upd.
  all: try (eapply (agree_proto s); [etransitivity; [apply proto_update_bridge_timers | done] | done]).
  all: try (unfold stp_port_set_speed, stp_port_set_path_cost; destruct (ports s !! i); [| done];
    destruct (negb _); [apply agree_reconfigure | done]).
  all: try (unfold stp_set_bridge_id, stp_set_bridge_priority, set_bridge_id;
    destruct (negb _); [| done]; cbv zeta;
    eapply agree_proto; [apply proto_become_root_if_new | apply agree_reconfigure]).
  - by apply agree_tick.
  - by apply agree_update_bpdu.
  - exact H.
  - unfold stp_get_changed_port. destruct (find_changed _ _); cbn [fst]; [by apply agree_upd | exact H].
  - unfold stp_port_disable. destruct (ports s !! i); [| done]. destruct (negb _); [| done].
    cbv zeta. apply agree_upd; [done |].
    eapply agree_proto; [apply proto_become_root_if_new | apply agree_reconfigure].
  - unfold stp_port_enable in E. destruct (ports s !! i); [| by injection E as <-].
    destruct (bool_decide _); [| by injection E as <-].
    destruct (initialize_port_spec i s) as (s1 & Hs1 & _ & _ & g & Ha & Hg). rewrite Hs1 in E.
    cbn [mbind option_bind] in E. injection E as <-. apply agree_selection.
    eapply agree_acts; [done | | done]. intros q. right. apply Hg.
  - by apply agree_port_set_priority.
  - eapply agree_proto; [apply proto_topology_change_detection | done].
Qed.

Lemma reachable_agree_root s : reachable s -> agree_root s.
Proof.
  induction 1 as [n id s Hs | s o s' _ IH Ho]; [| by eapply agree_exec].
  destruct (created n id) as (s' & Hs' & _ & _ & Hl & _ & Hp).
  assert (s' = s) as -> by congruence. intros i p E En. exfalso. specialize (Hp i p E).
  destruct (Nat.ltb_spec i STP_MAX_PORTS); [| apply lookup_lt_Some in E; lia].
  destruct Hp as (_ & Hst & _). unfold enabled in En. by rewrite Hst in En.
Qed.
