(* ===== verification/StpElection.v ===== *)
(** Root election and port roles in the spanning tree engine, for every reachable bridge,
    with the small network in which the theorems are applied. *)
From S2P Require Import Prelude Stp StpInv StpOps StpProps.
Import Stp.

(** ** A bridge in a small network *)

Fixpoint run (l : list op) (s : stp) : option stp :=
  match l with
  | [] => Some s
  | o :: l => s ← exec o s; run l s
  end.

Lemma run_reachable l : forall s s', reachable s -> run l s = Some s' -> reachable s'.
Proof.
  induction l as [| o l IH]; intros s s' H; cbn [run]; [by intros [= <-] |].
  destruct (exec o s) as [s1 |] eqn:E; [| by intros [=]]. apply IH. by eapply reach_step.
Qed.

Definition create_and_run (id : Z) (l : list op) : stp :=
  default (fresh_bridge "br0" id) (s ← stp_create "br0" id; run l s).

Definition some {A} (x : option A) : bool := if x then true else false.

Lemma create_and_run_reachable id l :
  some (s ← stp_create "br0" id; run l s) = true -> reachable (create_and_run id l).
Proof.
  unfold create_and_run. destruct (stp_create "br0" id) as [s0 |] eqn:E; [| by intros [=]].
  cbn [mbind option_bind]. destruct (run l s0) as [s |] eqn:Hs; [| by intros [=]]. intros _.
  eapply run_reachable; [by eapply reach_create | exact Hs].
Qed.

Definition port_of (s : stp) (i : nat) : stp_port := default (fresh_port i) (ports s !! i).

Lemma lookup_port_of s i : (i < length (ports s))%nat -> ports s !! i = Some (port_of s i).
Proof.
  intros Hi. unfold port_of. destruct (ports s !! i) eqn:E; [done |].
  apply lookup_ge_None in E. lia.
Qed.

Lemma reachable_length s : reachable s -> length (ports s) = STP_MAX_PORTS.
Proof. intros H%reachable_bridge_inv. apply H. Qed.

(** Bridge 5 hears on port 0 from bridge 3 that the root is bridge 1, and on port 2 from
    bridge 4 that bridge 4 reaches the same root at a lower cost than bridge 5 does. *)
Definition demo_bpdu (root bridge cost : Z) : stp_config_bpdu := {|
  c_flags := 0; c_root_id := root; c_root_path_cost := cost; c_bridge_id := bridge;
  c_port_id := 0x8002; c_message_age := 0; c_max_age := 5120; c_hello_time := 512;
  c_forward_delay := 3840 |}.

Definition demo : stp := create_and_run 0x8000000000000005
  [PortEnable 0; PortEnable 1; PortEnable 2;
   ReceivedBpdu 0 (config_bytes (demo_bpdu 0x8000000000000001 0x8000000000000003 0));
   ReceivedBpdu 2 (config_bytes (demo_bpdu 0x8000000000000001 0x8000000000000004 10))].

Lemma demo_reachable : reachable demo.
Proof. apply create_and_run_reachable. by vm_compute. Qed.

Lemma demo_port i : (i < STP_MAX_PORTS)%nat -> ports demo !! i = Some (port_of demo i).
Proof. rewrite <- (reachable_length _ demo_reachable). apply lookup_port_of. Qed.

(** ** The invariant *)

(** C1: every bridge a client can reach satisfies the bridge invariant: port numbers stay
    unique, the bridge believes itself root exactly when it has no root port, a root port is
    an enabled port, forward delay timers run exactly on listening and learning ports, only
    root and designated ports leave the blocking state, and no change of state is lost
    before the first port to report. *)
Theorem stp_reachable_inv s : reachable s -> bridge_inv s.
Proof. apply reachable_bridge_inv. Qed.

Lemma stp_reachable_inv_witness : bridge_inv demo /\ root_port demo = Some 0%nat.
Proof. split; [apply stp_reachable_inv, demo_reachable | by vm_compute]. Defined.

(** ** Roles *)

Lemma port_id_inj s i j p q :
  ports_inv s -> ports s !! i = Some p -> ports s !! j = Some q -> port_id p = port_id q -> i = j.
Proof.
  intros [_ _ H] Hp Hq E. pose proof (proj2 (ok_id _ _ _ (H i p Hp))).
  pose proof (proj2 (ok_id _ _ _ (H j q Hq))). rewrite E in *. lia.
Qed.

(** The role reported for a port agrees with its state on every reachable bridge: the
    root role belongs to the root port alone, an alternate port is blocked and a port in the
    disabled role is disabled; so a port that learns or forwards is the root port or a
    designated one. *)
Theorem stp_role_state s i p :
  reachable s -> ports s !! i = Some p ->
  match stp_port_get_role s p with
  | STP_ROLE_ROOT => root_port s = Some i /\ state p <> STP_DISABLED
  | STP_ROLE_DESIGNATED => root_port s <> Some i
  | STP_ROLE_ALTERNATE => root_port s <> Some i /\ state p = STP_BLOCKING
  | STP_ROLE_DISABLED => root_port s <> Some i /\ state p = STP_DISABLED
  end.
Proof.
  intros [Hp _ [_ _ Hs] Hro]%reachable_bridge_inv E. unfold stp_port_get_role.
  destruct (match root_port s ≫= λ i, ports s !! i with
            | Some r => port_id r =? port_id p | None => false end) eqn:Er.
  - destruct (root_port s) as [k |] eqn:Ek; [| done]. cbn in Er.
    destruct (ports s !! k) as [r |] eqn:Er'; [| done].
    assert (k = i) as -> by (eapply port_id_inj; [done | done | done | lia]).
    split; [done |]. destruct (Hs i eq_refl) as (p' & E' & En).
    assert (p' = p) as -> by congruence. unfold enabled in En. by case_bool_decide.
  - assert (root_port s <> Some i) as Hn.
    { intros Hi. rewrite Hi in Er. cbn in Er. rewrite E in Er. lia. }
    destruct (stp_is_designated_port s p) eqn:Ed; [done |].
    case_bool_decide; [done |]. split; [done |].
    destruct (non_blocking (state p)) eqn:Enb; [by destruct (Hro i p E Enb); congruence |].
    pose proof (ok_zero _ _ _ (inv_port _ Hp i p E)). by destruct (state p).
Qed.

Lemma stp_role_state_witness :
  stp_port_get_role demo (port_of demo 2) = STP_ROLE_ALTERNATE /\ state (port_of demo 2) = STP_BLOCKING.
Proof.
  assert (ports demo !! 2%nat = Some (port_of demo 2)) as E by (apply demo_port, Nat.ltb_lt, eq_refl).
  assert (stp_port_get_role demo (port_of demo 2) = STP_ROLE_ALTERNATE) as Hr by by vm_compute.
  pose proof (stp_role_state demo 2 (port_of demo 2) demo_reachable E) as H.
  rewrite Hr in H. split; [exact Hr | apply H].
Defined.

(** Port state selection does exactly what the roles ask for: disabled ports stay as
    they are, an enabled root or designated port that was blocked starts to listen with a
    fresh forward delay timer and keeps its state otherwise, and every other enabled port is
    blocked with its timer stopped. *)
Theorem stp_port_state_selection_exact s i p q :
  ports s !! i = Some p -> ports (stp_port_state_selection s) !! i = Some q ->
  state p <> STP_ZERO ->
  let chosen := bool_decide (root_port s = Some i) || stp_is_designated_port s p in
  state q = (if negb (enabled p) then STP_DISABLED
             else if chosen then (if bool_decide (state p = STP_BLOCKING) then STP_LISTENING
                                  else state p)
             else STP_BLOCKING) /\
  (enabled p = true -> chosen = true -> state p = STP_BLOCKING ->
     forward_delay_timer q = mk_timer true 0) /\
  (enabled p = true -> chosen = false -> state p <> STP_BLOCKING ->
     active (forward_delay_timer q) = false).
Proof.
  intros E Eq Hz. cbv zeta. destruct (port_state_selection_spec s) as (_ & _ & H).
  destruct (H i q Eq) as (p' & E' & Hq). assert (p' = p) as -> by congruence.
  injection Hq as _ Hst _ _ _ _ _ _ Hfd _. rewrite Hst, Hfd.
  unfold select_port, make_forwarding_port, make_blocking_port, set_state.
  destruct (enabled p) eqn:En; cbn [negb].
  2: { unfold enabled in En. apply negb_false_iff, bool_decide_eq_true_1 in En. by rewrite En. }
  case_bool_decide; [| destruct (stp_is_designated_port s p)]; cbn [orb]; rsimpl.
  all: destruct (state p) eqn:Es; cbn; rsimpl; rewrite ?Es; try done.
  all: by unfold enabled in En; rewrite Es in En.
Qed.

Lemma stp_port_state_selection_exact_witness :
  state (port_of (stp_port_state_selection demo) 2) = STP_BLOCKING.
Proof.
  set (q := port_of (stp_port_state_selection demo) 2).
  assert (ports demo !! 2%nat = Some (port_of demo 2)) as E by (apply demo_port, Nat.ltb_lt, eq_refl).
  assert (ports (stp_port_state_selection demo) !! 2%nat = Some q) as Eq.
  { apply lookup_port_of. rewrite (proj1 (proj2 (port_state_selection_spec demo))).
    rewrite (reachable_length _ demo_reachable). apply Nat.ltb_lt, eq_refl. }
  assert (state (port_of demo 2) <> STP_ZERO) as Hz by (vm_compute; discriminate).
  assert (enabled (port_of demo 2) = true) as En by by vm_compute.
  assert (bool_decide (root_port demo = Some 2%nat)
    || stp_is_designated_port demo (port_of demo 2) = false) as Hc by by vm_compute.
  pose proof (stp_port_state_selection_exact demo 2 (port_of demo 2) q E Eq Hz) as [H _].
  rewrite En, Hc in H. exact H.
Defined.

(** ** Root election *)

Lemma root_key_inj p q : root_key p = root_key q -> port_id p = port_id q.
Proof. unfold root_key. by intros [= _ _ _ _ ->]. Qed.

Lemma root_selection_best s :
  ports_inv s ->
  let s' := stp_root_selection s in
  match root_port s' with
  | None =>
      designated_root s' = bridge_id s /\ root_path_cost s' = 0 /\
      forall i p, ports s !! i = Some p -> root_candidate s p = false
  | Some i =>
      exists r, ports s !! i = Some r /\ root_candidate s r = true /\
        designated_root s' = p_designated_root r /\ designated_root s' < bridge_id s /\
        root_path_cost s' = u32 (designated_cost r + path_cost r) /\
        forall j p, j <> i -> ports s !! j = Some p -> root_candidate s p = true ->
          lex_lt (root_key r) (root_key p) = true
  end.
Proof.
  intros Hp. cbv zeta. unfold stp_root_selection.
  pose proof (select_root_spec s (ports s) 0 None) as H.
  destruct (select_root s 0 (ports s) None) as [[i r] |]; rsimpl.
  - destruct H as (Hc & [[=] | (j & -> & Hj)] & _ & Hbest); [by intros ? ? [=] |].
    exists r. split; [done | split; [done | split; [done |]]].
    assert (Hc' := Hc). unfold root_candidate in Hc'. apply andb_prop in Hc' as [_ Hc'].
    apply negb_true_iff, orb_false_iff in Hc' as [_ Hc']. split; [lia | split].
    + apply wrap_swrap.
    + intros k p Hk Ep Hcp.
      assert (stp_supersedes_root r p = false) as Hn.
      { apply Hbest; [| done]. by apply list_elem_of_lookup_2 in Ep. }
      rewrite supersedes_root_lex in Hn.
      destruct (lex_lt (root_key r) (root_key p)) eqn:Hrp; [done |].
      exfalso. apply Hk. eapply port_id_inj; [done | done | exact Hj |].
      by apply root_key_inj, lex_lt_total.
  - destruct H as [_ H]; [by intros ? ? [=] |]. split; [done | split; [done |]].
    intros i p Ep. apply H. by apply list_elem_of_lookup_2 in Ep.
Qed.

(** C6: the root election is optimal and leaves no tie.  If some enabled port leads to a
    better root, the root port is the one whose priority vector (root, cost to it, designated
    bridge, designated port, own port) is strictly below that of every other such port, and
    the bridge takes over its root and cost; if none does, the bridge is its own root at cost
    zero. *)
Theorem stp_root_selection_optimal s :
  ports_inv s ->
  let s' := stp_root_selection s in
  match root_port s' with
  | None =>
      designated_root s' = bridge_id s /\ root_path_cost s' = 0 /\
      forall i p, ports s !! i = Some p -> root_candidate s p = false
  | Some i =>
      exists r, ports s !! i = Some r /\ root_candidate s r = true /\
        designated_root s' = p_designated_root r /\ designated_root s' < bridge_id s /\
        root_path_cost s' = u32 (designated_cost r + path_cost r) /\
        forall j p, j <> i -> ports s !! j = Some p -> root_candidate s p = true ->
          lex_lt (root_key r) (root_key p) = true
  end.
Proof. apply root_selection_best. Qed.

Lemma stp_root_selection_optimal_witness :
  root_port (stp_root_selection demo) = Some 0%nat /\
  exists r, ports demo !! 0%nat = Some r /\ root_candidate demo r = true /\
    forall j p, j <> 0%nat -> ports demo !! j = Some p -> root_candidate demo p = true ->
      lex_lt (root_key r) (root_key p) = true.
Proof.
  assert (root_port (stp_root_selection demo) = Some 0%nat) as E by by vm_compute.
  pose proof (stp_root_selection_optimal demo
    (inv_ports _ (reachable_bridge_inv _ demo_reachable))) as H. cbv zeta in H. rewrite E in H.
  destruct H as (r & H1 & H2 & _ & _ & _ & H3). split; [exact E | exists r; auto].
Defined.

(** What root selection finds once a port has recorded a better root. *)
Lemma adopted_root s i p c :
  ports_inv s -> agree_root s -> ports s !! i = Some p -> enabled p = true ->
  c_root_id c < designated_root s -> designated_root s <= bridge_id s ->
  c_bridge_id c <> bridge_id s ->
  let s' := stp_root_selection (stp_record_config_information i c s) in
  root_port s' = Some i /\ designated_root s' = c_root_id c /\
  root_path_cost s' = u32 (c_root_path_cost c + path_cost p).
Proof.
  intros Hp Hag E En Hbetter Hle Hother. cbv zeta.
  set (s1 := stp_record_config_information i c s).
  assert (ports_inv s1) as Hp1 by by apply ports_inv_upd_same.
  destruct (ports s1 !! i) as [p1 |] eqn:E1.
  2: { exfalso. unfold s1, stp_record_config_information in E1. rewrite lookup_upd_port, E in E1.
       by case_decide. }
  assert (H1 := E1). unfold s1, stp_record_config_information in H1.
  rewrite lookup_upd_port, decide_True, E in H1 by done. apply (inj Some) in H1.
  assert (p_designated_root p1 = c_root_id c /\ designated_bridge p1 = c_bridge_id c /\
          enabled p1 = true /\ designated_cost p1 = s32 (c_root_path_cost c) /\
          path_cost p1 = path_cost p) as (R1 & R2 & R3 & R4 & R5).
  { rewrite <- H1. unfold enabled. rsimpl. done. }
  assert (root_candidate s1 p1 = true) as Hc1.
  { unfold root_candidate, stp_is_designated_port. rewrite R1, R2, R3.
    change (bridge_id s1) with (bridge_id s). apply andb_true_intro. split; [done |].
    apply negb_true_iff, orb_false_iff. split; [apply andb_false_intro1 |]; lia. }
  pose proof (root_selection_best s1 Hp1) as H. cbv zeta in H.
  destruct (root_port (stp_root_selection s1)) as [k |].
  2: { destruct H as (_ & _ & H). by rewrite (H i p1 E1) in Hc1. }
  destruct H as (r & Er & Hr & Hd & _ & Hcost & Hbest).
  destruct (decide (k = i)) as [-> | Hki].
  - assert (r = p1) as -> by congruence. rewrite Hd, R1, Hcost, R4, R5.
    split; [done | split; [done |]]. by rewrite <- wrap_add_idemp_l, wrap_swrap, wrap_add_idemp_l.
  - exfalso. specialize (Hbest i p1 ltac:(done) E1 Hc1). cbn [root_key lex_lt] in Hbest.
    assert (ports s !! k = Some r) as Ek.
    { unfold s1, stp_record_config_information in Er. rewrite lookup_upd_port in Er.
      by case_decide. }
    assert (enabled r = true) as Hen by (by apply andb_prop in Hr as [? _]).
    rewrite R1, (Hag k r Ek Hen) in Hbest.
    destruct (Z.eqb_spec (designated_root s) (c_root_id c)); lia.
Qed.

Lemma root_port_selected s i p q :
  ports s !! i = Some p -> ports (stp_port_state_selection s) !! i = Some q ->
  enabled p = true -> state p <> STP_ZERO -> root_port s = Some i ->
  non_blocking (state q) = true.
Proof.
  intros E Eq En Hz Hr. destruct (port_state_selection_spec s) as (_ & _ & H).
  destruct (H i q Eq) as (p' & E' & Hq). assert (p' = p) as -> by congruence.
  injection Hq as _ ->. unfold select_port, make_forwarding_port, set_state.
  rewrite En, bool_decide_true by done.
  apply negb_true_iff, bool_decide_eq_false in En.
  case_bool_decide as Hst; rsimpl; [done |]. by destruct (state p).
Qed.

(** The root port of a reconfigured bridge is not blocked. *)
Lemma root_port_reconfigured s i p :
  ports_inv s -> ports s !! i = Some p -> enabled p = true ->
  root_port (stp_root_selection s) = Some i ->
  exists q, ports (stp_port_state_selection (stp_configuration_update s)) !! i = Some q /\
    non_blocking (state q) = true.
Proof.
  intros Hp E En Hr. set (s1 := stp_configuration_update s).
  destruct (designated_port_selection_spec (stp_root_selection s)) as (Hc & _ & Hd).
  injection Hc as _ _ _ Hr1.
  assert (ports_inv s1) as Hp1 by by apply ports_inv_configuration_update.
  assert (ports_inv (stp_port_state_selection s1)) as Hp2 by by apply ports_inv_port_state_selection.
  pose proof (lookup_lt_Some _ _ _ E) as Hi. rewrite (inv_len _ Hp) in Hi.
  destruct (lookup_lt_is_Some_2 (ports s1) i) as [p1 E1]; [by rewrite (inv_len _ Hp1) |].
  destruct (lookup_lt_is_Some_2 (ports (stp_port_state_selection s1)) i) as [q Eq];
    [by rewrite (inv_len _ Hp2) |].
  exists q. split; [done |]. apply (root_port_selected s1 i p1 q E1 Eq).
  - destruct (Hd i p1 E1) as (p' & E' & Hp'). rewrite root_selection_ports in E'.
    assert (p' = p) as -> by congruence. rewrite (enabled_proto _ _ Hp').
    unfold designate_port, become_designated. destruct (_ && _); [| done].
    unfold enabled. by rsimpl.
  - by apply (ok_zero _ _ _ (inv_port _ Hp1 i p1 E1)).
  - by transitivity (root_port (stp_root_selection s)).
Qed.

(** C10: a bridge adopts a better root at once.  When a valid configuration BPDU on an
    enabled port of a reachable bridge names a root better than the one it believes in, and
    comes from another bridge, the bridge takes that root through that port, at the cost of
    the BPDU plus the path cost of the port; the port leaves the blocking state, and all
    enabled ports then carry the new root. *)
Theorem stp_adopts_better_root s i p c :
  reachable s -> ports s !! i = Some p -> enabled p = true ->
  c_message_age c < c_max_age c -> c_root_id c < designated_root s ->
  c_bridge_id c <> bridge_id s ->
  let s' := stp_received_config_bpdu i c s in
  root_port s' = Some i /\ designated_root s' = c_root_id c /\
  root_path_cost s' = u32 (c_root_path_cost c + path_cost p) /\
  (exists q, ports s' !! i = Some q /\ non_blocking (state q) = true) /\
  agree_root s'.
Proof.
  intros Hs E En Hage Hbetter Hother. cbv zeta.
  pose proof (reachable_agree_root s Hs) as Hag.
  destruct (reachable_bridge_inv s Hs) as [Hp _ [Hle _ _] _].
  pose proof (received_config_proto i c s) as Hpr. rewrite E, En in Hpr.
  replace (negb (c_message_age c >=? c_max_age c)) with true in Hpr by lia.
  assert (stp_supersedes_port_info s p c = true) as Hsup.
  { unfold stp_supersedes_port_info. rewrite (Hag i p E En).
    destruct (Z.eqb_spec (c_root_id c) (designated_root s)); cbn [negb]; lia. }
  rewrite Hsup in Hpr. cbn [andb] in Hpr.
  set (s1 := stp_record_config_information i c s) in *.
  set (s2 := stp_port_state_selection (stp_configuration_update s1)) in *.
  assert (ports_inv s1) as Hp1 by by apply ports_inv_upd_same.
  destruct (adopted_root s i p c Hp Hag E En Hbetter Hle Hother) as (Hr & Hd & Hcost).
  fold s1 in Hr, Hd, Hcost.
  assert (core s2 = core (stp_root_selection s1)) as Hcore.
  { destruct (port_state_selection_spec (stp_configuration_update s1)) as (Hc & _).
    subst s2. rewrite Hc. apply (designated_port_selection_spec (stp_root_selection s1)). }
  assert (core (stp_received_config_bpdu i c s) = core s2) as Hc2
    by (unfold core; by injection Hpr as -> -> -> -> _).
  rewrite Hcore in Hc2. injection Hc2 as _ -> -> ->.
  split; [done | split; [done | split; [done | split]]].
  - assert (exists p1, ports s1 !! i = Some p1 /\ enabled p1 = true) as (p1 & E1 & En1).
    { unfold s1, stp_record_config_information. rewrite lookup_upd_port, decide_True, E by done.
      eexists. split; [reflexivity |]. unfold enabled. by rsimpl. }
    destruct (root_port_reconfigured s1 i p1 Hp1 E1 En1 Hr) as (q & Eq & Hnb).
    destruct (proto_lookup (stp_received_config_bpdu i c s) s2 i q (eq_sym Hpr) Eq) as (q' & E' & Hq').
    exists q'. split; [done |]. injection Hq' as _ Hst _. congruence.
  - eapply agree_proto; [exact Hpr | apply agree_reconfigure].
Qed.

Lemma stp_adopts_better_root_witness :
  designated_root (stp_received_config_bpdu 2 (demo_bpdu 0x7000000000000001 9 4) demo)
  = 0x7000000000000001.
Proof.
  assert (ports demo !! 2%nat = Some (port_of demo 2)) as E by (apply demo_port, Nat.ltb_lt, eq_refl).
  refine (proj1 (proj2 (stp_adopts_better_root demo 2 (port_of demo 2)
    (demo_bpdu 0x7000000000000001 9 4) demo_reachable E _ _ _ _))).
  all: vm_compute; done.
Defined.

(** ** The pace of port states *)


