(* ===== verification/StpReport.v ===== *)
(** Timers, BPDUs on the wire and the report of changed ports of the spanning tree engine. *)
From S2P Require Import Prelude Stp StpInv StpOps StpElection.
Import Stp.

(** ** Bridge timers *)

Lemma ms_to_timer_small ms : 0 <= ms <= 40000 -> ms_to_timer ms = ms * 256 / 1000.
Proof.
  intros H. unfold ms_to_timer. change 0x100 with 256.
  rewrite swrap_small by lia. apply Z.quot_div_nonneg; lia.
Qed.

Lemma clamp_range x lo hi : lo <= hi -> lo <= clamp x lo hi <= hi.
Proof. intros. unfold clamp. zcases; lia. Qed.

(** Whatever times a client asks for, the bridge times stay in the ranges of the
    standard (in 1/256 s: hello 1 to 10 s, maximum age 6 to 40 s, forward delay 4 to 30 s),
    the maximum age leaves room for two hello intervals exactly and the forward delay covers
    half the maximum age up to two units; a root bridge uses its own times. *)
Theorem stp_bridge_timer_ranges s :
  let s' := stp_update_bridge_timers s in
  256 <= bridge_hello_time s' <= 2560 /\
  1536 <= bridge_max_age s' <= 10240 /\
  1024 <= bridge_forward_delay s' <= 7680 /\
  2 * (bridge_hello_time s' + 256) <= bridge_max_age s' /\
  bridge_max_age s' <= 2 * (bridge_forward_delay s' - 256) + 2 /\
  (stp_is_root_bridge s = true ->
     hello_time s' = bridge_hello_time s' /\ max_age s' = bridge_max_age s' /\
     forward_delay s' = bridge_forward_delay s').
Proof.
  cbv zeta. unfold stp_update_bridge_timers. cbv zeta.
  pose proof (clamp_range (rq_hello_time s) 1000 10000 ltac:(lia)) as Hh.
  set (ht := clamp (rq_hello_time s) 1000 10000) in *. clearbody ht.
  pose proof (clamp_range (rq_max_age s) (Z.max (2 * (ht + 1000)) 6000) 40000 ltac:(lia)) as Hm.
  set (ma := clamp (rq_max_age s) _ _) in *. clearbody ma.
  assert (Z.quot ma 2 = ma / 2) as Hq by (apply Z.quot_div_nonneg; lia). rewrite Hq.
  pose proof (clamp_range (rq_forward_delay s) (ma / 2 + 1000) 30000
    ltac:(Z.to_euclidean_division_equations; lia)) as Hf.
  set (fd := clamp (rq_forward_delay s) _ _) in *. clearbody fd.
  rewrite !ms_to_timer_small by (Z.to_euclidean_division_equations; lia).
  change (stp_is_root_bridge (_ <| bridge_forward_delay := _ |>)) with (stp_is_root_bridge s).
  destruct (stp_is_root_bridge s) eqn:Hroot; unfold use_bridge_times; rsimpl.
  all: repeat split; try discriminate; Z.to_euclidean_division_equations; lia.
Qed.

(** The relation that the comment of [stp_update_bridge_timers] states between forward delay
    and maximum age is missed by two units after the conversion to timer units. *)
Lemma forward_delay_relation_missed :
  let s := stp_set_max_age 6399 (stp_set_forward_delay 4199 demo) in
  bridge_max_age s = 2 * (bridge_forward_delay s - 256) + 2.
Proof. by vm_compute. Qed.

(** Ticks of 4 ms make the timers run fast: after the first tick has restarted the hello
    timer, five more ticks (20 ms) advance it by six units (23.4 ms). *)
Lemma short_ticks_run_fast :
  let s := create_and_run 0x8000000000000005 [Tick 4] in
  (value (hello_timer s), value (hello_timer (Nat.iter 5 (stp_tick 4) s))) = (0, 6).
Proof. by vm_compute. Qed.

(** A tick of 8388608 ms, which [stp_tick] lets through, does not advance any timer. *)
Lemma long_tick_overflows :
  clamp 8388608 0 (INT_MAX - 1000) = 8388608 /\ ms_to_timer 8388608 < 0.
Proof. by vm_compute. Qed.

(** ** BPDUs *)

Definition config_ok (c : stp_config_bpdu) : Prop :=
  in_u 8 (c_flags c) /\ in_u 64 (c_root_id c) /\ in_u 32 (c_root_path_cost c) /\
  in_u 64 (c_bridge_id c) /\ in_u 16 (c_port_id c) /\ in_u 16 (c_message_age c) /\
  in_u 16 (c_max_age c) /\ in_u 16 (c_hello_time c) /\ in_u 16 (c_forward_delay c).

Lemma read_config_bytes c : config_ok c -> read_config (config_bytes c) = c.
Proof.
  intros (H1 & H2 & H3 & H4 & H5 & H6 & H7 & H8 & H9). destruct c as [fl ro co br po ag ma he fd].
  cbn [c_flags c_root_id c_root_path_cost c_bridge_id c_port_id c_message_age c_max_age
       c_hello_time c_forward_delay] in *.
  unfold read_config. f_equal.
  - exact (be_val_bytes_small 8 ro H2).
  - exact (be_val_bytes_small 4 co H3).
  - exact (be_val_bytes_small 8 br H4).
  - exact (be_val_bytes_small 2 po H5).
  - exact (be_val_bytes_small 2 ag H6).
  - exact (be_val_bytes_small 2 ma H7).
  - exact (be_val_bytes_small 2 he H8).
  - exact (be_val_bytes_small 2 fd H9).
Qed.

(** The bytes of a configuration BPDU read back as the BPDU, and a port that is not
    disabled and receives them counts the BPDU and processes exactly it. *)
Theorem stp_bpdu_roundtrip c :
  config_ok c ->
  length (config_bytes c) = 35%nat /\ read_config (config_bytes c) = c /\
  forall s i p, ports s !! i = Some p -> state p <> STP_DISABLED ->
    stp_received_bpdu i (config_bytes c) s =
    upd_port i (λ p, p <| rx_count ::= λ n, n + 1 |>) (stp_received_config_bpdu i c s).
Proof.
  intros H. pose proof (read_config_bytes c H) as Hr. split; [done | split; [done |]].
  intros s i p E Hst. unfold stp_received_bpdu. rewrite E, bool_decide_false by done.
  change (length (config_bytes c)) with 35%nat.
  change (bytes_at 0 2 (config_bytes c)) with [0; 0].
  change (bytes_at 3 1 (config_bytes c)) with [0]. rewrite Hr. done.
Qed.

Lemma stp_bpdu_roundtrip_witness : read_config (config_bytes (demo_bpdu 7 8 9)) = demo_bpdu 7 8 9.
Proof. apply (stp_bpdu_roundtrip (demo_bpdu 7 8 9)). vm_compute. repeat split; discriminate. Defined.

(** ** The hello BPDUs of a root bridge *)

(** The frame that port [i] of a root bridge sends when its hello timer expires. *)
Definition hello_frame (s : stp) (i : nat) : list frame :=
  match ports s !! i with
  | Some p =>
      if enabled p && stp_is_designated_port s p
      then [(i, bpdu_frame (config_bytes (config_for s p 0)))] else []
  | None => []
  end.

(** What a configuration BPDU is built from, besides its port. *)
Definition bpdu_info (s : stp) :=
  (core s, topology_change s, max_age s, hello_time s, forward_delay s).

Lemma root_transmits i p s :
  ports s !! i = Some p -> stp_is_root_bridge s = true -> 0 < max_age s ->
  active (hold_timer p) = false ->
  let s' := stp_transmit_config i s in
  sent s' = sent s ++ [(i, bpdu_frame (config_bytes (config_for s p 0)))] /\
  bpdu_info s' = bpdu_info s /\ length (ports s') = length (ports s) /\
  forall j, j <> i -> ports s' !! j = ports s !! j.
Proof.
  intros E Hr Hm Hh. cbv zeta. unfold stp_transmit_config. rewrite E, Hr, Hh. cbn [negb andb].
  destruct (Z.ltb_spec 0 (max_age s)); [| lia]. unfold stp_send_bpdu.
  unfold bpdu_info, core, upd_port. rsimpl. rewrite !length_alter.
  split; [done | split; [done | split; [done |]]]. intros j Hj.
  by rewrite !list_lookup_alter_ne by done.
Qed.

Lemma config_for_info s s' p age : bpdu_info s' = bpdu_info s -> config_for s' p age = config_for s p age.
Proof.
  unfold bpdu_info, core. intros [= H1 H2 H3 H4 H5 H6 H7 H8]. unfold config_for.
  by rewrite H1, H2, H3, H5, H6, H7, H8.
Qed.

(** When no hold timer runs, a root bridge whose hello timer expires sends one
    configuration BPDU on every enabled designated port, in port order, and nothing else;
    each names the bridge as root, at message age zero. *)
Theorem stp_hello_complete s :
  stp_is_root_bridge s = true -> 0 < max_age s ->
  (forall i p, ports s !! i = Some p -> active (hold_timer p) = false) ->
  sent (stp_hello_timer_expiry s) =
  sent s ++ flat_map (hello_frame s) (seq 0 (length (ports s))).
Proof.
  intros Hr Hm Hh. unfold stp_hello_timer_expiry. rsimpl. unfold stp_config_bpdu_generation.
  set (f := λ i s, match ports s !! i with Some p => _ | None => s end).
  apply (for_each_ind_at (λ k s', sent s' = sent s ++ flat_map (hello_frame s) (seq 0 k) /\
    bpdu_info s' = bpdu_info s /\ length (ports s') = length (ports s) /\
    forall j, (k <= j)%nat -> ports s' !! j = ports s !! j)).
  - cbn [seq flat_map]. by rewrite app_nil_r.
  - intros i s' Hi (Hs & Hc & Hl & Hp). unfold visit.
    rewrite seq_S, flat_map_app. cbn [flat_map Nat.add]. rewrite app_nil_r.
    unfold hello_frame at 2. rewrite Hp by lia.
    assert (Hc' := Hc). unfold bpdu_info, core in Hc'. injection Hc' as Hb Hd _ _ _ Hma _ _.
    destruct (ports s !! i) as [p |] eqn:E.
    2: { apply lookup_ge_None in E. lia. }
    assert (stp_is_designated_port s' p = stp_is_designated_port s p) as Hdes
      by (unfold stp_is_designated_port; by rewrite Hb).
    assert (forall j, (S i <= j)%nat -> ports s' !! j = ports s !! j) as Hp' by (intros; apply Hp; lia).
    destruct (enabled p); cbn [andb]; [| by rewrite app_nil_r].
    subst f. cbv beta. rewrite Hp, E, Hdes by lia.
    destruct (stp_is_designated_port s p); [| by rewrite app_nil_r].
    destruct (root_transmits i p s') as (T1 & T2 & T3 & T4).
    + by rewrite Hp by lia.
    + unfold stp_is_root_bridge in *. by rewrite Hb, Hd.
    + by rewrite Hma.
    + by apply (Hh i).
    + rewrite T1, Hs, (config_for_info s s') by done. rewrite <- app_assoc.
      split; [done | split; [congruence | split; [congruence |]]].
      intros j Hj. rewrite T4 by lia. by apply Hp'.
Qed.

Lemma no_hold_timer s :
  forallb (λ p, negb (active (hold_timer p))) (ports s) = true ->
  forall i p, ports s !! i = Some p -> active (hold_timer p) = false.
Proof.
  intros H i p E. rewrite forallb_forall in H. apply negb_true_iff, H, list_elem_of_In.
  by apply list_elem_of_lookup_2 in E.
Qed.

(** A root bridge with two enabled ports. *)
Definition demo_root : stp := create_and_run 0x8000000000000005 [PortEnable 0; PortEnable 3].

Lemma stp_hello_complete_witness :
  map fst (sent (stp_hello_timer_expiry demo_root)) = [0; 3]%nat.
Proof.
  rewrite (stp_hello_complete demo_root).
  - by vm_compute.
  - by vm_compute.
  - by vm_compute.
  - apply no_hold_timer. by vm_compute.
Defined.

(** ** The report of changed ports *)

Definition changed_at (s : stp) (i : nat) : bool :=
  match ports s !! i with Some p => state_changed p | None => false end.

Definition changed (s : stp) : list nat := List.filter (changed_at s) (seq 0 STP_MAX_PORTS).

(** Calls [stp_get_changed_port] until it reports no port: the ports reported, and whether
    it came to that within [fuel] calls. *)
Fixpoint drain (fuel : nat) (s : stp) : list nat * bool :=
  match fuel with
  | O => ([], false)
  | S fuel =>
      match stp_get_changed_port s with
      | (_, None) => ([], true)
      | (s, Some i) => let '(l, ok) := drain fuel s in (i :: l, ok)
      end
  end.

Lemma filter_none {A} (f : A -> bool) l :
  (forall x, In x l -> f x = false) -> List.filter f l = [].
Proof.
  induction l as [| x l IH]; intros H; cbn [List.filter]; [done |].
  rewrite (H x) by (by left). apply IH. intros y Hy. apply H. by right.
Qed.

Lemma get_changed_port_step s :
  ports_inv s ->
  match stp_get_changed_port s with
  | (s', Some i) => changed s = i :: changed s'
  | (_, None) => changed s = []
  end.
Proof.
  intros Hinv. unfold stp_get_changed_port. pose proof (find_changed_bridge s Hinv) as H.
  destruct (find_changed _ _) as [i |].
  - destruct H as (Hi & (p & E & Hc) & Hlow).
    set (s' := upd_port i _ _).
    assert (forall j, changed_at s' j = if decide (i = j) then false else changed_at s j) as Hs'.
    { intros j. unfold changed_at, s'. rewrite lookup_upd_port. rsimpl.
      case_decide; [| done]. by destruct (ports s !! j). }
    unfold changed. replace STP_MAX_PORTS with (i + S (STP_MAX_PORTS - S i))%nat by lia.
    rewrite seq_app, !List.filter_app. cbn [seq List.filter Nat.add].
    rewrite Hs', decide_True by done. unfold changed_at at 2. rewrite E, Hc.
    rewrite (filter_none (changed_at s) (seq 0 i)), (filter_none (changed_at s') (seq 0 i)).
    + cbn [app]. f_equal. apply List.filter_ext_in. intros j Hj%in_seq.
      by rewrite Hs', decide_False by lia.
    + intros j Hj%in_seq. rewrite Hs'. case_decide; [done |]. unfold changed_at.
      destruct (ports s !! j) as [q |] eqn:Eq; [| done]. apply (Hlow j q); [lia | done].
    + intros j Hj%in_seq. unfold changed_at.
      destruct (ports s !! j) as [q |] eqn:Eq; [| done]. apply (Hlow j q); [lia | done].
  - apply filter_none. intros j _. unfold changed_at.
    destruct (ports s !! j) as [q |] eqn:Eq; [by eapply H | done].
Qed.

Lemma drain_spec fuel : forall s,
  bridge_inv s -> (length (changed s) < fuel)%nat -> drain fuel s = (changed s, true).
Proof.
  induction fuel as [| fuel IH]; intros s Hs Hf; [lia |]. cbn [drain].
  pose proof (get_changed_port_step s (inv_ports _ Hs)) as H.
  pose proof (bridge_inv_get_changed_port s Hs) as Hs'.
  destruct (stp_get_changed_port s) as [s' [i |]]; cbn [fst] in Hs'; [| by rewrite H].
  rewrite H in Hf |- *. cbn [length] in Hf. rewrite IH; [done | done | lia].
Qed.

(** On a reachable bridge, calling [stp_get_changed_port] until it returns no port
    reports every port whose state changed since it was last reported, each one once and in
    increasing order, within 256 calls. *)
Theorem stp_changed_ports_complete s :
  reachable s -> drain (S STP_MAX_PORTS) s = (changed s, true).
Proof.
  intros H%reachable_bridge_inv. apply drain_spec; [done |]. unfold changed.
  pose proof (List.filter_length_le (changed_at s) (seq 0 STP_MAX_PORTS)) as L.
  rewrite length_seq in L. lia.
Qed.

Lemma stp_changed_ports_complete_witness : (drain (S STP_MAX_PORTS) demo).1 = [0; 1; 2]%nat.
Proof.
  rewrite (stp_changed_ports_complete demo demo_reachable). by vm_compute.
Defined.
